(* ===== verification/_CoqProject ===== *)
-Q . S2P
Prelude.v
Bytes.v
Memory.v
Lib.v
FrameAlloc.v
Pfa.v
Paging.v
PagingProps.v
Mmu.v
Heap.v
HeapProps.v
BlockDev.v
Nvfs.v
NvfsLayout.v
NvfsDisk.v
NvfsBlocks.v
NvfsFiles.v
NvfsRead.v
NvfsPath.v
NvfsProps.v
NvfsDir.v
NvfsDemo.v
Keyboard.v
Sync.v
Sched.v
Task.v
TaskRing.v
TaskInv.v
TaskProps.v
Elf.v
ElfSpace.v
ElfBuild.v
ElfProps.v
NetBase.v
Tcp.v
NetStack.v
NetSum.v
NetFrames.v
NetInv.v
NetTerm.v
NetDeliver.v
NetProps.v
Font.v
Serial.v
Graphics.v
Screen.v
ScreenProps.v
Pci.v
SerialPort.v
Rtl8139.v
RtlProps.v
NicRtl.v
Acpi.v
Ata.v
AtaProps.v
Gdt.v
Apic.v
Text.v
PageDump.v
Power.v
Idt.v
IdtProps.v
ApStart.v
Timer.v
Readline.v
ReadlineProps.v
Shell.v
ShellProps.v
Syscall.v
User.v
Boot.v
BootMem.v
