(* ===== verification/Prelude.v ===== *)
(** * Noverix kernel: a verification library (root file)

    Noverix is a small 32-bit x86 kernel in C: boot code, a frame allocator,
    two-level paging, a heap, a file system on ATA disks, tasks and a work
    queue on several processors, an ELF loader, drivers, and a network stack
    with TCP.  This library translates the kernel's own logic into executable
    definitions, keeping the source's names, and proves what the rest of the
    kernel relies on.  Paths below are under src/kernel/.

    ** How the program is modelled

    - Unsigned C integers are [Z] with the wrap-around written out ([u8],
      [u16], [u32]); signed ones are [i32] of them where the source converts.
    - Memory that the code reaches through cast pointers (page tables, heap
      blocks, task stacks) is byte-addressed ([Memory]); C buffers that do
      not alias are lists of bytes ([Bytes]).
    - The static variables of a component are a record; an operation is a
      function from that record to its result and the new record.  Code that
      may fail in the middle runs in a monad that keeps the state on failure
      (file system, network stack).
    - A routine that holds its component's spin lock for its whole body is
      one step.  [Sync.spinlock_serialises] is the reason: at instruction
      granularity the protected data changes as if critical sections ran one
      after the other.  What the code does to shared data without the lock
      (a processor claiming the task it starts on, [Task.claim_idle]) is a
      step of its own.
    - Where a component is used by another, the user is proved against an
      interface: [FrameAlloc] (class [FrameAllocator], instance in [Pfa]),
      [BlockDev] (class of machines with disks that may fail, instance
      [ramdisk]; [readable] and [HealthyDrive] for drives that do not), [NetBase] (class [Nic] of network cards and clocks, and
      [NicSetup] of what starting one needs) with [NetTerm.FairNic], of which
      [NicRtl] gives the instances for rtl8139.c on a machine with the card
      (classes [NicObs], [NicMachine]), [ScreenProps] (class [Console], instances for the
      text buffer and the frame buffer), [SerialPort] (class [Uart], a 16550
      after its data sheet), [Pci] (class [Machine] of port
      instructions, [PciBus]), [RtlProps] (class [RxCard], the card's receive
      ring after its data sheet), [AtaProps] (class [AtaDrive], drives
      after the ATA standard, and [PromptDrive], what ata.c needs besides to
      implement [BlockDev]), [Apic]
      (class [Platform] of privileged instructions, [IoApicChip]), [Idt]
      (class [KernelState]), [Syscall] (class [SysOps] of what the system
      calls call).
    - Output of the other components to the screen and the serial log is
      omitted, it has no effect on their state; [nvfs_list] returns what it
      prints.  The output routines themselves are [Screen] and [Serial].

    ** Parts of the kernel and the files that model them

    - lib.c: [Lib].
    - memory/pfa.c: [FrameAlloc] (the promises), [Pfa].
    - memory/paging.c: [Paging], [PagingProps], [Mmu] (translation and access
      rights as the processor takes them from both levels), [PageDump] (the
      report of the page tables).
    - memory/heap.c: [Heap] (model, representation of the heap by a list of
      blocks), [HeapProps].
    - drivers/nvfs.c over drivers/ata.c and cpu/timer.c: [BlockDev] (the
      machine below), [Nvfs] (every function), [NvfsLayout] (on-disk bytes),
      [NvfsDisk] (which sectors a computation touches), [NvfsBlocks] (bitmap
      and inode table), [NvfsFiles], [NvfsRead], [NvfsPath], [NvfsProps],
      [NvfsDir], [NvfsDemo] (concrete disks and five defects).
    - drivers/keyboard.c: [Keyboard].
    - sync/sync.h: [Sync].  scheduler/scheduler.c: [Sched].
    - task.c, the interrupt handlers of cpu/timer.c, the exit call of elf.c:
      [Task] (model), [TaskRing] (the circular list), [TaskInv] (the
      invariant), [TaskProps].
    - elf.c: [Elf] (the checks, the address space, the image, the task),
      [ElfSpace] and [ElfBuild] (what the loader builds), [ElfProps].
    - net/net.c and net/tcp.c: [NetBase] (card and clock, monad, checksums),
      [Tcp], [NetStack], [NetSum] and [NetFrames] (checksums and frames),
      [NetInv] (calls, steps and the socket invariant), [NetTerm]
      (termination), [NetDeliver] (delivery), [NetProps].
    - drivers/screen.c, drivers/graphics.c, drivers/font.h, drivers/serial.c:
      [Font], [Serial] (the log), [SerialPort] (the port), [Graphics] (drawing, in terms of painted pixels),
      [Screen], [ScreenProps].
    - cpu/ports.h and drivers/pci.c: [Pci].  drivers/rtl8139.c: [Rtl8139],
      [RtlProps], and under the network stack [NicRtl].  acpi/rsdp.c and acpi/madt.c: [Acpi].
    - drivers/ata.c: [Ata], [AtaProps].
    - cpu/gdt.c: [Gdt].  cpu/idt.c: [Idt] (table, dispatch, report of an
      exception), [IdtProps].  apic/lapic.c, apic/ioapic.c, sync/tlb.c:
      [Apic].  ap_startup.c: [ApStart].  init_timer and sleep_ms of
      cpu/timer.c: [Timer].
    - kernel.c: [Text] (strings), [Readline] and [ReadlineProps] (the command
      line and its history), [Shell] (every command, pipes, the prompt) and
      [ShellProps], [Boot] (self tests of kernel_main, the frame buffer),
      [BootMem] (memory from power-on to the end of the first test),
      [Power] (reboot and shutdown, class [Kbc] of keyboard controllers).
    - the system calls of elf.c: [Syscall].  tests/noverix.h and
      tests/triangle.c: [User].

    ** What the theorems show

    Conditions under which a theorem holds are in its comment; where the code
    misbehaves outside them, a theorem next to it shows how.

    - Frames: after pfa_init the frames in use are exactly those held and
      those reserved, and a new frame or run of frames is neither.
    - Paging: the page tables refine a map from virtual pages to entries, of
      which mapping and unmapping are point updates; the report of the page
      tables counts exactly the mapped pages.
    - Heap: [malloc] is first fit on the list of blocks, [free] merges
      neighbours, and as long as clients stay inside their regions no call
      reaches the corrupted-heap halt and regions are disjoint; a [realloc]
      to one of the eleven largest sizes leaves four bytes.
    - File system: replacing the contents of a file is atomic however many
      of its disk operations fail (a crash leaves the old or the new
      contents), provided the search for free blocks cannot run over the
      bitmap's end ([NvfsBlocks.fits]); on a working drive what is written to
      an existing file is read back; a directory entry that is added is found
      and no other lookup changes (up to 13 extents); mounting takes the
      first valid superblock, with sums modulo 2^32; reads do not write.
    - Keyboard: the ring buffer is a first-in first-out queue of at most 255
      characters, for every interleaving of interrupts and reads.
    - Locks, work queue, tasks: critical sections are serialised; every job
      is called exactly once by its processor's polls; no two processors run
      one task and no two tasks share memory, in every interleaving in which
      a processor claims its first task before another picks it
      ([TaskProps.idle_start_race] without); sleepers wake at the first timer
      interrupt that finds them due and the lock free.
    - ELF loader: the checks accept exactly the well-formed files (ends of
      segments modulo 2^32), and a program that is started has its segments
      in fresh frames, which are not cleared elsewhere.
    - Network: checksums are those of RFC 1071; frames that are sent are
      accepted; an in-order segment for an established socket is delivered
      intact; every call returns in a time bounded by its time-out, the
      frames to come and the delay of the driver's calls, also when the card
      is the driver of rtl8139.c on its hardware; the socket table stays well
      typed.
    - Console: text mode and graphics mode both refine one abstract terminal
      (wrapping, tabs, scrolling), down to the pixels of the font, and touch
      nothing but video memory, as long as set_cursor, which does not check,
      is given positions on the screen; captured output comes back in order;
      numbers print as their digits.
    - Devices: the PCI search finds the first matching function; the card
      driver takes the oldest frame out of its ring and sends exactly the
      padded frame; the processor table is listed exactly; the serial port
      sends the bytes of the log, in order.
    - Disk: on a drive that follows the standard, answers in time and reports
      faults with ERR, the port protocol of ata.c reads and writes exactly
      the addressed sectors or reports an error, which is what the file
      system was proved against.
    - Interrupts and processors: every gate of the table leads to its stub
      with the right privilege; an interrupt of the controllers runs its
      handler once and is acknowledged where it came from (the reschedule
      interrupt ends theirs too); each processor's segments describe its own
      data and stack; the I/O APIC delivers the keyboard line only; every
      listed processor is sent the start sequence; sleep_ms returns, and not
      early, however the task is preempted.
    - Shell: the command line is an editor of text with a cursor and a
      history, but for the return from the history to the typed line; a pipe
      shows what its first command printed, up to 4095 characters; what echo
      writes to an existing file cat prints.
    - System calls and programs: a call stores its result in EAX of the saved
      frame and nothing else; the user library and the kernel agree on each
      call; the example program draws on the screen only.
    - Start: memory comes up on every machine with 2 MB to 4092 MB, the
      self tests pass, and the frame buffer is mapped when graphics mode starts.
    Each theorem that is listed as a property has an instance on concrete
    data next to it (named with the suffix [_witness]).

    ** Fuel and bounds

    Loops with a bound in the source run that many times ([for_up],
    [find_up]).  The heap's walks take one unit per block ([heap_fuel] is the
    largest number of blocks the heap can hold); the walks of the task ring
    take the number of task structures, shown to be enough; the serial
    port's polling loop takes one more unit than the chip's [slowness];
    init_paging takes one per 4 MB; the disk's status
    loops and retries have the counts of the source; sleep_ms takes fuel
    that the clock's progress bounds; polling loops of
    the network stack take fuel that [NetProps.every_call_returns] bounds by
    the time-outs, the readings until the counter moves and the number of
    frames received.  The work queue drains
    within 64 iterations.  No theorem assumes that a call returns.

    ** Not modelled

    Boot code, the trampoline of the other processors and the interrupt
    stubs (assembly); of kernel_main, the order of the initialisation
    routines that do not concern memory, each of which is modelled; the single
    instructions of cpu/ports.h and cpu/cpuid.h, which are the operations of
    the machine classes.  The system calls pass user pointers on as numbers:
    in [Syscall] what is read or written through them is a parameter, and so
    is the kernel behind the user library; the saved registers are not part
    of the kernel's state there, so a call that is given their address cannot
    overwrite them in the model.  [resolve_path] returns the last name as a
    list, where the source overruns a buffer for a name of more than 27
    characters.  The busy bit that LTR sets in the task descriptor and the
    default-size bit of a descriptor are not modelled ([Gdt]); memory and the
    other processors are separate states in [ApStart], so that only the
    presence of the start-up code is stated, not the order of copying and
    starting.  The commands heap and pages
    print to the serial log only and are no-ops of the shell's model (their
    routines are [Heap.heap_walk_impl] and [PageDump.dump_page_info]).  The TLB and weak memory
    ordering are outside the model: page tables are read directly, and the
    interleavings are sequentially consistent. *)
From stdpp Require Export base list list_numbers numbers gmap relations.
From Stdlib Require Export ZArith Lia.
#[export] Set Default Goal Selector "!".
#[global] Open Scope Z_scope.

(** ** Machine integers

    The kernel is 32-bit x86 code.  A C value of an unsigned w-bit type is
    a [Z] in [0, 2^w); every operation that may leave the range is followed
    by the wrap-around of its type. *)

Definition u8 (x : Z) : Z := x mod 256.

Definition u16 (x : Z) : Z := x mod 65536.

Definition u32 (x : Z) : Z := x mod 4294967296.

(** Conversion of an unsigned 32-bit value to [int] (two's complement). *)
Definition i32 (x : Z) : Z :=
  let y := u32 x in if y <? 2147483648 then y else y - 4294967296.

(** [b ? 1 : 0] *)
Definition c_bool (b : bool) : Z := if b then 1 else 0.

(** ** Loops of the C code

    [for_up n i step body s] is the loop
    [for (x = i; ...; x += step) body] run for [n] iterations. *)

Fixpoint for_up {S : Type} (n : nat) (i step : Z) (body : Z -> S -> S) (s : S) : S :=
  match n with
  | O => s
  | Datatypes.S n' => for_up n' (i + step) step body (body i s)
  end.

(** [find_up n i p]: the first [x] in [i, i + n) for which [p x]; the
    search loops that return from their body. *)
Fixpoint find_up (n : nat) (i : Z) (p : Z -> bool) : option Z :=
  match n with
  | O => None
  | Datatypes.S n' => if p i then Some i else find_up n' (i + 1) p
  end.

(** [all_up n i p]: the loops that clear a flag and [break] at the first
    [x] in [i, i + n) with [negb (p x)]. *)
Fixpoint all_up (n : nat) (i : Z) (p : Z -> bool) : bool :=
  match n with
  | O => true
  | Datatypes.S n' => if p i then all_up n' (i + 1) p else false
  end.

(** ** Automation *)

Create HintDb cdb.
Create Rewrite HintDb crw.

Ltac div_mod_lia := Z.to_euclidean_division_equations; lia.

(** [cint]: linear arithmetic over the fixed-width operations. *)
Ltac cint :=
  unfold u8, u16, u32, i32, c_bool in *;
  repeat match goal with
  | |- context [Z.ltb ?a ?b] => destruct (Z.ltb_spec a b)
  | H : context [Z.ltb ?a ?b] |- _ => destruct (Z.ltb_spec a b)
  end; div_mod_lia.

(** Turn a comparison of the model into the proposition it decides. *)
Ltac zbool :=
  repeat match goal with
  | H : (_ && _)%bool = true |- _ => apply andb_true_iff in H; destruct H
  | H : (_ || _)%bool = false |- _ => apply orb_false_iff in H; destruct H
  | H : negb _ = true |- _ => apply negb_true_iff in H
  | H : negb _ = false |- _ => apply negb_false_iff in H
  | H : (_ =? _) = true |- _ => apply Z.eqb_eq in H
  | H : (_ =? _) = false |- _ => apply Z.eqb_neq in H
  | H : (_ <? _) = true |- _ => apply Z.ltb_lt in H
  | H : (_ <? _) = false |- _ => apply Z.ltb_ge in H
  | H : (_ <=? _) = true |- _ => apply Z.leb_le in H
  | H : (_ <=? _) = false |- _ => apply Z.leb_gt in H
  end.

(** Case analysis on the comparisons that a step of the model branches on. *)
Ltac zcase :=
  match goal with
  | |- context [Z.eqb ?a ?b] => destruct (Z.eqb_spec a b)
  | |- context [Z.ltb ?a ?b] => destruct (Z.ltb_spec a b)
  | |- context [Z.leb ?a ?b] => destruct (Z.leb_spec a b)
  end.

(** ** Generic lemmas *)

Section loops.

Lemma find_up_Some (n : nat) (i : Z) (p : Z -> bool) (x : Z) :
  find_up n i p = Some x ->
  i <= x < i + Z.of_nat n /\ p x = true /\ (forall y, i <= y < x -> p y = false).
Proof.
  revert i; induction n as [|n IH]; intros i; simpl; [done|].
  destruct (p i) eqn:Hp.
  - intros [= <-]. split; [lia|]. split; [done|]. intros; lia.
  - intros H. apply IH in H as (Hr & Hx & Hy). split; [lia|]. split; [done|].
    intros y Hy'. destruct (Z.eq_dec y i) as [->|]; [done|]. apply Hy; lia.
Qed.

Lemma find_up_None (n : nat) (i : Z) (p : Z -> bool) :
  find_up n i p = None <-> (forall y, i <= y < i + Z.of_nat n -> p y = false).
Proof.
  revert i; induction n as [|n IH]; intros i; simpl.
  { split; [intros _ y Hy; lia|done]. }
  destruct (p i) eqn:Hp.
  - split; [done|]. intros H. rewrite (H i) in Hp by lia. done.
  - rewrite IH. split.
    + intros H y Hy. destruct (Z.eq_dec y i) as [->|]; [done|]. apply H; lia.
    + intros H y Hy. apply H; lia.
Qed.

Lemma find_up_first (n : nat) (i x : Z) (p : Z -> bool) :
  i <= x < i + Z.of_nat n -> p x = true ->
  (forall y, i <= y < x -> p y = false) -> find_up n i p = Some x.
Proof.
  intros Hx Hp Hy. destruct (find_up n i p) as [z|] eqn:E.
  - apply find_up_Some in E as (Hz & Hpz & Hyz). f_equal.
    destruct (Z.lt_trichotomy x z) as [?|[?|?]]; [|done|].
    + rewrite Hyz in Hp by lia; done.
    + rewrite Hy in Hpz by lia; done.
  - rewrite find_up_None in E. rewrite E in Hp by lia. done.
Qed.

Lemma find_up_app (a b : nat) (i : Z) (p : Z -> bool) :
  find_up (a + b) i p = match find_up a i p with Some x => Some x | None => find_up b (i + Z.of_nat a) p end.
Proof.
  revert i; induction a as [|a IH]; intros i.
  { cbn. f_equal. lia. }
  cbn [find_up Nat.add]. destruct (p i); [done|]. rewrite IH. destruct (find_up a (i + 1) p); [done|].
  f_equal. lia.
Qed.

Lemma all_up_true (n : nat) (i : Z) (p : Z -> bool) :
  all_up n i p = true <-> (forall y, i <= y < i + Z.of_nat n -> p y = true).
Proof.
  revert i; induction n as [|n IH]; intros i; simpl.
  { split; [intros _ y Hy; lia|done]. }
  destruct (p i) eqn:Hp.
  - rewrite IH. split.
    + intros H y Hy. destruct (Z.eq_dec y i) as [->|]; [done|]. apply H; lia.
    + intros H y Hy. apply H; lia.
  - split; [done|]. intros H. rewrite (H i) in Hp by lia. done.
Qed.

(** A loop keeps every invariant its body keeps. *)
Lemma for_up_ind {S : Type} (P : Z -> S -> Prop) (n : nat) (i step : Z) (body : Z -> S -> S) (s : S) :
  P i s ->
  (forall k x, 0 <= k < Z.of_nat n -> P (i + k * step) x ->
     P (i + (k + 1) * step) (body (i + k * step) x)) ->
  P (i + Z.of_nat n * step) (for_up n i step body s).
Proof.
  revert i s; induction n as [|n IH]; intros i s H0 Hs.
  { cbn [for_up]. replace (i + Z.of_nat 0 * step) with i by lia. done. }
  cbn [for_up]. replace (i + Z.of_nat (Datatypes.S n) * step)
    with ((i + step) + Z.of_nat n * step) by lia.
  apply IH.
  - specialize (Hs 0 s). replace (i + 0 * step) with i in Hs by lia.
    replace (i + (0 + 1) * step) with (i + step) in Hs by lia. apply Hs; [lia|done].
  - intros k x Hk Hx. specialize (Hs (k + 1) x).
    replace (i + (k + 1) * step) with (i + step + k * step) in Hs by lia.
    replace (i + (k + 1 + 1) * step) with (i + step + (k + 1) * step) in Hs by lia.
    apply Hs; [lia|done].
Qed.

Lemma for_up_ext {S : Type} (n : nat) (i step : Z) (f g : Z -> S -> S) (s : S) :
  (forall x t, f x t = g x t) -> for_up n i step f s = for_up n i step g s.
Proof. intros H. revert i s; induction n; intros; simpl; rewrite ?H; auto. Qed.

End loops.

Lemma u32_small (x : Z) : 0 <= x < 4294967296 -> u32 x = x.
Proof. intros. unfold u32. by apply Z.mod_small. Qed.

Lemma u32_range (x : Z) : 0 <= u32 x < 4294967296.
Proof. unfold u32. apply Z.mod_pos_bound. lia. Qed.

Lemma i32_small (x : Z) : 0 <= x < 2147483648 -> i32 x = x.
Proof. intros. unfold i32. cbv zeta. rewrite u32_small by lia. zcase; lia. Qed.

Lemma u8_small (x : Z) : 0 <= x < 256 -> u8 x = x.
Proof. intros. unfold u8. by apply Z.mod_small. Qed.

Lemma u8_range (x : Z) : 0 <= u8 x < 256.
Proof. unfold u8. apply Z.mod_pos_bound. lia. Qed.

#[export] Hint Resolve u32_range u8_range : cdb.
#[export] Hint Rewrite u32_small u8_small using lia : crw.

(** A predicate that every step keeps holds in every reachable state. *)
Lemma rtc_invariant {A : Type} (R : relation A) (P : A -> Prop) (x y : A) :
  (forall a b, P a -> R a b -> P b) -> rtc R x y -> P x -> P y.
Proof. intros Hs H. induction H; eauto. Qed.

(** ** Counting loops *)

(** [for (x = i; x < i + n; x++) if (p(x)) c++;] *)
Definition count_up (n : nat) (i : Z) (p : Z -> bool) : Z :=
  for_up n i 1 (fun x c => if p x then c + 1 else c) 0.

Lemma count_up_acc (n : nat) (i c : Z) (p : Z -> bool) :
  for_up n i 1 (fun x c => if p x then c + 1 else c) c = c + count_up n i p.
Proof.
  unfold count_up. revert i c; induction n as [|n IH]; intros i c; cbn [for_up]; [lia|].
  destruct (p i); rewrite IH.
  - rewrite (IH (i + 1) (0 + 1)). lia.
  - done.
Qed.

Lemma count_up_S (n : nat) (i : Z) (p : Z -> bool) :
  count_up (Datatypes.S n) i p = c_bool (p i) + count_up n (i + 1) p.
Proof.
  unfold count_up at 1. cbn [for_up]. rewrite count_up_acc. destruct (p i); simpl; lia.
Qed.

Lemma count_up_ext (n : nat) (i : Z) (p q : Z -> bool) :
  (forall x, i <= x < i + Z.of_nat n -> p x = q x) -> count_up n i p = count_up n i q.
Proof.
  revert i; induction n as [|n IH]; intros i H; [done|].
  rewrite !count_up_S, (H i), (IH (i + 1)); [done| |lia]. intros x Hx. apply H. lia.
Qed.

Lemma count_up_range (n : nat) (i : Z) (p : Z -> bool) : 0 <= count_up n i p <= Z.of_nat n.
Proof.
  revert i; induction n as [|n IH]; intros i; [cbn; lia|].
  rewrite count_up_S. specialize (IH (i + 1)). destruct (p i); simpl; lia.
Qed.

(** Counting in two parts, and when all or none count *)
Lemma count_up_app (n k : nat) (i : Z) (p : Z -> bool) :
  count_up (n + k) i p = count_up n i p + count_up k (i + Z.of_nat n) p.
Proof.
  revert i. induction n as [|n IH]; intros i.
  - change (count_up 0 i p) with 0. cbn [Nat.add]. f_equal. by rewrite Z.add_0_r.
  - cbn [Nat.add]. rewrite !count_up_S, IH. replace (i + Z.of_nat (Datatypes.S n)) with (i + 1 + Z.of_nat n) by lia. lia.
Qed.

Lemma count_up_true (n : nat) (i : Z) (p : Z -> bool) :
  (forall x, i <= x < i + Z.of_nat n -> p x = true) -> count_up n i p = Z.of_nat n.
Proof.
  revert i. induction n as [|n IH]; intros i Hp; [done|]. rewrite count_up_S, (Hp i), IH by (lia || (intros; apply Hp; lia)).
  cbn [c_bool]. lia.
Qed.

Lemma count_up_false (n : nat) (i : Z) (p : Z -> bool) :
  (forall x, i <= x < i + Z.of_nat n -> p x = false) -> count_up n i p = 0.
Proof.
  revert i. induction n as [|n IH]; intros i Hp; [done|]. rewrite count_up_S, (Hp i), IH by (lia || (intros; apply Hp; lia)).
  done.
Qed.

(** Two predicates that differ at one point of the range. *)
Lemma count_up_flip (n : nat) (i x : Z) (p q : Z -> bool) :
  i <= x < i + Z.of_nat n -> p x = true -> q x = false ->
  (forall y, i <= y < i + Z.of_nat n -> y <> x -> p y = q y) ->
  count_up n i p = count_up n i q + 1.
Proof.
  revert i; induction n as [|n IH]; intros i Hx Hp Hq H; [lia|].
  rewrite !count_up_S. destruct (Z.eq_dec i x) as [->|].
  - rewrite Hp, Hq. rewrite (count_up_ext n (x + 1) p q) by (intros; apply H; lia).
    simpl. lia.
  - rewrite (H i) by lia. rewrite (IH (i + 1)) by (done || lia || (intros; apply H; lia)). lia.
Qed.

(** ** Masks *)

(** [x & ~(2^k - 1)] rounds down to a multiple of [2^k]. *)
Lemma land_lnot_ones (x k : Z) : 0 <= k -> Z.land x (Z.lnot (Z.ones k)) = 2 ^ k * (x / 2 ^ k).
Proof.
  intros. rewrite <- Z.ldiff_land, Z.ldiff_ones_r, Z.shiftl_mul_pow2, Z.shiftr_div_pow2 by lia.
  lia.
Qed.

Lemma land_page_mask (x : Z) : Z.land x (Z.lnot 4095) = 4096 * (x / 4096).
Proof. apply (land_lnot_ones x 12). lia. Qed.

Lemma land_align4 (x : Z) : Z.land x (Z.lnot 3) = 4 * (x / 4).
Proof. apply (land_lnot_ones x 2). lia. Qed.

(** [x & 0xFFFFF000] *)
Lemma land_frame_mask (x : Z) : 0 <= x < 4294967296 -> Z.land x 4294963200 = 4096 * (x / 4096).
Proof.
  intros Hx. rewrite <- land_page_mask. apply Z.bits_inj'. intros n Hn.
  rewrite !Z.land_spec. change 4095 with (Z.ones 12).
  rewrite Z.lnot_spec, Z.testbit_ones_nonneg by lia.
  change 4294963200 with (Z.shiftl (Z.ones 20) 12).
  rewrite Z.shiftl_spec by lia.
  destruct (Z.ltb_spec n 12).
  - rewrite (Z.testbit_neg_r _ (n - 12)) by lia. by rewrite !andb_false_r.
  - rewrite Z.testbit_ones_nonneg by lia. destruct (Z.ltb_spec (n - 12) 20); [done|].
    rewrite Z.bits_above_log2; [done|lia|].
    destruct (Z.eq_dec x 0) as [->|]; [simpl; lia|].
    apply Z.log2_lt_pow2; [lia|]. apply Z.lt_le_trans with (2 ^ 32); [lia|].
    apply Z.pow_le_mono_r; lia.
Qed.

(** Testing one bit with a mask. *)
Lemma land_pow2 (x k : Z) : 0 <= k -> Z.land x (2 ^ k) = if Z.testbit x k then 2 ^ k else 0.
Proof.
  intros Hk. apply Z.bits_inj'. intros n Hn. rewrite Z.land_spec.
  destruct (Z.eq_dec n k) as [->|].
  - rewrite Z.pow2_bits_true by lia. destruct (Z.testbit x k).
    + by rewrite Z.pow2_bits_true by lia.
    + by rewrite Z.bits_0.
  - rewrite Z.pow2_bits_false by lia. rewrite andb_false_r. destruct (Z.testbit x k).
    + by rewrite Z.pow2_bits_false by lia.
    + by rewrite Z.bits_0.
Qed.

(** Bit fields side by side *)
Lemma lor_low (x y k : Z) : 0 <= k -> 0 <= y < 2 ^ k -> Z.lor (Z.shiftl x k) y = x * 2 ^ k + y.
Proof.
  intros Hk Hy. rewrite Z.shiftl_mul_pow2 by lia.
  assert (H0 : Z.land (x * 2 ^ k) y = 0).
  { apply Z.bits_inj'. intros n Hn. rewrite Z.land_spec, Z.bits_0.
    destruct (Z.ltb_spec n k); [by rewrite Z.mul_pow2_bits_low by lia|].
    rewrite <- (Z.mod_small y (2 ^ k)) by lia. rewrite Z.mod_pow2_bits_high by lia. apply andb_false_r. }
  rewrite Z.add_nocarry_lxor by exact H0. symmetry. by apply Z.lxor_lor.
Qed.

Lemma lor_range (a b k : Z) : 0 <= k -> 0 <= a < 2 ^ k -> 0 <= b < 2 ^ k -> 0 <= Z.lor a b < 2 ^ k.
Proof.
  intros Hk Ha Hb. assert (H0 : 0 <= Z.lor a b) by (apply Z.lor_nonneg; lia). split; [done|].
  destruct (Z.eq_dec (Z.lor a b) 0) as [->|]; [lia|]. apply Z.log2_lt_pow2; [lia|].
  rewrite Z.log2_lor by lia. apply Z.max_lub_lt.
  - destruct (Z.eq_dec a 0) as [->|]; [|apply Z.log2_lt_pow2; lia].
    destruct (Z.eq_dec k 0) as [->|]; [|simpl; lia]. change (2 ^ 0) with 1 in *.
    assert (b = 0) as -> by lia. done.
  - destruct (Z.eq_dec b 0) as [->|]; [|apply Z.log2_lt_pow2; lia].
    destruct (Z.eq_dec k 0) as [->|]; [|simpl; lia]. change (2 ^ 0) with 1 in *.
    assert (a = 0) as -> by lia. done.
Qed.

(** ** Arrays read by index *)

Lemma map_seqZ_ext {A : Type} (f g : Z -> A) (i n : Z) :
  (forall x, i <= x < i + n -> f x = g x) -> map f (seqZ i n) = map g (seqZ i n).
Proof.
  intros H. apply map_ext_in. intros x Hx. apply list_elem_of_In, elem_of_seqZ in Hx.
  apply H. lia.
Qed.

Lemma map_seqZ_shift {A : Type} (f : Z -> A) (i d n : Z) :
  map f (seqZ (i + d) n) = map (fun x => f (x + d)) (seqZ i n).
Proof.
  rewrite <- (map_map (fun x => x + d) f). f_equal.
  rewrite (map_ext (fun x => x + d) (Z.add d)) by (intros; lia).
  rewrite Z.add_comm. symmetry. exact (fmap_add_seqZ d i n).
Qed.
