(* ===== verification/Bytes.v ===== *)
(** * Byte buffers, little-endian words and bit arrays

    A C buffer [unsigned char buf[n]] is a [list Z] of [n] bytes.  This file
    has the accesses the kernel makes to one: a byte, an unaligned 32-bit
    word through a cast pointer (x86 is little-endian), and one bit of a
    bitmap; with the lemmas on reading what was written and on what a write
    leaves alone. *)
From S2P Require Import Prelude.

(** ** Accesses *)

Definition byte_at (l : list Z) (i : Z) : Z := default 0 (l !! Z.to_nat i).

Definition set_byte (l : list Z) (i v : Z) : list Z := <[Z.to_nat i := u8 v]> l.

Definition is_byte (b : Z) : Prop := 0 <= b < 256.

Definition is_bytes (l : list Z) : Prop := Forall is_byte l.

Definition le32 (b0 b1 b2 b3 : Z) : Z := b0 + 256 * b1 + 65536 * b2 + 16777216 * b3.

(** The 16-bit load and store through [l + i] cast to a halfword pointer. *)
Definition get16 (l : list Z) (i : Z) : Z := byte_at l i + 256 * byte_at l (i + 1).

Definition put16 (l : list Z) (i v : Z) : list Z := set_byte (set_byte l i v) (i + 1) (v / 256).

(** The 32-bit load through [l + i] cast to a word pointer. *)
Definition get32 (l : list Z) (i : Z) : Z :=
  le32 (byte_at l i) (byte_at l (i + 1)) (byte_at l (i + 2)) (byte_at l (i + 3)).

(** The 32-bit store of [v] through [l + i] cast to a word pointer. *)
Definition put32 (l : list Z) (i v : Z) : list Z :=
  set_byte (set_byte (set_byte (set_byte l i v) (i + 1) (v / 256)) (i + 2) (v / 65536))
    (i + 3) (v / 16777216).

(** [for (k = 0; k < |src|; k++) l[i + k] = src[k]] *)
Fixpoint put_bytes (l : list Z) (i : Z) (src : list Z) : list Z :=
  match src with
  | [] => l
  | b :: bs => put_bytes (set_byte l i b) (i + 1) bs
  end.

(** The [n] bytes from offset [i]. *)
Definition get_bytes (l : list Z) (i n : Z) : list Z :=
  map (fun k => byte_at l k) (seqZ i n).

(** ** Bitmaps: one bit per unit, eight to a byte *)

(** [(bm[i / 8] >> (i % 8)) & 1] *)
Definition bits_test (bm : list Z) (i : Z) : Z :=
  Z.land (Z.shiftr (byte_at bm (i / 8)) (i mod 8)) 1.

(** [bm[i / 8] & (1 << (i % 8))] *)
Definition bits_mask (bm : list Z) (i : Z) : Z :=
  Z.land (byte_at bm (i / 8)) (Z.shiftl 1 (i mod 8)).

(** [bm[i / 8] |= (1 << (i % 8))] *)
Definition bits_set (bm : list Z) (i : Z) : list Z :=
  set_byte bm (i / 8) (Z.lor (byte_at bm (i / 8)) (Z.shiftl 1 (i mod 8))).

(** [bm[i / 8] &= ~(1 << (i % 8))] *)
Definition bits_clear (bm : list Z) (i : Z) : list Z :=
  set_byte bm (i / 8) (Z.land (byte_at bm (i / 8)) (Z.lnot (Z.shiftl 1 (i mod 8)))).

(** What the bit means: the unit is in use. *)
Definition bit (bm : list Z) (i : Z) : bool := Z.testbit (byte_at bm (i / 8)) (i mod 8).

(** ** Lemmas on bytes *)

Lemma length_set_byte (l : list Z) (i v : Z) : length (set_byte l i v) = length l.
Proof. apply length_insert. Qed.

Lemma byte_at_set_eq (l : list Z) (i v : Z) :
  0 <= i < Z.of_nat (length l) -> byte_at (set_byte l i v) i = u8 v.
Proof. intros. unfold byte_at, set_byte. rewrite list_lookup_insert_eq by lia. done. Qed.

Lemma byte_at_set_ne (l : list Z) (i j v : Z) :
  0 <= i -> 0 <= j -> i <> j -> byte_at (set_byte l i v) j = byte_at l j.
Proof. intros. unfold byte_at, set_byte. rewrite list_lookup_insert_ne by lia. done. Qed.

Lemma is_bytes_byte_at (l : list Z) (i : Z) : is_bytes l -> 0 <= byte_at l i < 256.
Proof.
  intros H. unfold byte_at. destruct (l !! Z.to_nat i) as [b|] eqn:E; simpl; [|lia].
  exact (Forall_lookup_1 _ _ _ _ H E).
Qed.

Lemma is_bytes_set_byte (l : list Z) (i v : Z) : is_bytes l -> is_bytes (set_byte l i v).
Proof. intros. apply Forall_insert; [done|]. unfold is_byte. apply u8_range. Qed.

Lemma is_bytes_replicate (n : nat) (b : Z) : 0 <= b < 256 -> is_bytes (replicate n b).
Proof. intros. by apply Forall_replicate. Qed.

Lemma length_put32 (l : list Z) (i v : Z) : length (put32 l i v) = length l.
Proof. unfold put32. by rewrite !length_set_byte. Qed.

Lemma is_bytes_put32 (l : list Z) (i v : Z) : is_bytes l -> is_bytes (put32 l i v).
Proof. intros. unfold put32. by repeat apply is_bytes_set_byte. Qed.

Lemma byte_at_put32_ne (l : list Z) (i j v : Z) :
  0 <= i -> 0 <= j -> j < i \/ i + 4 <= j -> byte_at (put32 l i v) j = byte_at l j.
Proof. intros. unfold put32. by rewrite !byte_at_set_ne by lia. Qed.

(** The four bytes of a word recombine to the word. *)
Lemma le32_split (v : Z) :
  le32 (u8 v) (u8 (v / 256)) (u8 (v / 65536)) (u8 (v / 16777216)) = u32 v.
Proof. unfold le32. cint. Qed.

Lemma le32_range (b0 b1 b2 b3 : Z) :
  is_byte b0 -> is_byte b1 -> is_byte b2 -> is_byte b3 -> 0 <= le32 b0 b1 b2 b3 < 4294967296.
Proof. unfold is_byte, le32. lia. Qed.

Lemma get32_range (l : list Z) (i : Z) : is_bytes l -> 0 <= get32 l i < 4294967296.
Proof. intros H. apply le32_range; by apply is_bytes_byte_at. Qed.

Lemma get32_put32_eq (l : list Z) (i v : Z) :
  0 <= i -> i + 4 <= Z.of_nat (length l) -> get32 (put32 l i v) i = u32 v.
Proof.
  intros. unfold get32, put32. rewrite <- le32_split.
  repeat first
    [ rewrite byte_at_set_eq by (rewrite ?length_set_byte; lia)
    | rewrite byte_at_set_ne by lia ].
  done.
Qed.

Lemma get32_put32_ne (l : list Z) (i j v : Z) :
  0 <= i -> 0 <= j -> i + 4 <= j \/ j + 4 <= i -> get32 (put32 l i v) j = get32 l j.
Proof. intros. unfold get32. by rewrite !byte_at_put32_ne by lia. Qed.

Lemma get32_set_byte_ne (l : list Z) (i j v : Z) :
  0 <= i -> 0 <= j -> i < j \/ j + 4 <= i -> get32 (set_byte l i v) j = get32 l j.
Proof. intros. unfold get32. by rewrite !byte_at_set_ne by lia. Qed.

Lemma length_put_bytes (src l : list Z) (i : Z) : length (put_bytes l i src) = length l.
Proof.
  revert l i; induction src as [|b bs IH]; intros l i; simpl; [done|].
  by rewrite IH, length_set_byte.
Qed.

Lemma is_bytes_put_bytes (src l : list Z) (i : Z) : is_bytes l -> is_bytes (put_bytes l i src).
Proof.
  revert l i; induction src; intros l i H; simpl; [done|].
  by apply IHsrc, is_bytes_set_byte.
Qed.

Lemma byte_at_put_bytes_out (src l : list Z) (i j : Z) :
  0 <= i -> 0 <= j -> j < i \/ i + Z.of_nat (length src) <= j ->
  byte_at (put_bytes l i src) j = byte_at l j.
Proof.
  revert l i; induction src as [|b bs IH]; intros l i Hi Hj Hr; simpl in *; [done|].
  rewrite IH by lia. apply byte_at_set_ne; lia.
Qed.

Lemma byte_at_put_bytes_in (src l : list Z) (i j : Z) :
  0 <= i -> i + Z.of_nat (length src) <= Z.of_nat (length l) ->
  i <= j < i + Z.of_nat (length src) ->
  byte_at (put_bytes l i src) j = u8 (byte_at src (j - i)).
Proof.
  revert l i; induction src as [|b bs IH]; intros l i Hi Hl Hj; simpl in *; [lia|].
  destruct (Z.eq_dec i j) as [->|].
  - rewrite byte_at_put_bytes_out by lia. rewrite byte_at_set_eq by lia.
    by replace (j - j) with 0 by lia.
  - rewrite IH by (rewrite ?length_set_byte; lia).
    f_equal. unfold byte_at. replace (Z.to_nat (j - i)) with (S (Z.to_nat (j - (i + 1)))) by lia.
    done.
Qed.

Lemma length_get_bytes (l : list Z) (i n : Z) : length (get_bytes l i n) = Z.to_nat n.
Proof. unfold get_bytes. by rewrite length_map, length_seqZ. Qed.

Lemma byte_at_get_bytes (l : list Z) (i n j : Z) :
  0 <= j < n -> byte_at (get_bytes l i n) j = byte_at l (i + j).
Proof.
  intros. unfold byte_at at 1, get_bytes. rewrite list_lookup_fmap.
  rewrite lookup_seqZ_lt by lia. simpl. f_equal. lia.
Qed.

(** Two buffers of one length with the same bytes are equal. *)
Lemma bytes_ext (l l' : list Z) :
  length l = length l' -> (forall i, 0 <= i < Z.of_nat (length l) -> byte_at l i = byte_at l' i) ->
  l = l'.
Proof.
  intros Hl H. apply list_eq_same_length with (length l); [done|done|].
  intros i x y Hi Hx Hy. specialize (H (Z.of_nat i)). unfold byte_at in H.
  rewrite Nat2Z.id, Hx, Hy in H. simpl in H. apply H. lia.
Qed.

(** Writing bytes and reading them back. *)
Lemma get_put_bytes (src l : list Z) (i : Z) :
  is_bytes src -> 0 <= i -> i + Z.of_nat (length src) <= Z.of_nat (length l) ->
  get_bytes (put_bytes l i src) i (Z.of_nat (length src)) = src.
Proof.
  intros Hb Hi Hl. apply bytes_ext; rewrite length_get_bytes; [lia|].
  intros j Hj. rewrite byte_at_get_bytes by lia.
  rewrite byte_at_put_bytes_in by lia.
  replace (i + j - i) with j by lia. apply u8_small. by apply is_bytes_byte_at.
Qed.

(** ** Lemmas on bits *)

Lemma shiftl1_testbit (n m : Z) : 0 <= n -> 0 <= m -> Z.testbit (Z.shiftl 1 n) m = (n =? m).
Proof.
  intros. rewrite Z.shiftl_1_l.
  destruct (Z.eqb_spec n m) as [->|]; [by rewrite Z.pow2_bits_true|].
  by rewrite Z.pow2_bits_false.
Qed.

Lemma u8_testbit (x n : Z) : 0 <= n < 8 -> Z.testbit (u8 x) n = Z.testbit x n.
Proof. intros. unfold u8. change 256 with (2 ^ 8). by rewrite Z.mod_pow2_bits_low by lia. Qed.

Lemma bits_test_spec (bm : list Z) (i : Z) : bits_test bm i = c_bool (bit bm i).
Proof.
  unfold bits_test, bit. change 1 with (Z.ones 1).
  rewrite Z.land_ones by lia. change (2 ^ 1) with 2.
  rewrite <- Z.bit0_mod, Z.shiftr_spec by lia. simpl.
  by destruct (Z.testbit _ _).
Qed.

Lemma bits_mask_spec (bm : list Z) (i : Z) : (bits_mask bm i =? 0) = negb (bit bm i).
Proof.
  unfold bits_mask, bit.
  pose proof (Z.mod_pos_bound i 8 ltac:(lia)).
  set (b := byte_at bm (i / 8)). set (k := i mod 8) in *.
  assert (Hk : Z.testbit (Z.land b (Z.shiftl 1 k)) k = Z.testbit b k).
  { rewrite Z.land_spec, shiftl1_testbit, Z.eqb_refl, andb_true_r by lia. done. }
  destruct (Z.eqb_spec (Z.land b (Z.shiftl 1 k)) 0) as [E|E].
  - rewrite E, Z.bits_0 in Hk. by rewrite <- Hk.
  - destruct (Z.testbit b k) eqn:Eb; [done|]. exfalso. apply E.
    apply Z.bits_inj'. intros n Hn. rewrite Z.bits_0, Z.land_spec, shiftl1_testbit by lia.
    destruct (Z.eqb_spec k n) as [<-|]; [by rewrite Eb|by rewrite andb_false_r].
Qed.

Lemma length_bits_set (bm : list Z) (i : Z) : length (bits_set bm i) = length bm.
Proof. apply length_set_byte. Qed.

Lemma length_bits_clear (bm : list Z) (i : Z) : length (bits_clear bm i) = length bm.
Proof. apply length_set_byte. Qed.

Lemma is_bytes_bits_set (bm : list Z) (i : Z) : is_bytes bm -> is_bytes (bits_set bm i).
Proof. apply is_bytes_set_byte. Qed.

Lemma is_bytes_bits_clear (bm : list Z) (i : Z) : is_bytes bm -> is_bytes (bits_clear bm i).
Proof. apply is_bytes_set_byte. Qed.

Lemma bit_set (bm : list Z) (i j : Z) :
  0 <= i < 8 * Z.of_nat (length bm) -> 0 <= j ->
  bit (bits_set bm i) j = (if i =? j then true else bit bm j).
Proof.
  intros Hi Hj. unfold bit, bits_set.
  destruct (Z.eq_dec (i / 8) (j / 8)) as [E|E].
  - rewrite <- E. rewrite byte_at_set_eq by div_mod_lia.
    rewrite u8_testbit by (apply Z.mod_pos_bound; lia).
    rewrite Z.lor_spec, shiftl1_testbit by (apply Z.mod_pos_bound; lia).
    destruct (Z.eqb_spec i j) as [->|]; [by rewrite Z.eqb_refl, orb_true_r|].
    replace (i mod 8 =? j mod 8) with false; [by rewrite orb_false_r|].
    symmetry; apply Z.eqb_neq. div_mod_lia.
  - rewrite byte_at_set_ne by div_mod_lia.
    destruct (Z.eqb_spec i j) as [->|]; [done|done].
Qed.

Lemma bit_clear (bm : list Z) (i j : Z) :
  0 <= i < 8 * Z.of_nat (length bm) -> 0 <= j ->
  bit (bits_clear bm i) j = (if i =? j then false else bit bm j).
Proof.
  intros Hi Hj. unfold bit, bits_clear.
  destruct (Z.eq_dec (i / 8) (j / 8)) as [E|E].
  - rewrite <- E. rewrite byte_at_set_eq by div_mod_lia.
    rewrite u8_testbit by (apply Z.mod_pos_bound; lia).
    rewrite Z.land_spec, Z.lnot_spec, shiftl1_testbit by (apply Z.mod_pos_bound; lia).
    destruct (Z.eqb_spec i j) as [->|]; [by rewrite Z.eqb_refl, andb_false_r|].
    replace (i mod 8 =? j mod 8) with false; [by rewrite andb_true_r|].
    symmetry; apply Z.eqb_neq. div_mod_lia.
  - rewrite byte_at_set_ne by div_mod_lia.
    destruct (Z.eqb_spec i j) as [->|]; [done|done].
Qed.

#[export] Hint Rewrite length_set_byte length_put32 length_put_bytes length_get_bytes
  length_bits_set length_bits_clear : crw.
#[export] Hint Resolve is_bytes_set_byte is_bytes_put32 is_bytes_put_bytes is_bytes_bits_set
  is_bytes_bits_clear is_bytes_byte_at : cdb.
