(* ===== verification/Memory.v ===== *)
(** * Byte-addressed physical memory

    The kernel runs with memory identity-mapped and reads and writes it
    through cast pointers.  Memory is a finite map from addresses to bytes;
    an address that was never written holds an arbitrary value that the map
    fixes (0 by default), so a theorem for every map covers every initial
    content.  Page tables, heap headers and string buffers all live here. *)
From S2P Require Import Prelude Bytes.

Abbreviation memory := (gmap Z Z).

Definition load8 (m : memory) (a : Z) : Z := u8 (default 0 (m !! a)).

Definition store8 (m : memory) (a v : Z) : memory := <[a := u8 v]> m.

Definition load16 (m : memory) (a : Z) : Z := load8 m a + 256 * load8 m (a + 1).

Definition store16 (m : memory) (a v : Z) : memory := store8 (store8 m a v) (a + 1) (v / 256).

Definition load32 (m : memory) (a : Z) : Z :=
  le32 (load8 m a) (load8 m (a + 1)) (load8 m (a + 2)) (load8 m (a + 3)).

Definition store32 (m : memory) (a v : Z) : memory :=
  store8 (store8 (store8 (store8 m a v) (a + 1) (v / 256)) (a + 2) (v / 65536))
    (a + 3) (v / 16777216).

(** The [n] bytes from address [a]. *)
Definition load_bytes (m : memory) (a n : Z) : list Z := map (load8 m) (seqZ a n).

(** ** Reading back and framing *)

Lemma load8_store8_eq (m : memory) (a v : Z) : load8 (store8 m a v) a = u8 v.
Proof.
  unfold load8, store8. rewrite lookup_insert_eq. simpl. unfold u8. by rewrite Zmod_mod.
Qed.

Lemma load8_store8_ne (m : memory) (a b v : Z) : a <> b -> load8 (store8 m a v) b = load8 m b.
Proof. intros. unfold load8, store8. by rewrite lookup_insert_ne. Qed.

Lemma load8_range (m : memory) (a : Z) : 0 <= load8 m a < 256.
Proof. apply u8_range. Qed.

Lemma load8_store32_ne (m : memory) (a b v : Z) :
  b < a \/ a + 4 <= b -> load8 (store32 m a v) b = load8 m b.
Proof. intros. unfold store32. by rewrite !load8_store8_ne by lia. Qed.

Lemma load32_store32_eq (m : memory) (a v : Z) : load32 (store32 m a v) a = u32 v.
Proof.
  unfold load32, store32. rewrite <- le32_split.
  repeat first [rewrite load8_store8_eq | rewrite load8_store8_ne by lia]. done.
Qed.

Lemma load32_store32_ne (m : memory) (a b v : Z) :
  a + 4 <= b \/ b + 4 <= a -> load32 (store32 m a v) b = load32 m b.
Proof. intros. unfold load32. by rewrite !load8_store32_ne by lia. Qed.

Lemma load32_store8_ne (m : memory) (a b v : Z) :
  a < b \/ b + 4 <= a -> load32 (store8 m a v) b = load32 m b.
Proof. intros. unfold load32. by rewrite !load8_store8_ne by lia. Qed.

Lemma load32_range (m : memory) (a : Z) : 0 <= load32 m a < 4294967296.
Proof. apply le32_range; apply load8_range. Qed.

Lemma load32_ext (m m' : memory) (a : Z) :
  (forall b, a <= b < a + 4 -> load8 m' b = load8 m b) -> load32 m' a = load32 m a.
Proof. intros H. unfold load32. rewrite !H by lia. done. Qed.

Lemma length_load_bytes (m : memory) (a n : Z) : length (load_bytes m a n) = Z.to_nat n.
Proof. unfold load_bytes. by rewrite length_map, length_seqZ. Qed.

Lemma byte_at_load_bytes (m : memory) (a n i : Z) :
  0 <= i < n -> byte_at (load_bytes m a n) i = load8 m (a + i).
Proof.
  intros. unfold byte_at, load_bytes. rewrite list_lookup_fmap, lookup_seqZ_lt by lia.
  simpl. f_equal. lia.
Qed.

Lemma load_bytes_ext (m m' : memory) (a a' n : Z) :
  (forall i, 0 <= i < n -> load8 m (a + i) = load8 m' (a' + i)) ->
  load_bytes m a n = load_bytes m' a' n.
Proof.
  intros H. apply bytes_ext; rewrite !length_load_bytes; [done|].
  intros i Hi. rewrite !byte_at_load_bytes by lia. apply H. lia.
Qed.

(** [mem_same m m' P]: the two memories agree on the addresses in [P]. *)
Definition mem_same (m m' : memory) (P : Z -> Prop) : Prop :=
  forall a, P a -> load8 m' a = load8 m a.

#[export] Instance mem_same_refl (P : Z -> Prop) (m : memory) :
  Reflexive (fun m m' => mem_same m m' P).
Proof. by intros x a _. Qed.

Lemma mem_same_trans (m1 m2 m3 : memory) (P : Z -> Prop) :
  mem_same m1 m2 P -> mem_same m2 m3 P -> mem_same m1 m3 P.
Proof. intros H1 H2 a Ha. by rewrite H2, H1. Qed.

Lemma mem_same_weaken (m1 m2 : memory) (P Q : Z -> Prop) :
  mem_same m1 m2 P -> (forall a, Q a -> P a) -> mem_same m1 m2 Q.
Proof. intros H HQ a Ha. by apply H, HQ. Qed.

Lemma mem_same_store32 (m : memory) (a v : Z) :
  mem_same m (store32 m a v) (fun b => b < a \/ a + 4 <= b).
Proof. intros b Hb. by apply load8_store32_ne. Qed.

Lemma mem_same_load32 (m m' : memory) (P : Z -> Prop) (a : Z) :
  mem_same m m' P -> (forall b, a <= b < a + 4 -> P b) -> load32 m' a = load32 m a.
Proof. intros H HP. apply load32_ext. intros b Hb. by apply H, HP. Qed.

#[export] Hint Resolve load8_range load32_range : cdb.
