(* ===== verification/Lib.v ===== *)
(** * kernel/lib.c: memcpy, memset and the string routines

    Each routine works on [memory] the way the C loop does, one byte at a
    time in increasing address order, so overlapping copies behave as in
    the source.  The routines that stop at a NUL take the largest length
    they may scan as fuel; [None] is "no NUL in that many bytes". *)
From S2P Require Import Prelude Bytes Memory.

Module Lib.

Definition lib_memcpy (m : memory) (dst src n : Z) : memory :=
  for_up (Z.to_nat n) 0 1 (fun i m => store8 m (dst + i) (load8 m (src + i))) m.

Definition lib_memset (m : memory) (dst v n : Z) : memory :=
  for_up (Z.to_nat n) 0 1 (fun i m => store8 m (dst + i) v) m.

Definition lib_strlen (fuel : nat) (m : memory) (s : Z) : option Z :=
  find_up fuel 0 (fun n => load8 m (s + n) =? 0).

(** Advance while the first string has a byte and the bytes agree; then the
    difference of the two bytes. *)
Fixpoint lib_strcmp (fuel : nat) (m : memory) (a b : Z) : option Z :=
  match fuel with
  | O => None
  | S fuel' =>
    if negb (load8 m a =? 0) && (load8 m a =? load8 m b)
    then lib_strcmp fuel' m (a + 1) (b + 1)
    else Some (load8 m a - load8 m b)
  end.

(** The copying loop of [lib_strcpy]: it stops after copying the NUL. *)
Fixpoint strcpy_loop (fuel : nat) (m : memory) (dst src : Z) : option memory :=
  match fuel with
  | O => None
  | S fuel' =>
    let c := load8 m src in
    let m' := store8 m dst c in
    if c =? 0 then Some m' else strcpy_loop fuel' m' (dst + 1) (src + 1)
  end.

Definition lib_strcpy (fuel : nat) (m : memory) (dst src : Z) : option memory :=
  if (dst =? 0) || (src =? 0) then Some m else strcpy_loop fuel m dst src.

(** [str_at m a s]: the NUL-terminated string at [a] is [s]. *)
Definition str_at (m : memory) (a : Z) (s : list Z) : Prop :=
  Forall (fun c => 0 < c < 256) s /\
  load_bytes m a (Z.of_nat (length s)) = s /\ load8 m (a + Z.of_nat (length s)) = 0.

(** ** Lemmas *)

Lemma lib_memcpy_spec (m : memory) (dst src n : Z) :
  0 <= n -> dst <= src \/ src + n <= dst ->
  (forall i, 0 <= i < n -> load8 (lib_memcpy m dst src n) (dst + i) = load8 m (src + i)) /\
  mem_same m (lib_memcpy m dst src n) (fun a => a < dst \/ dst + n <= a).
Proof.
  intros Hn Hov. unfold lib_memcpy.
  pose (P := fun k (m' : memory) =>
    (forall i, 0 <= i < k -> load8 m' (dst + i) = load8 m (src + i)) /\
    (forall a, a < dst \/ dst + k <= a -> load8 m' a = load8 m a)).
  assert (H : P (0 + Z.of_nat (Z.to_nat n) * 1)
    (for_up (Z.to_nat n) 0 1 (fun i m => store8 m (dst + i) (load8 m (src + i))) m)).
  { apply for_up_ind; [split; [lia|done]|].
    intros k x Hk [Hin Hout]. replace (0 + k * 1) with k in * by lia.
    replace (0 + (k + 1) * 1) with (k + 1) by lia.
    assert (Hs : load8 x (src + k) = load8 m (src + k)) by (apply Hout; lia).
    split.
    - intros i Hi. destruct (Z.eq_dec i k) as [->|].
      + rewrite load8_store8_eq, Hs. apply u8_small, load8_range.
      + rewrite load8_store8_ne by lia. apply Hin. lia.
    - intros a Ha. rewrite load8_store8_ne by lia. apply Hout. lia. }
  replace (0 + Z.of_nat (Z.to_nat n) * 1) with n in H by lia. destruct H as [Hin Hout].
  split; [done|]. intros a Ha. by apply Hout.
Qed.

Lemma lib_memset_spec (m : memory) (dst v n : Z) :
  0 <= n ->
  (forall i, 0 <= i < n -> load8 (lib_memset m dst v n) (dst + i) = u8 v) /\
  mem_same m (lib_memset m dst v n) (fun a => a < dst \/ dst + n <= a).
Proof.
  intros Hn. unfold lib_memset.
  pose (P := fun k (m' : memory) =>
    (forall i, 0 <= i < k -> load8 m' (dst + i) = u8 v) /\
    (forall a, a < dst \/ dst + k <= a -> load8 m' a = load8 m a)).
  assert (H : P (0 + Z.of_nat (Z.to_nat n) * 1)
    (for_up (Z.to_nat n) 0 1 (fun i m => store8 m (dst + i) v) m)).
  { apply for_up_ind; [split; [lia|done]|].
    intros k x Hk [Hin Hout]. replace (0 + k * 1) with k in * by lia.
    replace (0 + (k + 1) * 1) with (k + 1) by lia. split.
    - intros i Hi. destruct (Z.eq_dec i k) as [->|].
      + by rewrite load8_store8_eq.
      + rewrite load8_store8_ne by lia. apply Hin. lia.
    - intros a Ha. rewrite load8_store8_ne by lia. apply Hout. lia. }
  replace (0 + Z.of_nat (Z.to_nat n) * 1) with n in H by lia. destruct H as [Hin Hout].
  split; [done|]. intros a Ha. by apply Hout.
Qed.

Lemma str_at_cons (m : memory) (a c : Z) (s : list Z) :
  str_at m a (c :: s) <-> 0 < c < 256 /\ load8 m a = c /\ str_at m (a + 1) s.
Proof.
  unfold str_at. rewrite Forall_cons. cbn [length]. unfold load_bytes.
  rewrite seqZ_cons by lia. cbn [map].
  replace (Z.succ a) with (a + 1) by lia.
  replace (Z.pred (Z.of_nat (S (length s)))) with (Z.of_nat (length s)) by lia.
  replace (a + Z.of_nat (S (length s))) with (a + 1 + Z.of_nat (length s)) by lia.
  split.
  - intros ([Hc Hs] & [= H1 H2] & H3). tauto.
  - intros (Hc & H1 & Hs & H2 & H3). split; [done|]. split; [by f_equal|done].
Qed.

Lemma str_at_nil (m : memory) (a : Z) : str_at m a [] <-> load8 m a = 0.
Proof.
  unfold str_at. cbn [length]. replace (a + Z.of_nat 0) with a by lia.
  split; [by intros (_ & _ & ?)|]. intros H. by repeat split.
Qed.

Lemma lib_strlen_spec (fuel : nat) (m : memory) (a : Z) (s : list Z) :
  str_at m a s -> (length s < fuel)%nat -> lib_strlen fuel m a = Some (Z.of_nat (length s)).
Proof.
  intros (Hc & Hb & H0) Hf. unfold lib_strlen.
  apply find_up_first; [lia| by rewrite H0|].
  intros y Hy. apply Z.eqb_neq.
  assert (E : byte_at s y = load8 m (a + y)).
  { rewrite <- Hb at 1. apply byte_at_load_bytes. lia. }
  rewrite <- E. unfold byte_at. destruct (s !! Z.to_nat y) as [c|] eqn:El.
  - pose proof (Forall_lookup_1 _ _ _ _ Hc El). simpl in *. lia.
  - apply lookup_ge_None in El. lia.
Qed.

Lemma lib_strcmp_spec (fuel : nat) (m : memory) (s t : list Z) (a b : Z) :
  str_at m a s -> str_at m b t -> (length s < fuel)%nat ->
  exists d, lib_strcmp fuel m a b = Some d /\ (d = 0 <-> s = t).
Proof.
  revert a b t fuel; induction s as [|c s IH]; intros a b t fuel Hs Ht Hf;
    (destruct fuel as [|fuel]; [simpl in *; lia|]); cbn [lib_strcmp].
  - apply str_at_nil in Hs. rewrite Hs. simpl. eexists; split; [done|].
    destruct t as [|d t]; [apply str_at_nil in Ht; rewrite Ht; done|].
    apply str_at_cons in Ht as (Hd & Hl & _). rewrite Hl. split; [lia|done].
  - apply str_at_cons in Hs as (Hc & Hl & Hs). rewrite Hl.
    destruct (Z.eqb_spec c 0); [lia|]. simpl.
    destruct t as [|d t].
    + apply str_at_nil in Ht. rewrite Ht. destruct (Z.eqb_spec c 0); [lia|].
      eexists; split; [done|]. split; [lia|done].
    + apply str_at_cons in Ht as (Hd & Hl' & Ht). rewrite Hl'.
      destruct (Z.eqb_spec c d) as [->|].
      * destruct (IH (a + 1) (b + 1) t fuel) as (x & Hx & Hxe); [done|done|simpl in *; lia|].
        exists x. split; [done|]. rewrite Hxe. split; [by intros ->|by intros [= ->]].
      * eexists; split; [done|]. split; [lia|by intros [= ->]].
Qed.

Lemma strcpy_loop_spec (fuel : nat) (m : memory) (dst src : Z) (s : list Z) :
  str_at m src s -> (length s < fuel)%nat ->
  dst + Z.of_nat (length s) < src \/ src + Z.of_nat (length s) < dst ->
  exists m', strcpy_loop fuel m dst src = Some m' /\ str_at m' dst s /\
    mem_same m m' (fun a => a < dst \/ dst + Z.of_nat (length s) < a).
Proof.
  revert m dst src fuel; induction s as [|c s IH]; intros m dst src fuel Hs Hf Hd;
    (destruct fuel as [|fuel]; [simpl in *; lia|]); cbn [strcpy_loop].
  - apply str_at_nil in Hs. rewrite Hs. simpl. eexists; split; [done|]. split.
    + apply str_at_nil. by rewrite load8_store8_eq.
    + intros a Ha. apply load8_store8_ne. simpl in *; lia.
  - cbn [length] in *. apply str_at_cons in Hs as (Hc & Hl & Hs). rewrite Hl.
    destruct (Z.eqb_spec c 0); [lia|].
    set (m1 := store8 m dst c).
    destruct (IH m1 (dst + 1) (src + 1) fuel) as (m' & E & Hs' & Hm).
    { destruct Hs as (H1 & H2 & H3). split; [done|]. unfold m1. split.
      - rewrite <- H2 at 2. apply load_bytes_ext. intros i Hi. apply load8_store8_ne. lia.
      - rewrite <- H3. apply load8_store8_ne. lia. }
    { lia. }
    { lia. }
    exists m'. split; [done|]. split.
    + apply str_at_cons. split; [done|]. split; [|done].
      rewrite Hm by lia. unfold m1. rewrite load8_store8_eq. by apply u8_small; lia.
    + intros a Ha. rewrite Hm by lia. apply load8_store8_ne. lia.
Qed.

End Lib.
