(* ===== verification/FrameAlloc.v ===== *)
(** * What the page-frame allocator promises its clients

    [kernel/memory/pfa.h] as a typeclass: the calls paging and the task
    code make, the set of frames in use as the abstract state, and the laws
    the clients rely on.  [Pfa] gives the instance for pfa.c; [Paging] is
    proved against this interface. *)
From S2P Require Import Prelude.

Definition FRAME_SIZE : Z := 4096.

Class FrameAllocator (A : Type) := {
  (** [alloc_frame()]: a physical address, 0 when out of memory *)
  fa_alloc : A -> Z * A;
  (** [free_frame(addr)] *)
  fa_free : A -> Z -> A;
  (** the frames the allocator manages, and whether one is in use *)
  fa_total : A -> Z;
  fa_used : A -> Z -> bool;
  (** the allocator's own invariant *)
  fa_ok : A -> Prop }.

Class FrameAllocatorLaws (A : Type) {FA : FrameAllocator A} : Prop := {
  fa_total_range (s : A) : fa_ok s -> 0 <= fa_total s <= 262144;
  (** a successful call hands out one free frame, never frame 0, and marks it *)
  fa_alloc_some (s s' : A) (a : Z) :
    fa_ok s -> fa_alloc s = (a, s') -> a <> 0 ->
    exists f, a = f * FRAME_SIZE /\ 0 < f < fa_total s /\ fa_used s f = false /\
      fa_ok s' /\ fa_total s' = fa_total s /\
      (forall g, 0 <= g < fa_total s -> fa_used s' g = (g =? f) || fa_used s g);
  (** a failing call changes nothing, and fails only when no frame is free *)
  fa_alloc_none (s s' : A) :
    fa_ok s -> fa_alloc s = (0, s') ->
    s' = s /\ (forall g, 0 <= g < fa_total s -> fa_used s g = true);
  fa_free_spec (s : A) (a : Z) :
    fa_ok s -> FRAME_SIZE <= a < 4294967296 ->
    fa_ok (fa_free s a) /\ fa_total (fa_free s a) = fa_total s /\
    (forall g, 0 <= g < fa_total s ->
       fa_used (fa_free s a) g = negb (g =? a / FRAME_SIZE) && fa_used s g) }.

(** The number of free frames, and that an allocation succeeds exactly when
    it is positive. *)
Definition fa_free_count {A} `{FrameAllocator A} (s : A) : Z :=
  count_up (Z.to_nat (fa_total s)) 0 (fun f => negb (fa_used s f)).

Section count.
Context {A : Type} `{FAL : FrameAllocatorLaws A}.

Lemma fa_alloc_count (s s' : A) (a : Z) :
  fa_ok s -> fa_alloc s = (a, s') -> a <> 0 -> fa_free_count s = fa_free_count s' + 1.
Proof.
  intros Hok E Ha. destruct (fa_alloc_some s s' a Hok E Ha) as (f & _ & Hr & Hu & _ & Ht & Hu').
  unfold fa_free_count. rewrite Ht. apply count_up_flip with f; [lia|by rewrite Hu| |].
  - rewrite Hu' by lia. by rewrite Z.eqb_refl.
  - intros y Hy Hne. rewrite Hu' by lia. destruct (Z.eqb_spec y f); [lia|done].
Qed.

Lemma fa_alloc_succeeds (s : A) :
  fa_ok s -> 0 < fa_free_count s -> (fa_alloc s).1 <> 0.
Proof.
  intros Hok Hc Ha. destruct (fa_alloc s) as [a s'] eqn:E. simpl in Ha. subst a.
  destruct (fa_alloc_none s s' Hok E) as [_ Hu]. revert Hc. unfold fa_free_count.
  rewrite (count_up_ext _ _ _ (fun _ => false)).
  - assert (forall n i, count_up n i (fun _ => false) = 0) as ->; [|lia].
    induction n; intros i; [done|]. rewrite count_up_S, IHn. done.
  - intros x Hx. rewrite Hu by lia. done.
Qed.

End count.
