(* ===== verification/Pfa.v ===== *)
(** * kernel/memory/pfa.c: the bitmap page-frame allocator

    State: the static [bitmap], one bit per 4 KB frame, and [total_frames].
    Every public entry point takes [pfa_lock] for its whole body, so each is
    one atomic step on the state.  The serial log lines are output only. *)
From S2P Require Import Prelude Bytes FrameAlloc.

Module Pfa.

Definition MAX_MEMORY : Z := 1073741824.

Definition MAX_FRAMES : Z := 262144.

Record pfa := mkPfa { bitmap : list Z; total_frames : Z }.

Definition FRAME (addr : Z) : Z := addr / FRAME_SIZE.

Definition ADDR (frame : Z) : Z := u32 (frame * FRAME_SIZE).

Definition set_bit (p : pfa) (frame : Z) : pfa :=
  mkPfa (bits_set (bitmap p) frame) (total_frames p).

Definition clear_bit (p : pfa) (frame : Z) : pfa :=
  mkPfa (bits_clear (bitmap p) frame) (total_frames p).

Definition test_bit (p : pfa) (frame : Z) : Z := bits_test (bitmap p) frame.

Definition mark_frame (p : pfa) (addr : Z) : pfa :=
  let frame := FRAME addr in
  if frame <? total_frames p then set_bit p frame else p.

(** [pfa_init(detected_ram)], with the address of the linker symbol
    [bss_end] as an argument.  The loops step by [FRAME_SIZE]. *)
Definition pfa_init (p : pfa) (bss_end detected_ram : Z) : pfa :=
  let ram := if MAX_MEMORY <? detected_ram then MAX_MEMORY else detected_ram in
  let p := mkPfa (bitmap p) (ram / FRAME_SIZE) in
  let kernel_end := Z.land (u32 (bss_end + FRAME_SIZE - 1)) (Z.lnot (FRAME_SIZE - 1)) in
  let p := for_up (Z.to_nat (kernel_end / FRAME_SIZE)) 0 FRAME_SIZE
             (fun a p => mark_frame p a) p in
  let p := mark_frame p 589824 in
  let p := mark_frame p 655360 in
  for_up (Z.to_nat ((1048576 - 655360) / FRAME_SIZE)) 655360 FRAME_SIZE
    (fun a p => mark_frame p a) p.

Definition alloc_frame (p : pfa) : Z * pfa :=
  match find_up (Z.to_nat (total_frames p)) 0 (fun i => test_bit p i =? 0) with
  | Some i => (ADDR i, set_bit p i)
  | None => (0, p)
  end.

Definition free_frame (p : pfa) (addr : Z) : pfa :=
  if addr =? 0 then p
  else let frame := FRAME addr in
       if frame <? total_frames p then clear_bit p frame else p.

Definition get_free_frame_count (p : pfa) : Z :=
  count_up (Z.to_nat (total_frames p)) 0 (fun i => test_bit p i =? 0).

Definition alloc_frames (p : pfa) (count : Z) : Z * pfa :=
  if (count =? 0) || (total_frames p <? count) then (0, p)
  else
    match find_up (Z.to_nat (total_frames p - count + 1)) 0
            (fun start => all_up (Z.to_nat count) 0 (fun j => test_bit p (start + j) =? 0)) with
    | Some start =>
        (ADDR start, for_up (Z.to_nat count) 0 1 (fun j p => set_bit p (start + j)) p)
    | None => (0, p)
    end.

Definition free_frames (p : pfa) (addr count : Z) : pfa :=
  let start := FRAME addr in
  for_up (Z.to_nat count) 0 1
    (fun j p => if u32 (start + j) <? total_frames p then clear_bit p (u32 (start + j)) else p) p.

(** ** Abstract state and invariant *)

(** A frame is in use. *)
Definition used (p : pfa) (f : Z) : bool := bit (bitmap p) f.

(** The bitmap has its declared size, the managed frames fit it, and frame 0
    is reserved (so that a returned address is never the null pointer). *)
Definition pfa_inv (p : pfa) : Prop :=
  length (bitmap p) = Z.to_nat (MAX_FRAMES / 8) /\ is_bytes (bitmap p) /\
  0 <= total_frames p <= MAX_FRAMES /\ (0 < total_frames p -> used p 0 = true).

(** The same without the reserved frame: what [pfa_init] starts from. *)
Definition pfa_shape (p : pfa) : Prop :=
  length (bitmap p) = Z.to_nat (MAX_FRAMES / 8) /\ is_bytes (bitmap p) /\
  0 <= total_frames p <= MAX_FRAMES.

(** ** Lemmas *)

Lemma pfa_inv_shape (p : pfa) : pfa_inv p -> pfa_shape p.
Proof. by intros (? & ? & ? & _). Qed.

Lemma test_bit_free (p : pfa) (f : Z) : (test_bit p f =? 0) = negb (used p f).
Proof. unfold test_bit, used. rewrite bits_test_spec. by destruct (bit _ _). Qed.

Lemma used_set_bit (p : pfa) (f g : Z) :
  pfa_shape p -> 0 <= f < MAX_FRAMES -> 0 <= g -> used (set_bit p f) g = (g =? f) || used p g.
Proof.
  intros (Hl & _) Hf Hg. unfold used, set_bit. cbn [bitmap]. rewrite bit_set; [|rewrite Hl|done].
  - rewrite Z.eqb_sym. by destruct (g =? f).
  - unfold MAX_FRAMES in *. div_mod_lia.
Qed.

Lemma used_clear_bit (p : pfa) (f g : Z) :
  pfa_shape p -> 0 <= f < MAX_FRAMES -> 0 <= g ->
  used (clear_bit p f) g = negb (g =? f) && used p g.
Proof.
  intros (Hl & _) Hf Hg. unfold used, clear_bit. cbn [bitmap]. rewrite bit_clear; [|rewrite Hl|done].
  - rewrite Z.eqb_sym. by destruct (g =? f).
  - unfold MAX_FRAMES in *. div_mod_lia.
Qed.

Lemma shape_set_bit (p : pfa) (f : Z) : pfa_shape p -> pfa_shape (set_bit p f).
Proof.
  intros (? & ? & ?). split; [|split]; cbn [set_bit bitmap total_frames];
    [by rewrite length_bits_set|by apply is_bytes_bits_set|done].
Qed.

Lemma shape_clear_bit (p : pfa) (f : Z) : pfa_shape p -> pfa_shape (clear_bit p f).
Proof.
  intros (? & ? & ?). split; [|split]; cbn [clear_bit bitmap total_frames];
    [by rewrite length_bits_clear|by apply is_bytes_bits_clear|done].
Qed.

Lemma ADDR_small (f : Z) : 0 <= f < MAX_FRAMES -> ADDR f = f * FRAME_SIZE.
Proof. intros. unfold ADDR. apply u32_small. unfold MAX_FRAMES, FRAME_SIZE in *. lia. Qed.

(** *** Marking a run of frames *)

Lemma mark_frame_spec (p : pfa) (a g : Z) :
  pfa_shape p -> 0 <= a -> 0 <= g < total_frames p ->
  pfa_shape (mark_frame p a) /\ total_frames (mark_frame p a) = total_frames p /\
  used (mark_frame p a) g = (g =? FRAME a) || used p g.
Proof.
  intros Hs Ha Hg. assert (0 <= FRAME a) by (apply Z.div_pos; unfold FRAME_SIZE; lia).
  unfold mark_frame. destruct (Z.ltb_spec (FRAME a) (total_frames p)).
  - split; [by apply shape_set_bit|]. split; [done|].
    apply used_set_bit; [done| |lia]. destruct Hs as (_ & _ & ?). lia.
  - split; [done|]. split; [done|]. destruct (Z.eqb_spec g (FRAME a)); [lia|done].
Qed.

Lemma mark_range_spec (n : nat) (p : pfa) (a g : Z) :
  pfa_shape p -> 0 <= a -> a mod FRAME_SIZE = 0 -> 0 <= g < total_frames p ->
  let p' := for_up n a FRAME_SIZE (fun a p => mark_frame p a) p in
  pfa_shape p' /\ total_frames p' = total_frames p /\
  used p' g = (FRAME a <=? g) && (g <? FRAME a + Z.of_nat n) || used p g.
Proof.
  intros Hs Ha Hm Hg p'.
  pose (P := fun x (q : pfa) =>
    pfa_shape q /\ total_frames q = total_frames p /\
    used q g = (FRAME a <=? g) && (g <? FRAME x) || used p g).
  assert (H : P (a + Z.of_nat n * FRAME_SIZE) p').
  { apply for_up_ind.
    - split; [done|]. split; [done|].
      destruct (Z.leb_spec (FRAME a) g), (Z.ltb_spec g (FRAME a)); (lia || done).
    - intros k x Hk (Hsx & Ht & Hu).
      assert (Hx : 0 <= a + k * FRAME_SIZE) by (unfold FRAME_SIZE; lia).
      destruct (mark_frame_spec x (a + k * FRAME_SIZE) g) as (Hs' & Ht' & Hu'); [done|done|lia|].
      split; [done|]. split; [lia|]. rewrite Hu', Hu.
      assert (E : FRAME (a + (k + 1) * FRAME_SIZE) = FRAME (a + k * FRAME_SIZE) + 1)
        by (unfold FRAME, FRAME_SIZE in *; div_mod_lia).
      assert (FRAME a <= FRAME (a + k * FRAME_SIZE)) by (unfold FRAME, FRAME_SIZE in *; div_mod_lia).
      rewrite E.
      destruct (Z.eqb_spec g (FRAME (a + k * FRAME_SIZE))) as [->|];
        destruct (Z.leb_spec (FRAME a) (FRAME (a + k * FRAME_SIZE))); try lia;
        repeat (zcase; try lia); done. }
  destruct H as (H1 & H2 & H3). split; [done|]. split; [done|]. rewrite H3.
  replace (FRAME (a + Z.of_nat n * FRAME_SIZE)) with (FRAME a + Z.of_nat n); [done|].
  unfold FRAME, FRAME_SIZE in *; div_mod_lia.
Qed.

(** The bitmap that [pfa_init] leaves, from a bitmap of zeros: the frames of
    the kernel image, the boot stack's frame and the BIOS area. *)
Definition reserved (bss_end f : Z) : bool :=
  (f <? (bss_end + FRAME_SIZE - 1) / FRAME_SIZE) || (f =? 144) || (160 <=? f) && (f <? 256).

Lemma pfa_init_spec (p : pfa) (bss_end ram : Z) :
  length (bitmap p) = Z.to_nat (MAX_FRAMES / 8) -> is_bytes (bitmap p) ->
  (forall f, 0 <= f < MAX_FRAMES -> used p f = false) ->
  0 < bss_end <= 4294963200 -> 0 <= ram < 4294967296 ->
  let p' := pfa_init p bss_end ram in
  pfa_inv p' /\ total_frames p' = Z.min ram MAX_MEMORY / FRAME_SIZE /\
  (forall f, 0 <= f < total_frames p' -> used p' f = reserved bss_end f).
Proof.
  intros Hl Hb Hz Hbss Hram p'.
  set (T := Z.min ram MAX_MEMORY / FRAME_SIZE).
  assert (HT : 0 <= T <= MAX_FRAMES)
    by (unfold T, MAX_MEMORY, MAX_FRAMES, FRAME_SIZE; div_mod_lia).
  assert (Hmain : forall f, 0 <= f < T ->
    pfa_shape p' /\ total_frames p' = T /\ used p' f = reserved bss_end f).
  { intros f Hf. unfold p', pfa_init.
    replace ((if MAX_MEMORY <? ram then MAX_MEMORY else ram) / FRAME_SIZE) with T
      by (unfold T; destruct (Z.ltb_spec MAX_MEMORY ram); f_equal; lia).
    set (p0 := mkPfa (bitmap p) T).
    assert (H0 : pfa_shape p0) by done.
    rewrite u32_small by (unfold FRAME_SIZE; lia).
    change (FRAME_SIZE - 1) with 4095. rewrite land_page_mask.
    set (n1 := Z.to_nat (4096 * _ / _)).
    assert (Hn1 : Z.of_nat n1 = (bss_end + FRAME_SIZE - 1) / FRAME_SIZE)
.
    { unfold n1, FRAME_SIZE. rewrite Z.mul_comm, Z.div_mul by lia. rewrite Z2Nat.id; [done|]. apply Z.div_pos; lia. }
    destruct (mark_range_spec n1 p0 0 f H0) as (H1 & H1t & H1u); [lia|done|done|].
    set (p1 := for_up n1 _ _ _ _) in *. cbn [p0 total_frames] in H1t.
    destruct (mark_frame_spec p1 589824 f H1) as (H2 & H2t & H2u); [lia|lia|].
    set (p2 := mark_frame p1 589824) in *.
    destruct (mark_frame_spec p2 655360 f H2) as (H3 & H3t & H3u); [lia|lia|].
    set (p3 := mark_frame p2 655360) in *.
    set (n2 := Z.to_nat ((1048576 - 655360) / FRAME_SIZE)).
    destruct (mark_range_spec n2 p3 655360 f H3) as (H4 & H4t & H4u); [lia|done|lia|].
    split; [done|]. split; [lia|]. rewrite H4u, H3u, H2u, H1u.
    change (FRAME 655360) with 160. change (FRAME 589824) with 144. change (FRAME 0) with 0.
    change (160 + Z.of_nat n2) with 256. rewrite Hn1.
    replace (used p0 f) with false by (symmetry; apply (Hz f); lia).
    unfold reserved. repeat (zcase; try lia); try done. }
  destruct (Z.eq_dec T 0) as [E0|].
  { assert (Ht0 : forall q a, total_frames q = 0 -> 0 <= a -> mark_frame q a = q).
    { intros q a Hq Ha. unfold mark_frame. rewrite Hq.
      destruct (Z.ltb_spec (FRAME a) 0) as [Hc|]; [|done].
      unfold FRAME in Hc. assert (0 <= a / FRAME_SIZE) by (apply Z.div_pos; unfold FRAME_SIZE; lia).
      lia. }
    assert (Hf0 : forall n q a, total_frames q = 0 -> 0 <= a ->
      for_up n a FRAME_SIZE (fun a p => mark_frame p a) q = q).
    { induction n as [|n IH]; intros q a Hq Ha; cbn [for_up]; [done|].
      rewrite Ht0 by done. apply IH; [done|unfold FRAME_SIZE; lia]. }
    assert (Hp' : p' = mkPfa (bitmap p) T).
    { unfold p', pfa_init.
      replace ((if MAX_MEMORY <? ram then MAX_MEMORY else ram) / FRAME_SIZE) with T
        by (unfold T; destruct (Z.ltb_spec MAX_MEMORY ram); f_equal; lia).
      rewrite E0. rewrite !Hf0, !Ht0; (done || lia || idtac).
      all: rewrite ?Hf0; try done; lia. }
    rewrite Hp'. split; [|split; [done|cbn [total_frames]; lia]].
    split; [done|]. split; [done|]. split; [done|]. cbn [total_frames]. lia. }
  destruct (Hmain 0) as (Hs & Ht & Hu); [lia|].
  split; [|split; [done|intros f Hf; apply Hmain; lia]].
  destruct Hs as (? & ? & ?). split; [done|]. split; [done|]. split; [done|].
  intros _. rewrite Hu. unfold reserved.
  destruct (Z.ltb_spec 0 ((bss_end + FRAME_SIZE - 1) / FRAME_SIZE)); [done|].
  unfold FRAME_SIZE in *. div_mod_lia.
Qed.

(** *** Single frames *)

Lemma alloc_frame_some (p p' : pfa) (a : Z) :
  pfa_inv p -> alloc_frame p = (a, p') -> a <> 0 ->
  exists f, a = f * FRAME_SIZE /\ 0 < f < total_frames p /\ used p f = false /\
    (forall g, 0 <= g < f -> used p g = true) /\
    pfa_inv p' /\ total_frames p' = total_frames p /\
    (forall g, 0 <= g -> used p' g = (g =? f) || used p g).
Proof.
  intros Hi H Ha. pose proof (pfa_inv_shape p Hi) as Hs. unfold alloc_frame in H.
  destruct (find_up _ _ _) as [f|] eqn:E; [|congruence].
  apply find_up_Some in E as (Hr & Hf & Hlow). injection H as <- <-.
  rewrite test_bit_free in Hf. apply negb_true_iff in Hf.
  assert (Hlow' : forall g, 0 <= g < f -> used p g = true).
  { intros g Hg. apply Hlow in Hg. rewrite test_bit_free in Hg. by apply negb_false_iff in Hg. }
  destruct Hi as (Hl & Hb & Ht & H0).
  assert (f <> 0) by (intros ->; rewrite H0 in Hf by lia; done).
  exists f. rewrite ADDR_small by lia. split; [done|]. split; [lia|]. split; [done|].
  split; [done|].
  assert (Hu : forall g, 0 <= g -> used (set_bit p f) g = (g =? f) || used p g)
    by (intros; apply used_set_bit; (done || lia)).
  split; [|split; [done|done]].
  pose proof (shape_set_bit p f Hs) as (? & ? & ?). split; [done|]. split; [done|].
  split; [done|]. intros Hp. rewrite Hu by lia. cbn [set_bit total_frames] in Hp.
  rewrite H0 by lia. by rewrite orb_true_r.
Qed.

Lemma alloc_frame_none (p p' : pfa) :
  pfa_inv p -> alloc_frame p = (0, p') ->
  p' = p /\ (forall g, 0 <= g < total_frames p -> used p g = true).
Proof.
  intros Hi H. unfold alloc_frame in H. destruct (find_up _ _ _) as [f|] eqn:E.
  - apply find_up_Some in E as (Hr & Hf & _). injection H as Ha _.
    destruct Hi as (_ & _ & Ht & H0). rewrite ADDR_small in Ha by lia.
    assert (f = 0) as -> by (unfold FRAME_SIZE in Ha; lia).
    rewrite test_bit_free, H0 in Hf by lia. done.
  - injection H as <-. split; [done|]. intros g Hg.
    rewrite find_up_None in E. specialize (E g). rewrite test_bit_free in E.
    apply negb_false_iff, E. lia.
Qed.

Lemma free_frame_spec (p : pfa) (a : Z) :
  pfa_inv p -> FRAME_SIZE <= a ->
  pfa_inv (free_frame p a) /\ total_frames (free_frame p a) = total_frames p /\
  (forall g, 0 <= g < total_frames p ->
     used (free_frame p a) g = negb (g =? a / FRAME_SIZE) && used p g).
Proof.
  intros Hi Ha. pose proof (pfa_inv_shape p Hi) as Hs. unfold free_frame.
  destruct (Z.eqb_spec a 0); [unfold FRAME_SIZE in Ha; lia|].
  assert (1 <= FRAME a) by (unfold FRAME, FRAME_SIZE in *; div_mod_lia).
  destruct (Z.ltb_spec (FRAME a) (total_frames p)).
  - assert (Hu : forall g, 0 <= g -> used (clear_bit p (FRAME a)) g
                 = negb (g =? FRAME a) && used p g).
    { intros. apply used_clear_bit; [done| |done]. destruct Hs as (_ & _ & ?). lia. }
    split; [|split; [done|]]; [|intros; rewrite Hu by lia; done].
    pose proof (shape_clear_bit p (FRAME a) Hs) as (? & ? & ?).
    split; [done|]. split; [done|]. split; [done|]. intros Hp. rewrite Hu by lia.
    destruct Hi as (_ & _ & _ & Hz0). rewrite Hz0 by done.
    destruct (Z.eqb_spec 0 (FRAME a)); [lia|done].
  - split; [done|]. split; [done|]. intros g Hg. unfold FRAME in *.
    destruct (Z.eqb_spec g (a / FRAME_SIZE)); [lia|done].
Qed.

(** *** Runs of frames *)

Lemma set_run_spec (n : nat) (p : pfa) (start : Z) :
  pfa_shape p -> 0 <= start -> start + Z.of_nat n <= total_frames p ->
  let p' := for_up n 0 1 (fun j p => set_bit p (start + j)) p in
  pfa_shape p' /\ total_frames p' = total_frames p /\
  (forall g, 0 <= g -> used p' g = (start <=? g) && (g <? start + Z.of_nat n) || used p g).
Proof.
  intros Hs H0 Hn p'.
  pose (P := fun x (q : pfa) => pfa_shape q /\ total_frames q = total_frames p /\
    forall g, 0 <= g -> used q g = (start <=? g) && (g <? start + x) || used p g).
  assert (H : P (0 + Z.of_nat n * 1) p').
  { apply for_up_ind.
    - split; [done|]. split; [done|]. intros g Hg. repeat (zcase; try lia); done.
    - intros k x Hk (Hsx & Ht & Hu). split; [by apply shape_set_bit|]. split; [done|].
      intros g Hg. rewrite used_set_bit; [|done| |done].
      + rewrite Hu by done. destruct (used p g); rewrite ?orb_true_r; [done|].
        rewrite !orb_false_r. repeat (zcase; try lia); done.
      + destruct Hs as (_ & _ & ?). lia. }
  replace (0 + Z.of_nat n * 1) with (Z.of_nat n) in H by lia. exact H.
Qed.

Lemma alloc_frames_some (p p' : pfa) (count a : Z) :
  pfa_inv p -> 0 <= count < 4294967296 -> alloc_frames p count = (a, p') -> a <> 0 ->
  exists start, a = start * FRAME_SIZE /\ 0 < start /\ start + count <= total_frames p /\
    0 < count /\
    (forall g, start <= g < start + count -> used p g = false) /\
    pfa_inv p' /\ total_frames p' = total_frames p /\
    (forall g, 0 <= g -> used p' g = (start <=? g) && (g <? start + count) || used p g).
Proof.
  intros Hi Hc H Ha. pose proof (pfa_inv_shape p Hi) as Hs. unfold alloc_frames in H.
  destruct ((count =? 0) || (total_frames p <? count)) eqn:Eg; [congruence|]. zbool.
  destruct (find_up _ _ _) as [st|] eqn:E; [|congruence].
  apply find_up_Some in E as (Hr & Hf & _). injection H as <- <-.
  rewrite all_up_true in Hf.
  assert (Hfree : forall g, st <= g < st + count -> used p g = false).
  { intros g Hg. specialize (Hf (g - st)). replace (st + (g - st)) with g in Hf by lia.
    rewrite test_bit_free in Hf. apply negb_true_iff, Hf. lia. }
  destruct Hi as (Hl & Hb & Ht & Hz0).
  assert (st <> 0) by (intros ->; specialize (Hfree 0); rewrite Hz0 in Hfree by lia;
    discriminate Hfree; lia).
  destruct (set_run_spec (Z.to_nat count) p st Hs) as (Hs' & Ht' & Hu'); [lia|lia|].
  replace (Z.of_nat (Z.to_nat count)) with count in Hu' by lia.
  exists st. rewrite ADDR_small by lia. do 4 (split; [lia|]). split; [done|].
  split; [|split; [done|done]].
  destruct Hs' as (? & ? & ?). split; [done|]. split; [done|]. split; [done|].
  intros _. rewrite Hu', Hz0 by lia. by rewrite orb_true_r.
Qed.

Lemma alloc_frames_none (p p' : pfa) (count : Z) :
  pfa_inv p -> 0 < count < 4294967296 -> alloc_frames p count = (0, p') ->
  p' = p /\ forall start, 0 <= start -> start + count <= total_frames p ->
    exists g, start <= g < start + count /\ used p g = true.
Proof.
  intros Hi Hc H. unfold alloc_frames in H.
  destruct ((count =? 0) || (total_frames p <? count)) eqn:Eg.
  { injection H as <-. split; [done|]. intros st Hst Hle.
    apply orb_true_iff in Eg as [?|?]; zbool; lia. }
  zbool. destruct (find_up _ _ _) as [st|] eqn:E.
  - apply find_up_Some in E as (Hr & Hf & _). injection H as Ha _.
    destruct Hi as (_ & _ & Ht & Hz0). rewrite ADDR_small in Ha by lia.
    assert (st = 0) as -> by (unfold FRAME_SIZE in Ha; lia).
    rewrite all_up_true in Hf. specialize (Hf 0). rewrite test_bit_free in Hf.
    change (0 + 0) with 0 in Hf. rewrite Hz0 in Hf by lia. discriminate Hf. lia.
  - injection H as <-. split; [done|]. intros st Hst Hle.
    rewrite find_up_None in E. specialize (E st ltac:(lia)).
    destruct (find_up (Z.to_nat count) 0 (fun j => used p (st + j))) as [j|] eqn:Ej.
    + apply find_up_Some in Ej as (? & ? & _). exists (st + j). split; [lia|done].
    + rewrite find_up_None in Ej. exfalso.
      apply Bool.diff_true_false. rewrite <- E. symmetry. apply all_up_true.
      intros j Hj. rewrite test_bit_free, Ej by lia. done.
Qed.

Lemma free_frames_spec (p : pfa) (a count : Z) :
  pfa_inv p -> FRAME_SIZE <= a < 4294967296 -> 0 <= count -> FRAME a + count < 4294967296 ->
  let p' := free_frames p a count in
  pfa_inv p' /\ total_frames p' = total_frames p /\
  (forall g, 0 <= g < total_frames p ->
     used p' g = negb ((FRAME a <=? g) && (g <? FRAME a + count)) && used p g).
Proof.
  intros Hi Ha Hc Hsum p'. pose proof (pfa_inv_shape p Hi) as Hs.
  assert (1 <= FRAME a) by (unfold FRAME, FRAME_SIZE in *; div_mod_lia).
  pose (P := fun x (q : pfa) => pfa_shape q /\ total_frames q = total_frames p /\
    forall g, 0 <= g < total_frames p ->
      used q g = negb ((FRAME a <=? g) && (g <? FRAME a + x)) && used p g).
  assert (Hl : P (0 + Z.of_nat (Z.to_nat count) * 1) p').
  { unfold p', free_frames. apply for_up_ind.
    - split; [done|]. split; [done|]. intros g Hg. repeat (zcase; try lia); done.
    - intros k x Hk (Hsx & Ht & Hu). replace (0 + k * 1) with k in * by lia.
      replace (0 + (k + 1) * 1) with (k + 1) by lia. rewrite u32_small by lia.
      destruct (Z.ltb_spec (FRAME a + k) (total_frames x)).
      + split; [by apply shape_clear_bit|]. split; [done|]. intros g Hg.
        rewrite used_clear_bit; [|done| |lia].
        * rewrite Hu by done. destruct (used p g); rewrite ?andb_false_r; [|done].
          rewrite !andb_true_r. repeat (zcase; try lia); done.
        * destruct Hsx as (_ & _ & ?). lia.
      + split; [done|]. split; [done|]. intros g Hg. rewrite Hu by done.
        destruct (used p g); rewrite ?andb_false_r; [|done].
        rewrite !andb_true_r. repeat (zcase; try lia); done. }
  replace (0 + Z.of_nat (Z.to_nat count) * 1) with count in Hl by lia.
  destruct Hl as ((? & ? & ?) & Ht & Hu). split; [|split; [done|done]].
  split; [done|]. split; [done|]. split; [done|]. intros Hp. rewrite Ht in Hp. rewrite Hu by lia.
  destruct Hi as (_ & _ & _ & Hz0). rewrite Hz0 by lia. repeat (zcase; try lia); done.
Qed.

(** *** Counting *)

Lemma free_count_used (p : pfa) :
  get_free_frame_count p = count_up (Z.to_nat (total_frames p)) 0 (fun f => negb (used p f)).
Proof. unfold get_free_frame_count. apply count_up_ext. intros. by rewrite test_bit_free. Qed.

Lemma free_count_flip (p p' : pfa) (f : Z) :
  0 <= f < total_frames p -> total_frames p' = total_frames p ->
  used p f = false -> used p' f = true ->
  (forall g, 0 <= g < total_frames p -> g <> f -> used p' g = used p g) ->
  get_free_frame_count p = get_free_frame_count p' + 1.
Proof.
  intros Hf Ht Hu Hu' Ho. rewrite !free_count_used, Ht.
  apply count_up_flip with f; [lia|by rewrite Hu|by rewrite Hu'|].
  intros y Hy Hne. rewrite Ho by lia. done.
Qed.

(** ** The interface, discharged *)

#[export] Instance pfa_frame_allocator : FrameAllocator pfa := {
  fa_alloc := alloc_frame; fa_free := free_frame; fa_total := total_frames;
  fa_used := used; fa_ok := pfa_inv }.

#[export] Instance pfa_frame_allocator_laws : FrameAllocatorLaws pfa.
Proof.
  split; cbn [fa_alloc fa_free fa_total fa_used fa_ok pfa_frame_allocator].
  - by intros s (_ & _ & ? & _).
  - intros s s' a Hi H Ha.
    destruct (alloc_frame_some s s' a Hi H Ha) as (f & ? & ? & ? & _ & ? & ? & Hu).
    exists f. do 5 (split; [done|]). intros; apply Hu; lia.
  - intros s s' Hi H. by apply alloc_frame_none.
  - intros s a Hi Ha. apply free_frame_spec; [done|lia].
Qed.

(** ** Sequences of calls

    [step] is one call of a client that frees only what it was given; the
    second component is the set of frames it holds. *)

Inductive step : pfa * gset Z -> pfa * gset Z -> Prop :=
| step_alloc p p' live a :
    alloc_frame p = (a, p') -> a <> 0 -> step (p, live) (p', {[FRAME a]} ∪ live)
| step_alloc_fail p p' live :
    alloc_frame p = (0, p') -> step (p, live) (p', live)
| step_allocs p p' live a count :
    0 <= count < 4294967296 -> alloc_frames p count = (a, p') -> a <> 0 ->
    step (p, live) (p', list_to_set (seqZ (FRAME a) count) ∪ live)
| step_allocs_fail p p' live count :
    0 <= count < 4294967296 -> alloc_frames p count = (0, p') -> step (p, live) (p', live)
| step_free p live f :
    f ∈ live -> step (p, live) (free_frame p (f * FRAME_SIZE), live ∖ {[f]})
| step_frees p live f count :
    0 <= count -> list_to_set (seqZ f count) ⊆ live ->
    f ∈ live ->
    step (p, live)
      (free_frames p (f * FRAME_SIZE) count, live ∖ list_to_set (seqZ f count)).

(** Since state [p0] a frame is in use exactly when it was in use then or a
    client holds it, and clients hold only frames that were free then. *)
Definition live_inv (p0 : pfa) (st : pfa * gset Z) : Prop :=
  pfa_inv st.1 /\ total_frames st.1 = total_frames p0 /\
  (forall f, f ∈ st.2 -> 0 < f < total_frames p0 /\ used p0 f = false) /\
  (forall g, 0 <= g < total_frames p0 -> (used st.1 g = true <-> g ∈ st.2 \/ used p0 g = true)).

Lemma FRAME_mul (f : Z) : FRAME (f * FRAME_SIZE) = f.
Proof. unfold FRAME. apply Z.div_mul. unfold FRAME_SIZE; lia. Qed.

Lemma held_range (p : pfa) (f : Z) :
  pfa_inv p -> 0 < f < total_frames p -> FRAME_SIZE <= f * FRAME_SIZE < 4294967296.
Proof. intros (_ & _ & H & _) Hf. unfold MAX_FRAMES, FRAME_SIZE in *. lia. Qed.

Lemma last_in_run (f count : Z) (live : gset Z) (B : Z) :
  0 <= count -> list_to_set (seqZ f count) ⊆ live -> f ∈ live ->
  (forall x, x ∈ live -> 0 < x < B) -> f + count <= Z.max B (f + 1).
Proof.
  intros Hc Hsub Hf HB. destruct (Z.eq_dec count 0) as [->|]; [lia|].
  specialize (HB (f + count - 1)). apply Z.le_trans with B; [|lia].
  assert (f + count - 1 ∈ live); [|specialize (HB ltac:(done)); lia].
  apply Hsub. apply elem_of_list_to_set, elem_of_seqZ. lia.
Qed.

(** A frame that is free now was free at first, and nobody holds it. *)
Lemma live_inv_free (p0 p : pfa) (live : gset Z) (f : Z) :
  live_inv p0 (p, live) -> 0 <= f < total_frames p0 -> used p f = false -> (f ∉ live) /\ used p0 f = false.
Proof.
  intros (_ & _ & _ & Hu) Hf E. specialize (Hu f Hf). cbn [fst snd] in Hu. rewrite E in Hu.
  split; [intros Hin; discriminate (proj2 Hu (or_introl Hin))|].
  apply not_true_iff_false. intros Hin. discriminate (proj2 Hu (or_intror Hin)).
Qed.

Lemma step_live_inv (p0 : pfa) (st st' : pfa * gset Z) : step st st' -> live_inv p0 st -> live_inv p0 st'.
Proof.
  intros H Hinv; pose proof Hinv as (Hi & HT & Hl & Hu0); destruct H as [p p' live a E Ha|p p' live E
    |p p' live a n Hn E Ha|p p' live n Hn E|p live f Hf|p live f n Hn Hsub Hf]; cbn [fst snd] in *.
  - destruct (alloc_frame_some p p' a Hi E Ha) as (f & -> & Hr & Hu & _ & Hi' & Ht & Hu'). rewrite FRAME_mul.
    split; [done|]. split; [cbn; congruence|]. cbn [fst snd]. split.
    + intros g [->%elem_of_singleton|Hg]%elem_of_union; [|by apply Hl]. split; [lia|].
      by apply (live_inv_free p0 p live f Hinv ltac:(lia)).
    + intros g Hg. rewrite Hu', orb_true_iff, Z.eqb_eq, Hu0, elem_of_union, elem_of_singleton by lia. tauto.
  - by destruct (alloc_frame_none p p' Hi E) as [-> _].
  - destruct (alloc_frames_some p p' n a Hi Hn E Ha) as (f & -> & H0 & Hle & Hpos & Hfree & Hi' & Ht & Hu').
    rewrite FRAME_mul. split; [done|]. split; [cbn; congruence|]. cbn [fst snd]. split.
    + intros g [Hg%elem_of_list_to_set%elem_of_seqZ|Hg]%elem_of_union; [|by apply Hl]. split; [lia|].
      by apply (live_inv_free p0 p live g Hinv ltac:(lia)), Hfree.
    + intros g Hg. rewrite Hu', orb_true_iff, andb_true_iff, Z.leb_le, Z.ltb_lt, Hu0, elem_of_union,
        elem_of_list_to_set, elem_of_seqZ by lia. tauto.
  - destruct (Z.eq_dec n 0) as [->|]; [by injection E as <-|].
    by destruct (alloc_frames_none p p' n Hi ltac:(lia) E) as [-> _].
  - destruct (Hl f Hf) as [Hr Hu]. rewrite <- HT in Hr. pose proof (held_range p f Hi Hr).
    destruct (free_frame_spec p (f * FRAME_SIZE) Hi) as (Hi' & Ht & Hu'); [lia|].
    split; [done|]. split; [cbn; congruence|]. cbn [fst snd]. split; [intros g [Hg _]%elem_of_difference; by apply Hl|].
    change (f * FRAME_SIZE / FRAME_SIZE) with (FRAME (f * FRAME_SIZE)) in Hu'. rewrite FRAME_mul in Hu'.
    intros g Hg. rewrite Hu', andb_true_iff, negb_true_iff, Z.eqb_neq, Hu0, elem_of_difference, elem_of_singleton by lia.
    split; [tauto|]. intros [[? ?]|Hg0]; [tauto|]. split; [congruence|tauto].
  - destruct (Hl f Hf) as [Hr Hu]. rewrite <- HT in Hr. pose proof (held_range p f Hi Hr).
    pose proof (last_in_run f n live (total_frames p0) Hn Hsub Hf (fun x Hx => proj1 (Hl x Hx))).
    assert (total_frames p <= MAX_FRAMES) by (by destruct Hi as (_ & _ & ? & _); lia).
    destruct (free_frames_spec p (f * FRAME_SIZE) n Hi) as (Hi' & Ht & Hu');
      [lia|done|rewrite FRAME_mul; unfold MAX_FRAMES in *; lia|]. rewrite FRAME_mul in Hu'.
    split; [done|]. split; [cbn; congruence|]. cbn [fst snd]. split; [intros g [Hg _]%elem_of_difference; by apply Hl|].
    intros g Hg. rewrite Hu', andb_true_iff, negb_true_iff, andb_false_iff, Z.leb_gt, Z.ltb_ge, Hu0, elem_of_difference,
      elem_of_list_to_set, elem_of_seqZ by lia.
    split; [intros [? [?|?]]; [left; split; [done|lia]|by right]|]. intros [[? ?]|Hg0]; [split; [lia|by left]|].
    split; [|by right]. assert (g ∉ live) as Hgl by (intros Hin; apply Hl in Hin as [_ ?]; congruence).
    assert (~ (f <= g < f + n)); [|lia]. intros Hin. apply Hgl, Hsub, elem_of_list_to_set, elem_of_seqZ, Hin.
Qed.

Lemma steps_live_inv (p0 : pfa) (st st' : pfa * gset Z) : rtc step st st' -> live_inv p0 st -> live_inv p0 st'.
Proof. induction 1; eauto using step_live_inv. Qed.

(** ** Properties *)

(** The static bitmap before [pfa_init] runs: BSS zeros. *)
Definition bss_pfa : pfa := mkPfa (replicate (Z.to_nat (MAX_FRAMES / 8)) 0) 0.

Lemma bss_pfa_bytes : is_bytes (bitmap bss_pfa).
Proof. by apply is_bytes_replicate. Qed.

Lemma bss_pfa_unused (f : Z) : used bss_pfa f = false.
Proof.
  unfold used, bit, byte_at, bss_pfa. cbn [bitmap].
  destruct (replicate _ 0 !! Z.to_nat (f / 8)) as [b|] eqn:E; [|apply Z.bits_0].
  apply lookup_replicate in E as [-> _]. apply Z.bits_0.
Qed.

Lemma bss_pfa_init (bss_end ram : Z) :
  0 < bss_end <= 4294963200 -> 0 <= ram < 4294967296 -> pfa_inv (pfa_init bss_pfa bss_end ram).
Proof.
  intros. apply (pfa_init_spec bss_pfa bss_end ram); try done.
  - apply bss_pfa_bytes.
  - intros; apply bss_pfa_unused.
Qed.

(** After [pfa_init] on the zeroed bitmap, for any memory size and kernel
    end, the allocator invariant holds, the managed frames are the detected
    memory capped at 1 GB, and the frames in use are exactly the kernel
    image's, the boot stack's and the BIOS area's. *)
Theorem pfa_init_reserves (bss_end ram : Z) :
  0 < bss_end <= 4294963200 -> 0 <= ram < 4294967296 ->
  let p' := pfa_init bss_pfa bss_end ram in
  pfa_inv p' /\ total_frames p' = Z.min ram MAX_MEMORY / FRAME_SIZE /\
  (forall f, 0 <= f < total_frames p' -> used p' f = reserved bss_end f).
Proof.
  intros Hb Hr. apply pfa_init_spec; try done.
  - apply bss_pfa_bytes.
  - intros; apply bss_pfa_unused.
Qed.

Lemma pfa_init_reserves_witness :
  let p' := pfa_init bss_pfa 1200000 33554432 in
  total_frames p' = 8192 /\ used p' 292 = true /\ used p' 293 = false.
Proof.
  destruct (pfa_init_reserves 1200000 33554432) as (_ & Ht & Hu); [lia|lia|].
  change (33554432 `min` MAX_MEMORY / FRAME_SIZE) with 8192 in Ht.
  split; [exact Ht|]. rewrite !Hu by (rewrite Ht; lia). split; reflexivity.
Defined.

(** [alloc_frame] under the invariant.  It fails (null, state unchanged)
    only when every frame is in use; otherwise it returns the address of the
    lowest free frame, marks exactly that frame, keeps the invariant, and the
    free count drops by one. *)
Theorem alloc_frame_correct (p p' : pfa) (a : Z) :
  pfa_inv p -> alloc_frame p = (a, p') ->
  (a = 0 /\ p' = p /\ forall g, 0 <= g < total_frames p -> used p g = true) \/
  (exists f, a = f * FRAME_SIZE /\ 0 < f < total_frames p /\ used p f = false /\
    (forall g, 0 <= g < f -> used p g = true) /\
    (forall g, 0 <= g -> used p' g = (g =? f) || used p g) /\
    pfa_inv p' /\ get_free_frame_count p = get_free_frame_count p' + 1).
Proof.
  intros Hi H. destruct (Z.eq_dec a 0) as [->|Ha].
  { left. split; [done|]. by apply alloc_frame_none. }
  right. destruct (alloc_frame_some p p' a Hi H Ha) as (f & ? & Hr & Hu & Hlow & Hi' & Ht & Hu').
  exists f. do 6 (split; [done|]). apply free_count_flip with f; try done; [lia| |].
  - rewrite Hu' by lia. by rewrite Z.eqb_refl.
  - intros g Hg Hne. rewrite Hu' by lia. destruct (Z.eqb_spec g f); [lia|done].
Qed.

(** An allocator of 16 frames whose frame 0 is reserved. *)
Definition demo_pfa : pfa := pfa_init bss_pfa 4096 65536.

Lemma demo_alloc : alloc_frame demo_pfa = (4096, set_bit demo_pfa 1).
Proof.
  unfold alloc_frame.
  replace (find_up _ _ _) with (Some 1) by (vm_compute; reflexivity). reflexivity.
Qed.

Lemma alloc_frame_correct_witness :
  pfa_inv demo_pfa /\ 4096 <> 0 /\ pfa_inv (set_bit demo_pfa 1).
Proof.
  assert (Hi : pfa_inv demo_pfa) by (apply bss_pfa_init; lia).
  split; [exact Hi|]. split; [lia|].
  destruct (alloc_frame_correct demo_pfa (set_bit demo_pfa 1) 4096 Hi demo_alloc)
    as [(H & _)|(f & H)]; [lia|tauto].
Defined.

(** [alloc_frames(n)] returns [n] consecutive frames that were all free,
    marks exactly those and keeps the invariant; it returns null only when no
    run of [n] free frames exists. *)
Theorem alloc_frames_correct (p p' : pfa) (count a : Z) :
  pfa_inv p -> 0 < count < 4294967296 -> alloc_frames p count = (a, p') ->
  (a = 0 /\ p' = p /\ forall start, 0 <= start -> start + count <= total_frames p ->
     exists g, start <= g < start + count /\ used p g = true) \/
  (exists start, a = start * FRAME_SIZE /\ 0 < start /\ start + count <= total_frames p /\
    (forall g, start <= g < start + count -> used p g = false) /\
    (forall g, 0 <= g -> used p' g = (start <=? g) && (g <? start + count) || used p g) /\
    pfa_inv p').
Proof.
  intros Hi Hc H. destruct (Z.eq_dec a 0) as [->|Ha].
  { left. split; [done|]. by apply alloc_frames_none. }
  right. destruct (alloc_frames_some p p' count a Hi ltac:(lia) H Ha)
    as (st & ? & ? & ? & ? & ? & ? & ? & ?). exists st. done.
Qed.

Lemma demo_alloc4 :
  alloc_frames demo_pfa 4 = (4096, for_up 4 0 1 (fun j p => set_bit p (1 + j)) demo_pfa).
Proof.
  unfold alloc_frames.
  replace (find_up _ _ _) with (Some 1) by (vm_compute; reflexivity).
  replace (_ || _) with false by (vm_compute; reflexivity). reflexivity.
Qed.

Lemma alloc_frames_correct_witness :
  exists start, 4096 = start * FRAME_SIZE /\ used demo_pfa (start + 3) = false.
Proof.
  destruct (alloc_frames_correct demo_pfa _ 4 4096 ltac:(apply bss_pfa_init; lia) ltac:(lia)
    demo_alloc4) as [(H & _)|(st & H & _ & _ & Hu & _)]; [lia|].
  exists st. split; [exact H|]. apply Hu. lia.
Defined.

(** C4: no frame is handed out twice, and none that pfa_init reserved.  After
    pfa_init and any sequence of allocations and releases, single and
    contiguous, by clients that release only what they hold: the frames in
    use are exactly those that clients hold and those of the kernel's image,
    the boot stack and the BIOS area; and what the next allocation returns,
    one frame or a run of them, is memory the machine has that nobody holds
    and that is not reserved. *)
Theorem frames_never_shared (bss_end ram : Z) (p p' : pfa) (live : gset Z) (a : Z) :
  0 < bss_end <= 4294963200 -> 0 <= ram < 4294967296 ->
  rtc step (pfa_init bss_pfa bss_end ram, ∅) (p, live) ->
  (forall f, 0 <= f < total_frames p -> (used p f = true <-> f ∈ live \/ reserved bss_end f = true)) /\
  (alloc_frame p = (a, p') -> a <> 0 ->
     (FRAME a ∉ live) /\ reserved bss_end (FRAME a) = false /\ 0 < a /\ a + FRAME_SIZE <= ram) /\
  (forall n f, 0 <= n < 4294967296 -> alloc_frames p n = (a, p') -> a <> 0 -> FRAME a <= f < FRAME a + n ->
     (f ∉ live) /\ reserved bss_end f = false /\ 0 < f /\ (f + 1) * FRAME_SIZE <= ram).
Proof.
  intros Hb Hr H. pose proof (bss_pfa_init bss_end ram Hb Hr) as Hi0.
  destruct (pfa_init_spec bss_pfa bss_end ram) as (_ & Ht0 & Hres);
    [done|apply bss_pfa_bytes|intros; apply bss_pfa_unused|done|done|].
  set (p0 := pfa_init bss_pfa bss_end ram) in *. clearbody p0.
  assert (Hinv : live_inv p0 (p, live)).
  { apply (steps_live_inv p0 _ _ H). split; [done|]. split; [done|]. split; [set_solver|].
    intros g _. cbn [fst snd]. split; [by right|]. intros [Hg|Hg]; [by apply not_elem_of_empty in Hg|done]. }
  pose proof Hinv as (Hi & HT & Hl & Hu). cbn [fst snd] in *.
  assert (Hfree : forall f, 0 < f < total_frames p -> used p f = false ->
    (f ∉ live) /\ reserved bss_end f = false /\ 0 < f /\ (f + 1) * FRAME_SIZE <= ram).
  { intros f Hf E. destruct (live_inv_free p0 p live f Hinv) as [H1 H2]; [lia|done|]. rewrite Hres in H2 by lia.
    split; [done|]. split; [done|]. split; [lia|]. rewrite HT, Ht0 in Hf. unfold FRAME_SIZE in *. div_mod_lia. }
  split; [|split].
  - intros f Hf. rewrite Hu, Hres by lia. done.
  - intros E Ha. destruct (alloc_frame_some p p' a Hi E Ha) as (f & -> & Hf & Hfu & _). rewrite FRAME_mul.
    destruct (Hfree f Hf Hfu) as (? & ? & ? & ?). unfold FRAME_SIZE in *. repeat split; done || lia.
  - intros n f Hn E Ha. destruct (alloc_frames_some p p' n a Hi Hn E Ha) as (st & -> & Hst & Hend & _ & Hfu & _).
    rewrite FRAME_mul. intros Hf. apply Hfree; [lia|by apply Hfu].
Qed.

Lemma demo_alloc2 : alloc_frame (set_bit demo_pfa 1) = (8192, set_bit (set_bit demo_pfa 1) 2).
Proof.
  unfold alloc_frame.
  replace (find_up _ _ _) with (Some 2) by (vm_compute; reflexivity). reflexivity.
Qed.

Lemma frames_never_shared_witness :
  (FRAME 8192 ∉ ({[FRAME 4096]} ∪ ∅ : gset Z)) /\ reserved 4096 (FRAME 8192) = false.
Proof.
  destruct (frames_never_shared 4096 65536 (set_bit demo_pfa 1) (set_bit (set_bit demo_pfa 1) 2)
    ({[FRAME 4096]} ∪ ∅) 8192) as (_ & H & _).
  - lia.
  - lia.
  - apply rtc_once, step_alloc; [exact demo_alloc|lia].
  - destruct (H demo_alloc2) as (H1 & H2 & _); [lia|]. split; [exact H1|exact H2].
Defined.

End Pfa.
