(* ===== verification/Paging.v ===== *)
(** * kernel/memory/paging.c: two-level page tables

    Page directories and tables are 4 KB frames of [memory] holding 1024
    32-bit entries; the code reaches them through the identity mapping, so a
    table is addressed by its physical address.  The state also has the
    kernel directory pointer, the two control registers the code loads, and
    the frame allocator behind the [FrameAllocator] interface.  [paging_lock]
    covers each public operation.  TLB flushes are not modelled: the model
    reads the tables themselves. *)
From S2P Require Import Prelude Bytes Memory FrameAlloc.

Module Paging.

Definition PAGE_PRESENT : Z := 1.

Definition PAGE_WRITE : Z := 2.

Definition PAGE_USER : Z := 4.

Definition PDE_IDX (virt : Z) : Z := Z.land (Z.shiftr virt 22) 1023.

Definition PTE_IDX (virt : Z) : Z := Z.land (Z.shiftr virt 12) 1023.

(** [e & 0xFFFFF000] *)
Definition frame_of (e : Z) : Z := Z.land e 4294963200.

(** [e & PAGE_PRESENT] as a condition *)
Definition present (e : Z) : bool := negb (Z.land e PAGE_PRESENT =? 0).

(** [table[i]] and [table[i] = v] for a table of 32-bit entries *)
Definition entry (m : memory) (table i : Z) : Z := load32 m (table + 4 * i).

Definition set_entry (m : memory) (table i v : Z) : memory := store32 m (table + 4 * i) v.

(** [for (i = 0; i < 1024; i++) table[i] = f(i)] *)
Definition fill_table (m : memory) (table : Z) (f : Z -> Z) : memory :=
  for_up 1024 0 1 (fun i m => set_entry m table i (f i)) m.

(** [for (i = 0; i < 1024; i++) dir[i] = src[i]] *)
Definition copy_dir (m : memory) (dir src : Z) : memory :=
  for_up 1024 0 1 (fun i m => set_entry m dir i (entry m src i)) m.

Record vm (A : Type) := mkVm {
  vmem : memory;
  kernel_page_dir : Z;
  cr3 : Z;
  paging_on : bool;
  frames : A }.

Arguments mkVm {A} _ _ _ _ _.
Arguments vmem {A} _.
Arguments kernel_page_dir {A} _.
Arguments cr3 {A} _.
Arguments paging_on {A} _.
Arguments frames {A} _.

Definition with_mem {A} (s : vm A) (m : memory) : vm A :=
  mkVm m (kernel_page_dir s) (cr3 s) (paging_on s) (frames s).

Definition with_frames {A} (s : vm A) (fr : A) : vm A :=
  mkVm (vmem s) (kernel_page_dir s) (cr3 s) (paging_on s) fr.

Definition with_kernel_dir {A} (s : vm A) (d : Z) : vm A :=
  mkVm (vmem s) d (cr3 s) (paging_on s) (frames s).

Section ops.
Context {A : Type} {FA : FrameAllocator A}.

Definition create_table_in_dir (s : vm A) (dir virt flags : Z) : Z * vm A :=
  let '(table, fr) := fa_alloc (frames s) in
  let s := with_frames s fr in
  if table =? 0 then (0, s)
  else
    let m := fill_table (vmem s) table (fun _ => 0) in
    let pde := Z.lor (Z.lor (Z.lor table PAGE_PRESENT) PAGE_WRITE) (Z.land flags PAGE_USER) in
    (table, with_mem s (set_entry m dir (PDE_IDX virt) pde)).

(** The loop of [init_paging] from [virt] on; [None] when the fuel runs out,
    [false] when it returned early for lack of a frame. *)
Fixpoint identity_loop (fuel : nat) (s : vm A) (virt detected_ram : Z) : option (bool * vm A) :=
  match fuel with
  | O => None
  | S fuel' =>
    if virt <? detected_ram then
      let '(pt, s) := create_table_in_dir s (kernel_page_dir s) virt 0 in
      if pt =? 0 then Some (false, s)
      else
        let m := fill_table (vmem s) pt
          (fun i => Z.lor (Z.lor (u32 (virt + i * FRAME_SIZE)) PAGE_PRESENT) PAGE_WRITE) in
        identity_loop fuel' (with_mem s m) (u32 (virt + 4194304)) detected_ram
    else Some (true, s)
  end.

Definition init_paging (fuel : nat) (s : vm A) (detected_ram : Z) : option (vm A) :=
  let '(dir, fr) := fa_alloc (frames s) in
  let s := with_kernel_dir (with_frames s fr) dir in
  if dir =? 0 then Some s
  else
    let s := with_mem s (fill_table (vmem s) dir (fun _ => 0)) in
    let '(first_pt, fr) := fa_alloc (frames s) in
    let s := with_frames s fr in
    if first_pt =? 0 then Some s
    else
      let m := fill_table (vmem s) first_pt
        (fun i => Z.lor (Z.lor (u32 (i * FRAME_SIZE)) PAGE_PRESENT) PAGE_WRITE) in
      let m := set_entry m dir 0 (Z.lor (Z.lor first_pt PAGE_PRESENT) PAGE_WRITE) in
      match identity_loop fuel (with_mem s m) 4194304 detected_ram with
      | None => None
      | Some (false, s) => Some s
      | Some (true, s) =>
          Some (mkVm (vmem s) (kernel_page_dir s) (kernel_page_dir s) true (frames s))
      end.

Definition page_dir_create (s : vm A) : Z * vm A :=
  let '(dir, fr) := fa_alloc (frames s) in
  let s := with_frames s fr in
  if dir =? 0 then (0, s)
  else
    (dir, with_mem s (copy_dir (vmem s) dir (kernel_page_dir s))).

Definition page_dir_switch (s : vm A) (dir : Z) : vm A :=
  mkVm (vmem s) (kernel_page_dir s) dir (paging_on s) (frames s).

(** Returns 0 or -1, like the C code. *)
Definition map_page_to_dir (s : vm A) (dir virt phys flags : Z) : Z * vm A :=
  let pde_idx := PDE_IDX virt in
  let '(r, s) :=
    if present (entry (vmem s) dir pde_idx) then (0, s)
    else let '(t, s) := create_table_in_dir s dir virt flags in
         if t =? 0 then (-1, s) else (0, s) in
  if r =? 0 then
    let table := frame_of (entry (vmem s) dir pde_idx) in
    let pte := Z.lor (Z.lor (Z.land phys 4294963200) PAGE_PRESENT)
                 (Z.land flags (Z.lor (Z.lor PAGE_WRITE PAGE_USER) PAGE_PRESENT)) in
    (0, with_mem s (set_entry (vmem s) table (PTE_IDX virt) pte))
  else (-1, s).

Definition map_page (s : vm A) (virt phys flags : Z) : Z * vm A :=
  map_page_to_dir s (kernel_page_dir s) virt phys flags.

Definition unmap_page_from_dir (s : vm A) (dir virt : Z) : Z * vm A :=
  let pde := entry (vmem s) dir (PDE_IDX virt) in
  if negb (present pde) then (-1, s)
  else
    let table := frame_of pde in
    if negb (present (entry (vmem s) table (PTE_IDX virt))) then (-1, s)
    else (0, with_mem s (set_entry (vmem s) table (PTE_IDX virt) 0)).

Definition unmap_page (s : vm A) (virt : Z) : Z * vm A :=
  unmap_page_from_dir s (kernel_page_dir s) virt.

(** [Some phys]: returned 0 with [*phys_out = phys]; [None]: returned -1. *)
Definition get_page_mapping (s : vm A) (virt : Z) : option Z :=
  let pde := entry (vmem s) (kernel_page_dir s) (PDE_IDX virt) in
  if negb (present pde) then None
  else
    let pte := entry (vmem s) (frame_of pde) (PTE_IDX virt) in
    if negb (present pte) then None else Some (frame_of pte).

(** The inner loop over one table, then the loop over the directory. *)
Definition add_user_table (m : memory) (table : Z) : memory :=
  for_up 1024 0 1
    (fun j m => if present (entry m table j)
                then set_entry m table j (Z.lor (entry m table j) PAGE_USER) else m) m.

Definition page_dir_add_user_flag (s : vm A) (dir : Z) : vm A :=
  with_mem s (for_up 1024 0 1
    (fun i m =>
       if present (entry m dir i) then
         let m := set_entry m dir i (Z.lor (entry m dir i) PAGE_USER) in
         add_user_table m (frame_of (entry m dir i))
       else m) (vmem s)).

Definition paging_enable_user_access (s : vm A) : vm A :=
  page_dir_add_user_flag s (kernel_page_dir s).

End ops.

(** ** Abstract view

    [walk m dir virt] is the page-table entry the MMU finds for [virt]. *)
Definition walk (m : memory) (dir virt : Z) : option Z :=
  let pde := entry m dir (PDE_IDX virt) in
  if present pde then
    let pte := entry m (frame_of pde) (PTE_IDX virt) in
    if present pte then Some pte else None
  else None.

(** ** Lemmas on indices and entries *)

Lemma land1023 (x : Z) : Z.land x 1023 = x mod 1024.
Proof. change 1023 with (Z.ones 10). by rewrite Z.land_ones by lia. Qed.

Lemma PDE_IDX_eq (v : Z) : 0 <= v < 4294967296 -> PDE_IDX v = v / 4194304.
Proof.
  intros. unfold PDE_IDX. rewrite land1023, Z.shiftr_div_pow2 by lia.
  change (2 ^ 22) with 4194304. apply Z.mod_small. div_mod_lia.
Qed.

Lemma PTE_IDX_eq (v : Z) : PTE_IDX v = (v / 4096) mod 1024.
Proof. unfold PTE_IDX. rewrite land1023, Z.shiftr_div_pow2 by lia. done. Qed.

Lemma PDE_IDX_range (v : Z) : 0 <= PDE_IDX v < 1024.
Proof. unfold PDE_IDX. rewrite land1023. apply Z.mod_pos_bound. lia. Qed.

Lemma PTE_IDX_range (v : Z) : 0 <= PTE_IDX v < 1024.
Proof. unfold PTE_IDX. rewrite land1023. apply Z.mod_pos_bound. lia. Qed.

(** Two addresses have the same pair of indices iff they are on one page. *)
Lemma idx_same_page (v w : Z) :
  0 <= v < 4294967296 -> 0 <= w < 4294967296 ->
  (PDE_IDX v = PDE_IDX w /\ PTE_IDX v = PTE_IDX w) <-> v / 4096 = w / 4096.
Proof. intros. rewrite !PDE_IDX_eq, !PTE_IDX_eq by done. split; div_mod_lia. Qed.

Lemma entry_set (m : memory) (b b' i j v : Z) :
  b mod 4096 = 0 -> b' mod 4096 = 0 -> 0 <= i < 1024 -> 0 <= j < 1024 ->
  entry (set_entry m b i v) b' j = (if (b' =? b) && (j =? i) then u32 v else entry m b' j).
Proof.
  intros Hb Hb' Hi Hj. unfold entry, set_entry.
  destruct (Z.eqb_spec b' b) as [->|]; [destruct (Z.eqb_spec j i) as [->|]|]; cbn [andb].
  - apply load32_store32_eq.
  - apply load32_store32_ne. lia.
  - apply load32_store32_ne. div_mod_lia.
Qed.

Lemma entry_fill (m : memory) (b b' j : Z) (f : Z -> Z) :
  b mod 4096 = 0 -> b' mod 4096 = 0 -> 0 <= j < 1024 ->
  entry (fill_table m b f) b' j = (if b' =? b then u32 (f j) else entry m b' j).
Proof.
  intros Hb Hb' Hj. unfold fill_table.
  pose (P := fun x (q : memory) =>
    entry q b' j = if (b' =? b) && (j <? x) then u32 (f j) else entry m b' j).
  assert (H : P (0 + Z.of_nat 1024 * 1) (for_up 1024 0 1 (fun i m => set_entry m b i (f i)) m)).
  { apply for_up_ind; unfold P.
    - destruct (b' =? b); cbn [andb]; [|done]. destruct (Z.ltb_spec j 0); [lia|done].
    - intros k x Hk Hx. replace (0 + k * 1) with k in * by lia.
      rewrite entry_set by (done || lia). rewrite Hx.
      destruct (b' =? b); cbn [andb]; [|done].
      destruct (Z.eqb_spec j k) as [->|]; repeat (zcase; try lia); done. }
  unfold P in H. rewrite H. destruct (b' =? b); cbn [andb]; [|done].
  destruct (Z.ltb_spec j (0 + Z.of_nat 1024 * 1)); [done|lia].
Qed.

#[local] Opaque fill_table set_entry.

Lemma entry_range (m : memory) (b i : Z) : 0 <= entry m b i < 4294967296.
Proof. apply load32_range. Qed.

Lemma frame_of_eq (e : Z) : 0 <= e < 4294967296 -> frame_of e = 4096 * (e / 4096).
Proof. apply land_frame_mask. Qed.

Lemma frame_of_aligned (m : memory) (b i : Z) : frame_of (entry m b i) mod 4096 = 0.
Proof. rewrite frame_of_eq by apply entry_range. rewrite Z.mul_comm. apply Z.mod_mul. lia. Qed.

(** Adding flag bits to an aligned frame address. *)
Lemma lor_aligned (t x : Z) : t mod 4096 = 0 -> 0 <= x < 4096 -> Z.lor t x = t + x.
Proof.
  intros Ht Hx. assert (Hl : Z.land t x = 0).
  { apply Z.bits_inj'. intros n Hn. rewrite Z.land_spec, Z.bits_0.
    replace t with (4096 * (t / 4096)) by div_mod_lia. change 4096 with (2 ^ 12) at 1.
    destruct (Z.ltb_spec n 12).
    - rewrite Z.mul_comm, Z.mul_pow2_bits_low by lia. done.
    - destruct (Z.eq_dec x 0) as [->|]; [by rewrite Z.bits_0, andb_false_r|].
      rewrite (Z.bits_above_log2 x n); [by rewrite andb_false_r|lia|].
      apply Z.log2_lt_pow2; [lia|]. apply Z.lt_le_trans with (2 ^ 12); [lia|].
      apply Z.pow_le_mono_r; lia. }
  rewrite Z.add_nocarry_lxor, Z.lxor_lor by done. done.
Qed.

Lemma frame_of_flags (t x : Z) :
  0 <= t < 4294967296 -> t mod 4096 = 0 -> 0 <= x < 4096 -> frame_of (Z.lor t x) = t.
Proof. intros. rewrite lor_aligned by done. rewrite frame_of_eq; div_mod_lia. Qed.

Lemma present_odd (e : Z) : present e = Z.testbit e 0.
Proof.
  unfold present, PAGE_PRESENT. change 1 with (Z.ones 1) at 1. rewrite Z.land_ones by lia.
  change (2 ^ 1) with 2. rewrite Zmod_odd, Z.bit0_odd. by destruct (Z.odd e).
Qed.

Lemma present_lor1 (t x : Z) : present (Z.lor (Z.lor t 1) x) = true.
Proof. rewrite present_odd, !Z.lor_spec. change (Z.testbit 1 0) with true. by rewrite orb_true_r. Qed.

(** What a table lookup yields once the directory entry is present. *)
Definition pte_view (pte : Z) : option Z := if present pte then Some pte else None.

Lemma pte_view_0 : pte_view (u32 0) = None.
Proof. reflexivity. Qed.

(** ** Well-formed directories *)

Section facts.
Context {A : Type} `{FAL : FrameAllocatorLaws A}.

(** A frame the allocator has handed out. *)
Definition table_ok (fr : A) (t : Z) : Prop :=
  t mod 4096 = 0 /\ 0 < t / 4096 < fa_total fr /\ fa_used fr (t / 4096) = true.

(** The directory and its tables are allocated frames, all distinct. *)
Definition dir_wf (m : memory) (fr : A) (dir : Z) : Prop :=
  fa_ok fr /\ table_ok fr dir /\
  (forall i, 0 <= i < 1024 -> present (entry m dir i) = true ->
     table_ok fr (frame_of (entry m dir i)) /\ frame_of (entry m dir i) <> dir) /\
  (forall i j, 0 <= i < 1024 -> 0 <= j < 1024 -> i <> j ->
     present (entry m dir i) = true -> present (entry m dir j) = true ->
     frame_of (entry m dir i) <> frame_of (entry m dir j)).

(** [m'] agrees with [m] on every table frame but [t]. *)
Definition same_but (m m' : memory) (t : Z) : Prop :=
  forall b j, b mod 4096 = 0 -> b <> t -> 0 <= j < 1024 -> entry m' b j = entry m b j.

Lemma dir_aligned (m : memory) (fr : A) (dir : Z) : dir_wf m fr dir -> dir mod 4096 = 0.
Proof. intros (_ & (H & _) & _). exact H. Qed.

Lemma table_ok_alloc (fr fr' : A) (a t : Z) :
  fa_ok fr -> fa_alloc fr = (a, fr') -> a <> 0 -> table_ok fr t ->
  table_ok fr' t /\ t <> a.
Proof.
  intros Hok E Ha (Hal & Hr & Hu).
  destruct (fa_alloc_some fr fr' a Hok E Ha) as (f & -> & Hf & Hfu & _ & Ht & Hu').
  split; [split; [done|]; rewrite Ht; split; [done|]|].
  - rewrite Hu', Hu by lia. apply orb_true_r.
  - intros ->. unfold FRAME_SIZE in *. rewrite Z.div_mul in Hu by lia. congruence.
Qed.

Lemma table_ok_new (fr fr' : A) (a : Z) :
  fa_ok fr -> fa_alloc fr = (a, fr') -> a <> 0 ->
  fa_ok fr' /\ table_ok fr' a /\ 0 < a < 1073741824.
Proof.
  intros Hok E Ha. pose proof (fa_total_range fr Hok) as HT.
  destruct (fa_alloc_some fr fr' a Hok E Ha) as (f & -> & Hf & Hfu & Hok' & Ht & Hu').
  split; [done|]. unfold table_ok, FRAME_SIZE in *.
  rewrite Z.div_mul, Z.mod_mul by lia. rewrite Ht, Hu', Z.eqb_refl by lia. split; [done|lia].
Qed.

Lemma table_ok_u32 (fr : A) (t : Z) : fa_ok fr -> table_ok fr t -> 0 <= t < 4294967296.
Proof.
  intros Hok (Hal & Hr & _). pose proof (fa_total_range fr Hok). div_mod_lia.
Qed.

Lemma dir_wf_alloc (m : memory) (fr fr' : A) (dir a : Z) :
  dir_wf m fr dir -> fa_alloc fr = (a, fr') -> a <> 0 ->
  dir_wf m fr' dir /\ dir <> a /\
  (forall i, 0 <= i < 1024 -> present (entry m dir i) = true -> frame_of (entry m dir i) <> a).
Proof.
  intros (Hok & Hd & Ht & Hi) E Ha.
  destruct (table_ok_new fr fr' a Hok E Ha) as (Hok' & _ & _).
  destruct (table_ok_alloc fr fr' a dir Hok E Ha Hd) as [Hd' Hne].
  split; [|split; [done|]].
  - split; [done|]. split; [done|]. split; [|done]. intros i Hir Hp.
    destruct (Ht i Hir Hp) as [Hti ?].
    split; [by apply (table_ok_alloc fr fr' a _ Hok E Ha)|done].
  - intros i Hir Hp. destruct (Ht i Hir Hp) as [Hti ?].
    by apply (table_ok_alloc fr fr' a _ Hok E Ha).
Qed.

(** Changing the content of one table. *)
Lemma update_table (m m' : memory) (fr : A) (dir i : Z) :
  dir_wf m fr dir -> 0 <= i < 1024 -> present (entry m dir i) = true ->
  same_but m m' (frame_of (entry m dir i)) ->
  dir_wf m' fr dir /\ (forall j, 0 <= j < 1024 -> entry m' dir j = entry m dir j) /\
  (forall v, walk m' dir v =
     if PDE_IDX v =? i then pte_view (entry m' (frame_of (entry m dir i)) (PTE_IDX v))
     else walk m dir v).
Proof.
  intros (Hok & Hd & Ht & Hinj) Hi Hp Hs.
  assert (He : forall j, 0 <= j < 1024 -> entry m' dir j = entry m dir j).
  { intros j Hj. apply Hs; [apply Hd| |done]. destruct (Ht i Hi Hp) as [_ ?]. done. }
  split; [|split; [done|]].
  - split; [done|]. split; [done|]. split.
    + intros j Hj. rewrite He by done. by apply Ht.
    + intros j k Hj Hk. rewrite !He by done. by apply Hinj.
  - intros v. unfold walk, pte_view. pose proof (PDE_IDX_range v). rewrite He by done.
    destruct (Z.eqb_spec (PDE_IDX v) i) as [->|]; [by rewrite Hp|].
    destruct (present (entry m dir (PDE_IDX v))) eqn:Ep; [|done].
    rewrite (Hs (frame_of (entry m dir (PDE_IDX v)))); [done|apply frame_of_aligned| |
      apply PTE_IDX_range].
    by apply Hinj.
Qed.

(** Installing a freshly allocated table in an absent directory entry. *)
Lemma add_table (m : memory) (fr fr' : A) (dir i t x : Z) (f : Z -> Z) :
  dir_wf m fr dir -> 0 <= i < 1024 -> present (entry m dir i) = false ->
  fa_alloc fr = (t, fr') -> t <> 0 -> 0 <= x < 4096 -> present (Z.lor t x) = true ->
  let m' := set_entry (fill_table m t f) dir i (Z.lor t x) in
  dir_wf m' fr' dir /\ entry m' dir i = Z.lor t x /\
  (forall j, 0 <= j < 1024 -> j <> i -> entry m' dir j = entry m dir j) /\
  (forall j, 0 <= j < 1024 -> entry m' t j = u32 (f j)) /\
  (forall v, walk m' dir v =
     if PDE_IDX v =? i then pte_view (u32 (f (PTE_IDX v))) else walk m dir v).
Proof.
  intros Hwf Hi Hp E Ht0 Hx Hpx m'.
  destruct (dir_wf_alloc m fr fr' dir t Hwf E Ht0) as ((Hok' & Hd' & Ht' & Hinj') & Hne & Hnt).
  destruct (table_ok_new fr fr' t (proj1 Hwf) E Ht0) as (_ & Htok & Htr).
  assert (Hdal : dir mod 4096 = 0) by apply Hd'.
  assert (Htal : t mod 4096 = 0) by apply Htok.
  assert (Hlor : Z.lor t x = t + x) by (by apply lor_aligned).
  assert (Hfl : frame_of (Z.lor t x) = t) by (apply frame_of_flags; (done || lia)).
  assert (Hei : entry m' dir i = Z.lor t x).
  { unfold m'. rewrite entry_set, !Z.eqb_refl by done. cbn [andb]. apply u32_small. lia. }
  assert (Hej : forall b j, b mod 4096 = 0 -> b <> t -> 0 <= j < 1024 -> b <> dir \/ j <> i ->
    entry m' b j = entry m b j).
  { intros b j Hb Hbt Hj Hor. unfold m'. rewrite entry_set, entry_fill by done.
    destruct (Z.eqb_spec b t) as [Hc|_]; [by destruct (Hbt Hc)|].
    destruct (Z.eqb_spec b dir), (Z.eqb_spec j i); cbn [andb]; try reflexivity. lia. }
  assert (Hdj : forall j, 0 <= j < 1024 -> j <> i -> entry m' dir j = entry m dir j)
    by (intros; apply Hej; auto).
  assert (Htj : forall j, 0 <= j < 1024 -> entry m' t j = u32 (f j)).
  { intros j Hj. unfold m'. rewrite entry_set, entry_fill by done.
    destruct (Z.eqb_spec t dir); [congruence|]. by rewrite Z.eqb_refl. }
  split; [|split; [done|split; [done|split; [done|]]]].
  - split; [done|]. split; [done|]. split.
    + intros j Hj Hpj. destruct (Z.eq_dec j i) as [->|].
      { rewrite Hei, Hfl. split; [exact Htok|congruence]. }
      rewrite Hdj in Hpj |- * by done. by apply Ht'.
    + intros j k Hj Hk Hjk Hpj Hpk.
      destruct (Z.eq_dec j i) as [->|]; [|destruct (Z.eq_dec k i) as [->|]].
      * rewrite Hei, Hfl. rewrite Hdj in Hpk |- * by done. intros Heq. by apply (Hnt k).
      * rewrite Hei, Hfl. rewrite Hdj in Hpj |- * by done. by apply (Hnt j).
      * rewrite Hdj in Hpj |- * by done. rewrite Hdj in Hpk |- * by done. by apply Hinj'.
  - intros v. unfold walk. pose proof (PDE_IDX_range v). pose proof (PTE_IDX_range v).
    destruct (Z.eqb_spec (PDE_IDX v) i) as [->|].
    + rewrite Hei, Hpx, Hfl, Htj by done. done.
    + rewrite Hdj by done. destruct (present (entry m dir (PDE_IDX v))) eqn:Ep; [|done].
      rewrite Hej; [done|apply frame_of_aligned| |done|].
      * by apply Hnt.
      * left. by apply Ht'.
Qed.

(** [create_table_in_dir] on a well-formed directory. *)
Lemma create_table_spec (s : vm A) (dir virt flags : Z) :
  dir_wf (vmem s) (frames s) dir ->
  present (entry (vmem s) dir (PDE_IDX virt)) = false ->
  let '(t, s') := create_table_in_dir s dir virt flags in
  kernel_page_dir s' = kernel_page_dir s /\ cr3 s' = cr3 s /\ paging_on s' = paging_on s /\
  ((t = 0 /\ s' = s /\ forall g, 0 <= g < fa_total (frames s) -> fa_used (frames s) g = true) \/
   (t <> 0 /\ fa_alloc (frames s) = (t, frames s') /\ dir_wf (vmem s') (frames s') dir /\
    present (entry (vmem s') dir (PDE_IDX virt)) = true /\
    frame_of (entry (vmem s') dir (PDE_IDX virt)) = t /\
    (forall j, 0 <= j < 1024 -> entry (vmem s') t j = 0) /\
    (forall v, walk (vmem s') dir v =
       if PDE_IDX v =? PDE_IDX virt then None else walk (vmem s) dir v))).
Proof.
  intros Hwf Hp. unfold create_table_in_dir.
  destruct (fa_alloc (frames s)) as [t fr'] eqn:E.
  destruct (Z.eqb_spec t 0) as [->|Ht].
  { split; [done|]. split; [done|]. split; [done|]. left. split; [done|].
    destruct (fa_alloc_none (frames s) fr' (proj1 Hwf) E) as [-> Hall].
    split; [by destruct s|done]. }
  split; [done|]. split; [done|]. split; [done|]. right. split; [done|].
  cbn [with_frames with_mem vmem frames]. split; [done|].
  set (x := Z.lor (Z.lor 1 2) (Z.land flags 4)).
  assert (Hx : 0 <= x < 4096).
  { unfold x. change (Z.land flags 4) with (Z.land flags (2 ^ 2)). rewrite land_pow2 by lia. destruct (Z.testbit flags 2); split; vm_compute; congruence. }
  replace (Z.lor (Z.lor (Z.lor t PAGE_PRESENT) PAGE_WRITE) (Z.land flags PAGE_USER))
    with (Z.lor t x) by (unfold x, PAGE_PRESENT, PAGE_WRITE, PAGE_USER; by rewrite !Z.lor_assoc).
  assert (Hpx : present (Z.lor t x) = true).
  { unfold x. rewrite !Z.lor_assoc. rewrite <- Z.lor_assoc. apply present_lor1. }
  destruct (table_ok_new (frames s) fr' t (proj1 Hwf) E Ht) as (_ & (Hal & _) & Htr).
  destruct (add_table (vmem s) (frames s) fr' dir (PDE_IDX virt) t x (fun _ => 0) Hwf
    (PDE_IDX_range virt) Hp E Ht Hx Hpx) as (Hwf' & He & Hej & Htj & Hw).
  rewrite !He. split; [done|]. split; [done|].
  split; [apply frame_of_flags; [lia|exact Hal|exact Hx]|]. split; [exact Htj|]. exact Hw.
Qed.

(** [create_table_in_dir] adds one entry, with the user bit as asked. *)
Lemma create_table_pdes (s : vm A) (dir virt flags : Z) :
  dir_wf (vmem s) (frames s) dir -> present (entry (vmem s) dir (PDE_IDX virt)) = false ->
  let '(t, s') := create_table_in_dir s dir virt flags in
  t <> 0 ->
  (forall i, 0 <= i < 1024 -> i <> PDE_IDX virt -> entry (vmem s') dir i = entry (vmem s) dir i) /\
  Z.land (entry (vmem s') dir (PDE_IDX virt)) 7 = Z.lor 3 (Z.land flags PAGE_USER).
Proof.
  intros Hwf Hp. unfold create_table_in_dir. destruct (fa_alloc (frames s)) as [t fr'] eqn:E.
  destruct (Z.eqb_spec t 0) as [->|Ht]; [done|]. intros _. cbn [with_mem with_frames vmem].
  destruct (dir_wf_alloc (vmem s) (frames s) fr' dir t Hwf E Ht) as (_ & Hne & _).
  destruct (table_ok_new (frames s) fr' t (proj1 Hwf) E Ht) as (_ & (Hal & _) & Htr).
  pose proof (dir_aligned _ _ _ Hwf) as Hda. pose proof (PDE_IDX_range virt) as Hr.
  assert (Hf : Z.land flags PAGE_USER = 0 \/ Z.land flags PAGE_USER = 4).
  { unfold PAGE_USER. change 4 with (2 ^ 2). rewrite land_pow2 by lia. by destruct (Z.testbit flags 2); auto. }
  split.
  - intros i Hi Hn. rewrite entry_set, (proj2 (Z.eqb_neq i _) Hn), andb_false_r by done.
    rewrite entry_fill, (proj2 (Z.eqb_neq dir t)) by done. done.
  - rewrite entry_set, !Z.eqb_refl by done. cbn [andb].
    set (x := Z.lor 3 (Z.land flags PAGE_USER)).
    replace (Z.lor (Z.lor (Z.lor t PAGE_PRESENT) PAGE_WRITE) (Z.land flags PAGE_USER)) with (Z.lor t x)
      by (unfold x; change 3 with (Z.lor PAGE_PRESENT PAGE_WRITE); by rewrite !Z.lor_assoc).
    assert (Hx : x = 3 \/ x = 7) by (unfold x; destruct Hf as [-> | ->]; auto).
    rewrite (lor_aligned t x Hal) by lia. rewrite u32_small by div_mod_lia.
    change 7 with (Z.ones 3). rewrite Z.land_ones by lia. change (2 ^ 3) with 8. div_mod_lia.
Qed.

(** The entry [map_page] writes. *)
Definition mapped_pte (phys flags : Z) : Z :=
  4096 * (phys / 4096) + Z.lor PAGE_PRESENT (Z.land flags 7).

Lemma flags7_range (flags : Z) : 0 <= Z.lor PAGE_PRESENT (Z.land flags 7) < 8.
Proof.
  change 7 with (Z.ones 3). rewrite Z.land_ones by lia. change (2 ^ 3) with 8.
  pose proof (Z.mod_pos_bound flags 8 ltac:(lia)) as H. revert H.
  generalize (flags mod 8). intros n Hn. unfold PAGE_PRESENT.
  assert (n = 0 \/ n = 1 \/ n = 2 \/ n = 3 \/ n = 4 \/ n = 5 \/ n = 6 \/ n = 7)
    as [->|[->|[->|[->|[->|[->|[->| ->]]]]]]] by lia; split; vm_compute; congruence.
Qed.

Lemma pte_value (phys flags : Z) :
  0 <= phys < 4294967296 ->
  Z.lor (Z.lor (Z.land phys 4294963200) PAGE_PRESENT)
    (Z.land flags (Z.lor (Z.lor PAGE_WRITE PAGE_USER) PAGE_PRESENT)) = mapped_pte phys flags /\
  u32 (mapped_pte phys flags) = mapped_pte phys flags /\
  present (mapped_pte phys flags) = true /\
  frame_of (mapped_pte phys flags) = 4096 * (phys / 4096).
Proof.
  intros Hp. pose proof (flags7_range flags) as Hf.
  change (Z.lor (Z.lor PAGE_WRITE PAGE_USER) PAGE_PRESENT) with 7.
  rewrite land_frame_mask by done. unfold mapped_pte.
  assert (Hal : (4096 * (phys / 4096)) mod 4096 = 0)
    by (rewrite Z.mul_comm; apply Z.mod_mul; lia).
  assert (E : Z.lor (Z.lor (4096 * (phys / 4096)) PAGE_PRESENT) (Z.land flags 7) =
              4096 * (phys / 4096) + Z.lor PAGE_PRESENT (Z.land flags 7)).
  { rewrite <- Z.lor_assoc. apply lor_aligned; [exact Hal|lia]. }
  split; [exact E|]. split; [apply u32_small; div_mod_lia|].
  rewrite <- E. split; [apply present_lor1|].
  rewrite <- Z.lor_assoc. apply frame_of_flags; [div_mod_lia|exact Hal|lia].
Qed.

Lemma same_but_set (m : memory) (t i v : Z) :
  t mod 4096 = 0 -> 0 <= i < 1024 -> same_but m (set_entry m t i v) t.
Proof.
  intros Ht Hi b j Hb Hne Hj. rewrite entry_set by assumption.
  destruct (Z.eqb_spec b t) as [|_]; [contradiction|reflexivity].
Qed.

Lemma same_but_fill (m : memory) (t : Z) (f : Z -> Z) :
  t mod 4096 = 0 -> same_but m (fill_table m t f) t.
Proof.
  intros Ht b j Hb Hne Hj. rewrite entry_fill by assumption.
  destruct (Z.eqb_spec b t) as [|_]; [contradiction|reflexivity].
Qed.

(** One entry of a present table is overwritten. *)
Lemma set_pte_spec (m : memory) (fr : A) (dir virt v : Z) :
  dir_wf m fr dir -> 0 <= virt < 4294967296 ->
  present (entry m dir (PDE_IDX virt)) = true ->
  let m' := set_entry m (frame_of (entry m dir (PDE_IDX virt))) (PTE_IDX virt) v in
  dir_wf m' fr dir /\
  (forall w, 0 <= w < 4294967296 -> walk m' dir w =
     if w / 4096 =? virt / 4096 then pte_view (u32 v) else walk m dir w).
Proof.
  intros Hwf Hv Hp m'.
  pose proof (frame_of_aligned m dir (PDE_IDX virt)) as Hal.
  set (t := frame_of (entry m dir (PDE_IDX virt))) in *.
  destruct (update_table m m' fr dir (PDE_IDX virt) Hwf (PDE_IDX_range virt) Hp) as (Hwf' & _ & Hw).
  { apply same_but_set; [exact Hal|apply PTE_IDX_range]. }
  split; [exact Hwf'|]. intros w Hwr. rewrite Hw. fold t. unfold m'.
  rewrite entry_set, Z.eqb_refl by (apply PTE_IDX_range || exact Hal). cbn [andb].
  pose proof (idx_same_page w virt Hwr Hv) as Hiff.
  destruct (Z.eqb_spec (w / 4096) (virt / 4096)) as [Es|Es].
  - apply Hiff in Es as [-> ->]. rewrite !Z.eqb_refl. reflexivity.
  - destruct (Z.eqb_spec (PDE_IDX w) (PDE_IDX virt)) as [E1|]; [|reflexivity].
    destruct (Z.eqb_spec (PTE_IDX w) (PTE_IDX virt)) as [E2|]; [tauto|].
    unfold walk. rewrite E1, Hp. reflexivity.
Qed.

Lemma map_page_to_dir_spec (s s' : vm A) (dir virt phys flags r : Z) :
  dir_wf (vmem s) (frames s) dir -> 0 <= virt < 4294967296 -> 0 <= phys < 4294967296 ->
  map_page_to_dir s dir virt phys flags = (r, s') ->
  kernel_page_dir s' = kernel_page_dir s /\
  ((r = 0 /\ dir_wf (vmem s') (frames s') dir /\
    forall w, 0 <= w < 4294967296 -> walk (vmem s') dir w =
      if w / 4096 =? virt / 4096 then Some (mapped_pte phys flags) else walk (vmem s) dir w) \/
   (r = -1 /\ s' = s /\
    forall g, 0 <= g < fa_total (frames s) -> fa_used (frames s) g = true)).
Proof.
  intros Hwf Hv Hph H. unfold map_page_to_dir in H.
  destruct (pte_value phys flags Hph) as (E & Eu & Ep & _). rewrite E in H.
  assert (Hpv : pte_view (u32 (mapped_pte phys flags)) = Some (mapped_pte phys flags)).
  { rewrite Eu. unfold pte_view. by rewrite Ep. }
  destruct (present (entry (vmem s) dir (PDE_IDX virt))) eqn:Hp; cbn [Z.eqb] in H.
  - injection H as <- <-. split; [reflexivity|]. left. split; [reflexivity|].
    destruct (set_pte_spec (vmem s) (frames s) dir virt (mapped_pte phys flags) Hwf Hv Hp)
      as [Hwf' Hw]. rewrite Hpv in Hw. split; [exact Hwf'|exact Hw].
  - pose proof (create_table_spec s dir virt flags Hwf Hp) as Hc.
    destruct (create_table_in_dir s dir virt flags) as [t s1].
    destruct Hc as (Hk & _ & _ & [(-> & -> & Hall)|(Ht & _ & Hwf1 & Hp1 & Hf1 & _ & Hw1)]).
    + cbn [Z.eqb] in H. injection H as <- <-. split; [reflexivity|]. right. auto.
    + destruct (Z.eqb_spec t 0) as [|_]; [contradiction|]. cbn [Z.eqb] in H.
      injection H as <- <-. split; [exact Hk|]. left. split; [reflexivity|].
      destruct (set_pte_spec (vmem s1) (frames s1) dir virt (mapped_pte phys flags) Hwf1 Hv Hp1)
        as [Hwf' Hw]. rewrite Hpv in Hw. split; [exact Hwf'|].
      intros w Hwr. cbn [with_mem vmem]. rewrite (Hw w Hwr), Hw1.
      destruct (Z.eqb_spec (w / 4096) (virt / 4096)); [reflexivity|].
      destruct (Z.eqb_spec (PDE_IDX w) (PDE_IDX virt)) as [Ei|]; [|reflexivity].
      unfold walk. by rewrite Ei, Hp.
Qed.

Lemma get_page_mapping_walk (s : vm A) (virt : Z) :
  get_page_mapping s virt = option_map frame_of (walk (vmem s) (kernel_page_dir s) virt).
Proof.
  unfold get_page_mapping, walk. destruct (present _); [|reflexivity]. cbn [negb].
  by destruct (present _).
Qed.

Lemma unmap_page_from_dir_spec (s s' : vm A) (dir virt r : Z) :
  dir_wf (vmem s) (frames s) dir -> 0 <= virt < 4294967296 ->
  unmap_page_from_dir s dir virt = (r, s') ->
  kernel_page_dir s' = kernel_page_dir s /\
  ((r = 0 /\ walk (vmem s) dir virt <> None /\ dir_wf (vmem s') (frames s') dir /\
    forall w, 0 <= w < 4294967296 -> walk (vmem s') dir w =
      if w / 4096 =? virt / 4096 then None else walk (vmem s) dir w) \/
   (r = -1 /\ s' = s /\ walk (vmem s) dir virt = None)).
Proof.
  intros Hwf Hv H. unfold unmap_page_from_dir in H. unfold walk at 1 4.
  destruct (present (entry (vmem s) dir (PDE_IDX virt))) eqn:Hp; cbn [negb] in H.
  - destruct (present (entry (vmem s) _ (PTE_IDX virt))) eqn:Hq; cbn [negb] in H.
    + injection H as <- <-. split; [reflexivity|]. left. split; [reflexivity|].
      split; [discriminate|].
      destruct (set_pte_spec (vmem s) (frames s) dir virt 0 Hwf Hv Hp) as [Hwf' Hw].
      rewrite pte_view_0 in Hw. split; [exact Hwf'|exact Hw].
    + injection H as <- <-. split; [reflexivity|]. right. auto.
  - injection H as <- <-. split; [reflexivity|]. right. auto.
Qed.

(** [k] more frames are in use. *)
Definition took (fr fr' : A) (k : Z) : Prop :=
  fa_total fr' = fa_total fr /\
  (forall g, 0 <= g < fa_total fr -> fa_used fr g = true -> fa_used fr' g = true) /\
  fa_free_count fr = fa_free_count fr' + k.

Lemma took_refl (fr : A) : took fr fr 0.
Proof. split; [done|]. split; [done|lia]. Qed.

Lemma took_trans (fr1 fr2 fr3 : A) (j k : Z) : took fr1 fr2 j -> took fr2 fr3 k -> took fr1 fr3 (j + k).
Proof.
  intros (T1 & U1 & C1) (T2 & U2 & C2). split; [congruence|]. split; [|lia].
  intros g Hg Hu. apply U2; [congruence|]. by apply U1.
Qed.

Lemma took_alloc (fr fr' : A) (a : Z) : fa_ok fr -> fa_alloc fr = (a, fr') -> a <> 0 -> took fr fr' 1.
Proof.
  intros Hok E Ha. destruct (fa_alloc_some fr fr' a Hok E Ha) as (f & _ & _ & _ & _ & Ht & Hu).
  split; [exact Ht|]. split; [|by apply (fa_alloc_count fr fr' a)].
  intros g Hg Hg'. rewrite Hu, Hg' by exact Hg. apply orb_true_r.
Qed.

(** *** Building the identity map *)

(** The entry that maps the page of [w] to itself, present and writable. *)
Definition id_pte (w : Z) : Z := 4096 * (w / 4096) + 3.

(** The first [k] 4 MB regions are identity-mapped and nothing else is. *)
Definition id_mapped (m : memory) (dir k : Z) : Prop :=
  (forall j, k <= j < 1024 -> present (entry m dir j) = false) /\
  (forall w, 0 <= w < 4294967296 ->
     walk m dir w = if w <? k * 4194304 then Some (id_pte w) else None).

Lemma id_entry (base i : Z) :
  base mod 4096 = 0 -> 0 <= base + i * 4096 < 4294967296 -> 0 <= i ->
  pte_view (u32 (Z.lor (Z.lor (u32 (base + i * FRAME_SIZE)) PAGE_PRESENT) PAGE_WRITE)) =
  Some (base + i * 4096 + 3).
Proof.
  intros Hb Hr Hi. unfold FRAME_SIZE. rewrite (u32_small (base + i * 4096)) by done.
  assert (Hal : (base + i * 4096) mod 4096 = 0) by (rewrite Z.mod_add by lia; exact Hb).
  assert (E : Z.lor (Z.lor (base + i * 4096) PAGE_PRESENT) PAGE_WRITE = base + i * 4096 + 3).
  { rewrite <- Z.lor_assoc. change (Z.lor PAGE_PRESENT PAGE_WRITE) with 3.
    apply lor_aligned; [exact Hal|lia]. }
  unfold pte_view. rewrite E, u32_small by div_mod_lia. rewrite <- E, present_lor1. done.
Qed.

Lemma id_pte_index (w k : Z) :
  0 <= w < 4294967296 -> PDE_IDX w = k -> k * 4194304 + PTE_IDX w * 4096 + 3 = id_pte w.
Proof.
  intros Hw. rewrite PDE_IDX_eq, PTE_IDX_eq by done. unfold id_pte. div_mod_lia.
Qed.

(** A directory entry is filled with an identity table. *)
Lemma id_mapped_step (m m' : memory) (dir k : Z) :
  0 <= k < 1024 -> id_mapped m dir k ->
  (forall j, 0 <= j < 1024 -> j <> k -> entry m' dir j = entry m dir j) ->
  (forall w, 0 <= w < 4294967296 -> walk m' dir w =
     if PDE_IDX w =? k
     then pte_view (u32 (Z.lor (Z.lor (u32 (k * 4194304 + PTE_IDX w * FRAME_SIZE)) PAGE_PRESENT)
                           PAGE_WRITE))
     else walk m dir w) ->
  id_mapped m' dir (k + 1).
Proof.
  intros Hk (Habs & Hid) He Hw. split.
  - intros j Hj. rewrite He by lia. apply Habs. lia.
  - intros w Hwr. rewrite Hw by done. pose proof (PDE_IDX_eq w Hwr) as Ei.
    pose proof (PTE_IDX_range w).
    destruct (Z.eqb_spec (PDE_IDX w) k) as [E|E].
    + rewrite id_entry; [|rewrite Z.mul_comm; div_mod_lia|div_mod_lia|lia].
      rewrite (id_pte_index w k Hwr E).
      destruct (Z.ltb_spec w ((k + 1) * 4194304)); [reflexivity|div_mod_lia].
    + rewrite Hid by done.
      destruct (Z.ltb_spec w (k * 4194304)), (Z.ltb_spec w ((k + 1) * 4194304));
        [reflexivity|lia|div_mod_lia|reflexivity].
Qed.

(** The first [k] directory entries: present, writable, for the kernel only *)
Definition kernel_pdes (m : memory) (dir k : Z) : Prop :=
  forall j, 0 <= j < k -> Z.land (entry m dir j) 7 = 3.

Lemma identity_loop_spec (n fuel : nat) (s : vm A) (k ram : Z) :
  dir_wf (vmem s) (frames s) (kernel_page_dir s) ->
  1 <= k -> k + Z.of_nat n <= 1023 -> (n < fuel)%nat ->
  ram <= (k + Z.of_nat n) * 4194304 -> (0 < Z.of_nat n -> (k + Z.of_nat n - 1) * 4194304 < ram) ->
  Z.of_nat n <= fa_free_count (frames s) ->
  id_mapped (vmem s) (kernel_page_dir s) k -> kernel_pdes (vmem s) (kernel_page_dir s) k ->
  exists s', identity_loop fuel s (k * 4194304) ram = Some (true, s') /\
    kernel_page_dir s' = kernel_page_dir s /\
    dir_wf (vmem s') (frames s') (kernel_page_dir s) /\
    id_mapped (vmem s') (kernel_page_dir s) (k + Z.of_nat n) /\ took (frames s) (frames s') (Z.of_nat n) /\
    kernel_pdes (vmem s') (kernel_page_dir s) (k + Z.of_nat n).
Proof.
  revert fuel s k; induction n as [|n IH]; intros fuel s k Hwf Hk Hkn Hf Hr Hl Hc Hid Hpd;
    (destruct fuel as [|fuel]; [lia|]); cbn [identity_loop].
  { destruct (Z.ltb_spec (k * 4194304) ram); [lia|]. exists s.
    replace (k + Z.of_nat 0) with k by lia. auto 8 using took_refl. }
  destruct (Z.ltb_spec (k * 4194304) ram); [|lia].
  assert (Ei : PDE_IDX (k * 4194304) = k) by (rewrite PDE_IDX_eq by lia; apply Z.div_mul; lia).
  assert (Hp : present (entry (vmem s) (kernel_page_dir s) (PDE_IDX (k * 4194304))) = false)
    by (rewrite Ei; apply Hid; lia).
  pose proof (create_table_spec s (kernel_page_dir s) (k * 4194304) 0 Hwf Hp) as Hcr.
  pose proof (create_table_pdes s (kernel_page_dir s) (k * 4194304) 0 Hwf Hp) as Hcp.
  pose proof (fa_alloc_succeeds (frames s) (proj1 Hwf)) as Hsucc.
  unfold create_table_in_dir in Hcr, Hcp |- *.
  destruct (fa_alloc (frames s)) as [t fr'] eqn:E. cbn [fst] in Hsucc.
  assert (Ht : t <> 0) by (apply Hsucc; lia).
  destruct (Z.eqb_spec t 0) as [|_]; [contradiction|].
  destruct Hcr as (_ & _ & _ & [(? & _)|(_ & _ & Hwf1 & Hp1 & Hf1 & _ & Hw1)]); [contradiction|].
  destruct (Hcp Ht) as [Hcp1 Hcp2]. cbn [with_mem with_frames vmem frames kernel_page_dir] in *. rewrite Ei in *.
  set (m1 := set_entry _ (kernel_page_dir s) k _) in *.
  destruct (table_ok_new (frames s) fr' t (proj1 Hwf) E Ht) as (_ & (Hal & _) & Htr).
  set (f := fun i => Z.lor (Z.lor (u32 (k * 4194304 + i * FRAME_SIZE)) PAGE_PRESENT) PAGE_WRITE).
  destruct (update_table m1 (fill_table m1 t f) fr' (kernel_page_dir s) k Hwf1) as (Hwf2 & He2 & Hw2);
    [lia|exact Hp1|rewrite Hf1; apply same_but_fill; exact Hal|].
  rewrite Hf1 in Hw2.
  replace (u32 (k * 4194304 + 4194304)) with ((k + 1) * 4194304) by (rewrite u32_small; lia).
  pose proof (fa_alloc_count (frames s) fr' t (proj1 Hwf) E Ht) as Hcnt.
  destruct (IH fuel (mkVm (fill_table m1 t f) (kernel_page_dir s) (cr3 s) (paging_on s) fr') (k + 1))
    as (s' & El & Hk' & Hwf' & Hid' & Htk & Hpd'); cbn [vmem frames kernel_page_dir]; try lia.
  - exact Hwf2.
  - apply id_mapped_step with (vmem s); [lia|exact Hid| |].
    + intros j Hj Hne. rewrite He2 by done. destruct (dir_wf_alloc (vmem s) (frames s) fr'
        (kernel_page_dir s) t Hwf E Ht) as (_ & Hdt & _).
      unfold m1. rewrite entry_set by (first [exact (dir_aligned _ _ _ Hwf)|assumption|lia]).
      destruct (Z.eqb_spec j k); [contradiction|]. rewrite andb_false_r.
      rewrite entry_fill by (first [exact (dir_aligned _ _ _ Hwf)|assumption]).
      destruct (Z.eqb_spec (kernel_page_dir s) t); [contradiction|reflexivity].
    + intros w Hwr. rewrite Hw2, Hw1. destruct (Z.eqb_spec (PDE_IDX w) k); [|reflexivity].
      rewrite entry_fill, Z.eqb_refl by (first [exact Hal|apply PTE_IDX_range]). reflexivity.
  - intros j Hj. rewrite He2 by lia. destruct (Z.eq_dec j k) as [->|]; [exact Hcp2|].
    rewrite Hcp1 by lia. apply Hpd. lia.
  - exists s'. replace (k + Z.of_nat (S n)) with (k + 1 + Z.of_nat n) by lia.
    destruct (Z.eqb_spec t 0) as [|_]; [contradiction|]. split; [exact El|]. do 3 (split; [done|]).
    split; [|exact Hpd']. replace (Z.of_nat (S n)) with (1 + Z.of_nat n) by lia. eapply took_trans; [|exact Htk].
    by apply (took_alloc _ _ t (proj1 Hwf)).
Qed.

Lemma empty_dir_wf (m : memory) (fr fr' : A) (d : Z) :
  fa_ok fr -> fa_alloc fr = (d, fr') -> d <> 0 ->
  dir_wf (fill_table m d (fun _ => 0)) fr' d /\ id_mapped (fill_table m d (fun _ => 0)) d 0.
Proof.
  intros Hok E Hd. destruct (table_ok_new fr fr' d Hok E Hd) as (Hok' & Htd & Hr).
  assert (Habs : forall j, 0 <= j < 1024 ->
    present (entry (fill_table m d (fun _ => 0)) d j) = false).
  { intros j Hj. rewrite entry_fill, Z.eqb_refl by (first [apply Htd|done]). reflexivity. }
  split.
  - split; [exact Hok'|]. split; [exact Htd|]. split.
    + intros i Hi Hp. rewrite (Habs i Hi) in Hp. discriminate Hp.
    + intros i j Hi Hj Hne Hp. rewrite (Habs i Hi) in Hp. discriminate Hp.
  - split; [exact Habs|]. intros w Hw. unfold walk. pose proof (PDE_IDX_range w).
    rewrite Habs by done. destruct (Z.ltb_spec w (0 * 4194304)); [lia|reflexivity].
Qed.

Lemma init_paging_spec (n fuel : nat) (s : vm A) (ram : Z) :
  fa_ok (frames s) -> Z.of_nat n <= 1022 -> (n < fuel)%nat ->
  ram <= (1 + Z.of_nat n) * 4194304 -> (0 < Z.of_nat n -> Z.of_nat n * 4194304 < ram) ->
  2 + Z.of_nat n <= fa_free_count (frames s) ->
  exists s', init_paging fuel s ram = Some s' /\ paging_on s' = true /\
    cr3 s' = kernel_page_dir s' /\ dir_wf (vmem s') (frames s') (kernel_page_dir s') /\
    id_mapped (vmem s') (kernel_page_dir s') (1 + Z.of_nat n) /\ took (frames s) (frames s') (2 + Z.of_nat n) /\
    kernel_pdes (vmem s') (kernel_page_dir s') (1 + Z.of_nat n).
Proof.
  intros Hok Hn Hf Hr Hl Hc. unfold init_paging.
  pose proof (fa_alloc_succeeds (frames s) Hok ltac:(lia)) as Hd.
  destruct (fa_alloc (frames s)) as [d fr1] eqn:E1. cbn [fst] in Hd.
  destruct (Z.eqb_spec d 0) as [|_]; [contradiction|].
  destruct (empty_dir_wf (vmem s) (frames s) fr1 d Hok E1 Hd) as [Hwf1 Hid1].
  pose proof (fa_alloc_count (frames s) fr1 d Hok E1 Hd) as Hc1.
  cbn [with_mem with_frames with_kernel_dir vmem frames kernel_page_dir] in *.
  set (m0 := fill_table (vmem s) d (fun _ => 0)) in *.
  pose proof (fa_alloc_succeeds fr1 (proj1 Hwf1) ltac:(lia)) as Ht.
  destruct (fa_alloc fr1) as [t fr2] eqn:E2. cbn [fst] in Ht.
  destruct (Z.eqb_spec t 0) as [|_]; [contradiction|].
  pose proof (fa_alloc_count fr1 fr2 t (proj1 Hwf1) E2 Ht) as Hc2.
  replace (Z.lor (Z.lor t PAGE_PRESENT) PAGE_WRITE) with (Z.lor t 3)
    by (rewrite <- Z.lor_assoc; reflexivity).
  set (f := fun i => Z.lor (Z.lor (u32 (i * FRAME_SIZE)) PAGE_PRESENT) PAGE_WRITE).
  destruct (add_table m0 fr1 fr2 d 0 t 3 f Hwf1) as (Hwf2 & He0 & Hej & _ & Hw2);
    [lia|apply Hid1; lia|exact E2|exact Ht|lia|
     change 3 with (Z.lor 1 2); rewrite Z.lor_assoc; apply present_lor1|].
  set (m1 := set_entry _ d 0 _) in *.
  destruct (identity_loop_spec n fuel (mkVm m1 d (cr3 s) (paging_on s) fr2) 1 ram)
    as (s' & El & Hk' & Hwf' & Hid' & Htk & Hpd'); cbn [vmem frames kernel_page_dir]; try lia.
  - exact Hwf2.
  - apply (id_mapped_step m0 m1 d 0); [lia|exact Hid1| |].
    + intros j Hj Hne. apply Hej; lia.
    + intros w Hw. rewrite Hw2. reflexivity.
  - intros j Hj. replace j with 0 by lia. rewrite He0.
    destruct (table_ok_new fr1 fr2 t (proj1 Hwf1) E2 Ht) as (_ & (Hal & _) & _).
    rewrite (lor_aligned t 3 Hal) by lia. change 7 with (Z.ones 3). rewrite Z.land_ones by lia. change (2 ^ 3) with 8. div_mod_lia.
  - cbn [kernel_page_dir vmem frames] in *. change (1 * 4194304) with 4194304 in El.
    cbn [with_mem with_frames with_kernel_dir cr3 paging_on kernel_page_dir vmem frames].
    match goal with |- context [identity_loop fuel ?x 4194304 ram] =>
      change x with (mkVm m1 d (cr3 s) (paging_on s) fr2) end.
    rewrite El. eexists; split; [reflexivity|].
    cbn [paging_on cr3 kernel_page_dir vmem frames]. rewrite Hk'. do 4 (split; [done|]).
    split; [|exact Hpd']. replace (2 + Z.of_nat n) with (1 + (1 + Z.of_nat n)) by lia.
    eapply took_trans; [by apply (took_alloc _ _ d Hok)|]. eapply took_trans; [|exact Htk].
    by apply (took_alloc _ _ t (proj1 Hwf1)).
Qed.

(** *** A second directory *)

Lemma copy_dir_entries (m : memory) (dir kdir : Z) :
  dir mod 4096 = 0 -> kdir mod 4096 = 0 -> kdir <> dir ->
  forall b j, b mod 4096 = 0 -> 0 <= j < 1024 ->
    entry (copy_dir m dir kdir) b j = if b =? dir then entry m kdir j else entry m b j.
Proof.
  intros Hd Hk Hne b j Hb Hj.
  pose (P := fun x (q : memory) => forall b j, b mod 4096 = 0 -> 0 <= j < 1024 ->
    entry q b j = if (b =? dir) && (j <? x) then entry m kdir j else entry m b j).
  assert (H : P (0 + Z.of_nat 1024 * 1) (copy_dir m dir kdir)).
  { unfold copy_dir. apply for_up_ind; unfold P.
    - intros b' j' _ Hj'. destruct (Z.ltb_spec j' 0); [lia|]. by rewrite andb_false_r.
    - intros k x Hkr Hx b' j' Hb' Hj'. replace (0 + k * 1) with k in * by lia.
      replace (0 + (k + 1) * 1) with (k + 1) by lia.
      rewrite entry_set by (assumption || lia). rewrite !Hx by (assumption || lia).
      destruct (Z.eqb_spec kdir dir) as [|_]; [contradiction|]. cbn [andb].
      destruct (b' =? dir); cbn [andb]; [|reflexivity].
      rewrite u32_small by apply entry_range.
      destruct (Z.eqb_spec j' k) as [->|]; repeat (zcase; try lia); reflexivity. }
  rewrite (H b j Hb Hj). destruct (b =? dir); cbn [andb]; [|reflexivity].
  destruct (Z.ltb_spec j (0 + Z.of_nat 1024 * 1)); [reflexivity|lia].
Qed.

#[local] Opaque copy_dir.

Lemma page_dir_create_spec (s s' : vm A) (dir : Z) :
  dir_wf (vmem s) (frames s) (kernel_page_dir s) -> page_dir_create s = (dir, s') -> dir <> 0 ->
  dir_wf (vmem s') (frames s') (kernel_page_dir s) /\ dir_wf (vmem s') (frames s') dir /\
  dir <> kernel_page_dir s /\
  forall v, walk (vmem s') dir v = walk (vmem s) (kernel_page_dir s) v /\
            walk (vmem s') (kernel_page_dir s) v = walk (vmem s) (kernel_page_dir s) v.
Proof.
  intros Hwf H Hd. unfold page_dir_create in H.
  destruct (fa_alloc (frames s)) as [d fr'] eqn:E.
  destruct (Z.eqb_spec d 0) as [->|_]; injection H as <- <-; [contradiction|].
  cbn [with_mem with_frames vmem frames kernel_page_dir].
  destruct (dir_wf_alloc (vmem s) (frames s) fr' (kernel_page_dir s) d Hwf E Hd)
    as (Hwf1 & Hne & Hnt).
  destruct (table_ok_new (frames s) fr' d (proj1 Hwf) E Hd) as (_ & Htd & _).
  pose proof (copy_dir_entries (vmem s) d (kernel_page_dir s) (proj1 Htd)
    (dir_aligned _ _ _ Hwf) Hne) as He.
  set (m' := copy_dir (vmem s) d (kernel_page_dir s)) in *. clearbody m'.
  set (kd := kernel_page_dir s) in *.
  assert (Hkd : forall j, 0 <= j < 1024 -> entry m' kd j = entry (vmem s) kd j).
  { intros j Hj. rewrite He by (first [exact (dir_aligned _ _ _ Hwf)|assumption]).
    destruct (Z.eqb_spec kd d); [contradiction|reflexivity]. }
  assert (Hdd : forall j, 0 <= j < 1024 -> entry m' d j = entry (vmem s) kd j).
  { intros j Hj. rewrite He, Z.eqb_refl by (first [exact (proj1 Htd)|assumption]). reflexivity. }
  assert (Htab : forall i j, 0 <= i < 1024 -> 0 <= j < 1024 ->
    present (entry (vmem s) kd i) = true ->
    entry m' (frame_of (entry (vmem s) kd i)) j = entry (vmem s) (frame_of (entry (vmem s) kd i)) j).
  { intros i j Hi Hj Hp. rewrite He by (first [apply frame_of_aligned|assumption]).
    destruct (Z.eqb_spec (frame_of (entry (vmem s) kd i)) d) as [Ec|]; [|reflexivity].
    by destruct (Hnt i Hi Hp). }
  destruct Hwf1 as (Hok1 & Hd1 & Ht1 & Hi1).
  split; [|split; [|split; [congruence|]]].
  - split; [exact Hok1|]. split; [exact Hd1|]. split.
    + intros i Hi. rewrite Hkd by assumption. by apply Ht1.
    + intros i j Hi Hj. rewrite !Hkd by assumption. by apply Hi1.
  - split; [exact Hok1|]. split; [exact Htd|]. split.
    + intros i Hi. rewrite Hdd by assumption. intros Hp. split; [by apply Ht1|by apply Hnt].
    + intros i j Hi Hj. rewrite !Hdd by assumption. by apply Hi1.
  - intros v. unfold walk. pose proof (PDE_IDX_range v). pose proof (PTE_IDX_range v).
    rewrite Hdd, Hkd by assumption. destruct (present (entry (vmem s) kd (PDE_IDX v))) eqn:Ep.
    + rewrite Htab by assumption. done.
    + done.
Qed.

(** *** The user flag *)

Definition user_upd (e : Z) : Z := if present e then Z.lor e PAGE_USER else e.

Lemma user_upd_present (e : Z) : present (user_upd e) = present e.
Proof.
  unfold user_upd. destruct (present e) eqn:E; [|exact E].
  rewrite present_odd in *. rewrite Z.lor_spec, E. reflexivity.
Qed.

Lemma user_upd_range (e : Z) : 0 <= e < 4294967296 -> 0 <= user_upd e < 4294967296.
Proof.
  intros He. unfold user_upd. destruct (present e); [|exact He].
  assert (0 <= Z.lor e PAGE_USER) by (apply Z.lor_nonneg; unfold PAGE_USER; lia).
  split; [assumption|].
  destruct (Z.eq_dec (Z.lor e PAGE_USER) 0); [lia|].
  change 4294967296 with (2 ^ 32). apply Z.log2_lt_pow2; [lia|].
  rewrite Z.log2_lor by (unfold PAGE_USER; lia).
  apply Z.max_lub_lt; [|reflexivity].
  destruct (Z.eq_dec e 0) as [->|]; [reflexivity|]. apply Z.log2_lt_pow2; lia.
Qed.

Lemma user_upd_frame (e : Z) : 0 <= e < 4294967296 -> frame_of (user_upd e) = frame_of e.
Proof.
  intros He. unfold user_upd. destruct (present e); [|reflexivity].
  unfold frame_of. rewrite Z.land_lor_distr_l. change (Z.land PAGE_USER 4294963200) with 0.
  apply Z.lor_0_r.
Qed.

Lemma add_user_table_entries (m : memory) (t b j : Z) :
  t mod 4096 = 0 -> b mod 4096 = 0 -> 0 <= j < 1024 ->
  entry (add_user_table m t) b j = if b =? t then user_upd (entry m b j) else entry m b j.
Proof.
  intros Ht Hb Hj. unfold add_user_table.
  set (body := fun (j : Z) (m : memory) => _).
  pose (P := fun x (q : memory) => forall b j, b mod 4096 = 0 -> 0 <= j < 1024 ->
    entry q b j = if (b =? t) && (j <? x) then user_upd (entry m b j) else entry m b j).
  assert (H : P (0 + Z.of_nat 1024 * 1) (for_up 1024 0 1 body m)).
  { apply for_up_ind; unfold P.
    - intros b' j' _ Hj'. destruct (Z.ltb_spec j' 0); [lia|]. by rewrite andb_false_r.
    - intros k x Hkr Hx b' j' Hb' Hj'. replace (0 + k * 1) with k in * by lia.
      replace (0 + (k + 1) * 1) with (k + 1) by lia. unfold body.
      assert (Ek : entry x t k = entry m t k).
      { rewrite Hx by (assumption || lia). rewrite Z.eqb_refl.
        destruct (Z.ltb_spec k k); [lia|reflexivity]. }
      rewrite Ek.
      assert (Hcase : entry (if present (entry m t k)
           then set_entry x t k (Z.lor (entry m t k) PAGE_USER) else x) b' j' =
         if (b' =? t) && (j' =? k) then user_upd (entry m t k) else entry x b' j').
      { pose proof (user_upd_range (entry m t k) (entry_range m t k)) as Hr.
        unfold user_upd in *. destruct (present (entry m t k)) eqn:Ep.
        - rewrite entry_set by (assumption || lia). rewrite u32_small by exact Hr. reflexivity.
        - destruct (Z.eqb_spec b' t) as [->|]; [|reflexivity].
          destruct (Z.eqb_spec j' k) as [->|]; [exact Ek|reflexivity]. }
      rewrite Hcase, Hx by (assumption || lia).
      destruct (Z.eqb_spec b' t) as [->|]; cbn [andb]; [|reflexivity].
      destruct (Z.eqb_spec j' k) as [->|]; repeat (zcase; try lia); reflexivity. }
  rewrite (H b j Hb Hj). destruct (b =? t); cbn [andb]; [|reflexivity].
  destruct (Z.ltb_spec j (0 + Z.of_nat 1024 * 1)); [reflexivity|lia].
Qed.

(** The state of the directory loop after [x] directory entries. *)
Definition user_inv (m : memory) (dir x : Z) (q : memory) : Prop :=
  (forall j, 0 <= j < 1024 ->
     entry q dir j = if j <? x then user_upd (entry m dir j) else entry m dir j) /\
  (forall i j, 0 <= i < 1024 -> 0 <= j < 1024 -> present (entry m dir i) = true ->
     entry q (frame_of (entry m dir i)) j =
       if i <? x then user_upd (entry m (frame_of (entry m dir i)) j)
       else entry m (frame_of (entry m dir i)) j).

Lemma user_inv_step (m q : memory) (fr : A) (dir k : Z) :
  dir_wf m fr dir -> 0 <= k < 1024 -> user_inv m dir k q ->
  user_inv m dir (k + 1)
    (if present (entry q dir k) then
       let q := set_entry q dir k (Z.lor (entry q dir k) PAGE_USER) in
       add_user_table q (frame_of (entry q dir k))
     else q).
Proof.
  intros Hwf Hk [Hd Ht]. pose proof (dir_aligned _ _ _ Hwf) as Hal.
  destruct Hwf as (_ & _ & Hts & Hinj).
  assert (Ek : entry q dir k = entry m dir k).
  { rewrite Hd by assumption. destruct (Z.ltb_spec k k); [lia|reflexivity]. }
  rewrite Ek. destruct (present (entry m dir k)) eqn:Ep; cbv zeta.
  - assert (Eu : Z.lor (entry m dir k) PAGE_USER = user_upd (entry m dir k))
      by (unfold user_upd; by rewrite Ep).
    rewrite Eu. set (q1 := set_entry q dir k (user_upd (entry m dir k))).
    assert (E1 : forall b j, b mod 4096 = 0 -> 0 <= j < 1024 -> entry q1 b j =
      if (b =? dir) && (j =? k) then user_upd (entry m dir k) else entry q b j).
    { intros b j Hb Hj. unfold q1. rewrite entry_set by assumption.
      rewrite (u32_small (user_upd _)) by apply user_upd_range, entry_range. reflexivity. }
    rewrite (E1 dir k), !Z.eqb_refl by assumption. cbn [andb].
    rewrite user_upd_frame by apply entry_range.
    destruct (Hts k Hk Ep) as [_ Hnd].
    pose proof (frame_of_aligned m dir k) as Halt. split.
    + intros j Hj. rewrite add_user_table_entries by assumption.
      destruct (Z.eqb_spec dir (frame_of (entry m dir k))) as [|_]; [congruence|].
      rewrite E1, Hd, Z.eqb_refl by assumption. cbn [andb].
      destruct (Z.eqb_spec j k) as [->|]; repeat (zcase; try lia); reflexivity.
    + intros i j Hi Hj Hp. pose proof (frame_of_aligned m dir i) as Hali.
      destruct (Hts i Hi Hp) as [_ Hndi].
      rewrite add_user_table_entries by assumption.
      rewrite E1 by assumption.
      destruct (Z.eqb_spec (frame_of (entry m dir i)) dir) as [|_]; [contradiction|]. cbn [andb].
      rewrite Ht by assumption.
      destruct (Z.eq_dec i k) as [->|Hik].
      * rewrite Z.eqb_refl. repeat (zcase; try lia); reflexivity.
      * destruct (Z.eqb_spec (frame_of (entry m dir i)) (frame_of (entry m dir k))) as [Ec|_].
        { by destruct (Hinj i k Hi Hk Hik Hp Ep). }
        repeat (zcase; try lia); reflexivity.
  - assert (Eu : user_upd (entry m dir k) = entry m dir k) by (unfold user_upd; by rewrite Ep).
    split.
    + intros j Hj. rewrite Hd by assumption.
      destruct (Z.eq_dec j k) as [->|]; [rewrite Eu|]; repeat (zcase; try lia); reflexivity.
    + intros i j Hi Hj Hp. rewrite Ht by assumption.
      assert (i <> k) by congruence. repeat (zcase; try lia); reflexivity.
Qed.

Lemma add_user_flag_inv (s : vm A) (dir : Z) :
  dir_wf (vmem s) (frames s) dir -> user_inv (vmem s) dir 1024 (vmem (page_dir_add_user_flag s dir)).
Proof.
  intros Hwf. unfold page_dir_add_user_flag. cbn [with_mem vmem].
  change 1024 with (0 + Z.of_nat 1024 * 1) at 1. apply (for_up_ind (user_inv (vmem s) dir)).
  - split; intros; repeat (zcase; try lia); reflexivity.
  - intros k x Hk Hx. replace (0 + k * 1) with k in * by lia.
    replace (0 + (k + 1) * 1) with (k + 1) by lia.
    apply user_inv_step with (frames s); [exact Hwf|lia|exact Hx].
Qed.

Lemma add_user_flag_spec (s : vm A) (dir v : Z) :
  dir_wf (vmem s) (frames s) dir ->
  walk (vmem (page_dir_add_user_flag s dir)) dir v =
    option_map (fun e => Z.lor e PAGE_USER) (walk (vmem s) dir v).
Proof.
  intros Hwf. destruct (add_user_flag_inv s dir Hwf) as [Hd Ht].
  unfold walk. pose proof (PDE_IDX_range v). pose proof (PTE_IDX_range v).
  rewrite Hd, (proj2 (Z.ltb_lt (PDE_IDX v) 1024)) by (assumption || lia).
  rewrite user_upd_present. destruct (present (entry _ dir (PDE_IDX v))) eqn:Ep; [|reflexivity].
  rewrite user_upd_frame by apply entry_range.
  rewrite Ht, (proj2 (Z.ltb_lt (PDE_IDX v) 1024)) by (assumption || lia).
  rewrite user_upd_present. set (e := entry _ (frame_of _) (PTE_IDX v)).
  unfold user_upd. destruct (present e); reflexivity.
Qed.

Lemma add_user_flag_wf (s : vm A) (dir : Z) :
  dir_wf (vmem s) (frames s) dir -> dir_wf (vmem (page_dir_add_user_flag s dir)) (frames s) dir.
Proof.
  intros Hwf. destruct (add_user_flag_inv s dir Hwf) as [Hd _]. destruct Hwf as (Hok & Hdir & Hts & Hinj).
  assert (He : forall i, 0 <= i < 1024 -> entry (vmem (page_dir_add_user_flag s dir)) dir i = user_upd (entry (vmem s) dir i))
    by (intros i Hi; rewrite Hd, (proj2 (Z.ltb_lt i 1024)) by lia; reflexivity).
  split; [exact Hok|]. split; [exact Hdir|]. split.
  - intros i Hi. rewrite He, user_upd_present, user_upd_frame by (exact Hi || apply entry_range). exact (Hts i Hi).
  - intros i j Hi Hj. rewrite !He, !user_upd_present, !user_upd_frame by (assumption || apply entry_range).
    exact (Hinj i j Hi Hj).
Qed.

End facts.

End Paging.
