(* ===== verification/PagingProps.v ===== *)
(** * Properties of kernel/memory/paging.c

    The page-table code refines a map from virtual pages to entries
    ([Paging.walk]): initialisation builds the identity map, mapping and
    unmapping are point updates of it, and the directory operations copy or
    relabel it.  The theorems hold for every frame allocator that keeps the
    promises of [FrameAlloc]; the witnesses run them on [Pfa]. *)
From S2P Require Import Prelude Bytes Memory FrameAlloc Pfa Paging.

Import Paging.

Section props.
Context {A : Type} `{FAL : FrameAllocatorLaws A}.

(** [init_paging] with [n] 4 MB regions above the first and [n + 2] free
    frames terminates (the loop needs at most [n + 1] rounds), switches
    paging on with the new directory in CR3, and leaves exactly the first
    [n + 1] regions mapped, each page to itself, present and writable. *)
Theorem init_paging_identity (n fuel : nat) (s : vm A) (ram : Z) :
  fa_ok (frames s) -> Z.of_nat n <= 1022 -> (n < fuel)%nat ->
  ram <= (1 + Z.of_nat n) * 4194304 -> (0 < Z.of_nat n -> Z.of_nat n * 4194304 < ram) ->
  2 + Z.of_nat n <= fa_free_count (frames s) ->
  exists s', init_paging fuel s ram = Some s' /\ paging_on s' = true /\
    cr3 s' = kernel_page_dir s' /\ dir_wf (vmem s') (frames s') (kernel_page_dir s') /\
    (forall w, 0 <= w < 4294967296 ->
       get_page_mapping s' w =
         if w <? (1 + Z.of_nat n) * 4194304 then Some (4096 * (w / 4096)) else None).
Proof.
  intros Hok Hn Hf Hr Hl Hc.
  destruct (init_paging_spec n fuel s ram Hok Hn Hf Hr Hl Hc) as (s' & E & Hon & Hcr & Hwf & [_ Hw] & _).
  exists s'. split; [exact E|]. split; [exact Hon|]. split; [exact Hcr|]. split; [exact Hwf|].
  intros w Hwr. rewrite get_page_mapping_walk, Hw by exact Hwr.
  destruct (w <? _); [|reflexivity]. simpl. f_equal. unfold id_pte.
  rewrite frame_of_eq; div_mod_lia.
Qed.

(** C30: [map_page] is a point update of the address space.  On success
    exactly the page of [virt] now leads to the frame of [phys] with the
    requested flags, every other page is untouched and the tables stay well
    formed; it fails, changing nothing, only when a new table is needed and
    no frame is free. *)
Theorem map_page_updates (s s' : vm A) (virt phys flags r : Z) :
  dir_wf (vmem s) (frames s) (kernel_page_dir s) ->
  0 <= virt < 4294967296 -> 0 <= phys < 4294967296 ->
  map_page s virt phys flags = (r, s') ->
  (r = 0 /\ dir_wf (vmem s') (frames s') (kernel_page_dir s') /\
   walk (vmem s') (kernel_page_dir s') virt = Some (mapped_pte phys flags) /\
   forall w, 0 <= w < 4294967296 ->
     get_page_mapping s' w =
       if w / 4096 =? virt / 4096 then Some (4096 * (phys / 4096)) else get_page_mapping s w) \/
  (r = -1 /\ s' = s /\ walk (vmem s) (kernel_page_dir s) virt = None /\
   forall g, 0 <= g < fa_total (frames s) -> fa_used (frames s) g = true).
Proof.
  intros Hwf Hv Hp H. pose proof H as H0.
  destruct (map_page_to_dir_spec s s' (kernel_page_dir s) virt phys flags r Hwf Hv Hp H)
    as (Hk & [(-> & Hwf' & Hw)|(-> & -> & Hall)]); rewrite ?Hk.
  - left. split; [reflexivity|]. split; [exact Hwf'|]. split.
    + rewrite Hw, Z.eqb_refl by exact Hv. reflexivity.
    + intros w Hwr. rewrite !get_page_mapping_walk, Hk, Hw by exact Hwr.
      destruct (w / 4096 =? virt / 4096); [|reflexivity]. simpl. f_equal. by apply pte_value.
  - right. split; [reflexivity|]. split; [reflexivity|]. split; [|exact Hall].
    unfold map_page, map_page_to_dir in H0. unfold walk.
    destruct (present (entry (vmem s) (kernel_page_dir s) (PDE_IDX virt))); [discriminate H0|].
    reflexivity.
Qed.

(** [unmap_page] removes exactly the page of [virt]; it returns -1, and
    changes nothing, exactly when that page was not mapped. *)
Theorem unmap_page_removes (s s' : vm A) (virt r : Z) :
  dir_wf (vmem s) (frames s) (kernel_page_dir s) -> 0 <= virt < 4294967296 ->
  unmap_page s virt = (r, s') ->
  (r = 0 /\ get_page_mapping s virt <> None /\
   dir_wf (vmem s') (frames s') (kernel_page_dir s') /\
   forall w, 0 <= w < 4294967296 ->
     get_page_mapping s' w =
       if w / 4096 =? virt / 4096 then None else get_page_mapping s w) \/
  (r = -1 /\ s' = s /\ get_page_mapping s virt = None).
Proof.
  intros Hwf Hv H.
  destruct (unmap_page_from_dir_spec s s' (kernel_page_dir s) virt r Hwf Hv H)
    as (Hk & [(-> & Hn & Hwf' & Hw)|(-> & -> & Hn)]); rewrite ?get_page_mapping_walk.
  - left. split; [reflexivity|]. split; [by destruct (walk _ _ virt)|].
    rewrite Hk. split; [exact Hwf'|]. intros w Hwr.
    rewrite !get_page_mapping_walk, Hk, Hw by exact Hwr.
    by destruct (w / 4096 =? virt / 4096).
  - right. rewrite Hn. auto.
Qed.

(** [page_dir_create] returns a fresh directory, different from the
    kernel's, that translates every address as the kernel directory did, and
    leaves the kernel's translation as it was; both are well formed. *)
Theorem page_dir_create_copies (s s' : vm A) (dir : Z) :
  dir_wf (vmem s) (frames s) (kernel_page_dir s) -> page_dir_create s = (dir, s') -> dir <> 0 ->
  dir <> kernel_page_dir s /\
  dir_wf (vmem s') (frames s') (kernel_page_dir s) /\ dir_wf (vmem s') (frames s') dir /\
  forall v, walk (vmem s') dir v = walk (vmem s) (kernel_page_dir s) v /\
            walk (vmem s') (kernel_page_dir s) v = walk (vmem s) (kernel_page_dir s) v.
Proof.
  intros Hwf H Hd. destruct (page_dir_create_spec s s' dir Hwf H Hd) as (? & ? & ? & ?). auto.
Qed.

(** [paging_enable_user_access] keeps every translation's frame and
    every other flag: each mapped entry gains the user bit, no page becomes
    mapped or unmapped. *)
Theorem user_access_keeps_frames (s : vm A) (v : Z) :
  dir_wf (vmem s) (frames s) (kernel_page_dir s) ->
  let s' := paging_enable_user_access s in
  walk (vmem s') (kernel_page_dir s) v =
    option_map (fun e => Z.lor e PAGE_USER) (walk (vmem s) (kernel_page_dir s) v) /\
  get_page_mapping s' v = get_page_mapping s v.
Proof.
  intros Hwf s'. pose proof (add_user_flag_spec s (kernel_page_dir s) v Hwf) as Hw.
  split; [exact Hw|]. rewrite !get_page_mapping_walk.
  change (kernel_page_dir s') with (kernel_page_dir s).
  unfold s', paging_enable_user_access. rewrite Hw.
  destruct (walk (vmem s) (kernel_page_dir s) v) as [e|]; [|reflexivity]. simpl. f_equal.
  unfold frame_of. rewrite Z.land_lor_distr_l. change (Z.land PAGE_USER 4294963200) with 0.
  apply Z.lor_0_r.
Qed.

End props.

(** ** Witnesses: a machine with 16 frames of memory *)

#[local] Existing Instances Pfa.pfa_frame_allocator Pfa.pfa_frame_allocator_laws.

Definition boot_vm : vm Pfa.pfa := mkVm ∅ 0 0 false Pfa.demo_pfa.

Lemma boot_vm_ok : fa_ok (frames boot_vm).
Proof. apply Pfa.bss_pfa_init; lia. Qed.

Lemma boot_vm_free : fa_free_count (frames boot_vm) = 15.
Proof. vm_compute. reflexivity. Qed.

(** The same machine after [init_paging]; 15 frames were free, two are used
    by the directory and the first table. *)
Definition paged_vm : vm Pfa.pfa := default boot_vm (init_paging 1 boot_vm 65536).

Lemma paged_vm_wf : dir_wf (vmem paged_vm) (frames paged_vm) (kernel_page_dir paged_vm).
Proof.
  destruct (init_paging_spec 0 1 boot_vm 65536) as (s' & E & _ & _ & Hwf & _);
    [apply boot_vm_ok|lia|lia|lia|lia|rewrite boot_vm_free; lia|].
  unfold paged_vm. rewrite E. exact Hwf.
Qed.

Lemma paged_vm_map : fst (map_page paged_vm 15728640 24576 PAGE_WRITE) = 0.
Proof. vm_compute. reflexivity. Qed.

Lemma paged_vm_unmap : fst (unmap_page paged_vm 8192) = 0.
Proof. vm_compute. reflexivity. Qed.

Lemma paged_vm_create : fst (page_dir_create paged_vm) = 12288.
Proof. vm_compute. reflexivity. Qed.

#[local] Opaque paged_vm map_page unmap_page page_dir_create paging_enable_user_access.

Lemma init_paging_identity_witness :
  exists s', init_paging 1 boot_vm 65536 = Some s' /\ paging_on s' = true /\
    get_page_mapping s' 65535 = Some 61440.
Proof.
  destruct (init_paging_identity 0 1 boot_vm 65536) as (s' & E & Hon & _ & _ & Hw);
    [exact boot_vm_ok|lia|lia|lia|lia|rewrite boot_vm_free; lia|].
  exists s'. split; [exact E|]. split; [exact Hon|]. apply Hw. lia.
Defined.

Lemma map_page_updates_witness :
  exists s', map_page paged_vm 15728640 24576 PAGE_WRITE = (0, s') /\
    get_page_mapping s' 15728645 = Some 24576.
Proof.
  destruct (map_page paged_vm 15728640 24576 PAGE_WRITE) as [r s'] eqn:E.
  pose proof paged_vm_map as Hr. rewrite E in Hr. cbn [fst] in Hr. subst r.
  exists s'. split; [reflexivity|].
  destruct (map_page_updates paged_vm s' 15728640 24576 PAGE_WRITE 0 paged_vm_wf ltac:(lia)
              ltac:(lia) E) as [(_ & _ & _ & Hw)|(Hr & _)]; [|lia].
  rewrite Hw by lia. reflexivity.
Defined.

Lemma unmap_page_removes_witness :
  exists s', unmap_page paged_vm 8192 = (0, s') /\ get_page_mapping s' 8200 = None.
Proof.
  destruct (unmap_page paged_vm 8192) as [r s'] eqn:E.
  pose proof paged_vm_unmap as Hr. rewrite E in Hr. cbn [fst] in Hr. subst r.
  exists s'. split; [reflexivity|].
  destruct (unmap_page_removes paged_vm s' 8192 0 paged_vm_wf ltac:(lia) E)
    as [(_ & _ & _ & Hw)|(Hr & _)]; [|lia]. rewrite Hw by lia. reflexivity.
Defined.

Lemma page_dir_create_copies_witness :
  exists s', page_dir_create paged_vm = (12288, s') /\
    walk (vmem s') 12288 4096 = walk (vmem paged_vm) (kernel_page_dir paged_vm) 4096.
Proof.
  destruct (page_dir_create paged_vm) as [dir s'] eqn:E.
  pose proof paged_vm_create as Hr. rewrite E in Hr. cbn [fst] in Hr. subst dir.
  exists s'. split; [reflexivity|].
  destruct (page_dir_create_copies paged_vm s' 12288 paged_vm_wf E ltac:(lia))
    as (_ & _ & _ & Hw). exact (proj1 (Hw 4096)).
Defined.

Lemma user_access_keeps_frames_witness :
  get_page_mapping (paging_enable_user_access paged_vm) 4096 = get_page_mapping paged_vm 4096.
Proof. exact (proj2 (user_access_keeps_frames paged_vm 4096 paged_vm_wf)). Defined.
