(* ===== verification/Mmu.v ===== *)
(** * What the memory management unit grants

    [Paging.walk] is the page-table entry an address leads to.  The processor
    also looks at the directory entry: an access by a program needs the user
    bit, a write the write bit, in both.  Here are the translation with both
    entries' flags, and what the operations of paging.c do to directory
    entries. *)
From S2P Require Import Prelude Bytes Memory FrameAlloc Paging.

Import Paging.

(** The low bits of the directory entry, and the page-table entry *)
Definition translation (m : memory) (dir v : Z) : option (Z * Z) :=
  let pde := entry m dir (PDE_IDX v) in
  if present pde then
    let pte := entry m (frame_of pde) (PTE_IDX v) in
    if present pte then Some (Z.land pde 7, pte) else None
  else None.

Definition flag (e f : Z) : bool := negb (Z.land e f =? 0).

(** The frame, whether it may be written, and whether programs may use it
    (with write protection on for the kernel as well) *)
Definition mmu (m : memory) (dir v : Z) : option (Z * bool * bool) :=
  option_map (fun '(d, e) => (frame_of e, flag d PAGE_WRITE && flag e PAGE_WRITE, flag d PAGE_USER && flag e PAGE_USER))
    (translation m dir v).

Lemma translation_walk (m : memory) (dir v : Z) :
  translation m dir v = option_map (pair (Z.land (entry m dir (PDE_IDX v)) 7)) (walk m dir v).
Proof. unfold translation, walk. destruct (present _); [|done]. by destruct (present _). Qed.

Lemma walk_translation (m : memory) (dir v : Z) : walk m dir v = option_map snd (translation m dir v).
Proof. rewrite translation_walk. by destruct (walk m dir v). Qed.

Lemma walk_present (m : memory) (dir v e : Z) : walk m dir v = Some e -> present (entry m dir (PDE_IDX v)) = true.
Proof. unfold walk. by destruct (present _). Qed.

(** [m'] keeps the directory entries that are present in [m]. *)
Definition keeps_pdes (m m' : memory) (dir : Z) : Prop :=
  forall i, 0 <= i < 1024 -> present (entry m dir i) = true -> entry m' dir i = entry m dir i.

Lemma keeps_pdes_refl (m : memory) (dir : Z) : keeps_pdes m m dir.
Proof. done. Qed.

Lemma keeps_pdes_trans (m1 m2 m3 : memory) (dir : Z) :
  keeps_pdes m1 m2 dir -> keeps_pdes m2 m3 dir -> keeps_pdes m1 m3 dir.
Proof. intros H1 H2 i Hi Hp. rewrite H2; [by apply H1|done|by rewrite H1]. Qed.

(** Where the entry is the same, so is the translation. *)
Lemma translation_same (m m' : memory) (dir v : Z) :
  keeps_pdes m m' dir -> walk m' dir v = walk m dir v -> translation m' dir v = translation m dir v.
Proof.
  intros Hk E. rewrite !translation_walk, E. destruct (walk m dir v) as [e|] eqn:Ew; [|done]. cbn [option_map].
  by rewrite Hk by (apply PDE_IDX_range || by apply (walk_present _ _ _ e)).
Qed.

(** Directory entries that are added have all flags. *)
Definition adds_user_pdes (m m' : memory) (dir : Z) : Prop :=
  forall i, 0 <= i < 1024 -> present (entry m dir i) = false -> present (entry m' dir i) = true ->
    Z.land (entry m' dir i) 7 = 7.

Lemma present_land7 (e x : Z) : Z.land e 7 = x -> Z.testbit x 0 = true -> present e = true.
Proof. intros <- Hx. rewrite present_odd. rewrite Z.land_spec in Hx. by apply andb_true_iff in Hx as [? _]. Qed.

Lemma lor_flag (t f : Z) : f = PAGE_WRITE \/ f = PAGE_USER -> flag (Z.lor t 7) f = true.
Proof.
  intros Hf. unfold flag. rewrite Z.land_lor_distr_l. destruct Hf as [-> | ->]; apply negb_true_iff, Z.eqb_neq; intros E;
    apply Z.lor_eq_0_iff in E as [_ E]; discriminate E.
Qed.

Lemma mmu_granted (m : memory) (dir v e : Z) :
  walk m dir v = Some e -> flag e PAGE_WRITE = true -> flag e PAGE_USER = true ->
  Z.land (entry m dir (PDE_IDX v)) 7 = 7 -> mmu m dir v = Some (frame_of e, true, true).
Proof. intros Ew Hw Hu Hd. unfold mmu. rewrite translation_walk, Ew, Hd. cbn [option_map]. by rewrite Hw, Hu. Qed.

Section mmu.
Context {A : Type} `{FAL : FrameAllocatorLaws A}.

(** Setting an entry of a table, or of a frame that is no table *)
Lemma set_entry_pdes (m : memory) (dir t i x : Z) :
  dir mod 4096 = 0 -> t mod 4096 = 0 -> t <> dir -> 0 <= i < 1024 ->
  forall j, 0 <= j < 1024 -> entry (set_entry m t i x) dir j = entry m dir j.
Proof. intros Hd Ht Hne Hi j Hj. rewrite entry_set, (proj2 (Z.eqb_neq dir t)) by congruence || done. done. Qed.

(** [map_page] keeps the directory entries there are; one that it adds has
    the user bit as asked. *)
Lemma map_page_pdes (s : vm A) (v phys flags : Z) :
  let dir := kernel_page_dir s in
  dir_wf (vmem s) (frames s) dir ->
  let s' := snd (map_page s v phys flags) in
  (forall i, 0 <= i < 1024 -> present (entry (vmem s) dir i) = true \/ i <> PDE_IDX v ->
     entry (vmem s') dir i = entry (vmem s) dir i) /\
  (present (entry (vmem s) dir (PDE_IDX v)) = false -> fst (map_page s v phys flags) = 0 ->
   Z.land (entry (vmem s') dir (PDE_IDX v)) 7 = Z.lor 3 (Z.land flags PAGE_USER)).
Proof.
  intros dir Hwf. pose proof (dir_aligned _ _ _ Hwf) as Hda. pose proof (PDE_IDX_range v) as Hi.
  pose proof (PTE_IDX_range v) as Hj. cbv zeta. unfold map_page, map_page_to_dir. fold dir.
  set (pte := Z.lor (Z.lor (Z.land phys 4294963200) PAGE_PRESENT) _).
  destruct (present (entry (vmem s) dir (PDE_IDX v))) eqn:Ep.
  - cbn [Z.eqb snd fst with_mem vmem]. split; [|discriminate]. intros i Hir _.
    apply set_entry_pdes; [done|apply frame_of_aligned|by apply Hwf|done|done].
  - pose proof (create_table_spec s dir v flags Hwf Ep) as Hct. pose proof (create_table_pdes s dir v flags Hwf Ep) as Hpd.
    destruct (create_table_in_dir s dir v flags) as [t s1].
    destruct Hct as (_ & _ & _ & [(-> & -> & _)|(Ht & _ & Hwf1 & Hp1 & _)]); [by cbn|].
    destruct (Hpd Ht) as [He Hf]. rewrite (proj2 (Z.eqb_neq t 0) Ht). cbn [Z.eqb snd fst with_mem vmem].
    assert (Hs : forall j, 0 <= j < 1024 ->
      entry (set_entry (vmem s1) (frame_of (entry (vmem s1) dir (PDE_IDX v))) (PTE_IDX v) pte) dir j = entry (vmem s1) dir j)
      by (apply set_entry_pdes; [done|apply frame_of_aligned|by apply Hwf1|done]).
    split; [|intros _ _; by rewrite Hs]. intros i Hir Hp. rewrite Hs by done. apply He; [done|].
    destruct Hp; congruence.
Qed.

End mmu.
