(* ===== verification/Heap.v ===== *)
(** * kernel/memory/heap.c: the kernel heap

    A boundary-tag allocator over the 2 MB at [HEAP_START].  A block of
    [size] bytes carries its size in its first word, with bit 0 set when it
    is in use, and again in its last word (the footer).  The model keeps the
    blocks in byte memory and follows the source's pointer arithmetic in
    32-bit unsigned integers.  [Halt] is the [cli; hlt] after a corrupted
    header; [NoFuel] is a walk cut off by its fuel.  The heap lock makes
    each public call one atomic step, so [malloc], [free] and the others
    are their [_impl] bodies here; log output is left out.

    The heap's contents are described by a list of blocks ([heap_repr]),
    and the clients' view of it by the list of payload regions in use
    ([regions]). *)
From S2P Require Import Prelude Bytes Memory Lib.

Module Heap.

Definition HEAP_START : Z := 8388608.

Definition HEAP_SIZE : Z := 2097152.

Definition HEADER_SIZE : Z := 4.

Definition FOOTER_SIZE : Z := 4.

Definition MIN_BLOCK : Z := HEADER_SIZE + FOOTER_SIZE + 4.

Definition ALIGN : Z := 4.

Inductive outcome (A : Type) := Ret (a : A) | Halt | NoFuel.
#[global] Arguments Ret {A} a.
#[global] Arguments Halt {A}.
#[global] Arguments NoFuel {A}.

(** [*hdr & ~1] and [!( *hdr & 1)] *)
Definition hdr_size (h : Z) : Z := Z.land h (Z.lnot 1).

Definition hdr_free (h : Z) : bool := Z.land h 1 =? 0.

Definition set_footer (m : memory) (addr size : Z) : memory :=
  store32 m (u32 (addr + size - FOOTER_SIZE)) size.

Definition heap_init (m : memory) : memory :=
  set_footer (store32 m HEAP_START HEAP_SIZE) HEAP_START HEAP_SIZE.

(** [(size + ALIGN - 1) & ~(ALIGN - 1)] *)
Definition align_up (size : Z) : Z := Z.land (u32 (size + ALIGN - 1)) (Z.lnot (ALIGN - 1)).

(** The block size for a request whose size is already rounded up. *)
Definition block_need (size : Z) : Z :=
  let need := u32 (HEADER_SIZE + size + FOOTER_SIZE) in
  if need <? MIN_BLOCK then MIN_BLOCK else need.

(** Write a used block of [need] bytes and a free one in the [remaining]
    bytes after it. *)
Definition split_block (m : memory) (addr need remaining : Z) : memory :=
  let m := store32 m addr (Z.lor need 1) in
  let m := set_footer m addr need in
  let m := store32 m (u32 (addr + need)) remaining in
  set_footer m (u32 (addr + need)) remaining.

(** The [while] loop of [malloc_impl]. *)
Fixpoint malloc_walk (fuel : nat) (m : memory) (addr need : Z) : outcome (Z * memory) :=
  match fuel with
  | O => NoFuel
  | S fuel =>
    if negb (addr <? HEAP_START + HEAP_SIZE) then Ret (0, m)
    else
      let h := load32 m addr in
      let block_size := hdr_size h in
      if (block_size =? 0) || (HEAP_SIZE <? block_size) then Halt
      else if hdr_free h && (need <=? block_size) then
        let remaining := block_size - need in
        if MIN_BLOCK <=? remaining
        then Ret (addr + HEADER_SIZE, split_block m addr need remaining)
        else Ret (addr + HEADER_SIZE,
                  set_footer (store32 m addr (Z.lor block_size 1)) addr block_size)
      else malloc_walk fuel m (u32 (addr + block_size)) need
  end.

Definition malloc_impl (fuel : nat) (m : memory) (size : Z) : outcome (Z * memory) :=
  if size =? 0 then Ret (0, m)
  else if HEAP_SIZE <? size then Ret (0, m)
  else malloc_walk fuel m HEAP_START (block_need (align_up size)).

(** The two coalescing steps of [free_impl], first with the next block, then
    with the previous one.  [coalesce_next] also returns the new size. *)
Definition coalesce_next (m : memory) (addr size : Z) : Z * memory :=
  let next_addr := u32 (addr + size) in
  if (HEAP_START <=? next_addr) && (next_addr <? HEAP_START + HEAP_SIZE) then
    let h := load32 m next_addr in
    let next_size := hdr_size h in
    if (MIN_BLOCK <=? next_size) && (next_size <? HEAP_SIZE) && hdr_free h then
      let size := u32 (size + next_size) in
      (size, set_footer (store32 m addr size) addr size)
    else (size, m)
  else (size, m).

Definition coalesce_prev (m : memory) (addr size : Z) : memory :=
  if HEAP_START + MIN_BLOCK <? addr then
    let prev_size := load32 m (addr - FOOTER_SIZE) in
    if (MIN_BLOCK <=? prev_size) && (prev_size <? HEAP_SIZE) then
      let prev_addr := u32 (addr - prev_size) in
      if (HEAP_START <=? prev_addr) && (prev_addr <? addr) then
        if hdr_free (load32 m prev_addr) then
          let size := u32 (size + prev_size) in
          set_footer (store32 m prev_addr size) prev_addr size
        else m
      else m
    else m
  else m.

Definition free_impl (m : memory) (ptr : Z) : memory :=
  if ptr =? 0 then m
  else
    let addr := u32 (ptr - HEADER_SIZE) in
    if (addr <? HEAP_START) || (HEAP_START + HEAP_SIZE <=? addr) then m
    else
      let h := load32 m addr in
      let size := hdr_size h in
      if hdr_free h then m
      else
        let m := set_footer (store32 m addr size) addr size in
        let '(size, m) := coalesce_next m addr size in
        coalesce_prev m addr size.

Definition realloc_impl (fuel : nat) (m : memory) (ptr size : Z) : outcome (Z * memory) :=
  if ptr =? 0 then malloc_impl fuel m size
  else if size =? 0 then Ret (0, free_impl m ptr)
  else
    let addr := u32 (ptr - HEADER_SIZE) in
    if (addr <? HEAP_START) || (HEAP_START + HEAP_SIZE <=? addr) then Ret (0, m)
    else
      let h := load32 m addr in
      let old_size := hdr_size h in
      if hdr_free h then Ret (0, m)
      else
        let old_data_size := u32 (old_size - HEADER_SIZE - FOOTER_SIZE) in
        let size := align_up size in
        let new_need := block_need size in
        if new_need <=? old_size then
          let remaining := old_size - new_need in
          if MIN_BLOCK <=? remaining
          then Ret (ptr, split_block m addr new_need remaining)
          else Ret (ptr, m)
        else
          match malloc_impl fuel m size with
          | Ret (new_ptr, m) =>
            if new_ptr =? 0 then Ret (0, m)
            else
              let copy_size := if old_data_size <? size then old_data_size else size in
              let m := for_up (Z.to_nat copy_size) 0 1
                         (fun i m => store8 m (new_ptr + i) (load8 m (ptr + i))) m in
              Ret (new_ptr, free_impl m ptr)
          | o => o
          end.

Definition calloc_impl (fuel : nat) (m : memory) (num size : Z) : outcome (Z * memory) :=
  if (num =? 0) || (size =? 0) then Ret (0, m)
  else if 4294967295 / size <? num then Ret (0, m)
  else
    let total := u32 (num * size) in
    match malloc_impl fuel m total with
    | Ret (ptr, m) => Ret (ptr, if ptr =? 0 then m else Lib.lib_memset m ptr 0 total)
    | o => o
    end.

(** [heap_walk_impl]: the totals it prints, as (blocks, free, used). *)
Fixpoint heap_walk_loop (fuel : nat) (m : memory) (addr blocks total_free total_used : Z) :
    outcome (Z * Z * Z) :=
  match fuel with
  | O => NoFuel
  | S fuel =>
    if negb (addr <? HEAP_START + HEAP_SIZE) then Ret (blocks, total_free, total_used)
    else
      let h := load32 m addr in
      let block_size := hdr_size h in
      if (block_size =? 0) || (HEAP_SIZE <? block_size) then Ret (blocks, total_free, total_used)
      else
        let '(total_free, total_used) :=
          if hdr_free h then (u32 (total_free + block_size), total_used)
          else (total_free, u32 (total_used + block_size)) in
        heap_walk_loop fuel m (u32 (addr + block_size)) (u32 (blocks + 1)) total_free total_used
  end.

Definition heap_walk_impl (fuel : nat) (m : memory) : outcome (Z * Z * Z) :=
  heap_walk_loop fuel m HEAP_START 0 0 0.

(** ** Specification: a list of blocks *)

(** A block is its size in bytes, tags included, and whether it is in use. *)
Definition block : Type := Z * bool.

Definition block_at (m : memory) (a : Z) (b : block) : Prop :=
  12 <= b.1 /\ b.1 mod 4 = 0 /\ load32 m a = b.1 + c_bool b.2 /\ load32 m (a + b.1 - 4) = b.1.

Fixpoint total (bs : list block) : Z :=
  match bs with
  | [] => 0
  | b :: bs => b.1 + total bs
  end.

Fixpoint blocks_at (m : memory) (a : Z) (bs : list block) : Prop :=
  match bs with
  | [] => True
  | b :: bs => block_at m a b /\ blocks_at m (a + b.1) bs
  end.

Definition heap_repr (m : memory) (bs : list block) : Prop :=
  blocks_at m HEAP_START bs /\ total bs = HEAP_SIZE.

(** The payloads in use: start address and capacity of each. *)
Fixpoint regions_from (a : Z) (bs : list block) : list (Z * Z) :=
  match bs with
  | [] => []
  | (sz, u) :: bs =>
    (if u : bool then [(a + HEADER_SIZE, sz - HEADER_SIZE - FOOTER_SIZE)] else [])
      ++ regions_from (a + sz) bs
  end.

Definition regions (bs : list block) : list (Z * Z) := regions_from HEAP_START bs.

(** The bytes of [m] and [m'] agree on every region of [rs]. *)
Definition payloads_same (m m' : memory) (rs : list (Z * Z)) : Prop :=
  forall q k, (q, k) ∈ rs -> forall i, 0 <= i < k -> load8 m' (q + i) = load8 m (q + i).

(** The tail of the list when [need] bytes are taken from a free block of
    [sz]. *)
Definition take_block (need sz : Z) (post : list block) : list block :=
  if MIN_BLOCK <=? sz - need then (need, true) :: (sz - need, false) :: post
  else (sz, true) :: post.

(** First fit, as a function on block lists: the offset of the chosen
    block, and the list afterwards. *)
Fixpoint first_fit (need : Z) (bs : list block) : option (Z * list block) :=
  match bs with
  | [] => None
  | (sz, u) :: r =>
    if negb u && (need <=? sz) then
      Some (0, take_block need sz r)
    else
      match first_fit need r with
      | Some (o, r') => Some (sz + o, (sz, u) :: r')
      | None => None
      end
  end.

(** Freeing the block after [pre]: merge with the next block when that is
    free, then with the previous one when that is free and the freed block
    starts more than [MIN_BLOCK] bytes into the heap. *)
Definition merge_next (sz : Z) (post : list block) : Z * list block :=
  match post with
  | (n, false) :: r => (sz + n, r)
  | _ => (sz, post)
  end.

Definition merge_prev (pre : list block) (sz : Z) (post : list block) : list block :=
  match reverse pre with
  | (k, false) :: rpre =>
    if MIN_BLOCK <? total pre then reverse rpre ++ (sz + k, false) :: post
    else pre ++ (sz, false) :: post
  | _ => pre ++ (sz, false) :: post
  end.

Definition free_blocks (pre : list block) (sz : Z) (post : list block) : list block :=
  let '(sz, post) := merge_next sz post in merge_prev pre sz post.

(** ** Headers and footers *)

Lemma hdr_eq (sz : Z) (u : bool) :
  sz mod 4 = 0 -> hdr_size (sz + c_bool u) = sz /\ hdr_free (sz + c_bool u) = negb u.
Proof.
  intros. unfold hdr_size, hdr_free.
  rewrite (land_lnot_ones _ 1) by lia. rewrite (Z.land_ones _ 1) by lia.
  destruct u; cbn [c_bool negb]; split.
  - div_mod_lia.
  - apply Z.eqb_neq. div_mod_lia.
  - div_mod_lia.
  - apply Z.eqb_eq. div_mod_lia.
Qed.

Lemma lor_used (sz : Z) : sz mod 4 = 0 -> Z.lor sz 1 = sz + c_bool true.
Proof.
  intros H. rewrite (Z.div_mod sz 4), H by lia. cbn [c_bool]. rewrite Z.add_0_r.
  rewrite <- Z.lxor_lor, <- Z.add_nocarry_lxor; [reflexivity| |];
    (apply Z.bits_inj'; intros n Hn; rewrite Z.land_spec, Z.bits_0;
     destruct (Z.eq_dec n 0) as [->|];
     [rewrite Z.testbit_odd, Z.shiftr_0_r, Z.odd_mul; reflexivity
     |rewrite (Z.bits_above_log2 1 n) by (simpl; lia); apply andb_false_r]).
Qed.

Lemma align_up_eq (size : Z) : 0 <= size <= 4294967292 -> align_up size = 4 * ((size + 3) / 4).
Proof.
  intros. unfold align_up, ALIGN. change (4 - 1) with 3.
  rewrite u32_small by lia. rewrite land_align4. f_equal. f_equal. lia.
Qed.

Lemma block_need_eq (size : Z) :
  0 <= size <= 4294967284 -> size mod 4 = 0 -> block_need size = Z.max 12 (size + 8).
Proof.
  intros. unfold block_need, HEADER_SIZE, FOOTER_SIZE. change MIN_BLOCK with 12.
  rewrite u32_small by lia. zcase; lia.
Qed.

(** Writing a block's two tags. *)
Lemma block_write (m : memory) (a sz : Z) (u : bool) :
  12 <= sz -> sz mod 4 = 0 -> 0 <= a -> a + sz < 4294967295 ->
  let m' := set_footer (store32 m a (sz + c_bool u)) a sz in
  block_at m' a (sz, u) /\
  mem_same m m' (fun x => x < a \/ a + 4 <= x < a + sz - 4 \/ a + sz <= x).
Proof.
  intros Hsz H4 Ha Hb m'. unfold m', set_footer, FOOTER_SIZE. rewrite (u32_small (a + sz - 4)) by lia.
  split.
  - unfold block_at; cbn [fst snd]. split; [lia|]. split; [lia|].
    rewrite load32_store32_eq, load32_store32_ne, load32_store32_eq by lia.
    destruct u; cbn [c_bool]; rewrite !u32_small by lia; lia.
  - intros x Hx. by rewrite !load8_store32_ne by lia.
Qed.

Lemma total_app (b1 b2 : list block) : total (b1 ++ b2) = total b1 + total b2.
Proof. induction b1 as [|b b1 IH]; simpl; [done|]. rewrite IH. lia. Qed.

Lemma blocks_at_app (m : memory) (a : Z) (b1 b2 : list block) :
  blocks_at m a (b1 ++ b2) <-> blocks_at m a b1 /\ blocks_at m (a + total b1) b2.
Proof.
  revert a; induction b1 as [|b b1 IH]; intros a; simpl.
  - rewrite Z.add_0_r. tauto.
  - rewrite IH. replace (a + b.1 + total b1) with (a + (b.1 + total b1)) by lia. tauto.
Qed.

Lemma blocks_at_total (m : memory) (a : Z) (bs : list block) :
  blocks_at m a bs -> 12 * Z.of_nat (length bs) <= total bs /\ total bs mod 4 = 0.
Proof.
  revert a; induction bs as [|b bs IH]; intros a; [done|]. intros [(H1 & H2 & _) H].
  apply IH in H. cbn [length total]. split; [lia|]. div_mod_lia.
Qed.

Lemma blocks_at_nonneg (m : memory) (a : Z) (bs : list block) : blocks_at m a bs -> 0 <= total bs.
Proof. intros H. apply blocks_at_total in H. lia. Qed.

Lemma block_at_same (m m' : memory) (a : Z) (b : block) :
  block_at m a b ->
  mem_same m m' (fun x => a <= x < a + 4 \/ a + b.1 - 4 <= x < a + b.1) -> block_at m' a b.
Proof.
  intros (H1 & H2 & H3 & H4) Hs. split; [done|]. split; [done|].
  rewrite (mem_same_load32 _ _ _ a Hs), (mem_same_load32 _ _ _ (a + b.1 - 4) Hs) by lia. done.
Qed.

Lemma blocks_at_same (m m' : memory) (a : Z) (bs : list block) :
  blocks_at m a bs -> mem_same m m' (fun x => a <= x < a + total bs) -> blocks_at m' a bs.
Proof.
  revert a; induction bs as [|b bs IH]; intros a; [done|]. simpl. intros [Hb H] Hs.
  pose proof Hb as (Hb12 & _). pose proof (blocks_at_nonneg _ _ _ H). split.
  - apply (block_at_same m); [exact Hb|]. eapply mem_same_weaken; [exact Hs|]. simpl. lia.
  - apply IH; [exact H|]. eapply mem_same_weaken; [exact Hs|]. simpl. lia.
Qed.

Lemma regions_from_app (a : Z) (b1 b2 : list block) :
  regions_from a (b1 ++ b2) = regions_from a b1 ++ regions_from (a + total b1) b2.
Proof.
  revert a; induction b1 as [|[sz u] b1 IH]; intros a; simpl.
  - by rewrite Z.add_0_r.
  - rewrite IH, <- app_assoc. do 3 f_equal. lia.
Qed.

Lemma regions_from_in (m : memory) (a q k : Z) (bs : list block) :
  blocks_at m a bs -> (q, k) ∈ regions_from a bs -> a + 4 <= q /\ 4 <= k /\ q + k + 4 <= a + total bs.
Proof.
  revert a; induction bs as [|[sz u] bs IH]; intros a; simpl; [by intros _ ?%elem_of_nil|].
  intros [(H1 & _) H]. cbn [fst] in *. pose proof (blocks_at_nonneg _ _ _ H).
  rewrite elem_of_app. intros [Hi|Hi].
  - destruct u; [|by apply elem_of_nil in Hi]. apply list_elem_of_singleton in Hi as [= -> ->].
    unfold HEADER_SIZE, FOOTER_SIZE. lia.
  - apply IH in Hi; [lia|done].
Qed.

(** Membership in [regions] locates the block. *)
Lemma regions_from_split (a q k : Z) (bs : list block) :
  (q, k) ∈ regions_from a bs ->
  exists pre post, bs = pre ++ (k + 8, true) :: post /\ q = a + total pre + 4.
Proof.
  revert a; induction bs as [|[sz u] bs IH]; intros a; simpl; [by intros ?%elem_of_nil|].
  rewrite elem_of_app. intros [Hi|Hi].
  - destruct u; [|by apply elem_of_nil in Hi].
    apply list_elem_of_singleton in Hi as [= -> ->]. exists [], bs.
    unfold HEADER_SIZE, FOOTER_SIZE. split; [|simpl; lia]. simpl. do 2 f_equal. lia.
  - apply IH in Hi as (pre & post & -> & ->). exists ((sz, u) :: pre), post.
    split; [done|]. simpl. lia.
Qed.

(** A change outside the regions' bytes keeps the payloads. *)
Lemma payloads_same_mem (m m' : memory) (rs : list (Z * Z)) (P : Z -> Prop) :
  mem_same m m' P -> (forall q k i, (q, k) ∈ rs -> 0 <= i < k -> P (q + i)) ->
  payloads_same m m' rs.
Proof. intros Hs HP q k Hq i Hi. apply Hs. by apply (HP q k). Qed.

Lemma payloads_same_trans (m1 m2 m3 : memory) (rs : list (Z * Z)) :
  payloads_same m1 m2 rs -> payloads_same m2 m3 rs -> payloads_same m1 m3 rs.
Proof. intros H1 H2 q k Hq i Hi. by rewrite (H2 q k), (H1 q k). Qed.

(** ** Initialisation *)

Lemma heap_init_repr (m : memory) : heap_repr (heap_init m) [(HEAP_SIZE, false)].
Proof.
  split; [|reflexivity]. split; [|exact I].
  unfold heap_init. change (store32 m HEAP_START HEAP_SIZE)
    with (store32 m HEAP_START (HEAP_SIZE + c_bool false)).
  apply (block_write m HEAP_START HEAP_SIZE false); unfold HEAP_START, HEAP_SIZE; try lia; done.
Qed.

(** ** malloc *)

Lemma first_fit_Some (need o : Z) (bs bs' : list block) :
  first_fit need bs = Some (o, bs') ->
  exists pre sz post, bs = pre ++ (sz, false) :: post /\ o = total pre /\ need <= sz /\
    bs' = pre ++ take_block need sz post.
Proof.
  revert o bs'; induction bs as [|[sz u] bs IH]; intros o bs'; simpl; [done|].
  destruct (negb u && (need <=? sz)) eqn:E.
  - intros [= <- <-]. zbool. destruct u; [done|]. exists [], sz, bs. done.
  - destruct (first_fit need bs) as [[o' r']|]; [|done]. intros [= <- <-].
    destruct (IH o' r' eq_refl) as (pre & sz' & post & -> & -> & Hn & ->).
    exists ((sz, u) :: pre), sz', post. done.
Qed.

Lemma first_fit_None (need : Z) (bs : list block) :
  first_fit need bs = None -> forall sz, (sz, false) ∈ bs -> sz < need.
Proof.
  induction bs as [|[sz u] bs IH]; simpl; [by intros _ ? ?%elem_of_nil|].
  destruct (negb u && (need <=? sz)) eqn:E; [done|].
  destruct (first_fit need bs) as [[o' r']|]; [done|]. intros _ sz'.
  rewrite elem_of_cons. intros [[= -> <-]|H]; [|by apply IH].
  simpl in E. lia.
Qed.

Lemma split_block_spec (m : memory) (a need rem : Z) :
  12 <= need -> need mod 4 = 0 -> 12 <= rem -> rem mod 4 = 0 -> 0 <= a ->
  a + need + rem < 4294967295 ->
  let m' := split_block m a need rem in
  block_at m' a (need, true) /\ block_at m' (a + need) (rem, false) /\
  mem_same m m' (fun x => x < a \/ a + 4 <= x < a + need - 4 \/ a + need + rem <= x).
Proof.
  intros Hn Hn4 Hr Hr4 Ha Hlt m'. unfold m', split_block.
  rewrite lor_used, (u32_small (a + need)) by lia.
  destruct (block_write m a need true) as [B1 S1]; [lia..|].
  set (m1 := set_footer _ a need) in *.
  destruct (block_write m1 (a + need) rem false) as [B2 S2]; [lia..|].
  cbn [c_bool] in B2, S2. rewrite Z.add_0_r in B2, S2.
  split; [|split; [exact B2|]].
  - apply (block_at_same m1); [exact B1|]. eapply mem_same_weaken; [exact S2|]. simpl. lia.
  - eapply mem_same_trans; eapply mem_same_weaken; [exact S1| |exact S2|]; simpl; lia.
Qed.

(** The stores of [malloc_walk] at the chosen block. *)
Definition take_mem (m : memory) (a need sz : Z) : memory :=
  if MIN_BLOCK <=? sz - need then split_block m a need (sz - need)
  else set_footer (store32 m a (Z.lor sz 1)) a sz.

Lemma take_mem_spec (m : memory) (a need sz : Z) (post : list block) :
  12 <= need -> need mod 4 = 0 -> need <= sz -> sz mod 4 = 0 -> 0 <= a ->
  a + sz + total post < 4294967295 -> blocks_at m (a + sz) post ->
  blocks_at (take_mem m a need sz) a (take_block need sz post) /\
  mem_same m (take_mem m a need sz) (fun x => x < a \/ a + sz <= x).
Proof.
  intros Hn Hn4 Hs Hs4 Ha Hlt Hp. unfold take_mem, take_block. change MIN_BLOCK with 12.
  pose proof (blocks_at_nonneg _ _ _ Hp).
  zcase.
  - destruct (split_block_spec m a need (sz - need)) as (B1 & B2 & S); [lia|lia|lia| |lia|lia|].
    { div_mod_lia. }
    assert (S' : mem_same m (split_block m a need (sz - need)) (fun x => x < a \/ a + sz <= x)).
    { eapply mem_same_weaken; [exact S|]. simpl. lia. }
    split; [|exact S']. split; [exact B1|]. split; [exact B2|].
    cbn [fst]. replace (a + need + (sz - need)) with (a + sz) by lia.
    eapply blocks_at_same; [exact Hp|]. eapply mem_same_weaken; [exact S'|]. simpl. lia.
  - rewrite lor_used by lia. destruct (block_write m a sz true) as [B1 S]; [lia..|].
    split.
    + split; [exact B1|]. eapply blocks_at_same; [exact Hp|].
      eapply mem_same_weaken; [exact S|]. simpl. lia.
    + eapply mem_same_weaken; [exact S|]. simpl. lia.
Qed.

Lemma take_block_total (need sz : Z) (post : list block) :
  total (take_block need sz post) = sz + total post.
Proof. unfold take_block. case_match; simpl; lia. Qed.

(** The walk refines [first_fit]; it needs one unit of fuel per block and
    one for the end. *)
Lemma malloc_walk_spec (fuel : nat) (m : memory) (a need : Z) (bs : list block) :
  blocks_at m a bs -> HEAP_START <= a -> a + total bs = HEAP_START + HEAP_SIZE ->
  (length bs < fuel)%nat ->
  malloc_walk fuel m a need =
    match first_fit need bs with
    | None => Ret (0, m)
    | Some (o, _) => Ret (a + o + 4, take_mem m (a + o) need (hdr_size (load32 m (a + o))))
    end.
Proof.
  revert a bs; induction fuel as [|fuel IH]; intros a bs Hb Ha Ht Hf; [lia|].
  destruct bs as [|[sz u] bs]; cbn [malloc_walk first_fit total fst] in *.
  { rewrite (proj2 (Z.ltb_ge a _)) by lia. reflexivity. }
  destruct Hb as [(H12 & H4 & Hh & _) Hb]. cbn [fst snd] in *.
  pose proof (blocks_at_nonneg _ _ _ Hb). unfold HEAP_START, HEAP_SIZE in *.
  rewrite (proj2 (Z.ltb_lt a _)) by lia. cbn [negb]. rewrite Hh.
  destruct (hdr_eq sz u H4) as [-> ->].
  rewrite (proj2 (Z.eqb_neq sz 0)), (proj2 (Z.ltb_ge _ sz)) by lia. cbn [orb].
  destruct (negb u && (need <=? sz)) eqn:E.
  - rewrite Z.add_0_r, Hh. rewrite (proj1 (hdr_eq sz u H4)). unfold take_mem, HEADER_SIZE.
    destruct (MIN_BLOCK <=? sz - need); reflexivity.
  - rewrite u32_small by lia. rewrite (IH (a + sz) bs); [|exact Hb|lia|lia|simpl in Hf; lia].
    destruct (first_fit need bs) as [[o r']|]; [|reflexivity].
    replace (a + sz + o) with (a + (sz + o)) by lia. reflexivity.
Qed.

(** The block size for a request of [size] bytes. *)
Definition need_of (size : Z) : Z := Z.max 12 (4 * ((size + 3) / 4) + 8).

Lemma need_of_eq (size : Z) :
  0 <= size <= 4294967284 -> block_need (align_up size) = need_of size.
Proof.
  intros. rewrite align_up_eq by lia. apply block_need_eq; div_mod_lia.
Qed.

Lemma need_of_ok (size : Z) : 0 <= size -> 12 <= need_of size /\ need_of size mod 4 = 0 /\ size + 8 <= need_of size.
Proof. intros. unfold need_of. split; [lia|]. split; div_mod_lia. Qed.

Lemma heap_repr_split (m : memory) (pre post : list block) (sz : Z) (u : bool) :
  heap_repr m (pre ++ (sz, u) :: post) ->
  blocks_at m HEAP_START pre /\ block_at m (HEAP_START + total pre) (sz, u) /\
  blocks_at m (HEAP_START + total pre + sz) post /\
  0 <= total pre /\ 0 <= total post /\ total pre + sz + total post = HEAP_SIZE /\
  total pre mod 4 = 0.
Proof.
  intros [H Ht]. apply blocks_at_app in H as (H1 & H2 & H3). cbn [fst] in H3.
  rewrite total_app in Ht. cbn [total fst] in Ht.
  pose proof (blocks_at_total _ _ _ H1). pose proof (blocks_at_nonneg _ _ _ H3).
  split; [done|]. split; [done|]. split; [done|]. lia.
Qed.

Lemma heap_repr_length (m : memory) (bs : list block) :
  heap_repr m bs -> 12 * Z.of_nat (length bs) <= HEAP_SIZE.
Proof. intros [H Ht]. apply blocks_at_total in H. lia. Qed.

Lemma malloc_impl_spec (fuel : nat) (m : memory) (size : Z) (bs : list block) :
  heap_repr m bs -> 0 < size -> (length bs < fuel)%nat ->
  exists p m', malloc_impl fuel m size = Ret (p, m') /\
  ((p = 0 /\ m' = m /\ (HEAP_SIZE < size \/ forall sz, (sz, false) ∈ bs -> sz < need_of size)) \/
   (exists pre sz post, bs = pre ++ (sz, false) :: post /\ need_of size <= sz /\
      p = HEAP_START + total pre + 4 /\
      heap_repr m' (pre ++ take_block (need_of size) sz post) /\
      mem_same m m' (fun x => x < p - 4 \/ p - 4 + sz <= x))).
Proof.
  intros Hr Hs Hf. unfold malloc_impl. rewrite (proj2 (Z.eqb_neq size 0)) by lia.
  destruct (Z.ltb_spec HEAP_SIZE size); [eauto 10|]. unfold HEAP_SIZE in *.
  rewrite need_of_eq by lia. pose proof (need_of_ok size ltac:(lia)) as (Hn & Hn4 & _).
  pose proof Hr as [Hb Ht].
  rewrite (malloc_walk_spec fuel m HEAP_START _ bs Hb) by (unfold HEAP_SIZE in *; lia).
  destruct (first_fit (need_of size) bs) as [[o bs']|] eqn:E.
  - apply first_fit_Some in E as (pre & sz & post & -> & -> & Hle & ->).
    destruct (heap_repr_split _ _ _ _ _ Hr) as (Hpre & Hbl & Hpost & Hp1 & Hp2 & Hsum & _).
    pose proof Hbl as (_ & H4 & Hh & _). cbn [fst snd] in *.
    rewrite Hh, (proj1 (hdr_eq sz false H4)). unfold HEAP_START, HEAP_SIZE in *.
    destruct (take_mem_spec m (8388608 + total pre) (need_of size) sz post)
      as [B S]; [lia|lia|lia|lia|lia|lia|exact Hpost|].
    do 2 eexists. split; [reflexivity|]. right. exists pre, sz, post.
    split; [done|]. split; [done|]. split; [done|]. split.
    + split.
      * apply blocks_at_app. split; [|exact B]. eapply blocks_at_same; [exact Hpre|].
        eapply mem_same_weaken; [exact S|]. simpl. unfold HEAP_START. lia.
      * rewrite total_app, take_block_total. unfold HEAP_SIZE. lia.
    + eapply mem_same_weaken; [exact S|]. simpl. lia.
  - do 2 eexists. split; [reflexivity|]. left. split; [done|]. split; [done|]. right.
    exact (first_fit_None _ _ E).
Qed.

Lemma regions_take (a need sz : Z) (post : list block) :
  need <= sz -> 
  exists n, need - 8 <= n /\ regions_from a (take_block need sz post) =
    (a + 4, n) :: regions_from (a + sz) post.
Proof.
  intros Hn. unfold take_block. case_match; simpl; unfold HEADER_SIZE, FOOTER_SIZE.
  - exists (need - 4 - 4). split; [lia|]. do 2 f_equal. lia.
  - exists (sz - 4 - 4). split; [lia|]. reflexivity.
Qed.

(** Regions of the blocks around one block keep clear of it. *)
Lemma regions_around (m : memory) (pre post : list block) (sz q k : Z) (u : bool) :
  heap_repr m (pre ++ (sz, u) :: post) ->
  (q, k) ∈ regions_from HEAP_START pre ++ regions_from (HEAP_START + total pre + sz) post ->
  (q + k + 4 <= HEAP_START + total pre \/ HEAP_START + total pre + sz + 4 <= q) /\ 4 <= k.
Proof.
  intros Hr. destruct (heap_repr_split _ _ _ _ _ Hr) as (H1 & _ & H2 & _).
  rewrite elem_of_app. intros [H|H].
  - apply (regions_from_in _ _ _ _ _ H1) in H. lia.
  - apply (regions_from_in _ _ _ _ _ H2) in H. lia.
Qed.

(** What a client of [malloc] sees. *)
Lemma malloc_client (fuel : nat) (m : memory) (size : Z) (bs : list block) :
  heap_repr m bs -> 0 < size -> (length bs < fuel)%nat ->
  exists p m', malloc_impl fuel m size = Ret (p, m') /\
  ((p = 0 /\ m' = m /\ (HEAP_SIZE < size \/ forall sz, (sz, false) ∈ bs -> sz < need_of size)) \/
   (exists bs' n, p <> 0 /\ p mod 4 = 0 /\ size <= n /\ heap_repr m' bs' /\
      regions bs' ≡ₚ (p, n) :: regions bs /\ payloads_same m m' (regions bs) /\
      mem_same m m' (fun x => x < HEAP_START \/ HEAP_START + HEAP_SIZE <= x))).
Proof.
  intros Hr Hs Hf.
  destruct (malloc_impl_spec fuel m size bs Hr Hs Hf)
    as (p & m' & E & [H|(pre & sz & post & -> & Hle & -> & Hr' & S)]);
    exists p, m' || (do 2 eexists); (split; [exact E|]); [by left|right].
  pose proof (need_of_ok size ltac:(lia)) as (_ & _ & Hn).
  destruct (heap_repr_split _ _ _ _ _ Hr) as (_ & _ & _ & Hp1 & Hp2 & Hsum & Hp4).
  destruct (regions_take (HEAP_START + total pre) (need_of size) sz post Hle) as (n & Hnn & En).
  exists (pre ++ take_block (need_of size) sz post), n. unfold regions.
  rewrite !regions_from_app, En. cbn [regions_from app].
  unfold HEAP_START, HEAP_SIZE in *.
  split; [lia|]. split; [div_mod_lia|]. split; [lia|]. split; [exact Hr'|].
  split; [symmetry; apply Permutation_middle|]. split.
  - apply (payloads_same_mem _ _ _ _ S). intros q k i Hq Hi.
    apply (regions_around _ _ _ _ _ _ _ Hr) in Hq. unfold HEAP_START in Hq. lia.
  - eapply mem_same_weaken; [exact S|]. simpl. lia.
Qed.

(** ** free *)

(** Replacing consecutive blocks [mid] by one free block. *)
Lemma write_free (m : memory) (pre mid post : list block) (a sz : Z) :
  heap_repr m (pre ++ mid ++ post) -> mid <> [] -> total mid = sz -> a = HEAP_START + total pre ->
  let m' := set_footer (store32 m a sz) a sz in
  heap_repr m' (pre ++ (sz, false) :: post) /\
  mem_same m m' (fun x => x < a \/ a + 4 <= x < a + sz - 4 \/ a + sz <= x) /\
  payloads_same m m' (regions (pre ++ (sz, false) :: post)).
Proof.
  intros [Hb Ht] Hm Hsz -> m'. apply blocks_at_app in Hb as [H1 Hb].
  apply blocks_at_app in Hb as [H2 H3]. rewrite !total_app in Ht. rewrite Hsz in H3.
  pose proof (blocks_at_nonneg _ _ _ H1). pose proof (blocks_at_nonneg _ _ _ H3).
  assert (12 <= sz /\ sz mod 4 = 0) as [H12 H4].
  { apply blocks_at_total in H2. rewrite Hsz in H2. destruct mid; [done|]. cbn [length] in H2. lia. }
  unfold HEAP_SIZE, HEAP_START in *.
  destruct (block_write m (8388608 + total pre) sz false) as [B S]; [lia..|].
  cbn [c_bool] in B, S. rewrite Z.add_0_r in B, S. fold m' in B, S.
  assert (Hr : heap_repr m' (pre ++ (sz, false) :: post)).
  { split.
    - apply blocks_at_app. split; [|split; [exact B|]].
      + eapply blocks_at_same; [exact H1|]. eapply mem_same_weaken; [exact S|].
        unfold HEAP_START. simpl. lia.
      + eapply blocks_at_same; [exact H3|]. eapply mem_same_weaken; [exact S|].
        unfold HEAP_START. simpl. lia.
    - rewrite total_app. unfold HEAP_SIZE. simpl. lia. }
  split; [exact Hr|]. split; [exact S|].
  apply (payloads_same_mem _ _ _ _ S). intros q k i Hq Hi.
  unfold regions in Hq. rewrite regions_from_app in Hq.
  apply (regions_around _ _ _ _ _ _ _ Hr) in Hq. unfold HEAP_START in Hq. lia.
Qed.

Lemma coalesce_next_spec (m : memory) (pre post : list block) (a sz : Z) :
  heap_repr m (pre ++ (sz, false) :: post) -> a = HEAP_START + total pre ->
  let '(sz', post') := merge_next sz post in
  exists m', coalesce_next m a sz = (sz', m') /\
    heap_repr m' (pre ++ (sz', false) :: post') /\ sz <= sz' /\
    regions (pre ++ (sz', false) :: post') = regions (pre ++ (sz, false) :: post) /\
    payloads_same m m' (regions (pre ++ (sz, false) :: post)) /\
    load32 m' a = sz'.
Proof.
  intros Hr ->.
  destruct (heap_repr_split _ _ _ _ _ Hr) as (Hpre & Hbl & Hpost & Hp1 & Hp2 & Hsum & _).
  destruct Hbl as (H12 & H4 & Hh & _). cbn [fst snd c_bool] in *. rewrite Z.add_0_r in Hh.
  unfold coalesce_next. rewrite u32_small by (unfold HEAP_START, HEAP_SIZE in *; lia).
  rewrite (proj2 (Z.leb_le HEAP_START (HEAP_START + total pre + sz))) by lia.
  destruct post as [|[n u] post]; cbn [merge_next].
  { rewrite (proj2 (Z.ltb_ge (HEAP_START + total pre + sz) _)) by (cbn [total] in *; lia).
    simpl. exists m. split; [done|]. split; [done|]. split; [lia|]. done. }
  destruct Hpost as [(Hn12 & Hn4 & Hnh & _) Hpost]. cbn [total fst snd] in *.
  pose proof (blocks_at_nonneg _ _ _ Hpost).
  rewrite (proj2 (Z.ltb_lt (HEAP_START + total pre + sz) _)), Hnh by lia.
  destruct (hdr_eq n u Hn4) as [-> ->]. change MIN_BLOCK with 12.
  rewrite (proj2 (Z.leb_le 12 n)), (proj2 (Z.ltb_lt n HEAP_SIZE)) by lia. cbn [andb].
  destruct u; cbn [negb].
  { exists m. split; [done|]. split; [done|]. split; [lia|]. done. }
  rewrite u32_small by (unfold HEAP_SIZE in *; lia).
  destruct (write_free m pre [(sz, false); (n, false)] post (HEAP_START + total pre) (sz + n))
    as (Hr' & _ & Hpl); [exact Hr|done|simpl; lia|done|].
  eexists. split; [reflexivity|]. split; [exact Hr'|]. split; [lia|].
  assert (E : regions (pre ++ (sz + n, false) :: post) =
              regions (pre ++ (sz, false) :: (n, false) :: post)).
  { unfold regions. rewrite !regions_from_app. simpl. do 2 f_equal. lia. }
  split; [exact E|]. rewrite E in Hpl. split; [exact Hpl|].
  destruct (heap_repr_split _ _ _ _ _ Hr') as (_ & (_ & _ & Hh' & _) & _).
  rewrite Hh'. simpl. lia.
Qed.

Lemma coalesce_prev_spec (m : memory) (pre post : list block) (a sz : Z) :
  heap_repr m (pre ++ (sz, false) :: post) -> a = HEAP_START + total pre ->
  let m' := coalesce_prev m a sz in
  heap_repr m' (merge_prev pre sz post) /\
  regions (merge_prev pre sz post) = regions (pre ++ (sz, false) :: post) /\
  payloads_same m m' (regions (pre ++ (sz, false) :: post)) /\ load32 m' a = sz.
Proof.
  intros Hr Ea m'. unfold m', coalesce_prev.
  destruct (heap_repr_split _ _ _ _ _ Hr) as (Hpre & (H12 & H4 & Hh & _) & _ & _ & Hp2 & Hsum & _).
  cbn [fst snd c_bool] in *. rewrite Z.add_0_r, <- Ea in Hh.
  destruct (reverse pre) as [|[k u] rpre] eqn:Erev.
  { assert (pre = []) as -> by (rewrite <- (reverse_involutive pre), Erev; done). cbn [total] in Ea.
    rewrite (proj2 (Z.ltb_ge _ a)) by (change MIN_BLOCK with 12; lia). done. }
  assert (Epre : pre = reverse rpre ++ [(k, u)]).
  { rewrite <- (reverse_involutive pre), Erev, reverse_cons. done. }
  set (pre0 := reverse rpre) in *. unfold merge_prev. rewrite Erev. fold pre0.
  pose proof Hpre as Hpre'. rewrite Epre in Hpre'.
  apply blocks_at_app in Hpre' as (Hpre0 & (Hk12 & Hk4 & Hkh & Hkf) & _). cbn [fst snd] in *.
  pose proof (blocks_at_nonneg _ _ _ Hpre0) as Hp0.
  assert (Etot : total pre = total pre0 + k) by (rewrite Epre, total_app; simpl; lia).
  replace (HEAP_START + MIN_BLOCK <? a) with (MIN_BLOCK <? total pre)
    by (repeat zcase; first [reflexivity | lia]).
  destruct (MIN_BLOCK <? total pre) eqn:Eg; [|destruct u; done].
  replace (load32 m (a - FOOTER_SIZE)) with k
    by (unfold FOOTER_SIZE; rewrite <- Hkf; f_equal; lia).
  change MIN_BLOCK with 12. unfold HEAP_SIZE, HEAP_START in *.
  rewrite (proj2 (Z.leb_le 12 k)), (proj2 (Z.ltb_lt k 2097152)) by lia. cbn [andb].
  rewrite u32_small by lia.
  rewrite (proj2 (Z.leb_le 8388608 (a - k))), (proj2 (Z.ltb_lt (a - k) a)) by lia. cbn [andb].
  replace (a - k) with (8388608 + total pre0) by lia. rewrite Hkh.
  destruct (hdr_eq k u Hk4) as [_ ->]. destruct u; cbn [negb]; [done|].
  rewrite u32_small by lia.
  destruct (write_free m pre0 [(k, false); (sz, false)] post (8388608 + total pre0) (sz + k))
    as (Hr' & Hs & Hpl); [|done|simpl; lia|done|].
  { rewrite Epre, <- app_assoc in Hr. exact Hr. }
  split; [exact Hr'|].
  assert (E : regions (pre0 ++ (sz + k, false) :: post) = regions (pre ++ (sz, false) :: post)).
  { rewrite Epre, <- app_assoc. unfold regions. rewrite !regions_from_app. simpl. do 2 f_equal. lia. }
  split; [exact E|]. rewrite E in Hpl. split; [exact Hpl|].
  rewrite (mem_same_load32 _ _ _ a Hs) by lia. exact Hh.
Qed.

(** [free_impl] on a block in use refines [free_blocks]; the freed header
    keeps its cleared bit. *)
Lemma free_impl_spec (m : memory) (pre post : list block) (sz : Z) :
  heap_repr m (pre ++ (sz, true) :: post) ->
  let p := HEAP_START + total pre + 4 in
  let m' := free_impl m p in
  heap_repr m' (free_blocks pre sz post) /\
  regions (free_blocks pre sz post) = regions (pre ++ (sz, false) :: post) /\
  payloads_same m m' (regions (pre ++ (sz, false) :: post)) /\
  hdr_free (load32 m' (p - 4)) = true.
Proof.
  intros Hr p m'. unfold m', free_impl.
  destruct (heap_repr_split _ _ _ _ _ Hr) as (Hpre & (H12 & H4 & Hh & _) & _ & Hp1 & Hp2 & Hsum & _).
  cbn [fst snd] in *.
  rewrite (proj2 (Z.eqb_neq p 0)) by (unfold p, HEAP_START, HEAP_SIZE in *; lia).
  replace (u32 (p - HEADER_SIZE)) with (HEAP_START + total pre)
    by (unfold p, HEADER_SIZE; rewrite u32_small; unfold HEAP_START, HEAP_SIZE in *; lia).
  rewrite (proj2 (Z.ltb_ge _ HEAP_START)), (proj2 (Z.leb_gt (HEAP_START + HEAP_SIZE) _)) by lia.
  cbn [orb]. rewrite Hh. destruct (hdr_eq sz true H4) as [-> ->]. cbn [negb].
  destruct (write_free m pre [(sz, true)] post (HEAP_START + total pre) sz)
    as (Hr1 & _ & Hpl1); [exact Hr|done|simpl; lia|done|].
  set (m1 := set_footer _ _ _) in *.
  pose proof (coalesce_next_spec m1 pre post (HEAP_START + total pre) sz Hr1 eq_refl) as Hn.
  unfold free_blocks. destruct (merge_next sz post) as [sz' post'].
  destruct Hn as (m2 & -> & Hr2 & Hsz' & E2 & Hpl2 & Hh2).
  destruct (coalesce_prev_spec m2 pre post' (HEAP_START + total pre) sz' Hr2 eq_refl)
    as (Hr3 & E3 & Hpl3 & Hh3).
  split; [exact Hr3|]. split; [by rewrite E3|]. split.
  - eapply payloads_same_trans; [exact Hpl1|]. eapply payloads_same_trans; [exact Hpl2|].
    by rewrite <- E2.
  - replace (p - 4) with (HEAP_START + total pre) by (unfold p; lia). rewrite Hh3.
    destruct (heap_repr_split _ _ _ _ _ Hr2) as (_ & (_ & H4' & _) & _).
    rewrite <- (Z.add_0_r sz'). exact (proj2 (hdr_eq sz' false H4')).
Qed.

(** ** The client's view: regions *)

Lemma regions_mid (pre post : list block) (p n : Z) :
  p = HEAP_START + total pre + 4 ->
  regions (pre ++ (n + 8, true) :: post) ≡ₚ (p, n) :: regions (pre ++ (n + 8, false) :: post).
Proof.
  intros ->. unfold regions. rewrite !regions_from_app. cbn [regions_from app].
  unfold HEADER_SIZE, FOOTER_SIZE. replace (n + 8 - 4 - 4) with n by lia.
  symmetry. apply Permutation_middle.
Qed.

Lemma regions_disjoint (m : memory) (bs : list block) (rest : list (Z * Z)) (p n q k : Z) :
  heap_repr m bs -> regions bs ≡ₚ (p, n) :: rest -> (q, k) ∈ rest ->
  (p + n + 8 <= q \/ q + k + 8 <= p) /\ 4 <= n /\ 4 <= k.
Proof.
  intros Hr Hp Hq.
  assert (Hi : (p, n) ∈ regions bs) by (rewrite Hp; apply list_elem_of_here).
  pose proof (regions_from_in _ _ _ _ _ (proj1 Hr) Hi) as (_ & Hn & _).
  apply regions_from_split in Hi as (pre & post & -> & Ep).
  rewrite (regions_mid pre post p n Ep) in Hp. apply Permutation_cons_inv in Hp.
  rewrite <- Hp in Hq. unfold regions in Hq. rewrite regions_from_app in Hq.
  apply (regions_around _ _ _ _ _ _ _ Hr) in Hq. lia.
Qed.

Lemma regions_bounds (m : memory) (bs : list block) (q k : Z) :
  heap_repr m bs -> (q, k) ∈ regions bs ->
  HEAP_START + 4 <= q /\ 4 <= k /\ q + k + 4 <= HEAP_START + HEAP_SIZE.
Proof. intros [Hb Ht] H. apply (regions_from_in _ _ _ _ _ Hb) in H. lia. Qed.

(** A client may write anything inside its own region. *)
Lemma payload_write (m m' : memory) (bs : list block) (q k : Z) :
  heap_repr m bs -> (q, k) ∈ regions bs -> mem_same m m' (fun x => x < q \/ q + k <= x) ->
  heap_repr m' bs.
Proof.
  intros Hr Hq S. apply regions_from_split in Hq as (pre & post & -> & ->).
  destruct (heap_repr_split _ _ _ _ _ Hr) as (H1 & H2 & H3 & _ & _ & _).
  pose proof H2 as (H12 & _). cbn [fst] in H12.
  split; [|apply Hr]. apply blocks_at_app. split; [|split].
  - eapply blocks_at_same; [exact H1|]. eapply mem_same_weaken; [exact S|]. simpl. lia.
  - eapply block_at_same; [exact H2|]. eapply mem_same_weaken; [exact S|]. simpl. lia.
  - eapply blocks_at_same; [exact H3|]. eapply mem_same_weaken; [exact S|]. simpl. lia.
Qed.

Lemma free_client (m : memory) (bs : list block) (p n : Z) :
  heap_repr m bs -> (p, n) ∈ regions bs ->
  exists bs', heap_repr (free_impl m p) bs' /\ regions bs ≡ₚ (p, n) :: regions bs' /\
    payloads_same m (free_impl m p) (regions bs') /\
    hdr_free (load32 (free_impl m p) (p - 4)) = true.
Proof.
  intros Hr Hp. apply regions_from_split in Hp as (pre & post & -> & ->).
  destruct (free_impl_spec m pre post (n + 8) Hr) as (Hr' & E & Hpl & Hh).
  eexists. split; [exact Hr'|]. rewrite E. split; [by apply regions_mid|]. done.
Qed.

(** ** realloc and calloc *)

(** The three ways [realloc_impl] can go on a block in use. *)
Lemma realloc_unfold (fuel : nat) (m : memory) (pre post : list block) (n size : Z) :
  heap_repr m (pre ++ (n + 8, true) :: post) -> 0 < size ->
  let p := HEAP_START + total pre + 4 in
  let need := block_need (align_up size) in
  realloc_impl fuel m p size =
    if need <=? n + 8 then
      Ret (p, if MIN_BLOCK <=? n + 8 - need
              then split_block m (p - 4) (need) (n + 8 - need) else m)
    else match malloc_impl fuel m (align_up size) with
         | Ret (q, m1) =>
           if q =? 0 then Ret (0, m1)
           else Ret (q, free_impl (Lib.lib_memcpy m1 q p (Z.min n (align_up size))) p)
         | o => o
         end.
Proof.
  intros Hr Hs p need.
  destruct (heap_repr_split _ _ _ _ _ Hr) as (_ & (H12 & H4 & Hh & _) & _ & Hp1 & Hp2 & Hsum & _).
  cbn [fst snd] in *. unfold realloc_impl.
  assert (Hpa : u32 (p - HEADER_SIZE) = HEAP_START + total pre)
    by (unfold p, HEADER_SIZE; rewrite u32_small; unfold HEAP_START, HEAP_SIZE in *; lia).
  rewrite Hpa, Hh. destruct (hdr_eq _ true H4) as [-> ->]. cbn [negb].
  rewrite (proj2 (Z.eqb_neq p 0)) by (unfold p, HEAP_START, HEAP_SIZE in *; lia).
  rewrite (proj2 (Z.eqb_neq size 0)), (proj2 (Z.ltb_ge _ HEAP_START)),
    (proj2 (Z.leb_gt (HEAP_START + HEAP_SIZE) _)) by lia. cbn [orb].
  fold need. unfold HEADER_SIZE, FOOTER_SIZE.
  rewrite (u32_small (n + 8 - 4 - 4)) by (unfold HEAP_SIZE in *; lia).
  replace (n + 8 - 4 - 4) with n by lia.
  replace (p - 4) with (HEAP_START + total pre) by (unfold p; lia).
  destruct (need <=? n + 8).
  { destruct (MIN_BLOCK <=? n + 8 - need); reflexivity. }
  destruct (malloc_impl fuel m (align_up size)) as [[q m1]| |]; [|reflexivity..].
  destruct (q =? 0); [reflexivity|]. unfold Lib.lib_memcpy. do 6 f_equal.
  zcase; lia.
Qed.

(** Shrinking in place. *)
Lemma realloc_shrink (m : memory) (pre post : list block) (n size : Z) :
  heap_repr m (pre ++ (n + 8, true) :: post) -> 0 < size -> need_of size <= n + 8 ->
  let p := HEAP_START + total pre + 4 in
  let m' := if MIN_BLOCK <=? n + 8 - need_of size
            then split_block m (p - 4) (need_of size) (n + 8 - need_of size) else m in
  exists bs' k, size <= k /\ heap_repr m' bs' /\
    regions bs' ≡ₚ (p, k) :: regions (pre ++ (n + 8, false) :: post) /\
    payloads_same m m' (regions (pre ++ (n + 8, false) :: post)) /\
    (forall i, 0 <= i < Z.min n size -> load8 m' (p + i) = load8 m (p + i)).
Proof.
  intros Hr Hs Hn p m'. pose proof (need_of_ok size ltac:(lia)) as (Hn12 & Hn4 & Hns).
  destruct (heap_repr_split _ _ _ _ _ Hr) as (Hpre & (H12 & H4 & Hh & _) & Hpost & Hp1 & Hp2 & Hsum & _).
  cbn [fst snd] in *. unfold m'. change MIN_BLOCK with 12.
  destruct (Z.leb_spec 12 (n + 8 - need_of size)) as [Hge|Hlt].
  - replace (p - 4) with (HEAP_START + total pre) by (unfold p; lia).
    destruct (split_block_spec m (HEAP_START + total pre) (need_of size) (n + 8 - need_of size))
      as (B1 & B2 & S); [lia|lia|lia|div_mod_lia|unfold HEAP_START, HEAP_SIZE in *; lia..|].
    set (m2 := split_block _ _ _ _) in *.
    exists (pre ++ (need_of size, true) :: (n + 8 - need_of size, false) :: post), (need_of size - 8).
    split; [lia|]. split; [|split; [|split]].
    + split; [apply blocks_at_app; split; [|split; [exact B1|split; [exact B2|]]]|].
      * eapply blocks_at_same; [exact Hpre|]. eapply mem_same_weaken; [exact S|]. simpl. lia.
      * cbn [fst]. replace (HEAP_START + total pre + need_of size + (n + 8 - need_of size))
          with (HEAP_START + total pre + (n + 8)) by lia.
        eapply blocks_at_same; [exact Hpost|]. eapply mem_same_weaken; [exact S|]. simpl. lia.
      * rewrite total_app. simpl. lia.
    + replace (need_of size) with (need_of size - 8 + 8) at 1 by lia.
      rewrite (regions_mid pre _ p (need_of size - 8) eq_refl). f_equiv.
      unfold regions. rewrite !regions_from_app. simpl.
      replace (HEAP_START + total pre + (need_of size - 8 + 8) + (n + 8 - need_of size))
        with (HEAP_START + total pre + (n + 8)) by lia. reflexivity.
    + apply (payloads_same_mem _ _ _ _ S). intros q k i Hq Hi.
      unfold regions in Hq. rewrite regions_from_app in Hq.
      apply (regions_around _ _ _ _ _ _ _ Hr) in Hq. lia.
    + intros i Hi. apply S. unfold p. lia.
  - exists (pre ++ (n + 8, true) :: post), n. split; [lia|]. split; [exact Hr|].
    split; [by apply regions_mid|]. done.
Qed.

(** Growing: a new block, a copy, and the old block freed. *)
Lemma realloc_grow (m m1 : memory) (bs bs1 : list block) (rest : list (Z * Z)) (p n q k c : Z) :
  heap_repr m bs -> regions bs ≡ₚ (p, n) :: rest ->
  heap_repr m1 bs1 -> regions bs1 ≡ₚ (q, k) :: regions bs -> payloads_same m m1 (regions bs) ->
  0 <= c <= n -> c <= k ->
  let m' := free_impl (Lib.lib_memcpy m1 q p c) p in
  exists bs', heap_repr m' bs' /\ regions bs' ≡ₚ (q, k) :: rest /\
    payloads_same m m' rest /\
    (forall i, 0 <= i < c -> load8 m' (q + i) = load8 m (p + i)).
Proof.
  intros Hr Hb Hr1 Hb1 Hpl Hcn Hck m'. unfold m'. set (m2 := Lib.lib_memcpy m1 q p c).
  assert (Hp1 : regions bs1 ≡ₚ (p, n) :: (q, k) :: rest)
    by (rewrite Hb1, Hb; apply Permutation_swap).
  destruct (regions_disjoint _ _ _ _ _ q k Hr1 Hp1) as (Hd & _); [apply list_elem_of_here|].
  destruct (Lib.lib_memcpy_spec m1 q p c) as [Hcp Hs]; [lia..|]. fold m2 in Hcp, Hs.
  assert (Hr2 : heap_repr m2 bs1).
  { apply (payload_write m1 _ _ q k); [exact Hr1|rewrite Hb1; apply list_elem_of_here|].
    eapply mem_same_weaken; [exact Hs|]. simpl. lia. }
  destruct (free_client m2 bs1 p n Hr2) as (bs' & Hr3 & E & Hpl3 & _);
    [rewrite Hp1; apply list_elem_of_here|].
  assert (E' : regions bs' ≡ₚ (q, k) :: rest).
  { rewrite Hp1 in E. apply Permutation_cons_inv in E. by symmetry. }
  exists bs'. split; [exact Hr3|]. split; [exact E'|]. split.
  - intros x l Hx i Hi. rewrite (Hpl3 x l); [|rewrite E'; by apply list_elem_of_further|exact Hi].
    rewrite Hs; [apply (Hpl x l); [rewrite Hb; by apply list_elem_of_further|exact Hi]|].
    assert (Hx' : (x, l) ∈ (p, n) :: rest) by (by apply list_elem_of_further).
    rewrite <- Hb in Hx'. destruct (regions_disjoint _ _ _ _ _ x l Hr1 Hb1 Hx') as (Hdx & _). lia.
  - intros i Hi. rewrite (Hpl3 q k); [|rewrite E'; apply list_elem_of_here|lia].
    rewrite Hcp by lia. apply (Hpl p n); [rewrite Hb; apply list_elem_of_here|lia].
Qed.

Lemma realloc_client (fuel : nat) (m : memory) (bs : list block) (p n size : Z) :
  heap_repr m bs -> (p, n) ∈ regions bs -> 0 < size <= 4294967284 -> (length bs < fuel)%nat ->
  exists q m' rest, realloc_impl fuel m p size = Ret (q, m') /\ regions bs ≡ₚ (p, n) :: rest /\
  ((q = 0 /\ m' = m /\ n < size) \/
   (exists bs' k, q <> 0 /\ size <= k /\ heap_repr m' bs' /\ regions bs' ≡ₚ (q, k) :: rest /\
      payloads_same m m' rest /\
      (forall i, 0 <= i < Z.min n size -> load8 m' (q + i) = load8 m (p + i)))).
Proof.
  intros Hr Hp Hs Hf. pose proof (regions_bounds _ _ _ _ Hr Hp) as (Hb1 & _).
  pose proof Hp as Hp'. apply regions_from_split in Hp' as (pre & post & -> & ->).
  rewrite (realloc_unfold fuel m pre post n size Hr), need_of_eq by lia.
  pose proof (regions_mid pre post _ n eq_refl) as Hperm.
  destruct (heap_repr_split _ _ _ _ _ Hr) as (_ & (_ & Hn4 & _) & _ & _ & _ & Hsum & _).
  cbn [fst] in Hn4.
  destruct (Z.leb_spec (need_of size) (n + 8)) as [Hle|Hgt].
  { destruct (realloc_shrink m pre post n size Hr ltac:(lia) Hle) as (bs' & k & H).
    do 3 eexists. split; [reflexivity|]. split; [exact Hperm|]. right. exists bs', k.
    split; [unfold HEAP_START in *; lia|]. exact H. }
  assert (Hal : align_up size = 4 * ((size + 3) / 4)) by (apply align_up_eq; lia).
  assert (n < size) by (unfold need_of in *; div_mod_lia).
  destruct (malloc_client fuel m (align_up size) _ Hr) as (q & m1 & -> & [(-> & -> & _)|Hok]);
    [rewrite Hal; div_mod_lia|exact Hf| |].
  { do 3 eexists. split; [reflexivity|]. split; [exact Hperm|]. by left. }
  destruct Hok as (bs1 & k & Hq & _ & Hk & Hr1 & E1 & Hpl & _).
  rewrite (proj2 (Z.eqb_neq q 0)) by exact Hq.
  destruct (realloc_grow m m1 _ bs1 _ _ n q k (Z.min n (align_up size)) Hr Hperm Hr1 E1 Hpl)
    as (bs' & Hr' & E' & Hpl' & Hdat);
    [pose proof (regions_bounds _ _ _ _ Hr Hp); rewrite Hal; div_mod_lia|lia|].
  do 3 eexists. split; [reflexivity|]. split; [exact Hperm|]. right. exists bs', k.
  split; [exact Hq|]. split; [rewrite Hal in Hk; div_mod_lia|]. split; [exact Hr'|].
  split; [exact E'|]. split; [exact Hpl'|].
  intros i Hi. apply Hdat. rewrite Hal. div_mod_lia.
Qed.

Lemma calloc_client (fuel : nat) (m : memory) (bs : list block) (num size : Z) :
  heap_repr m bs -> 0 < num < 4294967296 -> 0 < size < 4294967296 -> (length bs < fuel)%nat ->
  exists p m', calloc_impl fuel m num size = Ret (p, m') /\
  ((p = 0 /\ m' = m /\
    (HEAP_SIZE < num * size \/ forall sz, (sz, false) ∈ bs -> sz < need_of (num * size))) \/
   (exists bs' n, p <> 0 /\ num * size <= n /\ heap_repr m' bs' /\
      regions bs' ≡ₚ (p, n) :: regions bs /\ payloads_same m m' (regions bs) /\
      forall i, 0 <= i < num * size -> load8 m' (p + i) = 0)).
Proof.
  intros Hr Hn Hs Hf. unfold calloc_impl.
  rewrite (proj2 (Z.eqb_neq num 0)), (proj2 (Z.eqb_neq size 0)) by lia. cbn [orb].
  destruct (Z.ltb_spec (4294967295 / size) num) as [Hov|Hov].
  { do 2 eexists. split; [reflexivity|]. left. split; [done|]. split; [done|]. left.
    unfold HEAP_SIZE. assert (4294967295 < num * size); [|lia].
    apply Z.lt_nge. intros Hle. apply Z.nle_gt in Hov. apply Hov.
    apply Z.div_le_lower_bound; lia. }
  assert (num * size <= 4294967295).
  { pose proof (Z.mul_div_le 4294967295 size ltac:(lia)). nia. }
  rewrite u32_small by nia.
  destruct (malloc_client fuel m (num * size) bs Hr) as (p & m1 & -> & [(-> & -> & Hc)|Hok]);
    [nia|exact Hf|eauto 10|].
  destruct Hok as (bs1 & k & Hp & _ & Hk & Hr1 & E1 & Hpl & _).
  rewrite (proj2 (Z.eqb_neq p 0)) by exact Hp.
  destruct (Lib.lib_memset_spec m1 p 0 (num * size)) as [Hz S]; [nia|].
  do 2 eexists. split; [reflexivity|]. right. exists bs1, k. split; [exact Hp|]. split; [exact Hk|].
  split; [|split; [exact E1|split; [|exact Hz]]].
  - apply (payload_write m1 _ _ p k); [exact Hr1|rewrite E1; apply list_elem_of_here|].
    eapply mem_same_weaken; [exact S|]. simpl. lia.
  - intros q l Hq i Hi. rewrite S; [by apply (Hpl q l)|].
    destruct (regions_disjoint _ _ _ _ _ q l Hr1 E1 Hq). lia.
Qed.

(** ** heap_walk *)

Definition sum_of (u : bool) (bs : list block) : Z :=
  foldr (fun b t => if Bool.eqb b.2 u then b.1 + t else t) 0 bs.

Lemma heap_walk_loop_spec (fuel : nat) (m : memory) (a bl tf tu : Z) (bs : list block) :
  blocks_at m a bs -> HEAP_START <= a -> a + total bs = HEAP_START + HEAP_SIZE ->
  (length bs < fuel)%nat -> 0 <= bl -> 0 <= tf -> 0 <= tu -> bl + tf + tu + 2 * total bs <= 4294967295 ->
  heap_walk_loop fuel m a bl tf tu =
    Ret (bl + Z.of_nat (length bs), tf + sum_of false bs, tu + sum_of true bs).
Proof.
  revert a bl tf tu bs; induction fuel as [|fuel IH]; intros a bl tf tu bs Hb Ha Ht Hf H1 H2 H3 Hm; [lia|].
  destruct bs as [|[sz u] bs]; cbn [heap_walk_loop total fst] in *.
  { rewrite (proj2 (Z.ltb_ge a _)) by lia. cbn. do 3 f_equal; lia. }
  destruct Hb as [(H12 & H4 & Hh & _) Hb]. cbn [fst snd] in *.
  pose proof (blocks_at_nonneg _ _ _ Hb).
  rewrite (proj2 (Z.ltb_lt a _)) by lia. cbn [negb]. rewrite Hh.
  destruct (hdr_eq sz u H4) as [-> ->].
  rewrite (proj2 (Z.eqb_neq sz 0)), (proj2 (Z.ltb_ge HEAP_SIZE sz)) by (unfold HEAP_SIZE in *; lia).
  cbn [orb]. rewrite (u32_small (a + sz)) by (unfold HEAP_SIZE, HEAP_START in *; lia).
  simpl in Hf. unfold sum_of. destruct u; cbn [negb]; rewrite !u32_small by lia;
    rewrite (IH _ _ _ _ bs Hb) by lia; unfold sum_of;
    cbn [foldr fst snd Bool.eqb length]; f_equal; rewrite !pair_equal_spec; lia.
Qed.

End Heap.
