(* ===== verification/HeapProps.v ===== *)
(** * Properties of kernel/memory/heap.c

    What clients of the heap rely on: allocation hands out fresh, aligned
    regions that are large enough, no operation touches another client's
    bytes, and as long as clients stay inside their regions the heap never
    runs into the corrupted-block halt. *)
From S2P Require Import Prelude Bytes Memory Lib FrameAlloc Pfa Heap.

Import Heap.

(** C28: On a well-formed heap [malloc] returns (one unit of fuel per block
    is enough) and never halts.  A null result means the request exceeds the
    heap or no free block is large enough, and nothing changed; any other
    result is a fresh 4-aligned region of at least [size] bytes, the heap is
    well formed, the regions in use are the old ones and this one, and no
    byte of the old regions or outside the heap changed. *)
Theorem malloc_correct (fuel : nat) (m : memory) (size : Z) (bs : list block) :
  heap_repr m bs -> 0 < size < 4294967296 -> (length bs < fuel)%nat ->
  exists p m', malloc_impl fuel m size = Ret (p, m') /\
  ((p = 0 /\ m' = m /\ (HEAP_SIZE < size \/ forall sz, (sz, false) ∈ bs -> sz < need_of size)) \/
   (exists bs' n, p <> 0 /\ p mod 4 = 0 /\ size <= n /\ heap_repr m' bs' /\
      regions bs' ≡ₚ (p, n) :: regions bs /\
      (forall q k, (q, k) ∈ regions bs -> p + n <= q \/ q + k <= p) /\
      payloads_same m m' (regions bs) /\
      mem_same m m' (fun x => x < HEAP_START \/ HEAP_START + HEAP_SIZE <= x))).
Proof.
  intros Hr Hs Hf.
  destruct (malloc_client fuel m size bs Hr ltac:(lia) Hf) as (p & m' & E & [H|Hok]);
    exists p, m'; (split; [exact E|]); [by left|right].
  destruct Hok as (bs' & n & Hp & H4 & Hn & Hr' & E' & Hpl & Hout).
  exists bs', n. do 5 (split; [assumption|]). split; [|auto].
  intros q k Hq. destruct (regions_disjoint _ _ _ _ _ q k Hr' E' Hq). lia.
Qed.

(** [malloc] implements first fit: it takes the lowest free block that
    is large enough, splitting off the rest when that can hold a block. *)
Theorem malloc_first_fit (fuel : nat) (m : memory) (size o : Z) (bs bs' : list block) :
  heap_repr m bs -> 0 < size <= HEAP_SIZE -> (length bs < fuel)%nat ->
  first_fit (need_of size) bs = Some (o, bs') ->
  exists m', malloc_impl fuel m size = Ret (HEAP_START + o + 4, m') /\ heap_repr m' bs'.
Proof.
  intros Hr Hs Hf E. pose proof Hr as [Hb Ht]. unfold malloc_impl, HEAP_SIZE in *.
  rewrite (proj2 (Z.eqb_neq size 0)), (proj2 (Z.ltb_ge _ size)), need_of_eq by lia.
  rewrite (malloc_walk_spec fuel m HEAP_START _ bs Hb) by (unfold HEAP_SIZE in *; lia).
  rewrite E. eexists. split; [reflexivity|].
  apply first_fit_Some in E as (pre & sz & post & -> & -> & Hle & ->).
  destruct (heap_repr_split _ _ _ _ _ Hr) as (Hpre & (_ & H4 & Hh & _) & Hpost & Hp1 & Hp2 & Hsum & _).
  pose proof (need_of_ok size ltac:(lia)) as (Hn & Hn4 & _).
  cbn [fst snd] in *. rewrite Hh, (proj1 (hdr_eq sz false H4)).
  destruct (take_mem_spec m (HEAP_START + total pre) (need_of size) sz post)
    as [B S]; [lia|lia|lia|lia|unfold HEAP_START, HEAP_SIZE in *; lia..|exact Hpost|].
  split; [|rewrite total_app, take_block_total; lia].
  apply blocks_at_app. split; [|exact B]. eapply blocks_at_same; [exact Hpre|].
  eapply mem_same_weaken; [exact S|]. simpl. lia.
Qed.

(** [free] on a region in use gives back exactly that region: the heap
    stays well formed, the other regions and their bytes are untouched, and
    freeing the same pointer again is detected and changes nothing. *)
Theorem free_correct (m : memory) (bs : list block) (p n : Z) :
  heap_repr m bs -> (p, n) ∈ regions bs ->
  exists bs', heap_repr (free_impl m p) bs' /\ regions bs ≡ₚ (p, n) :: regions bs' /\
    payloads_same m (free_impl m p) (regions bs') /\
    free_impl (free_impl m p) p = free_impl m p.
Proof.
  intros Hr Hp. destruct (free_client m bs p n Hr Hp) as (bs' & Hr' & E & Hpl & Hh).
  exists bs'. split; [exact Hr'|]. split; [exact E|]. split; [exact Hpl|].
  apply (regions_bounds _ _ _ _ Hr) in Hp. set (m' := free_impl m p) in *.
  unfold free_impl. unfold HEADER_SIZE.
  rewrite u32_small by (unfold HEAP_START, HEAP_SIZE in *; lia). rewrite Hh.
  rewrite (proj2 (Z.eqb_neq p 0)) by (unfold HEAP_START in *; lia).
  destruct ((p - 4 <? HEAP_START) || _); reflexivity.
Qed.

(** C29: [free] merges the block with a free neighbour on either side.  In
    terms of the block list it is [free_blocks]: the next block is always
    taken in, the previous one except when the freed block starts exactly
    [MIN_BLOCK] bytes into the heap (the source's guard is strict). *)
Theorem free_coalesces (m : memory) (pre post : list block) (sz : Z) :
  heap_repr m (pre ++ (sz, true) :: post) ->
  heap_repr (free_impl m (HEAP_START + total pre + 4)) (free_blocks pre sz post).
Proof. intros Hr. exact (proj1 (free_impl_spec m pre post sz Hr)). Qed.

(** [realloc] on a region in use, for a size whose block does not wrap
    around, either fails leaving everything as it was (only when the region
    had to grow), or returns a region of at least [size] bytes that starts
    with the old contents and replaces the old region; the other regions and
    their bytes are untouched. *)
Theorem realloc_correct (fuel : nat) (m : memory) (bs : list block) (p n size : Z) :
  heap_repr m bs -> (p, n) ∈ regions bs -> 0 < size <= 4294967284 -> (length bs < fuel)%nat ->
  exists q m' rest, realloc_impl fuel m p size = Ret (q, m') /\ regions bs ≡ₚ (p, n) :: rest /\
  ((q = 0 /\ m' = m /\ n < size) \/
   (exists bs' k, q <> 0 /\ size <= k /\ heap_repr m' bs' /\ regions bs' ≡ₚ (q, k) :: rest /\
      payloads_same m m' rest /\
      (forall i, 0 <= i < Z.min n size -> load8 m' (q + i) = load8 m (p + i)))).
Proof. apply realloc_client. Qed.

(** [calloc] fails changing nothing, in particular whenever
    [num * size] does not fit 32 bits, or returns a fresh region of
    [num * size] bytes that are all zero. *)
Theorem calloc_correct (fuel : nat) (m : memory) (bs : list block) (num size : Z) :
  heap_repr m bs -> 0 < num < 4294967296 -> 0 < size < 4294967296 -> (length bs < fuel)%nat ->
  exists p m', calloc_impl fuel m num size = Ret (p, m') /\
  ((p = 0 /\ m' = m /\
    (HEAP_SIZE < num * size \/ forall sz, (sz, false) ∈ bs -> sz < need_of (num * size))) \/
   (exists bs' n, p <> 0 /\ num * size <= n /\ heap_repr m' bs' /\
      regions bs' ≡ₚ (p, n) :: regions bs /\ payloads_same m m' (regions bs) /\
      forall i, 0 <= i < num * size -> load8 m' (p + i) = 0)).
Proof. apply calloc_client. Qed.

(** ** Interleavings of clients *)

(** Enough fuel for every well-formed heap: it has at most
    [HEAP_SIZE / 12 = 174762] blocks. *)
Definition heap_fuel : nat := Z.to_nat 174763.

(** One step of the system: a heap call, a client's write inside a region
    it holds, or a write anywhere outside the heap.  The state is the memory
    and the requests that are live, as (pointer, requested size); a [realloc]
    to one of the eleven sizes above 4294967284, for which the block size
    wraps around, leaves its client four bytes ([realloc_wraps]). *)
Inductive hstep : memory * list (Z * Z) -> memory * list (Z * Z) -> Prop :=
| hs_malloc m live size p m' :
    0 < size < 4294967296 -> malloc_impl heap_fuel m size = Ret (p, m') -> p <> 0 ->
    hstep (m, live) (m', (p, size) :: live)
| hs_malloc_fail m live size m' :
    0 < size < 4294967296 -> malloc_impl heap_fuel m size = Ret (0, m') ->
    hstep (m, live) (m', live)
| hs_calloc m live num size p m' :
    0 < num < 4294967296 -> 0 < size < 4294967296 ->
    calloc_impl heap_fuel m num size = Ret (p, m') -> p <> 0 ->
    hstep (m, live) (m', (p, num * size) :: live)
| hs_calloc_fail m live num size m' :
    0 < num < 4294967296 -> 0 < size < 4294967296 ->
    calloc_impl heap_fuel m num size = Ret (0, m') -> hstep (m, live) (m', live)
| hs_realloc m l1 l2 p s size q m' :
    0 < size <= 4294967284 -> realloc_impl heap_fuel m p size = Ret (q, m') -> q <> 0 ->
    hstep (m, l1 ++ (p, s) :: l2) (m', (q, size) :: l1 ++ l2)
| hs_realloc_fail m l1 l2 p s size m' :
    0 < size <= 4294967284 -> realloc_impl heap_fuel m p size = Ret (0, m') ->
    hstep (m, l1 ++ (p, s) :: l2) (m', l1 ++ (p, s) :: l2)
| hs_realloc_wraps m l1 l2 p s size q m' :
    4294967284 < size < 4294967296 -> realloc_impl heap_fuel m p size = Ret (q, m') ->
    hstep (m, l1 ++ (p, s) :: l2) (m', (q, 4) :: l1 ++ l2)
| hs_realloc_zero m l1 l2 p s q m' :
    realloc_impl heap_fuel m p 0 = Ret (q, m') -> hstep (m, l1 ++ (p, s) :: l2) (m', l1 ++ l2)
| hs_free m l1 l2 p s :
    hstep (m, l1 ++ (p, s) :: l2) (free_impl m p, l1 ++ l2)
| hs_write m m' l1 l2 p s :
    mem_same m m' (fun x => x < p \/ p + s <= x) ->
    hstep (m, l1 ++ (p, s) :: l2) (m', l1 ++ (p, s) :: l2)
| hs_outside m m' live :
    mem_same m m' (fun x => HEAP_START <= x < HEAP_START + HEAP_SIZE) ->
    hstep (m, live) (m', live).

Definition covers (r l : Z * Z) : Prop := r.1 = l.1 /\ l.2 <= r.2.

(** Every live request is served by a region in use of its own. *)
Definition live_ok (st : memory * list (Z * Z)) : Prop :=
  exists bs rs, heap_repr st.1 bs /\ regions bs ≡ₚ rs /\ Forall2 covers rs st.2.

Lemma heap_fuel_ok (m : memory) (bs : list block) : heap_repr m bs -> (length bs < heap_fuel)%nat.
Proof. intros H. apply heap_repr_length in H. unfold heap_fuel, HEAP_SIZE in *. lia. Qed.

Lemma live_split (m : memory) (l1 l2 : list (Z * Z)) (p s : Z) :
  live_ok (m, l1 ++ (p, s) :: l2) ->
  exists bs n rest, heap_repr m bs /\ s <= n /\ regions bs ≡ₚ (p, n) :: rest /\
    Forall2 covers rest (l1 ++ l2).
Proof.
  intros (bs & rs & Hr & E & HF). cbn [fst snd] in *.
  apply Forall2_app_inv_r in HF as (r1 & r2' & H1 & H2 & ->).
  apply Forall2_cons_inv_r in H2 as ([q n] & r2 & [Hq Hn] & H2 & ->). cbn [fst snd] in *. subst q.
  exists bs, n, (r1 ++ r2). split; [done|]. split; [done|]. split.
  - rewrite E. symmetry. apply Permutation_middle.
  - by apply Forall2_app.
Qed.

Lemma live_add (m : memory) (bs : list block) (rest live : list (Z * Z)) (p n s : Z) :
  heap_repr m bs -> regions bs ≡ₚ (p, n) :: rest -> s <= n -> Forall2 covers rest live ->
  live_ok (m, (p, s) :: live).
Proof. intros. exists bs, ((p, n) :: rest). split; [done|]. split; [done|]. by constructor. Qed.

Lemma live_same (m m' : memory) (live : list (Z * Z)) :
  live_ok (m, live) -> mem_same m m' (fun x => HEAP_START <= x < HEAP_START + HEAP_SIZE) ->
  live_ok (m', live).
Proof.
  intros (bs & rs & [Hb Ht] & E & HF) S. exists bs, rs. split; [|done]. split; [|done].
  cbn [fst] in *. eapply blocks_at_same; [exact Hb|]. by rewrite Ht.
Qed.

Lemma hstep_malloc (m m' : memory) (live : list (Z * Z)) (size p : Z) :
  live_ok (m, live) -> 0 < size < 4294967296 -> malloc_impl heap_fuel m size = Ret (p, m') ->
  if p =? 0 then m' = m else live_ok (m', (p, size) :: live).
Proof.
  intros (bs & rs & Hr & E & HF) Hs Em. cbn [fst snd] in *.
  destruct (malloc_client heap_fuel m size bs Hr ltac:(lia) (heap_fuel_ok _ _ Hr))
    as (p1 & m1 & Em1 & Hc). rewrite Em in Em1. injection Em1 as <- <-.
  destruct Hc as [(-> & -> & _)|(bs' & n & Hp & _ & Hn & Hr' & E' & _)]; [reflexivity|].
  rewrite (proj2 (Z.eqb_neq p 0)) by exact Hp. apply (live_add m' bs' rs _ p n); [done| |done|done].
  by rewrite E', E.
Qed.

Lemma hstep_calloc (m m' : memory) (live : list (Z * Z)) (num size p : Z) :
  live_ok (m, live) -> 0 < num < 4294967296 -> 0 < size < 4294967296 ->
  calloc_impl heap_fuel m num size = Ret (p, m') ->
  if p =? 0 then m' = m else live_ok (m', (p, num * size) :: live).
Proof.
  intros (bs & rs & Hr & E & HF) Hn Hs Em. cbn [fst snd] in *.
  destruct (calloc_client heap_fuel m bs num size Hr Hn Hs (heap_fuel_ok _ _ Hr))
    as (p1 & m1 & Em1 & Hc). rewrite Em in Em1. injection Em1 as <- <-.
  destruct Hc as [(-> & -> & _)|(bs' & n & Hp & Hk & Hr' & E' & _)]; [reflexivity|].
  rewrite (proj2 (Z.eqb_neq p 0)) by exact Hp. apply (live_add m' bs' rs _ p n); [done| |done|done].
  by rewrite E', E.
Qed.

Lemma hstep_realloc (m m' : memory) (l1 l2 : list (Z * Z)) (p s size q : Z) :
  live_ok (m, l1 ++ (p, s) :: l2) -> 0 < size <= 4294967284 ->
  realloc_impl heap_fuel m p size = Ret (q, m') ->
  if q =? 0 then m' = m else live_ok (m', (q, size) :: l1 ++ l2).
Proof.
  intros Hl Hs Em. destruct (live_split _ _ _ _ _ Hl) as (bs & n & rest & Hr & Hn & E & HF).
  destruct (realloc_client heap_fuel m bs p n size Hr) as (q1 & m1 & rest' & Em1 & E1 & Hc);
    [rewrite E; apply list_elem_of_here|exact Hs|exact (heap_fuel_ok _ _ Hr)|].
  rewrite Em in Em1. injection Em1 as <- <-.
  destruct Hc as [(-> & -> & _)|(bs' & k & Hq & Hk & Hr' & E' & _)]; [reflexivity|].
  rewrite (proj2 (Z.eqb_neq q 0)) by exact Hq. apply (live_add m' bs' rest _ q k); [done| |done|done].
  rewrite E' . f_equiv. rewrite E in E1. apply Permutation_cons_inv in E1. by symmetry.
Qed.

Lemma hstep_free (m : memory) (l1 l2 : list (Z * Z)) (p s : Z) :
  live_ok (m, l1 ++ (p, s) :: l2) -> live_ok (free_impl m p, l1 ++ l2).
Proof.
  intros Hl. destruct (live_split _ _ _ _ _ Hl) as (bs & n & rest & Hr & _ & E & HF).
  destruct (free_client m bs p n Hr) as (bs' & Hr' & E' & _);
    [rewrite E; apply list_elem_of_here|].
  exists bs', rest. split; [done|]. split; [|done].
  rewrite E in E'. apply Permutation_cons_inv in E'. by symmetry.
Qed.

(** The sizes that wrap around ask for the smallest block, as four bytes do. *)
Lemma realloc_wraps_four (fuel : nat) (m : memory) (bs : list block) (p n size : Z) :
  heap_repr m bs -> (p, n) ∈ regions bs -> 4294967284 < size < 4294967296 ->
  realloc_impl fuel m p size = realloc_impl fuel m p 4 /\ exists m', realloc_impl fuel m p size = Ret (p, m').
Proof.
  intros Hr Hp Hs. pose proof (regions_bounds _ _ _ _ Hr Hp) as (_ & Hn & _).
  apply regions_from_split in Hp as (pre & post & -> & ->).
  rewrite !(realloc_unfold fuel m pre post n _ Hr) by lia.
  assert (E : block_need (align_up size) = 12).
  { unfold block_need, align_up, ALIGN, HEADER_SIZE, FOOTER_SIZE. change (4 - 1) with 3.
    rewrite land_align4. change MIN_BLOCK with 12. zcase; [reflexivity|]. cint. }
  rewrite E. change (block_need (align_up 4)) with 12. rewrite (proj2 (Z.leb_le 12 (n + 8))) by lia.
  split; [done|]. by eexists.
Qed.

Lemma hstep_realloc_wraps (m m' : memory) (l1 l2 : list (Z * Z)) (p s size q : Z) :
  live_ok (m, l1 ++ (p, s) :: l2) -> 4294967284 < size < 4294967296 ->
  realloc_impl heap_fuel m p size = Ret (q, m') -> live_ok (m', (q, 4) :: l1 ++ l2).
Proof.
  intros Hl Hs Em. destruct (live_split _ _ _ _ _ Hl) as (bs & n & rest & Hr & _ & E & _).
  assert (Hi : (p, n) ∈ regions bs) by (rewrite E; apply list_elem_of_here).
  destruct (realloc_wraps_four heap_fuel m bs p n size Hr Hi Hs) as [E4 [m1 E1]].
  pose proof (regions_bounds _ _ _ _ Hr Hi) as Hb. assert (q = p) as -> by congruence.
  rewrite E4 in Em. pose proof (hstep_realloc m m' l1 l2 p s 4 p Hl ltac:(lia) Em) as H.
  by rewrite (proj2 (Z.eqb_neq p 0)) in H by (unfold HEAP_START in *; lia).
Qed.

Lemma hstep_realloc_zero (m m' : memory) (l1 l2 : list (Z * Z)) (p s q : Z) :
  live_ok (m, l1 ++ (p, s) :: l2) -> realloc_impl heap_fuel m p 0 = Ret (q, m') -> live_ok (m', l1 ++ l2).
Proof.
  intros Hl. destruct (live_split _ _ _ _ _ Hl) as (bs & n & rest & Hr & _ & E & _).
  assert (Hi : (p, n) ∈ regions bs) by (rewrite E; apply list_elem_of_here).
  pose proof (regions_bounds _ _ _ _ Hr Hi) as Hb. unfold realloc_impl.
  rewrite (proj2 (Z.eqb_neq p 0)) by (unfold HEAP_START in *; lia). cbn [Z.eqb]. intros [= <- <-].
  by apply (hstep_free _ _ _ _ s).
Qed.

Lemma hstep_live (st st' : memory * list (Z * Z)) : live_ok st -> hstep st st' -> live_ok st'.
Proof.
  intros Hl Hst. destruct Hst as
    [m live size p m' Hs E Hp|m live size m' Hs E|m live num size p m' Hn Hs E Hp
    |m live num size m' Hn Hs E|m l1 l2 p s size q m' Hs E Hq|m l1 l2 p s size m' Hs E
    |m l1 l2 p s size q m' Hs E|m l1 l2 p s q m' E|m l1 l2 p s|m m' l1 l2 p s S|m m' live S].
  - pose proof (hstep_malloc _ _ _ _ _ Hl Hs E) as H.
    by rewrite (proj2 (Z.eqb_neq p 0)) in H by exact Hp.
  - pose proof (hstep_malloc _ _ _ _ _ Hl Hs E) as H. simpl in H. by subst.
  - pose proof (hstep_calloc _ _ _ _ _ _ Hl Hn Hs E) as H.
    by rewrite (proj2 (Z.eqb_neq p 0)) in H by exact Hp.
  - pose proof (hstep_calloc _ _ _ _ _ _ Hl Hn Hs E) as H. simpl in H. by subst.
  - pose proof (hstep_realloc _ _ _ _ _ _ _ _ Hl Hs E) as H.
    by rewrite (proj2 (Z.eqb_neq q 0)) in H by exact Hq.
  - pose proof (hstep_realloc _ _ _ _ _ _ _ _ Hl Hs E) as H. simpl in H. by subst.
  - by apply (hstep_realloc_wraps m m' l1 l2 p s size q).
  - by apply (hstep_realloc_zero m m' l1 l2 p s q).
  - by apply (hstep_free _ _ _ _ s).
  - destruct Hl as (bs & rs & Hr & E & HF). cbn [fst snd] in *.
    exists bs, rs. split; [|done].
    destruct (live_split m l1 l2 p s) as (bs2 & n & rest & _); [by exists bs, rs|].
    apply Forall2_app_inv_r in HF as (r1 & r2' & _ & H2 & ->).
    apply Forall2_cons_inv_r in H2 as ([q k] & r2 & [Hq Hk] & _ & ->). cbn [fst snd] in *. subst q.
    apply (payload_write m _ _ p k); [exact Hr| |].
    + rewrite E. apply elem_of_app. right. apply list_elem_of_here.
    + eapply mem_same_weaken; [exact S|]. simpl. lia.
  - by apply (live_same m).
Qed.

Lemma live_init (m : memory) : live_ok (heap_init m, []).
Proof.
  exists [(HEAP_SIZE, false)], []. split; [apply heap_init_repr|]. split; [reflexivity|constructor].
Qed.

(** C3: Whatever the clients do through the heap's interface and inside
    their own regions, after [heap_init] live requests never overlap and lie
    inside the heap, and no call ever finds a corrupted block: [malloc] and
    [calloc] always return, and [realloc] does on every live region.  A
    request is what was asked for, except that a [realloc] to more than
    4294967284 bytes leaves a request of four bytes: for these sizes the code
    cuts the region down instead of failing ([realloc_wraps]). *)
Theorem heap_safe (m0 m : memory) (live : list (Z * Z)) (num size : Z) :
  rtc hstep (heap_init m0, []) (m, live) -> 0 < num < 4294967296 -> 0 < size < 4294967296 ->
  (forall l1 l2 p s, live = l1 ++ (p, s) :: l2 ->
     HEAP_START < p /\ p + s < HEAP_START + HEAP_SIZE /\
     (forall q t, (q, t) ∈ l1 ++ l2 -> p + s < q \/ q + t < p) /\
     (exists r m', realloc_impl heap_fuel m p size = Ret (r, m'))) /\
  (exists r m', malloc_impl heap_fuel m size = Ret (r, m')) /\
  (exists r m', calloc_impl heap_fuel m num size = Ret (r, m')).
Proof.
  intros Hreach Hk Hs.
  assert (Hl : live_ok (m, live)) by exact (rtc_invariant hstep live_ok _ _ hstep_live Hreach (live_init m0)).
  split; [|destruct Hl as (bs & rs & Hr & _); pose proof (heap_fuel_ok _ _ Hr) as Hf; split].
  - intros l1 l2 p s ->. destruct (live_split _ _ _ _ _ Hl) as (bs & n & rest & Hr & Hn & E & HF).
    assert (Hi : (p, n) ∈ regions bs) by (rewrite E; apply list_elem_of_here).
    pose proof (regions_bounds _ _ _ _ Hr Hi). split; [lia|]. split; [lia|]. split.
    + intros q t Hq. apply list_elem_of_lookup in Hq as [i Hq].
      destruct (Forall2_lookup_r _ _ _ _ _ HF Hq) as ([q' k] & Hq' & [Ha Hb]). cbn [fst snd] in *.
      subst q'. apply list_elem_of_lookup_2 in Hq'.
      destruct (regions_disjoint _ _ _ _ _ q k Hr E Hq'). lia.
    + destruct (decide (size <= 4294967284)).
      * destruct (realloc_client heap_fuel m bs p n size Hr Hi ltac:(lia) (heap_fuel_ok _ _ Hr)) as (q & m' & _ & Em & _). eauto.
      * destruct (realloc_wraps_four heap_fuel m bs p n size Hr Hi ltac:(lia)) as [_ [m' Em]]. eauto.
  - destruct (malloc_client heap_fuel m size bs Hr ltac:(lia) Hf) as (r & m' & Em & _). eauto.
  - destruct (calloc_client heap_fuel m bs num size Hr Hk Hs Hf) as (r & m' & Em & _). eauto.
Qed.

(** For the eleven largest sizes the block size wraps around to the
    minimum: [realloc] truncates the region to one word (when the rest can
    hold a block) and returns the pointer as if the region had grown. *)
Theorem realloc_wraps (fuel : nat) (m : memory) (bs : list block) (p n size : Z) :
  heap_repr m bs -> (p, n) ∈ regions bs -> 4294967285 <= size < 4294967296 ->
  realloc_impl fuel m p size =
    Ret (p, if 12 <=? n - 4 then split_block m (p - 4) 12 (n - 4) else m).
Proof.
  intros Hr Hp Hs. pose proof (regions_bounds _ _ _ _ Hr Hp) as (_ & Hn & _).
  apply regions_from_split in Hp as (pre & post & -> & ->).
  rewrite (realloc_unfold fuel m pre post n size Hr) by lia.
  assert (E : block_need (align_up size) = 12).
  { unfold block_need, align_up, ALIGN, HEADER_SIZE, FOOTER_SIZE. change (4 - 1) with 3.
    rewrite land_align4. change MIN_BLOCK with 12. zcase; [reflexivity|]. cint. }
  rewrite E, (proj2 (Z.leb_le 12 (n + 8))) by lia. change MIN_BLOCK with 12.
  by replace (n + 8 - 12) with (n - 4) by lia.
Qed.

(** [heap_walk] reports the number of blocks and the bytes in free and
    in used blocks, which together make up the heap. *)
Theorem heap_walk_totals (fuel : nat) (m : memory) (bs : list block) :
  heap_repr m bs -> (length bs < fuel)%nat ->
  heap_walk_impl fuel m = Ret (Z.of_nat (length bs), sum_of false bs, sum_of true bs) /\
  sum_of false bs + sum_of true bs = HEAP_SIZE.
Proof.
  intros [Hb Ht] Hf. split.
  - unfold heap_walk_impl.
    rewrite (heap_walk_loop_spec fuel m HEAP_START 0 0 0 bs Hb) by (rewrite ?Ht; unfold HEAP_SIZE; lia).
    reflexivity.
  - rewrite <- Ht. clear. unfold sum_of. induction bs as [|[sz u] bs IH]; [reflexivity|].
    destruct u; cbn [foldr fst snd Bool.eqb total]; lia.
Qed.

(** ** Witnesses: the heap just initialised, and after one allocation *)

Definition demo_heap : memory := heap_init ∅.

Lemma demo_heap_repr : heap_repr demo_heap [(HEAP_SIZE, false)].
Proof. apply heap_init_repr. Qed.

Definition demo_heap1 : memory := take_mem demo_heap HEAP_START 108 HEAP_SIZE.

Lemma demo_malloc : malloc_impl 2 demo_heap 100 = Ret (HEAP_START + 4, demo_heap1).
Proof. vm_compute. reflexivity. Qed.

Definition demo_blocks : list block := [(108, true); (HEAP_SIZE - 108, false)].

Lemma demo_heap1_repr : heap_repr demo_heap1 demo_blocks.
Proof. split; [|reflexivity]. vm_compute. repeat split; discriminate. Qed.

Lemma demo_region : (8388612, 100) ∈ regions demo_blocks.
Proof. apply list_elem_of_here. Qed.

#[local] Opaque demo_heap demo_heap1.

Lemma malloc_correct_witness :
  exists bs', heap_repr demo_heap1 bs' /\ (8388612, 100) ∈ regions bs' /\
    mem_same demo_heap demo_heap1 (fun x => x < HEAP_START \/ HEAP_START + HEAP_SIZE <= x).
Proof.
  destruct (malloc_correct 2 demo_heap 100 _ demo_heap_repr ltac:(lia) ltac:(simpl; lia))
    as (p & m' & E & H).
  rewrite demo_malloc in E. injection E as <- <-.
  destruct H as [(H & _)|(bs' & n & _ & _ & _ & _ & _ & _ & _ & Hout)]; [discriminate H|].
  exists demo_blocks. split; [exact demo_heap1_repr|]. split; [exact demo_region|exact Hout].
Defined.

Lemma malloc_first_fit_witness :
  exists m', malloc_impl 3 demo_heap1 50 = Ret (8388608 + 108 + 4, m') /\
    heap_repr m' [(108, true); (60, true); (HEAP_SIZE - 168, false)].
Proof.
  exact (malloc_first_fit 3 demo_heap1 50 108 demo_blocks _ demo_heap1_repr ltac:(unfold HEAP_SIZE; lia)
           ltac:(simpl; lia) eq_refl).
Defined.

Lemma free_correct_witness :
  free_impl (free_impl demo_heap1 8388612) 8388612 = free_impl demo_heap1 8388612.
Proof.
  destruct (free_correct demo_heap1 demo_blocks 8388612 100 demo_heap1_repr demo_region)
    as (bs' & _ & _ & _ & H). exact H.
Defined.

Lemma free_coalesces_witness : heap_repr (free_impl demo_heap1 8388612) [(HEAP_SIZE, false)].
Proof.
  exact (free_coalesces demo_heap1 [] [(HEAP_SIZE - 108, false)] 108 demo_heap1_repr).
Defined.

Lemma realloc_correct_witness :
  exists q m', realloc_impl 3 demo_heap1 8388612 40 = Ret (q, m') /\
    (forall i, 0 <= i < 40 -> load8 m' (q + i) = load8 demo_heap1 (8388612 + i)).
Proof.
  destruct (realloc_correct 3 demo_heap1 demo_blocks 8388612 100 40 demo_heap1_repr demo_region
              ltac:(lia) ltac:(simpl; lia)) as (q & m' & rest & E & _ & [(_ & _ & H)|H]); [lia|].
  destruct H as (bs' & k & _ & _ & _ & _ & _ & H). exists q, m'. split; [exact E|exact H].
Defined.

Lemma calloc_correct_witness :
  exists p m', calloc_impl 2 demo_heap 65536 65536 = Ret (p, m') /\ p = 0 /\ m' = demo_heap.
Proof.
  destruct (calloc_correct 2 demo_heap _ 65536 65536 demo_heap_repr ltac:(lia) ltac:(lia)
              ltac:(simpl; lia)) as (p & m' & E & [(-> & -> & _)|H]).
  - exists 0, demo_heap. split; [exact E|]. split; reflexivity.
  - destruct H as (bs' & n & _ & Hn & Hr & Ep & _).
    assert (Hi : (p, n) ∈ regions bs') by (rewrite Ep; apply list_elem_of_here).
    apply (regions_bounds _ _ _ _ Hr) in Hi. unfold HEAP_START, HEAP_SIZE in Hi. lia.
Defined.

Lemma heap_safe_witness :
  exists m l1 l2 r m', rtc hstep (heap_init ∅, []) (m, l1 ++ (8388612, 100) :: l2) /\
    malloc_impl heap_fuel m 8 = Ret (r, m').
Proof.
  destruct (malloc_client heap_fuel demo_heap 100 _ demo_heap_repr ltac:(lia)
              (heap_fuel_ok _ _ demo_heap_repr)) as (p & m' & E & _).
  assert (Hp : p = 8388612).
  { unfold malloc_impl in E. cbn [Z.eqb] in E.
    change (HEAP_SIZE <? 100) with false in E. cbv iota in E.
    rewrite (malloc_walk_spec heap_fuel demo_heap HEAP_START _ _ (proj1 demo_heap_repr)
               ltac:(lia) ltac:(reflexivity) (heap_fuel_ok _ _ demo_heap_repr)) in E.
    injection E as <- _. reflexivity. }
  subst p.
  assert (Hst : rtc hstep (heap_init ∅, []) (m', [] ++ (8388612, 100) :: [])).
  { apply rtc_once. apply hs_malloc; [lia|exact E|lia]. }
  destruct (heap_safe ∅ m' _ 1 8 Hst ltac:(lia) ltac:(lia)) as (_ & (r & m'' & Em) & _).
  exists m', [], [], r, m''. split; [exact Hst|exact Em].
Defined.

Lemma realloc_wraps_witness :
  realloc_impl 3 demo_heap1 8388612 4294967295 = Ret (8388612, split_block demo_heap1 8388608 12 96).
Proof.
  exact (realloc_wraps 3 demo_heap1 demo_blocks 8388612 100 4294967295 demo_heap1_repr demo_region
           ltac:(lia)).
Defined.

Lemma heap_walk_totals_witness : heap_walk_impl 3 demo_heap1 = Ret (2, HEAP_SIZE - 108, 108).
Proof.
  exact (proj1 (heap_walk_totals 3 demo_heap1 demo_blocks demo_heap1_repr ltac:(simpl; lia))).
Defined.

(** ** The heap and the frame allocator

    [pfa_init] reserves the kernel image and the BIOS area only: on a machine
    with more than 10 MB the frames of the heap itself are free, so the frame
    allocator can hand them out. *)
Theorem heap_frames_unreserved (bss_end ram f : Z) :
  0 < bss_end <= HEAP_START -> HEAP_START + HEAP_SIZE <= ram < 4294967296 ->
  HEAP_START / FRAME_SIZE <= f < (HEAP_START + HEAP_SIZE) / FRAME_SIZE ->
  f < Pfa.total_frames (Pfa.pfa_init Pfa.bss_pfa bss_end ram) /\
  Pfa.used (Pfa.pfa_init Pfa.bss_pfa bss_end ram) f = false.
Proof.
  unfold HEAP_START, HEAP_SIZE, FRAME_SIZE. intros Hb Hr Hf.
  change (8388608 / 4096) with 2048 in Hf. change ((8388608 + 2097152) / 4096) with 2560 in Hf.
  destruct (Pfa.pfa_init_spec Pfa.bss_pfa bss_end ram) as (_ & Ht & Hu);
    [apply length_replicate|apply Pfa.bss_pfa_bytes|intros; apply Pfa.bss_pfa_unused|lia|lia|].
  assert (Hlt : f < Pfa.total_frames (Pfa.pfa_init Pfa.bss_pfa bss_end ram)).
  { rewrite Ht. unfold Pfa.MAX_MEMORY, FRAME_SIZE. div_mod_lia. }
  split; [exact Hlt|]. rewrite Hu by (clear - Hlt Hf; lia). unfold Pfa.reserved, FRAME_SIZE.
  assert (Hd : (bss_end + 4096 - 1) / 4096 <= 2048) by div_mod_lia.
  rewrite (proj2 (Z.ltb_ge f _)), (proj2 (Z.eqb_neq f 144)), (proj2 (Z.ltb_ge f 256)) by lia.
  by rewrite andb_false_r.
Qed.

