(* ===== verification/BlockDev.v ===== *)
(** * The machine below the file system

    What kernel/drivers/nvfs.c calls outside itself: one-sector ATA reads
    and writes (kernel/drivers/ata.c), the tick counter (kernel/cpu/timer.c)
    and [malloc] for a scratch buffer.  Any of these may change the
    machine's state, and reads and writes may fail.  [MachineLaws] states
    the promises the file system relies on; [ramdisk] discharges them for a
    disk in memory whose writes may stop working after a while, as after a
    power cut. *)
From S2P Require Import Prelude Bytes.

Definition SECTOR : Z := 512.

Class Machine (D : Type) := {
  ata_drive_exists : D -> Z -> Z -> bool;
  (** [ata_read_sectors(ch, dr, lba, 1, buf)]: the bytes read, or failure *)
  ata_read : D -> Z -> Z -> Z -> option (list Z) * D;
  (** [ata_write_sectors(ch, dr, lba, 1, buf)]: success or failure *)
  ata_write : D -> Z -> Z -> Z -> list Z -> bool * D;
  get_ticks : D -> Z * D;
  (** [malloc(n)]: the uninitialised contents of the buffer, or null *)
  get_buffer : D -> Z -> option (list Z) * D;
  (** ghost: the contents of a drive's sectors *)
  sector : D -> Z -> Z -> Z -> list Z;
}.

(** The driver sends the low 28 bits of the sector number. *)
Definition phys (lba : Z) : Z := lba mod 268435456.

Definition same_disk {D} `{Machine D} (d d' : D) : Prop :=
  forall ch dr p, sector d' ch dr p = sector d ch dr p.

(** Reading never changes a sector; a write changes no other sector, and
    when it fails it leaves its sector as it was or as it was meant to be. *)
Class MachineLaws (D : Type) {MD : Machine D} : Prop := {
  sector_len : forall d ch dr p, length (sector d ch dr p) = 512%nat;
  sector_bytes : forall d ch dr p, is_bytes (sector d ch dr p);
  read_law : forall d ch dr lba r d', ata_read d ch dr lba = (r, d') ->
    same_disk d d' /\ (r = Some (sector d ch dr (phys lba)) \/ r = None);
  write_law : forall d ch dr lba buf ok d', ata_write d ch dr lba buf = (ok, d') ->
    (length buf = 512%nat -> is_bytes buf ->
     sector d' ch dr (phys lba) = buf \/
     (ok = false /\ sector d' ch dr (phys lba) = sector d ch dr (phys lba))) /\
    (forall ch' dr' p, (ch', dr', p) <> (ch, dr, phys lba) ->
       sector d' ch' dr' p = sector d ch' dr' p);
  ticks_law : forall d t d', get_ticks d = (t, d') -> same_disk d d' /\ 0 <= t < 4294967296;
  buffer_law : forall d n r d', 0 <= n -> get_buffer d n = (r, d') ->
    same_disk d d' /\ (forall b, r = Some b -> Z.of_nat (length b) = n /\ is_bytes b);
}.

(** A drive all of whose next reads succeed, whichever they are *)
Fixpoint reads_ok {D} `{Machine D} (n : nat) (ch dr : Z) (d : D) : Prop :=
  match n with
  | O => True
  | S n => forall lba, fst (ata_read d ch dr lba) <> None /\ reads_ok n ch dr (snd (ata_read d ch dr lba))
  end.

Definition readable {D} `{Machine D} (d : D) (ch dr : Z) : Prop := forall n, reads_ok n ch dr d.

Lemma read_readable {D} `{Machine D} (d : D) (ch dr lba : Z) :
  readable d ch dr -> fst (ata_read d ch dr lba) <> None /\ readable (snd (ata_read d ch dr lba)) ch dr.
Proof. intros Hd. split; [exact (proj1 (Hd 1%nat lba))|]. intros n. exact (proj2 (Hd (S n) lba)). Qed.

(** A drive that works: no access to it fails, and it stays that way. *)
Class HealthyDrive (D : Type) {MD : Machine D} := {
  healthy : D -> Z -> Z -> Prop;
  read_healthy : forall d ch dr lba, healthy d ch dr ->
    fst (ata_read d ch dr lba) <> None /\ healthy (snd (ata_read d ch dr lba)) ch dr;
  write_healthy : forall d ch dr lba buf, healthy d ch dr ->
    fst (ata_write d ch dr lba buf) = true /\ healthy (snd (ata_write d ch dr lba buf)) ch dr;
  ticks_healthy : forall d ch dr, healthy d ch dr -> healthy (snd (get_ticks d)) ch dr;
  buffer_healthy : forall d ch dr n, healthy d ch dr ->
    fst (get_buffer d n) <> None /\ healthy (snd (get_buffer d n)) ch dr;
}.

Lemma healthy_readable {D} `{HealthyDrive D} (d : D) (ch dr : Z) : healthy d ch dr -> readable d ch dr.
Proof.
  intros Hh n. revert d Hh. induction n as [|n IH]; intros d Hh; [done|]. intros lba.
  destruct (read_healthy d ch dr lba Hh) as [Hr Hh']. split; [exact Hr|by apply IH].
Qed.

#[export] Instance same_disk_refl {D} `{Machine D} : Reflexive same_disk.
Proof. by intros d ch dr p. Qed.

#[export] Instance same_disk_trans {D} `{Machine D} : Transitive same_disk.
Proof. intros a b c H1 H2 ch dr p. by rewrite H2, H1. Qed.

(** ** Instances *)

(** One drive in memory, master on the primary channel; sectors never
    written read as zeros.  The second component counts the writes that
    will still succeed, [None] for no limit. *)
Record ramdisk := mkRam { ram : gmap Z (list Z); writes_left : option nat; clock : Z }.

Definition zero_sector : list Z := replicate 512 0.

Definition ram_sector (d : ramdisk) (ch dr lba : Z) : list Z :=
  if (ch =? 0) && (dr =? 0) then
    match ram d !! lba with
    | Some b => if (length b =? 512)%nat && forallb (fun x => (0 <=? x) && (x <? 256)) b
                then b else zero_sector
    | None => zero_sector
    end
  else zero_sector.

Definition ram_write (d : ramdisk) (ch dr lba : Z) (buf : list Z) : bool * ramdisk :=
  if (ch =? 0) && (dr =? 0) then
    match writes_left d with
    | Some O => (false, d)
    | w => (true, mkRam (<[phys lba := buf]> (ram d)) (Nat.pred <$> w) (clock d))
    end
  else (false, d).

#[export] Instance ramdisk_machine : Machine ramdisk := {
  ata_drive_exists _ ch dr := (ch =? 0) && (dr =? 0);
  ata_read d ch dr lba := (if (ch =? 0) && (dr =? 0) then Some (ram_sector d ch dr (phys lba)) else None, d);
  ata_write := ram_write;
  get_ticks d := (u32 (clock d), mkRam (ram d) (writes_left d) (clock d + 1));
  get_buffer d n := (Some (replicate (Z.to_nat n) 0), d);
  sector := ram_sector;
}.

Lemma is_bytes_forallb (b : list Z) :
  is_bytes b <-> forallb (fun x => (0 <=? x) && (x <? 256)) b = true.
Proof.
  unfold is_bytes, is_byte. rewrite forallb_forall, Forall_forall. split.
  - intros H x Hx. apply list_elem_of_In in Hx. apply H in Hx. lia.
  - intros H x Hx. apply list_elem_of_In in Hx. apply H in Hx. lia.
Qed.

Lemma ram_sector_wf (d : ramdisk) (ch dr lba : Z) :
  length (ram_sector d ch dr lba) = 512%nat /\ is_bytes (ram_sector d ch dr lba).
Proof.
  assert (Hz : length zero_sector = 512%nat /\ is_bytes zero_sector).
  { split; [reflexivity|]. apply is_bytes_replicate. lia. }
  unfold ram_sector. destruct ((ch =? 0) && (dr =? 0)); [|exact Hz].
  destruct (ram d !! lba) as [b|]; [|exact Hz].
  destruct ((length b =? 512)%nat && _) eqn:E; [|exact Hz].
  apply andb_true_iff in E as [E1 E2]. split; [by apply Nat.eqb_eq|by apply is_bytes_forallb].
Qed.

#[export] Instance ramdisk_laws : MachineLaws ramdisk.
Proof.
  split; simpl.
  - intros. apply ram_sector_wf.
  - intros. apply ram_sector_wf.
  - intros d ch dr lba r d' [= <- <-]. split; [reflexivity|].
    destruct ((ch =? 0) && (dr =? 0)); auto.
  - intros d ch dr lba buf ok d'. unfold ram_write.
    destruct ((ch =? 0) && (dr =? 0)) eqn:Ed; [|intros [= <- <-]; auto].
    assert (Hw : forall w, let d1 := mkRam (<[phys lba:=buf]> (ram d)) w (clock d) in
      (length buf = 512%nat -> is_bytes buf -> sector d1 ch dr (phys lba) = buf) /\
      forall ch' dr' l, (ch', dr', l) <> (ch, dr, phys lba) ->
        sector d1 ch' dr' l = sector d ch' dr' l).
    { intros w d1. split.
      - intros Hlen Hb. simpl. unfold ram_sector. rewrite Ed. simpl. rewrite lookup_insert_eq.
        by rewrite Hlen, (proj1 (is_bytes_forallb buf) Hb).
      - intros ch' dr' l Hne. simpl. unfold ram_sector.
        destruct ((ch' =? 0) && (dr' =? 0)) eqn:Ed'; [|reflexivity].
        simpl. rewrite lookup_insert_ne; [reflexivity|]. intros E. apply Hne.
        rewrite E. zbool. subst. reflexivity. }
    destruct (writes_left d) as [[|w]|]; intros [= <- <-]; [auto|..];
      match goal with |- context [mkRam _ ?w _] => destruct (Hw w) end; auto 6.
  - intros d t d' [= <- <-]. split; [done|apply u32_range].
  - intros d n r d' Hn [= <- <-]. split; [done|]. intros b [= <-].
    rewrite length_replicate. split; [lia|]. apply is_bytes_replicate. lia.
Qed.

#[export] Instance ramdisk_healthy : HealthyDrive ramdisk.
Proof.
  refine {| healthy d ch dr := ch = 0 /\ dr = 0 /\ writes_left d = None |}.
  - intros d ch dr lba (-> & -> & Hw). simpl. auto.
  - intros d ch dr lba buf (-> & -> & Hw). simpl. unfold ram_write. rewrite Hw. simpl. auto.
  - intros d ch dr (-> & -> & Hw). simpl. auto.
  - intros d ch dr n (-> & -> & Hw). simpl. auto.
Defined.
