(* ===== verification/Nvfs.v ===== *)
(** * kernel/drivers/nvfs.c: the file system, definitions

    Every function of the source, in its order, over the machine of
    [BlockDev].  The file's static variables are the record [fs] (the
    superblock's numbers are the sub-record [geo]); a function that returns
    a negative [int] on failure is a computation of the monad [M], which
    keeps the state on failure.  A C string is the list of its bytes before
    the NUL; [data] pointers are functions from offset to byte, because
    [extent_write] reads past the end of the caller's buffer.  Nested loops
    over the blocks of an extent list run over [ext_blocks].  The spin lock
    makes each public call one step, and printing is the value returned by
    [nvfs_list]. *)
From S2P Require Import Prelude Bytes BlockDev.

Module Nvfs.

Definition NVFS_SECTOR_SIZE : Z := 512.
Definition NVFS_INODE_SIZE : Z := 128.
Definition NVFS_DIRENT_SIZE : Z := 32.
Definition NVFS_MAX_EXTENTS : Z := 14.
Definition NVFS_DIRECT_EXTENTS : Z := 13.
Definition NVFS_EXTENT_SIZE : Z := 8.
Definition NVFS_INDIRECT_ENTS : Z := NVFS_SECTOR_SIZE / NVFS_EXTENT_SIZE.
Definition NVFS_INDIRECT_MARKER : Z := 4294967295.
Definition NVFS_MAX_NAME : Z := 27.
Definition NVFS_ROOT_INODE : Z := 0.
Definition NVFS_TYPE_FILE : Z := 1.
Definition NVFS_TYPE_DIR : Z := 2.
Definition NVFS_ERR_NOT_FOUND : Z := 1.
Definition NVFS_ERR_NOT_DIR : Z := 2.
Definition NVFS_ERR_NOT_FILE : Z := 3.
Definition NVFS_ERR_DIR_BUSY : Z := 4.
Definition NVFS_ERR_NO_SPACE : Z := 5.
Definition NVFS_ERR_NO_INODE : Z := 6.
Definition NVFS_ERR_EXISTS : Z := 7.
Definition NVFS_ERR_IO : Z := 8.
Definition NVFS_ERR_NO_MOUNT : Z := 9.
Definition NVFS_ERR_PATH : Z := 10.
Definition EXTENT_CACHE_MAX : Z := NVFS_DIRECT_EXTENTS + NVFS_INDIRECT_ENTS.

(** bits in one bitmap sector *)
Definition bits_per_sec : Z := NVFS_SECTOR_SIZE * 8.

(** inodes in one sector *)
Definition inodes_per_sec : Z := NVFS_SECTOR_SIZE / NVFS_INODE_SIZE.

Record nvfs_extent := mkExt { e_start : Z; e_count : Z }.

Record nvfs_inode := mkInode {
  i_size : Z;
  i_type : Z;
  i_ctime : Z * Z * Z;
  i_extent_count : Z;
  i_extents : list nvfs_extent;
  i_mtime : Z;
}.

Record geo := mkGeo {
  nvfs_ch : Z;
  nvfs_dr : Z;
  nvfs_offset : Z;
  sb_data_start : Z;
  sb_inode_start : Z;
  sb_inode_count : Z;
  sb_inode_blocks : Z;
  sb_bitmap_start : Z;
  sb_bitmap_sectors : Z;
}.

Record fs (D : Type) := mkFs {
  nvfs_errno : Z;
  mounted : bool;
  nvfs_cwd : Z;
  sb : geo;
  dev : D;
}.
#[global] Arguments mkFs {D}.
#[global] Arguments nvfs_errno {D}.
#[global] Arguments mounted {D}.
#[global] Arguments nvfs_cwd {D}.
#[global] Arguments sb {D}.
#[global] Arguments dev {D}.

Definition ext_at (l : list nvfs_extent) (i : Z) : nvfs_extent :=
  default (mkExt 0 0) (l !! Z.to_nat i).

(** The block numbers that the loops
    [for (i < total) for (j < cache[i].count) ... cache[i].start + j]
    visit, in order. *)
Definition ext_blocks (l : list nvfs_extent) : list Z :=
  flat_map (fun e => map (fun j => u32 (e_start e + j)) (seqZ 0 (e_count e))) l.

(** ** Byte layouts *)

(** The inode stored at byte [off] of a sector. *)
Definition inode_get (buf : list Z) (off : Z) : nvfs_inode :=
  let ec := get32 buf (off + 8) in
  mkInode (get32 buf off) (byte_at buf (off + 4))
    (byte_at buf (off + 5), byte_at buf (off + 6), byte_at buf (off + 7))
    (if NVFS_MAX_EXTENTS <? ec then NVFS_MAX_EXTENTS else ec)
    (map (fun i => mkExt (get32 buf (off + 12 + i * 8)) (get32 buf (off + 12 + i * 8 + 4)))
       (seqZ 0 NVFS_MAX_EXTENTS))
    (get32 buf (off + 124)).

Definition put_extent (buf : list Z) (at_ : Z) (e : nvfs_extent) : list Z :=
  put32 (put32 buf at_ (e_start e)) (at_ + 4) (e_count e).

Definition inode_put (buf : list Z) (off : Z) (ino : nvfs_inode) : list Z :=
  let '(c0, c1, c2) := i_ctime ino in
  let buf := put32 buf off (i_size ino) in
  let buf := set_byte buf (off + 4) (i_type ino) in
  let buf := set_byte buf (off + 5) c0 in
  let buf := set_byte buf (off + 6) c1 in
  let buf := set_byte buf (off + 7) c2 in
  let buf := put32 buf (off + 8) (i_extent_count ino) in
  let buf := for_up (Z.to_nat NVFS_MAX_EXTENTS) 0 1
               (fun i buf => put_extent buf (off + 12 + i * 8) (ext_at (i_extents ino) i)) buf in
  put32 buf (off + 124) (i_mtime ino).

(** [struct nvfs_dirent] number [e] of a directory block. *)
Definition dirent_inode (tmp : list Z) (e : Z) : Z := get32 tmp (e * NVFS_DIRENT_SIZE + 28).

Definition dirents : Z := NVFS_SECTOR_SIZE / NVFS_DIRENT_SIZE.

(** [name_len], capped at [NVFS_MAX_NAME] *)
Definition name_len (name : list Z) : Z := Z.min (Z.of_nat (length name)) NVFS_MAX_NAME.

Definition dirent_match (tmp : list Z) (e : Z) (name : list Z) : bool :=
  all_up (Z.to_nat (name_len name)) 0
    (fun k => byte_at tmp (e * NVFS_DIRENT_SIZE + k) =? byte_at name k) &&
  (byte_at tmp (e * NVFS_DIRENT_SIZE + name_len name) =? 0).

(** [nd] of [dir_add]: 27 bytes of name, a zero, the inode number. *)
Definition new_dirent (name : list Z) (child_inode : Z) : list Z :=
  put32 (map (fun k => if k <? name_len name then u8 (byte_at name k) else 0) (seqZ 0 32))
    28 child_inode.

Definition to_upper (s : list Z) : list Z :=
  map (fun c => if (97 <=? c) && (c <=? 122) then c - 32 else c) s.

Definition inode_set_ctime (ino : nvfs_inode) (t : Z) : nvfs_inode :=
  mkInode (i_size ino) (i_type ino)
    (Z.land t 255, Z.land (Z.shiftr t 8) 255, Z.land (Z.shiftr t 16) 255)
    (i_extent_count ino) (i_extents ino) (i_mtime ino).

Definition inode_set_mtime (ino : nvfs_inode) (t : Z) : nvfs_inode :=
  mkInode (i_size ino) (i_type ino) (i_ctime ino) (i_extent_count ino) (i_extents ino) t.

(** The fields [inode_alloc] gives a new inode. *)
Definition new_inode (type t : Z) : nvfs_inode :=
  inode_set_ctime
    (mkInode 0 type (0, 0, 0) 0 (replicate (Z.to_nat NVFS_MAX_EXTENTS) (mkExt 0 0)) t) t.

(** Sector [j] as [extent_write] fills it: [remain] is never decreased, so
    each sector takes [min(512, size)] bytes of [data], and only a file
    shorter than a sector is padded with zeros. *)
Definition data_sector (data : Z -> Z) (size j : Z) : list Z :=
  let copy := Z.min NVFS_SECTOR_SIZE size in
  map (fun k => if k <? copy then u8 (data (j * copy + k)) else 0) (seqZ 0 NVFS_SECTOR_SIZE).

(** ** The monad *)

Section nvfs.
Context {D : Type} `{MD : Machine D}.

Definition M (A : Type) : Type := fs D -> option A * fs D.

Definition ret {A} (a : A) : M A := fun s => (Some a, s).

Definition fail {A} : M A := fun s => (None, s).

Definition bind {A B} (m : M A) (k : A -> M B) : M B := fun s =>
  match m s with
  | (Some a, s') => k a s'
  | (None, s') => (None, s')
  end.

(** Run [m] and look at its result. *)
Definition try {A} (m : M A) : M (option A) := fun s =>
  let '(r, s') := m s in (Some r, s').

(** A call whose result is not used. *)
Definition ignore {A} (m : M A) : M unit := fun s =>
  let '(_, s') := m s in (Some tt, s').

Definition get {A} (f : fs D -> A) : M A := fun s => (Some (f s), s).

Definition set_errno (e : Z) : M unit := fun s =>
  (Some tt, mkFs e (mounted s) (nvfs_cwd s) (sb s) (dev s)).

Definition set_sb (g : geo) : M unit := fun s =>
  (Some tt, mkFs (nvfs_errno s) (mounted s) (nvfs_cwd s) g (dev s)).

Definition set_cwd (c : Z) : M unit := fun s =>
  (Some tt, mkFs (nvfs_errno s) (mounted s) c (sb s) (dev s)).

Definition with_dev (s : fs D) (d : D) : fs D :=
  mkFs (nvfs_errno s) (mounted s) (nvfs_cwd s) (sb s) d.

(** [return v;] of an unsigned value from a function returning [int]: every
    caller takes a negative result as failure. *)
Definition ret_int (v : Z) : M Z := if v <? 2147483648 then ret v else fail.

End nvfs.

Declare Scope nvfs_scope.
Delimit Scope nvfs_scope with nvfs.
Notation "x <- m ;; k" := (bind m (fun x => k))
  (at level 100, m at next level, right associativity) : nvfs_scope.
Notation "m ;;; k" := (bind m (fun _ => k))
  (at level 100, right associativity) : nvfs_scope.
Notation "m 'or_errno' e" :=
  (bind (try m) (fun r => match r with
                          | Some v => ret v
                          | None => bind (set_errno e) (fun _ => fail)
                          end)) (at level 95, no associativity) : nvfs_scope.
Open Scope nvfs_scope.

Section nvfs_ops.
Context {D : Type} `{MD : Machine D}.
Abbreviation M := (@M D).

Definition fail_errno {A} (e : Z) : M A := set_errno e ;;; fail.

(** ** Sectors, blocks and the bitmap *)

Definition read_sector (lba : Z) : M (list Z) := fun s =>
  let '(r, d) := ata_read (dev s) (nvfs_ch (sb s)) (nvfs_dr (sb s)) lba in (r, with_dev s d).

Definition write_sector (lba : Z) (buf : list Z) : M unit := fun s =>
  let '(ok, d) := ata_write (dev s) (nvfs_ch (sb s)) (nvfs_dr (sb s)) lba buf in
  (if ok then Some tt else None, with_dev s d).

Definition block_lba (g : geo) (block : Z) : Z := u32 (nvfs_offset g + sb_data_start g + block).

Definition read_block (block : Z) : M (list Z) :=
  g <- get sb ;; read_sector (block_lba g block).

Definition write_block (block : Z) (buf : list Z) : M unit :=
  g <- get sb ;; write_sector (block_lba g block) buf.

Definition bitmap_lba (g : geo) (block : Z) : Z :=
  u32 (nvfs_offset g + sb_bitmap_start g + block / bits_per_sec).

Definition bitmap_test (block : Z) : M Z :=
  g <- get sb ;;
  buf <- read_sector (bitmap_lba g block) ;;
  ret (bits_test buf (block mod bits_per_sec)).

Definition bitmap_set (block : Z) (used : bool) : M unit :=
  g <- get sb ;;
  buf <- read_sector (bitmap_lba g block) ;;
  let bit := block mod bits_per_sec in
  write_sector (bitmap_lba g block) (if used then bits_set buf bit else bits_clear buf bit).

(** [for (j = 1; j < count; j++)] of [bitmap_find]: whether all were free. *)
Fixpoint run_free (n : nat) (start j : Z) : M bool :=
  match n with
  | O => ret true
  | S n =>
    r <- try (bitmap_test (u32 (start + j))) ;;
    match r with
    | Some 0 => run_free n start (j + 1)
    | _ => ret false
    end
  end.

Fixpoint scan_bits (n : nat) (b base total_bits count : Z) (buf : list Z) : M (option Z) :=
  match n with
  | O => ret None
  | S n =>
    if u32 (base + b) <? total_bits then
      if negb (bits_mask buf b =? 0) then scan_bits n (b + 1) base total_bits count buf
      else
        let start := u32 (base + b) in
        if count =? 1 then ret (Some start)
        else
          ok <- run_free (Z.to_nat (count - 1)) start 1 ;;
          if ok : bool then ret (Some start) else scan_bits n (b + 1) base total_bits count buf
    else ret None
  end.

Fixpoint scan_sectors (n : nat) (s count : Z) : M Z :=
  match n with
  | O => fail
  | S n =>
    g <- get sb ;;
    buf <- read_sector (u32 (nvfs_offset g + sb_bitmap_start g + s)) ;;
    r <- scan_bits (Z.to_nat bits_per_sec) 0 (u32 (s * bits_per_sec))
           (u32 (sb_bitmap_sectors g * bits_per_sec)) count buf ;;
    match r with
    | Some start => ret_int start
    | None => scan_sectors n (s + 1) count
    end
  end.

Definition bitmap_find (count : Z) : M Z :=
  g <- get sb ;; scan_sectors (Z.to_nat (sb_bitmap_sectors g)) 0 count.

(** ** Inodes *)

Definition inode_lba (g : geo) (inum : Z) : Z :=
  u32 (nvfs_offset g + sb_inode_start g + u32 (inum * NVFS_INODE_SIZE) / NVFS_SECTOR_SIZE).

Definition inode_off (inum : Z) : Z := u32 (inum * NVFS_INODE_SIZE) mod NVFS_SECTOR_SIZE.

Definition inode_read (inum : Z) : M nvfs_inode :=
  g <- get sb ;;
  if sb_inode_count g <=? inum then fail_errno NVFS_ERR_IO
  else
    buf <- read_sector (inode_lba g inum) ;;
    ret (inode_get buf (inode_off inum)).

Definition inode_write (inum : Z) (ino : nvfs_inode) : M unit :=
  g <- get sb ;;
  if sb_inode_count g <=? inum then fail_errno NVFS_ERR_IO
  else
    buf <- read_sector (inode_lba g inum) ;;
    write_sector (inode_lba g inum) (inode_put buf (inode_off inum) ino).

Definition sb_write_field (offset val : Z) : M unit :=
  g <- get sb ;;
  buf <- read_sector (u32 (nvfs_offset g + 1)) ;;
  write_sector (u32 (nvfs_offset g + 1)) (put32 buf offset val).

Definition set_inodes (g : geo) (blocks count : Z) : geo :=
  mkGeo (nvfs_ch g) (nvfs_dr g) (nvfs_offset g) (sb_data_start g) (sb_inode_start g) count blocks
    (sb_bitmap_start g) (sb_bitmap_sectors g).

Definition expand_inode_table : M unit :=
  blk <- bitmap_find 1 ;;
  ignore (bitmap_set blk true) ;;;
  w <- try (write_block blk zero_sector) ;;
  match w with
  | None => ignore (bitmap_set blk false) ;;; fail
  | Some _ =>
    g <- get sb ;;
    w <- try (sb_write_field 36 (u32 (sb_inode_blocks g + 1))) ;;
    match w with
    | None => ignore (bitmap_set blk false) ;;; fail
    | Some _ =>
      let blocks := u32 (sb_inode_blocks g + 1) in
      let count := u32 (blocks * inodes_per_sec) in
      set_sb (set_inodes g blocks count) ;;;
      w <- try (sb_write_field 28 count) ;;
      match w with
      | None =>
        set_sb (set_inodes g (u32 (blocks - 1)) (u32 (u32 (blocks - 1) * inodes_per_sec))) ;;;
        ignore (bitmap_set blk false) ;;;
        fail
      | Some _ => ret tt
      end
    end
  end.

(** ** Extents *)

(** The [count] entries an indirect block yields, [count] capped at 64. *)
Definition indirect_read_extents (lba max : Z) : M (list nvfs_extent) :=
  buf <- read_block lba ;;
  let count := if NVFS_INDIRECT_ENTS <? max then NVFS_INDIRECT_ENTS else max in
  ret (map (fun i => mkExt (get32 buf (i * 8)) (get32 buf (i * 8 + 4))) (seqZ 0 count)).

Definition indirect_write_extents (lba : Z) (exts : list nvfs_extent) (count : Z) : M unit :=
  let count := if NVFS_INDIRECT_ENTS <? count then NVFS_INDIRECT_ENTS else count in
  write_block lba
    (for_up (Z.to_nat count) 0 1 (fun i buf => put_extent buf (i * 8) (ext_at exts i)) zero_sector).

Definition indirect_alloc : M Z :=
  blk <- bitmap_find 1 ;;
  write_block blk zero_sector ;;;
  ignore (bitmap_set blk true) ;;;
  ret blk.

(** Every caller passes [EXTENT_CACHE_MAX] for [max]. *)
Definition extent_load_all (ino : nvfs_inode) : M (list nvfs_extent) :=
  let ec := i_extent_count ino in
  let direct := Z.min (Z.min ec NVFS_DIRECT_EXTENTS) EXTENT_CACHE_MAX in
  let out := map (ext_at (i_extents ino)) (seqZ 0 direct) in
  if ec <=? NVFS_DIRECT_EXTENTS then ret out
  else
    let indirect_count := Z.min (ec - NVFS_DIRECT_EXTENTS) (EXTENT_CACHE_MAX - direct) in
    r <- indirect_read_extents (e_start (ext_at (i_extents ino) NVFS_DIRECT_EXTENTS)) indirect_count ;;
    ret (out ++ r).

Definition now_sec : M Z := fun s =>
  let '(t, d) := get_ticks (dev s) in (Some (t / 100), with_dev s d).

(** The search loop of [inode_alloc] over [n] inodes from [i]. *)
Fixpoint alloc_scan (n : nat) (i type : Z) : M (option Z) :=
  match n with
  | O => ret None
  | S n =>
    r <- try (inode_read i) ;;
    match r with
    | None => alloc_scan n (i + 1) type
    | Some ino =>
      if i_type ino =? 0 then
        t <- now_sec ;;
        inode_write i (new_inode type t) or_errno NVFS_ERR_IO ;;;
        ret (Some i)
      else alloc_scan n (i + 1) type
    end
  end.

Definition inode_alloc (type : Z) : M Z :=
  g <- get sb ;;
  r <- alloc_scan (Z.to_nat (sb_inode_count g - 1)) 1 type ;;
  match r with
  | Some i => ret_int i
  | None =>
    expand_inode_table or_errno NVFS_ERR_NO_INODE ;;;
    g <- get sb ;;
    let i := u32 (sb_inode_count g - inodes_per_sec) in
    r <- alloc_scan (Z.to_nat (sb_inode_count g - i)) i type ;;
    match r with
    | Some i => ret_int i
    | None => fail_errno NVFS_ERR_NO_INODE
    end
  end.

(** [bitmap_set(b, 0)] for each block of a list, results ignored. *)
Fixpoint release (blocks : list Z) : M unit :=
  match blocks with
  | [] => ret tt
  | b :: r => ignore (bitmap_set b false) ;;; release r
  end.

Definition inode_free (inum : Z) : M unit :=
  g <- get sb ;;
  if (inum =? 0) || (sb_inode_count g <=? inum) then fail
  else
    ino <- inode_read inum ;;
    cache <- extent_load_all ino ;;
    release (ext_blocks cache) ;;;
    (if NVFS_DIRECT_EXTENTS <? i_extent_count ino
     then ignore (bitmap_set (e_start (ext_at (i_extents ino) NVFS_DIRECT_EXTENTS)) false)
     else ret tt) ;;;
    inode_write inum (mkInode 0 0 (i_ctime ino) 0 (i_extents ino) (i_mtime ino)).

(** The copy loop of [extent_read]; [acc] is [buf[0 .. pos)]. *)
Fixpoint read_blocks (blocks : list Z) (remain : Z) (acc : list Z) : M (list Z) :=
  match blocks with
  | [] => ret acc
  | b :: r =>
    let pos := Z.of_nat (length acc) in
    if pos <? remain then
      tmp <- read_block b ;;
      let copy := Z.min NVFS_SECTOR_SIZE (remain - pos) in
      read_blocks r remain (acc ++ take (Z.to_nat copy) tmp)
    else ret acc
  end.

Definition extent_read (ino : nvfs_inode) (max : Z) : M (list Z) :=
  let remain := Z.min (i_size ino) max in
  cache <- extent_load_all ino ;;
  read_blocks (ext_blocks cache) remain [].

(** The write loop of [extent_write]: the value of [j] when it ends. *)
Fixpoint write_blocks (n : nat) (j start : Z) (data : Z -> Z) (size : Z) : M Z :=
  match n with
  | O => ret j
  | S n =>
    w <- try (write_block (u32 (start + j)) (data_sector data size j)) ;;
    match w with
    | None => ret j
    | Some _ =>
      ignore (bitmap_set (u32 (start + j)) true) ;;;
      write_blocks n (j + 1) start data size
    end
  end.

Definition sectors_for (size : Z) : Z := u32 (size + NVFS_SECTOR_SIZE - 1) / NVFS_SECTOR_SIZE.

(** The inode as [extent_write] leaves it. *)
Definition extent_write (ino : nvfs_inode) (data : Z -> Z) (size : Z) : M nvfs_inode :=
  let needed := sectors_for size in
  if size =? 0 then
    ret (mkInode 0 (i_type ino) (i_ctime ino) 0 (i_extents ino) (i_mtime ino))
  else
    start <- bitmap_find needed ;;
    j <- write_blocks (Z.to_nat needed) 0 start data size ;;
    if j <? needed then
      release (map (fun k => u32 (start + k)) (seqZ 0 j)) ;;; fail
    else
      ret (mkInode size (i_type ino) (i_ctime ino) 1
             (mkExt start needed :: replicate (Z.to_nat (NVFS_MAX_EXTENTS - 1)) (mkExt 0 0))
             (i_mtime ino)).

(** ** Directories *)

Definition entry_named (name : list Z) (tmp : list Z) (e : Z) : bool :=
  negb (dirent_inode tmp e =? 0) && dirent_match tmp e name.

(** The first entry of a directory block that satisfies [p]. *)
Definition find_entry (p : list Z -> Z -> bool) (tmp : list Z) : option Z :=
  find_up (Z.to_nat dirents) 0 (p tmp).

Fixpoint dir_find_in (blocks : list Z) (name : list Z) : M Z :=
  match blocks with
  | [] => fail_errno NVFS_ERR_NOT_FOUND
  | b :: r =>
    tmp <- read_block b or_errno NVFS_ERR_IO ;;
    match find_entry (entry_named name) tmp with
    | Some e => ret_int (dirent_inode tmp e)
    | None => dir_find_in r name
    end
  end.

Definition dir_inode_read (dir_inode : Z) : M nvfs_inode :=
  ino <- inode_read dir_inode or_errno NVFS_ERR_IO ;;
  if negb (i_type ino =? NVFS_TYPE_DIR) then fail_errno NVFS_ERR_NOT_DIR else ret ino.

Definition dir_find (dir_inode : Z) (name : list Z) : M Z :=
  ino <- dir_inode_read dir_inode ;;
  cache <- extent_load_all ino or_errno NVFS_ERR_IO ;;
  dir_find_in (ext_blocks cache) name.

Definition set_extent (ino : nvfs_inode) (i : Z) (e : nvfs_extent) : nvfs_inode :=
  mkInode (i_size ino) (i_type ino) (i_ctime ino) (i_extent_count ino)
    (<[Z.to_nat i := e]> (i_extents ino)) (i_mtime ino).

(** [inode->extent_count = ec; inode->size += NVFS_SECTOR_SIZE;] *)
Definition grow_dir (ino : nvfs_inode) (ec : Z) : nvfs_inode :=
  mkInode (u32 (i_size ino + NVFS_SECTOR_SIZE)) (i_type ino) (i_ctime ino) ec (i_extents ino)
    (i_mtime ino).

Definition dir_add_extent (ino : nvfs_inode) (block : Z) : M nvfs_inode :=
  if i_extent_count ino <? NVFS_DIRECT_EXTENTS then
    let ei := i_extent_count ino in
    ret (grow_dir (set_extent ino ei (mkExt block 1)) (ei + 1))
  else
    let need_alloc := i_extent_count ino =? NVFS_DIRECT_EXTENTS in
    ino <- (if need_alloc then
              ind <- indirect_alloc or_errno NVFS_ERR_NO_SPACE ;;
              ret (set_extent ino NVFS_DIRECT_EXTENTS (mkExt ind NVFS_INDIRECT_MARKER))
            else ret ino) ;;
    let ind_lba := e_start (ext_at (i_extents ino) NVFS_DIRECT_EXTENTS) in
    let error_free_indirect (e : Z) : M nvfs_inode :=
      set_errno e ;;;
      (if need_alloc then ignore (bitmap_set ind_lba false) else ret tt) ;;; fail in
    let indirect_count := u32 (i_extent_count ino - NVFS_DIRECT_EXTENTS) in
    ibuf <- (if 0 <? indirect_count then try (indirect_read_extents ind_lba NVFS_INDIRECT_ENTS)
             else ret (Some [])) ;;
    match ibuf with
    | None => error_free_indirect NVFS_ERR_IO
    | Some ibuf =>
      if NVFS_INDIRECT_ENTS <=? indirect_count then error_free_indirect NVFS_ERR_NO_SPACE
      else
        let ibuf := take (Z.to_nat indirect_count) ibuf ++ [mkExt block 1] in
        w <- try (indirect_write_extents ind_lba ibuf (indirect_count + 1)) ;;
        match w with
        | None => error_free_indirect NVFS_ERR_IO
        | Some _ => ret (grow_dir ino (NVFS_DIRECT_EXTENTS + (indirect_count + 1)))
        end
    end.

Definition entry_free (tmp : list Z) (e : Z) : bool := dirent_inode tmp e =? 0.

(** The first-slot loop of [dir_add]: whether the entry was stored. *)
Fixpoint dir_add_in (blocks : list Z) (nd : list Z) : M bool :=
  match blocks with
  | [] => ret false
  | b :: r =>
    tmp <- read_block b or_errno NVFS_ERR_IO ;;
    match find_entry entry_free tmp with
    | Some e =>
      write_block b (put_bytes tmp (e * NVFS_DIRENT_SIZE) nd) or_errno NVFS_ERR_IO ;;;
      ret true
    | None => dir_add_in r nd
    end
  end.

(** [inode.mtime = now_sec(); return inode_write(dir_inode, &inode);] *)
Definition touch_dir (dir_inode : Z) (ino : nvfs_inode) : M unit :=
  t <- now_sec ;; inode_write dir_inode (inode_set_mtime ino t).

Definition dir_add (dir_inode : Z) (name : list Z) (child_inode : Z) : M unit :=
  ino <- dir_inode_read dir_inode ;;
  found <- try (dir_find dir_inode name) ;;
  match found with
  | Some _ => fail_errno NVFS_ERR_EXISTS
  | None =>
    let nd := new_dirent name child_inode in
    cache <- extent_load_all ino or_errno NVFS_ERR_IO ;;
    stored <- dir_add_in (ext_blocks cache) nd ;;
    if stored : bool then touch_dir dir_inode ino
    else
      new_block <- bitmap_find 1 or_errno NVFS_ERR_NO_SPACE ;;
      ignore (bitmap_set new_block true) ;;;
      write_block new_block (put_bytes zero_sector 0 nd) or_errno NVFS_ERR_IO ;;;
      r <- try (dir_add_extent ino new_block) ;;
      match r with
      | None => ignore (bitmap_set new_block false) ;;; fail
      | Some ino => touch_dir dir_inode ino or_errno NVFS_ERR_IO
      end
  end.

Fixpoint dir_remove_in (blocks : list Z) (name : list Z) : M unit :=
  match blocks with
  | [] => fail_errno NVFS_ERR_NOT_FOUND
  | b :: r =>
    tmp <- read_block b or_errno NVFS_ERR_IO ;;
    match find_entry (entry_named name) tmp with
    | Some e => write_block b (put32 tmp (e * NVFS_DIRENT_SIZE + 28) 0) or_errno NVFS_ERR_IO
    | None => dir_remove_in r name
    end
  end.

Definition dir_remove (dir_inode : Z) (name : list Z) : M unit :=
  ino <- dir_inode_read dir_inode ;;
  cache <- extent_load_all ino or_errno NVFS_ERR_IO ;;
  dir_remove_in (ext_blocks cache) name ;;;
  touch_dir dir_inode ino.

Definition entry_used (tmp : list Z) (e : Z) : bool := negb (dirent_inode tmp e =? 0).

(** Unreadable blocks are skipped. *)
Fixpoint dir_empty_in (blocks : list Z) : M bool :=
  match blocks with
  | [] => ret true
  | b :: r =>
    tmp <- try (read_block b) ;;
    match tmp with
    | None => dir_empty_in r
    | Some tmp =>
      match find_entry entry_used tmp with
      | Some _ => ret false
      | None => dir_empty_in r
      end
    end
  end.

Definition dir_empty (dir_inode : Z) : M bool :=
  ino <- try (inode_read dir_inode) ;;
  match ino with
  | None => ret false
  | Some ino =>
    cache <- try (extent_load_all ino) ;;
    match cache with
    | None => ret false
    | Some cache => dir_empty_in (ext_blocks cache)
    end
  end.

Definition entry_for (inum : Z) (tmp : list Z) (e : Z) : bool := dirent_inode tmp e =? inum.

(** Whether an entry for [inum] is in the blocks; unreadable ones are skipped. *)
Fixpoint has_child (blocks : list Z) (inum : Z) : M bool :=
  match blocks with
  | [] => ret false
  | b :: r =>
    tmp <- try (read_block b) ;;
    match tmp with
    | None => has_child r inum
    | Some tmp =>
      match find_entry (entry_for inum) tmp with
      | Some _ => ret true
      | None => has_child r inum
      end
    end
  end.

Fixpoint find_parent_from (n : nat) (i inum : Z) : M Z :=
  match n with
  | O => fail
  | S n =>
    ino <- try (inode_read i) ;;
    match ino with
    | None => find_parent_from n (i + 1) inum
    | Some ino =>
      if negb (i_type ino =? NVFS_TYPE_DIR) then find_parent_from n (i + 1) inum
      else
        cache <- try (extent_load_all ino) ;;
        match cache with
        | None => find_parent_from n (i + 1) inum
        | Some cache =>
          b <- has_child (ext_blocks cache) inum ;;
          if b : bool then ret_int i else find_parent_from n (i + 1) inum
        end
    end
  end.

Definition find_parent (inum : Z) : M Z :=
  if inum =? NVFS_ROOT_INODE then fail
  else g <- get sb ;; find_parent_from (Z.to_nat (sb_inode_count g)) 0 inum.

(** ** Paths *)

Definition DOT : Z := 46.
Definition SLASH : Z := 47.

(** [s[0] == '.' && s[1] == '.' && s[2] == 0], and the same for one dot *)
Definition is_dotdot (s : list Z) : bool := bool_decide (s = [DOT; DOT]).

Definition is_dot (s : list Z) : bool := bool_decide (s = [DOT]).

(** The tail of [resolve_path]: what becomes of the last component. *)
Definition resolve_last (cur : Z) (name : list Z) : M (Z * list Z) :=
  if is_dotdot name then
    p <- find_parent cur or_errno NVFS_ERR_PATH ;; ret (p, [])
  else if is_dot name then ret (cur, [])
  else ret (cur, to_upper name).

(** One component before the last. *)
Definition resolve_comp (cur : Z) (comp : list Z) : M Z :=
  if is_dotdot comp then find_parent cur or_errno NVFS_ERR_PATH
  else if is_dot comp then ret cur
  else
    inum <- dir_find cur (to_upper comp) or_errno NVFS_ERR_NOT_FOUND ;;
    ino <- inode_read inum or_errno NVFS_ERR_IO ;;
    if negb (i_type ino =? NVFS_TYPE_DIR) then fail_errno NVFS_ERR_NOT_DIR else ret inum.

(** [buf[a .. b)] *)
Definition sub (buf : list Z) (a b : Z) : list Z := take (Z.to_nat (b - a)) (drop (Z.to_nat a) buf).

(** [for (i = start; i <= last_slash; i++)] with the running [seg_start] and
    [cur]; [n] iterations are left. *)
Fixpoint resolve_loop (n : nat) (i seg_start cur last_slash : Z) (buf : list Z) : M (Z * Z) :=
  match n with
  | O => ret (cur, seg_start)
  | S n =>
    if (i =? last_slash) || (byte_at buf i =? SLASH) then
      cur <- (if seg_start <? i then resolve_comp cur (sub buf seg_start i) else ret cur) ;;
      resolve_loop n (i + 1) (i + 1) cur last_slash buf
    else resolve_loop n (i + 1) seg_start cur last_slash buf
  end.

Definition last_slash_from (start : Z) (buf : list Z) : Z :=
  for_up (Z.to_nat (Z.of_nat (length buf) - start)) start 1
    (fun i l => if byte_at buf i =? SLASH then i else l) (-1).

(** [resolve_path]: the parent inode and the last component. *)
Definition resolve_path (path : list Z) : M (Z * list Z) :=
  let buf := take 255 path in
  let len := Z.of_nat (length buf) in
  cwd <- get nvfs_cwd ;;
  if len =? 0 then ret (cwd, [])
  else
    let absolute := byte_at buf 0 =? SLASH in
    let cur := if absolute then NVFS_ROOT_INODE else cwd in
    let start := if absolute then 1 else 0 in
    let last_slash := last_slash_from start buf in
    if last_slash <? 0 then resolve_last cur (sub buf start len)
    else
      r <- resolve_loop (Z.to_nat (last_slash - start + 1)) start start cur last_slash buf ;;
      let '(cur, seg_start) := r in
      resolve_last cur (sub buf seg_start len).

(** ** Public interface *)

Definition mount_candidates : list (Z * Z * Z) :=
  [(0, 0, 0); (0, 0, 2880); (0, 1, 0); (0, 1, 2880); (1, 0, 0); (1, 0, 2880); (1, 1, 0); (1, 1, 2880)].

(** [buf[0..3] == "NVFS"] *)
Definition has_magic (buf : list Z) : bool :=
  (byte_at buf 0 =? 78) && (byte_at buf 1 =? 86) && (byte_at buf 2 =? 70) && (byte_at buf 3 =? 83).

Definition sb_load (ch dr offset : Z) (buf : list Z) : geo :=
  let count := get32 buf 28 in
  let blocks := get32 buf 36 in
  mkGeo ch dr offset (get32 buf 32) (get32 buf 24) count
    (if blocks =? 0 then count / inodes_per_sec else blocks) (get32 buf 16) (get32 buf 20).

Definition sb_invalid (g : geo) : bool :=
  (sb_bitmap_start g <? 2) || (sb_bitmap_sectors g =? 0) || (sb_inode_blocks g =? 0) ||
  (sb_inode_count g =? 0) || (sb_inode_start g <? u32 (sb_bitmap_start g + sb_bitmap_sectors g)) ||
  (sb_data_start g <? u32 (sb_inode_start g + sb_inode_blocks g)).

(** Select a drive and an offset before looking for the superblock. *)
Definition set_drive (g : geo) (ch dr offset : Z) : geo :=
  mkGeo ch dr offset (sb_data_start g) (sb_inode_start g) (sb_inode_count g) (sb_inode_blocks g)
    (sb_bitmap_start g) (sb_bitmap_sectors g).

Definition set_mounted : M unit := fun s =>
  (Some tt, mkFs (nvfs_errno s) true NVFS_ROOT_INODE (sb s) (dev s)).

Fixpoint mount_from (l : list (Z * Z * Z)) : M unit :=
  match l with
  | [] => fail
  | (ch, dr, offset) :: r =>
    d <- get dev ;;
    if negb (ata_drive_exists d ch dr) then mount_from r
    else
      g <- get sb ;;
      set_sb (set_drive g ch dr offset) ;;;
      buf <- try (read_sector (u32 (offset + 1))) ;;
      match buf with
      | None => mount_from r
      | Some buf =>
        if has_magic buf then
          let g := sb_load ch dr offset buf in
          set_sb g ;;;
          if sb_invalid g then mount_from r else set_mounted
        else mount_from r
      end
  end.

Definition nvfs_mount : M unit := mount_from mount_candidates.

Definition check_mounted : M unit :=
  m <- get mounted ;; if m : bool then ret tt else fail_errno NVFS_ERR_NO_MOUNT.

(** The common prologue: resolve the path and refuse an empty name. *)
Definition resolve_name (path : list Z) : M (Z * list Z) :=
  check_mounted ;;;
  r <- resolve_path path ;;
  match snd r with
  | [] => fail_errno NVFS_ERR_PATH
  | _ => ret r
  end.

(** One line of a listing: the [DIR] mark, the entry's 28 name bytes, the
    size, and whether it says <DIR>. *)
Definition ls_line : Type := bool * list Z * Z * bool.

Fixpoint list_entries (n : nat) (e : Z) (tmp : list Z) (junk : Z -> nvfs_inode) (out : list ls_line) :
    M (list ls_line) :=
  match n with
  | O => ret out
  | S n =>
    if dirent_inode tmp e =? 0 then list_entries n (e + 1) tmp junk out
    else
      r <- try (inode_read (dirent_inode tmp e)) ;;
      let ci := default (junk (Z.of_nat (length out))) r in
      let isdir := i_type ci =? NVFS_TYPE_DIR in
      let mark := match r with Some _ => isdir | None => false end in
      list_entries n (e + 1) tmp junk
        (out ++ [(mark, get_bytes tmp (e * NVFS_DIRENT_SIZE) 28, i_size ci, isdir)])
  end.

Fixpoint list_blocks (blocks : list Z) (junk : Z -> nvfs_inode) (out : list ls_line) :
    M (list ls_line) :=
  match blocks with
  | [] => ret out
  | b :: r =>
    tmp <- read_block b ;;
    out <- list_entries (Z.to_nat dirents) 0 tmp junk out ;;
    list_blocks r junk out
  end.

(** [junk] is the uninitialised [ci] of an entry whose inode cannot be read. *)
Definition nvfs_list (junk : Z -> nvfs_inode) (path : list Z) : M (list ls_line) :=
  check_mounted ;;;
  cwd <- get nvfs_cwd ;;
  dir_inode <- (match path with
    | [] => ret cwd
    | _ =>
      r <- resolve_path path ;;
      match snd r with
      | [] => ret (fst r)
      | name =>
        inum <- dir_find (fst r) name ;;
        ino <- inode_read inum ;;
        if negb (i_type ino =? NVFS_TYPE_DIR) then fail else ret inum
      end
    end) ;;
  ino <- inode_read dir_inode ;;
  cache <- extent_load_all ino ;;
  list_blocks (ext_blocks cache) junk [].

Definition nvfs_read (path : list Z) (max : Z) : M (list Z) :=
  r <- resolve_name path ;;
  inum <- dir_find (fst r) (snd r) ;;
  ino <- inode_read inum or_errno NVFS_ERR_IO ;;
  if negb (i_type ino =? NVFS_TYPE_FILE) then fail_errno NVFS_ERR_NOT_FILE
  else extent_read ino max.

(** The indirect block of an inode, when it has one. *)
Definition indirect_of (ino : nvfs_inode) : option Z :=
  if NVFS_DIRECT_EXTENTS <? i_extent_count ino
  then Some (e_start (ext_at (i_extents ino) NVFS_DIRECT_EXTENTS)) else None.

(** Shadow paging, shared by [nvfs_write] and [nvfs_append]: write the data
    to new blocks, store the inode, then free the old blocks. *)
Definition replace_contents (inum : Z) (ino : nvfs_inode) (data : Z -> Z) (size : Z) : M unit :=
  old_cache <- extent_load_all ino or_errno NVFS_ERR_IO ;;
  let old_ind_blk := default 0 (indirect_of ino) in
  ino <- extent_write ino data size or_errno NVFS_ERR_NO_SPACE ;;
  t <- now_sec ;;
  inode_write inum (inode_set_mtime ino t) or_errno NVFS_ERR_IO ;;;
  release (ext_blocks old_cache) ;;;
  if negb (old_ind_blk =? 0) then ignore (bitmap_set old_ind_blk false) else ret tt.

(** The inode [nvfs_write] and [nvfs_mkdir] build on the stack; [junk] is
    what [extents] holds. *)
Definition stack_inode (type t : Z) (junk : list nvfs_extent) : nvfs_inode :=
  inode_set_ctime (mkInode 0 type (0, 0, 0) 0 junk t) t.

(** The new-file half of [nvfs_write]. *)
Definition create_file (junk : list nvfs_extent) (parent : Z) (name : list Z) (data : Z -> Z) (size : Z) :
    M unit :=
  inum <- inode_alloc NVFS_TYPE_FILE ;;
  t <- now_sec ;;
  w <- try (extent_write (stack_inode NVFS_TYPE_FILE t junk) data size) ;;
  match w with
  | None => ignore (inode_free inum) ;;; fail_errno NVFS_ERR_NO_SPACE
  | Some ino =>
    w <- try (inode_write inum ino) ;;
    match w with
    | None =>
      tmp_cache <- try (extent_load_all ino) ;;
      release (ext_blocks (default [] tmp_cache)) ;;;
      (match indirect_of ino with
       | Some b => ignore (bitmap_set b false)
       | None => ret tt
       end) ;;;
      ignore (inode_free inum) ;;;
      fail_errno NVFS_ERR_IO
    | Some _ =>
      w <- try (dir_add parent name inum) ;;
      match w with
      | None => ignore (inode_free inum) ;;; fail
      | Some _ => ret tt
      end
    end
  end.

Definition nvfs_write (junk : list nvfs_extent) (path : list Z) (data : Z -> Z) (size : Z) : M unit :=
  r <- resolve_name path ;;
  let '(parent, name) := r in
  found <- try (dir_find parent name) ;;
  match found with
  | Some inum =>
    ino <- inode_read inum or_errno NVFS_ERR_IO ;;
    replace_contents inum ino data size
  | None => create_file junk parent name data size
  end.

Definition nvfs_delete (path : list Z) : M unit :=
  r <- resolve_name path ;;
  let '(parent, name) := r in
  inum <- dir_find parent name ;;
  ino <- inode_read inum or_errno NVFS_ERR_IO ;;
  if negb (i_type ino =? NVFS_TYPE_FILE) then fail_errno NVFS_ERR_NOT_FILE
  else
    inode_free inum or_errno NVFS_ERR_IO ;;;
    dir_remove parent name or_errno NVFS_ERR_IO.

Definition nvfs_mkdir (junk : list nvfs_extent) (path : list Z) : M unit :=
  r <- resolve_name path ;;
  let '(parent, name) := r in
  inum <- inode_alloc NVFS_TYPE_DIR ;;
  t <- now_sec ;;
  w <- try (inode_write inum (stack_inode NVFS_TYPE_DIR t junk)) ;;
  match w with
  | None => ignore (inode_free inum) ;;; fail_errno NVFS_ERR_IO
  | Some _ =>
    w <- try (dir_add parent name inum) ;;
    match w with
    | None => ignore (inode_free inum) ;;; fail
    | Some _ => ret tt
    end
  end.

Definition nvfs_rmdir (path : list Z) : M unit :=
  r <- resolve_name path ;;
  let '(parent, name) := r in
  inum <- dir_find parent name ;;
  ino <- inode_read inum or_errno NVFS_ERR_IO ;;
  if negb (i_type ino =? NVFS_TYPE_DIR) then fail_errno NVFS_ERR_NOT_DIR
  else
    empty <- dir_empty inum ;;
    if negb empty then fail_errno NVFS_ERR_DIR_BUSY
    else
      inode_free inum or_errno NVFS_ERR_IO ;;;
      dir_remove parent name or_errno NVFS_ERR_IO.

(** [out_inode] is the value returned. *)
Definition nvfs_chdir (path : list Z) : M Z :=
  check_mounted ;;;
  match path with
  | [] => set_cwd NVFS_ROOT_INODE ;;; ret NVFS_ROOT_INODE
  | _ =>
    r <- resolve_path path ;;
    match snd r with
    | [] => set_cwd (fst r) ;;; ret (fst r)
    | name =>
      inum <- dir_find (fst r) name ;;
      ino <- inode_read inum or_errno NVFS_ERR_IO ;;
      if negb (i_type ino =? NVFS_TYPE_DIR) then fail_errno NVFS_ERR_NOT_DIR
      else set_cwd inum ;;; ret inum
    end
  end.

Definition nvfs_get_cwd : M Z := get nvfs_cwd.

Definition nvfs_is_mounted : M bool := get mounted.

(** The buffer of [nvfs_append]: the old contents, the new bytes after
    them, and elsewhere what [malloc] left. *)
Definition append_buffer (junk old_bytes : list Z) (old add : Z) (data : Z -> Z) (k : Z) : Z :=
  if (old <=? k) && (k <? old + add) then data (k - old)
  else if k <? Z.of_nat (length old_bytes) then byte_at old_bytes k
  else byte_at junk k.

Definition nvfs_append (path : list Z) (data : Z -> Z) (size : Z) : M unit :=
  r <- resolve_name path ;;
  inum <- dir_find (fst r) (snd r) ;;
  ino <- inode_read inum or_errno NVFS_ERR_IO ;;
  if negb (i_type ino =? NVFS_TYPE_FILE) then fail_errno NVFS_ERR_NOT_FILE
  else
    junk <- (fun s => let '(b, d) := get_buffer (dev s) 4096 in (b, with_dev s d)) or_errno NVFS_ERR_IO ;;
    let old := if 4096 <? i_size ino then 4096 else i_size ino in
    let remain := 4096 - old in
    let add := if remain <? size then remain else size in
    bytes <- extent_read ino old or_errno NVFS_ERR_IO ;;
    replace_contents inum ino (append_buffer junk bytes old add data) (old + add).

(** ** nvfs_path_string *)

(** [components[depth]]: the entry's name up to its NUL, 27 bytes at most. *)
Definition entry_name (tmp : list Z) (e : Z) : list Z :=
  let bytes := get_bytes tmp (e * NVFS_DIRENT_SIZE) NVFS_MAX_NAME in
  match find_up (Z.to_nat NVFS_MAX_NAME) 0 (fun k => byte_at bytes k =? 0) with
  | Some k => take (Z.to_nat k) bytes
  | None => bytes
  end.

(** The name under which the blocks of the parent list [cur]. *)
Fixpoint child_name (blocks : list Z) (cur : Z) : M (option (list Z)) :=
  match blocks with
  | [] => ret None
  | b :: r =>
    tmp <- try (read_block b) ;;
    match tmp with
    | None => child_name r cur
    | Some tmp =>
      match find_entry (entry_for cur) tmp with
      | Some e => ret (Some (entry_name tmp e))
      | None => child_name r cur
      end
    end
  end.

(** The [while] loop; [comps] is [components[0 .. depth)].  The result is
    [None] when the fuel runs out. *)
Fixpoint path_loop (fuel : nat) (cur : Z) (comps : list (list Z)) : M (option (list (list Z))) :=
  match fuel with
  | O => ret None
  | S fuel =>
    if (cur =? NVFS_ROOT_INODE) || (16 <=? Z.of_nat (length comps)) then ret (Some comps)
    else
      parent <- try (find_parent cur) ;;
      match parent with
      | None => ret (Some comps)
      | Some parent =>
        pinode <- try (inode_read parent) ;;
        comps <- (match pinode with
          | None => ret comps
          | Some pinode =>
            cache <- try (extent_load_all pinode) ;;
            name <- child_name (ext_blocks (default [] cache)) cur ;;
            ret (match name with Some n => comps ++ [n] | None => comps end)
          end) ;;
        path_loop fuel parent comps
      end
  end.

(** [buf[pos++] = ...] while [pos < size - 1] *)
Definition clip (size : Z) (s : list Z) : list Z := take (Z.to_nat (i32 size - 1)) s.

(** The components, root first, with a slash before each; cut to the buffer. *)
Fixpoint join_path (size : Z) (comps : list (list Z)) (buf : list Z) : list Z :=
  match comps with
  | [] => buf
  | c :: r =>
    if negb (Z.of_nat (length buf) <? i32 size - 1) then buf
    else
      let buf := clip size (buf ++ c) in
      join_path size r (match r with [] => buf | _ => clip size (buf ++ [SLASH]) end)
  end.

Definition nvfs_path_string (fuel : nat) (inum size : Z) : M (option (list Z)) :=
  if size <? 2 then fail
  else if inum =? NVFS_ROOT_INODE then ret (Some [SLASH])
  else
    comps <- path_loop fuel inum [] ;;
    ret (option_map (fun c => join_path size (reverse c) [SLASH]) comps).

End nvfs_ops.

End Nvfs.
