(* ===== verification/NvfsLayout.v ===== *)
(** * On-disk layouts of the file system

    The byte layouts of inodes, extent arrays and directory entries: what is
    written is read back, and a store changes only its own bytes, so the
    neighbours in a sector keep their contents. *)
From S2P Require Import Prelude Bytes BlockDev Nvfs.

Import Nvfs.

Definition is_u32 (x : Z) : Prop := 0 <= x < 4294967296.

Definition ext_wf (e : nvfs_extent) : Prop := is_u32 (e_start e) /\ is_u32 (e_count e).

(** An inode whose fields fit their C types. *)
Definition inode_wf (i : nvfs_inode) : Prop :=
  is_u32 (i_size i) /\ is_byte (i_type i) /\
  (let '(c0, c1, c2) := i_ctime i in is_byte c0 /\ is_byte c1 /\ is_byte c2) /\
  is_u32 (i_extent_count i) /\ length (i_extents i) = 14%nat /\ Forall ext_wf (i_extents i) /\
  is_u32 (i_mtime i).

(** What [inode_read] makes of a stored inode: the extent count is capped. *)
Definition clamp_inode (i : nvfs_inode) : nvfs_inode :=
  mkInode (i_size i) (i_type i) (i_ctime i)
    (if NVFS_MAX_EXTENTS <? i_extent_count i then NVFS_MAX_EXTENTS else i_extent_count i)
    (i_extents i) (i_mtime i).

(** ** Extent arrays *)

(** The store loop over [n] extents at byte [base]. *)
Definition put_extents (n : nat) (base : Z) (exts : list nvfs_extent) (buf : list Z) : list Z :=
  for_up n 0 1 (fun i buf => put_extent buf (base + i * 8) (ext_at exts i)) buf.

Lemma length_put_extent (buf : list Z) (a : Z) (e : nvfs_extent) :
  length (put_extent buf a e) = length buf.
Proof. unfold put_extent. by rewrite !length_put32. Qed.

Lemma is_bytes_put_extent (buf : list Z) (a : Z) (e : nvfs_extent) :
  is_bytes buf -> is_bytes (put_extent buf a e).
Proof. intros. by do 2 apply is_bytes_put32. Qed.

Lemma put_extents_spec (n : nat) (base : Z) (exts : list nvfs_extent) (buf : list Z) :
  0 <= base -> base + 8 * Z.of_nat n <= Z.of_nat (length buf) ->
  let out := put_extents n base exts buf in
  length out = length buf /\ (is_bytes buf -> is_bytes out) /\
  (forall i, 0 <= i < Z.of_nat n ->
     get32 out (base + i * 8) = u32 (e_start (ext_at exts i)) /\
     get32 out (base + i * 8 + 4) = u32 (e_count (ext_at exts i))) /\
  (forall j, 0 <= j -> j < base \/ base + 8 * Z.of_nat n <= j -> byte_at out j = byte_at buf j).
Proof.
  intros Hb Hl.
  pose (P := fun k (b : list Z) => length b = length buf /\ (is_bytes buf -> is_bytes b) /\
    (forall i, 0 <= i < k -> get32 b (base + i * 8) = u32 (e_start (ext_at exts i)) /\
       get32 b (base + i * 8 + 4) = u32 (e_count (ext_at exts i))) /\
    (forall j, 0 <= j -> j < base \/ base + 8 * k <= j -> byte_at b j = byte_at buf j)).
  assert (HP : P (0 + Z.of_nat n * 1) (put_extents n base exts buf)).
  { apply (for_up_ind P).
    - split; [reflexivity|]. split; [tauto|]. split; [intros; lia|auto].
    - intros k b Hk (Hlen & Hby & Hin & Hout). replace (0 + k * 1) with k in * by lia.
      replace (0 + (k + 1) * 1) with (k + 1) by lia.
      split; [rewrite length_put_extent; exact Hlen|].
      split; [intros; apply is_bytes_put_extent; auto|]. unfold put_extent. split.
      + intros i Hi. destruct (Z.eq_dec i k) as [->|].
        * rewrite get32_put32_ne, !get32_put32_eq by (rewrite ?length_put32; lia). auto.
        * rewrite !get32_put32_ne by lia. apply Hin. lia.
      + intros j Hj Hr. rewrite !byte_at_put32_ne by lia. apply Hout; lia. }
  replace (0 + Z.of_nat n * 1) with (Z.of_nat n) in HP by lia. exact HP.
Qed.

Lemma get32_ext (l l' : list Z) (i : Z) :
  (forall j, i <= j < i + 4 -> byte_at l j = byte_at l' j) -> get32 l i = get32 l' i.
Proof. intros H. unfold get32. rewrite !H by lia. reflexivity. Qed.

(** ** Inodes *)

Lemma inode_put_unfold (buf : list Z) (off : Z) (i : nvfs_inode) (c0 c1 c2 : Z) :
  i_ctime i = (c0, c1, c2) ->
  inode_put buf off i =
    put32 (put_extents 14 (off + 12) (i_extents i)
      (put32 (set_byte (set_byte (set_byte (set_byte (put32 buf off (i_size i))
        (off + 4) (i_type i)) (off + 5) c0) (off + 6) c1) (off + 7) c2)
        (off + 8) (i_extent_count i))) (off + 124) (i_mtime i).
Proof. intros E. unfold inode_put. rewrite E. reflexivity. Qed.

Lemma inode_put_wf (buf : list Z) (off : Z) (i : nvfs_inode) :
  0 <= off -> off + 128 <= Z.of_nat (length buf) ->
  length (inode_put buf off i) = length buf /\ (is_bytes buf -> is_bytes (inode_put buf off i)) /\
  (forall j, 0 <= j -> j < off \/ off + 128 <= j -> byte_at (inode_put buf off i) j = byte_at buf j).
Proof.
  intros Ho Hl. destruct (i_ctime i) as [[c0 c1] c2] eqn:Ec.
  rewrite (inode_put_unfold _ _ _ _ _ _ Ec).
  match goal with |- context [put_extents 14 _ _ ?b] => set (b0 := b) end.
  assert (Hb0 : length b0 = length buf)
    by (unfold b0; by rewrite ?length_put32, ?length_set_byte, ?length_put32).
  destruct (put_extents_spec 14 (off + 12) (i_extents i) b0) as (H1 & H2 & _ & H4); [lia..|].
  rewrite length_put32. split; [lia|]. split.
  - intros Hby. apply is_bytes_put32, H2. unfold b0. apply is_bytes_put32.
    do 4 apply is_bytes_set_byte. by apply is_bytes_put32.
  - intros j Hj Hr. rewrite byte_at_put32_ne, H4 by lia. unfold b0.
    rewrite byte_at_put32_ne by lia. rewrite !byte_at_set_ne by lia.
    by rewrite byte_at_put32_ne by lia.
Qed.

Lemma map_ext_at (l : list nvfs_extent) (n : Z) :
  Z.of_nat (length l) = n -> map (ext_at l) (seqZ 0 n) = l.
Proof.
  intros <-. apply list_eq. intros k. rewrite list_lookup_fmap.
  destruct (decide (k < length l)%nat) as [Hk|Hk].
  - rewrite lookup_seqZ_lt by lia. simpl. unfold ext_at.
    rewrite Z.add_0_l, Nat2Z.id. by destruct (lookup_lt_is_Some_2 l k Hk) as [e ->].
  - rewrite lookup_seqZ_ge by lia. simpl. by rewrite lookup_ge_None_2 by lia.
Qed.

Lemma u32_ext (e : nvfs_extent) : ext_wf e -> mkExt (u32 (e_start e)) (u32 (e_count e)) = e.
Proof. intros [H1 H2]. unfold is_u32 in *. rewrite !u32_small by lia. by destruct e. Qed.

Lemma ext_at_wf (l : list nvfs_extent) (i : Z) : Forall ext_wf l -> ext_wf (ext_at l i).
Proof.
  intros H. unfold ext_at. destruct (l !! Z.to_nat i) as [e|] eqn:E; simpl.
  - exact (Forall_lookup_1 _ _ _ _ H E).
  - split; unfold is_u32; simpl; lia.
Qed.

(** An inode is read back as it was written, its extent count capped. *)
Lemma inode_get_put (buf : list Z) (off : Z) (i : nvfs_inode) :
  0 <= off -> off + 128 <= Z.of_nat (length buf) -> inode_wf i ->
  inode_get (inode_put buf off i) off = clamp_inode i.
Proof.
  intros Ho Hl (Hs & Ht & Hc & He & Hel & Hew & Hm).
  destruct (i_ctime i) as [[c0 c1] c2] eqn:Ec. destruct Hc as (Hc0 & Hc1 & Hc2).
  rewrite (inode_put_unfold _ _ _ _ _ _ Ec).
  match goal with |- context [put_extents 14 _ _ ?b] => set (b0 := b) end.
  assert (Hb0 : length b0 = length buf)
    by (unfold b0; by rewrite ?length_put32, ?length_set_byte, ?length_put32).
  destruct (put_extents_spec 14 (off + 12) (i_extents i) b0) as (H1 & _ & H3 & H4); [lia..|].
  set (b1 := put_extents _ _ _ _) in *. unfold inode_get, clamp_inode. rewrite Ec.
  unfold is_u32, is_byte in *.
  assert (Hlow : forall j, 0 <= j < off + 12 -> byte_at b1 j = byte_at b0 j) by (intros; apply H4; lia).
  assert (G : forall j, 0 <= j -> j + 4 <= off + 12 -> get32 b1 j = get32 b0 j)
    by (intros; apply get32_ext; intros; apply Hlow; lia).
  assert (Hlens : forall v, length (set_byte (put32 buf off (i_size i)) (off + 4) v) = length buf)
    by (intros; by rewrite length_set_byte, length_put32).
  assert (Eec : get32 (put32 b1 (off + 124) (i_mtime i)) (off + 8) = i_extent_count i).
  { rewrite get32_put32_ne, G by lia. unfold b0.
    rewrite get32_put32_eq, u32_small by (rewrite ?length_set_byte, ?length_put32; lia). reflexivity. }
  f_equal.
  - rewrite get32_put32_ne, G by lia. unfold b0. rewrite get32_put32_ne by lia.
    rewrite !get32_set_byte_ne by lia. rewrite get32_put32_eq, u32_small by lia. reflexivity.
  - rewrite byte_at_put32_ne, Hlow by lia. unfold b0. rewrite byte_at_put32_ne by lia.
    rewrite !byte_at_set_ne by lia. rewrite byte_at_set_eq, u8_small by (rewrite ?length_put32; lia).
    reflexivity.
  - rewrite !byte_at_put32_ne, !Hlow by lia. unfold b0. rewrite !byte_at_put32_ne by lia.
    repeat first [rewrite byte_at_set_eq by (rewrite ?length_set_byte, ?length_put32; lia)
                 |rewrite byte_at_set_ne by lia]. rewrite !u8_small by lia. reflexivity.
  - rewrite Eec. reflexivity.
  - change NVFS_MAX_EXTENTS with 14. rewrite <- (map_ext_at (i_extents i) 14) by lia.
    apply list_fmap_ext. intros k x Hx. apply lookup_seqZ in Hx as [-> Hk].
    rewrite !get32_put32_ne by lia. replace (off + 12 + (0 + Z.of_nat k) * 8 + 4)
      with (off + 12 + Z.of_nat k * 8 + 4) by lia.
    replace (off + 12 + (0 + Z.of_nat k) * 8) with (off + 12 + Z.of_nat k * 8) by lia.
    destruct (H3 (Z.of_nat k) ltac:(lia)) as [-> ->]. rewrite Z.add_0_l.
    apply u32_ext, ext_at_wf, Hew.
  - rewrite get32_put32_eq, u32_small by lia. reflexivity.
Qed.

(** A store to another slot, or outside the inode's bytes, is not seen. *)
Lemma inode_get_ext (b b' : list Z) (off : Z) :
  (forall j, off <= j < off + 128 -> byte_at b' j = byte_at b j) -> inode_get b' off = inode_get b off.
Proof.
  intros H. assert (G : forall j, off <= j -> j + 4 <= off + 128 -> get32 b' j = get32 b j)
    by (intros; apply get32_ext; intros; apply H; lia).
  unfold inode_get. rewrite !G, !H by lia. f_equal.
  apply list_fmap_ext. intros k x Hx. apply lookup_seqZ in Hx as [-> Hk].
  change NVFS_MAX_EXTENTS with 14 in Hk. rewrite !G by lia. reflexivity.
Qed.
