(* ===== verification/NvfsDisk.v ===== *)
(** * Reasoning about file-system computations

    Two ways to describe a computation of [Nvfs.M].  [touches P m]: whatever
    fails, [m] changes no sector outside [P] and none of the file system's
    variables but [nvfs_errno].  [exact f m]: on a working drive [m] returns
    what the pure function [f] computes from the superblock and the sectors;
    [sound f m] is the half of it that needs no working drive.  All compose
    along the monad. *)
From S2P Require Import Prelude Bytes BlockDev Nvfs NvfsLayout.

Import Nvfs.
Open Scope nvfs_scope.

Section disk.
Context {D : Type} `{ML : MachineLaws D}.
Abbreviation M := (@M D).

(** The mounted drive's sectors. *)
Definition view (s : fs D) (p : Z) : list Z := sector (dev s) (nvfs_ch (sb s)) (nvfs_dr (sb s)) p.

Definition frame (P : Z -> Prop) (s s' : fs D) : Prop :=
  mounted s' = mounted s /\ nvfs_cwd s' = nvfs_cwd s /\ sb s' = sb s /\
  forall p, ~ P p -> view s' p = view s p.

Definition nothing (g : geo) (p : Z) : Prop := False.

Definition touches (P : geo -> Z -> Prop) {A} (m : M A) : Prop :=
  forall s r s', m s = (r, s') -> frame (P (sb s)) s s'.

Lemma frame_refl (P : Z -> Prop) (s : fs D) : frame P s s.
Proof. by repeat split. Qed.

Lemma frame_trans (P : Z -> Prop) (s1 s2 s3 : fs D) : frame P s1 s2 -> frame P s2 s3 -> frame P s1 s3.
Proof.
  intros (Ma & Ca & Sa & Ha) (Mb & Cb & Sb & Hb). repeat split; try congruence.
  intros p Hp. rewrite Hb, Ha; auto.
Qed.

Lemma frame_weaken (P Q : Z -> Prop) (s s' : fs D) : frame P s s' -> (forall p, P p -> Q p) -> frame Q s s'.
Proof. intros (Ma & Ca & Sa & Ha) HPQ. repeat split; auto. Qed.

Lemma touches_weaken (P Q : geo -> Z -> Prop) {A} (m : M A) :
  touches P m -> (forall g p, P g p -> Q g p) -> touches Q m.
Proof. intros H HPQ s r s' E. eapply frame_weaken; [exact (H _ _ _ E)|]. apply HPQ. Qed.

Lemma touches_nothing (P : geo -> Z -> Prop) {A} (m : M A) : touches nothing m -> touches P m.
Proof. intros H. apply (touches_weaken _ _ _ H). by intros g p []. Qed.

Lemma touches_ret P {A} (a : A) : touches P (ret a).
Proof. intros s r s' [= _ <-]. apply frame_refl. Qed.

Lemma touches_fail P {A} : touches P (fail (A := A)).
Proof. intros s r s' [= _ <-]. apply frame_refl. Qed.

Lemma touches_get P {A} (f : fs D -> A) : touches P (get f).
Proof. intros s r s' [= _ <-]. apply frame_refl. Qed.

Lemma touches_set_errno P (e : Z) : touches P (set_errno e).
Proof. intros s r s' [= _ <-]. by repeat split. Qed.

Lemma touches_bind P {A B} (m : M A) (k : A -> M B) :
  touches P m -> (forall a, touches P (k a)) -> touches P (bind m k).
Proof.
  intros Hm Hk s r s' E. unfold bind in E. destruct (m s) as [[a|] s1] eqn:E1.
  - pose proof (Hm _ _ _ E1) as F1. pose proof (Hk _ _ _ _ E) as F2.
    eapply frame_trans; [exact F1|]. by rewrite (proj1 (proj2 (proj2 F1))) in F2.
  - injection E as <- <-. exact (Hm _ _ _ E1).
Qed.

Lemma touches_try P {A} (m : M A) : touches P m -> touches P (try m).
Proof.
  intros Hm s r s' E. unfold try in E. destruct (m s) as [o s1] eqn:E1.
  injection E as <- <-. exact (Hm _ _ _ E1).
Qed.

Lemma touches_ignore P {A} (m : M A) : touches P m -> touches P (ignore m).
Proof.
  intros Hm s r s' E. unfold ignore in E. destruct (m s) as [o s1] eqn:E1.
  injection E as <- <-. exact (Hm _ _ _ E1).
Qed.

Lemma touches_ret_int P (v : Z) : touches P (ret_int v).
Proof. unfold ret_int. destruct (v <? 2147483648); [apply touches_ret|apply touches_fail]. Qed.

Lemma frame_same_disk (P : Z -> Prop) (s : fs D) (d : D) : same_disk (dev s) d -> frame P s (with_dev s d).
Proof. intros H. repeat split. intros p _. apply H. Qed.

Lemma touches_read_sector P (lba : Z) : touches P (read_sector lba).
Proof.
  intros s r s' E. unfold read_sector in E.
  destruct (ata_read (dev s) _ _ lba) as [o d] eqn:E1. injection E as <- <-.
  apply frame_same_disk. exact (proj1 (read_law _ _ _ _ _ _ E1)).
Qed.

Lemma write_sector_frame (lba : Z) (buf : list Z) (s : fs D) r s' :
  write_sector lba buf s = (r, s') -> frame (fun p => p = phys lba) s s'.
Proof.
  intros E. unfold write_sector in E.
  destruct (ata_write (dev s) _ _ lba buf) as [o d] eqn:E1. injection E as <- <-.
  repeat split. intros p Hp. apply (write_law _ _ _ _ _ _ _ E1). congruence.
Qed.

(** The written sector: new on success, old or new on failure. *)
Lemma write_sector_view (lba : Z) (buf : list Z) (s : fs D) r s' :
  length buf = 512%nat -> is_bytes buf -> write_sector lba buf s = (r, s') ->
  view s' (phys lba) = buf \/ (r = None /\ view s' (phys lba) = view s (phys lba)).
Proof.
  intros Hl Hb E. unfold write_sector in E.
  destruct (ata_write (dev s) _ _ lba buf) as [o d] eqn:E1. injection E as <- <-.
  destruct (proj1 (write_law _ _ _ _ _ _ _ E1) Hl Hb) as [H|[-> H]]; [by left|right; auto].
Qed.

Lemma touches_now_sec P : touches P now_sec.
Proof.
  intros s r s' E. unfold now_sec in E. destruct (get_ticks (dev s)) as [t d] eqn:E1.
  injection E as <- <-. apply frame_same_disk. exact (proj1 (ticks_law _ _ _ E1)).
Qed.

Lemma touches_sector_at P (f : geo -> Z) (buf : geo -> list Z) :
  (forall g p, p = phys (f g) -> P g p) ->
  touches P (g <- get sb ;; write_sector (f g) (buf g)).
Proof.
  intros HP s r s' E. apply write_sector_frame in E. eapply frame_weaken; [exact E|]. apply HP.
Qed.

(** Where the single-sector writes of each kind go. *)
Definition block_sec (b : Z) (g : geo) (p : Z) : Prop := p = phys (block_lba g b).

Definition bitmap_sec (b : Z) (g : geo) (p : Z) : Prop := p = phys (bitmap_lba g b).

Definition inode_sec (inum : Z) (g : geo) (p : Z) : Prop := p = phys (inode_lba g inum).

Lemma touches_write_block (b : Z) (buf : list Z) : touches (block_sec b) (write_block b buf).
Proof. intros s r s' E. exact (write_sector_frame _ _ _ _ _ E). Qed.

(** A read-modify-write of one sector touches that sector. *)
Lemma touches_rmw (f : geo -> Z) (upd : list Z -> list Z) :
  touches (fun g p => p = phys (f g))
    (g <- get sb ;; buf <- read_sector (f g) ;; write_sector (f g) (upd buf)).
Proof.
  intros s r s' E. unfold bind, get in E. destruct (read_sector (f (sb s)) s) as [[buf|] s1] eqn:E1.
  - pose proof (touches_read_sector (fun g p => p = phys (f g)) _ _ _ _ E1) as F1.
    apply write_sector_frame in E. eapply frame_trans; [exact F1|exact E].
  - injection E as <- <-. exact (touches_read_sector (fun g p => p = phys (f g)) _ _ _ _ E1).
Qed.

Lemma touches_bitmap_set (b : Z) (used : bool) : touches (bitmap_sec b) (bitmap_set b used).
Proof. exact (touches_rmw (fun g => bitmap_lba g b) (fun buf => _)). Qed.

Lemma touches_inode_write (inum : Z) (ino : nvfs_inode) : touches (inode_sec inum) (inode_write inum ino).
Proof.
  intros s r s' E. unfold inode_write, bind at 1, get in E. cbv beta iota zeta in E.
  destruct (sb_inode_count (sb s) <=? inum).
  - injection E as <- <-. by repeat split.
  - exact (touches_rmw (fun g => inode_lba g inum) (fun buf => _) s r s' E).
Qed.

End disk.

(** [touch] walks over a computation and closes the parts the hints know. *)
Create HintDb nvfs.
#[export] Hint Resolve touches_ret touches_fail touches_get touches_set_errno touches_ret_int
  touches_now_sec touches_read_sector : nvfs.

Ltac touch_step :=
  first
  [ assumption
  | solve [auto with nvfs nocore]
  | apply touches_bind; [|intros ?]
  | apply touches_try
  | apply touches_ignore
  | match goal with
    | |- touches _ (match ?x with _ => _ end) => destruct x
    | |- touches _ (let _ := _ in _) => cbv zeta
    | |- touches _ (fail_errno _) => unfold fail_errno
    end ].

Ltac touch := repeat touch_step.

Section readonly.
Context {D : Type} `{ML : MachineLaws D}.
Abbreviation M := (@M D).
Implicit Type P : geo -> Z -> Prop.

(** ** Operations that only read *)

Lemma touches_fail_errno P {A} (e : Z) : touches P (fail_errno (A := A) e).
Proof. touch. Qed.
#[local] Hint Resolve touches_fail_errno : nvfs.

Lemma touches_read_block P (b : Z) : touches P (read_block b).
Proof. unfold read_block. touch. Qed.
#[local] Hint Resolve touches_read_block : nvfs.

Lemma touches_bitmap_test P (b : Z) : touches P (bitmap_test b).
Proof. unfold bitmap_test. touch. Qed.
#[local] Hint Resolve touches_bitmap_test : nvfs.

Lemma touches_run_free P (n : nat) (start j : Z) : touches P (run_free n start j).
Proof. revert j; induction n; intros j; cbn [run_free]; touch. Qed.
#[local] Hint Resolve touches_run_free : nvfs.

Lemma touches_scan_bits P (n : nat) (b base total_bits count : Z) (buf : list Z) :
  touches P (scan_bits n b base total_bits count buf).
Proof. revert b; induction n; intros b; cbn [scan_bits]; touch. Qed.
#[local] Hint Resolve touches_scan_bits : nvfs.

Lemma touches_scan_sectors P (n : nat) (s count : Z) : touches P (scan_sectors n s count).
Proof. revert s; induction n; intros s; cbn [scan_sectors]; touch. Qed.
#[local] Hint Resolve touches_scan_sectors : nvfs.

Lemma touches_bitmap_find P (count : Z) : touches P (bitmap_find count).
Proof. unfold bitmap_find. touch. Qed.

Lemma touches_inode_read P (inum : Z) : touches P (inode_read inum).
Proof. unfold inode_read. touch. Qed.
#[local] Hint Resolve touches_inode_read : nvfs.

Lemma touches_indirect_read_extents P (lba max : Z) : touches P (indirect_read_extents lba max).
Proof. unfold indirect_read_extents. touch. Qed.
#[local] Hint Resolve touches_indirect_read_extents : nvfs.

Lemma touches_extent_load_all P (ino : nvfs_inode) : touches P (extent_load_all ino).
Proof. unfold extent_load_all. touch. Qed.
#[local] Hint Resolve touches_extent_load_all : nvfs.

Lemma touches_read_blocks P (blocks : list Z) (remain : Z) (acc : list Z) :
  touches P (read_blocks blocks remain acc).
Proof. revert acc; induction blocks; intros acc; cbn [read_blocks]; touch. Qed.
#[local] Hint Resolve touches_read_blocks : nvfs.

Lemma touches_extent_read P (ino : nvfs_inode) (max : Z) : touches P (extent_read ino max).
Proof. unfold extent_read. touch. Qed.
#[local] Hint Resolve touches_extent_read : nvfs.

Lemma touches_dir_find_in P (blocks name : list Z) : touches P (dir_find_in blocks name).
Proof. induction blocks; cbn [dir_find_in]; touch. Qed.
#[local] Hint Resolve touches_dir_find_in : nvfs.

Lemma touches_dir_inode_read P (dir_inode : Z) : touches P (dir_inode_read dir_inode).
Proof. unfold dir_inode_read. touch. Qed.
#[local] Hint Resolve touches_dir_inode_read : nvfs.

Lemma touches_dir_find P (dir_inode : Z) (name : list Z) : touches P (dir_find dir_inode name).
Proof. unfold dir_find. touch. Qed.
#[local] Hint Resolve touches_dir_find : nvfs.

Lemma touches_dir_empty_in P (blocks : list Z) : touches P (dir_empty_in blocks).
Proof. induction blocks; cbn [dir_empty_in]; touch. Qed.
#[local] Hint Resolve touches_dir_empty_in : nvfs.

Lemma touches_dir_empty P (dir_inode : Z) : touches P (dir_empty dir_inode).
Proof. unfold dir_empty. touch. Qed.

Lemma touches_has_child P (blocks : list Z) (inum : Z) : touches P (has_child blocks inum).
Proof. induction blocks; cbn [has_child]; touch. Qed.
#[local] Hint Resolve touches_has_child : nvfs.

Lemma touches_find_parent_from P (n : nat) (i inum : Z) : touches P (find_parent_from n i inum).
Proof. revert i; induction n; intros i; cbn [find_parent_from]; touch. Qed.
#[local] Hint Resolve touches_find_parent_from : nvfs.

Lemma touches_find_parent P (inum : Z) : touches P (find_parent inum).
Proof. unfold find_parent. touch. Qed.
#[local] Hint Resolve touches_find_parent : nvfs.

Lemma touches_resolve_last P (cur : Z) (name : list Z) : touches P (resolve_last cur name).
Proof. unfold resolve_last. touch. Qed.
#[local] Hint Resolve touches_resolve_last : nvfs.

Lemma touches_resolve_comp P (cur : Z) (comp : list Z) : touches P (resolve_comp cur comp).
Proof. unfold resolve_comp. touch. Qed.
#[local] Hint Resolve touches_resolve_comp : nvfs.

Lemma touches_resolve_loop P (n : nat) (i seg cur last : Z) (buf : list Z) :
  touches P (resolve_loop n i seg cur last buf).
Proof. revert i seg cur; induction n; intros i seg cur; cbn [resolve_loop]; touch. Qed.
#[local] Hint Resolve touches_resolve_loop : nvfs.

Lemma touches_resolve_path P (path : list Z) : touches P (resolve_path path).
Proof. unfold resolve_path. touch. Qed.
#[local] Hint Resolve touches_resolve_path : nvfs.

Lemma touches_resolve_name P (path : list Z) : touches P (resolve_name path).
Proof. unfold resolve_name, check_mounted. touch. Qed.
#[local] Hint Resolve touches_resolve_name : nvfs.

Lemma touches_nvfs_read P (path : list Z) (max : Z) : touches P (nvfs_read path max).
Proof. unfold nvfs_read. touch. Qed.

Lemma touches_list_entries P (n : nat) (e : Z) (tmp : list Z) junk out :
  touches P (list_entries n e tmp junk out).
Proof. revert e out; induction n; intros e out; cbn [list_entries]; touch. Qed.
#[local] Hint Resolve touches_list_entries : nvfs.

Lemma touches_list_blocks P (blocks : list Z) junk out : touches P (list_blocks blocks junk out).
Proof. revert out; induction blocks; intros out; cbn [list_blocks]; touch. Qed.
#[local] Hint Resolve touches_list_blocks : nvfs.

Lemma touches_nvfs_list P junk (path : list Z) : touches P (nvfs_list junk path).
Proof. unfold nvfs_list, check_mounted. touch. Qed.

Lemma touches_child_name P (blocks : list Z) (cur : Z) : touches P (child_name blocks cur).
Proof. induction blocks; cbn [child_name]; touch. Qed.
#[local] Hint Resolve touches_child_name : nvfs.

Lemma touches_path_loop P (fuel : nat) (cur : Z) comps : touches P (path_loop fuel cur comps).
Proof. revert cur comps; induction fuel; intros cur comps; cbn [path_loop]; touch. Qed.
#[local] Hint Resolve touches_path_loop : nvfs.

Lemma touches_nvfs_path_string P (fuel : nat) (inum sz : Z) : touches P (nvfs_path_string fuel inum sz).
Proof. unfold nvfs_path_string. touch. Qed.

End readonly.

#[export] Hint Resolve touches_fail_errno touches_read_block touches_bitmap_test touches_bitmap_find
  touches_inode_read touches_extent_load_all touches_extent_read touches_dir_inode_read
  touches_dir_find touches_dir_empty touches_resolve_path touches_resolve_name : nvfs.
