(* ===== verification/NvfsBlocks.v ===== *)
(** * Layout of a mounted disk, the block bitmap and the inode table

    [layout] is what a mounted superblock must satisfy for the three areas
    to be disjoint ([nvfs_mount] checks most of it).  Under it the bitmap is
    a set of used blocks and the inode table an array of inodes, and the
    source's sector arithmetic implements both, whatever fails. *)
From S2P Require Import Prelude Bytes BlockDev Nvfs NvfsLayout NvfsDisk.

Import Nvfs.
Open Scope nvfs_scope.

(** Blocks the bitmap covers. *)
Definition total_bits (g : geo) : Z := sb_bitmap_sectors g * 4096.

(** Bitmap, inode table and data area follow each other on the disk, the
    inode count fits the table, byte offsets into the table do not wrap, and
    all of it is within reach of the driver. *)
Definition layout (g : geo) : Prop :=
  0 <= nvfs_offset g /\ 2 <= sb_bitmap_start g /\ 0 < sb_bitmap_sectors g /\
  sb_bitmap_start g + sb_bitmap_sectors g <= sb_inode_start g /\
  sb_inode_start g + sb_inode_blocks g <= sb_data_start g /\
  0 < sb_inode_count g <= 4 * sb_inode_blocks g /\ sb_inode_count g <= 33554432 /\
  nvfs_offset g + sb_data_start g + total_bits g <= 268435456.

(** Positions of the three areas. *)
Definition data_area (g : geo) (p : Z) : Prop :=
  nvfs_offset g + sb_data_start g <= p < nvfs_offset g + sb_data_start g + total_bits g.

Definition bitmap_area (g : geo) (p : Z) : Prop :=
  nvfs_offset g + sb_bitmap_start g <= p < nvfs_offset g + sb_bitmap_start g + sb_bitmap_sectors g.

Definition inode_area (g : geo) (p : Z) : Prop :=
  nvfs_offset g + sb_inode_start g <= p < nvfs_offset g + sb_inode_start g + sb_inode_blocks g.

(** The pure reading of a disk. *)
Definition v_sector (g : geo) (v : Z -> list Z) (b : Z) : list Z := v (phys (block_lba g b)).

Definition used_bit (g : geo) (v : Z -> list Z) (b : Z) : bool :=
  bit (v (phys (bitmap_lba g b))) (b mod 4096).

Definition v_inode (g : geo) (v : Z -> list Z) (inum : Z) : nvfs_inode :=
  inode_get (v (phys (inode_lba g inum))) (inode_off inum).

Section positions.
Context (g : geo) (Hg : layout g).

Lemma block_pos (b : Z) : 0 <= b < total_bits g -> phys (block_lba g b) = nvfs_offset g + sb_data_start g + b.
Proof.
  intros Hb. destruct Hg as (? & ? & ? & ? & ? & ? & ? & ?). unfold phys, block_lba.
  rewrite u32_small by lia. apply Z.mod_small. lia.
Qed.

Lemma bitmap_pos (b : Z) :
  0 <= b < total_bits g -> phys (bitmap_lba g b) = nvfs_offset g + sb_bitmap_start g + b / 4096.
Proof.
  intros Hb. destruct Hg as (? & ? & ? & ? & ? & ? & ? & ?). unfold phys, bitmap_lba.
  change bits_per_sec with 4096. unfold total_bits in *.
  rewrite u32_small by div_mod_lia. apply Z.mod_small. div_mod_lia.
Qed.

Lemma inode_pos (inum : Z) :
  0 <= inum < sb_inode_count g ->
  phys (inode_lba g inum) = nvfs_offset g + sb_inode_start g + inum / 4 /\
  inode_off inum = 128 * (inum mod 4).
Proof.
  intros Hi. destruct Hg as (? & ? & ? & ? & ? & ? & ? & ?). unfold phys, inode_lba, inode_off.
  change NVFS_INODE_SIZE with 128. change NVFS_SECTOR_SIZE with 512. unfold total_bits in *.
  rewrite (u32_small (inum * 128)) by lia. rewrite u32_small by div_mod_lia.
  split; [|div_mod_lia]. rewrite Z.mod_small; div_mod_lia.
Qed.

Lemma block_in_area (b : Z) : 0 <= b < total_bits g -> data_area g (phys (block_lba g b)).
Proof. intros Hb. rewrite block_pos by exact Hb. unfold data_area. lia. Qed.

Lemma bitmap_in_area (b : Z) : 0 <= b < total_bits g -> bitmap_area g (phys (bitmap_lba g b)).
Proof.
  intros Hb. rewrite bitmap_pos by exact Hb. unfold bitmap_area, total_bits in *. div_mod_lia.
Qed.

Lemma inode_in_area (inum : Z) :
  0 <= inum < sb_inode_count g -> inode_area g (phys (inode_lba g inum)).
Proof.
  intros Hi. rewrite (proj1 (inode_pos inum Hi)). destruct Hg as (? & ? & ? & ? & ? & ? & ? & ?).
  unfold inode_area. div_mod_lia.
Qed.

Lemma areas_disjoint (p : Z) :
  (data_area g p -> ~ bitmap_area g p /\ ~ inode_area g p) /\ (bitmap_area g p -> ~ inode_area g p).
Proof.
  destruct Hg as (? & ? & ? & ? & ? & ? & ? & ?). unfold data_area, bitmap_area, inode_area. lia.
Qed.

Lemma block_pos_inj (b b' : Z) :
  0 <= b < total_bits g -> 0 <= b' < total_bits g -> phys (block_lba g b) = phys (block_lba g b') -> b = b'.
Proof. intros Hb Hb'. rewrite !block_pos by assumption. lia. Qed.

End positions.

(** ** The inode table *)

Section inodes.
Context {D : Type} `{ML : MachineLaws D}.
Abbreviation M := (@M D).

Lemma view_len (s : fs D) (p : Z) : length (view s p) = 512%nat.
Proof. apply sector_len. Qed.

Lemma view_bytes (s : fs D) (p : Z) : is_bytes (view s p).
Proof. apply sector_bytes. Qed.

Lemma read_sector_val (lba : Z) (s : fs D) r s' :
  read_sector lba s = (r, s') -> r = Some (view s (phys lba)) \/ r = None.
Proof.
  intros E. unfold read_sector in E. destruct (ata_read (dev s) _ _ lba) as [o d] eqn:E1.
  injection E as <- <-. exact (proj2 (read_law _ _ _ _ _ _ E1)).
Qed.

(** A read-modify-write stores the update of the old sector; on failure the
    sector is the old one or the updated one. *)
Lemma rmw_view (f : geo -> Z) (upd : list Z -> list Z) (s : fs D) r s' :
  (forall b, length b = 512%nat -> is_bytes b -> length (upd b) = 512%nat /\ is_bytes (upd b)) ->
  (g <- get sb ;; buf <- read_sector (f g) ;; write_sector (f g) (upd buf)) s = (r, s') ->
  view s' (phys (f (sb s))) = upd (view s (phys (f (sb s)))) \/
  (r = None /\ view s' (phys (f (sb s))) = view s (phys (f (sb s)))).
Proof.
  intros Hu E. unfold bind, get in E. destruct (read_sector (f (sb s)) s) as [[buf|] s1] eqn:E1.
  - destruct (touches_read_sector nothing _ _ _ _ E1) as (_ & _ & Hsb & Hv).
    destruct (read_sector_val _ _ _ _ E1) as [[= ->]|?]; [|discriminate].
    destruct (Hu _ (view_len s _) (view_bytes s (phys (f (sb s))))) as [Hl Hb].
    destruct (write_sector_view _ _ _ _ _ Hl Hb E) as [H|[-> H]]; [by left|right].
    split; [reflexivity|]. rewrite H. apply Hv. intros [].
  - injection E as <- <-. right. split; [reflexivity|].
    destruct (touches_read_sector nothing _ _ _ _ E1) as (_ & _ & _ & Hv). apply Hv. intros [].
Qed.

Lemma inode_read_val (inum : Z) (s : fs D) i s' :
  inode_read inum s = (Some i, s') -> i = v_inode (sb s) (view s) inum /\ inum < sb_inode_count (sb s).
Proof.
  intros E. unfold inode_read, bind, get in E. destruct (Z.leb_spec (sb_inode_count (sb s)) inum); [discriminate|].
  destruct (read_sector (inode_lba (sb s) inum) s) as [[buf|] s1] eqn:E1; [|discriminate].
  injection E as <- <-. split; [|lia].
  by destruct (read_sector_val _ _ _ _ E1) as [[= ->]|?].
Qed.

Lemma inode_off_range (inum : Z) : 0 <= inode_off inum /\ inode_off inum + 128 <= 512.
Proof. unfold inode_off, NVFS_INODE_SIZE, NVFS_SECTOR_SIZE, u32. div_mod_lia. Qed.

Lemma inode_get_wf (buf : list Z) (off : Z) : is_bytes buf -> inode_wf (inode_get buf off).
Proof.
  intros H. unfold inode_get. repeat split; cbn [i_size i_type i_extent_count i_extents i_mtime];
    try (apply get32_range; exact H);
    try (apply is_bytes_byte_at; exact H).
  - destruct (NVFS_MAX_EXTENTS <? get32 buf (off + 8)); [done|]. by apply get32_range.
  - destruct (NVFS_MAX_EXTENTS <? get32 buf (off + 8)); [done|]. by apply get32_range.
  - apply Forall_forall. intros e (x & -> & _)%list_elem_of_fmap. split; simpl; by apply get32_range.
Qed.

(** [inode_write] stores exactly one inode; the others, also those in the
    same sector, keep their contents whatever happens.  On failure the inode
    is the old one or the new one. *)
Lemma inode_write_view (inum : Z) (i : nvfs_inode) (s : fs D) r s' :
  layout (sb s) -> 0 <= inum < sb_inode_count (sb s) -> inode_wf i ->
  inode_write inum i s = (r, s') ->
  (v_inode (sb s) (view s') inum = clamp_inode i \/
   (r = None /\ v_inode (sb s) (view s') inum = v_inode (sb s) (view s) inum)) /\
  (forall k, 0 <= k < sb_inode_count (sb s) -> k <> inum ->
     v_inode (sb s) (view s') k = v_inode (sb s) (view s) k).
Proof.
  intros Hg Hi Hw E. pose proof (touches_inode_write _ _ _ _ _ E) as (_ & _ & _ & Hfr).
  pose proof (inode_off_range inum) as Ho.
  unfold inode_write, bind at 1, get in E. cbv beta iota in E.
  rewrite (proj2 (Z.leb_gt (sb_inode_count (sb s)) inum)) in E by lia.
  apply (rmw_view (fun g => inode_lba g inum) (fun b => inode_put b (inode_off inum) i)) in E.
  2: { intros b Hl Hb. destruct (inode_put_wf b (inode_off inum) i) as (Hl' & Hb' & _); [lia..|].
       rewrite Hl'. auto. }
  cbv beta in E. unfold v_inode. split.
  - destruct E as [->|[-> ->]]; [left|right; auto].
    apply inode_get_put; [lia| |exact Hw]. rewrite view_len. lia.
  - intros k Hk Hne. destruct (inode_pos _ Hg inum Hi) as [Pi Oi].
    destruct (inode_pos _ Hg k Hk) as [Pk Ok].
    destruct (Z.eq_dec (k / 4) (inum / 4)) as [Eq|Nq].
    + assert (EP : phys (inode_lba (sb s) k) = phys (inode_lba (sb s) inum)) by lia.
      rewrite EP. destruct E as [->|[_ ->]]; [|reflexivity].
      apply inode_get_ext. intros j Hj.
      destruct (inode_put_wf (view s (phys (inode_lba (sb s) inum))) (inode_off inum) i)
        as (_ & _ & Hout); [lia|rewrite view_len; lia|].
      apply Hout; [div_mod_lia|]. rewrite Oi. rewrite Ok in Hj. div_mod_lia.
    + rewrite Hfr; [reflexivity|]. unfold inode_sec. div_mod_lia.
Qed.

(** ** The bitmap *)

Lemma bitmap_set_view (b : Z) (u : bool) (s : fs D) r s' :
  layout (sb s) -> 0 <= b < total_bits (sb s) -> bitmap_set b u s = (r, s') ->
  (used_bit (sb s) (view s') b = u \/
   (r = None /\ used_bit (sb s) (view s') b = used_bit (sb s) (view s) b)) /\
  (forall k, 0 <= k < total_bits (sb s) -> k <> b ->
     used_bit (sb s) (view s') k = used_bit (sb s) (view s) k).
Proof.
  intros Hg Hb E. pose proof (touches_bitmap_set _ _ _ _ _ E) as (_ & _ & _ & Hfr).
  assert (Hm : forall x, 0 <= x mod 4096 < 8 * 512) by (intros; div_mod_lia).
  unfold bitmap_set in E.
  apply (rmw_view (fun g => bitmap_lba g b)
           (fun buf => if u then bits_set buf (b mod bits_per_sec) else bits_clear buf (b mod bits_per_sec))) in E.
  2: { intros buf Hl Hby. destruct u; rewrite ?length_bits_set, ?length_bits_clear;
       auto using is_bytes_bits_set, is_bytes_bits_clear. }
  cbv beta in E. change bits_per_sec with 4096 in E. unfold used_bit.
  set (sec := view s (phys (bitmap_lba (sb s) b))) in *.
  assert (Hbit : forall k, 0 <= k < 4096 ->
    bit (if u then bits_set sec (b mod 4096) else bits_clear sec (b mod 4096)) k =
    if b mod 4096 =? k then u else bit sec k).
  { intros k Hk. assert (length sec = 512%nat) as Hl by apply view_len.
    destruct u; [rewrite bit_set|rewrite bit_clear]; rewrite ?Hl; auto; specialize (Hm b); lia. }
  split.
  - destruct E as [->|[-> ->]]; [left|right; auto]. rewrite Hbit, Z.eqb_refl by div_mod_lia. reflexivity.
  - intros k Hk Hne. destruct (Z.eq_dec (k / 4096) (b / 4096)) as [Eq|Nq].
    + assert (EP : phys (bitmap_lba (sb s) k) = phys (bitmap_lba (sb s) b))
        by (rewrite !bitmap_pos by assumption; lia).
      rewrite EP. fold sec. destruct E as [->|[_ ->]]; [|reflexivity].
      rewrite Hbit by div_mod_lia. rewrite (proj2 (Z.eqb_neq _ _)); [reflexivity|]. div_mod_lia.
    + rewrite Hfr; [reflexivity|]. unfold bitmap_sec. rewrite !bitmap_pos by assumption. lia.
Qed.

Lemma bitmap_test_val (b : Z) (s : fs D) v s' :
  bitmap_test b s = (Some v, s') -> v = c_bool (used_bit (sb s) (view s) b).
Proof.
  intros E. unfold bitmap_test, bind, get in E.
  destruct (read_sector (bitmap_lba (sb s) b) s) as [[buf|] s1] eqn:E1; [|discriminate].
  injection E as <- <-. rewrite bits_test_spec.
  by destruct (read_sector_val _ _ _ _ E1) as [[= ->]|?].
Qed.

(** ** Searching the bitmap *)

Lemma used_bit_ext (g : geo) (v v' : Z -> list Z) (b : Z) :
  (forall p, v' p = v p) -> used_bit g v' b = used_bit g v b.
Proof. intros H. unfold used_bit. by rewrite H. Qed.

(** The state after an operation that only reads. *)
Lemma quiet {A} (m : M A) (s : fs D) r s' :
  touches nothing m -> m s = (r, s') -> sb s' = sb s /\ forall p, view s' p = view s p.
Proof.
  intros Ht E. destruct (Ht _ _ _ E) as (_ & _ & Hs & Hv). split; [exact Hs|].
  intros p. apply Hv. intros [].
Qed.

Lemma run_free_val (n : nat) (start j : Z) (s : fs D) s' :
  run_free n start j s = (Some true, s') ->
  forall k, 0 <= k < Z.of_nat n -> used_bit (sb s) (view s) (u32 (start + j + k)) = false.
Proof.
  revert j s; induction n as [|n IH]; intros j s E k Hk; [lia|].
  cbn [run_free] in E. unfold bind, try in E.
  destruct (bitmap_test (u32 (start + j)) s) as [r s1] eqn:E1.
  destruct (quiet _ _ _ _ (touches_bitmap_test nothing _) E1) as [Hs Hv].
  destruct r as [[|x|x]|]; try discriminate E. apply bitmap_test_val in E1.
  destruct (Z.eq_dec k 0) as [->|].
  - rewrite Z.add_0_r. by destruct (used_bit _ _ _).
  - rewrite <- (used_bit_ext (sb s) (view s) (view s1)) by exact Hv. rewrite <- Hs.
    replace (start + j + k) with (start + (j + 1) + (k - 1)) by lia. apply (IH _ _ E). lia.
Qed.

Lemma scan_bits_val (n : nat) (b base total count : Z) (buf : list Z) (s : fs D) start s' :
  0 <= b -> 0 <= base -> base + b + Z.of_nat n <= 4294967296 ->
  scan_bits n b base total count buf s = (Some (Some start), s') ->
  exists x, start = base + x /\ b <= x < b + Z.of_nat n /\ start < total /\ bit buf x = false /\
    forall k, 1 <= k < count -> used_bit (sb s) (view s) (u32 (start + k)) = false.
Proof.
  revert b s; induction n as [|n IH]; intros b s Hb Hbase Hlt E; [discriminate E|].
  cbn [scan_bits] in E. rewrite u32_small in E by lia.
  destruct (Z.ltb_spec (base + b) total) as [Ht|]; [|discriminate E].
  rewrite bits_mask_spec, negb_involutive in E.
  assert (Hnext : forall s0, sb s0 = sb s -> (forall p, view s0 p = view s p) ->
    scan_bits n (b + 1) base total count buf s0 = (Some (Some start), s') ->
    exists x, start = base + x /\ b <= x < b + Z.of_nat (S n) /\ start < total /\ bit buf x = false /\
      forall k, 1 <= k < count -> used_bit (sb s) (view s) (u32 (start + k)) = false).
  { intros s0 Hs Hv E0. destruct (IH (b + 1) s0) as (x & -> & Hx & Hxt & Hbit & Hrun); [lia|lia|lia|exact E0|].
    exists x. split; [reflexivity|]. split; [lia|]. split; [exact Hxt|]. split; [exact Hbit|].
    intros k Hk. rewrite <- (used_bit_ext (sb s) (view s) (view s0)) by exact Hv.
    rewrite <- Hs. by apply Hrun. }
  destruct (bit buf b) eqn:Hbit; [by apply (Hnext s)|].
  destruct (Z.eqb_spec count 1) as [->|].
  { injection E as <- _. exists b. split; [reflexivity|]. split; [lia|]. split; [exact Ht|].
    split; [exact Hbit|]. intros; lia. }
  unfold bind in E. destruct (run_free (Z.to_nat (count - 1)) (base + b) 1 s) as [[ok|] s1] eqn:E1;
    [|discriminate E].
  destruct (quiet _ _ _ _ (touches_run_free nothing _ _ _) E1) as [Hs Hv].
  destruct ok; [|by apply (Hnext s1)].
  injection E as <- _. exists b. split; [reflexivity|]. split; [lia|]. split; [exact Ht|].
  split; [exact Hbit|]. intros k Hk.
  replace (base + b + k) with (base + b + 1 + (k - 1)) by lia.
  apply (run_free_val _ _ _ _ _ E1). lia.
Qed.

Lemma scan_sectors_val (n : nat) (i count : Z) (s : fs D) start s' :
  layout (sb s) -> 0 <= i -> i + Z.of_nat n <= sb_bitmap_sectors (sb s) ->
  scan_sectors n i count s = (Some start, s') ->
  0 <= start < total_bits (sb s) /\ used_bit (sb s) (view s) start = false /\
  forall k, 1 <= k < count -> used_bit (sb s) (view s) (u32 (start + k)) = false.
Proof.
  intros Hg. pose proof Hg as (? & ? & ? & ? & ? & ? & ? & Hreach). unfold total_bits in *.
  revert i s Hg Hreach H H0 H1 H2 H3 H4 H5.
  induction n as [|n IH]; intros i s Hg Hreach H H0 H1 H2 H3 H4 H5 Hi Hn E; [discriminate E|].
  cbn [scan_sectors] in E. unfold bind at 1, get in E. unfold bind at 1 in E.
  assert (Hnb : Z.of_nat (Z.to_nat bits_per_sec) = 4096) by (rewrite Z2Nat.id; [reflexivity|discriminate]).
  generalize dependent (Z.to_nat bits_per_sec). intros nb E Hnb.
  change bits_per_sec with 4096 in E. rewrite !(u32_small (_ * 4096)) in E by lia.
  set (lba := u32 (nvfs_offset (sb s) + sb_bitmap_start (sb s) + i)) in *.
  destruct (read_sector lba s) as [[buf|] s1] eqn:E1; [|discriminate E].
  destruct (quiet _ _ _ _ (touches_read_sector nothing _) E1) as [Hs Hv].
  unfold bind in E.
  destruct (scan_bits _ 0 _ _ count buf s1) as [[r|] s2] eqn:E2; [|discriminate E].
  destruct (quiet _ _ _ _ (touches_scan_bits nothing _ _ _ _ _ _) E2) as [Hs2 Hv2].
  assert (Hext : forall sx b, (forall p, view sx p = view s p) ->
    used_bit (sb s) (view sx) b = used_bit (sb s) (view s) b) by (intros; by apply used_bit_ext).
  destruct r as [start'|].
  - unfold ret_int in E. destruct (start' <? 2147483648); [|discriminate E].
    injection E as -> <-.
    destruct (read_sector_val _ _ _ _ E1) as [[= Hbuf]|]; [|discriminate].
    apply scan_bits_val in E2 as (x & -> & Hx & Hlt & Hbit & Hrun); [|lia|lia|lia].
    split; [lia|]. split.
    + unfold used_bit, bitmap_lba. change bits_per_sec with 4096.
      replace ((i * 4096 + x) / 4096) with i by div_mod_lia. fold lba.
      replace ((i * 4096 + x) mod 4096) with x by div_mod_lia. by rewrite <- Hbuf.
    + intros k Hk. rewrite <- (Hext s1) by exact Hv. rewrite <- Hs. by apply Hrun.
  - assert (Hs3 : sb s2 = sb s) by congruence.
    destruct (IH (i + 1) s2) as (Hr & Hu & Hrun); try (rewrite Hs3; assumption); [lia|rewrite Hs3; lia|exact E|].
    rewrite Hs3 in *. split; [exact Hr|].
    rewrite <- (Hext s2) by (intros; by rewrite Hv2, Hv). split; [exact Hu|].
    intros k Hk. rewrite <- (Hext s2) by (intros; by rewrite Hv2, Hv). by apply Hrun.
Qed.

(** [bitmap_find]: whatever fails, a run that is returned was free. *)
Lemma bitmap_find_val (count : Z) (s : fs D) start s' :
  layout (sb s) -> bitmap_find count s = (Some start, s') ->
  0 <= start < total_bits (sb s) /\
  (forall k, 0 <= k < Z.max 1 count -> used_bit (sb s) (view s) (u32 (start + k)) = false).
Proof.
  intros Hg E. pose proof Hg as (? & ? & ? & ? & ? & ? & ? & ?). unfold bitmap_find, bind, get in E.
  apply scan_sectors_val in E as (Hr & Hu & Hrun); [|exact Hg|lia|lia].
  split; [exact Hr|]. intros k Hk. destruct (Z.eq_dec k 0) as [->|]; [|apply Hrun; lia].
  rewrite Z.add_0_r, u32_small; [exact Hu|]. unfold total_bits in *. lia.
Qed.

(** *** The first run on a drive that reads

    On a drive whose reads succeed every start before the one returned was
    looked at, and found not to begin a free run. *)

Definition readable_fs (s : fs D) : Prop := readable (dev s) (nvfs_ch (sb s)) (nvfs_dr (sb s)).

Lemma read_sector_readable (lba : Z) (s : fs D) : readable_fs s ->
  exists buf s', read_sector lba s = (Some buf, s') /\ readable_fs s'.
Proof.
  intros Hs. unfold read_sector. destruct (read_readable _ _ _ lba Hs) as [Hok Hr].
  destruct (ata_read (dev s) _ _ lba) as [[buf|] d]; [|done]. by exists buf, (with_dev s d).
Qed.

Lemma bitmap_test_readable (b : Z) (s : fs D) : readable_fs s ->
  exists s', bitmap_test b s = (Some (c_bool (used_bit (sb s) (view s) b)), s') /\ readable_fs s'.
Proof.
  intros Hs. destruct (read_sector_readable (bitmap_lba (sb s) b) s Hs) as (buf & s1 & E1 & H1).
  destruct (bitmap_test b s) as [r s'] eqn:E. pose proof E as E0. unfold bitmap_test, bind, get in E0.
  rewrite E1 in E0. injection E0 as <- <-. exists s1. split; [|exact H1]. f_equal. by rewrite <- (bitmap_test_val _ _ _ _ E).
Qed.

Lemma run_free_readable (n : nat) (start j : Z) (s : fs D) : readable_fs s ->
  exists ok s', run_free n start j s = (Some ok, s') /\ readable_fs s' /\
    (ok = false -> exists k, 0 <= k < Z.of_nat n /\ used_bit (sb s) (view s) (u32 (start + j + k)) = true).
Proof.
  revert j s; induction n as [|n IH]; intros j s Hs; [by exists true, s|].
  cbn [run_free]. unfold bind at 1, try. destruct (bitmap_test_readable (u32 (start + j)) s Hs) as (s1 & E1 & H1).
  rewrite E1. destruct (quiet _ _ _ _ (touches_bitmap_test nothing _) E1) as [Hb Hv].
  destruct (used_bit (sb s) (view s) (u32 (start + j))) eqn:Eu; cbn [c_bool].
  { exists false, s1. split; [done|]. split; [done|]. intros _. exists 0. split; [lia|]. by rewrite Z.add_0_r. }
  destruct (IH (j + 1) s1 H1) as (ok & s2 & E2 & H2 & Hk). exists ok, s2. split; [exact E2|]. split; [exact H2|].
  intros Hf. destruct (Hk Hf) as (k & Hk1 & Hk2). exists (k + 1). split; [lia|].
  rewrite Hb, (used_bit_ext (sb s) (view s) (view s1)) in Hk2 by exact Hv.
  by replace (start + j + (k + 1)) with (start + (j + 1) + k) by lia.
Qed.

(** A run of [count] blocks from [st] on is not free. *)
Definition blocked (g : geo) (v : Z -> list Z) (count st : Z) : Prop :=
  exists k, 0 <= k < Z.max 1 count /\ used_bit g v (u32 (st + k)) = true.

Lemma blocked_ext (g : geo) (v v' : Z -> list Z) (count st : Z) :
  (forall p, v' p = v p) -> blocked g v count st -> blocked g v' count st.
Proof. intros Hv (k & Hk & Hu). exists k. by rewrite (used_bit_ext g v v'). Qed.

Lemma scan_bits_first (n : nat) (b base total count : Z) (buf : list Z) (s : fs D) :
  readable_fs s -> 0 <= b -> 0 <= base -> base + b + Z.of_nat n <= 4294967296 -> base + b + Z.of_nat n <= total ->
  (forall x, b <= x < b + Z.of_nat n -> used_bit (sb s) (view s) (base + x) = bit buf x) ->
  exists r s', scan_bits n b base total count buf s = (Some r, s') /\ readable_fs s' /\
    (forall y, base + b <= y < (match r with Some st => st | None => base + b + Z.of_nat n end) ->
       blocked (sb s) (view s) count y).
Proof.
  revert b s; induction n as [|n IH]; intros b s Hs Hb Hbase Hlt Htot Hbuf.
  { exists None, s. split; [done|]. split; [done|]. intros; lia. }
  cbn [scan_bits]. rewrite u32_small by lia. rewrite (proj2 (Z.ltb_lt (base + b) total)) by lia.
  rewrite bits_mask_spec, negb_involutive.
  assert (Hnext : forall s0, readable_fs s0 -> sb s0 = sb s -> (forall p, view s0 p = view s p) ->
    blocked (sb s) (view s) count (base + b) ->
    exists r s', scan_bits n (b + 1) base total count buf s0 = (Some r, s') /\ readable_fs s' /\
      (forall y, base + b <= y < (match r with Some st => st | None => base + b + Z.of_nat (S n) end) ->
         blocked (sb s) (view s) count y)).
  { intros s0 H0 Hsb Hv Hbl. destruct (IH (b + 1) s0 H0) as (r & s' & E & Hr & Hy); [lia..| |].
    { intros x Hx. rewrite Hsb, (used_bit_ext (sb s) (view s) (view s0)) by exact Hv. apply Hbuf. lia. }
    exists r, s'. split; [exact E|]. split; [exact Hr|]. intros y Hy'.
    destruct (Z.eq_dec y (base + b)) as [->|]; [exact Hbl|].
    apply (blocked_ext _ (view s0)); [intros p; by rewrite Hv|]. rewrite <- Hsb. apply Hy. destruct r; lia. }
  destruct (bit buf b) eqn:Hbit.
  { apply (Hnext s); [done..|]. exists 0. split; [lia|]. rewrite Z.add_0_r, u32_small by lia.
    rewrite Hbuf by lia. exact Hbit. }
  destruct (Z.eqb_spec count 1) as [->|].
  { exists (Some (base + b)), s. split; [done|]. split; [done|]. intros; lia. }
  unfold bind. destruct (run_free_readable (Z.to_nat (count - 1)) (base + b) 1 s Hs) as (ok & s1 & E1 & H1 & Hk).
  rewrite E1. destruct (quiet _ _ _ _ (touches_run_free nothing _ _ _) E1) as [Hsb Hv].
  destruct ok.
  { exists (Some (base + b)), s1. split; [done|]. split; [done|]. intros; lia. }
  apply (Hnext s1); [done..|]. destruct (Hk eq_refl) as (k & Hk1 & Hk2). exists (k + 1). split; [lia|].
  by replace (base + b + (k + 1)) with (base + b + 1 + k) by lia.
Qed.

Lemma scan_sectors_first (n : nat) (i count : Z) (s : fs D) start s' :
  readable_fs s -> layout (sb s) -> 0 <= i -> i + Z.of_nat n <= sb_bitmap_sectors (sb s) ->
  scan_sectors n i count s = (Some start, s') ->
  forall y, i * 4096 <= y < start -> blocked (sb s) (view s) count y.
Proof.
  revert i s; induction n as [|n IH]; intros i s Hs Hg Hi Hn E y Hy; [discriminate E|].
  pose proof Hg as (? & ? & ? & ? & ? & ? & ? & ?). unfold total_bits in *.
  cbn [scan_sectors] in E. unfold bind at 1, get in E. unfold bind at 1 in E.
  assert (Hnb : Z.of_nat (Z.to_nat bits_per_sec) = 4096) by (rewrite Z2Nat.id; [reflexivity|discriminate]).
  generalize dependent (Z.to_nat bits_per_sec). intros nb E Hnb.
  change bits_per_sec with 4096 in E. rewrite !(u32_small (_ * 4096)) in E by lia.
  set (lba := u32 (nvfs_offset (sb s) + sb_bitmap_start (sb s) + i)) in *.
  destruct (read_sector_readable lba s Hs) as (buf & s1 & E1 & Hr1). rewrite E1 in E.
  destruct (quiet _ _ _ _ (touches_read_sector nothing _) E1) as [Hs1 Hv1].
  assert (Hbuf : buf = view s (phys lba)) by (by destruct (read_sector_val _ _ _ _ E1) as [[= ->]|?]).
  destruct (scan_bits_first nb 0 (i * 4096) (sb_bitmap_sectors (sb s) * 4096) count buf s1 Hr1)
    as (r & s2 & E2 & Hr2 & Hfirst); [lia..| |].
  { intros x Hx. rewrite Hs1, (used_bit_ext (sb s) (view s) (view s1)) by exact Hv1.
    unfold used_bit, bitmap_lba. change bits_per_sec with 4096.
    replace ((i * 4096 + x) / 4096) with i by div_mod_lia. fold lba.
    replace ((i * 4096 + x) mod 4096) with x by div_mod_lia. by rewrite Hbuf. }
  unfold bind in E. rewrite E2 in E. destruct (quiet _ _ _ _ (touches_scan_bits nothing _ _ _ _ _ _) E2) as [Hs2 Hv2].
  assert (Hf : forall y, i * 4096 <= y < match r with Some st => st | None => (i + 1) * 4096 end ->
    blocked (sb s) (view s) count y).
  { intros y' Hy'. apply (blocked_ext _ (view s1)); [intros p; by rewrite Hv1|]. rewrite <- Hs1.
    apply Hfirst. destruct r; lia. }
  destruct r as [st|].
  - unfold ret_int in E. destruct (st <? 2147483648); [|discriminate E]. injection E as -> _. by apply Hf.
  - destruct (decide (y < (i + 1) * 4096)) as [|Hge]; [by apply Hf; lia|].
    apply (blocked_ext _ (view s2)); [intros p; by rewrite Hv2, Hv1|].
    assert (Hsb : sb s2 = sb s) by congruence. rewrite <- Hsb.
    apply (IH (i + 1) s2); [exact Hr2|by rewrite Hsb|lia|rewrite Hsb; lia|exact E|lia].
Qed.

(** ** Runs that end inside the bitmap

    [bitmap_find] does not compare the end of a run with the end of the
    bitmap: past it, the next sectors of the disk are taken for more bits. *)

(** No run of [count] bits that look free crosses the end of the bitmap. *)
Definition run_fits (g : geo) (v : Z -> list Z) (count : Z) : Prop :=
  forall st, 0 <= st < total_bits g -> total_bits g < st + count -> blocked g v count st.

(** The bitmap has a run of [count] free blocks. *)
Definition has_room (g : geo) (v : Z -> list Z) (count : Z) : Prop :=
  exists st, 0 <= st /\ st + count <= total_bits g /\ forall k, 0 <= k < count -> used_bit g v (st + k) = false.

(** What makes a run returned by [bitmap_find] end inside the bitmap: no run
    that crosses the end looks free; or there is room, and no read fails. *)
Definition fits (s : fs D) (count : Z) : Prop :=
  run_fits (sb s) (view s) count \/ readable_fs s /\ has_room (sb s) (view s) count.

Lemma run_fits_one (g : geo) (v : Z -> list Z) (count : Z) : count <= 1 -> run_fits g v count.
Proof. intros Hc st Hst Hlt. lia. Qed.

(** One use: the last block of the bitmap is in use. *)
Lemma run_fits_last (g : geo) (v : Z -> list Z) (count : Z) :
  layout g -> used_bit g v (total_bits g - 1) = true -> run_fits g v count.
Proof.
  intros (? & ? & ? & ? & ? & ? & ? & ?) Hu st Hst Hlt. exists (total_bits g - 1 - st). split; [lia|].
  rewrite u32_small by lia. by replace (st + (total_bits g - 1 - st)) with (total_bits g - 1) by lia.
Qed.

Lemma run_fits_ext (g : geo) (v v' : Z -> list Z) (n : Z) :
  (forall q, v' q = v q) -> run_fits g v n -> run_fits g v' n.
Proof. intros Hv Hf st H1 H2. by apply (blocked_ext _ v), Hf. Qed.

Lemma fits_ext (s s' : fs D) (n : Z) :
  sb s' = sb s -> (forall p, view s' p = view s p) -> (readable_fs s -> readable_fs s') -> fits s n -> fits s' n.
Proof.
  intros Hs Hv Hr [Hf|(H1 & st & H2 & H3 & H4)].
  - left. rewrite Hs. by apply (run_fits_ext _ (view s)).
  - right. split; [by apply Hr|]. rewrite Hs. exists st. split; [done|]. split; [done|].
    intros k Hk. rewrite (used_bit_ext (sb s) (view s) (view s')) by exact Hv. by apply H4.
Qed.

Lemma bitmap_find_fits (count : Z) (s : fs D) start s' :
  layout (sb s) -> fits s count -> bitmap_find count s = (Some start, s') ->
  0 <= start /\ start + count <= total_bits (sb s) /\
  (forall k, 0 <= k < count -> used_bit (sb s) (view s) (start + k) = false).
Proof.
  intros Hg Hfit E. destruct (bitmap_find_val _ _ _ _ Hg E) as [Hr Hrun].
  assert (Hle : start + count <= total_bits (sb s)).
  { apply Z.nlt_ge. intros Hlt. destruct Hfit as [Hfit|(Hs & st & H1 & H2 & Hfree)].
    - destruct (Hfit start Hr Hlt) as (k & Hk & Hu). by rewrite Hrun in Hu.
    - unfold bitmap_find, bind, get in E. pose proof Hg as (? & ? & ? & ? & ? & ? & ? & ?).
      destruct (scan_sectors_first (Z.to_nat (sb_bitmap_sectors (sb s))) 0 count s start s' Hs Hg ltac:(lia) ltac:(lia) E st) as (k & Hk & Hu); [lia|].
      rewrite u32_small in Hu by lia. rewrite Hfree in Hu by lia. discriminate Hu. }
  split; [lia|]. split; [exact Hle|]. intros k Hk.
  destruct Hg as (? & ? & ? & ? & ? & ? & ? & ?).
  rewrite <- (u32_small (start + k)) by lia. apply Hrun. lia.
Qed.

End inodes.
