(* ===== verification/NvfsFiles.v ===== *)
(** * File contents

    The contents of a file as a pure function of the disk ([v_file]), and
    what [extent_write] and the shadow-paging update of [nvfs_write] and
    [nvfs_append] do to the contents of every file, with every read and
    write allowed to fail. *)
From S2P Require Import Prelude Bytes BlockDev Nvfs NvfsLayout NvfsDisk NvfsBlocks.

Import Nvfs.
Open Scope nvfs_scope.

(** ** Contents as a pure function of the disk *)

(** The extents [extent_load_all] loads. *)
Definition v_exts (g : geo) (v : Z -> list Z) (i : nvfs_inode) : list nvfs_extent :=
  let ec := i_extent_count i in
  let direct := Z.min (Z.min ec NVFS_DIRECT_EXTENTS) EXTENT_CACHE_MAX in
  let ind := v_sector g v (e_start (ext_at (i_extents i) NVFS_DIRECT_EXTENTS)) in
  map (ext_at (i_extents i)) (seqZ 0 direct) ++
  if ec <=? NVFS_DIRECT_EXTENTS then []
  else map (fun k => mkExt (get32 ind (k * 8)) (get32 ind (k * 8 + 4)))
         (seqZ 0 (Z.min (Z.min (ec - NVFS_DIRECT_EXTENTS) (EXTENT_CACHE_MAX - direct)) NVFS_INDIRECT_ENTS)).

Definition v_blocks (g : geo) (v : Z -> list Z) (i : nvfs_inode) : list Z := ext_blocks (v_exts g v i).

Definition v_data (g : geo) (v : Z -> list Z) (i : nvfs_inode) : list Z :=
  take (Z.to_nat (i_size i)) (concat (map (v_sector g v) (v_blocks g v i))).

Definition v_file (g : geo) (v : Z -> list Z) (inum : Z) : list Z := v_data g v (v_inode g v inum).

(** The first [size] bytes at a data pointer. *)
Definition data_bytes (data : Z -> Z) (size : Z) : list Z := map (fun k => u8 (data k)) (seqZ 0 size).

(** Every block an inode refers to is inside the bitmap and marked used. *)
Definition block_used (g : geo) (v : Z -> list Z) (b : Z) : Prop :=
  0 <= b < total_bits g /\ used_bit g v b = true.

Definition inode_blocks_used (g : geo) (v : Z -> list Z) (i : nvfs_inode) : Prop :=
  Forall (block_used g v) (v_blocks g v i) /\
  (forall b, indirect_of i = Some b -> block_used g v b).

(** Two disks that agree on the used blocks. *)
Definition used_same (g : geo) (v v' : Z -> list Z) : Prop :=
  forall b, block_used g v b -> v_sector g v' b = v_sector g v b.

Lemma v_exts_same (g : geo) (v v' : Z -> list Z) (i : nvfs_inode) :
  inode_blocks_used g v i -> used_same g v v' -> v_exts g v' i = v_exts g v i.
Proof.
  intros [_ Hind] Hs. unfold v_exts. f_equal.
  destruct (Z.leb_spec (i_extent_count i) NVFS_DIRECT_EXTENTS) as [|Hgt]; [reflexivity|].
  rewrite Hs; [reflexivity|]. apply Hind. unfold indirect_of.
  by rewrite (proj2 (Z.ltb_lt _ _) Hgt).
Qed.

Lemma v_data_same (g : geo) (v v' : Z -> list Z) (i : nvfs_inode) :
  inode_blocks_used g v i -> used_same g v v' -> v_data g v' i = v_data g v i.
Proof.
  intros Hb Hs. unfold v_data, v_blocks. rewrite (v_exts_same g v v' i Hb Hs). do 2 f_equal.
  apply map_ext_in. intros b Hin. apply Hs. apply list_elem_of_In in Hin.
  destruct Hb as [Hb _]. rewrite Forall_forall in Hb. by apply Hb.
Qed.

(** ** The sectors written by [extent_write] *)

Lemma sectors_for_eq (n : Z) : 0 <= n <= 4294966784 -> sectors_for n = (n + 511) / 512.
Proof. intros. unfold sectors_for, NVFS_SECTOR_SIZE. rewrite u32_small by lia. f_equal. lia. Qed.

Lemma data_sector_wf (data : Z -> Z) (n j : Z) :
  length (data_sector data n j) = 512%nat /\ is_bytes (data_sector data n j).
Proof.
  unfold data_sector. split; [by rewrite length_map, length_seqZ|].
  apply Forall_forall. intros e (x & -> & _)%list_elem_of_fmap. unfold is_byte.
  destruct (x <? _); [apply u8_range|lia].
Qed.

Lemma data_sector_at (data : Z -> Z) (n j k : Z) :
  0 <= k < 512 -> byte_at (data_sector data n j) k =
    if k <? Z.min 512 n then u8 (data (j * Z.min 512 n + k)) else 0.
Proof.
  intros. unfold byte_at, data_sector. change NVFS_SECTOR_SIZE with 512.
  rewrite list_lookup_fmap, lookup_seqZ_lt by lia. simpl. by rewrite !Z2Nat.id by lia.
Qed.

(** Concatenated sectors, byte by byte. *)
Lemma byte_at_concat (f : Z -> list Z) (a n k : Z) :
  (forall j, length (f j) = 512%nat) -> 0 <= k < 512 * n ->
  byte_at (concat (map f (seqZ a n))) k = byte_at (f (a + k / 512)) (k mod 512).
Proof.
  intros Hf. remember (Z.to_nat n) as m eqn:Em. revert a n k Em.
  induction m as [|m IH]; intros a n k Em Hk; [lia|].
  rewrite (seqZ_cons a n) by lia. cbn [map concat]. unfold byte_at.
  destruct (Z.lt_ge_cases k 512) as [Hlt|Hge].
  - rewrite lookup_app_l by (rewrite Hf; lia).
    replace (k / 512) with 0 by div_mod_lia. replace (k mod 512) with k by div_mod_lia.
    by rewrite Z.add_0_r.
  - rewrite lookup_app_r by (rewrite Hf; lia). rewrite Hf.
    replace (Z.to_nat k - 512)%nat with (Z.to_nat (k - 512)) by lia.
    change (default 0 (?l !! Z.to_nat ?i)) with (byte_at l i).
    specialize (IH (Z.succ a) (Z.pred n) (k - 512) ltac:(lia) ltac:(lia)).
    rewrite IH. replace (Z.succ a + (k - 512) / 512) with (a + k / 512) by div_mod_lia.
    replace ((k - 512) mod 512) with (k mod 512) by div_mod_lia. reflexivity.
Qed.

Lemma length_concat_sectors (f : Z -> list Z) (a n : Z) :
  (forall j, length (f j) = 512%nat) -> 0 <= n ->
  Z.of_nat (length (concat (map f (seqZ a n)))) = 512 * n.
Proof.
  intros Hf Hn. remember (Z.to_nat n) as m eqn:Em. revert a n Em Hn.
  induction m as [|m IH]; intros a n Em Hn.
  - replace n with 0 by lia. reflexivity.
  - rewrite (seqZ_cons a n) by lia. cbn [map concat]. rewrite length_app, Hf.
    rewrite Nat2Z.inj_add, IH by lia. lia.
Qed.

Lemma byte_at_take (l : list Z) (n k : Z) : 0 <= k < n -> byte_at (take (Z.to_nat n) l) k = byte_at l k.
Proof. intros. unfold byte_at. by rewrite lookup_take_lt by lia. Qed.

(** The sectors of a file, cut to its size, are its bytes. *)
Lemma sectors_are_data (data : Z -> Z) (n : Z) :
  0 < n ->
  take (Z.to_nat n) (concat (map (data_sector data n) (seqZ 0 ((n + 511) / 512)))) = data_bytes data n.
Proof.
  intros Hn. assert (Hf : forall j, length (data_sector data n j) = 512%nat) by (intros; apply data_sector_wf).
  pose proof (length_concat_sectors (data_sector data n) 0 ((n + 511) / 512) Hf ltac:(div_mod_lia)) as Hl.
  unfold data_bytes. apply bytes_ext.
  - rewrite length_take, length_map, length_seqZ. div_mod_lia.
  - intros k. rewrite length_take. intros Hk. rewrite byte_at_take by lia.
    rewrite byte_at_concat by (auto || div_mod_lia). rewrite Z.add_0_l, data_sector_at by div_mod_lia.
    unfold byte_at at 1. rewrite list_lookup_fmap, lookup_seqZ_lt by lia. simpl.
    rewrite Z2Nat.id by lia. destruct (Z.le_gt_cases n 512).
    + replace (k / 512) with 0 by div_mod_lia. replace (k mod 512) with k by div_mod_lia.
      rewrite (proj2 (Z.ltb_lt k (Z.min 512 n))) by lia. do 2 f_equal; lia.
    + rewrite (proj2 (Z.ltb_lt (k mod 512) (Z.min 512 n))) by div_mod_lia.
      rewrite Z.min_l by lia. do 2 f_equal. div_mod_lia.
Qed.

(** ** Inversion of monadic steps *)

Section files.
Context {D : Type} `{ML : MachineLaws D}.
Abbreviation M := (@M D).

Lemma bind_inv {A B} (m : M A) (k : A -> M B) (s : fs D) r s' :
  bind m k s = (r, s') ->
  (exists a s1, m s = (Some a, s1) /\ k a s1 = (r, s')) \/ (m s = (None, s') /\ r = None).
Proof. unfold bind. destruct (m s) as [[a|] s1]; [eauto|intros [= <- <-]; auto]. Qed.

Lemma or_errno_inv {A} (m : M A) (e : Z) (s : fs D) r s' :
  (m or_errno e) s = (r, s') ->
  (exists a, m s = (Some a, s') /\ r = Some a) \/
  (exists s1, m s = (None, s1) /\ r = None /\ frame (fun _ => False) s1 s').
Proof.
  unfold bind at 1, try. destruct (m s) as [[a|] s1].
  - intros [= <- <-]. left. eauto.
  - intros [= <- <-]. right. exists s1. by repeat split.
Qed.

Lemma ignore_inv {A} (m : M A) (s : fs D) r s' :
  ignore m s = (r, s') -> r = Some tt /\ exists o, m s = (o, s').
Proof. unfold ignore. destruct (m s) as [o s1]. intros [= <- <-]. eauto. Qed.

Lemma indirect_read_val (lba max : Z) (s : fs D) l s' :
  indirect_read_extents lba max s = (Some l, s') ->
  l = map (fun k => mkExt (get32 (v_sector (sb s) (view s) lba) (k * 8))
                      (get32 (v_sector (sb s) (view s) lba) (k * 8 + 4)))
        (seqZ 0 (Z.min max NVFS_INDIRECT_ENTS)).
Proof.
  intros E. apply bind_inv in E as [(buf & s1 & E1 & E)|[_ E]]; [|discriminate E].
  injection E as <- _. unfold read_block, bind, get in E1.
  destruct (read_sector_val _ _ _ _ E1) as [[= ->]|E']; [|discriminate E'].
  replace (if NVFS_INDIRECT_ENTS <? max then NVFS_INDIRECT_ENTS else max)
    with (Z.min max NVFS_INDIRECT_ENTS) by (zcase; lia). reflexivity.
Qed.

Lemma extent_load_all_val (i : nvfs_inode) (s : fs D) l s' :
  extent_load_all i s = (Some l, s') -> l = v_exts (sb s) (view s) i.
Proof.
  unfold extent_load_all, v_exts. destruct (i_extent_count i <=? NVFS_DIRECT_EXTENTS).
  - intros [= <- _]. by rewrite app_nil_r.
  - intros E. apply bind_inv in E as [(r & s1 & E1 & E)|[_ E]]; [|discriminate E].
    injection E as <- _. by rewrite (indirect_read_val _ _ _ _ _ E1).
Qed.

(** ** Writing data *)

(** The blocks that a run of writes may change: their sectors and their
    bitmap bits. *)
Definition run_secs (start a b : Z) (g : geo) (p : Z) : Prop :=
  exists k, a <= k < b /\ (p = phys (block_lba g (u32 (start + k))) \/ p = phys (bitmap_lba g (u32 (start + k)))).

Lemma touches_release (blocks : list Z) :
  touches (fun g p => exists b, b ∈ blocks /\ bitmap_sec b g p) (release blocks).
Proof.
  induction blocks as [|b r IH]; cbn [release]; [apply touches_ret|].
  apply touches_bind.
  - apply touches_ignore. eapply touches_weaken; [apply touches_bitmap_set|].
    intros g p Hp. exists b. split; [apply list_elem_of_here|exact Hp].
  - intros _. eapply touches_weaken; [exact IH|]. intros g p (c & Hc & Hp). exists c.
    split; [by apply list_elem_of_further|exact Hp].
Qed.

Lemma touches_write_blocks (n : nat) (j start : Z) (data : Z -> Z) (size : Z) :
  touches (run_secs start j (j + Z.of_nat n)) (write_blocks n j start data size).
Proof.
  revert j; induction n as [|n IH]; intros j; cbn [write_blocks]; [apply touches_ret|].
  apply touches_bind; [apply touches_try|].
  { eapply touches_weaken; [apply touches_write_block|]. intros g p ->. exists j. split; [lia|auto]. }
  intros [w|]; [|apply touches_ret]. apply touches_bind; [apply touches_ignore|intros _].
  { eapply touches_weaken; [apply touches_bitmap_set|]. intros g p ->. exists j. split; [lia|auto]. }
  eapply touches_weaken; [apply IH|]. intros g p (k & Hk & Hp). exists k. split; [lia|exact Hp].
Qed.

(** The loop returns how far it got; the sectors written so far hold the
    data. *)
Lemma write_blocks_val (n : nat) (j start : Z) (data : Z -> Z) (size : Z) (s : fs D) r s' :
  layout (sb s) -> 0 <= start -> 0 <= j -> start + j + Z.of_nat n <= total_bits (sb s) ->
  write_blocks n j start data size s = (r, s') ->
  exists j', r = Some j' /\ j <= j' <= j + Z.of_nat n /\
    forall k, j <= k < j' -> v_sector (sb s) (view s') (start + k) = data_sector data size k.
Proof.
  revert j s; induction n as [|n IH]; intros j s Hg Hs Hj Hle E; cbn [write_blocks] in E.
  { injection E as <- <-. exists j. split; [reflexivity|]. split; [lia|]. intros; lia. }
  pose proof Hg as (? & ? & ? & ? & ? & ? & ? & ?).
  rewrite u32_small in E by (unfold total_bits in *; lia).
  unfold bind at 1, try at 1 in E.
  destruct (write_block (start + j) (data_sector data size j) s) as [w s1] eqn:E1.
  pose proof (touches_write_block _ _ _ _ _ E1) as (_ & _ & Hs1 & _).
  destruct w as [w|].
  2: { injection E as <- <-. exists j. split; [reflexivity|]. split; [lia|]. intros; lia. }
  apply bind_inv in E as [(u & s2 & E2 & E)|[E2 _]]; [|by apply ignore_inv in E2 as [? _]].
  apply ignore_inv in E2 as (_ & o & E2).
  pose proof (touches_bitmap_set _ _ _ _ _ E2) as (_ & _ & Hs2 & Hv2).
  assert (Hsb : sb s2 = sb s) by congruence.
  assert (Hloop : touches (run_secs start (j + 1) (j + 1 + Z.of_nat n))
                    (write_blocks n (j + 1) start data size)) by apply touches_write_blocks.
  destruct (Hloop _ _ _ E) as (_ & _ & _ & Hv3).
  destruct (IH (j + 1) s2) as (j' & -> & Hj' & Hdat); [by rewrite Hsb|lia|lia|rewrite Hsb; lia|exact E|].
  exists j'. split; [reflexivity|]. split; [lia|]. intros k Hk. rewrite Hsb in *.
  destruct (Z.eq_dec k j) as [->|]; [|apply Hdat; lia].
  assert (Hblk : 0 <= start + j < total_bits (sb s)) by lia.
  pose proof (block_in_area _ Hg _ Hblk) as Harea.
  unfold v_sector. rewrite Hv3, Hv2.
  - destruct (data_sector_wf data size j) as [Hl Hb].
    unfold write_block, bind, get in E1.
    destruct (write_sector_view _ _ _ _ _ Hl Hb E1) as [Hw|[Hw _]]; [exact Hw|discriminate Hw].
  - unfold bitmap_sec. rewrite Hs1. intros Hp. apply (areas_disjoint _ Hg _) in Harea as [Hn _].
    apply Hn. rewrite Hp. by apply bitmap_in_area.
  - intros (k' & Hk' & Hp). rewrite u32_small in Hp by (unfold total_bits in *; lia).
    destruct Hp as [Hp|Hp].
    + apply block_pos_inj in Hp; [lia|exact Hg|lia|lia].
    + apply (areas_disjoint _ Hg _) in Harea as [Hn _]. apply Hn. rewrite Hp.
      apply bitmap_in_area; [exact Hg|lia].
Qed.

(** Sectors that an allocation may write: the bitmap and blocks free so far. *)
Definition free_area (g : geo) (v : Z -> list Z) (p : Z) : Prop :=
  exists b, 0 <= b < total_bits g /\ used_bit g v b = false /\ p = phys (block_lba g b).

Definition alloc_area (g : geo) (v : Z -> list Z) (p : Z) : Prop := bitmap_area g p \/ free_area g v p.

(** Such writes keep the used blocks and the inode table. *)
Lemma alloc_area_keeps (s s' : fs D) (P : Z -> Prop) :
  layout (sb s) -> frame P s s' -> (forall p, P p -> alloc_area (sb s) (view s) p) ->
  used_same (sb s) (view s) (view s') /\
  (forall k, 0 <= k < sb_inode_count (sb s) -> v_inode (sb s) (view s') k = v_inode (sb s) (view s) k).
Proof.
  intros Hg (_ & _ & _ & Hv) HP. split.
  - intros b [Hb Hu]. unfold v_sector. apply Hv. intros Hp. apply HP in Hp.
    pose proof (block_in_area _ Hg _ Hb) as Ha. destruct Hp as [Hp|(b' & Hb' & Hf & Hp)].
    + by apply (areas_disjoint _ Hg) in Ha as [? _].
    + apply block_pos_inj in Hp; [congruence|exact Hg|exact Hb|exact Hb'].
  - intros k Hk. unfold v_inode. rewrite Hv; [reflexivity|]. intros Hp. apply HP in Hp.
    pose proof (inode_in_area _ Hg _ Hk) as Ha. destruct Hp as [Hp|(b' & Hb' & _ & Hp)].
    + by apply (areas_disjoint _ Hg) in Hp.
    + pose proof (block_in_area _ Hg _ Hb') as Hd. rewrite <- Hp in Hd.
      by apply (areas_disjoint _ Hg) in Hd as [_ ?].
Qed.

(** The inode [extent_write] produces for [size] bytes at [start]. *)
Definition data_inode (i : nvfs_inode) (start size : Z) : nvfs_inode :=
  mkInode size (i_type i) (i_ctime i) 1
    (mkExt start (sectors_for size) :: replicate 13 (mkExt 0 0)) (i_mtime i).

(** [i'] describes [size] bytes of [data] stored on the disk. *)
Definition stored (g : geo) (v : Z -> list Z) (data : Z -> Z) (size : Z) (i i' : nvfs_inode) : Prop :=
  (size = 0 /\ i' = mkInode 0 (i_type i) (i_ctime i) 0 (i_extents i) (i_mtime i)) \/
  (0 < size /\ exists start, 0 <= start /\ start + sectors_for size <= total_bits g /\
     i' = data_inode i start size /\
     forall k, 0 <= k < sectors_for size -> v_sector g v (start + k) = data_sector data size k).

Lemma extent_write_effect (i : nvfs_inode) (data : Z -> Z) (size : Z) (s : fs D) r s' :
  layout (sb s) -> 0 <= size <= 4294966784 -> fits s (sectors_for size) ->
  extent_write i data size s = (r, s') ->
  frame (alloc_area (sb s) (view s)) s s' /\
  (forall i', r = Some i' -> stored (sb s) (view s') data size i i').
Proof.
  intros Hg Hsz Hfit E. unfold extent_write in E.
  destruct (Z.eqb_spec size 0) as [->|Hnz].
  { injection E as <- <-. split; [apply frame_refl|]. intros i' [= <-]. left. auto. }
  pose proof (sectors_for_eq size Hsz) as Hneed.
  assert (Hpos : 0 < sectors_for size) by (rewrite Hneed; div_mod_lia).
  apply bind_inv in E as [(start & s1 & E1 & E)|[E1 ->]].
  2: { split; [exact (touches_bitmap_find (fun _ => alloc_area _ _) _ _ _ _ E1)|done]. }
  destruct (bitmap_find_fits _ _ _ _ Hg Hfit E1) as (Hst & Hle & Hfree).
  destruct (quiet _ _ _ _ (touches_bitmap_find nothing _) E1) as [Hs1 Hv1].
  pose proof (touches_bitmap_find (fun _ => alloc_area (sb s) (view s)) _ _ _ _ E1) as F1.
  apply bind_inv in E as [(j & s2 & E2 & E)|[E2 _]].
  2: { apply write_blocks_val in E2 as (? & ? & _); [discriminate|..]; rewrite ?Hs1; [exact Hg|lia..]. }
  pose proof Hg as (? & ? & ? & ? & ? & ? & ? & ?).
  assert (Hrun : forall p, run_secs start 0 (0 + Z.of_nat (Z.to_nat (sectors_for size))) (sb s) p ->
                           alloc_area (sb s) (view s) p).
  { intros p (k & Hk & Hp). rewrite u32_small in Hp by (unfold total_bits in *; lia).
    destruct Hp as [-> | ->].
    - right. exists (start + k). split; [lia|]. split; [apply Hfree; lia|reflexivity].
    - left. apply bitmap_in_area; [exact Hg|lia]. }
  pose proof (touches_write_blocks _ _ _ _ _ _ _ _ E2) as F2. rewrite Hs1 in F2.
  assert (F12 : frame (alloc_area (sb s) (view s)) s s2)
    by (eapply frame_trans; [exact F1|eapply frame_weaken; [exact F2|exact Hrun]]).
  apply write_blocks_val in E2 as (j' & Ej & Hj & Hdat); [|rewrite Hs1; assumption|lia|lia|rewrite Hs1; lia]. injection Ej as <-.
  rewrite Hs1 in Hdat. destruct (Z.ltb_spec j (sectors_for size)) as [Hlt|Hge].
  - assert (Hsb2 : sb s2 = sb s) by apply F12.
    assert (F3 : frame (alloc_area (sb s) (view s)) s2 s' /\ r = None).
    { apply bind_inv in E as [(u & s3 & E3 & E4)|[E3 ->]]; [injection E4 as <- <-|]; (split; [|reflexivity]);
        apply touches_release in E3; (eapply frame_weaken; [exact E3|]); rewrite Hsb2;
        intros p (b & Hb & ->); left; apply list_elem_of_fmap in Hb as (k & -> & Hk);
        apply elem_of_seqZ in Hk; rewrite u32_small by (unfold total_bits in *; lia);
        (apply bitmap_in_area; [exact Hg|lia]). }
    destruct F3 as [F3 ->]. split; [|done]. eapply frame_trans; [exact F12|exact F3].
  - injection E as <- <-. split; [exact F12|]. intros i' [= <-]. right. split; [lia|].
    exists start. split; [lia|]. split; [lia|]. split; [reflexivity|].
    intros k Hk. apply Hdat. lia.
Qed.

(** Reading back what [extent_write] stored. *)
Lemma v_data_stored (g : geo) (v : Z -> list Z) (data : Z -> Z) (size : Z) (i i' : nvfs_inode) :
  layout g -> 0 <= size <= 4294966784 -> stored g v data size i i' -> v_data g v i' = data_bytes data size.
Proof.
  intros Hg Hsz [[-> ->]|(Hpos & start & Hst & Hle & -> & Hdat)]; [reflexivity|].
  rewrite (sectors_for_eq size Hsz) in *. pose proof Hg as (? & ? & ? & ? & ? & ? & ? & ?).
  assert (E : v_blocks g v (data_inode i start size) = map (fun j => start + j) (seqZ 0 ((size + 511) / 512))).
  { unfold v_blocks, v_exts, data_inode. cbn [i_extent_count i_extents].
    change (Z.min (Z.min 1 NVFS_DIRECT_EXTENTS) EXTENT_CACHE_MAX) with 1.
    change (1 <=? NVFS_DIRECT_EXTENTS) with true. cbv iota. rewrite app_nil_r.
    cbn [map seqZ seq]. change (seqZ 0 1) with [0]. cbn [map]. unfold ext_at at 1. cbn [Z.to_nat lookup list_lookup].
    unfold ext_blocks. cbn [flat_map default e_start e_count]. rewrite app_nil_r.
    rewrite (sectors_for_eq size Hsz). apply map_ext_in. intros j Hj.
    apply list_elem_of_In, elem_of_seqZ in Hj. apply u32_small. unfold total_bits in *. lia. }
  unfold v_data. rewrite E, map_map. cbn [i_size data_inode].
  rewrite <- (sectors_are_data data size) by exact Hpos. do 2 f_equal.
  apply map_ext_in. intros j Hj. apply list_elem_of_In, elem_of_seqZ in Hj. apply Hdat. lia.
Qed.

Lemma stored_wf (g : geo) (v : Z -> list Z) (data : Z -> Z) (size t : Z) (i i' : nvfs_inode) :
  layout g -> 0 <= size <= 4294966784 -> inode_wf i -> is_u32 t -> stored g v data size i i' ->
  inode_wf (inode_set_mtime i' t) /\ clamp_inode (inode_set_mtime i' t) = inode_set_mtime i' t.
Proof.
  intros Hg Hsz (H1 & H2 & H3 & H4 & H5 & H6 & H7) Ht Hst. pose proof Hg as (? & ? & ? & ? & ? & ? & ? & ?).
  assert (Hu0 : is_u32 0) by (unfold is_u32; lia).
  destruct Hst as [[-> ->]|(Hpos & start & Hs & Hle & -> & _)]; (split; [|reflexivity]).
  - repeat (split; [assumption|]). assumption.
  - unfold data_inode, inode_set_mtime. split; [unfold is_u32; simpl; lia|]. split; [exact H2|].
    split; [exact H3|]. split; [unfold is_u32; simpl; lia|]. split; [reflexivity|]. split; [|exact Ht].
    constructor; [|apply Forall_replicate; by split].
    assert (0 <= sectors_for size) by (rewrite (sectors_for_eq size Hsz); div_mod_lia).
    unfold total_bits, ext_wf, is_u32 in *. simpl. lia.
Qed.

Lemma stored_mtime (g : geo) (v : Z -> list Z) (i' : nvfs_inode) (t : Z) :
  v_data g v (inode_set_mtime i' t) = v_data g v i'.
Proof. reflexivity. Qed.

Lemma stored_keep (g : geo) (v v' : Z -> list Z) (data : Z -> Z) (size : Z) (i i' : nvfs_inode) :
  (forall b, 0 <= b < total_bits g -> v_sector g v' b = v_sector g v b) ->
  0 <= size <= 4294966784 -> stored g v data size i i' -> stored g v' data size i i'.
Proof.
  intros Hv Hsz [?|(Hpos & start & Hs & Hle & -> & Hd)]; [by left|]. right. split; [exact Hpos|].
  exists start. do 3 (split; [assumption || reflexivity|]). intros k Hk.
  rewrite Hv by lia. by apply Hd.
Qed.

Lemma now_sec_val (s : fs D) r s' : now_sec s = (r, s') -> exists t, r = Some t /\ is_u32 t.
Proof.
  unfold now_sec. destruct (get_ticks (dev s)) as [t d] eqn:E. intros [= <- _].
  apply ticks_law in E as [_ Ht]. exists (t / 100). split; [reflexivity|]. unfold is_u32. div_mod_lia.
Qed.

(** ** Shadow paging *)

Lemma alloc_area_ext (g : geo) (v v' : Z -> list Z) (p : Z) :
  (forall q, v' q = v q) -> alloc_area g v' p -> alloc_area g v p.
Proof.
  intros Hv [H|(b & Hb & Hu & Hp)]; [by left|right]. exists b.
  rewrite (used_bit_ext g v v') in Hu by exact Hv. auto.
Qed.

(** Loading the extents keeps a readable drive readable. *)
Lemma extent_load_all_readable (i : nvfs_inode) (s : fs D) r s' :
  readable_fs s -> extent_load_all i s = (r, s') -> readable_fs s'.
Proof.
  intros Hs. unfold extent_load_all. destruct (_ <=? _); [by intros [= _ <-]|].
  unfold indirect_read_extents, read_block, bind, get, ret.
  match goal with |- context [read_sector ?l s] => destruct (read_sector_readable l s Hs) as (buf & s1 & -> & H1) end.
  by intros [= _ <-].
Qed.

(** First half: load the old extents, write the data to free blocks. *)
Lemma prepare_effect {A} (i : nvfs_inode) (data : Z -> Z) (size : Z)
    (k : list nvfs_extent -> nvfs_inode -> M A) (s : fs D) r s' :
  layout (sb s) -> 0 <= size <= 4294966784 -> fits s (sectors_for size) ->
  (old <- extent_load_all i or_errno NVFS_ERR_IO ;;
   i' <- extent_write i data size or_errno NVFS_ERR_NO_SPACE ;; k old i') s = (r, s') ->
  (exists s2 i', frame (alloc_area (sb s) (view s)) s s2 /\
     stored (sb s) (view s2) data size i i' /\
     (exists s1 old, extent_load_all i s = (Some old, s1) /\ extent_write i data size s1 = (Some i', s2)) /\
     k (v_exts (sb s) (view s) i) i' s2 = (r, s')) \/
  (r = None /\ frame (alloc_area (sb s) (view s)) s s').
Proof.
  intros Hg Hsz Hfit E.
  apply bind_inv in E as [(old & s1 & E1 & E)|[E1 ->]].
  2: { right. split; [reflexivity|].
       assert (T : touches (fun _ => alloc_area (sb s) (view s))
                     (extent_load_all (D := D) i or_errno NVFS_ERR_IO)) by touch.
       exact (T _ _ _ E1). }
  apply or_errno_inv in E1 as [(a & E1 & Ea)|(s0 & _ & E' & _)]; [injection Ea as <-|discriminate E'].
  pose proof (extent_load_all_val _ _ _ _ E1) as ->.
  destruct (quiet _ _ _ _ (touches_extent_load_all nothing _) E1) as [Hs1 Hv1].
  pose proof (touches_extent_load_all (fun _ => alloc_area (sb s) (view s)) _ _ _ _ E1) as F1.
  assert (Hw : forall o s2, extent_write i data size s1 = (o, s2) ->
    frame (alloc_area (sb s) (view s)) s s2 /\ (forall i', o = Some i' -> stored (sb s) (view s2) data size i i')).
  { intros o s2 E2. apply extent_write_effect in E2 as [F2 Hst];
      [|by rewrite Hs1|exact Hsz|apply (fits_ext s); [exact Hs1|exact Hv1| |exact Hfit]; intros Hr; exact (extent_load_all_readable _ _ _ _ Hr E1)].
    rewrite Hs1 in *. split; [|exact Hst]. eapply frame_trans; [exact F1|].
    eapply frame_weaken; [exact F2|]. intros p. by apply alloc_area_ext. }
  apply bind_inv in E as [(i' & s2 & E2 & E)|[E2 ->]].
  - left. apply or_errno_inv in E2 as [(a & E2 & Ea)|(s0 & _ & E' & _)]; [injection Ea as <-|discriminate E'].
    destruct (Hw _ _ E2) as [F2 Hst]. exists s2, i'. split; [exact F2|]. split; [auto|]. split; [eauto|exact E].
  - right. split; [reflexivity|].
    apply or_errno_inv in E2 as [(a & _ & E')|(s0 & E2 & _ & F0)]; [discriminate E'|].
    destruct (Hw _ _ E2) as [F2 _]. eapply frame_trans; [exact F2|].
    eapply frame_weaken; [exact F0|]. by intros p [].
Qed.

(** Second half: store the inode, then release the old blocks. *)
Definition commit (inum : Z) (i' : nvfs_inode) (blocks : list Z) (ind : Z) : M unit :=
  t <- now_sec ;;
  inode_write inum (inode_set_mtime i' t) or_errno NVFS_ERR_IO ;;;
  release blocks ;;;
  if negb (ind =? 0) then ignore (bitmap_set ind false) else ret tt.

(** Releasing blocks inside the bitmap writes only the bitmap. *)
Lemma release_frame (blocks : list Z) (ind : Z) (s : fs D) r s' :
  layout (sb s) -> (forall b, b ∈ blocks \/ (b = ind /\ ind <> 0) -> 0 <= b < total_bits (sb s)) ->
  (release blocks ;;; if negb (ind =? 0) then ignore (bitmap_set ind false) else ret tt) s = (r, s') ->
  r = Some tt /\ frame (bitmap_area (sb s)) s s'.
Proof.
  intros Hg Hb E. split.
  - assert (Hr : forall l s0, exists s1, release (D := D) l s0 = (Some tt, s1)).
    { induction l as [|b l IH]; intros s0; [eexists; reflexivity|]. cbn [release].
      unfold bind, ignore. destruct (bitmap_set b false s0) as [o s1]. apply IH. }
    unfold bind in E. destruct (Hr blocks s) as [s1 E1]. rewrite E1 in E.
    destruct (negb (ind =? 0)); [|by injection E].
    apply ignore_inv in E. apply E.
  - assert (T : touches (fun g p => exists b, (b ∈ blocks \/ (b = ind /\ ind <> 0)) /\ bitmap_sec b g p)
      (release (D := D) blocks ;;; if negb (ind =? 0) then ignore (bitmap_set ind false) else ret tt)).
    { apply touches_bind.
      - eapply touches_weaken; [apply touches_release|]. intros g p (b & Hin & Hp). eauto.
      - intros _. destruct (Z.eqb_spec ind 0) as [|Hne]; [apply touches_ret|]. apply touches_ignore.
        eapply touches_weaken; [apply touches_bitmap_set|]. intros g p Hp. eauto. }
    eapply frame_weaken; [exact (T _ _ _ E)|]. intros p (b & Hin & ->).
    apply bitmap_in_area; [exact Hg|auto].
Qed.

Lemma commit_effect (inum : Z) (i' : nvfs_inode) (blocks : list Z) (ind : Z) (s : fs D) r s' :
  layout (sb s) -> 0 <= inum < sb_inode_count (sb s) ->
  (forall t, is_u32 t -> inode_wf (inode_set_mtime i' t) /\
     clamp_inode (inode_set_mtime i' t) = inode_set_mtime i' t) ->
  (forall b, b ∈ blocks \/ (b = ind /\ ind <> 0) -> 0 <= b < total_bits (sb s)) ->
  commit inum i' blocks ind s = (r, s') ->
  frame (fun p => inode_area (sb s) p \/ bitmap_area (sb s) p) s s' /\
  (forall k, 0 <= k < sb_inode_count (sb s) -> k <> inum ->
     v_inode (sb s) (view s') k = v_inode (sb s) (view s) k) /\
  ((r = None /\ v_inode (sb s) (view s') inum = v_inode (sb s) (view s) inum) \/
   (exists t, is_u32 t /\ v_inode (sb s) (view s') inum = inode_set_mtime i' t)).
Proof.
  intros Hg Hi Hwf Hb E. unfold commit in E.
  apply bind_inv in E as [(t & s1 & E1 & E)|[E1 _]];
    destruct (now_sec_val _ _ _ E1) as (t' & Et & Ht); [injection Et as <-|discriminate Et].
  destruct (quiet _ _ _ _ (touches_now_sec nothing) E1) as [Hs1 Hv1].
  assert (Hq : forall k, v_inode (sb s) (view s1) k = v_inode (sb s) (view s) k)
    by (intros; unfold v_inode; by rewrite Hv1).
  destruct (inode_write inum (inode_set_mtime i' t) s1) as [o s2] eqn:E2.
  pose proof (touches_inode_write _ _ _ _ _ E2) as F2.
  destruct (Hwf t Ht) as [Hw Hcl].
  destruct (inode_write_view _ _ _ _ _ ltac:(rewrite Hs1; exact Hg) ltac:(rewrite Hs1; exact Hi) Hw E2)
    as [Hin Hoth]. rewrite Hs1, Hcl in *.
  assert (F12 : frame (fun p => inode_area (sb s) p \/ bitmap_area (sb s) p) s s2).
  { eapply frame_trans; [exact (touches_now_sec (fun _ _ => _) _ _ _ E1)|].
    eapply frame_weaken; [exact F2|]. intros p ->. left. by apply inode_in_area. }
  assert (Hs2 : sb s2 = sb s) by apply F12.
  assert (Hkeep : forall s3, frame (bitmap_area (sb s)) s2 s3 -> forall k, 0 <= k < sb_inode_count (sb s) ->
    v_inode (sb s) (view s3) k = v_inode (sb s) (view s2) k).
  { intros s3 (_ & _ & _ & Hv) k Hk. unfold v_inode. rewrite Hv; [reflexivity|]. intros Hp.
    apply (areas_disjoint _ Hg) in Hp. by apply Hp, inode_in_area. }
  assert (F23 : exists o', frame (bitmap_area (sb s)) s2 s' /\ (o = None -> r = None) /\ o' = o).
  { exists o. apply bind_inv in E as [(u & s3 & E3 & E)|[E3 ->]].
    - apply or_errno_inv in E3 as [(a & E3 & Ea)|(s0 & _ & E' & _)]; [|discriminate E'].
      rewrite E2 in E3. injection E3 as -> <-.
      apply release_frame in E as [-> F3]; rewrite Hs2 in *; [|exact Hg|exact Hb].
      split; [exact F3|]. split; [discriminate|reflexivity].
    - apply or_errno_inv in E3 as [(a & _ & E')|(s0 & E3 & _ & F0)]; [discriminate E'|].
      rewrite E2 in E3. injection E3 as -> <-. split; [|auto].
      eapply frame_weaken; [exact F0|]. by intros p []. }
  destruct F23 as (_ & F3 & Hnone & _).
  split; [eapply frame_trans; [exact F12|eapply frame_weaken; [exact F3|auto]]|]. split.
  - intros k Hk Hne. rewrite (Hkeep s' F3 k Hk), (Hoth k Hk Hne). apply Hq.
  - rewrite (Hkeep s' F3 inum Hi). destruct Hin as [->|[-> ->]]; [right; eauto|left].
    rewrite Hq. auto.
Qed.

Lemma replace_contents_split (inum : Z) (i : nvfs_inode) (data : Z -> Z) (size : Z) (s : fs D) :
  replace_contents inum i data size s =
  (old <- extent_load_all i or_errno NVFS_ERR_IO ;;
   i' <- extent_write i data size or_errno NVFS_ERR_NO_SPACE ;;
   commit inum i' (ext_blocks old) (default 0 (indirect_of i))) s.
Proof. reflexivity. Qed.

(** The update of a file by shadow paging.  Whatever fails, the used blocks
    and the other inodes are untouched, and the file's inode is the old one
    or one that describes the new data; on success it is the latter. *)
Lemma replace_contents_effect (inum : Z) (i : nvfs_inode) (data : Z -> Z) (size : Z) (s : fs D) r s' :
  layout (sb s) -> 0 <= inum < sb_inode_count (sb s) -> i = v_inode (sb s) (view s) inum ->
  inode_blocks_used (sb s) (view s) i ->
  0 <= size <= 4294966784 -> fits s (sectors_for size) ->
  replace_contents inum i data size s = (r, s') ->
  mounted s' = mounted s /\ nvfs_cwd s' = nvfs_cwd s /\ sb s' = sb s /\
  used_same (sb s) (view s) (view s') /\
  (forall k, 0 <= k < sb_inode_count (sb s) -> k <> inum ->
     v_inode (sb s) (view s') k = v_inode (sb s) (view s) k) /\
  ((r = None /\ v_inode (sb s) (view s') inum = i) \/
   (exists i' t, stored (sb s) (view s') data size i i' /\
      v_inode (sb s) (view s') inum = inode_set_mtime i' t)).
Proof.
  intros Hg Hi Ei Hused Hsz Hfit E.
  assert (Hwf : inode_wf i) by (rewrite Ei; apply inode_get_wf, view_bytes).
  rewrite replace_contents_split in E.
  apply (prepare_effect i data size (fun old i' => commit inum i' (ext_blocks old) (default 0 (indirect_of i)))) in E
    as [(s2 & i' & F2 & Hst & _ & E)|[-> F]]; [| |exact Hg|exact Hsz|exact Hfit].
  - destruct (alloc_area_keeps _ _ _ Hg F2 ltac:(auto)) as [Hu2 Hk2].
    pose proof F2 as (Hm2 & Hc2 & Hs2 & _).
    apply commit_effect in E as ((Hm & Hc & Hs & Hv) & Hoth & Hin); rewrite ?Hs2 in *;
      [|exact Hg|exact Hi| |].
    2: { intros t Ht. by apply (stored_wf (sb s) (view s2) data size t i i'). }
    2: { destruct Hused as [Hb Hind]. intros b [Hin|[-> Hne]].
         - unfold v_blocks in Hb. rewrite Forall_forall in Hb. by apply Hb.
         - destruct (indirect_of i) as [x|]; [|done]. by apply Hind. }
    assert (Hdat : forall b, 0 <= b < total_bits (sb s) ->
      v_sector (sb s) (view s') b = v_sector (sb s) (view s2) b).
    { intros b Hb. unfold v_sector. apply Hv.
      pose proof (proj1 (areas_disjoint _ Hg _) (block_in_area _ Hg _ Hb)). tauto. }
    split; [congruence|]. split; [congruence|]. split; [congruence|]. split; [|split].
    + intros b Hb. rewrite Hdat by apply Hb. by apply Hu2.
    + intros k Hk Hne. rewrite Hoth, Hk2 by assumption. reflexivity.
    + destruct Hin as [[-> Hin]|(t & _ & Hin)].
      * left. split; [reflexivity|]. by rewrite Hin, Hk2.
      * right. exists i', t. split; [|exact Hin]. apply (stored_keep _ (view s2)); assumption.
  - destruct (alloc_area_keeps _ _ _ Hg F ltac:(auto)) as [Hu Hk]. destruct F as (Hm & Hc & Hs & _).
    do 4 (split; [assumption|]). split; [intros; by apply Hk|]. left. split; [reflexivity|].
    by rewrite Hk, Ei.
Qed.

(** In terms of file contents: old or new, nothing in between. *)
Lemma replace_contents_atomic (inum : Z) (data : Z -> Z) (size : Z) (s : fs D) r s' :
  layout (sb s) -> 0 <= inum < sb_inode_count (sb s) ->
  inode_blocks_used (sb s) (view s) (v_inode (sb s) (view s) inum) ->
  0 <= size <= 4294966784 -> fits s (sectors_for size) ->
  replace_contents inum (v_inode (sb s) (view s) inum) data size s = (r, s') ->
  sb s' = sb s /\
  (v_file (sb s) (view s') inum = data_bytes data size \/
   (r = None /\ v_file (sb s) (view s') inum = v_file (sb s) (view s) inum)) /\
  (forall k, 0 <= k < sb_inode_count (sb s) -> k <> inum ->
     inode_blocks_used (sb s) (view s) (v_inode (sb s) (view s) k) ->
     v_inode (sb s) (view s') k = v_inode (sb s) (view s) k /\
     v_file (sb s) (view s') k = v_file (sb s) (view s) k).
Proof.
  intros Hg Hi Hb Hsz Hfit E.
  destruct (replace_contents_effect _ _ _ _ _ _ _ Hg Hi eq_refl Hb Hsz Hfit E)
    as (_ & _ & Hs & Hu & Hoth & Hin).
  split; [exact Hs|]. split.
  - unfold v_file. destruct Hin as [[-> ->]|(i' & t & Hst & ->)].
    + right. split; [reflexivity|]. by apply v_data_same.
    + left. rewrite stored_mtime. by apply (v_data_stored _ _ _ _ (v_inode (sb s) (view s) inum)).
  - intros k Hk Hne Hbk. rewrite (Hoth k Hk Hne). split; [reflexivity|].
    unfold v_file. rewrite (Hoth k Hk Hne). by apply v_data_same.
Qed.

End files.
