(* ===== verification/NvfsRead.v ===== *)
(** * Reads on a working drive

    [exact f m]: on a healthy drive [m] returns what the pure function [f]
    computes from the file system's variables and the disk's sectors, and
    changes nothing.  With it the read side of the file system becomes a set
    of pure functions: [v_inode], [v_exts], [v_data] and [v_dir_find]. *)
From S2P Require Import Prelude Bytes BlockDev Nvfs NvfsLayout NvfsDisk NvfsBlocks NvfsFiles.

Import Nvfs.
Open Scope nvfs_scope.

(** The variables an operation may read: mounted, current directory, superblock. *)
Definition env : Type := bool * Z * geo.

Definition env_sb (e : env) : geo := snd e.

Definition pure (A : Type) : Type := env -> (Z -> list Z) -> option A.

(** Lookup of a name in directory blocks, and in a directory. *)
Fixpoint v_find_in (g : geo) (v : Z -> list Z) (blocks : list Z) (name : list Z) : option Z :=
  match blocks with
  | [] => None
  | b :: r =>
    match find_entry (entry_named name) (v_sector g v b) with
    | Some e => let i := dirent_inode (v_sector g v b) e in if i <? 2147483648 then Some i else None
    | None => v_find_in g v r name
    end
  end.

Definition v_dir_find (g : geo) (v : Z -> list Z) (dir : Z) (name : list Z) : option Z :=
  if sb_inode_count g <=? dir then None
  else if negb (i_type (v_inode g v dir) =? NVFS_TYPE_DIR) then None
  else v_find_in g v (v_blocks g v (v_inode g v dir)) name.

Section exact.
Context {D : Type} `{ML : MachineLaws D} {HD : HealthyDrive D}.
Abbreviation M := (@M D).

Definition healthy_fs (s : fs D) : Prop := healthy (dev s) (nvfs_ch (sb s)) (nvfs_dr (sb s)).

Definition env_of (s : fs D) : env := (mounted s, nvfs_cwd s, sb s).

Definition extensional {A} (f : pure A) : Prop :=
  forall e v v', (forall p, v p = v' p) -> f e v = f e v'.

Definition exact {A} (f : pure A) (m : M A) : Prop :=
  extensional f /\ touches nothing m /\
  forall s r s', healthy_fs s -> m s = (r, s') -> r = f (env_of s) (view s) /\ healthy_fs s'.

Lemma env_quiet {A} (m : M A) (s : fs D) r s' :
  touches nothing m -> m s = (r, s') -> env_of s' = env_of s /\ forall p, view s' p = view s p.
Proof.
  intros Ht E. destruct (Ht _ _ _ E) as (Hm & Hc & Hs & Hv). unfold env_of. rewrite Hm, Hc, Hs.
  split; [reflexivity|]. intros p. apply Hv. intros [].
Qed.

Lemma exact_run {A} (f : pure A) (m : M A) (s : fs D) :
  exact f m -> healthy_fs s -> exists s', m s = (f (env_of s) (view s), s') /\ healthy_fs s' /\
    env_of s' = env_of s /\ forall p, view s' p = view s p.
Proof.
  intros (_ & Ht & H) Hh. destruct (m s) as [r s'] eqn:E. destruct (H _ _ _ Hh E) as [-> Hh'].
  destruct (env_quiet _ _ _ _ Ht E). eauto 6.
Qed.

Lemma exact_ret {A} (a : A) : exact (fun _ _ => Some a) (ret a).
Proof. split; [done|]. split; [apply touches_ret|]. by intros s r s' Hh [= <- <-]. Qed.

Lemma exact_fail {A} : exact (fun _ _ => None) (fail (A := A)).
Proof. split; [done|]. split; [apply touches_fail|]. by intros s r s' Hh [= <- <-]. Qed.

Lemma exact_get_sb : exact (fun e _ => Some (env_sb e)) (get sb).
Proof. split; [done|]. split; [apply touches_get|]. by intros s r s' Hh [= <- <-]. Qed.

Lemma exact_set_errno (x : Z) : exact (fun _ _ => Some tt) (set_errno x).
Proof. split; [done|]. split; [apply touches_set_errno|]. by intros s r s' Hh [= <- <-]. Qed.

Lemma exact_bind {A B} (f : pure A) (h : A -> pure B) (m : M A) (k : A -> M B) :
  exact f m -> (forall a, exact (h a) (k a)) ->
  exact (fun e v => match f e v with Some a => h a e v | None => None end) (bind m k).
Proof.
  intros (Fe & Ft & Fx) Hk. split; [|split].
  - intros e v v' Hv. rewrite (Fe e v v' Hv). destruct (f e v') as [a|]; [|done]. by apply (Hk a).
  - apply touches_bind; [exact Ft|]. intros a. apply Hk.
  - intros s r s' Hh E. apply bind_inv in E as [(a & s1 & E1 & E)|[E1 ->]];
      destruct (Fx _ _ _ Hh E1) as [<- Hh1]; [|done].
    destruct (env_quiet _ _ _ _ Ft E1) as [He Hv]. destruct (Hk a) as (Ke & _ & Kx).
    destruct (Kx _ _ _ Hh1 E) as [-> Hh']. split; [|exact Hh'].
    rewrite He. by apply Ke.
Qed.

Lemma exact_try {A} (f : pure A) (m : M A) : exact f m -> exact (fun e v => Some (f e v)) (try m).
Proof.
  intros (Fe & Ft & Fx). split; [|split; [by apply touches_try|]].
  - intros e v v' Hv. by rewrite (Fe e v v' Hv).
  - intros s r s' Hh E. unfold try in E. destruct (m s) as [o s1] eqn:E1. injection E as <- <-.
    destruct (Fx _ _ _ Hh E1) as [-> Hh']. auto.
Qed.

(** Two descriptions that agree are interchangeable. *)
Lemma exact_eq {A} (f f' : pure A) (m : M A) : exact f m -> (forall e v, f e v = f' e v) -> exact f' m.
Proof.
  intros (Fe & Ft & Fx) H. split; [|split; [exact Ft|]].
  - intros e v v' Hv. rewrite <- !H. by apply Fe.
  - intros s r s' Hh E. rewrite <- H. by apply Fx.
Qed.

Lemma exact_fail_errno {A} (x : Z) : exact (fun _ _ => None) (fail_errno (A := A) x).
Proof. exact (exact_bind _ _ _ _ (exact_set_errno x) (fun _ => exact_fail)). Qed.

Lemma exact_or_errno {A} (f : pure A) (m : M A) (x : Z) : exact f m -> exact f (m or_errno x).
Proof.
  intros H. eapply exact_eq.
  - apply (exact_bind _ (fun o _ _ => o) _ _ (exact_try _ _ H)).
    intros [a|]; [apply exact_ret|apply exact_fail_errno].
  - reflexivity.
Qed.

Lemma exact_ret_int (i : Z) :
  exact (fun _ _ => if i <? 2147483648 then Some i else None) (ret_int i).
Proof. unfold ret_int. destruct (i <? 2147483648); [apply exact_ret|apply exact_fail]. Qed.

Lemma exact_read_sector (lba : Z) : exact (fun _ v => Some (v (phys lba))) (read_sector lba).
Proof.
  split; [|split; [apply touches_read_sector|]].
  - intros e v v' Hv. by rewrite Hv.
  - intros s r s' Hh E. pose proof E as E0. unfold read_sector in E.
    destruct (read_healthy _ _ _ lba Hh) as [Hok Hh'].
    destruct (ata_read (dev s) _ _ lba) as [o d]. injection E as <- <-. split; [|exact Hh'].
    destruct (read_sector_val _ _ _ _ E0) as [->| ->]; [reflexivity|]. by destruct Hok.
Qed.

(** ** The read side *)

Lemma exact_read_block (b : Z) : exact (fun e v => Some (v_sector (env_sb e) v b)) (read_block b).
Proof. exact (exact_bind _ (fun g _ v => Some (v_sector g v b)) _ _ exact_get_sb (fun g => exact_read_sector _)). Qed.

Lemma exact_inode_read (inum : Z) :
  exact (fun e v => if sb_inode_count (env_sb e) <=? inum then None
                    else Some (v_inode (env_sb e) v inum)) (inode_read inum).
Proof.
  eapply exact_eq.
  - refine (exact_bind _ (fun g _ v => if sb_inode_count g <=? inum then None
              else Some (v_inode g v inum)) _ _ exact_get_sb _).
    intros g. destruct (sb_inode_count g <=? inum); [apply exact_fail_errno|].
    eapply exact_eq; [exact (exact_bind _ _ _ _ (exact_read_sector _) (fun buf => exact_ret _))|].
    reflexivity.
  - reflexivity.
Qed.

Lemma exact_extent_load_all (i : nvfs_inode) :
  exact (fun e v => Some (v_exts (env_sb e) v i)) (extent_load_all i).
Proof.
  unfold extent_load_all. destruct (i_extent_count i <=? NVFS_DIRECT_EXTENTS) eqn:Ec.
  - eapply exact_eq; [apply exact_ret|]. intros e v. unfold v_exts. rewrite Ec. by rewrite app_nil_r.
  - eapply exact_eq.
    + refine (exact_bind _ _ _ _ _ (fun r => exact_ret _)).
      refine (exact_bind _ _ _ _ (exact_read_block _) (fun buf => exact_ret _)).
    + intros e v. cbv beta iota. unfold v_exts. rewrite Ec.
      match goal with |- context [if ?a <? ?b then ?a else ?b] =>
        replace (if a <? b then a else b) with (Z.min b a) by (destruct (Z.ltb_spec a b); lia) end.
      reflexivity.
Qed.

Lemma take_app_step (acc tmp rest : list Z) (n : Z) :
  length tmp = 512%nat -> Z.of_nat (length acc) < n ->
  (acc ++ take (Z.to_nat (Z.min 512 (n - Z.of_nat (length acc)))) tmp) ++
    take (Z.to_nat (n - Z.of_nat (length (acc ++ take (Z.to_nat (Z.min 512 (n - Z.of_nat (length acc)))) tmp)))) rest
  = acc ++ take (Z.to_nat (n - Z.of_nat (length acc))) (tmp ++ rest).
Proof.
  intros Hl Hn. rewrite <- app_assoc. f_equal. rewrite length_app, length_take, Hl.
  rewrite take_app. f_equal.
  - destruct (Z.le_gt_cases 512 (n - Z.of_nat (length acc))).
    + rewrite !take_ge by lia. reflexivity.
    + f_equal. lia.
  - f_equal. lia.
Qed.

Lemma exact_read_blocks (blocks : list Z) (remain : Z) (acc : list Z) :
  Z.of_nat (length acc) <= Z.max 0 remain ->
  forall s r s', healthy_fs s -> read_blocks blocks remain acc s = (r, s') ->
  r = Some (acc ++ take (Z.to_nat (remain - Z.of_nat (length acc)))
                     (concat (map (v_sector (sb s) (view s)) blocks))) /\ healthy_fs s'.
Proof.
  revert acc; induction blocks as [|b bl IH]; intros acc Hle s r s' Hh E; cbn [read_blocks] in E.
  { injection E as <- <-. cbn [map concat]. rewrite take_nil, app_nil_r. auto. }
  destruct (Z.ltb_spec (Z.of_nat (length acc)) remain) as [Hlt|Hge].
  - destruct (exact_run _ _ s (exact_read_block b) Hh) as (s1 & E1 & Hh1 & He1 & Hv1).
    unfold bind in E. rewrite E1 in E.
    assert (Hs1 : sb s1 = sb s) by (unfold env_of in He1; congruence).
    assert (Hlen : length (v_sector (sb s) (view s) b) = 512%nat) by apply view_len.
    apply IH in E as [-> Hh']; [|rewrite length_app, length_take; change NVFS_SECTOR_SIZE with 512; lia|exact Hh1].
    split; [|exact Hh']. f_equal. rewrite Hs1. change NVFS_SECTOR_SIZE with 512.
    rewrite (map_ext (v_sector (sb s) (view s1)) (v_sector (sb s) (view s)))
      by (intros; unfold v_sector; apply Hv1).
    cbn [map concat]. by apply take_app_step.
  - injection E as <- <-. rewrite (Z.le_antisymm (Z.of_nat (length acc)) (Z.max 0 remain)) by lia.
    replace (Z.to_nat (remain - Z.max 0 remain)) with 0%nat by lia. rewrite take_0, app_nil_r. auto.
Qed.

(** [extent_read] returns the contents, cut to the buffer. *)
Lemma exact_extent_read (i : nvfs_inode) (max : Z) :
  exact (fun e v => Some (take (Z.to_nat max) (v_data (env_sb e) v i))) (extent_read i max).
Proof.
  split; [|split; [apply touches_extent_read|]].
  - intros e v v' Hv. do 2 f_equal. unfold v_data, v_blocks, v_exts, v_sector.
    rewrite (map_ext _ (fun b => v' (phys (block_lba (env_sb e) b)))) by (intros; apply Hv).
    by rewrite !Hv.
  - intros s r s' Hh E. unfold extent_read in E.
    destruct (exact_run _ _ s (exact_extent_load_all i) Hh) as (s1 & E1 & Hh1 & He1 & Hv1).
    unfold bind in E. rewrite E1 in E. apply exact_read_blocks in E as [-> Hh']; [|simpl; lia|exact Hh1].
    assert (Hs1 : sb s1 = sb s) by (unfold env_of in He1; congruence).
    split; [|exact Hh']. f_equal. cbn [app length]. rewrite Hs1. unfold v_data, v_blocks.
    rewrite (map_ext (v_sector (sb s) (view s1)) (v_sector (sb s) (view s)))
      by (intros; unfold v_sector; apply Hv1).
    rewrite take_take. unfold env_sb, env_of. cbn [snd]. f_equal. lia.
Qed.

Lemma exact_dir_find_in (blocks name : list Z) :
  exact (fun e v => v_find_in (env_sb e) v blocks name) (dir_find_in blocks name).
Proof.
  induction blocks as [|b r IH]; cbn [dir_find_in v_find_in]; [apply exact_fail_errno|].
  eapply exact_eq.
  - apply (exact_bind _ (fun tmp e v => match find_entry (entry_named name) tmp with
      | Some x => let i := dirent_inode tmp x in if i <? 2147483648 then Some i else None
      | None => v_find_in (env_sb e) v r name
      end) _ _ (exact_or_errno _ _ _ (exact_read_block b))).
    intros tmp. destruct (find_entry (entry_named name) tmp); [apply exact_ret_int|exact IH].
  - reflexivity.
Qed.

Lemma exact_dir_inode_read (dir : Z) :
  exact (fun e v => if sb_inode_count (env_sb e) <=? dir then None
    else if negb (i_type (v_inode (env_sb e) v dir) =? NVFS_TYPE_DIR) then None
    else Some (v_inode (env_sb e) v dir)) (dir_inode_read dir).
Proof.
  eapply exact_eq.
  - apply (exact_bind _ (fun i _ _ => if negb (i_type i =? NVFS_TYPE_DIR) then None else Some i) _ _
             (exact_or_errno _ _ _ (exact_inode_read dir))).
    intros i. destruct (negb (i_type i =? NVFS_TYPE_DIR)); [apply exact_fail_errno|apply exact_ret].
  - intros e v. cbv beta. destruct (sb_inode_count (env_sb e) <=? dir); reflexivity.
Qed.

(** [dir_find] is [v_dir_find]. *)
Lemma exact_dir_find (dir : Z) (name : list Z) :
  exact (fun e v => v_dir_find (env_sb e) v dir name) (dir_find dir name).
Proof.
  eapply exact_eq.
  - refine (exact_bind _ _ _ _ (exact_dir_inode_read dir) (fun i => _)).
    exact (exact_bind _ _ _ _ (exact_or_errno _ _ _ (exact_extent_load_all i))
             (fun cache => exact_dir_find_in (ext_blocks cache) name)).
  - intros e v. cbv beta. unfold v_dir_find, v_blocks.
    destruct (sb_inode_count (env_sb e) <=? dir); [reflexivity|].
    destruct (negb (i_type (v_inode (env_sb e) v dir) =? NVFS_TYPE_DIR)); reflexivity.
Qed.

End exact.
