(* ===== verification/NvfsPath.v ===== *)
(** * Path resolution and reading by path

    [resolve_path] and [nvfs_read] as pure functions of the disk
    ([v_resolve], [v_read]), and the fact that they depend on the disk only
    through its directories ([dir_same]) and the file that is read. *)
From S2P Require Import Prelude Bytes BlockDev Nvfs NvfsLayout NvfsDisk NvfsBlocks NvfsFiles NvfsRead.

Import Nvfs.
Open Scope nvfs_scope.

(** ** Pure resolution *)

Section pure_paths.
Context (g : geo) (v : Z -> list Z).

Definition v_has_entry (inum b : Z) : bool :=
  match find_entry (entry_for inum) (v_sector g v b) with Some _ => true | None => false end.

Fixpoint v_find_parent_from (n : nat) (i inum : Z) : option Z :=
  match n with
  | O => None
  | S n =>
    if (i <? sb_inode_count g) && (i_type (v_inode g v i) =? NVFS_TYPE_DIR) &&
       existsb (v_has_entry inum) (v_blocks g v (v_inode g v i))
    then if i <? 2147483648 then Some i else None
    else v_find_parent_from n (i + 1) inum
  end.

Definition v_find_parent (inum : Z) : option Z :=
  if inum =? NVFS_ROOT_INODE then None
  else v_find_parent_from (Z.to_nat (sb_inode_count g)) 0 inum.

Definition v_resolve_last (cur : Z) (name : list Z) : option (Z * list Z) :=
  if is_dotdot name then option_map (fun p => (p, [])) (v_find_parent cur)
  else if is_dot name then Some (cur, [])
  else Some (cur, to_upper name).

Definition v_resolve_comp (cur : Z) (comp : list Z) : option Z :=
  if is_dotdot comp then v_find_parent cur
  else if is_dot comp then Some cur
  else
    match v_dir_find g v cur (to_upper comp) with
    | None => None
    | Some inum =>
      if (inum <? sb_inode_count g) && (i_type (v_inode g v inum) =? NVFS_TYPE_DIR)
      then Some inum else None
    end.

Fixpoint v_resolve_loop (n : nat) (i seg_start cur last_slash : Z) (buf : list Z) : option (Z * Z) :=
  match n with
  | O => Some (cur, seg_start)
  | S n =>
    if (i =? last_slash) || (byte_at buf i =? SLASH) then
      match (if seg_start <? i then v_resolve_comp cur (sub buf seg_start i) else Some cur) with
      | Some cur => v_resolve_loop n (i + 1) (i + 1) cur last_slash buf
      | None => None
      end
    else v_resolve_loop n (i + 1) seg_start cur last_slash buf
  end.

Definition v_resolve (cwd : Z) (path : list Z) : option (Z * list Z) :=
  let buf := take 255 path in
  let len := Z.of_nat (length buf) in
  if len =? 0 then Some (cwd, [])
  else
    let absolute := byte_at buf 0 =? SLASH in
    let cur := if absolute then NVFS_ROOT_INODE else cwd in
    let start := if absolute then 1 else 0 in
    let last_slash := last_slash_from start buf in
    if last_slash <? 0 then v_resolve_last cur (sub buf start len)
    else
      match v_resolve_loop (Z.to_nat (last_slash - start + 1)) start start cur last_slash buf with
      | Some (cur, seg_start) => v_resolve_last cur (sub buf seg_start len)
      | None => None
      end.

(** The inode a path names, for a path with a last component. *)
Definition v_lookup (cwd : Z) (path : list Z) : option Z :=
  match v_resolve cwd path with
  | Some (parent, (_ :: _) as name) => v_dir_find g v parent name
  | _ => None
  end.

End pure_paths.

(** [nvfs_read]: the first [max] bytes of the file a path names. *)
Definition v_read (e : env) (v : Z -> list Z) (path : list Z) (max : Z) : option (list Z) :=
  let '(m, cwd, g) := e in
  if m : bool then
    match v_lookup g v cwd path with
    | Some inum =>
      if (inum <? sb_inode_count g) && (i_type (v_inode g v inum) =? NVFS_TYPE_FILE)
      then Some (take (Z.to_nat max) (v_file g v inum)) else None
    | None => None
    end
  else None.

(** ** The implementation computes them *)

Section exact_paths.
Context {D : Type} `{ML : MachineLaws D} {HD : HealthyDrive D}.
Abbreviation M := (@M D).

Lemma exact_has_child (blocks : list Z) (inum : Z) :
  exact (fun e v => Some (existsb (v_has_entry (env_sb e) v inum) blocks)) (has_child (D := D) blocks inum).
Proof.
  induction blocks as [|b r IH]; cbn [has_child existsb]; [apply exact_ret|].
  eapply exact_eq.
  - apply (exact_bind _ (fun o e v => match o with
      | None => Some (existsb (v_has_entry (env_sb e) v inum) r)
      | Some tmp => match find_entry (entry_for inum) tmp with
        | Some _ => Some true | None => Some (existsb (v_has_entry (env_sb e) v inum) r) end
      end) _ _ (exact_try _ _ (exact_read_block b))).
    intros [tmp|]; [|exact IH]. destruct (find_entry (entry_for inum) tmp); [apply exact_ret|exact IH].
  - intros e v. cbv beta iota. unfold v_has_entry at 2.
    by destruct (find_entry (entry_for inum) (v_sector (env_sb e) v b)).
Qed.

Lemma exact_find_parent_from (n : nat) (i inum : Z) :
  exact (fun e v => v_find_parent_from (env_sb e) v n i inum) (find_parent_from (D := D) n i inum).
Proof.
  revert i; induction n as [|n IH]; intros i; cbn [find_parent_from v_find_parent_from]; [apply exact_fail|].
  eapply exact_eq.
  - refine (exact_bind _ (fun o e v => match o with
      | None => v_find_parent_from (env_sb e) v n (i + 1) inum
      | Some ino => if negb (i_type ino =? NVFS_TYPE_DIR) then v_find_parent_from (env_sb e) v n (i + 1) inum
          else if existsb (v_has_entry (env_sb e) v inum) (v_blocks (env_sb e) v ino)
               then if i <? 2147483648 then Some i else None
               else v_find_parent_from (env_sb e) v n (i + 1) inum
      end) _ _ (exact_try _ _ (exact_inode_read i)) _).
    intros [ino|]; [|apply IH]. destruct (negb (i_type ino =? NVFS_TYPE_DIR)); [apply IH|].
    eapply exact_eq.
    + refine (exact_bind _ (fun o e v => match o with
        | None => v_find_parent_from (env_sb e) v n (i + 1) inum
        | Some cache => if existsb (v_has_entry (env_sb e) v inum) (ext_blocks cache)
               then if i <? 2147483648 then Some i else None
               else v_find_parent_from (env_sb e) v n (i + 1) inum
        end) _ _ (exact_try _ _ (exact_extent_load_all ino)) _).
      intros [cache|]; [|apply IH].
      eapply exact_eq; [refine (exact_bind _ (fun b e v => if b : bool then
          if i <? 2147483648 then Some i else None else v_find_parent_from (env_sb e) v n (i + 1) inum)
          _ _ (exact_has_child (ext_blocks cache) inum) _)|reflexivity].
      intros [|]; [apply exact_ret_int|apply IH].
    + reflexivity.
  - intros e v. cbv beta iota. rewrite (Z.ltb_antisym (sb_inode_count (env_sb e)) i).
    destruct (sb_inode_count (env_sb e) <=? i); [reflexivity|]. cbn [negb andb].
    by destruct (i_type (v_inode (env_sb e) v i) =? NVFS_TYPE_DIR).
Qed.

Lemma exact_find_parent (inum : Z) :
  exact (fun e v => v_find_parent (env_sb e) v inum) (find_parent (D := D) inum).
Proof.
  unfold find_parent, v_find_parent. destruct (inum =? NVFS_ROOT_INODE); [apply exact_fail|].
  eapply exact_eq; [exact (exact_bind _ (fun g e v => v_find_parent_from (env_sb e) v
    (Z.to_nat (sb_inode_count g)) 0 inum) _ _ exact_get_sb (fun g => exact_find_parent_from _ 0 inum))|].
  reflexivity.
Qed.

Lemma exact_resolve_last (cur : Z) (name : list Z) :
  exact (fun e v => v_resolve_last (env_sb e) v cur name) (resolve_last (D := D) cur name).
Proof.
  unfold resolve_last, v_resolve_last. destruct (is_dotdot name).
  - eapply exact_eq; [exact (exact_bind _ _ _ _ (exact_or_errno _ _ _ (exact_find_parent cur))
                               (fun p => exact_ret _))|reflexivity].
  - destruct (is_dot name); apply exact_ret.
Qed.

Lemma exact_resolve_comp (cur : Z) (comp : list Z) :
  exact (fun e v => v_resolve_comp (env_sb e) v cur comp) (resolve_comp (D := D) cur comp).
Proof.
  unfold resolve_comp, v_resolve_comp. destruct (is_dotdot comp); [apply exact_or_errno, exact_find_parent|].
  destruct (is_dot comp); [apply exact_ret|].
  eapply exact_eq.
  - refine (exact_bind _ (fun inum e v => if (inum <? sb_inode_count (env_sb e)) &&
      (i_type (v_inode (env_sb e) v inum) =? NVFS_TYPE_DIR) then Some inum else None) _ _
      (exact_or_errno _ _ _ (exact_dir_find cur (to_upper comp))) _).
    intros inum. eapply exact_eq.
    + refine (exact_bind _ (fun ino _ _ => if negb (i_type ino =? NVFS_TYPE_DIR) then None else Some inum)
        _ _ (exact_or_errno _ _ _ (exact_inode_read inum)) _).
      intros ino. destruct (negb (i_type ino =? NVFS_TYPE_DIR)); [apply exact_fail_errno|apply exact_ret].
    + intros e v. cbv beta iota. rewrite (Z.ltb_antisym (sb_inode_count (env_sb e)) inum).
      destruct (sb_inode_count (env_sb e) <=? inum); [reflexivity|]. cbn [negb andb].
      by destruct (i_type (v_inode (env_sb e) v inum) =? NVFS_TYPE_DIR).
  - reflexivity.
Qed.

Lemma exact_resolve_loop (n : nat) (i seg cur last : Z) (buf : list Z) :
  exact (fun e v => v_resolve_loop (env_sb e) v n i seg cur last buf)
    (resolve_loop (D := D) n i seg cur last buf).
Proof.
  revert i seg cur; induction n as [|n IH]; intros i seg cur; cbn [resolve_loop v_resolve_loop];
    [apply exact_ret|].
  destruct ((i =? last) || (byte_at buf i =? SLASH)); [|apply IH].
  eapply exact_eq.
  - refine (exact_bind (fun e v => if seg <? i then v_resolve_comp (env_sb e) v cur (sub buf seg i) else Some cur)
      _ _ _ _ (fun c => IH _ _ c)).
    destruct (seg <? i); [apply exact_resolve_comp|apply exact_ret].
  - reflexivity.
Qed.

Lemma exact_get_cwd : exact (fun e _ => Some (snd (fst e))) (get (D := D) nvfs_cwd).
Proof. split; [done|]. split; [apply touches_get|]. by intros s r s' Hh [= <- <-]. Qed.

Lemma exact_resolve_path (path : list Z) :
  exact (fun e v => v_resolve (env_sb e) v (snd (fst e)) path) (resolve_path (D := D) path).
Proof.
  unfold resolve_path, v_resolve. set (buf := take 255 path). set (len := Z.of_nat (length buf)).
  eapply exact_eq.
  - refine (exact_bind _ (fun cwd e v => v_resolve (env_sb e) v cwd path) _ _ exact_get_cwd _).
    intros cwd. unfold v_resolve. fold buf. fold len.
    destruct (len =? 0); [apply exact_ret|]. set (start := if byte_at buf 0 =? SLASH then 1 else 0).
    destruct (last_slash_from start buf <? 0); [apply exact_resolve_last|].
    eapply exact_eq.
    + refine (exact_bind _ (fun r e v => let '(c, seg) := r in
        v_resolve_last (env_sb e) v c (sub buf seg len)) _ _ (exact_resolve_loop _ _ _ _ _ _) _).
      intros [c seg]. apply exact_resolve_last.
    + reflexivity.
  - reflexivity.
Qed.

Lemma exact_resolve_name (path : list Z) :
  exact (fun e v => if fst (fst e) : bool then
           match v_resolve (env_sb e) v (snd (fst e)) path with
           | Some (p, (_ :: _) as name) => Some (p, name) | _ => None end
         else None) (resolve_name (D := D) path).
Proof.
  eapply exact_eq.
  - refine (exact_bind (fun e _ => if fst (fst e) : bool then Some tt else None)
      (fun _ e v => match v_resolve (env_sb e) v (snd (fst e)) path with
           | Some (p, (_ :: _) as name) => Some (p, name) | _ => None end) _ _ _ _).
    + eapply exact_eq.
      * refine (exact_bind (fun e _ => Some (fst (fst e))) (fun (m : bool) _ _ => if m then Some tt else None)
                  (get (D := D) mounted) _ _ _).
        -- split; [done|]. split; [apply touches_get|]. by intros s r s' Hh [= <- <-].
        -- intros [|]; [apply exact_ret|apply exact_fail_errno].
      * reflexivity.
    + intros _. eapply exact_eq.
      * refine (exact_bind _ (fun r _ _ => match snd r with [] => None | _ => Some r end) _ _
                  (exact_resolve_path path) _).
        intros [p [|c name]]; cbn [snd]; [apply exact_fail_errno|apply exact_ret].
      * intros e v. cbv beta iota. destruct (v_resolve _ _ _ path) as [[p [|c name]]|]; reflexivity.
  - intros [[[|] cwd] g] v; reflexivity.
Qed.

(** [nvfs_read] is [v_read]. *)
Lemma exact_nvfs_read (path : list Z) (max : Z) :
  exact (fun e v => v_read e v path max) (nvfs_read (D := D) path max).
Proof.
  eapply exact_eq.
  - refine (exact_bind _ _ _ _ (exact_resolve_name path) (fun r => _)).
    refine (exact_bind _ _ _ _ (exact_dir_find (fst r) (snd r)) (fun inum => _)).
    refine (exact_bind _ (fun ino e v => if negb (i_type ino =? NVFS_TYPE_FILE) then None
        else Some (take (Z.to_nat max) (v_data (env_sb e) v ino))) _ _
        (exact_or_errno _ _ _ (exact_inode_read inum)) (fun ino => _)).
    destruct (negb (i_type ino =? NVFS_TYPE_FILE)); [apply exact_fail_errno|apply exact_extent_read].
  - intros [[m cwd] g] v. cbn [fst snd env_sb v_read]. destruct m; [|reflexivity].
    unfold v_lookup. destruct (v_resolve g v cwd path) as [[p [|c name]]|]; [reflexivity| |reflexivity].
    cbn [fst snd]. destruct (v_dir_find g v p (c :: name)) as [inum|]; [|reflexivity].
    rewrite (Z.ltb_antisym (sb_inode_count g) inum).
    destruct (sb_inode_count g <=? inum); [reflexivity|]. cbn [negb andb].
    by destruct (i_type (v_inode g v inum) =? NVFS_TYPE_FILE).
Qed.

End exact_paths.

(** ** Dependence on the directories only *)

(** Two disks with the same inode types and the same directories. *)
Definition dir_same (g : geo) (v v' : Z -> list Z) : Prop :=
  forall k, 0 <= k < sb_inode_count g ->
    i_type (v_inode g v' k) = i_type (v_inode g v k) /\
    (i_type (v_inode g v k) = NVFS_TYPE_DIR ->
       v_inode g v' k = v_inode g v k /\
       v_exts g v' (v_inode g v k) = v_exts g v (v_inode g v k) /\
       forall b, b ∈ v_blocks g v (v_inode g v k) -> v_sector g v' b = v_sector g v b).

Section same.
Context (g : geo) (v v' : Z -> list Z) (Hsame : dir_same g v v') (Hby : forall p, is_bytes (v p)).

Lemma v_find_in_same (blocks name : list Z) :
  (forall b, b ∈ blocks -> v_sector g v' b = v_sector g v b) ->
  v_find_in g v' blocks name = v_find_in g v blocks name.
Proof.
  induction blocks as [|b r IH]; intros H; cbn [v_find_in]; [reflexivity|].
  rewrite H by apply list_elem_of_here. destruct (find_entry _ _); [reflexivity|].
  apply IH. intros c Hc. apply H. by apply list_elem_of_further.
Qed.

Lemma v_dir_find_same (dir : Z) (name : list Z) :
  0 <= dir -> v_dir_find g v' dir name = v_dir_find g v dir name.
Proof.
  intros Hd. unfold v_dir_find. destruct (Z.leb_spec (sb_inode_count g) dir); [reflexivity|].
  destruct (Hsame dir ltac:(lia)) as [Ht Hdir]. rewrite Ht.
  destruct (Z.eqb_spec (i_type (v_inode g v dir)) NVFS_TYPE_DIR) as [E|]; [|reflexivity].
  destruct (Hdir E) as (-> & Hx & Hb). cbn [negb]. unfold v_blocks in *. rewrite Hx. by apply v_find_in_same.
Qed.

Lemma v_find_in_range (blocks name : list Z) (i : Z) : v_find_in g v blocks name = Some i -> 0 <= i.
Proof.
  induction blocks as [|b r IH]; cbn [v_find_in]; [discriminate|].
  destruct (find_entry _ _) as [e|]; [|exact IH]. cbv zeta. destruct (_ <? _); [|discriminate].
  intros [= <-]. apply get32_range, Hby.
Qed.

Lemma v_dir_find_range (dir : Z) (name : list Z) (i : Z) : v_dir_find g v dir name = Some i -> 0 <= i.
Proof.
  unfold v_dir_find. destruct (_ <=? _); [discriminate|]. destruct (negb _); [discriminate|].
  apply v_find_in_range.
Qed.

Lemma v_find_parent_from_same (n : nat) (i inum : Z) :
  0 <= i -> v_find_parent_from g v' n i inum = v_find_parent_from g v n i inum.
Proof.
  revert i; induction n as [|n IH]; intros i Hi; cbn [v_find_parent_from]; [reflexivity|].
  rewrite (IH (i + 1)) by lia. destruct (Z.ltb_spec i (sb_inode_count g)); [|reflexivity].
  destruct (Hsame i ltac:(lia)) as [Ht Hdir]. rewrite Ht. cbn [andb].
  destruct (Z.eqb_spec (i_type (v_inode g v i)) NVFS_TYPE_DIR) as [E|]; [|reflexivity].
  destruct (Hdir E) as (-> & Hx & Hb). cbn [andb]. unfold v_blocks in *. rewrite Hx.
  replace (existsb (v_has_entry g v' inum) (ext_blocks (v_exts g v (v_inode g v i))))
    with (existsb (v_has_entry g v inum) (ext_blocks (v_exts g v (v_inode g v i)))); [reflexivity|].
  revert Hb. generalize (ext_blocks (v_exts g v (v_inode g v i))) as l.
  induction l as [|b l IHl]; intros Hb; cbn [existsb]; [reflexivity|].
  rewrite IHl by (intros; apply Hb; by apply list_elem_of_further).
  unfold v_has_entry. by rewrite Hb by apply list_elem_of_here.
Qed.

Lemma v_find_parent_same (inum : Z) : v_find_parent g v' inum = v_find_parent g v inum.
Proof. unfold v_find_parent. by rewrite v_find_parent_from_same by lia. Qed.

Lemma v_find_parent_range (inum i : Z) : v_find_parent g v inum = Some i -> 0 <= i.
Proof.
  unfold v_find_parent. destruct (inum =? _); [discriminate|].
  assert (H : forall n k, 0 <= k -> v_find_parent_from g v n k inum = Some i -> 0 <= i).
  { induction n as [|n IH]; intros k Hk; cbn [v_find_parent_from]; [discriminate|].
    destruct (_ && _); [|apply IH; lia]. destruct (k <? _); [|discriminate]. intros [= <-]. exact Hk. }
  apply H. lia.
Qed.

Lemma v_resolve_comp_same (cur : Z) (comp : list Z) :
  0 <= cur -> v_resolve_comp g v' cur comp = v_resolve_comp g v cur comp.
Proof.
  intros Hc. unfold v_resolve_comp. rewrite v_find_parent_same, v_dir_find_same by exact Hc.
  destruct (is_dotdot comp); [reflexivity|]. destruct (is_dot comp); [reflexivity|].
  destruct (v_dir_find g v cur (to_upper comp)) as [inum|] eqn:E; [|reflexivity].
  apply v_dir_find_range in E. destruct (Z.ltb_spec inum (sb_inode_count g)); [|reflexivity].
  by rewrite (proj1 (Hsame inum ltac:(lia))).
Qed.

Lemma v_resolve_comp_range (cur : Z) (comp : list Z) (c : Z) :
  0 <= cur -> v_resolve_comp g v cur comp = Some c -> 0 <= c.
Proof.
  intros Hc. unfold v_resolve_comp. destruct (is_dotdot comp); [apply v_find_parent_range|].
  destruct (is_dot comp); [by intros [= <-]|].
  destruct (v_dir_find g v cur (to_upper comp)) as [inum|] eqn:E; [|discriminate].
  apply v_dir_find_range in E. destruct (_ && _); [by intros [= <-]|discriminate].
Qed.

Lemma v_resolve_loop_same (n : nat) (i seg cur last : Z) (buf : list Z) :
  0 <= cur ->
  v_resolve_loop g v' n i seg cur last buf = v_resolve_loop g v n i seg cur last buf /\
  (forall c sg, v_resolve_loop g v n i seg cur last buf = Some (c, sg) -> 0 <= c).
Proof.
  revert i seg cur; induction n as [|n IH]; intros i seg cur Hc; cbn [v_resolve_loop].
  { split; [reflexivity|]. by intros c sg [= <- _]. }
  destruct (_ || _); [|by apply IH]. rewrite v_resolve_comp_same by exact Hc.
  destruct (seg <? i); [|by apply IH].
  destruct (v_resolve_comp g v cur (sub buf seg i)) as [c|] eqn:E; [|done].
  apply IH. by apply v_resolve_comp_range in E.
Qed.

Lemma v_resolve_last_same (cur : Z) (name : list Z) :
  v_resolve_last g v' cur name = v_resolve_last g v cur name /\
  (0 <= cur -> forall p n, v_resolve_last g v cur name = Some (p, n) -> 0 <= p).
Proof.
  unfold v_resolve_last. rewrite v_find_parent_same. split; [reflexivity|]. intros Hc p n.
  destruct (is_dotdot name).
  - destruct (v_find_parent g v cur) as [q|] eqn:E; [|discriminate]. intros [= <- _].
    by apply v_find_parent_range in E.
  - by destruct (is_dot name); intros [= <- _].
Qed.

Lemma v_resolve_same (cwd : Z) (path : list Z) :
  0 <= cwd -> v_resolve g v' cwd path = v_resolve g v cwd path /\
  (forall p n, v_resolve g v cwd path = Some (p, n) -> 0 <= p).
Proof.
  intros Hc. unfold v_resolve. cbv zeta. destruct (_ =? 0); [split; [reflexivity|by intros p n [= <- _]]|].
  set (buf := take 255 path). set (start := if byte_at buf 0 =? SLASH then 1 else 0).
  set (cur := if byte_at buf 0 =? SLASH then NVFS_ROOT_INODE else cwd).
  assert (Hcur : 0 <= cur) by (unfold cur, NVFS_ROOT_INODE; destruct (byte_at buf 0 =? SLASH); lia).
  destruct (last_slash_from start buf <? 0).
  - destruct (v_resolve_last_same cur (sub buf start (Z.of_nat (length buf)))) as [-> H].
    split; [reflexivity|exact (H Hcur)].
  - destruct (v_resolve_loop_same (Z.to_nat (last_slash_from start buf - start + 1)) start start cur
                (last_slash_from start buf) buf Hcur) as [-> H].
    destruct (v_resolve_loop g v _ _ _ _ _ _) as [[c sg]|]; [|done].
    destruct (v_resolve_last_same c (sub buf sg (Z.of_nat (length buf)))) as [-> H'].
    split; [reflexivity|]. apply H'. by eapply H.
Qed.

Lemma v_lookup_same (cwd : Z) (path : list Z) :
  0 <= cwd -> v_lookup g v' cwd path = v_lookup g v cwd path /\
  (forall i, v_lookup g v cwd path = Some i -> 0 <= i).
Proof.
  intros Hc. unfold v_lookup. destruct (v_resolve_same cwd path Hc) as [-> Hr].
  destruct (v_resolve g v cwd path) as [[p [|c name]]|]; [done| |done].
  rewrite v_dir_find_same by (by eapply Hr). split; [reflexivity|]. apply v_dir_find_range.
Qed.

End same.
