(* ===== verification/NvfsProps.v ===== *)
(** * Properties of the file system: files

    Writing and reading files through the public interface, on drives that
    may fail and on drives that work. *)
From S2P Require Import Prelude Bytes BlockDev Nvfs NvfsLayout NvfsDisk NvfsBlocks NvfsFiles NvfsRead NvfsPath.

Import Nvfs.
Open Scope nvfs_scope.

(** ** A working drive keeps working *)

Section steady.
Context {D : Type} `{ML : MachineLaws D} {HD : HealthyDrive D}.
Abbreviation M := (@M D).

Definition steady {A} (m : M A) : Prop :=
  forall s r s', healthy_fs s -> m s = (r, s') -> healthy_fs s'.

Lemma steady_ret {A} (a : A) : steady (ret a).
Proof. by intros s r s' Hh [= _ <-]. Qed.

Lemma steady_fail {A} : steady (fail (A := A)).
Proof. by intros s r s' Hh [= _ <-]. Qed.

Lemma steady_get {A} (f : fs D -> A) : steady (get f).
Proof. by intros s r s' Hh [= _ <-]. Qed.

Lemma steady_set_errno (e : Z) : steady (set_errno e).
Proof. by intros s r s' Hh [= _ <-]. Qed.

Lemma steady_bind {A B} (m : M A) (k : A -> M B) :
  steady m -> (forall a, steady (k a)) -> steady (bind m k).
Proof.
  intros Hm Hk s r s' Hh E. apply bind_inv in E as [(a & s1 & E1 & E)|[E1 _]]; [|by eapply Hm].
  eapply Hk; [|exact E]. by eapply Hm.
Qed.

Lemma steady_try {A} (m : M A) : steady m -> steady (try m).
Proof.
  intros Hm s r s' Hh E. unfold try in E. destruct (m s) as [o s1] eqn:E1. injection E as _ <-. by eapply Hm.
Qed.

Lemma steady_ignore {A} (m : M A) : steady m -> steady (ignore m).
Proof. intros Hm s r s' Hh E. apply ignore_inv in E as (_ & o & E). by eapply Hm. Qed.

Lemma steady_ret_int (v : Z) : steady (ret_int v).
Proof. unfold ret_int. destruct (v <? _); [apply steady_ret|apply steady_fail]. Qed.

Lemma steady_read_sector (lba : Z) : steady (read_sector lba).
Proof.
  intros s r s' Hh E. unfold read_sector in E. destruct (read_healthy _ _ _ lba Hh) as [_ Hh'].
  destruct (ata_read (dev s) _ _ lba) as [o d]. injection E as _ <-. exact Hh'.
Qed.

Lemma steady_write_sector (lba : Z) (buf : list Z) : steady (write_sector lba buf).
Proof.
  intros s r s' Hh E. unfold write_sector in E. destruct (write_healthy _ _ _ lba buf Hh) as [_ Hh'].
  destruct (ata_write (dev s) _ _ lba buf) as [o d]. injection E as _ <-. exact Hh'.
Qed.

Lemma steady_now_sec : steady now_sec.
Proof.
  intros s r s' Hh E. unfold now_sec in E. pose proof (ticks_healthy _ _ _ Hh) as Hh'.
  destruct (get_ticks (dev s)) as [t d]. injection E as _ <-. exact Hh'.
Qed.

Lemma exact_steady {A} (f : pure A) (m : M A) : exact f m -> steady m.
Proof. intros (_ & _ & H) s r s' Hh E. exact (proj2 (H _ _ _ Hh E)). Qed.

End steady.

#[export] Hint Resolve steady_ret steady_fail steady_get steady_set_errno steady_ret_int
  steady_read_sector steady_write_sector steady_now_sec : nvfs.

Ltac steady_step :=
  first
  [ assumption
  | solve [auto with nvfs nocore]
  | apply steady_bind; [|intros ?]
  | apply steady_try
  | apply steady_ignore
  | match goal with
    | |- steady (match ?x with _ => _ end) => destruct x
    | |- steady (let _ := _ in _) => cbv zeta
    | |- steady (fail_errno _) => unfold fail_errno
    end ].

Section steady_ops.
Context {D : Type} `{ML : MachineLaws D} {HD : HealthyDrive D}.

Lemma steady_bitmap_test (b : Z) : steady (bitmap_test (D := D) b).
Proof. unfold bitmap_test. repeat steady_step. Qed.
#[local] Hint Resolve steady_bitmap_test : nvfs.

Lemma steady_bitmap_set (b : Z) (u : bool) : steady (bitmap_set (D := D) b u).
Proof. unfold bitmap_set. repeat steady_step. Qed.
#[local] Hint Resolve steady_bitmap_set : nvfs.

Lemma steady_run_free (n : nat) (start j : Z) : steady (run_free (D := D) n start j).
Proof. revert j; induction n; intros j; cbn [run_free]; repeat steady_step. Qed.
#[local] Hint Resolve steady_run_free : nvfs.

Lemma steady_scan_bits (n : nat) (b base total count : Z) (buf : list Z) :
  steady (scan_bits (D := D) n b base total count buf).
Proof. revert b; induction n; intros b; cbn [scan_bits]; repeat steady_step. Qed.
#[local] Hint Resolve steady_scan_bits : nvfs.

Lemma steady_scan_sectors (n : nat) (i count : Z) : steady (scan_sectors (D := D) n i count).
Proof. revert i; induction n; intros i; cbn [scan_sectors]; repeat steady_step. Qed.
#[local] Hint Resolve steady_scan_sectors : nvfs.

Lemma steady_bitmap_find (count : Z) : steady (bitmap_find (D := D) count).
Proof. unfold bitmap_find. repeat steady_step. Qed.
#[local] Hint Resolve steady_bitmap_find : nvfs.

Lemma steady_write_block (b : Z) (buf : list Z) : steady (write_block (D := D) b buf).
Proof. unfold write_block. repeat steady_step. Qed.
#[local] Hint Resolve steady_write_block : nvfs.

Lemma steady_inode_write (inum : Z) (i : nvfs_inode) : steady (inode_write (D := D) inum i).
Proof. unfold inode_write. repeat steady_step. Qed.
#[local] Hint Resolve steady_inode_write : nvfs.

Lemma steady_release (blocks : list Z) : steady (release (D := D) blocks).
Proof. induction blocks; cbn [release]; repeat steady_step. Qed.
#[local] Hint Resolve steady_release : nvfs.

Lemma steady_write_blocks (n : nat) (j start : Z) data (size : Z) :
  steady (write_blocks (D := D) n j start data size).
Proof. revert j; induction n; intros j; cbn [write_blocks]; repeat steady_step. Qed.
#[local] Hint Resolve steady_write_blocks : nvfs.

Lemma steady_extent_write (i : nvfs_inode) data (size : Z) : steady (extent_write (D := D) i data size).
Proof. unfold extent_write. repeat steady_step. Qed.
#[local] Hint Resolve steady_extent_write : nvfs.

Lemma steady_replace_contents (inum : Z) (i : nvfs_inode) data (size : Z) :
  steady (replace_contents (D := D) inum i data size).
Proof.
  unfold replace_contents. repeat steady_step. exact (exact_steady _ _ (exact_extent_load_all i)).
Qed.

End steady_ops.

(** ** Consistency *)

(** Every directory's blocks are marked in the bitmap. *)
Definition dirs_used (g : geo) (v : Z -> list Z) : Prop :=
  forall k, 0 <= k < sb_inode_count g -> i_type (v_inode g v k) = NVFS_TYPE_DIR ->
    inode_blocks_used g v (v_inode g v k).

(** A mounted file system in order: sound layout, a current directory, and
    directories on blocks marked used. *)
Definition fs_ok {D} `{Machine D} (s : fs D) : Prop :=
  mounted s = true /\ layout (sb s) /\ 0 <= nvfs_cwd s /\ dirs_used (sb s) (view s).

Section props.
Context {D : Type} `{ML : MachineLaws D}.

(** The shadow update of a file that is not a directory keeps the
    directories. *)
Lemma replace_dir_same (inum : Z) (data : Z -> Z) (size : Z) (s : fs D) r s' :
  layout (sb s) -> 0 <= inum < sb_inode_count (sb s) -> dirs_used (sb s) (view s) ->
  i_type (v_inode (sb s) (view s) inum) <> NVFS_TYPE_DIR ->
  inode_blocks_used (sb s) (view s) (v_inode (sb s) (view s) inum) ->
  0 <= size <= 4294966784 -> fits s (sectors_for size) ->
  replace_contents inum (v_inode (sb s) (view s) inum) data size s = (r, s') ->
  dir_same (sb s) (view s) (view s') /\ env_of s' = env_of s /\
  i_type (v_inode (sb s) (view s') inum) = i_type (v_inode (sb s) (view s) inum).
Proof.
  intros Hg Hi Hd Hnd Hb Hsz Hfit E.
  destruct (replace_contents_effect _ _ _ _ _ _ _ Hg Hi eq_refl Hb Hsz Hfit E)
    as (Hm & Hc & Hs & Hu & Hoth & Hin).
  assert (Ht : i_type (v_inode (sb s) (view s') inum) = i_type (v_inode (sb s) (view s) inum)).
  { destruct Hin as [[_ ->]|(i' & t & Hst & ->)]; [reflexivity|].
    destruct Hst as [[_ ->]|(_ & st & _ & _ & -> & _)]; reflexivity. }
  split; [|split; [unfold env_of; congruence|exact Ht]].
  intros k Hk. destruct (Z.eq_dec k inum) as [->|Hne]; [split; [exact Ht|contradiction]|].
  rewrite (Hoth k Hk Hne). split; [reflexivity|]. intros Hdir. split; [reflexivity|].
  pose proof (Hd k Hk Hdir) as Hbk. split; [by apply v_exts_same|].
  intros b Hin'. apply Hu. destruct Hbk as [Hbk _]. rewrite Forall_forall in Hbk. by apply Hbk.
Qed.

(** ** Properties on any drive *)


(** A run of blocks that [bitmap_find] returns lies in the bitmap and
    was free, and finding it changed nothing; this holds whatever reads
    fail, for runs that cannot cross the end of the bitmap ([fits]). *)
Theorem bitmap_find_free_run (count start : Z) (s s' : fs D) :
  layout (sb s) -> fits s count -> bitmap_find count s = (Some start, s') ->
  0 <= start /\ start + count <= total_bits (sb s) /\
  (forall k, 0 <= k < count -> used_bit (sb s) (view s) (start + k) = false) /\
  (forall p, view s' p = view s p).
Proof.
  intros Hg Hfit E. destruct (bitmap_find_fits _ _ _ _ Hg Hfit E) as (H1 & H2 & H3).
  do 3 (split; [assumption|]). exact (proj2 (quiet _ _ _ _ (touches_bitmap_find nothing _) E)).
Qed.

(** An inode that [inode_write] stored is what [inode_read] returns;
    every other inode, also in the same sector, and every data block is as
    before, whether or not the write succeeded. *)
Theorem inode_write_then_read (inum : Z) (i : nvfs_inode) (s s1 s2 : fs D) r o :
  layout (sb s) -> 0 <= inum < sb_inode_count (sb s) -> inode_wf i -> i_extent_count i <= 14 ->
  inode_write inum i s = (r, s1) ->
  (r = Some tt -> inode_read inum s1 = (o, s2) -> o = Some i \/ o = None) /\
  (forall k, 0 <= k < sb_inode_count (sb s) -> k <> inum ->
     v_inode (sb s) (view s1) k = v_inode (sb s) (view s) k) /\
  (forall b, 0 <= b < total_bits (sb s) -> v_sector (sb s) (view s1) b = v_sector (sb s) (view s) b).
Proof.
  intros Hg Hi Hw Hec E. destruct (inode_write_view _ _ _ _ _ Hg Hi Hw E) as [Hin Hoth].
  destruct (touches_inode_write _ _ _ _ _ E) as (_ & _ & Hs & Hv). split; [|split; [exact Hoth|]].
  - intros -> E2. destruct o as [j|]; [left|by right]. apply inode_read_val in E2 as [-> _].
    rewrite Hs. destruct Hin as [->|[? _]]; [|discriminate]. f_equal. unfold clamp_inode.
    change NVFS_MAX_EXTENTS with 14. rewrite (proj2 (Z.ltb_ge 14 _)) by exact Hec. by destruct i.
  - intros b Hb. unfold v_sector. apply Hv. intros Hp. pose proof (block_in_area _ Hg _ Hb) as Ha.
    apply (areas_disjoint _ Hg) in Ha as [_ Hn]. apply Hn. rewrite Hp. by apply inode_in_area.
Qed.

(** The reading operations [nvfs_read], [nvfs_list], [nvfs_path_string]
    and path resolution never change a sector, the superblock's variables,
    the current directory or the mounted flag, whatever fails. *)
Theorem reads_do_not_write (path : list Z) (max : Z) junk (fuel : nat) (inum n : Z) :
  touches nothing (nvfs_read (D := D) path max) /\ touches nothing (nvfs_list (D := D) junk path) /\
  touches nothing (nvfs_path_string (D := D) fuel inum n) /\ touches nothing (resolve_path (D := D) path).
Proof.
  split; [apply touches_nvfs_read|]. split; [apply touches_nvfs_list|].
  split; [apply touches_nvfs_path_string|apply touches_resolve_path].
Qed.

End props.

(** ** Properties on a working drive *)

Section healthy_props.
Context {D : Type} `{ML : MachineLaws D} {HD : HealthyDrive D}.
Abbreviation M := (@M D).

Lemma commit_healthy (inum : Z) (i : nvfs_inode) (blocks : list Z) (ind : Z) (s : fs D) r s' :
  healthy_fs s -> inum < sb_inode_count (sb s) -> commit inum i blocks ind s = (r, s') -> r = Some tt.
Proof.
  intros Hh Hi E. unfold commit in E.
  apply bind_inv in E as [(t & s1 & E1 & E)|[E1 _]];
    [|by destruct (now_sec_val _ _ _ E1) as (? & ? & _)].
  assert (Hh1 : healthy_fs s1) by (by eapply steady_now_sec).
  assert (Hs1 : sb s1 = sb s) by apply (quiet _ _ _ _ (touches_now_sec nothing) E1).
  assert (Hw : forall o s2, inode_write inum (inode_set_mtime i t) s1 = (o, s2) -> o = Some tt).
  { intros o s2 Ew. unfold inode_write, bind at 1, get in Ew. cbv beta iota in Ew.
    rewrite Hs1, (proj2 (Z.leb_gt _ _)) in Ew by exact Hi.
    destruct (exact_run _ _ s1 (exact_read_sector (inode_lba (sb s) inum)) Hh1) as (s3 & E3 & Hh3 & _).
    unfold bind in Ew. rewrite E3 in Ew. unfold write_sector in Ew.
    match type of Ew with context [ata_write ?d ?c ?e ?l ?b] =>
      pose proof (proj1 (write_healthy d c e l b Hh3)) as Hok; destruct (ata_write d c e l b) as [ok d'] end.
    simpl in Hok. subst ok. by injection Ew as <- _. }
  apply bind_inv in E as [(u & s2 & E2 & E)|[E2 _]].
  - assert (Hr : forall l s0, exists s3, release (D := D) l s0 = (Some tt, s3)).
    { induction l as [|b l IH]; intros s0; [eexists; reflexivity|]. cbn [release].
      unfold bind, ignore. destruct (bitmap_set b false s0) as [o s3]. apply IH. }
    unfold bind in E. destruct (Hr blocks s2) as [s3 E3]. rewrite E3 in E.
    destruct (negb (ind =? 0)); [|by injection E as <- _]. by apply ignore_inv in E as [-> _].
  - apply or_errno_inv in E2 as [(a & _ & E')|(s0 & E2 & _ & _)]; [discriminate E'|].
    apply Hw in E2. discriminate E2.
Qed.

(** On a working drive a failed update leaves the file's inode alone. *)
Lemma replace_healthy (inum : Z) (data : Z -> Z) (size : Z) (s : fs D) s' :
  healthy_fs s -> layout (sb s) -> 0 <= inum < sb_inode_count (sb s) ->
  0 <= size <= 4294966784 -> fits s (sectors_for size) ->
  replace_contents inum (v_inode (sb s) (view s) inum) data size s = (None, s') ->
  v_inode (sb s) (view s') inum = v_inode (sb s) (view s) inum.
Proof.
  intros Hh Hg Hi Hsz Hfit E. set (i := v_inode (sb s) (view s) inum) in *. pose proof E as E0.
  rewrite replace_contents_split in E.
  apply (prepare_effect i data size (fun old i' => commit inum i' (ext_blocks old) (default 0 (indirect_of i)))) in E
    as [(s2 & i' & F2 & Hst & (s1 & old & E1 & E2) & E)|[_ F]]; [| |exact Hg|exact Hsz|exact Hfit].
  - apply commit_healthy in E; [discriminate E| |rewrite (proj1 (proj2 (proj2 F2))); lia].
    eapply steady_extent_write; [|exact E2]. eapply exact_steady; [apply exact_extent_load_all| |exact E1].
    exact Hh.
  - by apply (alloc_area_keeps _ _ _ Hg F).
Qed.

(** Reading a file by path, from what the disk holds. *)
Lemma read_by_path (path : list Z) (max inum : Z) (s : fs D) :
  healthy_fs s -> mounted s = true -> v_lookup (sb s) (view s) (nvfs_cwd s) path = Some inum ->
  inum < sb_inode_count (sb s) -> i_type (v_inode (sb s) (view s) inum) = NVFS_TYPE_FILE ->
  fst (nvfs_read path max s) = Some (take (Z.to_nat max) (v_file (sb s) (view s) inum)).
Proof.
  intros Hh Hm Hl Hi Ht. destruct (exact_run _ _ s (exact_nvfs_read path max) Hh) as (s' & -> & _).
  unfold v_read, env_of. cbn [fst]. rewrite Hm, Hl, (proj2 (Z.ltb_lt _ _) Hi), Ht. reflexivity.
Qed.

(** [nvfs_write] on a path that names a file is the shadow update of it. *)
Lemma write_existing (junk : list nvfs_extent) (path : list Z) (data : Z -> Z) (size inum : Z) (s : fs D) :
  healthy_fs s -> mounted s = true -> v_lookup (sb s) (view s) (nvfs_cwd s) path = Some inum ->
  inum < sb_inode_count (sb s) ->
  exists s1, healthy_fs s1 /\ env_of s1 = env_of s /\ (forall p, view s1 p = view s p) /\
    nvfs_write junk path data size s = replace_contents inum (v_inode (sb s) (view s) inum) data size s1.
Proof.
  intros Hh Hm Hl Hi. unfold nvfs_write.
  destruct (exact_run _ _ s (exact_resolve_name path) Hh) as (s1 & E1 & Hh1 & He1 & Hv1).
  unfold v_lookup in Hl. unfold env_sb, env_of in E1. cbn [fst snd] in E1. rewrite Hm in E1.
  destruct (v_resolve (sb s) (view s) (nvfs_cwd s) path) as [[p [|c name]]|]; [discriminate| |discriminate].
  unfold bind at 1. rewrite E1. cbv beta iota.
  assert (Hs1 : sb s1 = sb s) by (unfold env_of in He1; congruence).
  destruct (exact_run _ _ s1 (exact_try _ _ (exact_dir_find p (c :: name))) Hh1)
    as (s2 & E2 & Hh2 & He2 & Hv2).
  assert (Ed : v_dir_find (sb s) (view s1) p (c :: name) = Some inum).
  { rewrite <- Hl. apply (proj1 (exact_dir_find (D := D) p (c :: name)) (true, 0, sb s)). exact Hv1. }
  unfold env_sb, env_of in E2. cbn [snd] in E2. rewrite Hs1, Ed in E2.
  unfold bind at 1. rewrite E2.
  assert (Hs2 : sb s2 = sb s) by (unfold env_of in *; congruence).
  destruct (exact_run _ _ s2 (exact_or_errno _ _ NVFS_ERR_IO (exact_inode_read inum)) Hh2)
    as (s3 & E3 & Hh3 & He3 & Hv3).
  unfold env_sb, env_of in E3. cbn [snd] in E3. rewrite Hs2, (proj2 (Z.leb_gt _ _)) in E3 by exact Hi.
  unfold bind at 1. rewrite E3. exists s3. split; [exact Hh3|]. split; [congruence|].
  assert (Hv : forall q, view s3 q = view s q) by (intros; by rewrite Hv3, Hv2, Hv1).
  split; [exact Hv|]. f_equal. unfold v_inode. by rewrite Hv2, Hv1.
Qed.

(** The facts about a disk do not depend on how its sectors are given. *)
Section ext.
Context (g : geo) (v v' : Z -> list Z) (Hv : forall p, v' p = v p).

Lemma v_inode_ext (k : Z) : v_inode g v' k = v_inode g v k.
Proof. unfold v_inode. by rewrite Hv. Qed.

Lemma v_sector_ext (b : Z) : v_sector g v' b = v_sector g v b.
Proof. apply Hv. Qed.

Lemma v_exts_ext (i : nvfs_inode) : v_exts g v' i = v_exts g v i.
Proof. unfold v_exts. by rewrite v_sector_ext. Qed.

Lemma block_used_ext (b : Z) : block_used g v b -> block_used g v' b.
Proof. intros [Hb Hu]. split; [exact Hb|]. by rewrite (used_bit_ext g v v'). Qed.

Lemma inode_blocks_used_ext (i : nvfs_inode) : inode_blocks_used g v i -> inode_blocks_used g v' i.
Proof.
  intros [H1 H2]. unfold inode_blocks_used, v_blocks. rewrite v_exts_ext. split.
  - eapply Forall_impl; [exact H1|]. apply block_used_ext.
  - intros b Hb. by apply block_used_ext, H2.
Qed.

Lemma dirs_used_ext : dirs_used g v -> dirs_used g v'.
Proof. intros H k Hk. rewrite v_inode_ext. intros Ht. by apply inode_blocks_used_ext, H. Qed.

Lemma v_file_ext (k : Z) : v_file g v' k = v_file g v k.
Proof.
  unfold v_file, v_data, v_blocks. rewrite v_inode_ext, v_exts_ext. do 2 f_equal.
  apply map_ext. apply v_sector_ext.
Qed.

End ext.

(** Pointwise equal disks resolve every path alike. *)
Lemma dir_same_ext (g : geo) (v v' : Z -> list Z) : (forall p, v' p = v p) -> dir_same g v v'.
Proof.
  intros Hv k Hk. rewrite (v_inode_ext _ _ _ Hv). split; [reflexivity|]. intros _. split; [reflexivity|].
  rewrite (v_exts_ext _ _ _ Hv). split; [reflexivity|]. intros b _. apply (v_sector_ext _ _ _ Hv).
Qed.

(** The path still names the file after the shadow update. *)
Lemma lookup_after (path : list Z) (inum : Z) (s s1 s' : fs D) :
  0 <= nvfs_cwd s -> sb s1 = sb s -> (forall p, view s1 p = view s p) ->
  dir_same (sb s) (view s1) (view s') -> v_lookup (sb s) (view s) (nvfs_cwd s) path = Some inum ->
  v_lookup (sb s) (view s') (nvfs_cwd s) path = Some inum.
Proof.
  intros Hc Hs1 Hv1 Hds Hl.
  rewrite (proj1 (v_lookup_same (sb s) (view s1) (view s') Hds (fun p => view_bytes s1 p) _ path Hc)).
  rewrite <- Hl. apply (v_lookup_same (sb s) (view s) (view s1)); [|intros; apply view_bytes|exact Hc].
  by apply dir_same_ext.
Qed.

(** The file a path names, ready to be updated. *)
Definition updatable (s : fs D) (path : list Z) (inum : Z) : Prop :=
  healthy_fs s /\ fs_ok s /\ v_lookup (sb s) (view s) (nvfs_cwd s) path = Some inum /\
  inum < sb_inode_count (sb s) /\ i_type (v_inode (sb s) (view s) inum) = NVFS_TYPE_FILE /\
  inode_blocks_used (sb s) (view s) (v_inode (sb s) (view s) inum).

Lemma updatable_pos (s : fs D) (path : list Z) (inum : Z) : updatable s path inum -> 0 <= inum.
Proof.
  intros (_ & (_ & _ & Hc & _) & Hl & _).
  exact (proj2 (v_lookup_same (sb s) (view s) (view s) (dir_same_ext _ _ _ (fun p => eq_refl))
                  (fun p => view_bytes s p) _ path Hc) inum Hl).
Qed.

(** Reading the path after a shadow update of its file. *)
Lemma update_then_read (path : list Z) (data : Z -> Z) (size inum : Z) (s s1 : fs D) r s' :
  updatable s path inum -> 0 <= size <= 4294966784 -> fits s (sectors_for size) ->
  healthy_fs s1 -> env_of s1 = env_of s -> (forall p, view s1 p = view s p) ->
  replace_contents inum (v_inode (sb s) (view s) inum) data size s1 = (r, s') ->
  (r = Some tt /\ forall max, fst (nvfs_read path max s') = Some (take (Z.to_nat max) (data_bytes data size))) \/
  (r = None /\ forall max, fst (nvfs_read path max s') = fst (nvfs_read path max s)).
Proof.
  intros Hup Hsz Hfit Hh1 He1 Hv1 E. pose proof (updatable_pos _ _ _ Hup) as Hpos.
  destruct Hup as (Hh & (Hm & Hg & Hc & Hd) & Hl & Hi & Ht & Hb).
  pose proof He1 as He1'. unfold env_of in He1'. injection He1' as Hm1 Hc1 Hs1.
  rewrite <- (v_inode_ext (sb s) (view s) (view s1) Hv1) in E, Ht, Hb.
  apply (inode_blocks_used_ext _ _ _ Hv1) in Hb. apply (dirs_used_ext _ _ _ Hv1) in Hd.
  apply (fits_ext s s1) in Hfit; [|exact Hs1|exact Hv1|intros _; exact (healthy_readable _ _ _ Hh1)].
  rewrite <- Hs1 in Hb, Hd, Ht, E, Hg, Hi.
  pose proof (conj Hpos Hi) as Hi'.
  assert (Hnd : i_type (v_inode (sb s1) (view s1) inum) <> NVFS_TYPE_DIR) by (by rewrite Ht).
  destruct (replace_dir_same _ _ _ _ _ _ Hg Hi' Hd Hnd Hb Hsz Hfit E) as (Hds & He' & Ht').
  rewrite He1 in He'. unfold env_of in He'. injection He' as Hm' Hc' Hs'.
  assert (Hread : forall max, fst (nvfs_read path max s') = Some (take (Z.to_nat max) (v_file (sb s) (view s') inum))).
  { intros max. rewrite (read_by_path path max inum s'); rewrite ?Hs', ?Hc', ?Hm', <- ?Hs1; auto.
    - by eapply steady_replace_contents.
    - rewrite Hs1 in *. by apply (lookup_after path inum s s1 s').
    - by rewrite Ht'. }
  rewrite <- Hs1 in Hread.
  destruct (replace_contents_atomic _ _ _ _ _ _ Hg Hi' Hb Hsz Hfit E) as (_ & Hfile & _).
  destruct r as [[]|].
  - left. split; [reflexivity|]. intros max. rewrite Hread.
    destruct Hfile as [->|[? _]]; [reflexivity|discriminate].
  - right. split; [reflexivity|]. intros max. rewrite Hread.
    rewrite (read_by_path path max inum s Hh Hm); rewrite <- ?Hs1; auto;
      [|by rewrite Hs1|by rewrite <- (v_inode_ext _ _ _ Hv1)].
    do 2 f_equal. rewrite <- (v_file_ext _ _ _ Hv1).
    destruct (replace_contents_effect _ _ _ _ _ _ _ Hg Hi' eq_refl Hb Hsz Hfit E) as (_ & _ & _ & Hu & _).
    unfold v_file. rewrite (replace_healthy inum data size s1 s'); auto. by apply v_data_same.
Qed.

(** The other files after a shadow update *)
Lemma update_keeps_others (path : list Z) (data : Z -> Z) (size inum : Z) (s s1 : fs D) r s' :
  updatable s path inum -> 0 <= size <= 4294966784 -> fits s (sectors_for size) ->
  healthy_fs s1 -> env_of s1 = env_of s -> (forall p, view s1 p = view s p) ->
  replace_contents inum (v_inode (sb s) (view s) inum) data size s1 = (r, s') ->
  forall k, 0 <= k < sb_inode_count (sb s) -> k <> inum ->
    inode_blocks_used (sb s) (view s) (v_inode (sb s) (view s) k) ->
    v_inode (sb s) (view s') k = v_inode (sb s) (view s) k /\ v_file (sb s) (view s') k = v_file (sb s) (view s) k.
Proof.
  intros Hup Hsz Hfit Hh1 He1 Hv1 E k Hk Hne Hu. pose proof (updatable_pos _ _ _ Hup) as Hpos.
  destruct Hup as (_ & (_ & Hg & _) & _ & Hi & _ & Hb).
  assert (Hs1 : sb s1 = sb s) by (unfold env_of in He1; congruence).
  apply (fits_ext s s1) in Hfit; [|exact Hs1|exact Hv1|intros _; exact (healthy_readable _ _ _ Hh1)].
  rewrite <- (v_inode_ext (sb s) (view s) (view s1) Hv1) in E, Hb, Hu.
  apply (inode_blocks_used_ext _ _ _ Hv1) in Hb, Hu. rewrite <- Hs1 in E, Hb, Hu, Hg, Hk, Hi.
  destruct (replace_contents_atomic _ _ _ _ _ _ Hg (conj Hpos Hi) Hb Hsz Hfit E) as (_ & _ & Hoth).
  destruct (Hoth k Hk Hne Hu) as [H1 H2]. rewrite Hs1 in H1, H2.
  by rewrite H1, H2, (v_inode_ext _ _ _ Hv1), (v_file_ext _ _ _ Hv1).
Qed.


(** ** Appending *)

(** Finding the file that a path names, as [nvfs_append] does. *)
Lemma open_existing {A} (path : list Z) (inum : Z) (k : Z -> nvfs_inode -> M A) (s : fs D) :
  updatable s path inum ->
  exists s1, healthy_fs s1 /\ env_of s1 = env_of s /\ (forall p, view s1 p = view s p) /\
    (r <- resolve_name path ;; inum <- dir_find (fst r) (snd r) ;;
     ino <- inode_read inum or_errno NVFS_ERR_IO ;; k inum ino) s =
    k inum (v_inode (sb s) (view s) inum) s1.
Proof.
  intros (Hh & (Hm & _) & Hl & Hi & _).
  destruct (exact_run _ _ s (exact_resolve_name path) Hh) as (s1 & E1 & Hh1 & He1 & Hv1).
  unfold v_lookup in Hl. unfold env_sb, env_of in E1. cbn [fst snd] in E1. rewrite Hm in E1.
  destruct (v_resolve (sb s) (view s) (nvfs_cwd s) path) as [[p [|c name]]|]; [discriminate| |discriminate].
  unfold bind at 1. rewrite E1. cbn [fst snd].
  assert (Hs1 : sb s1 = sb s) by (unfold env_of in He1; congruence).
  destruct (exact_run _ _ s1 (exact_dir_find p (c :: name)) Hh1) as (s2 & E2 & Hh2 & He2 & Hv2).
  assert (Ed : v_dir_find (sb s) (view s1) p (c :: name) = Some inum).
  { rewrite <- Hl. apply (proj1 (exact_dir_find (D := D) p (c :: name)) (true, 0, sb s)). exact Hv1. }
  unfold env_sb, env_of in E2. cbn [snd] in E2. rewrite Hs1, Ed in E2.
  unfold bind at 1. rewrite E2.
  assert (Hs2 : sb s2 = sb s) by (unfold env_of in *; congruence).
  destruct (exact_run _ _ s2 (exact_or_errno _ _ NVFS_ERR_IO (exact_inode_read inum)) Hh2)
    as (s3 & E3 & Hh3 & He3 & Hv3).
  unfold env_sb, env_of in E3. cbn [snd] in E3. rewrite Hs2, (proj2 (Z.leb_gt _ _)) in E3 by exact Hi.
  unfold bind at 1. rewrite E3. exists s3. split; [exact Hh3|]. split; [congruence|].
  split; [intros; by rewrite Hv3, Hv2, Hv1|]. f_equal. unfold v_inode. by rewrite Hv2, Hv1.
Qed.
Lemma v_file_bytes (s : fs D) (g : geo) (k : Z) : is_bytes (v_file g (view s) k).
Proof.
  unfold v_file, v_data. apply Forall_take, Forall_concat, Forall_forall.
  intros l (b & -> & _)%list_elem_of_fmap. apply view_bytes.
Qed.

(** The buffer [nvfs_append] writes is the old contents and the new bytes,
    cut at 4096. *)
Lemma append_data (junk old_file : list Z) (data : Z -> Z) (size n : Z) :
  is_bytes old_file -> Z.of_nat (length old_file) = n -> 0 <= size ->
  let old := if 4096 <? n then 4096 else n in
  let add := if 4096 - old <? size then 4096 - old else size in
  data_bytes (append_buffer junk (take (Z.to_nat old) old_file) old add data) (old + add) =
    take (Z.to_nat 4096) (old_file ++ data_bytes data size).
Proof.
  intros Hb Hn Hs old add.
  assert (Eold : old = Z.min 4096 n) by (unfold old; destruct (Z.ltb_spec 4096 n); lia).
  assert (Eadd : add = Z.min (4096 - old) size) by (unfold add; destruct (Z.ltb_spec (4096 - old) size); lia).
  clearbody old add.
  assert (Hlb : length (data_bytes data size) = Z.to_nat size)
    by (unfold data_bytes; by rewrite length_map, length_seqZ).
  assert (Hat : forall f m k, 0 <= k < m -> byte_at (data_bytes f m) k = u8 (f k)).
  { intros f m k Hk. unfold byte_at, data_bytes. rewrite list_lookup_fmap, lookup_seqZ_lt by lia.
    simpl. by rewrite Z2Nat.id by lia. }
  apply bytes_ext.
  - unfold data_bytes at 1. rewrite length_map, length_seqZ, length_take, length_app, Hlb. lia.
  - intros k Hk. unfold data_bytes in Hk at 1. rewrite length_map, length_seqZ in Hk.
    rewrite Hat, byte_at_take by lia. unfold append_buffer, byte_at at 3.
    destruct (Z.leb_spec old k) as [Hge|Hlt]; cbn [andb].
    + rewrite (proj2 (Z.ltb_lt k (old + add))) by lia.
      rewrite lookup_app_r by lia. replace (Z.to_nat k - length old_file)%nat with (Z.to_nat (k - old)) by lia.
      change (default 0 (?l !! Z.to_nat ?i)) with (byte_at l i). rewrite Hat by lia. reflexivity.
    + rewrite length_take. rewrite (proj2 (Z.ltb_lt k _)) by lia.
      rewrite byte_at_take by lia. rewrite lookup_app_l by lia.
      change (default 0 (?l !! Z.to_nat ?i)) with (byte_at l i). apply u8_small.
      by apply is_bytes_byte_at.
Qed.

(** Append, then read.  On a working drive, [nvfs_append] to a file
    whose blocks hold its whole size either succeeds, and the file then
    holds the old contents followed by the new bytes, cut at 4096 bytes (so
    a longer file loses its tail), or fails and the file is as before. *)
Theorem nvfs_append_then_read (path : list Z) (data : Z -> Z) (size inum : Z) (s : fs D) r s' :
  updatable s path inum -> 0 <= size ->
  Z.of_nat (length (v_file (sb s) (view s) inum)) = i_size (v_inode (sb s) (view s) inum) ->
  used_bit (sb s) (view s) (total_bits (sb s) - 1) = true ->
  nvfs_append path data size s = (r, s') ->
  (r = Some tt /\ forall max, fst (nvfs_read path max s') =
     Some (take (Z.to_nat max) (take (Z.to_nat 4096) (v_file (sb s) (view s) inum ++ data_bytes data size)))) \/
  (r = None /\ forall max, fst (nvfs_read path max s') = fst (nvfs_read path max s)).
Proof.
  intros Hup Hsz Hlen Hlast E. unfold nvfs_append in E.
  edestruct (open_existing (A := unit) path inum) as (s1 & Hh1 & He1 & Hv1 & Eo); [exact Hup|].
  rewrite Eo in E. clear Eo. pose proof Hup as (_ & _ & _ & _ & Ht & _). rewrite Ht in E.
  change (negb (NVFS_TYPE_FILE =? NVFS_TYPE_FILE)) with false in E. cbv iota in E.
  set (i := v_inode (sb s) (view s) inum) in *.
  (* the buffer *)
  destruct (buffer_healthy _ _ _ 4096 Hh1) as [Hbuf Hh2].
  unfold bind at 1 in E. unfold bind at 1, try at 1 in E.
  destruct (get_buffer (dev s1) 4096) as [[jk|] d] eqn:Eb; [|by destruct Hbuf]. cbn [fst snd] in *.
  apply buffer_law in Eb as [Hd _]; [|lia]. cbv beta iota zeta in E.
  assert (Hh2' : healthy_fs (with_dev s1 d)) by exact Hh2.
  assert (Hv2 : forall p, view (with_dev s1 d) p = view s p) by (intros p; rewrite <- Hv1; apply Hd).
  assert (He2 : env_of (with_dev s1 d) = env_of s) by exact He1.
  (* the old contents *)
  set (old := if 4096 <? i_size i then 4096 else i_size i) in *.
  destruct (exact_run _ _ (with_dev s1 d) (exact_or_errno _ _ NVFS_ERR_IO (exact_extent_read i old)) Hh2')
    as (s3 & E3 & Hh3 & He3 & Hv3).
  unfold ret at 1 in E. cbv beta iota in E. unfold bind at 1 in E. rewrite E3 in E.
  assert (Hs2 : env_sb (env_of (with_dev s1 d)) = sb s) by (rewrite He2; reflexivity).
  assert (Hdat : v_data (sb s) (view (with_dev s1 d)) i = v_file (sb s) (view s) inum).
  { unfold v_file, v_data, v_blocks. fold i. rewrite (v_exts_ext _ _ _ Hv2). do 2 f_equal.
    apply map_ext. apply (v_sector_ext _ _ _ Hv2). }
  rewrite Hs2, Hdat in E.
  assert (Hn : 0 <= i_size i) by (rewrite <- Hlen; lia).
  pose proof (append_data jk (v_file (sb s) (view s) inum) data size (i_size i)
                (v_file_bytes s (sb s) inum) Hlen Hsz) as Happ. cbv zeta in Happ. fold old in Happ.
  set (add := if 4096 - old <? size then 4096 - old else size) in *.
  assert (0 <= old <= 4096) by (unfold old; destruct (Z.ltb_spec 4096 (i_size i)); lia).
  assert (0 <= add <= 4096) by (unfold add; destruct (Z.ltb_spec (4096 - old) size); lia).
  rewrite <- Happ. eapply (update_then_read path _ (old + add) inum s s3); [exact Hup|lia| |exact Hh3| | |exact E].
  - left. apply run_fits_last; [|exact Hlast]. by destruct Hup as (_ & (_ & Hg & _) & _).
  - congruence.
  - intros p. by rewrite Hv3, Hv2.
Qed.

(** ** Mounting *)

(** A drive and offset that cannot be mounted: no drive, a failed read, no
    magic number, or sizes that fail the checks *)
Definition rejected (d0 : D) (c : Z * Z * Z) : Prop :=
  let '(ch, dr, off) := c in
  let buf := sector d0 ch dr (phys (u32 (off + 1))) in
  (exists d, same_disk d0 d /\ (ata_drive_exists d ch dr = false \/ fst (ata_read d ch dr (u32 (off + 1))) = None)) \/
  has_magic buf = false \/ sb_invalid (sb_load ch dr off buf) = true.

Lemma rejected_same (d0 d1 : D) (c : Z * Z * Z) : same_disk d0 d1 -> rejected d1 c -> rejected d0 c.
Proof.
  destruct c as [[ch dr] off]. intros Hd [(d & Hd1 & Hf)|Hc]; [left; exists d; split; [by etrans|done]|right].
  by rewrite Hd in Hc.
Qed.

Lemma mount_from_val (l : list (Z * Z * Z)) (s : fs D) r s' :
  mount_from l s = (r, s') ->
  same_disk (dev s) (dev s') /\
  (r = None -> mounted s' = mounted s /\ nvfs_cwd s' = nvfs_cwd s /\ Forall (rejected (dev s)) l) /\
  (r = Some tt -> mounted s' = true /\ nvfs_cwd s' = NVFS_ROOT_INODE /\
     exists l1 ch dr off l2, l = l1 ++ (ch, dr, off) :: l2 /\ Forall (rejected (dev s)) l1 /\
       has_magic (sector (dev s) ch dr (phys (u32 (off + 1)))) = true /\
       sb s' = sb_load ch dr off (sector (dev s) ch dr (phys (u32 (off + 1)))) /\
       sb_invalid (sb s') = false).
Proof.
  revert s; induction l as [|[[ch dr] off] l IH]; intros s E; cbn [mount_from] in E.
  { injection E as <- <-. split; [reflexivity|]. split; [auto|discriminate]. }
  assert (Hskip : forall s1, same_disk (dev s) (dev s1) -> mounted s1 = mounted s ->
    nvfs_cwd s1 = nvfs_cwd s -> rejected (dev s) (ch, dr, off) -> mount_from l s1 = (r, s') ->
    same_disk (dev s) (dev s') /\
    (r = None -> mounted s' = mounted s /\ nvfs_cwd s' = nvfs_cwd s /\ Forall (rejected (dev s)) ((ch, dr, off) :: l)) /\
    (r = Some tt -> mounted s' = true /\ nvfs_cwd s' = NVFS_ROOT_INODE /\
     exists l1 ch0 dr0 off0 l2, (ch, dr, off) :: l = l1 ++ (ch0, dr0, off0) :: l2 /\ Forall (rejected (dev s)) l1 /\
       has_magic (sector (dev s) ch0 dr0 (phys (u32 (off0 + 1)))) = true /\
       sb s' = sb_load ch0 dr0 off0 (sector (dev s) ch0 dr0 (phys (u32 (off0 + 1)))) /\
       sb_invalid (sb s') = false)).
  { intros s1 Hd Hm Hc Hrej E1. destruct (IH _ E1) as (Hd' & Hn & Hs). split; [by etrans|].
    assert (Hall : forall l', Forall (rejected (dev s1)) l' -> Forall (rejected (dev s)) ((ch, dr, off) :: l')).
    { intros l' Hl. constructor; [exact Hrej|]. eapply Forall_impl; [exact Hl|]. intros c. by apply rejected_same. }
    split; [rewrite <- Hm, <- Hc; intros Hr; destruct (Hn Hr) as (? & ? & Hl); auto|].
    intros Hr. destruct (Hs Hr) as (Hm' & Hc' & l1 & ch0 & dr0 & off0 & l2 & -> & Hl1 & Hrest).
    split; [exact Hm'|]. split; [exact Hc'|]. exists ((ch, dr, off) :: l1), ch0, dr0, off0, l2.
    rewrite (Hd ch0 dr0) in Hrest. split; [reflexivity|]. split; [by apply Hall|exact Hrest]. }
  unfold bind at 1, get at 1 in E. destruct (ata_drive_exists (dev s) ch dr) eqn:Hex; cbn [negb] in E;
    [|apply (Hskip s); [done..| |exact E]; left; exists (dev s); split; [done|by left]].
  unfold bind at 1, get in E. unfold bind at 1, set_sb at 1 in E. unfold bind at 1, try in E.
  match type of E with context [read_sector ?lba ?st] => destruct (read_sector lba st) as [o s2] eqn:E2 end.
  pose proof (read_sector_val _ _ _ _ E2) as Ho. unfold read_sector in E2. cbn [dev sb set_drive nvfs_ch nvfs_dr] in E2.
  destruct (ata_read (dev s) ch dr (u32 (off + 1))) as [o' d] eqn:Er. injection E2 as <- <-.
  pose proof Er as Er'. apply read_law in Er' as [Hd _].
  destruct o' as [buf|];
    [|refine (Hskip _ _ _ _ _ E); [exact Hd|reflexivity|reflexivity|left; exists (dev s); split; [done|right; by rewrite Er]]].
  destruct Ho as [[= ->]|Ho]; [|discriminate Ho]. unfold view in E. cbn [dev sb set_drive nvfs_ch nvfs_dr] in E.
  destruct (has_magic (sector (dev s) ch dr (phys (u32 (off + 1))))) eqn:Hmag;
    [|refine (Hskip _ _ _ _ _ E); [exact Hd|reflexivity|reflexivity|right; by left]].
  unfold bind, set_sb in E.
  destruct (sb_invalid (sb_load ch dr off (sector (dev s) ch dr (phys (u32 (off + 1)))))) eqn:Hinv;
    [refine (Hskip _ _ _ _ _ E); [exact Hd|reflexivity|reflexivity|right; by right]|].
  injection E as <- <-. split; [exact Hd|]. split; [discriminate|]. intros _. split; [reflexivity|].
  split; [reflexivity|]. exists [], ch, dr, off, l. split; [done|]. auto.
Qed.

Lemma sb_load_range (ch dr off : Z) (buf : list Z) : is_bytes buf ->
  let g := sb_load ch dr off buf in
  0 <= sb_bitmap_start g /\ 0 <= sb_bitmap_sectors g /\ 0 <= sb_inode_start g /\ 0 <= sb_inode_blocks g /\
  0 <= sb_inode_count g /\ 0 <= sb_data_start g.
Proof.
  intros Hb g. pose proof (fun i => get32_range buf i Hb) as Hr. pose proof (Hr 28). pose proof (Hr 36).
  assert (0 <= get32 buf 28 / 4) by div_mod_lia. unfold g, sb_load.
  cbn [sb_bitmap_start sb_bitmap_sectors sb_inode_start sb_inode_blocks sb_inode_count sb_data_start].
  change inodes_per_sec with 4. repeat split; try apply Hr. destruct (_ =? 0); lia.
Qed.

(** C20: [nvfs_mount] never writes, and mounts the first place it looks at
    that holds a file system: every earlier one has no drive, could not be
    read, lacks the magic number or fails the checks of its sizes, and when
    the mount fails all of them do, and the mounted flag and the directory
    stay.  After a mount the superblock's variables come from that sector and
    the current directory is the root.  The checks add the sizes modulo 2^32;
    for sizes whose sums fit 32 bits, an inode count that fits its table and
    areas within reach of the driver, the mounted file system has the layout
    that the other theorems assume: bitmap, inode table and data area in
    order and disjoint.  (A bitmap of 4294967295 sectors mounts too:
    [NvfsDemo.wrapping_superblock_mounts].) *)
Theorem mount_validates (s : fs D) r s' :
  nvfs_mount s = (r, s') ->
  same_disk (dev s) (dev s') /\
  (r = None -> mounted s' = mounted s /\ nvfs_cwd s' = nvfs_cwd s /\ Forall (rejected (dev s)) mount_candidates) /\
  (r = Some tt -> mounted s' = true /\ nvfs_cwd s' = NVFS_ROOT_INODE /\
     (exists l1 ch dr off l2, mount_candidates = l1 ++ (ch, dr, off) :: l2 /\ Forall (rejected (dev s)) l1 /\
        has_magic (sector (dev s) ch dr (phys (u32 (off + 1)))) = true /\
        sb s' = sb_load ch dr off (sector (dev s) ch dr (phys (u32 (off + 1))))) /\
     (sb_bitmap_start (sb s') + sb_bitmap_sectors (sb s') < 4294967296 ->
      sb_inode_start (sb s') + sb_inode_blocks (sb s') < 4294967296 ->
      sb_inode_count (sb s') <= 4 * sb_inode_blocks (sb s') -> sb_inode_count (sb s') <= 33554432 ->
      nvfs_offset (sb s') + sb_data_start (sb s') + total_bits (sb s') <= 268435456 -> layout (sb s'))).
Proof.
  intros E. destruct (mount_from_val _ _ _ _ E) as (Hd & Hn & Hs). split; [exact Hd|]. split; [exact Hn|].
  intros Hr. destruct (Hs Hr) as (Hm & Hc & l1 & ch & dr & off & l2 & Hl & Hl1 & Hmag & Hsb & Hinv).
  split; [exact Hm|]. split; [exact Hc|]. split; [exists l1, ch, dr, off, l2; auto|].
  intros H1 H2 H3 H4 H5. pose proof (sb_load_range ch dr off _ (sector_bytes (dev s) ch dr (phys (u32 (off + 1))))) as Hg.
  cbv zeta in Hg. rewrite <- Hsb in Hg. unfold sb_invalid in Hinv. zbool. rewrite !u32_small in * by lia.
  assert (Ho : 0 <= nvfs_offset (sb s')).
  { assert (Hin : (ch, dr, off) ∈ mount_candidates) by (rewrite Hl; apply elem_of_app; right; apply list_elem_of_here). rewrite Hsb. cbn.
    unfold mount_candidates in Hin. repeat (apply elem_of_cons in Hin as [[= _ _ ->]|Hin]; [lia|]). by apply not_elem_of_nil in Hin. }
  unfold layout. lia.
Qed.

End healthy_props.
