(* ===== verification/NvfsDir.v ===== *)
(** * Directories

    Directory blocks as arrays of 16 entries, and the effect of adding an
    entry on every later lookup. *)
From S2P Require Import Prelude Bytes BlockDev Nvfs NvfsLayout NvfsDisk NvfsBlocks NvfsFiles NvfsRead.

Import Nvfs.
Open Scope nvfs_scope.

(** ** Entries *)

(** A name as the disk can hold it: bytes, none of them NUL. *)
Definition good_name (name : list Z) : Prop := Forall (fun c => 0 < c < 256) name.

(** Names are compared on their first 27 bytes. *)
Definition short (name : list Z) : list Z := take 27 name.

Lemma name_len_eq (name : list Z) : name_len name = Z.of_nat (length (short name)).
Proof. unfold name_len, short, NVFS_MAX_NAME. rewrite length_take. lia. Qed.

Lemma byte_at_short (name : list Z) (k : Z) : 0 <= k < name_len name -> byte_at (short name) k = byte_at name k.
Proof.
  intros Hk. unfold byte_at, short. rewrite lookup_take_lt; [reflexivity|].
  unfold name_len, NVFS_MAX_NAME in Hk. lia.
Qed.

Lemma good_name_at (name : list Z) (k : Z) :
  good_name name -> 0 <= k < Z.of_nat (length name) -> 0 < byte_at name k < 256.
Proof.
  intros H Hk. unfold byte_at. destruct (lookup_lt_is_Some_2 name (Z.to_nat k)) as [c Hc]; [lia|].
  rewrite Hc. exact (Forall_lookup_1 _ _ _ _ H Hc).
Qed.

Lemma dirent_match_iff (tmp : list Z) (e : Z) (name : list Z) :
  dirent_match tmp e name = true <->
  (forall k, 0 <= k < name_len name -> byte_at tmp (e * 32 + k) = byte_at name k) /\
  byte_at tmp (e * 32 + name_len name) = 0.
Proof.
  unfold dirent_match. change NVFS_DIRENT_SIZE with 32. rewrite andb_true_iff, all_up_true, Z.eqb_eq.
  assert (0 <= name_len name) by (unfold name_len, NVFS_MAX_NAME; lia). rewrite Z2Nat.id by lia.
  split; intros [H1 H2]; (split; [|exact H2]); intros k Hk; [apply Z.eqb_eq|rewrite Z.eqb_eq]; apply H1; lia.
Qed.

Lemma length_new_dirent (name : list Z) (c : Z) : length (new_dirent name c) = 32%nat.
Proof. unfold new_dirent. by rewrite length_put32, length_map, length_seqZ. Qed.

Lemma new_dirent_at (name : list Z) (c k : Z) :
  0 <= k < 28 -> byte_at (new_dirent name c) k = if k <? name_len name then u8 (byte_at name k) else 0.
Proof.
  intros Hk. unfold new_dirent. rewrite byte_at_put32_ne by lia. unfold byte_at at 1.
  rewrite list_lookup_fmap, lookup_seqZ_lt by lia. simpl. rewrite Z2Nat.id by lia. reflexivity.
Qed.

Lemma new_dirent_bytes (name : list Z) (c : Z) : is_bytes (new_dirent name c).
Proof.
  apply is_bytes_put32, Forall_forall. intros x (k & -> & _)%list_elem_of_fmap. unfold is_byte.
  destruct (k <? name_len name); [apply u8_range|lia].
Qed.

(** Storing an entry in slot [e] of a block. *)
Section store.
Context (tmp name : list Z) (e child : Z).
Hypothesis (Htmp : length tmp = 512%nat) (He : 0 <= e < 16) (Hname : good_name name)
  (Hchild : 0 < child < 2147483648).

Definition stored_entry : list Z := put_bytes tmp (e * 32) (new_dirent name child).

Lemma stored_entry_in (k : Z) :
  0 <= k < 32 -> byte_at stored_entry (e * 32 + k) = byte_at (new_dirent name child) k.
Proof.
  intros Hk. unfold stored_entry. rewrite byte_at_put_bytes_in; rewrite ?length_new_dirent, ?Htmp; [|lia..].
  replace (e * 32 + k - e * 32) with k by lia. apply u8_small, is_bytes_byte_at, new_dirent_bytes.
Qed.

Lemma stored_entry_out (j : Z) :
  0 <= j -> j < e * 32 \/ e * 32 + 32 <= j -> byte_at stored_entry j = byte_at tmp j.
Proof. intros Hj Hr. unfold stored_entry. apply byte_at_put_bytes_out; rewrite ?length_new_dirent; lia. Qed.

Lemma stored_entry_inode : dirent_inode stored_entry e = child.
Proof.
  unfold dirent_inode. change NVFS_DIRENT_SIZE with 32. unfold get32.
  replace (e * 32 + 28 + 1) with (e * 32 + 29) by lia. replace (e * 32 + 28 + 2) with (e * 32 + 30) by lia.
  replace (e * 32 + 28 + 3) with (e * 32 + 31) by lia. rewrite !stored_entry_in by lia.
  change (get32 (new_dirent name child) 28 = child). unfold new_dirent.
  rewrite get32_put32_eq; [apply u32_small; lia|lia|]. rewrite length_map, length_seqZ. lia.
Qed.

Lemma stored_entry_match : dirent_match stored_entry e name = true.
Proof.
  apply dirent_match_iff. rewrite name_len_eq.
  assert (Hl : Z.of_nat (length (short name)) <= 27) by (unfold short; rewrite length_take; lia).
  split.
  - intros k Hk. rewrite stored_entry_in, new_dirent_at, name_len_eq by lia.
    rewrite (proj2 (Z.ltb_lt k _)) by lia. apply u8_small.
    assert (Z.of_nat (length (short name)) <= Z.of_nat (length name)) by (unfold short; rewrite length_take; lia).
    pose proof (good_name_at name k Hname ltac:(lia)). lia.
  - rewrite stored_entry_in, new_dirent_at, name_len_eq by lia. by rewrite Z.ltb_irrefl.
Qed.

(** No other name matches the new entry. *)
Lemma stored_entry_only (name' : list Z) :
  good_name name' -> dirent_match stored_entry e name' = true -> short name' = short name.
Proof.
  intros Hg' Hm. apply dirent_match_iff in Hm as [Hk H0].
  assert (Hl : Z.of_nat (length (short name)) <= 27) by (unfold short; rewrite length_take; lia).
  assert (Hl' : Z.of_nat (length (short name')) <= 27) by (unfold short; rewrite length_take; lia).
  assert (Hs : Z.of_nat (length (short name)) <= Z.of_nat (length name)) by (unfold short; rewrite length_take; lia).
  assert (Hs' : Z.of_nat (length (short name')) <= Z.of_nat (length name')) by (unfold short; rewrite length_take; lia).
  rewrite name_len_eq in *.
  assert (Hat : forall k, 0 <= k < 28 -> byte_at stored_entry (e * 32 + k) =
     if k <? Z.of_nat (length (short name)) then byte_at name k else 0).
  { intros k Hk'. rewrite stored_entry_in, new_dirent_at, name_len_eq by lia.
    destruct (Z.ltb_spec k (Z.of_nat (length (short name)))); [|reflexivity].
    apply u8_small. pose proof (good_name_at name k Hname ltac:(lia)). lia. }
  assert (El : Z.of_nat (length (short name')) = Z.of_nat (length (short name))).
  { destruct (Z.lt_trichotomy (Z.of_nat (length (short name'))) (Z.of_nat (length (short name)))) as [Hlt|[|Hgt]];
      [|assumption|].
    - rewrite Hat, (proj2 (Z.ltb_lt _ _) Hlt) in H0 by lia.
      pose proof (good_name_at name (Z.of_nat (length (short name'))) Hname ltac:(lia)). lia.
    - specialize (Hk (Z.of_nat (length (short name))) ltac:(lia)). rewrite Hat, Z.ltb_irrefl in Hk by lia.
      pose proof (good_name_at name' (Z.of_nat (length (short name))) Hg' ltac:(lia)). lia. }
  apply bytes_ext; [lia|]. intros k Hk'. rewrite !byte_at_short by (rewrite name_len_eq; lia).
  rewrite <- Hk, Hat, (proj2 (Z.ltb_lt k _)) by lia. reflexivity.
Qed.

(** Other slots are as they were. *)
Lemma stored_entry_other (e' : Z) (name' : list Z) :
  0 <= e' < 16 -> e' <> e ->
  dirent_inode stored_entry e' = dirent_inode tmp e' /\
  dirent_match stored_entry e' name' = dirent_match tmp e' name'.
Proof.
  intros He' Hne.
  assert (Hout : forall k, 0 <= k < 32 -> byte_at stored_entry (e' * 32 + k) = byte_at tmp (e' * 32 + k)).
  { intros k Hk. apply stored_entry_out; lia. }
  split.
  - unfold dirent_inode. change NVFS_DIRENT_SIZE with 32. apply get32_ext. intros j Hj.
    specialize (Hout (j - e' * 32)). replace (e' * 32 + (j - e' * 32)) with j in Hout by lia. apply Hout. lia.
  - assert (Hl : Z.of_nat (length (short name')) <= 27) by (unfold short; rewrite length_take; lia).
    apply eq_true_iff_eq. rewrite !dirent_match_iff, !name_len_eq, Hout by lia.
    split; intros [H1 H2]; (split; [|exact H2]); intros k Hk; [rewrite <- Hout by lia|rewrite Hout by lia];
      by apply H1.
Qed.

Lemma stored_entry_named_other (e' : Z) (name' : list Z) :
  0 <= e' < 16 -> e' <> e -> entry_named name' stored_entry e' = entry_named name' tmp e'.
Proof. intros H1 H2. unfold entry_named. by destruct (stored_entry_other e' name' H1 H2) as [-> ->]. Qed.

(** The new entry is found by its name... *)
Lemma find_stored_entry :
  (forall x, 0 <= x < 16 -> entry_named name tmp x = false) ->
  find_entry (entry_named name) stored_entry = Some e.
Proof.
  intros Hno. apply find_up_first.
  - change (Z.of_nat (Z.to_nat dirents)) with 16. lia.
  - unfold entry_named. rewrite stored_entry_inode, stored_entry_match.
    rewrite (proj2 (Z.eqb_neq child 0)) by lia. reflexivity.
  - intros y Hy. rewrite stored_entry_named_other by lia. apply Hno. lia.
Qed.

(** ... and lookups of other names find what they found. *)
Lemma find_other_entry (name' : list Z) :
  dirent_inode tmp e = 0 -> good_name name' -> short name' <> short name ->
  find_entry (entry_named name') stored_entry = find_entry (entry_named name') tmp /\
  (forall x, find_entry (entry_named name') tmp = Some x -> dirent_inode stored_entry x = dirent_inode tmp x).
Proof.
  intros Hfree Hg' Hne.
  assert (Hsame : forall x, 0 <= x < 16 -> entry_named name' stored_entry x = entry_named name' tmp x).
  { intros x Hx. destruct (Z.eq_dec x e) as [->|]; [|by apply stored_entry_named_other].
    unfold entry_named. rewrite Hfree. cbn [Z.eqb negb andb].
    destruct (dirent_match stored_entry e name') eqn:E; [|apply andb_false_r].
    apply stored_entry_only in E; [contradiction|exact Hg']. }
  assert (Hd : Z.of_nat (Z.to_nat dirents) = 16) by reflexivity.
  split.
  - unfold find_entry. destruct (find_up _ 0 (entry_named name' tmp)) as [x|] eqn:E.
    + apply find_up_Some in E as (Hx & Hp & Hy). apply find_up_first; [lia| |].
      * rewrite Hsame by lia. exact Hp.
      * intros y Hy'. rewrite Hsame by lia. by apply Hy.
    + rewrite find_up_None in E |- *. intros y Hy. rewrite Hsame by lia. by apply E.
  - intros x E. apply find_up_Some in E as (Hx & Hp & _).
    assert (x <> e).
    { intros ->. unfold entry_named in Hp. rewrite Hfree in Hp. discriminate Hp. }
    apply (stored_entry_other x []); [lia|assumption].
Qed.

End store.

(** ** Lookups after an entry was stored *)

Definition no_named (g : geo) (v : Z -> list Z) (blocks name : list Z) : Prop :=
  forall x, x ∈ blocks -> find_entry (entry_named name) (v_sector g v x) = None.

(** Every entry refers to an inode number that fits an [int]. *)
Definition entries_valid (g : geo) (v : Z -> list Z) (blocks : list Z) : Prop :=
  forall x e, x ∈ blocks -> 0 <= e < 16 -> dirent_inode (v_sector g v x) e < 2147483648.

Lemma v_find_in_None (g : geo) (v : Z -> list Z) (blocks name : list Z) :
  entries_valid g v blocks -> v_find_in g v blocks name = None -> no_named g v blocks name.
Proof.
  induction blocks as [|b r IH]; intros Hval H; [by intros x ?%elem_of_nil|].
  cbn [v_find_in] in H. destruct (find_entry (entry_named name) (v_sector g v b)) as [e|] eqn:E.
  - apply find_up_Some in E as (He & _ & _). change (Z.of_nat (Z.to_nat dirents)) with 16 in He.
    specialize (Hval b e (list_elem_of_here _ _) ltac:(lia)). cbv zeta in H.
    rewrite (proj2 (Z.ltb_lt _ _) Hval) in H. discriminate H.
  - intros x [->|Hx]%elem_of_cons; [exact E|]. apply IH; [|exact H|exact Hx].
    intros y e Hy. apply Hval. by apply list_elem_of_further.
Qed.

Section lookups.
Context (g : geo) (v v' : Z -> list Z) (name : list Z) (b e child : Z).
Hypothesis (Hlen : length (v_sector g v b) = 512%nat) (He : 0 <= e < 16) (Hname : good_name name)
  (Hchild : 0 < child < 2147483648) (Hfree : dirent_inode (v_sector g v b) e = 0)
  (Hb : v_sector g v' b = stored_entry (v_sector g v b) name e child).

Lemma v_find_in_new (blocks : list Z) :
  (forall x, x ∈ blocks -> x <> b -> v_sector g v' x = v_sector g v x) ->
  b ∈ blocks -> no_named g v blocks name -> v_find_in g v' blocks name = Some child.
Proof.
  induction blocks as [|x r IH]; intros Hs Hin Hno; [by apply elem_of_nil in Hin|]. cbn [v_find_in].
  destruct (Z.eq_dec x b) as [->|Hne].
  - rewrite Hb, find_stored_entry by (try assumption;
      intros y Hy; pose proof (Hno b (list_elem_of_here _ _)) as H; unfold find_entry in H;
      rewrite find_up_None in H; apply H; change (Z.of_nat (Z.to_nat dirents)) with 16; lia).
    cbv zeta. rewrite stored_entry_inode by assumption. by rewrite (proj2 (Z.ltb_lt child _)) by lia.
  - rewrite Hs by (apply list_elem_of_here || exact Hne). rewrite (Hno x (list_elem_of_here _ _)).
    apply IH.
    + intros y Hy. apply Hs. by apply list_elem_of_further.
    + apply elem_of_cons in Hin as [->|]; [contradiction|assumption].
    + intros y Hy. apply Hno. by apply list_elem_of_further.
Qed.

Lemma v_find_in_old (blocks name' : list Z) :
  (forall x, x ∈ blocks -> x <> b -> v_sector g v' x = v_sector g v x) ->
  good_name name' -> short name' <> short name -> v_find_in g v' blocks name' = v_find_in g v blocks name'.
Proof.
  intros Hs Hg' Hne. induction blocks as [|x r IH]; cbn [v_find_in]; [reflexivity|].
  rewrite IH by (intros y Hy; apply Hs; by apply list_elem_of_further).
  destruct (Z.eq_dec x b) as [->|Hx].
  - destruct (find_other_entry (v_sector g v b) name e child Hlen He Hname name' Hfree Hg' Hne) as [E Hi].
    rewrite Hb, E. destruct (find_entry (entry_named name') (v_sector g v b)) as [y|] eqn:Ef; [|reflexivity].
    by rewrite (Hi y eq_refl).
  - by rewrite Hs by (apply list_elem_of_here || exact Hx).
Qed.

End lookups.

Lemma v_find_in_app (g : geo) (v : Z -> list Z) (l1 l2 name : list Z) :
  no_named g v l1 name -> v_find_in g v (l1 ++ l2) name = v_find_in g v l2 name.
Proof.
  induction l1 as [|x r IH]; intros H; cbn [app v_find_in]; [reflexivity|].
  rewrite (H x (list_elem_of_here _ _)). apply IH. intros y Hy. apply H. by apply list_elem_of_further.
Qed.

Lemma v_find_in_snoc (g : geo) (v : Z -> list Z) (l : list Z) (b : Z) (name : list Z) :
  find_entry (entry_named name) (v_sector g v b) = None -> v_find_in g v (l ++ [b]) name = v_find_in g v l name.
Proof.
  intros Hb. induction l as [|x r IH]; cbn [app v_find_in]; [by rewrite Hb|].
  destruct (find_entry (entry_named name) (v_sector g v x)); [reflexivity|exact IH].
Qed.

(** Directories without an indirect block. *)
Lemma v_exts_direct (g : geo) (v : Z -> list Z) (i : nvfs_inode) :
  i_extent_count i <= 13 -> v_exts g v i = map (ext_at (i_extents i)) (seqZ 0 (i_extent_count i)).
Proof.
  intros H. unfold v_exts. change NVFS_DIRECT_EXTENTS with 13. change EXTENT_CACHE_MAX with 77.
  rewrite (proj2 (Z.leb_le _ 13)) by exact H. rewrite app_nil_r. do 2 f_equal. lia.
Qed.

(** ** dir_add *)

Section dir_add.
Context {D : Type} `{ML : MachineLaws D}.
Abbreviation M := (@M D).

Lemma read_block_val (b : Z) (s : fs D) tmp s' :
  read_block b s = (Some tmp, s') -> tmp = v_sector (sb s) (view s) b.
Proof.
  intros E. unfold read_block, bind, get in E.
  destruct (read_sector_val _ _ _ _ E) as [[= ->]|E']; [reflexivity|discriminate E'].
Qed.

Lemma write_block_val (b : Z) (buf : list Z) (s : fs D) s' :
  length buf = 512%nat -> is_bytes buf -> write_block b buf s = (Some tt, s') ->
  v_sector (sb s) (view s') b = buf.
Proof.
  intros Hl Hb E. unfold write_block, bind, get in E.
  destruct (write_sector_view _ _ _ _ _ Hl Hb E) as [H|[H _]]; [exact H|discriminate H].
Qed.

Lemma dir_add_in_true (blocks nd : list Z) (s : fs D) s' :
  dir_add_in blocks nd s = (Some true, s') ->
  exists b e, b ∈ blocks /\ 0 <= e < 16 /\ dirent_inode (v_sector (sb s) (view s) b) e = 0 /\
    frame (block_sec b (sb s)) s s' /\
    v_sector (sb s) (view s') b = put_bytes (v_sector (sb s) (view s) b) (e * 32) nd.
Proof.
  revert s; induction blocks as [|b r IH]; intros s E; cbn [dir_add_in] in E; [discriminate E|].
  apply bind_inv in E as [(tmp & s1 & E1 & E)|[_ E]]; [|discriminate E].
  apply or_errno_inv in E1 as [(a & E1 & [= <-])|(s0 & _ & E' & _)]; [|discriminate E'].
  pose proof (read_block_val _ _ _ _ E1) as ->.
  destruct (quiet _ _ _ _ (touches_read_block nothing _) E1) as [Hs1 Hv1].
  pose proof (touches_read_block (fun g => block_sec b g) _ _ _ _ E1) as F1.
  destruct (find_entry entry_free (v_sector (sb s) (view s) b)) as [e|] eqn:Ef.
  - apply find_up_Some in Ef as (He & Hfree & _). change (Z.of_nat (Z.to_nat dirents)) with 16 in He.
    unfold entry_free in Hfree. zbool.
    apply bind_inv in E as [(u & s2 & E2 & [= <-])|[_ E]]; [|discriminate E].
    apply or_errno_inv in E2 as [([] & E2 & _)|(s0 & _ & E' & _)]; [|discriminate E'].
    exists b, e. split; [apply list_elem_of_here|]. split; [lia|]. split; [assumption|]. split.
    + eapply frame_trans; [exact F1|]. rewrite <- Hs1. exact (touches_write_block _ _ _ _ _ E2).
    + rewrite <- Hs1. apply write_block_val in E2; [rewrite Hs1 in *; exact E2| |].
      * rewrite length_put_bytes. apply view_len.
      * apply is_bytes_put_bytes, view_bytes.
  - destruct (IH _ E) as (b' & e & Hin & He & Hfree & F & Hsec). rewrite Hs1 in *.
    assert (Hx : forall x, v_sector (sb s) (view s1) x = v_sector (sb s) (view s) x) by (intros; apply Hv1).
    rewrite Hx in *. exists b', e. split; [by apply list_elem_of_further|]. do 2 (split; [assumption|]).
    split; [|exact Hsec]. eapply frame_trans; [|exact F].
    exact (touches_read_block (fun g => block_sec b' g) _ _ _ _ E1).
Qed.

Lemma dir_add_in_false (blocks nd : list Z) (s : fs D) s' :
  dir_add_in blocks nd s = (Some false, s') -> frame (fun _ => False) s s'.
Proof.
  revert s; induction blocks as [|b r IH]; intros s E; cbn [dir_add_in] in E.
  { injection E as <-. apply frame_refl. }
  apply bind_inv in E as [(tmp & s1 & E1 & E)|[_ E]]; [|discriminate E].
  assert (T : touches nothing (read_block (D := D) b or_errno NVFS_ERR_IO)) by touch.
  pose proof (T _ _ _ E1) as F1. destruct (find_entry entry_free tmp).
  - apply bind_inv in E as [(u & s2 & _ & E)|[_ E]]; discriminate E.
  - eapply frame_trans; [exact F1|]. by apply IH.
Qed.

(** Updating the directory's inode: only the inode changes. *)
Lemma touch_dir_val (dir : Z) (i : nvfs_inode) (s : fs D) s' :
  layout (sb s) -> 0 <= dir < sb_inode_count (sb s) -> inode_wf i -> i_extent_count i <= 14 ->
  touch_dir dir i s = (Some tt, s') ->
  (exists t, v_inode (sb s) (view s') dir = inode_set_mtime i t) /\ sb s' = sb s /\
  (forall x, 0 <= x < total_bits (sb s) -> v_sector (sb s) (view s') x = v_sector (sb s) (view s) x).
Proof.
  intros Hg Hd Hw Hec E. unfold touch_dir in E.
  apply bind_inv in E as [(t & s1 & E1 & E)|[_ E]]; [|discriminate E].
  destruct (now_sec_val _ _ _ E1) as (t' & [= <-] & Ht).
  destruct (quiet _ _ _ _ (touches_now_sec nothing) E1) as [Hs1 Hv1].
  assert (Hw' : inode_wf (inode_set_mtime i t)).
  { destruct Hw as (H1 & H2 & H3 & H4 & H5 & H6 & _). repeat (split; [assumption|]). exact Ht. }
  destruct (inode_write_view _ _ _ _ _ ltac:(rewrite Hs1; exact Hg) ltac:(rewrite Hs1; exact Hd) Hw' E)
    as [Hin _]. rewrite Hs1 in *.
  destruct (touches_inode_write _ _ _ _ _ E) as (_ & _ & Hs & Hv). rewrite Hs1 in *.
  split; [|split; [exact Hs|]].
  - exists t. destruct Hin as [->|[H _]]; [|discriminate H]. unfold clamp_inode.
    change NVFS_MAX_EXTENTS with 14. cbn [i_extent_count inode_set_mtime].
    rewrite (proj2 (Z.ltb_ge 14 _)) by exact Hec. reflexivity.
  - intros x Hx. unfold v_sector. rewrite Hv; [apply Hv1|]. intros Hp.
    pose proof (block_in_area _ Hg _ Hx) as Ha. apply (areas_disjoint _ Hg) in Ha as [_ Hn].
    apply Hn. rewrite Hp. by apply inode_in_area.
Qed.

(** The part of [dir_add] before the directory is changed. *)
Lemma dir_add_start (dir : Z) (name : list Z) (child : Z) (s : fs D) s' :
  dir_add dir name child s = (Some tt, s') ->
  exists s1, sb s1 = sb s /\ (forall p, view s1 p = view s p) /\
    i_type (v_inode (sb s) (view s) dir) = NVFS_TYPE_DIR /\
    (let i := v_inode (sb s) (view s) dir in
     stored <- dir_add_in (v_blocks (sb s) (view s) i) (new_dirent name child) ;;
     if stored : bool then touch_dir dir i
     else
       new_block <- bitmap_find 1 or_errno NVFS_ERR_NO_SPACE ;;
       ignore (bitmap_set new_block true) ;;;
       write_block new_block (put_bytes zero_sector 0 (new_dirent name child)) or_errno NVFS_ERR_IO ;;;
       r <- try (dir_add_extent i new_block) ;;
       match r with
       | None => ignore (bitmap_set new_block false) ;;; fail
       | Some ino => touch_dir dir ino or_errno NVFS_ERR_IO
       end) s1 = (Some tt, s').
Proof.
  intros E. unfold dir_add in E.
  apply bind_inv in E as [(i & s1 & E1 & E)|[_ E]]; [|discriminate E].
  destruct (quiet _ _ _ _ (touches_dir_inode_read nothing _) E1) as [Hs1 Hv1].
  unfold dir_inode_read in E1. apply bind_inv in E1 as [(j & s0 & E0 & E1)|[_ E1]]; [|discriminate E1].
  apply or_errno_inv in E0 as [(a & E0 & [= <-])|(x & _ & E' & _)]; [|discriminate E'].
  apply inode_read_val in E0 as [-> _].
  destruct (Z.eqb_spec (i_type (v_inode (sb s) (view s) dir)) NVFS_TYPE_DIR) as [Ht|]; [|discriminate E1].
  injection E1 as <- _.
  apply bind_inv in E as [(found & s2 & E2 & E)|[_ E]]; [|discriminate E].
  assert (T2 : touches nothing (try (dir_find (D := D) dir name))) by touch.
  destruct (quiet _ _ _ _ T2 E2) as [Hs2 Hv2].
  destruct found; [apply bind_inv in E as [(? & ? & _ & E)|[_ E]]; discriminate E|].
  apply bind_inv in E as [(cache & s3 & E3 & E)|[_ E]]; [|discriminate E].
  apply or_errno_inv in E3 as [(a & E3 & [= <-])|(x & _ & E' & _)]; [|discriminate E'].
  pose proof (extent_load_all_val _ _ _ _ E3) as ->.
  destruct (quiet _ _ _ _ (touches_extent_load_all nothing _) E3) as [Hs3 Hv3].
  exists s3. split; [congruence|]. split; [intros; by rewrite Hv3, Hv2, Hv1|]. split; [exact Ht|].
  assert (Ex : v_exts (sb s2) (view s2) (v_inode (sb s) (view s) dir) =
               v_exts (sb s) (view s) (v_inode (sb s) (view s) dir)).
  { rewrite Hs2, Hs1. unfold v_exts, v_sector. by rewrite Hv2, Hv1. }
  unfold v_blocks. cbv zeta. rewrite <- Ex. exact E.
Qed.

(** The directory after an entry went into a free slot. *)
Lemma dir_add_slot (dir : Z) (name : list Z) (child : Z) (s s1 s2 s' : fs D) :
  layout (sb s) -> 0 <= dir < sb_inode_count (sb s) -> good_name name -> 0 < child < 2147483648 ->
  (let i := v_inode (sb s) (view s) dir in
   i_type i = NVFS_TYPE_DIR -> i_extent_count i <= 13 ->
   let blocks := v_blocks (sb s) (view s) i in
   Forall (block_used (sb s) (view s)) blocks -> no_named (sb s) (view s) blocks name ->
   sb s1 = sb s -> (forall p, view s1 p = view s p) ->
   dir_add_in blocks (new_dirent name child) s1 = (Some true, s2) -> touch_dir dir i s2 = (Some tt, s') ->
   v_dir_find (sb s) (view s') dir name = Some child /\
   forall name', good_name name' -> short name' <> short name ->
     v_dir_find (sb s) (view s') dir name' = v_dir_find (sb s) (view s) dir name').
Proof.
  intros Hg Hd Hn Hch i Hty Hec blocks Hbl Hno Hs1 Hv1 E1 E2. rewrite Forall_forall in Hbl.
  apply dir_add_in_true in E1 as (b & e & Hin & He & Hfree & (_ & _ & Hs2 & Hv2) & Hsec).
  assert (Hx1 : forall x, v_sector (sb s) (view s1) x = v_sector (sb s) (view s) x) by (intros; apply Hv1).
  rewrite Hs1 in *. rewrite Hx1 in *.
  apply touch_dir_val in E2 as ((t & Hi') & _ & Hx2); rewrite ?Hs2 in *; [|exact Hg|exact Hd| |lia].
  2: { apply inode_get_wf, view_bytes. }
  assert (Hoth : forall x, x ∈ blocks -> x <> b -> v_sector (sb s) (view s') x = v_sector (sb s) (view s) x).
  { intros x Hx Hne. rewrite Hx2 by apply (Hbl x Hx). rewrite <- Hx1. unfold v_sector. apply Hv2.
    intros Hp. apply Hne. apply (block_pos_inj (sb s) Hg); [apply (Hbl x Hx)|apply (Hbl b Hin)|exact Hp]. }
  assert (Hb : v_sector (sb s) (view s') b = stored_entry (v_sector (sb s) (view s) b) name e child).
  { rewrite Hx2 by apply (Hbl b Hin). exact Hsec. }
  assert (Hlen : length (v_sector (sb s) (view s) b) = 512%nat) by apply view_len.
  assert (Hfind : forall n, v_dir_find (sb s) (view s') dir n = v_find_in (sb s) (view s') blocks n).
  { intros n. unfold v_dir_find. rewrite Hi', (proj2 (Z.leb_gt _ _)) by lia. cbn [i_type inode_set_mtime].
    rewrite Hty. unfold blocks, v_blocks. by rewrite !v_exts_direct by exact Hec. }
  split.
  - rewrite Hfind. by apply (v_find_in_new _ (view s) _ name b e).
  - intros name' Hg' Hne. rewrite Hfind.
    rewrite (v_find_in_old _ (view s) _ name b e child) by assumption.
    unfold v_dir_find. rewrite (proj2 (Z.leb_gt _ _)) by lia. fold i. by rewrite Hty.
Qed.

Lemma zero_sector_entry (e : Z) : 0 <= e < 16 -> dirent_inode zero_sector e = 0.
Proof.
  intros He. unfold dirent_inode. change NVFS_DIRENT_SIZE with 32.
  assert (Hz : forall j, byte_at zero_sector j = 0).
  { intros j. unfold byte_at, zero_sector.
    destruct (replicate 512 0 !! Z.to_nat j) as [x|] eqn:E; [|reflexivity].
    by apply lookup_replicate in E as [-> _]. }
  unfold get32. by rewrite !Hz.
Qed.

(** The inode after [dir_add_extent] added a direct extent. *)
Lemma grow_direct (g : geo) (v : Z -> list Z) (i : nvfs_inode) (nb t : Z) :
  inode_wf i -> i_extent_count i < 13 -> 0 <= nb < 4294967296 ->
  let i' := grow_dir (set_extent i (i_extent_count i) (mkExt nb 1)) (i_extent_count i + 1) in
  inode_wf i' /\ v_blocks g v (inode_set_mtime i' t) = v_blocks g v i ++ [nb].
Proof.
  intros (H1 & H2 & H3 & H4 & H5 & H6 & H7) Hec Hnb i'. unfold is_u32 in H4. split.
  - unfold i', grow_dir, set_extent. split; [apply u32_range|]. split; [exact H2|]. split; [exact H3|].
    split; [unfold is_u32; simpl; lia|]. split; [cbn [i_extents]; by rewrite length_insert|]. split; [|exact H7].
    apply Forall_insert; [exact H6|]. split; unfold is_u32; simpl; lia.
  - unfold v_blocks. rewrite !v_exts_direct by (simpl; lia). unfold i', grow_dir, set_extent, inode_set_mtime.
    cbn [i_extent_count i_extents]. rewrite seqZ_app by lia. rewrite map_app. unfold ext_blocks.
    rewrite flat_map_app. f_equal.
    + apply (f_equal (flat_map _)). apply map_ext_in. intros k Hk.
      apply list_elem_of_In, elem_of_seqZ in Hk. unfold ext_at. rewrite list_lookup_insert_ne by lia. reflexivity.
    + change (seqZ (0 + i_extent_count i) 1) with [0 + i_extent_count i]. cbn [map flat_map].
      unfold ext_at. rewrite Z.add_0_l, list_lookup_insert_eq by lia. cbn [default from_option id e_start e_count].
      change (seqZ 0 1) with [0]. cbn [map app]. by rewrite Z.add_0_r, u32_small.
Qed.
(** A sector with the new entry in its first slot and nothing else. *)
Lemma fresh_dir_block (name name' : list Z) (child : Z) :
  good_name name -> 0 < child < 2147483648 -> good_name name' ->
  let b := put_bytes zero_sector 0 (new_dirent name child) in
  (find_entry (entry_named name) b = Some 0 /\ dirent_inode b 0 = child) /\
  (short name' <> short name -> find_entry (entry_named name') b = None).
Proof.
  intros Hn Hc Hn' b. change b with (stored_entry zero_sector name 0 child).
  assert (Hno : forall n x, 0 <= x < 16 -> entry_named n zero_sector x = false).
  { intros n x Hx. unfold entry_named. rewrite zero_sector_entry by exact Hx. reflexivity. }
  assert (Hlen : length zero_sector = 512%nat) by reflexivity. split; [split|].
  - apply find_stored_entry; [exact Hlen|lia|exact Hn|exact Hc|auto].
  - apply stored_entry_inode; [exact Hlen|lia|exact Hc].
  - intros Hne. destruct (find_other_entry zero_sector name 0 child Hlen ltac:(lia) Hn name'
      (zero_sector_entry 0 ltac:(lia)) Hn' Hne) as [-> _].
    apply find_up_None. intros y Hy. apply Hno. change (Z.of_nat (Z.to_nat dirents)) with 16 in Hy. lia.
Qed.

(** The directory after an entry went into a new block. *)
Lemma dir_add_fresh (dir : Z) (name : list Z) (child : Z) (s s1 s' : fs D) :
  layout (sb s) -> 0 <= dir < sb_inode_count (sb s) -> good_name name -> 0 < child < 2147483648 ->
  (let i := v_inode (sb s) (view s) dir in
   i_type i = NVFS_TYPE_DIR -> i_extent_count i < 13 ->
   let blocks := v_blocks (sb s) (view s) i in
   Forall (block_used (sb s) (view s)) blocks -> no_named (sb s) (view s) blocks name ->
   sb s1 = sb s -> (forall p, view s1 p = view s p) ->
   (new_block <- bitmap_find 1 or_errno NVFS_ERR_NO_SPACE ;;
    ignore (bitmap_set new_block true) ;;;
    write_block new_block (put_bytes zero_sector 0 (new_dirent name child)) or_errno NVFS_ERR_IO ;;;
    r <- try (dir_add_extent i new_block) ;;
    match r with
    | None => ignore (bitmap_set new_block false) ;;; fail
    | Some ino => touch_dir dir ino or_errno NVFS_ERR_IO
    end) s1 = (Some tt, s') ->
   v_dir_find (sb s) (view s') dir name = Some child /\
   forall name', good_name name' -> short name' <> short name ->
     v_dir_find (sb s) (view s') dir name' = v_dir_find (sb s) (view s) dir name').
Proof.
  intros Hg Hd Hn Hch i Hty Hec blocks Hbl Hno Hs1 Hv1 E. rewrite Forall_forall in Hbl.
  pose proof Hg as (? & ? & ? & ? & ? & ? & ? & ?).
  assert (Hwf : inode_wf i) by apply inode_get_wf, view_bytes.
  (* the new block *)
  apply bind_inv in E as [(nb & s2 & E2 & E)|[_ E]]; [|discriminate E].
  apply or_errno_inv in E2 as [(a & E2 & [= <-])|(x & _ & E' & _)]; [|discriminate E'].
  destruct (bitmap_find_fits 1 s1 nb s2) as (Hnb & Hnbt & Hfree); [by rewrite Hs1|left; by apply run_fits_one|exact E2|].
  destruct (quiet _ _ _ _ (touches_bitmap_find nothing _) E2) as [Hs2 Hv2].
  specialize (Hfree 0 ltac:(lia)). rewrite Z.add_0_r, Hs1, (used_bit_ext _ _ _ _ Hv1) in Hfree.
  rewrite Hs1 in *.
  (* its bit and its contents *)
  apply bind_inv in E as [(u & s3 & E3 & E)|[_ E]]; [|discriminate E].
  apply ignore_inv in E3 as (_ & o & E3).
  destruct (touches_bitmap_set _ _ _ _ _ E3) as (_ & _ & Hs3 & Hv3).
  apply bind_inv in E as [([] & s4 & E4 & E)|[_ E]]; [|discriminate E].
  apply or_errno_inv in E4 as [([] & E4 & _)|(x & _ & E' & _)]; [|discriminate E'].
  destruct (touches_write_block _ _ _ _ _ E4) as (_ & _ & Hs4 & Hv4).
  apply write_block_val in E4; [|by rewrite length_put_bytes|apply is_bytes_put_bytes, is_bytes_replicate; lia].
  (* the extent *)
  apply bind_inv in E as [(r & s5 & E5 & E)|[_ E]]; [|discriminate E].
  unfold dir_add_extent in E5. change NVFS_DIRECT_EXTENTS with 13 in E5.
  rewrite (proj2 (Z.ltb_lt _ 13) Hec) in E5. injection E5 as <- <-.
  apply or_errno_inv in E as [([] & E & _)|(x & _ & E' & _)]; [|discriminate E'].
  assert (Hs4' : sb s4 = sb s) by congruence. rewrite Hs3, Hs2 in *.
  destruct (grow_direct (sb s) (view s') i nb 0 Hwf Hec ltac:(unfold total_bits in *; lia)) as [Hwf' _].
  apply touch_dir_val in E as ((t & Hi') & _ & Hx5); rewrite ?Hs4' in *;
    [|exact Hg|exact Hd|exact Hwf'|change (i_extent_count i + 1 <= 14); lia].
  destruct (grow_direct (sb s) (view s') i nb t Hwf Hec ltac:(unfold total_bits in *; lia)) as [_ Hbk].
  assert (Hnbsec : v_sector (sb s) (view s') nb = put_bytes zero_sector 0 (new_dirent name child))
    by (rewrite Hx5 by lia; exact E4).
  assert (Hold : forall x, x ∈ blocks -> v_sector (sb s) (view s') x = v_sector (sb s) (view s) x).
  { intros x Hx. destruct (Hbl x Hx) as [Hxr Hxu]. rewrite Hx5 by exact Hxr. unfold v_sector.
    rewrite Hv4, Hv3, Hv2, Hv1; [reflexivity| |].
    - unfold bitmap_sec. intros Hp. pose proof (block_in_area _ Hg _ Hxr) as Ha.
      apply (areas_disjoint _ Hg) in Ha as [Hna _]. apply Hna. rewrite Hp, ?Hs2.
      apply bitmap_in_area; [exact Hg|lia].
    - unfold block_sec. rewrite ?Hs3, ?Hs2. intros Hp.
      apply (block_pos_inj _ Hg) in Hp; [congruence|exact Hxr|lia]. }
  assert (Hfind : forall n, v_dir_find (sb s) (view s') dir n = v_find_in (sb s) (view s') (blocks ++ [nb]) n).
  { intros n. unfold v_dir_find. rewrite Hi', (proj2 (Z.leb_gt _ _)) by lia.
    set (j := inode_set_mtime _ t) in *. change (i_type j) with (i_type i).
    rewrite Hty, Z.eqb_refl. cbn [negb]. rewrite Hbk. f_equal. f_equal. unfold blocks, v_blocks. by rewrite !v_exts_direct by (fold i; lia). }
  split.
  - rewrite Hfind, v_find_in_app.
    + cbn [v_find_in]. rewrite Hnbsec.
      destruct (fresh_dir_block name name child Hn Hch Hn) as [[-> ->] _].
      cbv zeta. by rewrite (proj2 (Z.ltb_lt child _)) by lia.
    + intros x Hx. rewrite Hold by exact Hx. by apply Hno.
  - intros name' Hg' Hne. rewrite Hfind, v_find_in_snoc.
    + unfold v_dir_find. rewrite (proj2 (Z.leb_gt _ _)) by lia. fold i. rewrite Hty, Z.eqb_refl. cbn [negb].
      fold blocks. clear -Hold. induction blocks as [|x r IH]; cbn [v_find_in]; [reflexivity|].
      rewrite Hold by apply list_elem_of_here.
      rewrite IH by (intros y Hy; apply Hold; by apply list_elem_of_further). reflexivity.
    + rewrite Hnbsec. by apply (fresh_dir_block name name' child).
Qed.

(** C31: When [dir_add] reports success the name is found with its inode
    number, and every other name (compared on 27 bytes) is found, or not
    found, exactly as before, whatever else fails.  For directories of fewer
    than 13 extents, on blocks marked used, whose entries hold inode numbers
    below 2^31, and a name that was not in it; with more extents an entry can be lost
    ([NvfsDemo.dir_entry_lost]). *)
Theorem dir_add_then_find (dir : Z) (name : list Z) (child : Z) (s s' : fs D) :
  layout (sb s) -> 0 <= dir < sb_inode_count (sb s) -> good_name name -> 0 < child < 2147483648 ->
  let i := v_inode (sb s) (view s) dir in
  i_extent_count i < 13 -> inode_blocks_used (sb s) (view s) i ->
  entries_valid (sb s) (view s) (v_blocks (sb s) (view s) i) ->
  v_dir_find (sb s) (view s) dir name = None ->
  dir_add dir name child s = (Some tt, s') ->
  v_dir_find (sb s) (view s') dir name = Some child /\
  forall name', good_name name' -> short name' <> short name ->
    v_dir_find (sb s) (view s') dir name' = v_dir_find (sb s) (view s) dir name'.
Proof.
  intros Hg Hd Hn Hch i Hec [Hbl _] Hval Hnone E.
  apply dir_add_start in E as (s1 & Hs1 & Hv1 & Hty & E). cbv zeta in E. fold i in E, Hty.
  assert (Hno : no_named (sb s) (view s) (v_blocks (sb s) (view s) i) name).
  { apply v_find_in_None; [exact Hval|]. unfold v_dir_find in Hnone.
    rewrite (proj2 (Z.leb_gt _ _)) in Hnone by lia. fold i in Hnone. by rewrite Hty in Hnone. }
  apply bind_inv in E as [([|] & s2 & E2 & E)|[_ E]]; [| |discriminate E].
  - apply (dir_add_slot dir name child s s1 s2 s'); auto. fold i. lia.
  - apply dir_add_in_false in E2 as (_ & _ & Hs2 & Hv2).
    apply (dir_add_fresh dir name child s s2 s'); auto; [congruence|].
    intros p. rewrite Hv2 by auto. apply Hv1.
Qed.
End dir_add.
