(* ===== verification/NvfsDemo.v ===== *)
(** * A small disk: witnesses, and defects the model shows

    A disk with a root directory (block 0) that holds one file, "A", of five
    bytes (block 1), on which the theorems about the file system are
    applied; and three theorems about defects of nvfs.c. *)
From S2P Require Import Prelude Bytes BlockDev Nvfs NvfsLayout NvfsDisk NvfsBlocks NvfsFiles NvfsRead.
From S2P Require Import NvfsPath NvfsProps NvfsDir.

Import Nvfs.
Open Scope nvfs_scope.

(** ** The disk *)

Definition demo_geo : geo := mkGeo 0 0 0 7 3 16 4 2 1.

Definition demo_superblock : list Z :=
  put32 (put32 (put32 (put32 (put32 (put32
    (put_bytes zero_sector 0 [78; 86; 70; 83]) 16 2) 20 1) 24 3) 28 16) 32 7) 36 4.

(** Blocks 0 and 1 are in use, and so is the last block of the bitmap. *)
Definition demo_bitmap : list Z := set_byte (set_byte zero_sector 0 3) 511 128.

Definition dir_inode : nvfs_inode :=
  mkInode 512 NVFS_TYPE_DIR (0, 0, 0) 1 (mkExt 0 1 :: replicate 13 (mkExt 0 0)) 0.

Definition file_inode : nvfs_inode :=
  mkInode 5 NVFS_TYPE_FILE (0, 0, 0) 1 (mkExt 1 1 :: replicate 13 (mkExt 0 0)) 0.

Definition demo_inodes : list Z := inode_put (inode_put zero_sector 0 dir_inode) 128 file_inode.

Definition demo_ram : gmap Z (list Z) :=
  {[ 1 := demo_superblock; 2 := demo_bitmap; 3 := demo_inodes;
     7 := put_bytes zero_sector 0 (new_dirent [65] 1); 8 := put_bytes zero_sector 0 [104; 101; 108; 108; 111] ]}.

(** The same disk mounted, on a drive whose writes work, or work [n] times. *)
Definition demo_fs (n : option nat) : fs ramdisk := mkFs 0 true 0 demo_geo (mkRam demo_ram n 0).

(** ** Decidable versions of the consistency conditions *)

Definition block_usedb (g : geo) (v : Z -> list Z) (b : Z) : bool :=
  (0 <=? b) && (b <? total_bits g) && used_bit g v b.

Definition inode_usedb (g : geo) (v : Z -> list Z) (i : nvfs_inode) : bool :=
  forallb (block_usedb g v) (v_blocks g v i) && (i_extent_count i <=? 13).

Lemma inode_usedb_ok (g : geo) (v : Z -> list Z) (i : nvfs_inode) :
  inode_usedb g v i = true -> inode_blocks_used g v i.
Proof.
  unfold inode_usedb. intros [H1 H2]%andb_true_iff. split.
  - apply Forall_forall. intros b Hb. rewrite forallb_forall in H1.
    apply list_elem_of_In, H1 in Hb. unfold block_usedb in Hb. zbool. repeat split; assumption.
  - intros b Hb. unfold indirect_of in Hb. change NVFS_DIRECT_EXTENTS with 13 in Hb.
    rewrite (proj2 (Z.ltb_ge 13 _)) in Hb by lia. discriminate Hb.
Qed.

Lemma dirs_usedb_ok (g : geo) (v : Z -> list Z) :
  forallb (fun k => negb (i_type (v_inode g v k) =? NVFS_TYPE_DIR) || inode_usedb g v (v_inode g v k))
    (seqZ 0 (sb_inode_count g)) = true -> dirs_used g v.
Proof.
  intros H k Hk Ht. rewrite forallb_forall in H. specialize (H k).
  rewrite <- list_elem_of_In, elem_of_seqZ in H. specialize (H ltac:(lia)).
  rewrite Ht in H. apply inode_usedb_ok. exact H.
Qed.

Lemma demo_layout : layout demo_geo.
Proof. unfold layout, total_bits, demo_geo. simpl. lia. Qed.

Lemma demo_used (n : option nat) :
  inode_blocks_used demo_geo (view (demo_fs n)) (v_inode demo_geo (view (demo_fs n)) 1).
Proof. apply inode_usedb_ok. vm_compute. reflexivity. Qed.

Lemma demo_last (n : option nat) : used_bit demo_geo (view (demo_fs n)) (total_bits demo_geo - 1) = true.
Proof. vm_compute. reflexivity. Qed.

Lemma demo_fits (n : option nat) (count : Z) : fits (demo_fs n) count.
Proof. left. apply run_fits_last; [exact demo_layout|apply demo_last]. Qed.

(** The disk as tools/mknvfs.py leaves the bitmap: the last block is free. *)
Definition open_fs (n : option nat) : fs ramdisk :=
  mkFs 0 true 0 demo_geo (mkRam (<[2 := set_byte zero_sector 0 3]> demo_ram) n 0).

Lemma ramdisk_readable (d : ramdisk) : readable d 0 0.
Proof. intros n. induction n as [|n IH]; [done|]. intros lba. split; [done|exact IH]. Qed.

Lemma open_used (n : option nat) :
  inode_blocks_used demo_geo (view (open_fs n)) (v_inode demo_geo (view (open_fs n)) 1).
Proof. apply inode_usedb_ok. vm_compute. reflexivity. Qed.

Lemma open_fits (n : option nat) : fits (open_fs n) (sectors_for 600).
Proof.
  right. split; [apply ramdisk_readable|]. exists 2. split; [lia|]. split; [vm_compute; discriminate|].
  intros k Hk. change (sectors_for 600) with 2 in Hk. assert (k = 0 \/ k = 1) as [-> | ->] by lia; vm_compute; reflexivity.
Qed.

Lemma demo_updatable : updatable (demo_fs None) [97] 1.
Proof.
  split; [by repeat split|]. split; [|split; [vm_compute; reflexivity|split; [simpl; lia|split]]].
  - split; [reflexivity|]. split; [exact demo_layout|]. split; [simpl; lia|].
    apply dirs_usedb_ok. vm_compute. reflexivity.
  - vm_compute. reflexivity.
  - apply demo_used.
Qed.

(** Three bytes to write: "xyz". *)
Definition demo_data (k : Z) : Z := 120 + k.

(** ** Witnesses *)

Lemma demo_write_ok : fst (nvfs_write [] [97] demo_data 3 (demo_fs None)) = Some tt.
Proof. vm_compute. reflexivity. Qed.

Lemma demo_append_ok : fst (nvfs_append [97] demo_data 3 (demo_fs None)) = Some tt.
Proof. vm_compute. reflexivity. Qed.

Lemma demo_find_ok : fst (bitmap_find 3 (demo_fs None)) = Some 2.
Proof. vm_compute. reflexivity. Qed.

Lemma demo_add_ok : fst (dir_add 0 [66] 2 (demo_fs None)) = Some tt.
Proof. vm_compute. reflexivity. Qed.

Lemma demo_inode_ok : fst (inode_write 2 file_inode (demo_fs None)) = Some tt.
Proof. vm_compute. reflexivity. Qed.

Definition demo_unmounted : fs ramdisk := mkFs 0 false 9 (mkGeo 0 0 0 0 0 0 0 0 0) (mkRam demo_ram None 0).

Lemma demo_mount_ok : fst (nvfs_mount demo_unmounted) = Some tt.
Proof. vm_compute. reflexivity. Qed.

Lemma demo_mount_geo : sb (snd (nvfs_mount demo_unmounted)) = demo_geo.
Proof. vm_compute. reflexivity. Qed.

Lemma demo_old : v_file demo_geo (view (demo_fs None)) 1 = [104; 101; 108; 108; 111].
Proof. vm_compute. reflexivity. Qed.

Lemma demo_find_none : v_dir_find demo_geo (view (demo_fs None)) 0 [66] = None.
Proof. vm_compute. reflexivity. Qed.

Lemma demo_root_used :
  inode_blocks_used demo_geo (view (demo_fs None)) (v_inode demo_geo (view (demo_fs None)) 0).
Proof. apply inode_usedb_ok. vm_compute. reflexivity. Qed.

Lemma demo_root_count : i_extent_count (v_inode demo_geo (view (demo_fs None)) 0) < 13.
Proof. vm_compute. reflexivity. Qed.

Lemma demo_entries_valid :
  entries_valid demo_geo (view (demo_fs None)) (v_blocks demo_geo (view (demo_fs None))
    (v_inode demo_geo (view (demo_fs None)) 0)).
Proof.
  intros x e Hx He.
  assert (H : forallb (fun x => forallb (fun e => dirent_inode (v_sector demo_geo (view (demo_fs None)) x) e <?
      2147483648) (seqZ 0 16)) (v_blocks demo_geo (view (demo_fs None)) (v_inode demo_geo (view (demo_fs None)) 0)) = true)
    by (vm_compute; reflexivity).
  rewrite forallb_forall in H. apply list_elem_of_In, H in Hx. rewrite forallb_forall in Hx.
  specialize (Hx e). rewrite <- list_elem_of_In, elem_of_seqZ in Hx. specialize (Hx ltac:(lia)). lia.
Qed.

Lemma demo_inode_wf : inode_wf file_inode.
Proof.
  unfold inode_wf, ext_wf, is_u32, is_byte, file_inode. cbn [i_size i_type i_ctime i_extent_count i_extents i_mtime].
  split; [lia|]. split; [unfold NVFS_TYPE_FILE; lia|]. split; [lia|]. split; [lia|]. split; [reflexivity|].
  split; [|lia]. constructor; [simpl; lia|]. apply Forall_replicate. simpl. lia.
Qed.

#[local] Opaque nvfs_write nvfs_append nvfs_read nvfs_mount bitmap_find dir_add inode_write inode_read
  replace_contents v_file v_inode data_bytes v_dir_find.


Lemma bitmap_find_free_run_witness :
  used_bit demo_geo (view (demo_fs None)) 2 = false /\ used_bit demo_geo (view (demo_fs None)) 4 = false.
Proof.
  destruct (bitmap_find 3 (demo_fs None)) as [r s'] eqn:E.
  pose proof demo_find_ok as Hr. rewrite E in Hr. cbn [fst] in Hr. subst r.
  destruct (bitmap_find_free_run 3 2 (demo_fs None) s' demo_layout (demo_fits _ _) E) as (_ & _ & H & _).
  split; [apply (H 0)|apply (H 2)]; lia.
Defined.

Lemma inode_write_then_read_witness :
  exists s1 o s2, inode_write 2 file_inode (demo_fs None) = (Some tt, s1) /\
    inode_read 2 s1 = (o, s2) /\ (o = Some file_inode \/ o = None) /\
    v_inode demo_geo (view s1) 1 = v_inode demo_geo (view (demo_fs None)) 1.
Proof.
  destruct (inode_write 2 file_inode (demo_fs None)) as [r s1] eqn:E.
  pose proof demo_inode_ok as Hr. rewrite E in Hr. cbn [fst] in Hr. subst r.
  destruct (inode_read 2 s1) as [o s2] eqn:E2. exists s1, o, s2.
  destruct (inode_write_then_read 2 file_inode (demo_fs None) s1 s2 (Some tt) o demo_layout
              ltac:(simpl; lia) demo_inode_wf ltac:(simpl; lia) E) as (H1 & H2 & _).
  split; [reflexivity|]. split; [exact E2|]. split; [exact (H1 eq_refl E2)|]. apply H2; simpl; lia.
Defined.

Lemma reads_do_not_write_witness :
  touches (D := ramdisk) nothing (nvfs_read [47; 97] 512).
Proof. exact (proj1 (reads_do_not_write (D := ramdisk) [47; 97] 512 (fun _ => dir_inode) 8%nat 0 16)). Defined.


Lemma nvfs_append_then_read_witness :
  exists s', nvfs_append [97] demo_data 3 (demo_fs None) = (Some tt, s') /\
    fst (nvfs_read [97] 100 s') =
      Some (take 100 (take 4096 ([104; 101; 108; 108; 111] ++ data_bytes demo_data 3))).
Proof.
  destruct (nvfs_append [97] demo_data 3 (demo_fs None)) as [r s'] eqn:E.
  pose proof demo_append_ok as Hr. rewrite E in Hr. cbn [fst] in Hr. subst r.
  exists s'. split; [reflexivity|].
  destruct (nvfs_append_then_read [97] demo_data 3 1 (demo_fs None) (Some tt) s' demo_updatable
              ltac:(lia) ltac:(vm_compute; reflexivity) (demo_last _) E) as [[_ H]|[H _]]; [|discriminate H].
  rewrite <- demo_old. apply (H 100).
Defined.

Lemma mount_validates_witness :
  exists s', nvfs_mount demo_unmounted = (Some tt, s') /\ mounted s' = true /\ layout (sb s').
Proof.
  destruct (nvfs_mount demo_unmounted) as [r s'] eqn:E.
  pose proof demo_mount_ok as Hr. rewrite E in Hr. cbn [fst] in Hr. subst r.
  exists s'. split; [reflexivity|].
  destruct (mount_validates demo_unmounted (Some tt) s' E) as (_ & _ & H).
  destruct (H eq_refl) as (Hm & _ & _ & Hl). split; [exact Hm|].
  pose proof demo_mount_geo as Hg. rewrite E in Hg. cbn [snd] in Hg. rewrite Hg in Hl |- *.
  apply Hl; unfold total_bits; cbn; lia.
Defined.

Lemma dir_add_then_find_witness :
  exists s', dir_add 0 [66] 2 (demo_fs None) = (Some tt, s') /\
    v_dir_find demo_geo (view s') 0 [66] = Some 2 /\
    v_dir_find demo_geo (view s') 0 [65] = v_dir_find demo_geo (view (demo_fs None)) 0 [65].
Proof.
  destruct (dir_add 0 [66] 2 (demo_fs None)) as [r s'] eqn:E.
  pose proof demo_add_ok as Hr. rewrite E in Hr. cbn [fst] in Hr. subst r.
  exists s'. split; [reflexivity|].
  destruct (dir_add_then_find 0 [66] 2 (demo_fs None) s' demo_layout ltac:(simpl; lia)
              ltac:(repeat constructor; lia) ltac:(lia) demo_root_count demo_root_used demo_entries_valid
              demo_find_none E) as [H1 H2].
  split; [exact H1|]. apply H2; [repeat constructor; lia|discriminate].
Defined.

(** ** Defects *)

(** [extent_write] reads past the caller's buffer: for a file of more than
    one sector whose size is not a multiple of 512, the byte after the last
    data byte on the disk is the byte after the end of the buffer, not 0. *)
Theorem extent_write_overreads (data : Z -> Z) (size : Z) :
  512 < size -> size mod 512 <> 0 ->
  byte_at (data_sector data size (size / 512)) (size mod 512) = u8 (data size).
Proof.
  intros Hs Hm. rewrite data_sector_at by div_mod_lia.
  rewrite (proj2 (Z.ltb_lt _ _)) by div_mod_lia. rewrite Z.min_l by lia. do 2 f_equal. div_mod_lia.
Qed.

(** Growing the inode table of a disk whose data area starts right after it
    puts the new inodes on data block 0, whatever block was reserved, and
    the superblock that is written is one that [nvfs_mount] rejects. *)
Theorem expand_overlaps_data (g : geo) :
  layout g -> sb_inode_start g + sb_inode_blocks g = sb_data_start g -> sb_inode_blocks g < 8388607 ->
  let g' := set_inodes g (u32 (sb_inode_blocks g + 1)) (u32 (u32 (sb_inode_blocks g + 1) * inodes_per_sec)) in
  phys (inode_lba g' (4 * sb_inode_blocks g)) = phys (block_lba g 0) /\ sb_invalid g' = true.
Proof.
  intros Hg Hadj Hsmall g'. pose proof Hg as (? & ? & ? & ? & ? & ? & ? & ?). unfold total_bits in *. split.
  - unfold inode_lba, block_lba, g'. cbn [set_inodes nvfs_offset sb_inode_start].
    change NVFS_INODE_SIZE with 128. change NVFS_SECTOR_SIZE with 512.
    rewrite (u32_small (4 * sb_inode_blocks g * 128)) by lia.
    replace (4 * sb_inode_blocks g * 128 / 512) with (sb_inode_blocks g) by div_mod_lia.
    do 2 f_equal. lia.
  - unfold sb_invalid, g'. cbn [set_inodes sb_bitmap_start sb_bitmap_sectors sb_inode_blocks sb_inode_count
      sb_inode_start sb_data_start].
    rewrite (u32_small (sb_inode_blocks g + 1)), (u32_small (sb_inode_start g + _)) by lia.
    rewrite (proj2 (Z.ltb_lt (sb_data_start g) _)) by lia. apply orb_true_r.
Qed.

(** A root directory with 14 extents, all full: 13 direct ones and one in
    the indirect block, block 1. *)
Definition full_block : list Z :=
  for_up 16 0 1 (fun e b => put_bytes b (e * 32) (new_dirent [67; 65 + e] (1 + e))) zero_sector.

Definition full_dir : nvfs_inode :=
  mkInode 7168 NVFS_TYPE_DIR (0, 0, 0) 14 (replicate 13 (mkExt 0 1) ++ [mkExt 1 NVFS_INDIRECT_MARKER]) 0.

Definition full_fs : fs ramdisk :=
  mkFs 0 true 0 demo_geo
    (mkRam {[ 2 := demo_bitmap; 3 := inode_put zero_sector 0 full_dir; 7 := full_block;
              8 := put_extent zero_sector 0 (mkExt 0 1) ]} None 0).

(** Adding an entry to it reports success, but [inode_read] caps the extent
    count at 14, so the entry cannot be found. *)
Theorem dir_entry_lost :
  fst (dir_add 0 [66] 2 full_fs) = Some tt /\
  fst (dir_find 0 [66] (snd (dir_add 0 [66] 2 full_fs))) = None.
Proof. vm_compute. split; reflexivity. Qed.

(** A disk whose only free block is the last one. *)
Definition tail_fs : fs ramdisk :=
  mkFs 0 true 0 demo_geo (mkRam (<[2 := set_byte (replicate 512 255) 511 127]> demo_ram) None 0).

(** There is no room for two blocks, but [bitmap_find] takes the first bit of
    the inode table for a free block: the write reports success, marks the
    block "used" in the root directory's size, and stores data outside the
    data area. *)
Theorem run_crosses_bitmap_end :
  let '(r, s') := nvfs_write [] [97] demo_data 1024 tail_fs in
  r = Some tt /\ i_size (v_inode demo_geo (view tail_fs) 0) = 512 /\ i_size (v_inode demo_geo (view s') 0) = 513 /\
  fst (bitmap_find 2 tail_fs) = Some (total_bits demo_geo - 1).
Proof. vm_compute. repeat split; reflexivity. Qed.

(** The superblock's sums are compared modulo 2^32: a bitmap of 4294967295
    sectors passes, although it does not end before the inode table. *)
Definition wrapping_fs : fs ramdisk :=
  mkFs 0 false 9 (mkGeo 0 0 0 0 0 0 0 0 0) (mkRam (<[1 := put32 demo_superblock 20 4294967295]> demo_ram) None 0).

Theorem wrapping_superblock_mounts :
  let '(r, s') := nvfs_mount wrapping_fs in
  r = Some tt /\ sb_bitmap_start (sb s') = 2 /\ sb_bitmap_sectors (sb s') = 4294967295 /\ sb_inode_start (sb s') = 3.
Proof. vm_compute. repeat split; reflexivity. Qed.
