(* ===== verification/Keyboard.v ===== *)
(** * kernel/drivers/keyboard.c: the PS/2 keyboard driver

    The interrupt handler decodes scan codes (shift, caps lock, the 0xE0
    prefix of the arrow keys) into a ring buffer of 256 bytes, which
    [get_char] drains.  The handler is a function of what it reads from the
    status and data ports and of whether [kb_lock] was free; the whole body
    of each routine runs under that lock, so it is one step on the state. *)
From S2P Require Import Prelude Bytes.

Module Keyboard.

Definition KEYBOARD_DATA_PORT : Z := 96.

Definition LSHIFT_DOWN : Z := 42.

Definition LSHIFT_UP : Z := 170.

Definition RSHIFT_DOWN : Z := 54.

Definition RSHIFT_UP : Z := 182.

Definition CAPS_DOWN : Z := 58.

Definition EXTENDED_PREFIX : Z := 224.

Definition BUFFER_SIZE : Z := 256.

Definition TABLE_SIZE : Z := 58.

Definition KEY_UP : Z := 1.

Definition KEY_DOWN : Z := 2.

Definition KEY_LEFT : Z := 3.

Definition KEY_RIGHT : Z := 4.

(** The file's static variables. *)
Record kb := mkKb {
  scan_code : Z;
  shift_pressed : bool;
  caps_on : bool;
  extended : bool;
  key_buffer : list Z;
  buffer_head : Z;
  buffer_tail : Z;
  typematic_param : Z }.

(** The two tables, as ASCII codes. *)
Definition scancode_ascii : list Z :=
  [0; 0; 49; 50; 51; 52; 53; 54; 55; 56;
   57; 48; 45; 61; 8; 0; 113; 119; 101; 114;
   116; 121; 117; 105; 111; 112; 91; 93; 10; 0;
   97; 115; 100; 102; 103; 104; 106; 107; 108; 59;
   39; 96; 0; 92; 122; 120; 99; 118; 98; 110;
   109; 44; 46; 47; 0; 42; 0; 32].

Definition scancode_ascii_shift : list Z :=
  [0; 0; 33; 64; 35; 36; 37; 94; 38; 42;
   40; 41; 95; 43; 8; 0; 81; 87; 69; 82;
   84; 89; 85; 73; 79; 80; 123; 125; 10; 0;
   65; 83; 68; 70; 71; 72; 74; 75; 76; 58;
   34; 126; 0; 124; 90; 88; 67; 86; 66; 78;
   77; 60; 62; 63; 0; 42; 0; 32].

(** The block that appends [c] to the ring, dropping it when the ring is
    full. *)
Definition push (k : kb) (c : Z) : kb :=
  let next := (buffer_head k + 1) mod BUFFER_SIZE in
  if next =? buffer_tail k then k
  else mkKb (scan_code k) (shift_pressed k) (caps_on k) (extended k)
         (set_byte (key_buffer k) (buffer_head k) c) next (buffer_tail k) (typematic_param k).

Definition set_scan_code (k : kb) (c : Z) : kb :=
  mkKb c (shift_pressed k) (caps_on k) (extended k) (key_buffer k) (buffer_head k)
    (buffer_tail k) (typematic_param k).

Definition set_modifiers (k : kb) (shift caps ext : bool) : kb :=
  mkKb (scan_code k) shift caps ext (key_buffer k) (buffer_head k) (buffer_tail k)
    (typematic_param k).

(** The character of an arrow key after the prefix, 0 for any other. *)
Definition arrow_char (code : Z) : Z :=
  if code =? 72 then KEY_UP
  else if code =? 80 then KEY_DOWN
  else if code =? 75 then KEY_LEFT
  else if code =? 77 then KEY_RIGHT
  else 0.

(** [keyboard_handler]: [status] and [data] are the bytes read from the two
    ports, [lock_free] is the result of [spinlock_try_lock]. *)
Definition keyboard_handler (status data : Z) (lock_free : bool) (k : kb) : kb :=
  if Z.land status 1 =? 0 then k
  else
    let k := set_scan_code k data in
    if negb lock_free then k
    else if scan_code k =? EXTENDED_PREFIX then
      set_modifiers k (shift_pressed k) (caps_on k) true
    else if extended k then
      let k := set_modifiers k (shift_pressed k) (caps_on k) false in
      if Z.land (scan_code k) 128 =? 0 then
        let c := arrow_char (scan_code k) in
        if c =? 0 then k else push k c
      else k
    else if (scan_code k =? LSHIFT_DOWN) || (scan_code k =? RSHIFT_DOWN) then
      set_modifiers k true (caps_on k) (extended k)
    else if (scan_code k =? LSHIFT_UP) || (scan_code k =? RSHIFT_UP) then
      set_modifiers k false (caps_on k) (extended k)
    else if scan_code k =? CAPS_DOWN then
      set_modifiers k (shift_pressed k) (negb (caps_on k)) (extended k)
    else if (Z.land (scan_code k) 128 =? 0) && (scan_code k <? TABLE_SIZE) then
      let c := if shift_pressed k || caps_on k then byte_at scancode_ascii_shift (scan_code k)
               else byte_at scancode_ascii (scan_code k) in
      if c =? 0 then k else push k c
    else k.

Definition get_char (k : kb) : Z * kb :=
  if buffer_head k =? buffer_tail k then (0, k)
  else
    (byte_at (key_buffer k) (buffer_tail k),
     mkKb (scan_code k) (shift_pressed k) (caps_on k) (extended k) (key_buffer k)
       (buffer_head k) ((buffer_tail k + 1) mod BUFFER_SIZE) (typematic_param k)).

(** [read_char] polls [get_char]; the interrupts that arrive between two
    polls are one element of [irqs].  [None]: still polling at the end of
    the list. *)
Fixpoint read_char (irqs : list (list (Z * Z * bool))) (k : kb) : option (Z * kb) :=
  let '(c, k) := get_char k in
  if c =? 0 then
    match irqs with
    | [] => None
    | es :: irqs =>
        read_char irqs (fold_left (fun k '(st, d, fr) => keyboard_handler st d fr k) es k)
    end
  else Some (c, k).

(** [while (inb(KEYBOARD_STATUS_PORT) & 0x02);] over the bytes the status
    port delivers. *)
Fixpoint wait_input_clear (status : list Z) : option (list Z) :=
  match status with
  | [] => None
  | b :: rest => if Z.land b 2 =? 0 then Some rest else wait_input_clear rest
  end.

(** [keyboard_set_typematic]: the bytes written to the data port and the new
    state; [None] while the controller stays busy. *)
Definition keyboard_set_typematic (status : list Z) (param : Z) (k : kb) :
    option (list (Z * Z) * kb) :=
  match wait_input_clear status with
  | None => None
  | Some status =>
      match wait_input_clear status with
      | None => None
      | Some _ =>
          Some ([(KEYBOARD_DATA_PORT, 243); (KEYBOARD_DATA_PORT, param)],
                mkKb (scan_code k) (shift_pressed k) (caps_on k) (extended k) (key_buffer k)
                  (buffer_head k) (buffer_tail k) param)
      end
  end.

Definition keyboard_get_typematic (k : kb) : Z := typematic_param k.

(** [init_keyboard]: the state before the handler is registered, then the
    typematic rate. *)
Definition init_keyboard (status : list Z) (k : kb) : option (list (Z * Z) * kb) :=
  let k := mkKb (scan_code k) false false false (key_buffer k) 0 0 0 in
  keyboard_set_typematic status 0 k.
(** ** Abstract specification: a decoder and a bounded queue *)

(** The decoder's state. *)
Record mods := mkMods { m_shift : bool; m_caps : bool; m_ext : bool }.

(** One scan code: the new decoder state and the character it produces. *)
Definition decode (m : mods) (code : Z) : mods * option Z :=
  let '(mkMods s c e) := m in
  let char c := if c =? 0 then None else Some c in
  if code =? 224 then (mkMods s c true, None)
  else if e then (mkMods s c false, if code <? 128 then char (arrow_char code) else None)
  else if (code =? 42) || (code =? 54) then (mkMods true c e, None)
  else if (code =? 170) || (code =? 182) then (mkMods false c e, None)
  else if code =? 58 then (mkMods s (negb c) e, None)
  else (m, if code <? 58
           then char (byte_at (if s || c then scancode_ascii_shift else scancode_ascii) code)
           else None).

(** The characters a sequence of scan codes types. *)
Fixpoint typed (m : mods) (codes : list Z) : list Z :=
  match codes with
  | [] => []
  | c :: codes =>
      let '(m, o) := decode m c in
      match o with Some ch => ch :: typed m codes | None => typed m codes end
  end.

(** A first-in first-out queue of at most 255 characters; what does not fit
    is dropped. *)
Definition enqueue (q : list Z) (o : option Z) : list Z :=
  match o with
  | Some c => if Z.of_nat (length q) <? BUFFER_SIZE - 1 then q ++ [c] else q
  | None => q
  end.

(** What happens to the driver: an interrupt (the two port reads and whether
    the lock was free) or a call of [get_char]. *)
Inductive event :=
| Irq (status data : Z) (lock_free : bool)
| Get.

Definition event_ok (e : event) : Prop :=
  match e with Irq _ data _ => is_byte data | Get => True end.

(** The values the calls of [get_char] return. *)
Fixpoint run (es : list event) (k : kb) : list Z :=
  match es with
  | [] => []
  | Irq st d fr :: es => run es (keyboard_handler st d fr k)
  | Get :: es => let '(c, k) := get_char k in c :: run es k
  end.

(** The same for the specification: an interrupt without data or that finds
    the lock taken delivers nothing. *)
Fixpoint spec_run (es : list event) (m : mods) (q : list Z) : list Z :=
  match es with
  | [] => []
  | Irq st d fr :: es =>
      if Z.odd st && fr then let '(m, o) := decode m d in spec_run es m (enqueue q o)
      else spec_run es m q
  | Get :: es =>
      match q with
      | [] => 0 :: spec_run es m []
      | c :: q => c :: spec_run es m q
      end
  end.

(** ** The ring holds a queue *)

Definition pending (k : kb) : Z := (buffer_head k - buffer_tail k) mod BUFFER_SIZE.

Definition queue (k : kb) : list Z :=
  map (fun i => byte_at (key_buffer k) ((buffer_tail k + i) mod BUFFER_SIZE)) (seqZ 0 (pending k)).

Definition kb_ok (k : kb) : Prop :=
  length (key_buffer k) = Z.to_nat BUFFER_SIZE /\
  0 <= buffer_head k < BUFFER_SIZE /\ 0 <= buffer_tail k < BUFFER_SIZE.

Definition kb_mods (k : kb) : mods := mkMods (shift_pressed k) (caps_on k) (extended k).

Lemma pending_range (k : kb) : 0 <= pending k < BUFFER_SIZE.
Proof. apply Z.mod_pos_bound. unfold BUFFER_SIZE. lia. Qed.

Lemma length_queue (k : kb) : Z.of_nat (length (queue k)) = pending k.
Proof. unfold queue. rewrite length_map, length_seqZ. pose proof (pending_range k). lia. Qed.

Lemma push_mods (k : kb) (c : Z) : kb_mods (push k c) = kb_mods k.
Proof. unfold push. by destruct (_ =? _). Qed.

(** The slot at [buffer_head] is no slot of the queue. *)
Lemma ring_other_slot (h t i : Z) :
  0 <= h < 256 -> 0 <= t < 256 -> 0 <= i < (h - t) mod 256 -> (t + i) mod 256 <> h.
Proof. intros. div_mod_lia. Qed.

Lemma push_ok (k : kb) (c : Z) : kb_ok k -> kb_ok (push k c).
Proof.
  intros (Hl & Hh & Ht). unfold push. destruct (_ =? _); [done|].
  split; [|split]; cbn [key_buffer buffer_head buffer_tail]; [|unfold BUFFER_SIZE in *; div_mod_lia|done].
  unfold set_byte. by rewrite length_insert.
Qed.

Lemma push_queue (k : kb) (c : Z) :
  kb_ok k -> is_byte c -> queue (push k c) = enqueue (queue k) (Some c).
Proof.
  intros (Hl & Hh & Ht) Hc. unfold enqueue. rewrite length_queue. unfold push.
  unfold BUFFER_SIZE in *. destruct (Z.eqb_spec ((buffer_head k + 1) mod 256) (buffer_tail k)) as [E|E].
  { destruct (Z.ltb_spec (pending k) (256 - 1)); [|done]. unfold pending, BUFFER_SIZE in *. div_mod_lia. }
  assert (Hp : pending k < 256 - 1) by (unfold pending, BUFFER_SIZE; div_mod_lia).
  destruct (Z.ltb_spec (pending k) (256 - 1)); [|lia].
  pose proof (pending_range k). unfold queue at 1, pending at 1, BUFFER_SIZE.
  cbn [buffer_head buffer_tail key_buffer].
  replace (((buffer_head k + 1) mod 256 - buffer_tail k) mod 256) with (pending k + 1)
    by (unfold pending, BUFFER_SIZE in *; div_mod_lia).
  rewrite seqZ_app by lia. rewrite map_app. f_equal.
  - unfold queue, BUFFER_SIZE. apply map_seqZ_ext. intros i Hi. unfold pending, BUFFER_SIZE in Hi.
    pose proof (ring_other_slot (buffer_head k) (buffer_tail k) i Hh Ht ltac:(lia)).
    pose proof (Z.mod_pos_bound (buffer_tail k + i) 256). apply byte_at_set_ne; lia.
  - change (seqZ (0 + pending k) 1) with [0 + pending k]. cbn [map]. f_equal.
    replace ((buffer_tail k + (0 + pending k)) mod 256) with (buffer_head k)
      by (unfold pending, BUFFER_SIZE; div_mod_lia).
    rewrite byte_at_set_eq by lia. by apply u8_small.
Qed.

Lemma mask128 (d : Z) : is_byte d -> (Z.land d 128 =? 0) = (d <? 128).
Proof.
  intros Hd. unfold is_byte in Hd. change 128 with (2 ^ 7) at 1. rewrite land_pow2 by lia. rewrite Z.testbit_odd.
  rewrite Z.shiftr_div_pow2 by lia. change (2 ^ 7) with 128.
  destruct (Z.ltb_spec d 128).
  - by rewrite Z.div_small by lia.
  - by replace (d / 128) with 1 by div_mod_lia.
Qed.

Lemma mask1 (st : Z) : (Z.land st 1 =? 0) = negb (Z.odd st).
Proof.
  change 1 with (2 ^ 0) at 1. rewrite land_pow2, Z.bit0_odd by lia. by destruct (Z.odd st).
Qed.

Lemma scancode_byte (b : bool) (d : Z) :
  is_byte (byte_at (if b then scancode_ascii_shift else scancode_ascii) d).
Proof. apply is_bytes_byte_at. destruct b; repeat (constructor; [split; reflexivity + lia|]); constructor. Qed.

Lemma arrow_byte (d : Z) : is_byte (arrow_char d).
Proof. unfold arrow_char, is_byte. repeat zcase; unfold KEY_UP, KEY_DOWN, KEY_LEFT, KEY_RIGHT; lia. Qed.

(** What a state change that leaves the ring alone preserves. *)
Definition same_ring (k k' : kb) : Prop :=
  key_buffer k' = key_buffer k /\ buffer_head k' = buffer_head k /\ buffer_tail k' = buffer_tail k.

Lemma same_ring_queue (k k' : kb) : same_ring k k' -> queue k' = queue k /\ (kb_ok k -> kb_ok k').
Proof. intros (Hb & Hh & Ht). unfold queue, pending, kb_ok. by rewrite Hb, Hh, Ht. Qed.

(** The driver's state stands for decoder state [m] and queue [q], whose
    characters are never 0. *)
Definition models (k : kb) (m : mods) (q : list Z) : Prop :=
  kb_ok k /\ kb_mods k = m /\ queue k = q /\ Forall (fun c => c <> 0) q.

Lemma models_quiet (k k' : kb) (m : mods) (q : list Z) :
  models k m q -> same_ring k k' -> models k' (kb_mods k') q.
Proof. intros (Hk & _ & Hq & H0) Hr. apply same_ring_queue in Hr as [Hq' Hok]. split; [auto|]. by rewrite Hq', Hq. Qed.

Lemma models_push (k : kb) (m : mods) (q : list Z) (c : Z) :
  models k m q -> is_byte c ->
  models (if c =? 0 then k else push k c) m (enqueue q (if c =? 0 then None else Some c)).
Proof.
  intros (Hk & Hm & Hq & H0) Hc. destruct (Z.eqb_spec c 0) as [->|Hne]; [done|].
  split; [by apply push_ok|]. split; [by rewrite push_mods|].
  rewrite push_queue, Hq by done. split; [done|]. unfold enqueue.
  destruct (_ <? _); [|done]. apply Forall_app; auto.
Qed.

Lemma handler_models (k : kb) (m : mods) (q : list Z) (st d : Z) (fr : bool) :
  models k m q -> is_byte d ->
  let k' := keyboard_handler st d fr k in
  if Z.odd st && fr then models k' (decode m d).1 (enqueue q (decode m d).2)
  else models k' m q.
Proof.
  intros Hr Hd. cbv zeta. unfold keyboard_handler. rewrite mask1.
  destruct (Z.odd st); cbn [negb andb]; [|done].
  assert (Hq : forall k', same_ring k k' -> models k' (kb_mods k') q) by (intros; by eapply models_quiet).
  assert (Hm : kb_mods k = m) by apply Hr. revert Hr. rewrite <- Hm. intros Hr.
  destruct fr; cbn [negb]; [|exact (Hq (set_scan_code k d) ltac:(done))]. unfold kb_mods, decode.
  cbn [set_scan_code scan_code extended shift_pressed caps_on set_modifiers].
  change EXTENDED_PREFIX with 224. destruct (Z.eqb_spec d 224); [by apply Hq|].
  rewrite mask128 by done.
  assert (Hs : models (set_scan_code k d) (mkMods (shift_pressed k) (caps_on k) (extended k)) q)
    by exact (Hq (set_scan_code k d) ltac:(done)).
  destruct (extended k).
  { destruct (Z.ltb_spec d 128); [|by apply Hq]. apply models_push; [by apply Hq|apply arrow_byte]. }
  unfold LSHIFT_DOWN, LSHIFT_UP, RSHIFT_DOWN, RSHIFT_UP, CAPS_DOWN, TABLE_SIZE.
  destruct ((d =? 42) || (d =? 54)); [by apply Hq|].
  destruct ((d =? 170) || (d =? 182)); [by apply Hq|].
  destruct (d =? 58); [by apply Hq|].
  destruct (Z.ltb_spec d 58); [|rewrite andb_false_r; exact Hs].
  destruct (Z.ltb_spec d 128); [|lia]. cbn [andb].
  pose proof (scancode_byte (shift_pressed k || caps_on k) d) as Hc.
  destruct (shift_pressed k || caps_on k); apply models_push; assumption.
Qed.

Lemma get_char_models (k : kb) (m : mods) (q : list Z) :
  models k m q ->
  match q with
  | [] => get_char k = (0, k)
  | c :: q' => exists k', get_char k = (c, k') /\ models k' m q'
  end.
Proof.
  intros (Hk & Hm & Hq & H0). pose proof (length_queue k) as Hl. rewrite Hq in Hl.
  destruct Hk as (Hb & Hh & Ht). unfold get_char, BUFFER_SIZE in *. destruct q as [|c q'].
  - destruct (Z.eqb_spec (buffer_head k) (buffer_tail k)); [done|]. exfalso. cbn [length] in Hl.
    unfold pending, BUFFER_SIZE in Hl. div_mod_lia.
  - destruct (Z.eqb_spec (buffer_head k) (buffer_tail k)) as [E|E].
    { cbn [length] in Hl. unfold pending, BUFFER_SIZE in Hl. rewrite E, Z.sub_diag in Hl. discriminate. }
    unfold queue, BUFFER_SIZE in Hq. rewrite seqZ_cons in Hq by (cbn [length] in Hl; lia).
    cbn [map] in Hq. injection Hq as Hc Hq. rewrite Z.add_0_r, Z.mod_small in Hc by lia.
    eexists. rewrite Hc. split; [reflexivity|]. apply Forall_cons in H0 as [_ H0].
    split; [|split; [done|split; [|done]]].
    + split; [done|]. split; [done|]. apply Z.mod_pos_bound. reflexivity.
    + rewrite <- Hq. unfold queue, pending, BUFFER_SIZE. cbn [buffer_head buffer_tail key_buffer].
      replace ((buffer_head k - (buffer_tail k + 1) mod 256) mod 256)
        with (Z.pred ((buffer_head k - buffer_tail k) mod 256)) by div_mod_lia.
      change (Z.succ 0) with (0 + 1). rewrite map_seqZ_shift. apply map_ext. intros i. f_equal. div_mod_lia.
Qed.

Lemma run_models (es : list event) (k : kb) (m : mods) (q : list Z) :
  models k m q -> Forall event_ok es -> run es k = spec_run es m q.
Proof.
  intros Hr He. revert k m q Hr. induction He as [|e es He _ IH]; intros k m q Hr; [done|].
  destruct e as [st d fr|]; cbn [run spec_run].
  - pose proof (handler_models k m q st d fr Hr He) as H. cbv zeta in H.
    destruct (Z.odd st && fr); [|by apply IH]. destruct (decode m d) as [m' o]. by apply IH.
  - pose proof (get_char_models k m q Hr) as H. destruct q as [|c q'].
    + rewrite H. f_equal. by apply IH.
    + destruct H as (k' & -> & Hr'). f_equal. by apply IH.
Qed.

Lemma init_models (status : list Z) (k k' : kb) out :
  length (key_buffer k) = Z.to_nat BUFFER_SIZE -> init_keyboard status k = Some (out, k') ->
  models k' (mkMods false false false) [].
Proof.
  intros Hl. unfold init_keyboard, keyboard_set_typematic.
  destruct (wait_input_clear status) as [st1|]; [|discriminate].
  destruct (wait_input_clear st1); [|discriminate]. intros [= _ <-].
  split; [split; [exact Hl|split; split; reflexivity + lia]|]. split; [done|]. split; [done|constructor].
Qed.

(** ** Typing and reading back *)

(** The interrupts of a sequence of scan codes that find the lock free. *)
Definition type_codes (codes : list Z) : list event := map (fun c => Irq 1 c true) codes.

Lemma enqueue_room (q : list Z) (c : Z) :
  Z.of_nat (length q) < 255 -> enqueue q (Some c) = q ++ [c].
Proof. intros. unfold enqueue, BUFFER_SIZE. by rewrite (proj2 (Z.ltb_lt _ _)) by lia. Qed.

Lemma spec_run_gets (n : nat) (m : mods) (q : list Z) :
  spec_run (repeat Get (length q + n)) m q = q ++ repeat 0 n.
Proof.
  induction q as [|c q IH]; simpl; [|by rewrite IH]. induction n as [|n IH]; simpl; [done|by rewrite IH].
Qed.

Lemma spec_run_type (codes : list Z) (m : mods) (q : list Z) (n : nat) :
  Z.of_nat (length q + length (typed m codes)) <= 255 ->
  spec_run (type_codes codes ++ repeat Get (length (q ++ typed m codes) + n)) m q
    = q ++ typed m codes ++ repeat 0 n.
Proof.
  revert m q. induction codes as [|c codes IH]; intros m q Hlen.
  { cbn [type_codes map typed]. rewrite !app_nil_r. cbn [app]. apply spec_run_gets. }
  cbn [type_codes map app spec_run typed] in *. change (Z.odd 1 && true) with true. cbv iota.
  destruct (decode m c) as [m' [ch|]].
  - rewrite enqueue_room by (cbn [length] in Hlen; lia).
    replace (q ++ ch :: typed m' codes) with ((q ++ [ch]) ++ typed m' codes) by (by rewrite <- app_assoc).
    cbn [app]. rewrite (app_comm_cons _ _ ch).
    replace (q ++ (ch :: typed m' codes) ++ repeat 0 n) with ((q ++ [ch]) ++ typed m' codes ++ repeat 0 n)
      by (rewrite <- app_assoc; done).
    apply IH. rewrite length_app. cbn [length] in *. lia.
  - apply IH. done.
Qed.

(** ** Properties *)

(** C9: From [init_keyboard], whatever interrupts and calls of [get_char]
    happen in whatever order, the values that [get_char] returns are those
    of a decoder in front of a first-in first-out queue of 255 characters:
    nothing is reordered, duplicated or overwritten, and an interrupt loses
    its character only when the queue is full or the lock is held. *)
Theorem keyboard_refines_fifo (status : list Z) (k k' : kb) out (es : list event) :
  length (key_buffer k) = Z.to_nat BUFFER_SIZE ->
  init_keyboard status k = Some (out, k') -> Forall event_ok es ->
  run es k' = spec_run es (mkMods false false false) [].
Proof. intros Hl Hi He. apply run_models; [|done]. by eapply init_models. Qed.

(** Up to 255 typed characters are read back exactly, in order: after
    the scan codes [codes], the calls of [get_char] return the characters
    those codes type (letters and symbols by the shift and caps-lock state,
    arrow keys by the prefix), then 0. *)
Theorem keyboard_reads_what_was_typed (status : list Z) (k k' : kb) out (codes : list Z) (n : nat) :
  length (key_buffer k) = Z.to_nat BUFFER_SIZE -> init_keyboard status k = Some (out, k') ->
  is_bytes codes -> let text := typed (mkMods false false false) codes in
  Z.of_nat (length text) <= 255 ->
  run (type_codes codes ++ repeat Get (length text + n)) k' = text ++ repeat 0 n.
Proof.
  intros Hl Hi Hc text Hlen. rewrite (run_models _ k' (mkMods false false false) []).
  - exact (spec_run_type codes (mkMods false false false) [] n Hlen).
  - by eapply init_models.
  - apply Forall_app. split; [unfold type_codes; by apply Forall_map|]. induction (length text + n)%nat; by constructor.
Qed.

(** ** Witnesses *)

Definition power_on : kb := mkKb 0 false false false (repeat 0 256) 0 0 0.

Definition booted : kb := mkKb 0 false false false (repeat 0 256) 0 0 0.

(** Shift-h, i, caps lock, 1, the up arrow. *)
Definition demo_codes : list Z := [42; 35; 170; 23; 58; 2; 224; 72].

Lemma keyboard_refines_fifo_witness :
  run [Irq 1 30 true; Irq 1 48 false; Get; Get] booted = [97; 0].
Proof.
  rewrite (keyboard_refines_fifo [2; 0; 0] power_on booted [(96, 243); (96, 0)]);
    [reflexivity|reflexivity|reflexivity|].
  repeat constructor; unfold is_byte; lia.
Defined.

Lemma keyboard_reads_what_was_typed_witness :
  run (type_codes demo_codes ++ repeat Get (4 + 1)) booted = [72; 105; 33; 1; 0].
Proof.
  apply (keyboard_reads_what_was_typed [0; 0] power_on booted [(96, 243); (96, 0)] demo_codes 1);
    [reflexivity|reflexivity| |discriminate].
  repeat constructor; unfold is_byte; lia.
Defined.

End Keyboard.
