(* ===== verification/Sync.v ===== *)
(** * kernel/sync/sync.h: spinlocks and atomic operations

    The primitives are single x86 instructions on a 32-bit word, which the
    processor executes atomically.  A spinlock's clients are modelled as any
    number of processors that interleave at instruction granularity: a
    critical section is a list of writes to the protected data, of which
    other processors may run their own instructions in between.  The main
    theorem is what the other files rely on when they treat a routine that
    holds a lock for its whole body as one step. *)
From S2P Require Import Prelude.

Module Sync.

(** ** Instructions *)

(** [xchgl reg, mem]: the new register and the new memory word *)
Definition atomic_xchg (mem val : Z) : Z * Z := (mem, val).

(** [lock incl], [lock decl] *)
Definition atomic_inc (mem : Z) : Z := u32 (mem + 1).

Definition atomic_dec (mem : Z) : Z := u32 (mem - 1).

(** [lock cmpxchgl new, mem] with [old] in eax: eax afterwards and the
    memory word *)
Definition atomic_cmpxchg (mem old new : Z) : Z * Z :=
  if mem =? old then (old, new) else (mem, mem).

(** [spinlock_init] *)
Definition spinlock_init : Z := 0.

(** [spinlock_try_lock]: its result and the lock word.  One iteration of the
    loop of [spinlock_lock] is the same exchange. *)
Definition spinlock_try_lock (locked : Z) : bool * Z :=
  let '(old, locked) := atomic_xchg locked 1 in (old =? 0, locked).

Definition spinlock_unlock : Z := 0.

(** ** Processors that use one lock *)

Section lock.
Context {S : Type}.

(** Where a processor is: outside; in [spinlock_lock_irqsave] between the
    flags being read and [cli]; in the loop of [spinlock_lock]; inside the
    critical section with the writes it has done and those it will do; in
    [spinlock_unlock_irqrestore] before [popf].  [Some flags] is the saved
    interrupt flag of an irqsave section. *)
Inductive point :=
| Outside
| FlagsRead (flags : bool) (body : list (S -> S))
| Spinning (flags : option bool) (body : list (S -> S))
| Inside (flags : option bool) (finished rest : list (S -> S))
| Unlocked (flags : bool).

(** A processor: its interrupt flag and its program point. *)
Record cpu := mkCpu { irq_on : bool; at_point : point }.

(** The lock word, the protected data, the processors, and (for the
    specification) the critical sections that have ended, oldest first. *)
Record state := mkState {
  locked : Z;
  data : S;
  cpus : list cpu;
  history : list (list (S -> S)) }.

Definition set_cpu (s : state) (i : nat) (c : cpu) : state :=
  mkState (locked s) (data s) (<[i := c]> (cpus s)) (history s).

(** One instruction of one processor. *)
Inductive step : state -> state -> Prop :=
(** code outside the lock's sections, which may also change the flag *)
| step_other (s : state) (i : nat) (b b' : bool) :
    cpus s !! i = Some (mkCpu b Outside) ->
    step s (set_cpu s i (mkCpu b' Outside))
(** [spinlock_lock_irqsave]: [pushf; popl] *)
| step_pushf (s : state) (i : nat) (b : bool) (body : list (S -> S)) :
    cpus s !! i = Some (mkCpu b Outside) ->
    step s (set_cpu s i (mkCpu b (FlagsRead b body)))
(** [cli] *)
| step_cli (s : state) (i : nat) (b f : bool) (body : list (S -> S)) :
    cpus s !! i = Some (mkCpu b (FlagsRead f body)) ->
    step s (set_cpu s i (mkCpu false (Spinning (Some f) body)))
(** a call of [spinlock_lock] *)
| step_call (s : state) (i : nat) (b : bool) (body : list (S -> S)) :
    cpus s !! i = Some (mkCpu b Outside) ->
    step s (set_cpu s i (mkCpu b (Spinning None body)))
(** [xchgl] in the loop of [spinlock_lock] *)
| step_xchg (s : state) (i : nat) (b : bool) (f : option bool) (body : list (S -> S)) (got : bool) (w : Z) :
    cpus s !! i = Some (mkCpu b (Spinning f body)) ->
    spinlock_try_lock (locked s) = (got, w) ->
    step s (mkState w (data s)
      (<[i := mkCpu b (if got then Inside f [] body else Spinning f body)]> (cpus s)) (history s))
(** [spinlock_try_lock] *)
| step_try (s : state) (i : nat) (b : bool) (body : list (S -> S)) (got : bool) (w : Z) :
    cpus s !! i = Some (mkCpu b Outside) ->
    spinlock_try_lock (locked s) = (got, w) ->
    step s (mkState w (data s)
      (<[i := mkCpu b (if got then Inside None [] body else Outside)]> (cpus s)) (history s))
(** one write of the critical section *)
| step_write (s : state) (i : nat) (b : bool) (f : option bool) (w : S -> S) (finished rest : list (S -> S)) :
    cpus s !! i = Some (mkCpu b (Inside f finished (w :: rest))) ->
    step s (mkState (locked s) (w (data s))
      (<[i := mkCpu b (Inside f (finished ++ [w]) rest)]> (cpus s)) (history s))
(** [spinlock_unlock], alone or in [spinlock_unlock_irqrestore] *)
| step_unlock (s : state) (i : nat) (b : bool) (f : option bool) (finished : list (S -> S)) :
    cpus s !! i = Some (mkCpu b (Inside f finished [])) ->
    step s (mkState spinlock_unlock (data s)
      (<[i := mkCpu b (match f with Some f => Unlocked f | None => Outside end)]> (cpus s))
      (history s ++ [finished]))
(** [popf] *)
| step_popf (s : state) (i : nat) (b f : bool) :
    cpus s !! i = Some (mkCpu b (Unlocked f)) ->
    step s (set_cpu s i (mkCpu f Outside)).

(** ** Invariant *)

Definition apply_all (d : S) (ws : list (S -> S)) : S := fold_left (fun d w => w d) ws d.

Definition inside (c : cpu) : option (list (S -> S)) :=
  match at_point c with Inside _ finished _ => Some finished | _ => None end.

(** Interrupts are off in every irqsave section. *)
Definition irq_ok (c : cpu) : Prop :=
  match at_point c with
  | Spinning (Some _) _ | Inside (Some _) _ _ | Unlocked _ => irq_on c = false
  | FlagsRead f _ => irq_on c = f
  | _ => True
  end.

(** [h] is the processor inside the section and the writes it has done. *)
Definition held (s : state) (h : option (nat * list (S -> S))) : Prop :=
  locked s = c_bool (match h with Some _ => true | None => false end) /\
  (forall i c finished, cpus s !! i = Some c -> inside c = Some finished -> h = Some (i, finished)) /\
  (forall i finished, h = Some (i, finished) -> exists c, cpus s !! i = Some c /\ inside c = Some finished).

Definition lock_inv (d0 : S) (s : state) : Prop :=
  Forall irq_ok (cpus s) /\
  exists h, held s h /\
    data s = apply_all (apply_all d0 (concat (history s))) (match h with Some (_, ws) => ws | None => [] end).

Lemma apply_all_app (d : S) (l l' : list (S -> S)) : apply_all d (l ++ l') = apply_all (apply_all d l) l'.
Proof. apply fold_left_app. Qed.

Lemma held_same (s : state) (i : nat) (c c' : cpu) h (s' : state) :
  held s h -> cpus s !! i = Some c -> inside c = inside c' ->
  locked s' = locked s -> cpus s' = <[i := c']> (cpus s) -> held s' h.
Proof.
  intros (Hl & Hc & Hh) Hi Hin El Ec. pose proof (lookup_lt_Some _ _ _ Hi) as Hlt.
  split; [by rewrite El|]. rewrite Ec. split.
  - intros j x ws Hj Hx. destruct (decide (i = j)) as [<-|Hne].
    + rewrite list_lookup_insert_eq in Hj by done. injection Hj as <-. rewrite <- Hin in Hx. eauto.
    + rewrite list_lookup_insert_ne in Hj by done. eauto.
  - intros j ws Hj. destruct (Hh j ws Hj) as (x & Hx & Hw). destruct (decide (i = j)) as [<-|Hne].
    + exists c'. rewrite list_lookup_insert_eq by done. split; [done|]. congruence.
    + exists x. by rewrite list_lookup_insert_ne.
Qed.

(** Nobody else is inside when processor [i] is, or when the word is 0. *)
Lemma held_change (s : state) (i : nat) (c c' : cpu) h (s' : state) :
  held s h -> cpus s !! i = Some c -> cpus s' = <[i := c']> (cpus s) ->
  inside c <> None \/ locked s = 0 ->
  locked s' = c_bool (match inside c' with Some _ => true | None => false end) ->
  held s' (match inside c' with Some ws => Some (i, ws) | None => None end).
Proof.
  intros (Hl & Hc & Hh) Hi Ec Hor El. pose proof (lookup_lt_Some _ _ _ Hi) as Hlt.
  assert (Hno : forall j x ws, cpus s !! j = Some x -> inside x = Some ws -> j = i).
  { intros j x ws Hj Hx. pose proof (Hc j x ws Hj Hx) as ->. destruct Hor as [Hin|H0].
    - destruct (inside c) as [ws'|] eqn:E; [|done]. pose proof (Hc i c ws' Hi E). congruence.
    - rewrite H0 in Hl. discriminate. }
  split; [rewrite El; by destruct (inside c')|]. rewrite Ec. split.
  - intros j x ws Hj Hx. destruct (decide (i = j)) as [<-|Hne].
    + rewrite list_lookup_insert_eq in Hj by done. injection Hj as <-. by rewrite Hx.
    + rewrite list_lookup_insert_ne in Hj by done. by destruct Hne; rewrite (Hno j x ws).
  - intros j ws Hj. destruct (inside c') as [ws'|] eqn:E; [|discriminate]. injection Hj as <- <-.
    exists c'. by rewrite list_lookup_insert_eq.
Qed.

Lemma lock_inv_quiet (d0 : S) (s s' : state) (i : nat) (c c' : cpu) :
  lock_inv d0 s -> cpus s !! i = Some c -> cpus s' = <[i := c']> (cpus s) ->
  inside c = inside c' -> (irq_ok c -> irq_ok c') ->
  locked s' = locked s -> data s' = data s -> history s' = history s ->
  lock_inv d0 s'.
Proof.
  intros (Hq & h & Hh & Hd) Hi Ec Hin Hirq El Ed Eh. split.
  - rewrite Ec. apply Forall_insert; [done|]. apply Hirq. by eapply Forall_lookup_1.
  - exists h. rewrite Ed, Eh. split; [|done]. by eapply held_same.
Qed.

Lemma lock_inv_change (d0 : S) (s s' : state) (i : nat) (c c' : cpu) :
  lock_inv d0 s -> cpus s !! i = Some c -> cpus s' = <[i := c']> (cpus s) ->
  (irq_ok c -> irq_ok c') -> inside c <> None \/ locked s = 0 ->
  locked s' = c_bool (match inside c' with Some _ => true | None => false end) ->
  (data s = apply_all (apply_all d0 (concat (history s))) (default [] (inside c)) ->
   data s' = apply_all (apply_all d0 (concat (history s'))) (default [] (inside c'))) ->
  lock_inv d0 s'.
Proof.
  intros (Hq & h & Hh & Hd) Hi Ec Hirq Hor El Hdat. split.
  - rewrite Ec. apply Forall_insert; [done|]. apply Hirq. by eapply Forall_lookup_1.
  - exists (match inside c' with Some ws => Some (i, ws) | None => None end).
    split; [by eapply held_change|].
    replace (match (match inside c' with Some ws => Some (i, ws) | None => None end) with
             | Some (_, ws) => ws | None => [] end) with (default [] (inside c')) by (by destruct (inside c')).
    apply Hdat. rewrite Hd. f_equal. destruct Hh as (Hl & Hc & Hh). destruct (inside c) as [ws|] eqn:E.
    + by rewrite (Hc i c ws Hi E).
    + destruct Hor as [?|H0]; [done|]. rewrite H0 in Hl. by destruct h.
Qed.

Lemma lock_inv_step (d0 : S) (s s' : state) : lock_inv d0 s -> step s s' -> lock_inv d0 s'.
Proof.
  intros Hv Hs.
  assert (Hw : forall got w, spinlock_try_lock (locked s) = (got, w) ->
    w = 1 /\ (got = true /\ locked s = 0 \/ got = false /\ locked s = 1)).
  { intros got w. unfold spinlock_try_lock, atomic_xchg. intros [= <- <-]. split; [done|].
    destruct Hv as (_ & h & (Hl & _) & _). destruct (Z.eqb_spec (locked s) 0); [by left|].
    right. split; [done|]. destruct h; simpl in Hl; lia. }
  destruct Hs as [s i b b' Hi|s i b body Hi|s i b f body Hi|s i b body Hi|s i b f body got w Hi Et
                 |s i b body got w Hi Et|s i b f w fin rest Hi|s i b f fin Hi|s i b f Hi].
  - eapply lock_inv_quiet; [done|exact Hi|reflexivity|..]; done.
  - eapply lock_inv_quiet; [done|exact Hi|reflexivity|..]; done.
  - eapply lock_inv_quiet; [done|exact Hi|reflexivity|..]; done.
  - eapply lock_inv_quiet; [done|exact Hi|reflexivity|..]; done.
  - destruct (Hw got w Et) as [-> [[-> H0] | [-> H1]]].
    + eapply lock_inv_change; [done|exact Hi|reflexivity|..]; try done. by right.
    + eapply lock_inv_quiet; [done|exact Hi|reflexivity|..]; done.
  - destruct (Hw got w Et) as [-> [[-> H0] | [-> H1]]].
    + eapply lock_inv_change; [done|exact Hi|reflexivity|..]; try done. by right.
    + eapply lock_inv_quiet; [done|exact Hi|reflexivity|..]; done.
  - eapply lock_inv_change; [done|exact Hi|reflexivity|..]; try done; [by left| |].
    + destruct Hv as (_ & h & (Hl & Hc & _) & _). cbn. rewrite Hl. by rewrite (Hc i _ fin Hi eq_refl).
    + cbn [inside at_point default id data history]. intros Hd. by rewrite apply_all_app, <- Hd.
  - eapply lock_inv_change; [done|exact Hi|reflexivity|..].
    + by destruct f.
    + by left.
    + by destruct f.
    + cbn [inside at_point default id data history]. intros Hd. rewrite concat_app, apply_all_app. cbn [concat]. rewrite app_nil_r, <- Hd. by destruct f.
  - eapply lock_inv_quiet; [done|exact Hi|reflexivity|..]; done.
Qed.

(** [n] processors outside, the lock initialised. *)
Definition init (n : nat) (d0 : S) : state :=
  mkState spinlock_init d0 (repeat (mkCpu true Outside) n) [].

Lemma lock_inv_init (n : nat) (d0 : S) : lock_inv d0 (init n d0).
Proof.
  split; [induction n; constructor; done|]. exists None. split; [|done]. split; [done|].
  split; [|done]. intros i c ws Hi. assert (c = mkCpu true Outside) as ->; [|done].
  apply list_elem_of_lookup_2, list_elem_of_In, repeat_spec in Hi. done.
Qed.

(** ** Properties *)

(** C8: A spinlock serialises its critical sections.  However the
    processors' instructions interleave, at most one is inside, interrupts
    are off inside every irqsave section, the lock word is 0 exactly when
    nobody is inside, and the protected data is what the finished sections
    produce when run one after the other, each as a whole, followed by the
    writes that the one inside has done so far. *)
Theorem spinlock_serialises (n : nat) (d0 : S) (s : state) :
  rtc step (init n d0) s ->
  (forall i j c c', cpus s !! i = Some c -> cpus s !! j = Some c' ->
     inside c <> None -> inside c' <> None -> i = j) /\
  Forall irq_ok (cpus s) /\
  (locked s = 0 -> data s = apply_all d0 (concat (history s)) /\
     forall i c, cpus s !! i = Some c -> inside c = None) /\
  (forall i c ws, cpus s !! i = Some c -> inside c = Some ws ->
     locked s = 1 /\ data s = apply_all (apply_all d0 (concat (history s))) ws).
Proof.
  intros Hr. pose proof (rtc_invariant step (lock_inv d0) _ _ (lock_inv_step d0) Hr (lock_inv_init n d0)) as Hv.
  destruct Hv as (Hq & h & (Hl & Hc & _) & Hd). split; [|split; [done|split]].
  - intros i j c c' Hi Hj Hn Hn'. destruct (inside c) as [ws|] eqn:E; [|done].
    destruct (inside c') as [ws'|] eqn:E'; [|done].
    pose proof (Hc i c ws Hi E). pose proof (Hc j c' ws' Hj E'). congruence.
  - intros H0. rewrite H0 in Hl. destruct h as [x|]; [discriminate|]. split; [done|].
    intros i c Hi. destruct (inside c) as [ws|] eqn:E; [|done]. discriminate (Hc i c ws Hi E).
  - intros i c ws Hi E. pose proof (Hc i c ws Hi E) as ->. done.
Qed.

End lock.

(** ** Witness: processor 1 spins while processor 0 increments twice *)

Definition two_incs : list (Z -> Z) := [atomic_inc; atomic_inc].

Definition contended : state (S := Z) :=
  mkState 1 6 [mkCpu false (Inside (Some true) [atomic_inc] [atomic_inc]); mkCpu true (Spinning None two_incs)] [].

Lemma spinlock_serialises_witness :
  rtc step (init 2 5) contended /\ locked contended = 1 /\
  data contended = apply_all (apply_all 5 (concat (history contended))) [atomic_inc].
Proof.
  assert (H : rtc step (init 2 5) contended).
  { eapply rtc_l; [exact (step_pushf (init 2 5) 0 true two_incs eq_refl)|].
    eapply rtc_l; [eapply (step_cli _ 0); reflexivity|].
    eapply rtc_l; [eapply (step_xchg _ 0); reflexivity|].
    eapply rtc_l; [eapply (step_write _ 0); reflexivity|].
    eapply rtc_l; [eapply (step_call _ 1 _ two_incs); reflexivity|].
    eapply rtc_l; [eapply (step_xchg _ 1); reflexivity|]. apply rtc_refl. }
  split; [exact H|]. exact (proj2 (proj2 (proj2 (spinlock_serialises 2 5 contended H))) 0%nat _ _ eq_refl eq_refl).
Defined.
End Sync.
