(* ===== verification/Sched.v ===== *)
(** * kernel/scheduler/scheduler.c: the work queue of the processors

    64 slots of (function, argument) pairs.  [scheduler_submit] fills a free
    slot and assigns it a processor in turn; [scheduler_step] claims a slot
    of its own processor, releases the lock while the function runs, and
    then frees the slot.  Each part that runs under [sched_lock] is one
    operation; [claim] and [finish] are the two locked parts of
    [scheduler_step], so that other processors may act in between. *)
From S2P Require Import Prelude.

Module Sched.

Definition MAX_TASKS : Z := 64.

(** [task_entry_t]; a function pointer is its address.  [state] is 0 (free),
    1 (submitted) or 2 (running). *)
Record task_entry := mkEntry { fn : Z; arg : Z; state : Z; cpu_id : Z }.

Record sched := mkSched {
  tasks : list task_entry;
  next_id : Z;
  next_task_cpu : Z }.

Definition free_entry : task_entry := mkEntry 0 0 0 0.

Definition entry (s : sched) (i : Z) : task_entry := default free_entry (tasks s !! Z.to_nat i).

Definition set_entry (s : sched) (i : Z) (e : task_entry) : sched :=
  mkSched (<[Z.to_nat i := e]> (tasks s)) (next_id s) (next_task_cpu s).

Definition scheduler_init : sched := mkSched (repeat free_entry (Z.to_nat MAX_TASKS)) 1 0.

(** [scheduler_submit(fn, arg)], with the global [cpu_count]; the id, or 0
    when the table is full. *)
Definition scheduler_submit (cpu_count f a : Z) (s : sched) : Z * sched :=
  match find_up (Z.to_nat MAX_TASKS) 0 (fun i => state (entry s i) =? 0) with
  | Some i =>
      let s' := set_entry s i (mkEntry f a 1 (next_task_cpu s)) in
      let cpu' := if 1 <? cpu_count then (next_task_cpu s + 1) mod cpu_count else next_task_cpu s in
      (next_id s, mkSched (tasks s') (i32 (next_id s + 1)) cpu')
  | None => (0, s)
  end.

(** The scan of [scheduler_wait_all]. *)
Definition any_pending (s : sched) : bool :=
  match find_up (Z.to_nat MAX_TASKS) 0
          (fun i => (state (entry s i) =? 1) || (state (entry s i) =? 2)) with
  | Some _ => true
  | None => false
  end.

Definition scheduler_pending (s : sched) : Z :=
  count_up (Z.to_nat MAX_TASKS) 0 (fun i => state (entry s i) =? 1).

(** The locked part of [scheduler_step] before the call: the slot, its
    function and its argument. *)
Definition claim (cpu : Z) (s : sched) : option (Z * Z * Z) * sched :=
  match find_up (Z.to_nat MAX_TASKS) 0
          (fun i => (state (entry s i) =? 1) && (cpu_id (entry s i) =? cpu)) with
  | Some i =>
      let e := entry s i in
      (Some (i, fn e, arg e), set_entry s i (mkEntry (fn e) (arg e) 2 (cpu_id e)))
  | None => (None, s)
  end.

(** The locked part after the call, on processor [cpu]. *)
Definition finish (cpu i : Z) (s : sched) : sched :=
  let e := entry s i in set_entry s i (mkEntry (fn e) (arg e) 0 cpu).

Section sequential.
Context {W : Type} (exec : Z -> Z -> W * sched -> W * sched).

(** [scheduler_step] on processor [cpu], the call included: [exec f a] is
    what the function does to the rest of the machine and to the queue. *)
Definition scheduler_step (cpu : Z) (ws : W * sched) : bool * (W * sched) :=
  let '(w, s) := ws in
  match claim cpu s with
  | (Some (i, f, a), s) =>
      let '(w, s) := exec f a (w, s) in (true, (w, finish cpu i s))
  | (None, s) => (false, (w, s))
  end.

(** [scheduler_wait_all] on processor [cpu]; [None] when [fuel] iterations
    did not drain the queue. *)
Fixpoint scheduler_wait_all (fuel : nat) (cpu : Z) (ws : W * sched) : option (W * sched) :=
  if any_pending ws.2 then
    match fuel with
    | O => None
    | S fuel => scheduler_wait_all fuel cpu (scheduler_step cpu ws).2
    end
  else Some ws.

End sequential.

(** ** Specification: a pool of jobs *)

Record job := mkJob { j_fn : Z; j_arg : Z; j_cpu : Z }.

Definition job_of (e : task_entry) : job := mkJob (fn e) (arg e) (cpu_id e).

(** The jobs of the slots in state [st]. *)
Definition jobs_in (st : Z) (s : sched) : list job :=
  omap (fun e => if state e =? st then Some (job_of e) else None) (tasks s).

Definition queued (s : sched) : list job := jobs_in 1 s.

Definition running (s : sched) : list job := jobs_in 2 s.

Definition sched_ok (s : sched) : Prop :=
  length (tasks s) = Z.to_nat MAX_TASKS /\
  Forall (fun e => 0 <= state e <= 2) (tasks s).

Lemma entry_lookup (s : sched) (i : Z) :
  sched_ok s -> 0 <= i < MAX_TASKS -> tasks s !! Z.to_nat i = Some (entry s i).
Proof.
  intros [Hl _] Hi. unfold entry. destruct (tasks s !! Z.to_nat i) eqn:E; [done|].
  apply lookup_ge_None in E. unfold MAX_TASKS in *. lia.
Qed.

Lemma entry_state (s : sched) (i : Z) : sched_ok s -> 0 <= state (entry s i) <= 2.
Proof.
  intros [_ H]. unfold entry. destruct (tasks s !! Z.to_nat i) eqn:E; simpl; [|lia].
  exact (Forall_lookup_1 _ _ _ _ H E).
Qed.

Lemma sched_ok_set (s : sched) (i : Z) (e : task_entry) :
  sched_ok s -> 0 <= state e <= 2 -> sched_ok (set_entry s i e).
Proof.
  intros [Hl H] He. split; cbn [set_entry tasks].
  - by rewrite length_insert.
  - by apply Forall_insert.
Qed.

Lemma omap_insert_perm {A B : Type} (f : A -> option B) (l : list A) (i : nat) (x y : A) :
  l !! i = Some x ->
  option_list (f x) ++ omap f (<[i := y]> l) ≡ₚ option_list (f y) ++ omap f l.
Proof.
  revert i. induction l as [|z l IH]; intros [|i] H; try discriminate.
  - injection H as ->. cbn. destruct (f x), (f y); cbn; [apply perm_swap|done..].
  - cbn. specialize (IH i H). cbn in IH. destruct (f z) as [b|]; [|exact IH].
    rewrite <- !Permutation_middle. by apply perm_skip.
Qed.

(** Changing slot [i] changes the pool by that slot's job only. *)
Lemma jobs_in_set (st : Z) (s : sched) (i : Z) (e : task_entry) :
  sched_ok s -> 0 <= i < MAX_TASKS ->
  (if state (entry s i) =? st then [job_of (entry s i)] else []) ++ jobs_in st (set_entry s i e) ≡ₚ
  (if state e =? st then [job_of e] else []) ++ jobs_in st s.
Proof.
  intros Hok Hi.
  pose proof (omap_insert_perm (fun e => if state e =? st then Some (job_of e) else None) (tasks s)
    (Z.to_nat i) (entry s i) e (entry_lookup s i Hok Hi)) as H. cbn beta in H.
  unfold jobs_in. cbn [set_entry tasks].
  destruct (state (entry s i) =? st), (state e =? st); exact H.
Qed.

Lemma entry_set_eq (s : sched) (i : Z) (e : task_entry) :
  sched_ok s -> 0 <= i < MAX_TASKS -> entry (set_entry s i e) i = e.
Proof.
  intros [Hl _] Hi. unfold entry. cbn [set_entry tasks].
  rewrite list_lookup_insert_eq by (unfold MAX_TASKS in *; lia). done.
Qed.

Lemma entry_set_ne (s : sched) (i j : Z) (e : task_entry) :
  0 <= i -> 0 <= j -> i <> j -> entry (set_entry s i e) j = entry s j.
Proof. intros. unfold entry. cbn [set_entry tasks]. by rewrite list_lookup_insert_ne by lia. Qed.

(** Some slot is free. *)
Definition has_free (s : sched) : bool := existsb (fun e => state e =? 0) (tasks s).

Lemma has_free_false (s : sched) :
  sched_ok s -> (forall i, 0 <= i < MAX_TASKS -> state (entry s i) <> 0) -> has_free s = false.
Proof.
  intros Hok H. apply not_true_iff_false. unfold has_free. rewrite existsb_exists.
  intros (e & He & H0). apply list_elem_of_In, list_elem_of_lookup in He as [i Hi].
  pose proof (lookup_lt_Some _ _ _ Hi) as Hlt. destruct Hok as [Hl _].
  specialize (H (Z.of_nat i)). unfold entry in H. rewrite Nat2Z.id, Hi in H. simpl in H.
  apply Z.eqb_eq in H0. apply H; [unfold MAX_TASKS in *; lia|done].
Qed.

Lemma has_free_true (s : sched) (i : Z) :
  sched_ok s -> 0 <= i < MAX_TASKS -> state (entry s i) = 0 -> has_free s = true.
Proof.
  intros Hok Hi H0. apply existsb_exists. exists (entry s i). rewrite H0. split; [|done].
  apply list_elem_of_In, list_elem_of_lookup. eexists. by apply entry_lookup.
Qed.

(** A submission goes into a free slot, for the processor whose turn it is;
    with no free slot nothing changes. *)
Lemma submit_spec (n f a id : Z) (s s' : sched) :
  sched_ok s -> scheduler_submit n f a s = (id, s') ->
  if has_free s then
    sched_ok s' /\ id = next_id s /\ queued s' ≡ₚ mkJob f a (next_task_cpu s) :: queued s /\
    running s' ≡ₚ running s /\
    exists i, 0 <= i < MAX_TASKS /\ state (entry s i) = 0 /\
      forall j, 0 <= j -> j <> i -> entry s' j = entry s j
  else id = 0 /\ s' = s.
Proof.
  intros Hok. unfold scheduler_submit. destruct (find_up _ _ _) as [i|] eqn:E; intros [= <- <-].
  - apply find_up_Some in E as (Hi & H0 & _). apply Z.eqb_eq in H0.
    rewrite (has_free_true s i) by (done || lia).
    pose proof (fun st => jobs_in_set st s i (mkEntry f a 1 (next_task_cpu s)) Hok Hi) as Hj.
    rewrite H0 in Hj. split; [|split; [done|split; [exact (Hj 1)|split; [exact (Hj 2)|]]]].
    + apply (sched_ok_set s i (mkEntry f a 1 (next_task_cpu s)) Hok). cbn. lia.
    + exists i. split; [lia|]. split; [done|]. intros j Hj0 Hne.
      apply (entry_set_ne s i j (mkEntry f a 1 (next_task_cpu s))); lia.
  - rewrite has_free_false; [done|done|]. intros i Hi. rewrite find_up_None in E.
    apply Z.eqb_neq, (E i). unfold MAX_TASKS in *. lia.
Qed.

Lemma claim_none (cpu : Z) (s s' : sched) :
  sched_ok s -> claim cpu s = (None, s') ->
  s' = s /\ Forall (fun j => j_cpu j <> cpu) (queued s).
Proof.
  intros Hok. unfold claim. destruct (find_up _ _ _) as [i|] eqn:E; intros [= <-]. split; [done|].
  apply Forall_forall. intros j Hj. apply list_elem_of_omap in Hj as (e & He & Hje).
  apply list_elem_of_lookup in He as [i Hi]. pose proof (lookup_lt_Some _ _ _ Hi) as Hlt.
  rewrite find_up_None in E. destruct Hok as [Hl _]. specialize (E (Z.of_nat i)). unfold entry in E.
  rewrite Nat2Z.id, Hi in E. simpl in E. destruct (state e =? 1); [|discriminate].
  injection Hje as <-. apply Z.eqb_neq. apply E. unfold MAX_TASKS in *. lia.
Qed.

Lemma claim_some (cpu i f a : Z) (s s' : sched) :
  sched_ok s -> claim cpu s = (Some (i, f, a), s') ->
  sched_ok s' /\ 0 <= i < MAX_TASKS /\ state (entry s i) = 1 /\ entry s' i = mkEntry f a 2 cpu /\
  (forall j, 0 <= j -> j <> i -> entry s' j = entry s j) /\
  queued s ≡ₚ mkJob f a cpu :: queued s' /\ running s' ≡ₚ mkJob f a cpu :: running s.
Proof.
  intros Hok. unfold claim. destruct (find_up _ _ _) as [x|] eqn:E; [|discriminate].
  apply find_up_Some in E as (Hi & Hp & _). zbool. intros [= -> <- <- <-].
  set (e := mkEntry _ _ 2 _). assert (Hi' : 0 <= i < MAX_TASKS) by lia.
  pose proof (fun st => jobs_in_set st s i e Hok Hi') as Hj. rewrite H in Hj.
  assert (Hje : job_of e = mkJob (fn (entry s i)) (arg (entry s i)) cpu) by (unfold job_of, e; cbn; congruence).
  split; [apply sched_ok_set; [done|cbn; lia]|]. split; [done|]. split; [done|].
  split; [rewrite entry_set_eq by done; unfold e; congruence|].
  split; [intros; apply entry_set_ne; lia|]. rewrite <- Hje. split; [|exact (Hj 2)].
  symmetry. pose proof (Hj 1) as H1. change (job_of (entry s i)) with (job_of e) in H1. exact H1.
Qed.

Lemma finish_spec (cpu i : Z) (s : sched) :
  sched_ok s -> 0 <= i < MAX_TASKS -> state (entry s i) = 2 ->
  let s' := finish cpu i s in
  sched_ok s' /\ state (entry s' i) = 0 /\ (forall j, 0 <= j -> j <> i -> entry s' j = entry s j) /\
  queued s' ≡ₚ queued s /\ running s ≡ₚ job_of (entry s i) :: running s'.
Proof.
  intros Hok Hi H2 s'. unfold s', finish. set (e := mkEntry _ _ 0 _).
  pose proof (fun st => jobs_in_set st s i e Hok Hi) as Hj. rewrite H2 in Hj.
  split; [apply sched_ok_set; [done|cbn; lia]|]. split; [by rewrite entry_set_eq by done|].
  split; [intros; apply entry_set_ne; lia|]. split; [exact (Hj 1)|]. symmetry. exact (Hj 2).
Qed.

(** ** The processors and the queue *)

(** The queue, the calls in progress as (processor, slot), and for the
    specification the accepted jobs, the calls begun and the calls ended;
    a call is recorded with the processor that makes it. *)
Record system := mkSys {
  queue : sched;
  calls : list (Z * Z);
  accepted : list job;
  begun : list job;
  ended : list job }.

(** What the processors do to the queue; [n] is [cpu_count]. *)
Inductive step (n : Z) : system -> system -> Prop :=
| step_submit (y : system) (f a id : Z) (s' : sched) :
    scheduler_submit n f a (queue y) = (id, s') ->
    step n y (mkSys s' (calls y)
      (if has_free (queue y) then mkJob f a (next_task_cpu (queue y)) :: accepted y else accepted y)
      (begun y) (ended y))
| step_claim (y : system) (cpu i f a : Z) (s' : sched) :
    claim cpu (queue y) = (Some (i, f, a), s') ->
    step n y (mkSys s' ((cpu, i) :: calls y) (accepted y) (mkJob f a cpu :: begun y) (ended y))
| step_finish (y : system) (cpu i : Z) (before after : list (Z * Z)) :
    calls y = before ++ (cpu, i) :: after ->
    step n y (mkSys (finish cpu i (queue y)) (before ++ after) (accepted y) (begun y)
      (mkJob (fn (entry (queue y) i)) (arg (entry (queue y) i)) cpu :: ended y)).

Definition boot : system := mkSys scheduler_init [] [] [] [].

Definition call_ok (s : sched) (c : Z * Z) : Prop :=
  0 <= c.2 < MAX_TASKS /\ state (entry s c.2) = 2 /\ cpu_id (entry s c.2) = c.1.

Definition sys_inv (y : system) : Prop :=
  sched_ok (queue y) /\ Forall (call_ok (queue y)) (calls y) /\ NoDup (map snd (calls y)) /\
  accepted y ≡ₚ queued (queue y) ++ begun y /\
  begun y ≡ₚ running (queue y) ++ ended y.

Lemma call_slot_busy (s : sched) (cs : list (Z * Z)) (i : Z) :
  Forall (call_ok s) cs -> state (entry s i) <> 2 -> i ∉ map snd cs.
Proof.
  intros H Hne Hi. apply list_elem_of_In, in_map_iff in Hi as (c & <- & Hc).
  apply list_elem_of_In in Hc. rewrite Forall_forall in H. destruct (H c Hc) as (_ & ? & _). done.
Qed.

Lemma calls_ok_same (s s' : sched) (cs : list (Z * Z)) (i : Z) :
  Forall (call_ok s) cs -> i ∉ map snd cs ->
  (forall j, 0 <= j -> j <> i -> entry s' j = entry s j) -> Forall (call_ok s') cs.
Proof.
  intros H Hi He. rewrite Forall_forall in *. intros c Hc. destruct (H c Hc) as (Hr & Hs & Hcpu).
  assert (c.2 <> i).
  { intros <-. apply Hi, list_elem_of_In, in_map. by apply list_elem_of_In. }
  split; [done|]. rewrite He by lia. done.
Qed.

Lemma sys_inv_step (n : Z) (y y' : system) : sys_inv y -> step n y y' -> sys_inv y'.
Proof.
  intros (Hok & Hc & Hnd & Ha & Hb) Hs. destruct Hs as [y f a id s' E|y cpu i f a s' E|y cpu i bef aft Ec];
    unfold sys_inv; cbn [queue calls accepted begun ended].
  - pose proof (submit_spec n f a id _ s' Hok E) as H. destruct (has_free (queue y)).
    + destruct H as (Hok' & _ & Hq & Hr & i & Hi & H0 & He). split; [done|].
      split; [apply (calls_ok_same (queue y) s' _ i); [done| |done]; apply (call_slot_busy (queue y)); [done|lia]|].
      split; [done|]. rewrite Hq, Hr. split; [|done]. cbn [app]. by apply perm_skip.
    + destruct H as [_ ->]. done.
  - destruct (claim_some cpu i f a _ s' Hok E) as (Hok' & Hi & H1 & Hei & He & Hq & Hr).
    assert (Hn : i ∉ map snd (calls y)) by (apply (call_slot_busy (queue y)); [done|lia]).
    split; [done|]. split; [constructor; [|by apply (calls_ok_same (queue y) s' _ i)]|].
    { split; [done|]. cbn [fst snd]. by rewrite Hei. }
    split; [cbn [map]; by constructor|]. rewrite Ha, Hq, Hr. split.
    + cbn [app]. apply Permutation_middle.
    + cbn [app]. by apply perm_skip.
  - rewrite Ec in Hc, Hnd. apply Forall_app in Hc as [Hc1 Hc2]. apply Forall_cons in Hc2 as [(Hi & H2 & Hcpu) Hc2].
    rewrite map_app in Hnd. cbn [map snd] in Hnd. apply NoDup_app in Hnd as (Hnd1 & Hd & Hnd2).
    apply NoDup_cons in Hnd2 as [Hn2 Hnd2]. cbn [fst snd] in *.
    destruct (finish_spec cpu i (queue y) Hok Hi H2) as (Hok' & _ & He & Hq & Hr).
    assert (Hn1 : i ∉ map snd bef) by (intros Hin; apply (Hd i Hin); left).
    split; [done|]. split; [apply Forall_app; split; eapply calls_ok_same; eauto|].
    split; [rewrite map_app; apply NoDup_app; split; [done|split; [|done]]; intros x Hx Hx2; apply (Hd x Hx); by right|].
    rewrite Hq. split; [done|]. rewrite Hb, Hr, <- Permutation_middle. cbn [app].
    by replace (job_of (entry (queue y) i)) with (mkJob (fn (entry (queue y) i)) (arg (entry (queue y) i)) cpu)
      by (unfold job_of; congruence).
Qed.

Lemma sys_inv_boot : sys_inv boot.
Proof.
  split; [split; [done|]|].
  - cbn. repeat constructor; cbn; lia.
  - by repeat constructor.
Qed.

(** ** Draining the queue on one processor *)

Lemma omap_insert_same {A B : Type} (f : A -> option B) (l : list A) (i : nat) (x y : A) :
  l !! i = Some x -> f x = f y -> omap f (<[i := y]> l) = omap f l.
Proof.
  revert i. induction l as [|z l IH]; intros [|i] H E; try discriminate; cbn.
  - injection H as ->. by rewrite E.
  - specialize (IH i H E). destruct (f z); [f_equal|]; exact IH.
Qed.

Lemma omap_insert_first {A B : Type} (f : A -> option B) (l : list A) (i : nat) (x y : A) (b : B) :
  l !! i = Some x -> f x = Some b -> f y = None ->
  (forall j z, (j < i)%nat -> l !! j = Some z -> f z = None) ->
  omap f l = b :: omap f (<[i := y]> l).
Proof.
  revert i. induction l as [|z l IH]; intros [|i] H Ex Ey Hb; try discriminate; cbn.
  - injection H as ->. by rewrite Ex, Ey.
  - rewrite (Hb 0%nat z) by (done || lia). apply IH; [done..|].
    intros j w Hj Hw. apply (Hb (S j) w); [lia|done].
Qed.

Lemma claim_first (cpu : Z) (s : sched) (j : job) (q : list job) :
  sched_ok s -> Forall (fun j => j_cpu j = cpu) (queued s) -> queued s = j :: q -> running s = [] ->
  exists i s', claim cpu s = (Some (i, j_fn j, j_arg j), s') /\ queued (finish cpu i s') = q /\
    running (finish cpu i s') = [] /\ sched_ok (finish cpu i s').
Proof.
  intros Hok Hcpu Hq Hr. destruct (claim cpu s) as [[[[i f] a]|] s'] eqn:E.
  2:{ destruct (claim_none cpu s s' Hok E) as [_ Hn]. rewrite Hq in Hn, Hcpu.
      apply Forall_cons in Hn as [Hn _], Hcpu as [Hy _]. done. }
  destruct (claim_some cpu i f a s s' Hok E) as (Hok' & Hi & H1 & Hei & _ & _ & Hrun).
  destruct (finish_spec cpu i s' Hok' Hi) as (Hok'' & _ & _ & _ & Hr'); [by rewrite Hei|].
  assert (Hf : queued (finish cpu i s') = queued s').
  { apply omap_insert_same with (x := entry s' i); [by apply entry_lookup|]. by rewrite Hei. }
  unfold claim in E. destruct (find_up _ _ _) as [x|] eqn:Ef; [|discriminate].
  injection E as -> <- <- Es. apply find_up_Some in Ef as (_ & Hp & Hlow). zbool.
  assert (Hq' : queued s = job_of (entry s i) :: queued s').
  { rewrite <- Es. apply omap_insert_first with (x := entry s i); [by apply entry_lookup|by rewrite H1|done|].
    intros k z Hk Hz. destruct (Z.eqb_spec (state z) 1) as [Hz1|]; [|done]. exfalso.
    specialize (Hlow (Z.of_nat k) ltac:(lia)). unfold entry in Hlow. rewrite Nat2Z.id, Hz in Hlow.
    simpl in Hlow. rewrite Hz1 in Hlow. simpl in Hlow. apply Z.eqb_neq in Hlow. apply Hlow.
    rewrite Forall_forall in Hcpu. apply (Hcpu (job_of z)). apply list_elem_of_omap. exists z.
    split; [by apply list_elem_of_lookup; exists k|]. by rewrite Hz1. }
  rewrite Hq in Hq'. injection Hq' as -> Hqq. exists i, s'. split; [done|]. split; [congruence|].
  split; [|done]. rewrite Hr in Hrun. rewrite Hrun, Hei in Hr'.
  apply Permutation_length_1_inv in Hr'. injection Hr' as Hnil. exact Hnil.
Qed.

Lemma any_pending_spec (s : sched) :
  sched_ok s -> running s = [] -> any_pending s = match queued s with [] => false | _ => true end.
Proof.
  intros Hok Hr. unfold any_pending. destruct (find_up _ _ _) as [i|] eqn:E.
  - apply find_up_Some in E as (Hi & Hp & _). pose proof (entry_lookup s i Hok Hi) as He.
    apply orb_true_iff in Hp as [Hp|Hp].
    + destruct (queued s) eqn:Eq; [|done]. exfalso. assert (Hin : job_of (entry s i) ∈ queued s).
      { apply list_elem_of_omap. exists (entry s i). rewrite Hp. split; [|done].
        apply list_elem_of_lookup. eauto. }
      rewrite Eq in Hin. inversion Hin.
    + exfalso. assert (Hin : job_of (entry s i) ∈ running s).
      { apply list_elem_of_omap. exists (entry s i). rewrite Hp. split; [|done].
        apply list_elem_of_lookup. eauto. }
      rewrite Hr in Hin. inversion Hin.
  - destruct (queued s) as [|j q] eqn:Eq; [done|]. exfalso.
    assert (Hin : j ∈ queued s) by (rewrite Eq; left).
    apply list_elem_of_omap in Hin as (e & He & Hj). apply list_elem_of_lookup in He as [k Hk].
    pose proof (lookup_lt_Some _ _ _ Hk). destruct Hok as [Hl _]. rewrite find_up_None in E.
    specialize (E (Z.of_nat k)). unfold entry in E. rewrite Nat2Z.id, Hk in E. simpl in E.
    destruct (state e =? 1); [|discriminate]. discriminate E. unfold MAX_TASKS in *. lia.
Qed.

Section drain.
Context {W : Type} (exec : Z -> Z -> W * sched -> W * sched) (effect : Z -> Z -> W -> W).

(** The functions do not use the queue themselves. *)
Hypothesis exec_effect : forall f a w s, exec f a (w, s) = (effect f a w, s).

Lemma wait_all_drains (fuel : nat) (cpu : Z) (w : W) (s : sched) :
  sched_ok s -> running s = [] -> Forall (fun j => j_cpu j = cpu) (queued s) ->
  (length (queued s) <= fuel)%nat ->
  exists s', scheduler_wait_all exec fuel cpu (w, s)
      = Some (fold_left (fun w j => effect (j_fn j) (j_arg j) w) (queued s) w, s') /\
    queued s' = [] /\ running s' = [].
Proof.
  revert w s. induction fuel as [|fuel IH]; intros w s Hok Hr Hc Hl; cbn [scheduler_wait_all snd];
    rewrite any_pending_spec by done; destruct (queued s) as [|j q] eqn:Eq; try (by exists s).
  { cbn in Hl. lia. }
  destruct (claim_first cpu s j q Hok) as (i & s' & E & Hq' & Hr' & Hok'); [by rewrite Eq|done|done|].
  unfold scheduler_step. rewrite E, exec_effect. cbn [snd fold_left].
  apply Forall_cons in Hc as [_ Hc]. rewrite <- Hq' in Hc |- *. apply IH; [done|done|done|].
  rewrite Hq'. cbn in Hl. lia.
Qed.

End drain.

(** ** Calling scheduler_step again and again *)

(** [scheduler_step] on processor [c], with the calls it makes as a log *)
Definition log_step (c : Z) (ws : list job * sched) : list job * sched :=
  (scheduler_step (fun f a '(w, s) => (w ++ [mkJob f a c], s)) c ws).2.

Definition mine (c : Z) (l : list job) : list job := filter (fun j => j_cpu j = c) l.

Lemma log_step_spec (c : Z) (w : list job) (s : sched) : sched_ok s ->
  exists w' s', log_step c (w, s) = (w ++ w', s') /\ sched_ok s' /\ mine c (queued s) ≡ₚ w' ++ mine c (queued s') /\
    (mine c (queued s) = [] \/ length (mine c (queued s)) = S (length (mine c (queued s')))).
Proof.
  intros Hok. unfold log_step, scheduler_step. destruct (claim c s) as [[[[i f] a]|] s1] eqn:E; cbn [snd].
  - destruct (claim_some c i f a s s1 Hok E) as (Hok1 & Hi & _ & Hei & _ & Hq & _).
    destruct (finish_spec c i s1 Hok1 Hi) as (Hok2 & _ & _ & Hq2 & _); [by rewrite Hei|].
    exists [mkJob f a c], (finish c i s1). split; [done|]. split; [done|].
    assert (Hp : mine c (queued s) ≡ₚ mkJob f a c :: mine c (queued (finish c i s1))).
    { unfold mine. rewrite Hq, Hq2. by rewrite filter_cons_True. }
    split; [exact Hp|]. right. by rewrite Hp.
  - destruct (claim_none c s s1 Hok E) as [-> Hn]. exists [], s. rewrite app_nil_r. split; [done|]. split; [done|].
    split; [done|]. left. unfold mine. induction Hn as [|j l Hj Hl IH]; [done|]. by rewrite filter_cons_False.
Qed.

Lemma log_steps_drain (m : nat) (c : Z) (w : list job) (s : sched) : sched_ok s -> (length (mine c (queued s)) <= m)%nat ->
  exists w' s', Nat.iter m (log_step c) (w, s) = (w ++ w', s') /\ w' ≡ₚ mine c (queued s) /\ mine c (queued s') = [].
Proof.
  revert w s. induction m as [|m IH]; intros w s Hok Hm.
  { exists [], s. apply Nat.le_0_r, nil_length_inv in Hm. rewrite Hm, app_nil_r. done. }
  rewrite Nat.iter_succ_r. destruct (log_step_spec c w s Hok) as (w1 & s1 & -> & Hok1 & Hp & Hl).
  assert (Hm1 : (length (mine c (queued s1)) <= m)%nat).
  { destruct Hl as [E|Hl]; [|lia]. rewrite E in Hp. symmetry in Hp. apply Permutation_nil_r in Hp.
    apply app_nil in Hp as [_ ->]. cbn. lia. }
  destruct (IH (w ++ w1) s1 Hok1 Hm1) as (w2 & s2 & -> & Hp2 & Hn). exists (w1 ++ w2), s2.
  rewrite app_assoc. split; [done|]. split; [|done]. by rewrite Hp2, Hp.
Qed.

Lemma queued_length (s : sched) : (length (queued s) <= length (tasks s))%nat.
Proof.
  unfold queued, jobs_in. generalize (tasks s). intros l. induction l as [|e l IH]; [done|]. cbn [length]. cbn.
  destruct (state e =? 1); cbn; cbn in IH; lia.
Qed.

(** Jobs are assigned to processors that exist. *)
Definition turn_ok (n : Z) (y : system) : Prop :=
  0 <= next_task_cpu (queue y) < Z.max 1 n /\ Forall (fun j => 0 <= j_cpu j < Z.max 1 n) (accepted y).

Lemma turn_ok_step (n : Z) (y y' : system) : turn_ok n y -> step n y y' -> turn_ok n y'.
Proof.
  intros [Ht Ha] Hs. destruct Hs as [y f a id s' E|y cpu i f a s' E|y cpu i bef aft Ec]; unfold turn_ok; cbn [queue accepted].
  - split; [|destruct (has_free (queue y)); [by constructor|done]].
    unfold scheduler_submit in E. destruct (find_up _ _ _) as [i|]; injection E as <- <-; [|done]. cbn [next_task_cpu].
    destruct (Z.ltb_spec 1 n); [|done]. pose proof (Z.mod_pos_bound (next_task_cpu (queue y) + 1) n). lia.
  - unfold claim in E. destruct (find_up _ _ _); [|discriminate]. by injection E as <- <- <- <-.
  - done.
Qed.

(** ** Properties *)

(** C10: Every accepted job is called exactly once and on the processor it
    was assigned to, which exists, as soon as that processor polls the queue.
    However submissions, claims and completions of the processors interleave:
    the jobs accepted are, as a multiset, those still queued plus the calls
    begun, and the calls begun are those in progress plus those ended; a slot
    is never shared by two calls; every job is assigned to one of the [n]
    processors; and for every processor, 64 calls of scheduler_step on it
    call exactly the jobs queued for it, each once, and leave none. *)
Theorem jobs_run_exactly_once (n : Z) (y : system) :
  rtc (step n) boot y ->
  accepted y ≡ₚ queued (queue y) ++ begun y /\
  begun y ≡ₚ running (queue y) ++ ended y /\ NoDup (map snd (calls y)) /\
  Forall (fun j => 0 <= j_cpu j < Z.max 1 n) (accepted y) /\
  (forall c, exists called s', Nat.iter 64 (log_step c) ([], queue y) = (called, s') /\
     called ≡ₚ mine c (queued (queue y)) /\ mine c (queued s') = []).
Proof.
  intros Hr. destruct (rtc_invariant (step n) sys_inv _ _ (sys_inv_step n) Hr sys_inv_boot)
    as (Hok & _ & Hnd & Ha & Hb).
  destruct (rtc_invariant (step n) (turn_ok n) _ _ (turn_ok_step n) Hr) as [_ Ht]; [split; [cbn; lia|by constructor]|].
  split; [done|]. split; [done|]. split; [done|]. split; [exact Ht|]. intros c.
  destruct (log_steps_drain 64 c [] (queue y) Hok) as (w & s' & E & Hp & Hn); [|by exists w, s'].
  destruct Hok as [Hl _]. change 64%nat with (Z.to_nat MAX_TASKS). rewrite <- Hl.
  etransitivity; [apply length_filter|apply queued_length].
Qed.

(** [scheduler_wait_all] returns when the queued jobs belong to the
    calling processor, none is in progress and the functions do not submit
    further jobs: within 64 iterations, having called every queued job once,
    in the order of the slots, and leaving the queue empty. *)
Theorem wait_all_terminates {W : Type} (exec : Z -> Z -> W * sched -> W * sched)
    (effect : Z -> Z -> W -> W) (cpu : Z) (w : W) (s : sched) :
  (forall f a w s, exec f a (w, s) = (effect f a w, s)) ->
  sched_ok s -> running s = [] -> Forall (fun j => j_cpu j = cpu) (queued s) ->
  exists s', scheduler_wait_all exec 64 cpu (w, s)
      = Some (fold_left (fun w j => effect (j_fn j) (j_arg j) w) (queued s) w, s') /\
    queued s' = [] /\ running s' = [].
Proof.
  intros He Hok Hr Hc. apply wait_all_drains; [done..|]. destruct Hok as [Hl _].
  change 64%nat with (Z.to_nat MAX_TASKS). rewrite <- Hl. apply queued_length.
Qed.

(** ** Witnesses *)

Definition two_jobs : sched := (scheduler_submit 1 200 8 (scheduler_submit 1 100 7 scheduler_init).2).2.

(** Two processors; the second has run its job, the first has not. *)
Definition one_left : system :=
  mkSys (finish 1 1 (claim 1 (scheduler_submit 2 200 8 (scheduler_submit 2 100 7 scheduler_init).2).2).2)
    [] [mkJob 200 8 1; mkJob 100 7 0] [mkJob 200 8 1] [mkJob 200 8 1].

Lemma jobs_run_exactly_once_witness :
  rtc (step 2) boot one_left /\ queued (queue one_left) = [mkJob 100 7 0] /\
  accepted one_left ≡ₚ queued (queue one_left) ++ begun one_left.
Proof.
  assert (H : rtc (step 2) boot one_left).
  { eapply rtc_l; [eapply (step_submit 2 boot 100 7); reflexivity|].
    eapply rtc_l; [eapply (step_submit 2 _ 200 8); reflexivity|].
    eapply rtc_l; [eapply (step_claim 2 _ 1); reflexivity|].
    eapply rtc_l; [eapply (step_finish 2 _ 1 1 []); reflexivity|]. apply rtc_refl. }
  split; [exact H|]. split; [reflexivity|]. exact (proj1 (jobs_run_exactly_once 2 _ H)).
Defined.

Lemma wait_all_terminates_witness :
  exists s', scheduler_wait_all (fun f a '(w, s) => (w ++ [f + a], s)) 64 0 ([], two_jobs)
    = Some ([107; 208], s').
Proof.
  destruct (wait_all_terminates (fun f a '(w, s) => (w ++ [f + a], s)) (fun f a w => w ++ [f + a]) 0 []
              two_jobs) as (s' & E & _).
  - reflexivity.
  - split; [reflexivity|]. repeat constructor; cbn; lia.
  - reflexivity.
  - repeat constructor.
  - exists s'. exact E.
Defined.

End Sched.
