(* ===== verification/Task.v ===== *)
(** * kernel/task.c, kernel/cpu/timer.c and the exit system call of
    kernel/elf.c: tasks and context switches

    The tasks form a circular singly linked list through [next]; [ready_head]
    points into it.  A [task_t] occupies the frame it was allocated in, and
    nothing else writes to that frame, so the task structures are a map from
    addresses to records; the kernel stacks and page directories are in the
    byte memory of [vm].  Operations that hold [sched_lock] for their whole
    body are one step.  The list is walked with a fuel of the number of
    allocated task structures; the theorems show that it is enough.  A
    pointer to no task reads as a record of zeros. *)
From S2P Require Import Prelude Bytes Memory FrameAlloc Pfa Paging.

Module Task.
Import Pfa Paging.

Definition TASK_FREE : Z := 0.

Definition TASK_READY : Z := 1.

Definition TASK_RUNNING : Z := 2.

Definition TASK_BLOCKED : Z := 3.

Definition TASK_STACK_SIZE : Z := 16384.

Definition MAX_CPU : Z := 8.

(** [task_t] *)
Record task := mkTask {
  pid : Z;
  state : Z;
  cpu_assigned : Z;
  page_dir : Z;
  kernel_esp : Z;
  kernel_stack_base : Z;
  wakeup_tick : Z;
  next : Z }.

(** The fields of [cpu_info_t] the scheduler uses, and the [esp0] of the
    processor's TSS. *)
Record cpu := mkCpu { current_task : Z; resched_pending : bool; esp0 : Z }.

(** The globals of task.c and timer.c, the processors and the memory. *)
Record kernel := mkKernel {
  store : gmap Z task;
  ready_head : Z;
  next_pid : Z;
  cpu_info : list cpu;
  tick_count : Z;
  mm : vm pfa }.

Definition zero_task : task := mkTask 0 0 0 0 0 0 0 0.

Definition tsk (k : kernel) (a : Z) : task := default zero_task (store k !! a).

Definition cpu_of (k : kernel) (c : Z) : cpu := default (mkCpu 0 false 0) (cpu_info k !! Z.to_nat c).

(** ** Field updates *)

Definition set_task (k : kernel) (a : Z) (t : task) : kernel :=
  mkKernel (<[a := t]> (store k)) (ready_head k) (next_pid k) (cpu_info k) (tick_count k) (mm k).

Definition set_head (k : kernel) (h : Z) : kernel :=
  mkKernel (store k) h (next_pid k) (cpu_info k) (tick_count k) (mm k).

Definition set_cpu (k : kernel) (c : Z) (r : cpu) : kernel :=
  mkKernel (store k) (ready_head k) (next_pid k) (<[Z.to_nat c := r]> (cpu_info k)) (tick_count k) (mm k).

Definition set_mm (k : kernel) (m : vm pfa) : kernel :=
  mkKernel (store k) (ready_head k) (next_pid k) (cpu_info k) (tick_count k) m.

Definition with_state (t : task) (s : Z) : task :=
  mkTask (pid t) s (cpu_assigned t) (page_dir t) (kernel_esp t) (kernel_stack_base t) (wakeup_tick t) (next t).

(** [t->state = s; t->cpu_assigned = c] *)
Definition assign (t : task) (s c : Z) : task :=
  mkTask (pid t) s c (page_dir t) (kernel_esp t) (kernel_stack_base t) (wakeup_tick t) (next t).

Definition with_next (t : task) (n : Z) : task :=
  mkTask (pid t) (state t) (cpu_assigned t) (page_dir t) (kernel_esp t) (kernel_stack_base t) (wakeup_tick t) n.

Definition set_current (k : kernel) (c a : Z) : kernel :=
  set_cpu k c (mkCpu a (resched_pending (cpu_of k c)) (esp0 (cpu_of k c))).

(** [gdt_set_kernel_stack] *)
Definition gdt_set_kernel_stack (k : kernel) (c e : Z) : kernel :=
  if (0 <=? c) && (c <? MAX_CPU)
  then set_cpu k c (mkCpu (current_task (cpu_of k c)) (resched_pending (cpu_of k c)) e)
  else k.

(** ** Creation *)

(** [task_init] on processor [c] *)
Definition task_init (k : kernel) (c : Z) : kernel :=
  mkKernel (store k) (ready_head k) 1
    (<[Z.to_nat c := mkCpu 0 false (esp0 (cpu_of k c))]> (cpu_info k)) (tick_count k) (mm k).

(** [alloc_task]: the new structure, zeroed, with the next pid *)
Definition alloc_task (k : kernel) : Z * kernel :=
  let '(t, fr) := alloc_frame (frames (mm k)) in
  let k := set_mm k (with_frames (mm k) fr) in
  if t =? 0 then (0, k)
  else
    (t, mkKernel (<[t := mkTask (next_pid k) 0 (-1) 0 0 0 0 0]> (store k)) (ready_head k)
          (u32 (next_pid k + 1)) (cpu_info k) (tick_count k) (mm k)).

(** [*--sp = v] for each [v] of the list, in order *)
Definition push_words (m : memory) (sp : Z) (vs : list Z) : memory * Z :=
  fold_left (fun '(m, sp) v => (store32 m (u32 (sp - 4)) v, u32 (sp - 4))) vs (m, sp).

(** What [task_create] pushes: the interrupt frame (EFLAGS, CS, EIP), the
    error code and interrupt number, the eight registers of [pusha], and
    DS, ES, FS, GS. *)
Definition initial_frame (entry : Z) : list Z :=
  [514; 8; entry; 0; 0] ++ repeat 0 8 ++ [16; 16; 16; 48].

(** The insertion into the circular list, after [ready_head] *)
Definition ring_insert (k : kernel) (t : Z) : kernel :=
  if ready_head k =? 0 then
    let k := set_head k t in
    set_task k t (with_next (tsk k t) t)
  else
    let k := set_task k t (with_next (tsk k t) (next (tsk k (ready_head k)))) in
    set_task k (ready_head k) (with_next (tsk k (ready_head k)) t).

Definition task_create (k : kernel) (entry : Z) : Z * kernel :=
  let '(t, k) := alloc_task k in
  if t =? 0 then (0, k)
  else
    let '(stack, fr) := alloc_frames (frames (mm k)) (Z.shiftr TASK_STACK_SIZE 12) in
    let k := set_mm k (with_frames (mm k) fr) in
    if stack =? 0 then
      (0, set_mm k (with_frames (mm k) (free_frame (frames (mm k)) t)))
    else
      let '(m, sp) := push_words (vmem (mm k)) (u32 (stack + TASK_STACK_SIZE)) (initial_frame entry) in
      let k := set_mm k (with_mem (mm k) m) in
      let x := tsk k t in
      let k := set_task k t (mkTask (pid x) TASK_READY (cpu_assigned x) (kernel_page_dir (mm k)) sp
                               stack (wakeup_tick x) (next x)) in
      (t, ring_insert k t).

(** ** Switching *)

(** The condition of [pick_next_locked] *)
Definition runnable (c : Z) (t : task) : bool :=
  (state t =? TASK_READY) && ((cpu_assigned t <? 0) || (cpu_assigned t =? c)) && negb (kernel_esp t =? 0).

(** [while (t != start) { if (p(t)) return t; t = t->next; }]: [Some 0] when
    the loop ends, [None] when the fuel runs out. *)
Fixpoint ring_scan (fuel : nat) (k : kernel) (p : Z -> task -> bool) (start t : Z) : option Z :=
  if t =? start then Some 0
  else
    match fuel with
    | O => None
    | S fuel => if p t (tsk k t) then Some t else ring_scan fuel k p start (next (tsk k t))
    end.

Definition ring_fuel (k : kernel) : nat := size (store k).

Definition pick_next_locked (k : kernel) (c : Z) : option Z :=
  let curr := current_task (cpu_of k c) in
  if (curr =? 0) || (ready_head k =? 0) then Some 0
  else
    match ring_scan (ring_fuel k) k (fun _ t => runnable c t) curr (next (tsk k curr)) with
    | None => None
    | Some t =>
        if negb (t =? 0) then Some t
        else if runnable c (tsk k curr) then Some curr
        else Some 0
    end.

(** [task_switch_from(current_esp, new_state, wakeup_tick)] on processor
    [c]: the stack pointer to continue on (0: stay) *)
Definition task_switch_from (k : kernel) (c current_esp new_state wake : Z) : option (Z * kernel) :=
  let curr := current_task (cpu_of k c) in
  if curr =? 0 then Some (0, k)
  else
    let x := tsk k curr in
    let k := set_task k curr (mkTask (pid x) (state x) (cpu_assigned x) (page_dir x) current_esp
                                (kernel_stack_base x) wake (next x)) in
    let k := if new_state =? TASK_READY
             then set_task k curr (assign (tsk k curr) TASK_READY c)
             else set_task k curr (assign (tsk k curr) new_state c) in
    match pick_next_locked k c with
    | None => None
    | Some nxt =>
        if nxt =? 0 then Some (0, set_task k curr (assign (tsk k curr) TASK_RUNNING c))
        else if nxt =? curr then Some (0, set_task k curr (assign (tsk k curr) TASK_RUNNING c))
        else
          let k := set_task k nxt (assign (tsk k nxt) TASK_RUNNING c) in
          let k := set_current k c nxt in
          let k := gdt_set_kernel_stack k c (u32 (kernel_stack_base (tsk k nxt) + TASK_STACK_SIZE)) in
          let k := set_mm k (page_dir_switch (mm k) (page_dir (tsk k nxt))) in
          Some (kernel_esp (tsk k nxt), k)
    end.

Definition task_block_and_switch (k : kernel) (c current_esp wake : Z) : option (Z * kernel) :=
  task_switch_from k c current_esp TASK_BLOCKED wake.

Definition task_yield (k : kernel) (c current_esp : Z) : option (Z * kernel) :=
  task_switch_from k c current_esp TASK_READY 0.

Definition task_switch_tick (k : kernel) (c current_esp : Z) : option (Z * kernel) :=
  if current_task (cpu_of k c) =? 0 then Some (0, k)
  else if negb (resched_pending (cpu_of k c)) then Some (0, k)
  else
    let k := set_cpu k c (mkCpu (current_task (cpu_of k c)) false (esp0 (cpu_of k c))) in
    task_switch_from k c current_esp TASK_READY 0.

(** ** Walking the whole ring *)

(** [do { n = t->next; f(t); t = n; } while (t != start)] *)
Fixpoint ring_walk (fuel : nat) (f : Z -> kernel -> kernel) (start t : Z) (k : kernel) : option kernel :=
  match fuel with
  | O => None
  | S fuel =>
      let n := next (tsk k t) in
      let k := f t k in
      if n =? start then Some k else ring_walk fuel f start n k
  end.

(** [do { if (p(t)) ...; t = t->next; } while (t != start)]: the first [t]
    with [p], [Some 0] if there is none *)
Fixpoint ring_find (fuel : nat) (k : kernel) (p : Z -> task -> bool) (start t : Z) : option Z :=
  match fuel with
  | O => None
  | S fuel =>
      if p t (tsk k t) then Some t
      else
        let n := next (tsk k t) in
        if n =? start then Some 0 else ring_find fuel k p start n
  end.

(** [task_foreach(cb, arg)], the callback as a function on the state *)
Definition task_foreach (k : kernel) (cb : Z -> kernel -> kernel) : option kernel :=
  if ready_head k =? 0 then Some k
  else ring_walk (ring_fuel k) cb (ready_head k) (ready_head k) k.

(** ** Timer *)

(** The body of the wake-up loop of [timer_handler] *)
Definition wake (t : Z) (k : kernel) : kernel :=
  let x := tsk k t in
  if (state x =? TASK_BLOCKED) && negb (wakeup_tick x =? 0) && (wakeup_tick x <=? tick_count k)
  then set_task k t (mkTask (pid x) TASK_READY (cpu_assigned x) (page_dir x) (kernel_esp x)
                       (kernel_stack_base x) 0 (next x))
  else k.

(** [timer_handler] on processor [c]; [lock_free] is the result of
    [spinlock_try_lock(&sched_lock)].  The boolean is whether the
    reschedule interrupt is sent to the other processors. *)
Definition timer_handler (k : kernel) (c cpu_count : Z) (lock_free : bool) : option (bool * kernel) :=
  let k := if c =? 0
           then mkKernel (store k) (ready_head k) (next_pid k) (cpu_info k) (u32 (tick_count k + 1)) (mm k)
           else k in
  match (if (c =? 0) && lock_free then task_foreach k wake else Some k) with
  | None => None
  | Some k =>
      Some ((c =? 0) && (1 <? cpu_count),
            set_cpu k c (mkCpu (current_task (cpu_of k c)) true (esp0 (cpu_of k c))))
  end.

(** [resched_ipi_handler] *)
Definition resched_ipi_handler (k : kernel) (c : Z) : kernel :=
  set_cpu k c (mkCpu (current_task (cpu_of k c)) true (esp0 (cpu_of k c))).

(** ** Removal *)

(** [while (p->next != t) p = p->next] *)
Fixpoint ring_prev (fuel : nat) (k : kernel) (t p : Z) : option Z :=
  if next (tsk k p) =? t then Some p
  else match fuel with O => None | S fuel => ring_prev fuel k t (next (tsk k p)) end.

(** [free_frames] of the frames of a user page directory: every page and
    table of the entries that differ from the kernel's, then the directory *)
Definition free_user_table (m : memory) (pt : Z) (fr : pfa) : pfa :=
  let fr := for_up 1024 0 1
    (fun j fr => if present (entry m pt j) then free_frame fr (frame_of (entry m pt j)) else fr) fr in
  free_frame fr pt.

Definition free_user_dir (m : memory) (dir kdir : Z) (fr : pfa) : pfa :=
  let fr := for_up 1024 0 1
    (fun i fr =>
       if entry m dir i =? entry m kdir i then fr
       else if present (entry m dir i) then free_user_table m (frame_of (entry m dir i)) fr
       else fr) fr in
  free_frame fr dir.

(** The two resource blocks of [task_kill], which are also the body of
    [free_task_resources] in elf.c; they differ in the value [dir'] left in
    [page_dir]. *)
Definition release_task (k : kernel) (t dir' : Z) : kernel :=
  let kdir := kernel_page_dir (mm k) in
  let x := tsk k t in
  let k :=
    if negb (page_dir x =? 0) && negb (page_dir x =? kdir) then
      let k := set_mm k (with_frames (mm k) (free_user_dir (vmem (mm k)) (page_dir x) kdir (frames (mm k)))) in
      set_task k t (mkTask (pid x) (state x) (cpu_assigned x) dir' (kernel_esp x) (kernel_stack_base x)
                      (wakeup_tick x) (next x))
    else k in
  let x := tsk k t in
  if kernel_stack_base x =? 0 then k
  else
    let k := set_mm k (with_frames (mm k) (free_frames (frames (mm k)) (kernel_stack_base x)
                                             (Z.shiftr TASK_STACK_SIZE 12))) in
    set_task k t (mkTask (pid x) (state x) (cpu_assigned x) (page_dir x) (kernel_esp x) 0
                    (wakeup_tick x) (next x)).

(** The unlinking of [t] in [task_kill] *)
Definition ring_unlink (k : kernel) (t : Z) : option kernel :=
  if next (tsk k t) =? t then Some (set_head k 0)
  else
    match ring_prev (ring_fuel k) k t t with
    | None => None
    | Some p =>
        let k := set_task k p (with_next (tsk k p) (next (tsk k t))) in
        Some (if ready_head k =? t then set_head k (next (tsk k t)) else k)
    end.

Definition task_kill (k : kernel) (n : Z) : option (Z * kernel) :=
  if ready_head k =? 0 then Some (-1, k)
  else
    match ring_find (ring_fuel k) k (fun _ x => pid x =? n) (ready_head k) (ready_head k) with
    | None => None
    | Some t =>
        if t =? 0 then Some (-1, k)
        else if state (tsk k t) =? TASK_RUNNING then Some (-2, k)
        else
          match ring_unlink k t with
          | None => None
          | Some k =>
              let k := set_task k t (assign (tsk k t) TASK_FREE (-1)) in
              Some (0, release_task k t 0)
          end
    end.

(** The [SYS_EXIT] case of [syscall_handler]: the stack pointer to continue
    on, which the interrupt return loads unconditionally. *)
Definition sys_exit (k : kernel) (c : Z) : option (Z * kernel) :=
  let curr := current_task (cpu_of k c) in
  if curr =? 0 then Some (0, k)
  else
    let k := release_task k curr (kernel_page_dir (mm k)) in
    let k := set_task k curr (assign (tsk k curr) TASK_FREE (-1)) in
    let nobody := Some (0, set_mm (set_current k c 0) (page_dir_switch (mm k) (kernel_page_dir (mm k)))) in
    if ready_head k =? 0 then nobody
    else
      match ring_find (ring_fuel k) k
              (fun a x => (state x =? TASK_READY) && (cpu_assigned x <? 0) &&
                          negb (kernel_esp x =? 0) && negb (a =? curr))
              (ready_head k) (ready_head k) with
      | None => None
      | Some t =>
          if t =? 0 then nobody
          else
            let k := set_task k t (assign (tsk k t) TASK_RUNNING c) in
            let k := set_current k c t in
            let k := gdt_set_kernel_stack k c (u32 (kernel_stack_base (tsk k t) + TASK_STACK_SIZE)) in
            let k := set_mm k (page_dir_switch (mm k) (page_dir (tsk k t))) in
            Some (kernel_esp (tsk k t), k)
      end.

(** The stores of [kernel_main] and [ap_main] that make the task [t] the one
    processor [c] runs; they are made without the lock. *)
Definition claim_idle (k : kernel) (c t : Z) : kernel :=
  set_current (set_task k t (assign (tsk k t) TASK_RUNNING c)) c t.

(** Creation and claim, when nothing happens in between *)
Definition start_idle (k : kernel) (c entry : Z) : Z * kernel :=
  let '(t, k) := task_create k entry in (t, claim_idle k c t).

End Task.
