(* ===== verification/TaskRing.v ===== *)
(** * The circular task list

    The walks of task.c, timer.c and elf.c over the ring of tasks, as list
    operations: [seg m a l b] says that following [next] from [a] visits the
    tasks [l] and then reaches [b], and [ring k l] that the kernel's list is
    the cycle [l] starting at [ready_head]. *)
From S2P Require Import Prelude Bytes Memory FrameAlloc Pfa Paging Task.
Import Task.

Fixpoint seg (m : gmap Z task) (a : Z) (l : list Z) (b : Z) : Prop :=
  match l with
  | [] => a = b
  | x :: l' => a = x /\ exists t, m !! x = Some t /\ seg m (next t) l' b
  end.

Definition ring (k : kernel) (l : list Z) : Prop :=
  seg (store k) (ready_head k) l (ready_head k) /\ NoDup l /\ (0 ∉ l) /\ (l = [] -> ready_head k = 0).

(** ** Segments *)

Lemma seg_app (m : gmap Z task) (a b : Z) (l1 l2 : list Z) :
  seg m a (l1 ++ l2) b <-> exists c, seg m a l1 c /\ seg m c l2 b.
Proof.
  revert a. induction l1 as [|x l1 IH]; intros a; cbn [app seg].
  - split; [intros; exists a; done|]. by intros (c & -> & ?).
  - split.
    + intros (-> & t & Ht & Hs). apply IH in Hs as (c & ? & ?). eauto 10.
    + intros (c & (-> & t & Ht & Hs) & Hc). split; [done|]. exists t. split; [done|]. apply IH. eauto.
Qed.

Lemma seg_head (m : gmap Z task) (a b x : Z) (l : list Z) : seg m a (x :: l) b -> a = x.
Proof. by intros [-> _]. Qed.

(** The cycle can be entered at any of its tasks. *)
Lemma seg_rotate (m : gmap Z task) (h x : Z) (l1 l2 : list Z) :
  seg m h (l1 ++ x :: l2) h -> seg m x (x :: l2 ++ l1) x.
Proof.
  intros H. apply seg_app in H as (c & H1 & H2). pose proof (seg_head _ _ _ _ _ H2) as ->.
  change (x :: l2 ++ l1) with ((x :: l2) ++ l1). apply seg_app. eauto.
Qed.

Lemma seg_elem (m : gmap Z task) (a b x : Z) (l : list Z) : seg m a l b -> x ∈ l -> is_Some (m !! x).
Proof.
  revert a. induction l as [|y l IH]; intros a H Hx; [inversion Hx|].
  destruct H as (-> & t & Ht & Hs). apply elem_of_cons in Hx as [->|Hx]; eauto.
Qed.

(** Writing a task without changing its [next], or a task outside. *)
Lemma seg_insert_same (m : gmap Z task) (a b x : Z) (t t' : task) (l : list Z) :
  m !! x = Some t -> next t' = next t -> seg m a l b -> seg (<[x := t']> m) a l b.
Proof.
  intros Hx Hn. revert a. induction l as [|y l IH]; intros a; cbn [seg]; [done|].
  intros (-> & u & Hu & Hs). split; [done|]. destruct (decide (x = y)) as [->|Hne].
  - exists t'. rewrite lookup_insert_eq. split; [done|]. rewrite Hn. apply IH. congruence.
  - exists u. rewrite lookup_insert_ne by done. auto.
Qed.

Lemma seg_insert_other (m : gmap Z task) (a b x : Z) (t' : task) (l : list Z) :
  x ∉ l -> seg m a l b -> seg (<[x := t']> m) a l b.
Proof.
  intros Hx. revert a. induction l as [|y l IH]; intros a; cbn [seg]; [done|].
  apply not_elem_of_cons in Hx as [Hne Hx].
  intros (-> & u & Hu & Hs). split; [done|]. exists u. rewrite lookup_insert_ne by done. auto.
Qed.

Lemma seg_length (m : gmap Z task) (a b : Z) (l : list Z) :
  seg m a l b -> NoDup l -> (length l <= size m)%nat.
Proof.
  intros Hs Hnd. rewrite <- size_dom.
  replace (length l) with (size (list_to_set l : gset Z)).
  - apply subseteq_size. intros x Hx. apply elem_of_list_to_set in Hx.
    apply elem_of_dom. by eapply seg_elem.
  - apply size_list_to_set. done.
Qed.

Lemma tsk_lookup (k : kernel) (x : Z) (t : task) : store k !! x = Some t -> tsk k x = t.
Proof. intros H. unfold tsk. by rewrite H. Qed.

(** ** The walks *)

(** The first task of [l] that satisfies [p], 0 if there is none *)
Definition first_task (k : kernel) (p : Z -> task -> bool) (l : list Z) : Z :=
  default 0 (List.find (fun a => p a (tsk k a)) l).

Lemma ring_scan_spec (fuel : nat) (k : kernel) (p : Z -> task -> bool) (start t : Z) (l : list Z) :
  seg (store k) t l start -> start ∉ l -> (length l <= fuel)%nat ->
  ring_scan fuel k p start t = Some (first_task k p l).
Proof.
  revert t l. induction fuel as [|fuel IH]; intros t l Hs Hn Hl; cbn [ring_scan].
  - destruct l; [|cbn in Hl; lia]. cbn in Hs. subst. by rewrite Z.eqb_refl.
  - destruct l as [|x l]; [cbn in Hs; subst; by rewrite Z.eqb_refl|].
    destruct Hs as (-> & u & Hu & Hs). apply not_elem_of_cons in Hn as [Hne Hn].
    destruct (Z.eqb_spec x start); [congruence|]. unfold first_task. cbn [List.find].
    rewrite (tsk_lookup k x u Hu). destruct (p x u); [done|].
    apply IH; [done|done|cbn in Hl; lia].
Qed.

Lemma ring_find_spec (fuel : nat) (k : kernel) (p : Z -> task -> bool) (start t : Z) (l : list Z) :
  seg (store k) t (t :: l) start -> start ∉ l -> (length l < fuel)%nat ->
  ring_find fuel k p start t = Some (first_task k p (t :: l)).
Proof.
  revert t l. induction fuel as [|fuel IH]; intros t l Hs Hn Hl; [lia|]. cbn [ring_find].
  destruct Hs as (_ & u & Hu & Hs). unfold first_task. cbn [List.find].
  rewrite (tsk_lookup k t u Hu). destruct (p t u); [done|].
  destruct l as [|y l]; [cbn in Hs; rewrite Hs, Z.eqb_refl; done|].
  pose proof (seg_head _ _ _ _ _ Hs) as Hy. apply not_elem_of_cons in Hn as [Hne Hn].
  destruct (Z.eqb_spec (next u) start); [congruence|]. rewrite Hy in Hs |- *.
  apply IH; [done|done|cbn in Hl; lia].
Qed.

Lemma ring_walk_spec (fuel : nat) (f : Z -> kernel -> kernel) (start t : Z) (l : list Z) (k : kernel) :
  (forall a k b, next (tsk (f a k) b) = next (tsk k b)) ->
  seg (store k) t (t :: l) start -> start ∉ l -> (length l < fuel)%nat ->
  ring_walk fuel f start t k = Some (fold_left (fun k a => f a k) (t :: l) k).
Proof.
  intros Hf. assert (H : forall fuel t l k, seg (store k) t (t :: l) start -> start ∉ l -> (length l < fuel)%nat ->
    forall k', (forall b, next (tsk k' b) = next (tsk k b)) ->
    ring_walk fuel f start t k' = Some (fold_left (fun k a => f a k) (t :: l) k')).
  { clear -Hf. induction fuel as [|fuel IH]; intros t l k Hs Hn Hl k' Hk; [lia|].
    cbn [ring_walk fold_left]. destruct Hs as (_ & u & Hu & Hs).
    rewrite Hk, (tsk_lookup k t u Hu).
    destruct l as [|y l]; [cbn in Hs; rewrite Hs, Z.eqb_refl; done|].
    pose proof (seg_head _ _ _ _ _ Hs) as Hy. apply not_elem_of_cons in Hn as [Hne Hn].
    destruct (Z.eqb_spec (next u) start); [congruence|]. rewrite Hy in Hs |- *.
    rewrite (IH y l k) with (k' := f t k'); [done|done|done|cbn in Hl; lia|].
    intros b. by rewrite Hf. }
  intros. by eapply H.
Qed.

(** From [p], at the front of the segment that ends at [t], the last task
    of the segment is the one before [t]. *)
Lemma ring_prev_spec (fuel : nat) (k : kernel) (t p : Z) (l : list Z) :
  seg (store k) p (p :: l) t -> t ∉ l -> (length l <= fuel)%nat ->
  ring_prev fuel k t p = Some (List.last (p :: l) 0).
Proof.
  revert p l. induction fuel as [|fuel IH]; intros p l Hs Hn Hl.
  - destruct l; [|cbn in Hl; lia]. destruct Hs as (_ & u & Hu & Hs). cbn in Hs. cbn [ring_prev].
    by rewrite (tsk_lookup k p u Hu), Hs, Z.eqb_refl.
  - destruct Hs as (_ & u & Hu & Hs). cbn [ring_prev]. rewrite (tsk_lookup k p u Hu).
    destruct l as [|y l]; [cbn in Hs; by rewrite Hs, Z.eqb_refl|].
    pose proof (seg_head _ _ _ _ _ Hs) as Hy. apply not_elem_of_cons in Hn as [Hne Hn].
    destruct (Z.eqb_spec (next u) t); [congruence|]. rewrite Hy in Hs |- *.
    rewrite (IH y l) by (done || (cbn in Hl; lia)). done.
Qed.

(** ** Operations on the ring *)

Lemma ring_lookup (k : kernel) (l : list Z) (x : Z) : ring k l -> x ∈ l -> store k !! x = Some (tsk k x).
Proof.
  intros (Hs & _) Hx. destruct (seg_elem _ _ _ _ _ Hs Hx) as [t Ht]. unfold tsk. by rewrite Ht.
Qed.

Lemma ring_length (k : kernel) (l : list Z) : ring k l -> (length l <= ring_fuel k)%nat.
Proof. intros (Hs & Hnd & _). by eapply seg_length. Qed.

Lemma ring_empty (k : kernel) (l : list Z) : ring k l -> (ready_head k =? 0) = match l with [] => true | _ => false end.
Proof.
  intros (Hs & _ & H0 & He). destruct l as [|x l]; [by rewrite He|].
  pose proof (seg_head _ _ _ _ _ Hs) as ->. apply not_elem_of_cons in H0 as [H0 _].
  apply Z.eqb_neq. congruence.
Qed.

Lemma ring_set_same (k : kernel) (l : list Z) (x : Z) (t : task) :
  ring k l -> x ∈ l -> next t = next (tsk k x) -> ring (set_task k x t) l.
Proof.
  intros Hr Hx Hn. pose proof (ring_lookup k l x Hr Hx) as Hl. destruct Hr as (Hs & ? & ? & ?).
  split; [|done]. cbn [store ready_head set_task]. by eapply seg_insert_same.
Qed.

Lemma ring_same (k k' : kernel) (l : list Z) :
  ring k l -> store k' = store k -> ready_head k' = ready_head k -> ring k' l.
Proof. intros H Es Eh. unfold ring. by rewrite Es, Eh. Qed.

Lemma tsk_set_eq (k : kernel) (x : Z) (t : task) : tsk (set_task k x t) x = t.
Proof. unfold tsk. cbn [set_task store]. by rewrite lookup_insert_eq. Qed.

Lemma tsk_set_ne (k : kernel) (x y : Z) (t : task) : x <> y -> tsk (set_task k x t) y = tsk k y.
Proof. intros. unfold tsk. cbn [set_task store]. by rewrite lookup_insert_ne. Qed.

(** Two records that agree on everything but [next] *)
Definition same_task (t t' : task) : Prop := with_next t' 0 = with_next t 0.

Lemma same_task_refl (t : task) : same_task t t.
Proof. done. Qed.

Lemma same_task_next (t : task) (n : Z) : same_task t (with_next t n).
Proof. done. Qed.

Lemma same_task_trans (t t' t'' : task) : same_task t t' -> same_task t' t'' -> same_task t t''.
Proof. unfold same_task. congruence. Qed.

(** What relinking leaves alone *)
Definition relinked (k k' : kernel) : Prop :=
  (forall a, same_task (tsk k a) (tsk k' a)) /\ cpu_info k' = cpu_info k /\ mm k' = mm k /\
  next_pid k' = next_pid k /\ tick_count k' = tick_count k.

Lemma relinked_set_next (k : kernel) (x n : Z) : relinked k (set_task k x (with_next (tsk k x) n)).
Proof.
  split; [|done]. intros a. destruct (decide (x = a)) as [->|Hne].
  - by rewrite tsk_set_eq.
  - by rewrite tsk_set_ne.
Qed.

Lemma relinked_trans (k k' k'' : kernel) : relinked k k' -> relinked k' k'' -> relinked k k''.
Proof.
  intros (H & ? & ? & ? & ?) (H' & ? & ? & ? & ?). split; [|repeat split; congruence].
  intros a. eapply same_task_trans; eauto.
Qed.

Lemma relinked_set_head (k : kernel) (h : Z) : relinked k (set_head k h).
Proof. by repeat split. Qed.

Lemma ring_insert_spec (k : kernel) (l : list Z) (t : Z) (u : task) :
  ring k l -> t ∉ l -> t <> 0 -> store k !! t = Some u ->
  ring (ring_insert k t) (match l with [] => [t] | h :: l' => h :: t :: l' end) /\
  relinked k (ring_insert k t).
Proof.
  intros Hr Ht H0 Hu. unfold ring_insert. rewrite (ring_empty k l Hr). destruct l as [|h l].
  - split.
    + split; [|split; [apply NoDup_singleton|split; [|done]]].
      * cbn [set_task set_head ready_head store seg]. split; [done|].
        exists (with_next (tsk (set_head k t) t) t). rewrite lookup_insert_eq. done.
      * apply not_elem_of_cons. split; [congruence|apply not_elem_of_nil].
    + eapply relinked_trans; [apply relinked_set_head|apply relinked_set_next].
  - split; [|eapply relinked_trans; [apply relinked_set_next|apply relinked_set_next]].
    pose proof (ring_lookup k (h :: l) h Hr ltac:(left)) as Hh. destruct Hr as (Hs & Hnd & Hz & _).
    pose proof (seg_head _ _ _ _ _ Hs) as Eh. apply not_elem_of_cons in Ht as [Hth Ht].
    apply NoDup_cons in Hnd as [Hhl Hnd]. rewrite Eh in *. set (k1 := set_task k t _).
    change (ready_head k1) with (ready_head k). rewrite Eh.
    assert (E1 : tsk k1 h = tsk k h) by (apply tsk_set_ne; congruence). rewrite E1.
    destruct Hs as (_ & v & Hv & Hs). assert (v = tsk k h) as -> by congruence.
    split; [|split; [|split; [|done]]].
    + cbn [set_task ready_head store]. change (ready_head k1) with (ready_head k). rewrite Eh.
      split; [done|]. exists (with_next (tsk k h) t). rewrite lookup_insert_eq. split; [done|].
      split; [done|]. exists (with_next (tsk k t) (next (tsk k h))).
      rewrite lookup_insert_ne by congruence. cbn [k1 set_task store]. rewrite lookup_insert_eq.
      split; [done|]. apply seg_insert_other; [done|]. by apply seg_insert_other.
    + constructor; [|by constructor]. apply not_elem_of_cons. split; [congruence|done].
    + apply not_elem_of_cons in Hz as [? ?]. repeat (apply not_elem_of_cons; split; [congruence|]). done.
Qed.

Lemma seg_retarget (m : gmap Z task) (a b c p : Z) (u : task) (f : list Z) :
  seg m a (f ++ [p]) b -> p ∉ f -> seg (<[p := with_next u c]> m) a (f ++ [p]) c.
Proof.
  intros H Hp. apply seg_app in H as (d & H1 & H2). apply seg_app. exists d.
  split; [by apply seg_insert_other|]. destruct H2 as (-> & v & Hv & _). split; [done|].
  exists (with_next u c). by rewrite lookup_insert_eq.
Qed.

Lemma last_snoc_cons (t p : Z) (f : list Z) : List.last (t :: f ++ [p]) 0 = p.
Proof. rewrite app_comm_cons. apply last_last. Qed.

Lemma ring_unlink_spec (k : kernel) (t : Z) (l1 l2 : list Z) :
  ring k (l1 ++ t :: l2) ->
  exists k', ring_unlink k t = Some k' /\ ring k' (l1 ++ l2) /\ relinked k k'.
Proof.
  intros Hr. pose proof (ring_length _ _ Hr) as Hlen. pose proof Hr as (Hs & Hnd & Hz & _).
  pose proof (seg_rotate _ _ _ _ _ Hs) as Hrot.
  assert (Hnd' : NoDup (t :: l2 ++ l1)).
  { eapply (NoDup_Permutation_proper _ (l1 ++ t :: l2)); [|done].
    rewrite <- Permutation_middle. constructor. apply Permutation_app_comm. }
  apply NoDup_cons in Hnd' as [Htr Hndr]. pose proof Hrot as (_ & u & Hu & Hn).
  unfold ring_unlink. rewrite (tsk_lookup k t u Hu).
  assert (Hz' : 0 ∉ l1 ++ l2).
  { intros Hin. apply Hz. apply elem_of_app. apply elem_of_app in Hin as [?|?]; [by left|right; by right]. }
  assert (Hnd2 : NoDup (l1 ++ l2)) by (eapply (NoDup_Permutation_proper _ (l2 ++ l1)); [apply Permutation_app_comm|done]).
  destruct (decide (l2 ++ l1 = [])) as [E|E].
  { rewrite E in Hn. cbn in Hn. rewrite Hn, Z.eqb_refl. apply app_eq_nil in E as [-> ->].
    eexists. split; [done|]. split; [|by repeat split]. split; [done|]. split; [constructor|]. done. }
  destruct (exists_last E) as (f & p & Ep). rewrite Ep in *.
  assert (Hne : next u <> t).
  { destruct (f ++ [p]) as [|y r]; [done|]. apply seg_head in Hn. intros Hx. apply Htr. rewrite <- Hx, Hn. left. }
  destruct (Z.eqb_spec (next u) t); [done|].
  rewrite (ring_prev_spec (ring_fuel k) k t t (f ++ [p])); [|done|done|].
  2:{ rewrite <- Ep. rewrite length_app in *. cbn [length] in Hlen. lia. }
  rewrite last_snoc_cons. cbv zeta. apply NoDup_app in Hndr as (_ & Hpf & _).
  assert (Hpf' : p ∉ f) by (intros Hin; apply (Hpf p Hin); left).
  assert (Hpt : p <> t) by (intros ->; apply Htr; apply elem_of_app; right; left).
  pose proof (seg_retarget _ _ _ (next u) p (tsk k p) f Hn Hpf') as Hcyc. rewrite <- Ep in Hcyc.
  change (ready_head (set_task _ _ _)) with (ready_head k). rewrite tsk_set_ne by done.
  rewrite (tsk_lookup k t u Hu). eexists. split; [reflexivity|].
  destruct l1 as [|h l1].
  - pose proof (seg_head _ _ _ _ _ Hs) as Eh. rewrite Eh, Z.eqb_refl.
    split; [|eapply relinked_trans; [apply relinked_set_next|apply relinked_set_head]].
    rewrite app_nil_r in Hcyc. split; [exact Hcyc|]. split; [done|]. split; [done|].
    intros El. cbn in El. rewrite El in Ep. cbn in Ep. destruct f; discriminate.
  - pose proof (seg_head _ _ _ _ _ Hs) as Eh. rewrite Eh.
    destruct (Z.eqb_spec h t) as [->|_].
    { exfalso. cbn [app] in Hnd. apply NoDup_cons in Hnd as [Hh _]. apply Hh. apply elem_of_app. right. left. }
    split; [|apply relinked_set_next]. split; [|split; [done|split; [done|discriminate]]].
    cbn [set_task store ready_head]. rewrite Eh. exact (seg_rotate _ _ _ _ _ Hcyc).
Qed.
