(* ===== verification/TaskInv.v ===== *)
(** * The task scheduler's state: invariant and operations

    What each operation of task.c and timer.c does to the ring, the task
    records, the frames and the processors, and that it keeps the state well
    formed: switching, creation, wake-ups and the release of a task's
    memory.  [TaskProps] has the properties proved from these. *)
From S2P Require Import Prelude Bytes Memory FrameAlloc Pfa Paging Task TaskRing.
Import Pfa Paging Task.

(** ** Switching *)

(** The record of the task that gives up the processor *)
Definition saved (x : task) (c esp st wake : Z) : task :=
  mkTask (pid x) st c (page_dir x) esp (kernel_stack_base x) wake (next x).

(** The state after processor [c] went from task [curr], now [x], to [nxt] *)
Definition switched (k : kernel) (c curr nxt : Z) (x : task) : kernel :=
  let y := tsk k nxt in
  mkKernel (<[nxt := assign y TASK_RUNNING c]> (<[curr := x]> (store k))) (ready_head k) (next_pid k)
    (<[Z.to_nat c := mkCpu nxt (resched_pending (cpu_of k c)) (u32 (kernel_stack_base y + TASK_STACK_SIZE))]>
       (cpu_info k))
    (tick_count k) (page_dir_switch (mm k) (page_dir y)).

Lemma cpu_of_set_eq (k : kernel) (c : Z) (r : cpu) :
  (Z.to_nat c < length (cpu_info k))%nat -> cpu_of (set_cpu k c r) c = r.
Proof. intros. unfold cpu_of. cbn [set_cpu cpu_info]. by rewrite list_lookup_insert_eq. Qed.

Lemma cpu_of_set_ne (k : kernel) (c d : Z) (r : cpu) :
  0 <= c -> 0 <= d -> c <> d -> cpu_of (set_cpu k c r) d = cpu_of k d.
Proof. intros. unfold cpu_of. cbn [set_cpu cpu_info]. by rewrite list_lookup_insert_ne by lia. Qed.

Lemma set_task_twice (k : kernel) (a : Z) (t t' : task) : set_task (set_task k a t) a t' = set_task k a t'.
Proof. unfold set_task. cbn. by rewrite insert_insert_eq. Qed.

(** The end of a switch to [nxt], in [task_switch_from] and in [sys_exit] *)
Lemma switch_to (k : kernel) (c curr nxt : Z) (x : task) :
  0 <= c < MAX_CPU -> length (cpu_info k) = Z.to_nat MAX_CPU -> nxt <> curr ->
  let k1 := set_task k curr x in
  let k2 := set_task k1 nxt (assign (tsk k1 nxt) TASK_RUNNING c) in
  let k3 := set_current k2 c nxt in
  let k4 := gdt_set_kernel_stack k3 c (u32 (kernel_stack_base (tsk k3 nxt) + TASK_STACK_SIZE)) in
  set_mm k4 (page_dir_switch (mm k4) (page_dir (tsk k4 nxt))) = switched k c curr nxt x /\
  kernel_esp (tsk (switched k c curr nxt x) nxt) = kernel_esp (tsk k nxt).
Proof.
  intros Hc Hl Hne k1 k2 k3 k4.
  assert (Hlt : (Z.to_nat c < length (cpu_info k))%nat) by (unfold MAX_CPU in *; lia).
  assert (E1 : tsk k1 nxt = tsk k nxt) by (apply tsk_set_ne; congruence).
  assert (E2 : tsk k2 nxt = assign (tsk k nxt) TASK_RUNNING c) by (unfold k2; rewrite tsk_set_eq, E1; done).
  assert (E3 : tsk k3 nxt = tsk k2 nxt) by done.
  assert (Ek4 : k4 = set_cpu k2 c (mkCpu nxt (resched_pending (cpu_of k c))
                       (u32 (kernel_stack_base (tsk k nxt) + TASK_STACK_SIZE)))).
  { unfold k4, gdt_set_kernel_stack. rewrite (proj2 (Z.leb_le 0 c)), (proj2 (Z.ltb_lt c MAX_CPU)) by lia.
    cbn [andb]. rewrite E3, E2. unfold k3, set_current. rewrite cpu_of_set_eq by done. cbn [current_task resched_pending].
    unfold set_cpu. cbn [store ready_head next_pid cpu_info tick_count mm]. rewrite list_insert_insert_eq. done. }
  split.
  - rewrite Ek4. change (tsk (set_cpu k2 c _) nxt) with (tsk k2 nxt). rewrite E2. unfold switched, set_mm, set_cpu, k2.
    rewrite E1. done.
  - unfold switched, tsk. cbn [store]. rewrite lookup_insert_eq. done.
Qed.

Lemma find_ext {A : Type} (f g : A -> bool) (l : list A) :
  (forall x, x ∈ l -> f x = g x) -> List.find f l = List.find g l.
Proof.
  induction l as [|x l IH]; intros H; [done|]. cbn [List.find]. rewrite (H x) by left.
  destruct (g x); [done|]. apply IH. intros y Hy. apply H. by right.
Qed.

Lemma first_task_ext (k k' : kernel) (p : Z -> task -> bool) (l : list Z) :
  (forall a, a ∈ l -> tsk k' a = tsk k a) -> first_task k' p l = first_task k p l.
Proof. intros H. unfold first_task. rewrite (find_ext _ (fun a => p a (tsk k a))); [done|]. intros a Ha. by rewrite H. Qed.

(** The tasks of the ring after [curr], in the order they are visited *)
Lemma ring_after (k : kernel) (curr : Z) (l1 l2 : list Z) :
  ring k (l1 ++ curr :: l2) ->
  seg (store k) (next (tsk k curr)) (l2 ++ l1) curr /\ (curr ∉ l2 ++ l1) /\ curr <> 0 /\
  (length (l2 ++ l1) <= ring_fuel k)%nat /\ ready_head k <> 0.
Proof.
  intros Hr. pose proof (ring_length _ _ Hr) as Hlen.
  pose proof (ring_lookup k _ curr Hr ltac:(apply elem_of_app; right; left)) as Hu.
  pose proof (ring_empty _ _ Hr) as He.
  destruct Hr as (Hs & Hnd & Hz & _). pose proof (seg_rotate _ _ _ _ _ Hs) as (_ & u & Hu' & Hn).
  assert (u = tsk k curr) as -> by congruence. split; [done|]. split; [|split; [|split]].
  - rewrite NoDup_app in Hnd. destruct Hnd as (_ & Hd & Hnd2). apply NoDup_cons in Hnd2 as [Hn2 _].
    intros Hin. apply elem_of_app in Hin as [?|Hin]; [done|]. apply (Hd curr Hin). left.
  - intros ->. apply Hz. apply elem_of_app. right. left.
  - rewrite length_app in *. cbn [length] in Hlen. lia.
  - apply Z.eqb_neq. rewrite He. by destruct l1.
Qed.

(** What a call of [task_switch_from] does, on every branch *)
Definition switch_result (k : kernel) (c curr esp ns wake : Z) (others : list Z) : Z * kernel :=
  let nxt := first_task k (fun _ t => runnable c t) others in
  if nxt =? 0 then (0, set_task k curr (saved (tsk k curr) c esp TASK_RUNNING wake))
  else (kernel_esp (tsk k nxt), switched k c curr nxt (saved (tsk k curr) c esp ns wake)).

Lemma first_task_in (k : kernel) (p : Z -> task -> bool) (l : list Z) :
  first_task k p l <> 0 -> first_task k p l ∈ l /\ p (first_task k p l) (tsk k (first_task k p l)) = true.
Proof.
  unfold first_task. destruct (List.find _ l) as [a|] eqn:E; [|done]. intros _. cbn.
  apply List.find_some in E as [Ha Hp]. split; [by apply list_elem_of_In|done].
Qed.

Lemma task_switch_from_spec (k : kernel) (c curr esp ns wake : Z) (l1 l2 : list Z) :
  0 <= c < MAX_CPU -> length (cpu_info k) = Z.to_nat MAX_CPU ->
  ring k (l1 ++ curr :: l2) -> current_task (cpu_of k c) = curr ->
  task_switch_from k c esp ns wake = Some (switch_result k c curr esp ns wake (l2 ++ l1)).
Proof.
  intros Hc Hl Hr Hcur. destruct (ring_after k curr l1 l2 Hr) as (Hs & Hn & H0 & Hf & Hh).
  assert (Hin : curr ∈ l1 ++ curr :: l2) by (apply elem_of_app; right; left).
  unfold task_switch_from. rewrite Hcur. destruct (Z.eqb_spec curr 0); [done|].
  set (x1 := mkTask _ _ _ _ _ _ _ _). set (k1 := set_task k curr x1).
  assert (Hk2 : forall s, set_task k1 curr (assign (tsk k1 curr) s c) = set_task k curr (saved (tsk k curr) c esp s wake)).
  { intros s. unfold k1. by rewrite tsk_set_eq, set_task_twice. }
  rewrite !Hk2. replace (if ns =? TASK_READY then _ else _) with (set_task k curr (saved (tsk k curr) c esp ns wake))
    by (destruct (Z.eqb_spec ns TASK_READY) as [->|]; done).
  set (x := saved _ _ _ ns _). set (k2 := set_task k curr x). unfold pick_next_locked.
  change (cpu_of k2 c) with (cpu_of k c). change (ready_head k2) with (ready_head k). rewrite Hcur.
  destruct (Z.eqb_spec curr 0); [done|]. destruct (Z.eqb_spec (ready_head k) 0); [done|]. cbn [orb].
  pose proof (ring_set_same k _ curr x Hr Hin eq_refl) as Hr2. fold k2 in Hr2.
  destruct (ring_after k2 curr l1 l2 Hr2) as (Hs2 & _ & _ & Hf2 & _).
  rewrite (ring_scan_spec _ _ _ _ _ _ Hs2 Hn Hf2).
  rewrite (first_task_ext k k2) by (intros a Ha; apply tsk_set_ne; intros ->; done).
  unfold switch_result. set (nxt := first_task k _ _). destruct (Z.eqb_spec nxt 0) as [->|Hnz].
  - cbn [negb]. assert (E : forall s, set_task k2 curr (assign (tsk k2 curr) s c) = set_task k curr (saved (tsk k curr) c esp s wake)).
    { intros s. unfold k2. by rewrite tsk_set_eq, set_task_twice. }
    destruct (runnable c (tsk k2 curr)); rewrite E; cbn [Z.eqb].
    + destruct (Z.eqb_spec curr 0); [done|]. by rewrite Z.eqb_refl.
    + done.
  - cbn [negb]. destruct (Z.eqb_spec nxt 0); [done|].
    destruct (first_task_in k (fun _ t => runnable c t) (l2 ++ l1) Hnz) as [Hin2 _].
    destruct (Z.eqb_spec nxt curr) as [Ec|Hne]; [exfalso; apply Hn; rewrite <- Ec; exact Hin2|].
    destruct (switch_to k c curr nxt x Hc Hl Hne) as [E1 E2]. cbv zeta in E1. fold k2 in E1.
    cbv zeta. f_equal. f_equal; [|exact E1]. rewrite <- E2, <- E1. done.
Qed.

(** ** Well-formed states *)

Definition total (k : kernel) : Z := total_frames (frames (mm k)).

Definition in_use (k : kernel) (f : Z) : bool := used (frames (mm k)) f.

(** [a] is the address of an allocated frame. *)
Definition owned_frame (k : kernel) (a : Z) : Prop :=
  exists f, a = f * FRAME_SIZE /\ 0 < f < total k /\ in_use k f = true.

(** Frame [g] is part of the kernel stack of [t]. *)
Definition stack_frame (t : task) (g : Z) : Prop :=
  kernel_stack_base t <> 0 /\ FRAME (kernel_stack_base t) <= g < FRAME (kernel_stack_base t) + 4.

(** The list and the memory of its tasks: every task structure and every
    kernel stack is in frames of its own, marked in use. *)
Record wf_mem (k : kernel) (l : list Z) : Prop := {
  wf_ring : ring k l;
  wf_pfa : pfa_inv (frames (mm k));
  wf_dir : forall a, a ∈ l -> page_dir (tsk k a) = kernel_page_dir (mm k);
  wf_frame : forall a, a ∈ l -> owned_frame k a;
  wf_stack : forall a g, a ∈ l -> stack_frame (tsk k a) g ->
    0 < g < total k /\ in_use k g = true /\ (g * FRAME_SIZE ∉ l) /\
    forall b, b ∈ l -> stack_frame (tsk k b) g -> a = b }.

(** The processors: a current task is in the list, running and assigned to
    that processor; a running task is the current one of its processor. *)
Record wf_cpu (k : kernel) (l : list Z) : Prop := {
  wf_len : length (cpu_info k) = Z.to_nat MAX_CPU;
  wf_current : forall c, 0 <= c < MAX_CPU -> current_task (cpu_of k c) <> 0 ->
    current_task (cpu_of k c) ∈ l /\ state (tsk k (current_task (cpu_of k c))) = TASK_RUNNING /\
    cpu_assigned (tsk k (current_task (cpu_of k c))) = c;
  wf_running : forall a, a ∈ l -> state (tsk k a) = TASK_RUNNING ->
    0 <= cpu_assigned (tsk k a) < MAX_CPU /\ current_task (cpu_of k (cpu_assigned (tsk k a))) = a }.

Definition wf (k : kernel) (l : list Z) : Prop := wf_mem k l /\ wf_cpu k l.

(** The fields that place a task in memory *)
Definition same_place (t t' : task) : Prop :=
  page_dir t' = page_dir t /\ kernel_stack_base t' = kernel_stack_base t /\ next t' = next t.

(** The general preservation lemma: tasks may leave the list, give up their
    stacks and move in the list, and the allocator may change, as long as
    the frames still owned stay in use. *)
Lemma wf_mem_step (k k' : kernel) (l l' : list Z) :
  wf_mem k l -> ring k' l' ->
  (forall a, a ∈ l' -> a ∈ l /\ page_dir (tsk k' a) = page_dir (tsk k a) /\
     (forall g, stack_frame (tsk k' a) g -> stack_frame (tsk k a) g)) ->
  kernel_page_dir (mm k') = kernel_page_dir (mm k) -> pfa_inv (frames (mm k')) -> total k' = total k ->
  (forall g, 0 < g < total k -> in_use k g = true ->
     g * FRAME_SIZE ∈ l' \/ (exists a, a ∈ l' /\ stack_frame (tsk k' a) g) -> in_use k' g = true) ->
  wf_mem k' l'.
Proof.
  intros [Hr Hp Hd Hf Hs] Hr' Ht Ed Hp' Et Hu. split; [done|done|..].
  - intros a Ha. destruct (Ht a Ha) as (Hin & -> & _). rewrite Ed. auto.
  - intros a Ha. destruct (Ht a Ha) as (Hin & _). destruct (Hf a Hin) as (f & -> & Hf1 & Hf2).
    exists f. rewrite Et. split; [done|]. split; [done|]. apply Hu; [done|done|by left].
  - intros a g Ha Hg. destruct (Ht a Ha) as (Hin & _ & Hsf).
    destruct (Hs a g Hin (Hsf g Hg)) as (H1 & H2 & H3 & H4). rewrite Et.
    split; [done|]. split; [apply Hu; eauto|]. split; [intros Hg'; apply H3, (Ht _ Hg')|].
    intros b Hb Hbg. destruct (Ht b Hb) as (Hinb & _ & Hsb). eauto.
Qed.

Lemma wf_mem_same (k k' : kernel) (l : list Z) :
  wf_mem k l -> ring k' l -> (forall a, a ∈ l -> same_place (tsk k a) (tsk k' a) \/ same_task (tsk k a) (tsk k' a)) ->
  frames (mm k') = frames (mm k) -> kernel_page_dir (mm k') = kernel_page_dir (mm k) -> wf_mem k' l.
Proof.
  intros Hw Hr' Ht Ef Ed.
  assert (Ht' : forall a, a ∈ l -> page_dir (tsk k' a) = page_dir (tsk k a) /\
    kernel_stack_base (tsk k' a) = kernel_stack_base (tsk k a)).
  { intros a Ha. destruct (Ht a Ha) as [(? & ? & _)|E]; [done|]. unfold same_task, with_next in E.
    by injection E. }
  eapply wf_mem_step; [done|done| |done|rewrite Ef; apply Hw|unfold total; by rewrite Ef|unfold in_use; by rewrite Ef].
  intros a Ha. split; [done|]. unfold stack_frame. destruct (Ht' a Ha) as [-> ->]. done.
Qed.

Lemma wf_mem_set (k : kernel) (l : list Z) (a : Z) (t : task) :
  wf_mem k l -> a ∈ l -> same_place (tsk k a) t -> wf_mem (set_task k a t) l.
Proof.
  intros Hw Ha Hp. eapply wf_mem_same; [done| | |done|done].
  - apply ring_set_same; [apply Hw|done|apply Hp].
  - intros b Hb. left. destruct (decide (a = b)) as [<-|]; [by rewrite tsk_set_eq|by rewrite tsk_set_ne].
Qed.

(** A task that is not running changes to another state that is not
    running. *)
Lemma wf_cpu_set (k : kernel) (l : list Z) (a : Z) (t : task) :
  wf_cpu k l -> state (tsk k a) <> TASK_RUNNING -> state t <> TASK_RUNNING -> wf_cpu (set_task k a t) l.
Proof.
  intros [Hl Hc Hr] Hs Ht. split; [done|..]; change (cpu_of (set_task k a t)) with (cpu_of k).
  - intros c Hc1 Hc2. destruct (Hc c Hc1 Hc2) as (Hin & Hst & Has).
    rewrite tsk_set_ne by (intros ->; done). done.
  - intros b Hb. destruct (decide (a = b)) as [<-|]; [by rewrite tsk_set_eq|].
    rewrite tsk_set_ne by done. auto.
Qed.

Lemma elem_split (l : list Z) (a : Z) : a ∈ l -> exists l1 l2, l = l1 ++ a :: l2.
Proof. apply list_elem_of_split. Qed.

(** The task of processor [c] is unique to it. *)
Lemma current_unique (k : kernel) (l : list Z) (c d : Z) :
  wf_cpu k l -> 0 <= c < MAX_CPU -> 0 <= d < MAX_CPU -> current_task (cpu_of k c) <> 0 ->
  current_task (cpu_of k c) = current_task (cpu_of k d) -> c = d.
Proof.
  intros [_ Hc _] Hc1 Hd H0 E. destruct (Hc c Hc1 H0) as (_ & _ & <-).
  rewrite E. destruct (Hc d Hd) as (_ & _ & ->); [by rewrite <- E|done].
Qed.

Lemma cpu_of_switched (k : kernel) (c curr nxt d : Z) (x : task) :
  0 <= c < MAX_CPU -> length (cpu_info k) = Z.to_nat MAX_CPU -> 0 <= d ->
  current_task (cpu_of (switched k c curr nxt x) d) = if d =? c then nxt else current_task (cpu_of k d).
Proof.
  intros Hc Hl Hd. unfold cpu_of at 1, switched. cbn [cpu_info]. destruct (Z.eqb_spec d c) as [->|Hne].
  - rewrite list_lookup_insert_eq by (unfold MAX_CPU in *; lia). done.
  - rewrite list_lookup_insert_ne by lia. done.
Qed.

Lemma tsk_switched (k : kernel) (c curr nxt a : Z) (x : task) :
  tsk (switched k c curr nxt x) a =
  if a =? nxt then assign (tsk k nxt) TASK_RUNNING c else if a =? curr then x else tsk k a.
Proof.
  unfold switched, tsk. cbn [store]. destruct (Z.eqb_spec a nxt) as [->|].
  { by rewrite lookup_insert_eq. }
  rewrite lookup_insert_ne by done. destruct (Z.eqb_spec a curr) as [->|].
  - by rewrite lookup_insert_eq.
  - by rewrite lookup_insert_ne.
Qed.

Lemma wf_switched (k : kernel) (l : list Z) (c curr nxt : Z) (x : task) :
  wf k l -> 0 <= c < MAX_CPU -> current_task (cpu_of k c) = curr -> curr ∈ l -> nxt ∈ l -> nxt <> curr -> nxt <> 0 ->
  state (tsk k nxt) <> TASK_RUNNING -> state x <> TASK_RUNNING -> same_place (tsk k curr) x ->
  wf (switched k c curr nxt x) l.
Proof.
  intros [Hm Hcp] Hc Hcur Hin1 Hin2 Hne H0 Hns Hxs Hp. split.
  - assert (Hm1 : wf_mem (set_task k curr x) l) by (by apply wf_mem_set).
    assert (Hm2 : wf_mem (set_task (set_task k curr x) nxt (assign (tsk k nxt) TASK_RUNNING c)) l).
    { apply wf_mem_set; [done|done|]. rewrite tsk_set_ne by congruence. done. }
    eapply wf_mem_same; [exact Hm2| | |done|done].
    + eapply ring_same; [apply Hm2|done|done].
    + intros a _. by left.
  - destruct Hcp as [Hl Hcu Hru].
    assert (Hcn : curr <> 0) by (intros ->; destruct Hm as [(_ & _ & Hz & _) _ _ _ _]; done).
    split; [cbn; by rewrite length_insert|..].
    + intros d Hd. rewrite cpu_of_switched by (done || lia). rewrite !tsk_switched.
      destruct (Z.eqb_spec d c) as [->|Hdc]; [rewrite Z.eqb_refl; done|]. intros Hd0.
      destruct (Hcu d Hd Hd0) as (Hind & Hst & Has).
      destruct (Z.eqb_spec (current_task (cpu_of k d)) nxt) as [E|]; [congruence|].
      destruct (Z.eqb_spec (current_task (cpu_of k d)) curr) as [E|]; [|done].
      exfalso. apply Hdc. eapply (current_unique k l); [by split|done|done|done|congruence].
    + intros a Ha. rewrite tsk_switched. destruct (Z.eqb_spec a nxt) as [->|].
      { intros _. split; [done|]. rewrite cpu_of_switched by (done || (cbn; lia)). cbn [cpu_assigned assign].
        by rewrite Z.eqb_refl. }
      destruct (Z.eqb_spec a curr) as [->|]; [done|]. intros Hst. destruct (Hru a Ha Hst) as [Hr1 Hr2].
      split; [done|]. rewrite cpu_of_switched by (done || lia).
      destruct (Z.eqb_spec (cpu_assigned (tsk k a)) c) as [E|]; [|done]. congruence.
Qed.

Lemma wf_stay (k : kernel) (l : list Z) (c esp wake : Z) :
  wf k l -> 0 <= c < MAX_CPU -> current_task (cpu_of k c) ∈ l ->
  wf (set_task k (current_task (cpu_of k c)) (saved (tsk k (current_task (cpu_of k c))) c esp TASK_RUNNING wake)) l.
Proof.
  intros [Hm [Hl Hcu Hru]] Hc Hin. set (curr := current_task (cpu_of k c)) in *.
  assert (Hcn : curr <> 0) by (intros E; destruct Hm as [(_ & _ & Hz & _) _ _ _ _]; rewrite E in Hin; done).
  split; [by apply wf_mem_set|]. split; [done|..]; change (cpu_of (set_task k curr _)) with (cpu_of k).
  - intros d Hd Hd0. destruct (Hcu d Hd Hd0) as (Hind & Hst & Has).
    destruct (decide (curr = current_task (cpu_of k d))) as [E|]; [|by rewrite tsk_set_ne].
    rewrite <- E, tsk_set_eq. split; [done|]. split; [done|]. cbn.
    eapply (current_unique k l); [by split|done|done|done|done].
  - intros a Ha. destruct (decide (curr = a)) as [<-|]; [rewrite tsk_set_eq; done|]. rewrite tsk_set_ne by done. auto.
Qed.

Lemma runnable_state (c : Z) (t : task) : runnable c t = true -> state t = TASK_READY /\ kernel_esp t <> 0.
Proof. unfold runnable. intros H. by zbool. Qed.

Lemma wf_switch (k k' : kernel) (l : list Z) (c esp ns wake r : Z) :
  wf k l -> 0 <= c < MAX_CPU -> ns <> TASK_RUNNING -> task_switch_from k c esp ns wake = Some (r, k') -> wf k' l.
Proof.
  intros Hw Hc Hns. pose proof Hw as [Hm Hcp]. destruct (Z.eq_dec (current_task (cpu_of k c)) 0) as [E0|Hn0].
  { unfold task_switch_from. rewrite E0. cbn. intros [= _ <-]. done. }
  destruct (wf_current k l Hcp c Hc Hn0) as (Hin & _ & _). destruct (elem_split _ _ Hin) as (l1 & l2 & El).
  rewrite (task_switch_from_spec k c (current_task (cpu_of k c)) esp ns wake l1 l2);
    [|done|apply Hcp|rewrite <- El; apply Hm|done].
  unfold switch_result. destruct (Z.eqb_spec (first_task k (fun _ t => runnable c t) (l2 ++ l1)) 0) as [E|Hne].
  - intros [= _ <-]. by apply wf_stay.
  - intros [= _ <-]. destruct (first_task_in k _ _ Hne) as [Hin2 Hrun]. apply runnable_state in Hrun as [Hst _].
    destruct (ring_after k (current_task (cpu_of k c)) l1 l2) as (_ & Hnot & _); [rewrite <- El; apply Hm|].
    apply wf_switched; try done.
    + rewrite El. apply elem_of_app. apply elem_of_app in Hin2 as [?|?]; [right; by right|by left].
    + intros E. rewrite E in Hin2. done.
    + rewrite Hst. done.
Qed.

(** ** Creation *)

Lemma push_words_spec (vs : list Z) (m : memory) (sp : Z) :
  4 * Z.of_nat (length vs) <= sp < 4294967296 ->
  exists m', push_words m sp vs = (m', sp - 4 * Z.of_nat (length vs)) /\
    mem_same m m' (fun a => a < sp - 4 * Z.of_nat (length vs) \/ sp <= a) /\
    forall i v, vs !! i = Some v -> load32 m' (sp - 4 * (Z.of_nat i + 1)) = u32 v.
Proof.
  revert m sp. induction vs as [|v vs IH]; intros m sp Hsp; cbn [length] in Hsp.
  { exists m. unfold push_words. cbn [fold_left length]. split; [f_equal; lia|]. split; [by intros a _|done]. }
  unfold push_words. cbn [fold_left]. rewrite u32_small by lia.
  destruct (IH (store32 m (sp - 4) v) (sp - 4)) as (m' & E & Hm & Hv); [lia|].
  exists m'. fold (push_words (store32 m (sp - 4) v) (sp - 4) vs). rewrite E. split; [f_equal; cbn [length]; lia|]. split.
  - cbn [length]. eapply mem_same_trans; eapply mem_same_weaken; [apply mem_same_store32| |apply Hm|]; intros a Ha; cbn beta in *; lia.
  - intros [|i] w Hi; cbn in Hi.
    + injection Hi as <-. rewrite (mem_same_load32 _ _ _ _ Hm) by lia.
      replace (sp - 4 * (Z.of_nat 0 + 1)) with (sp - 4) by lia. apply load32_store32_eq.
    + rewrite <- (Hv i w Hi). f_equal. lia.
Qed.

Lemma with_frames_same (v : vm pfa) : with_frames v (frames v) = v.
Proof. by destruct v. Qed.

Lemma set_mm_same (k : kernel) : set_mm k (mm k) = k.
Proof. by destruct k. Qed.

(** The tasks and their memory stay well formed when the allocator changes
    but keeps their frames, and when structures outside the list change. *)
Lemma wf_mem_frames (k k' : kernel) (l : list Z) :
  wf_mem k l -> ring k' l -> (forall a, a ∈ l -> tsk k' a = tsk k a) ->
  kernel_page_dir (mm k') = kernel_page_dir (mm k) -> pfa_inv (frames (mm k')) -> total k' = total k ->
  (forall g, 0 < g < total k -> in_use k g = true -> in_use k' g = true) ->
  wf_mem k' l.
Proof.
  intros Hw Hr' Ht Ed Hp' Et Hu. eapply wf_mem_step; [done|done| |done|done|done|eauto].
  intros a Ha. by rewrite Ht.
Qed.

Lemma wf_cpu_same (k k' : kernel) (l l' : list Z) :
  wf_cpu k l -> cpu_info k' = cpu_info k -> (forall a, a ∈ l -> a ∈ l') ->
  (forall a, a ∈ l -> state (tsk k' a) = state (tsk k a) /\ cpu_assigned (tsk k' a) = cpu_assigned (tsk k a)) ->
  (forall a, a ∈ l' -> a ∉ l -> state (tsk k' a) <> TASK_RUNNING) -> wf_cpu k' l'.
Proof.
  intros [Hl Hc Hr] Ei Hsub Ht Hn.
  assert (Eo : forall c, cpu_of k' c = cpu_of k c) by (intros; unfold cpu_of; by rewrite Ei).
  split; [by rewrite Ei|..].
  - intros c Hc1. rewrite Eo. intros H0. destruct (Hc c Hc1 H0) as (Hin & ? & ?).
    destruct (Ht _ Hin) as [-> ->]. auto.
  - intros a Ha. destruct (decide (a ∈ l)) as [Hin|Hin]; [|intros; by destruct (Hn a Ha Hin)].
    destruct (Ht a Hin) as [-> ->]. rewrite Eo. auto.
Qed.

(** A frame the allocator hands out belongs to no task. *)
Lemma fresh_not_in (k : kernel) (l : list Z) (f : Z) : wf_mem k l -> in_use k f = false -> f * FRAME_SIZE ∉ l.
Proof.
  intros Hw Hf Hin. destruct (wf_frame k l Hw _ Hin) as (g & E & _ & Hu).
  assert (f = g) as -> by (unfold FRAME_SIZE in E; lia). congruence.
Qed.

(** What [task_create] builds: the task structure in a fresh frame [t], the
    stack in four fresh frames, with the frame that the interrupt return of
    the first switch will pop. *)
Record created (k k' : kernel) (t stack entry : Z) : Prop := {
  cr_task : tsk k' t = mkTask (next_pid k) TASK_READY (-1) (kernel_page_dir (mm k))
                         (stack + TASK_STACK_SIZE - 68) stack 0 (next (tsk k' t));
  cr_frame : exists f, t = f * FRAME_SIZE /\ 0 < f < total k /\ in_use k f = false;
  cr_stack : exists s, stack = s * FRAME_SIZE /\ 0 < s /\ s + 4 <= total k /\
    (forall g, s <= g < s + 4 -> in_use k g = false /\ g * FRAME_SIZE <> t) ;
  cr_used : forall g, 0 <= g ->
    in_use k' g = in_use k g || (g =? FRAME t) || (FRAME stack <=? g) && (g <? FRAME stack + 4);
  cr_words : map (fun i => load32 (vmem (mm k')) (stack + TASK_STACK_SIZE - 68 + 4 * i)) (seqZ 0 17)
    = [48; 16; 16; 16; 0; 0; 0; 0; 0; 0; 0; 0; 0; 0; u32 entry; 8; 514];
  cr_mem : mem_same (vmem (mm k)) (vmem (mm k')) (fun a => a < stack + TASK_STACK_SIZE - 68 \/ stack + TASK_STACK_SIZE <= a);
  cr_pid : next_pid k' = u32 (next_pid k + 1) }.

Lemma alloc_task_spec (k k1 : kernel) (t : Z) :
  pfa_inv (frames (mm k)) -> alloc_task k = (t, k1) ->
  (t = 0 /\ k1 = k) \/
  exists f fr, t = f * FRAME_SIZE /\ 0 < f < total k /\ in_use k f = false /\ pfa_inv fr /\
    total_frames fr = total k /\ (forall g, 0 <= g -> used fr g = (g =? f) || in_use k g) /\
    k1 = mkKernel (<[t := mkTask (next_pid k) 0 (-1) 0 0 0 0 0]> (store k)) (ready_head k)
           (u32 (next_pid k + 1)) (cpu_info k) (tick_count k) (with_frames (mm k) fr).
Proof.
  intros Hp. unfold alloc_task. destruct (alloc_frame (frames (mm k))) as [a fr] eqn:E.
  destruct (Z.eqb_spec a 0) as [->|Hne]; intros [= <- <-].
  - left. split; [done|]. destruct (alloc_frame_none _ _ Hp E) as [-> _].
    by rewrite with_frames_same, set_mm_same.
  - right. destruct (alloc_frame_some _ _ _ Hp E Hne) as (f & ? & ? & ? & _ & ? & ? & ?).
    exists f, fr. done.
Qed.

(** Where [task_create] links the new task *)
Definition insert_after (l : list Z) (t : Z) : list Z := match l with [] => [t] | h :: l' => h :: t :: l' end.

Lemma elem_insert_after (l : list Z) (t a : Z) : a ∈ insert_after l t <-> a = t \/ a ∈ l.
Proof. destruct l; cbn [insert_after]; rewrite ?elem_of_cons; tauto. Qed.

Lemma ring_store_other (k : kernel) (l : list Z) (t : Z) (x : task) p ci tc v :
  ring k l -> t ∉ l -> ring (mkKernel (<[t := x]> (store k)) (ready_head k) p ci tc v) l.
Proof. intros (Hs & ? & ? & ?) Ht. split; [|done]. by apply seg_insert_other. Qed.

(** Read upwards from the stack pointer, the words are in reverse order. *)
Lemma push_words_map (vs : list Z) (m' : memory) (sp : Z) :
  (forall i v, vs !! i = Some v -> load32 m' (sp - 4 * (Z.of_nat i + 1)) = u32 v) ->
  map (fun i => load32 m' (sp - 4 * Z.of_nat (length vs) + 4 * i)) (seqZ 0 (Z.of_nat (length vs)))
    = reverse (u32 <$> vs).
Proof.
  intros Hv. apply list_eq. intros i. change (map ?f ?l) with (f <$> l). rewrite list_lookup_fmap.
  destruct (decide (i < length vs)%nat) as [Hi|Hi].
  - rewrite lookup_seqZ_lt, reverse_lookup by (rewrite ?length_fmap; lia). cbn [fmap option_fmap option_map].
    rewrite length_fmap, list_lookup_fmap.
    destruct (lookup_lt_is_Some_2 vs (length vs - S i)) as [v Ev]; [lia|].
    rewrite Ev. cbn. f_equal. rewrite <- (Hv _ v Ev). f_equal. lia.
  - rewrite lookup_seqZ_ge by lia. symmetry. apply lookup_ge_None. rewrite length_reverse, length_fmap. lia.
Qed.

Lemma initial_frame_words (m : memory) (top entry : Z) :
  68 <= top < 4294967296 ->
  exists m', push_words m top (initial_frame entry) = (m', top - 68) /\
    mem_same m m' (fun a => a < top - 68 \/ top <= a) /\
    map (fun i => load32 m' (top - 68 + 4 * i)) (seqZ 0 17)
      = [48; 16; 16; 16; 0; 0; 0; 0; 0; 0; 0; 0; 0; 0; u32 entry; 8; 514].
Proof.
  intros Ht. destruct (push_words_spec (initial_frame entry) m top) as (m' & E & Hm & Hv); [cbn; lia|].
  exists m'. split; [done|]. split; [done|]. exact (push_words_map _ _ _ Hv).
Qed.

Lemma create_fail (k : kernel) (l : list Z) (f : Z) (fr : pfa) (x : task) :
  wf k l -> 0 < f < total k -> in_use k f = false -> pfa_inv fr -> total_frames fr = total k ->
  (forall g, 0 <= g -> used fr g = (g =? f) || in_use k g) ->
  let k' := mkKernel (<[f * FRAME_SIZE := x]> (store k)) (ready_head k) (u32 (next_pid k + 1)) (cpu_info k)
              (tick_count k) (with_frames (mm k) (free_frame fr (f * FRAME_SIZE))) in
  wf k' l /\ (forall g, 0 <= g < total k -> in_use k' g = in_use k g) /\ (forall a, a ∈ l -> tsk k' a = tsk k a).
Proof.
  intros [Hm Hc] Hf Hfree Hp Ht Hu k'. pose proof (fresh_not_in k l f Hm Hfree) as Hn.
  destruct (free_frame_spec fr (f * FRAME_SIZE) Hp) as (Hp' & Ht' & Hu'); [unfold FRAME_SIZE; lia|].
  assert (Hg : forall g, 0 <= g < total k -> in_use k' g = in_use k g).
  { intros g Hg. unfold in_use at 1, k'. cbn [mm frames with_frames]. rewrite Hu', Hu by lia.
    rewrite Z.div_mul by (unfold FRAME_SIZE; lia). destruct (Z.eqb_spec g f) as [->|]; [by rewrite Hfree|done]. }
  assert (Htk : forall a, a ∈ l -> tsk k' a = tsk k a).
  { intros a Ha. unfold tsk, k'. cbn [store]. rewrite lookup_insert_ne; [done|]. intros <-. done. }
  split; [split|split; done].
  - eapply wf_mem_frames; [done|by apply ring_store_other; [apply Hm|]|done|done|done|..].
    + unfold total, k'. cbn [mm frames with_frames]. by rewrite Ht', Ht.
    + intros g Hg1 Hg2. rewrite Hg by lia. done.
  - eapply wf_cpu_same; [done|done|done| |done]. intros a Ha. by rewrite Htk.
Qed.

(** A new task [t] joins the list: its structure and its stack are in frames
    that no other task has. *)
Lemma wf_mem_add (k k' : kernel) (l : list Z) (t : Z) :
  wf_mem k l -> relinked k k' -> ring k' (insert_after l t) ->
  page_dir (tsk k t) = kernel_page_dir (mm k) -> owned_frame k t ->
  (forall a g, a ∈ l -> stack_frame (tsk k a) g -> g * FRAME_SIZE <> t) ->
  (forall g, stack_frame (tsk k t) g -> 0 < g < total k /\ in_use k g = true /\ g * FRAME_SIZE <> t /\
     (g * FRAME_SIZE ∉ l) /\ forall b, b ∈ l -> ~ stack_frame (tsk k b) g) ->
  wf_mem k' (insert_after l t).
Proof.
  intros Hm (Hrt & _ & Em & _ & _) Hr' Hdir Hown Hold Hnew.
  assert (Hfld : forall a, page_dir (tsk k' a) = page_dir (tsk k a) /\
    forall g, stack_frame (tsk k' a) g <-> stack_frame (tsk k a) g).
  { intros a. specialize (Hrt a). unfold same_task, with_next in Hrt. injection Hrt as _ _ _ E1 _ E2 _.
    unfold stack_frame. by rewrite E1, E2. }
  split; [exact Hr'|rewrite Em; apply Hm|..]; unfold owned_frame, in_use, total; rewrite ?Em.
  - intros a Ha. destruct (Hfld a) as [-> _]. apply elem_insert_after in Ha as [->|Ha]; [done|].
    apply (wf_dir k l Hm a Ha).
  - intros a Ha. apply elem_insert_after in Ha as [->|Ha]; [done|]. apply (wf_frame k l Hm a Ha).
  - intros a g Ha Hg. apply (Hfld a) in Hg. rewrite elem_insert_after.
    apply elem_insert_after in Ha as [->|Ha].
    + destruct (Hnew g Hg) as (H1 & H2 & H3 & H4 & H5). split; [done|]. split; [done|].
      split; [by intros [?|?]|]. intros b Hb Hbg. apply (Hfld b) in Hbg.
      apply elem_insert_after in Hb as [->|Hb]; [done|]. by destruct (H5 b Hb).
    + destruct (wf_stack k l Hm a g Ha Hg) as (H1 & H2 & H3 & H4). split; [done|]. split; [done|].
      split; [intros [?|?]; [by apply (Hold a g)|done]|]. intros b Hb Hbg. apply (Hfld b) in Hbg.
      apply elem_insert_after in Hb as [->|Hb]; [|eauto]. destruct (Hnew g Hbg) as (_ & _ & _ & _ & H5).
      by destruct (H5 a Ha).
Qed.

Lemma create_ok (k : kernel) (l : list Z) (f s : Z) (fr fr' : pfa) (m' : memory) (sp entry : Z) :
  wf k l -> 0 < f < total k -> in_use k f = false ->
  (forall g, 0 <= g -> used fr g = (g =? f) || in_use k g) ->
  0 < s -> s + 4 <= total k -> (forall g, s <= g < s + 4 -> used fr g = false) ->
  pfa_inv fr' -> total_frames fr' = total k ->
  (forall g, 0 <= g -> used fr' g = (s <=? g) && (g <? s + 4) || used fr g) ->
  let t := f * FRAME_SIZE in
  let x := mkTask (next_pid k) TASK_READY (-1) (kernel_page_dir (mm k)) sp (s * FRAME_SIZE) 0 0 in
  let k4 := mkKernel (<[t := x]> (store k)) (ready_head k) (u32 (next_pid k + 1)) (cpu_info k)
              (tick_count k) (with_mem (with_frames (mm k) fr') m') in
  wf (ring_insert k4 t) (insert_after l t) /\ relinked k4 (ring_insert k4 t) /\
  (forall a, a ∈ l -> same_task (tsk k a) (tsk (ring_insert k4 t) a)).
Proof.
  intros [Hm Hc] Hf Hfree Hu Hs0 Hs4 Hsf Hp Ht Hu' t x k4.
  pose proof (fresh_not_in k l f Hm Hfree) as Hn. fold t in Hn.
  assert (Htk : forall a, a ∈ l -> tsk k4 a = tsk k a).
  { intros a Ha. unfold tsk, k4. cbn [store]. rewrite lookup_insert_ne; [done|]. intros <-. done. }
  assert (Htt : tsk k4 t = x) by (unfold tsk, k4; cbn [store]; by rewrite lookup_insert_eq).
  assert (Hiu : forall g, 0 <= g -> in_use k4 g = (s <=? g) && (g <? s + 4) || (g =? f) || in_use k g).
  { intros g Hg. unfold in_use at 1, k4. cbn [mm frames with_mem with_frames]. rewrite Hu', Hu by done.
    by rewrite orb_assoc. }
  assert (Hr4 : ring k4 l) by (apply ring_store_other; [apply Hm|done]).
  assert (Hm4 : wf_mem k4 l).
  { eapply wf_mem_frames; [done|done|done|done|done|done|]. intros g Hg1 Hg2. rewrite Hiu by lia.
    rewrite Hg2. by rewrite !orb_true_r. }
  assert (Hst : forall g, stack_frame x g <-> s <= g < s + 4).
  { intros g. unfold stack_frame. cbn [x kernel_stack_base]. unfold FRAME. rewrite Z.div_mul by (unfold FRAME_SIZE; lia).
    split; [tauto|]. intros H. split; [unfold FRAME_SIZE; lia|done]. }
  assert (Hnew : forall g, s <= g < s + 4 -> in_use k g = false /\ g <> f).
  { intros g Hg. specialize (Hsf g Hg). rewrite Hu in Hsf by lia. apply orb_false_iff in Hsf as [H1 H2].
    zbool. done. }
  destruct (ring_insert_spec k4 l t x Hr4 Hn) as [Hr' Hrel];
    [unfold t, FRAME_SIZE; lia|unfold k4; cbn [store]; by rewrite lookup_insert_eq|].
  assert (Hsame : forall a, a ∈ l -> same_task (tsk k a) (tsk (ring_insert k4 t) a)).
  { intros a Ha. rewrite <- (Htk a Ha). apply Hrel. }
  split; [|split; done]. pose proof Hrel as (Hrt & Ei & _). split.
  - assert (Htot : total k4 = total k) by exact Ht.
    apply (wf_mem_add k4); [done|done|done|by rewrite Htt|..].
    + exists f. split; [done|]. rewrite Htot, Hiu, Z.eqb_refl, orb_true_r by lia. done.
    + intros a g Ha Hg E. rewrite Htk in Hg by done. destruct (wf_stack k l Hm a g Ha Hg) as (_ & Hg2 & _).
      assert (g = f) by (unfold t, FRAME_SIZE in E; lia). congruence.
    + intros g Hg. rewrite Htt in Hg. apply Hst in Hg. destruct (Hnew g Hg) as [Hgf Hgne]. split; [lia|].
      split; [rewrite Hiu, (proj2 (Z.leb_le _ _)), (proj2 (Z.ltb_lt _ _)) by lia; done|].
      split; [unfold t, FRAME_SIZE; lia|]. split; [by apply (fresh_not_in k)|].
      intros b Hb Hbg. rewrite Htk in Hbg by done.
      destruct (wf_stack k l Hm b g Hb Hbg) as (_ & Hg3 & _). congruence.
  - eapply wf_cpu_same; [exact Hc|rewrite Ei; done|intros a Ha; apply elem_insert_after; by right|..].
    + intros a Ha. pose proof (Hsame a Ha) as E. unfold same_task, with_next in E. by injection E.
    + intros a Ha Hna. apply elem_insert_after in Ha as [->|?]; [|done].
      pose proof (Hrt t) as E. rewrite Htt in E. unfold same_task, with_next in E.
      injection E as _ E _. rewrite E. done.
Qed.

Lemma same_task_eq (t t' : task) : same_task t t' -> t' = with_next t (next t').
Proof. intros H. unfold same_task, with_next in *. injection H as ? ? ? ? ? ? ?. destruct t'; cbn in *. congruence. Qed.

Lemma task_create_spec (k k' : kernel) (l : list Z) (entry t : Z) :
  wf k l -> task_create k entry = (t, k') ->
  (t = 0 /\ wf k' l /\ (forall g, 0 <= g < total k -> in_use k' g = in_use k g) /\
     forall a, a ∈ l -> tsk k' a = tsk k a) \/
  exists stack, created k k' t stack entry /\ wf k' (insert_after l t) /\ t <> 0 /\
    (forall a, a ∈ l -> same_task (tsk k a) (tsk k' a)) /\ cpu_info k' = cpu_info k.
Proof.
  intros Hw. pose proof Hw as [Hm _]. pose proof (wf_pfa k l Hm) as Hp. unfold task_create.
  destruct (alloc_task k) as [a k1] eqn:E1.
  destruct (alloc_task_spec k k1 a Hp E1) as [[-> ->]|(f & fr & Ea & Hf & Hff & Hpf & Htf & Huf & ->)].
  { cbn [Z.eqb]. intros [= <- <-]. left. done. }
  assert (Hane : a <> 0) by (unfold FRAME_SIZE in Ea; lia).
  destruct (Z.eqb_spec a 0); [done|]. cbn [mm frames with_frames].
  change (Z.shiftr TASK_STACK_SIZE 12) with 4. destruct (alloc_frames fr 4) as [b fr'] eqn:E2.
  destruct (Z.eqb_spec b 0) as [->|Hb].
  { destruct (alloc_frames_none fr fr' 4 Hpf ltac:(lia) E2) as [-> _]. intros [= <- <-]. left.
    split; [done|]. rewrite Ea. exact (create_fail k l f fr _ Hw Hf Hff Hpf Htf Huf). }
  destruct (alloc_frames_some fr fr' 4 b Hpf ltac:(lia) E2 Hb) as (s & Eb & Hs0 & Hs4 & _ & Hsf & Hp' & Ht' & Hu').
  rewrite Htf in Hs4. assert (Htot : total k <= MAX_FRAMES) by (unfold total; destruct Hp as (_ & _ & ? & _); lia).
  assert (Htop : b + TASK_STACK_SIZE < 4294967296) by (unfold TASK_STACK_SIZE, FRAME_SIZE, MAX_FRAMES in *; lia).
  rewrite (u32_small (b + TASK_STACK_SIZE)) by (unfold TASK_STACK_SIZE, FRAME_SIZE in *; lia). cbn [set_mm mm with_frames vmem].
  destruct (initial_frame_words (vmem (mm k)) (b + TASK_STACK_SIZE) entry) as (m' & Em & Hmem & Hwords);
    [unfold TASK_STACK_SIZE, FRAME_SIZE in *; lia|]. rewrite Em.
  destruct (create_ok k l f s fr fr' m' (s * FRAME_SIZE + TASK_STACK_SIZE - 68) entry Hw Hf Hff Huf Hs0 Hs4 Hsf Hp'
              ltac:(lia) Hu') as (Hwf & Hrel & Hsame). cbv zeta in Hwf, Hrel, Hsame.
  set (k4 := mkKernel _ _ _ _ _ _) in Hwf, Hrel, Hsame.
  match goal with |- context [ring_insert ?X a] => assert (EX : X = k4) end.
  { unfold k4, set_task, tsk. cbn [set_mm store ready_head next_pid cpu_info tick_count mm].
    rewrite lookup_insert_eq, insert_insert_eq, Ea, Eb. reflexivity. }
  rewrite EX. intros [= <- <-]. right. exists b. rewrite Ea, Eb in *. destruct Hrel as (Hrt & Ei & Emm & Epid & _).
  split; [|split; [exact Hwf|split; [done|split; [exact Hsame|by rewrite Ei]]]].
  split.
  - pose proof (same_task_eq _ _ (Hrt (f * FRAME_SIZE))) as E. rewrite E at 1.
    replace (tsk k4 (f * FRAME_SIZE)) with (mkTask (next_pid k) TASK_READY (-1) (kernel_page_dir (mm k))
      (s * FRAME_SIZE + TASK_STACK_SIZE - 68) (s * FRAME_SIZE) 0 0)
      by (unfold tsk, k4; cbn [store]; by rewrite lookup_insert_eq). done.
  - by exists f.
  - exists s. split; [done|]. split; [done|]. split; [done|]. intros g Hg. pose proof (Hsf g Hg) as Hfree.
    rewrite Huf in Hfree by lia. apply orb_false_iff in Hfree as [H1 H2]. zbool. split; [done|]. unfold FRAME_SIZE. lia.
  - intros g Hg. unfold in_use at 1. rewrite Emm. unfold k4. cbn [mm frames with_mem with_frames].
    rewrite Hu', Huf by done. unfold FRAME. rewrite !Z.div_mul by (unfold FRAME_SIZE; lia).
    destruct (in_use k g), (g =? f), ((s <=? g) && (g <? s + 4)); done.
  - rewrite Emm. exact Hwords.
  - rewrite Emm. exact Hmem.
  - exact Epid.
Qed.

(** ** Wake-ups *)

(** A task after the wake-up scan at tick [n] *)
Definition woken (n : Z) (t : task) : task :=
  if (state t =? TASK_BLOCKED) && negb (wakeup_tick t =? 0) && (wakeup_tick t <=? n)
  then mkTask (pid t) TASK_READY (cpu_assigned t) (page_dir t) (kernel_esp t) (kernel_stack_base t) 0 (next t)
  else t.

Lemma woken_idem (n : Z) (t : task) : woken n (woken n t) = woken n t.
Proof.
  unfold woken at 2 3. destruct (_ && _) eqn:E; [done|]. unfold woken. by rewrite E.
Qed.

Lemma woken_place (n : Z) (t : task) : same_place t (woken n t).
Proof. unfold woken. by destruct (_ && _). Qed.

Lemma woken_state (n : Z) (t : task) :
  woken n t = t \/ state t = TASK_BLOCKED /\ state (woken n t) = TASK_READY.
Proof. unfold woken. destruct (_ && _) eqn:E; [|by left]. zbool. by right. Qed.

Lemma tsk_wake (a b : Z) (k : kernel) :
  tsk (wake a k) b = if b =? a then woken (tick_count k) (tsk k a) else tsk k b.
Proof.
  unfold wake, woken. destruct (_ && _); destruct (Z.eqb_spec b a) as [->|]; try done.
  - by rewrite tsk_set_eq.
  - by rewrite tsk_set_ne.
Qed.

(** Everything but the task records *)
Definition same_rest (k k' : kernel) : Prop :=
  ready_head k' = ready_head k /\ next_pid k' = next_pid k /\ cpu_info k' = cpu_info k /\
  tick_count k' = tick_count k /\ mm k' = mm k.

Lemma wake_rest (a : Z) (k : kernel) : same_rest k (wake a k).
Proof. unfold wake. by destruct (_ && _). Qed.

Lemma wake_next (a : Z) (k : kernel) (b : Z) : next (tsk (wake a k) b) = next (tsk k b).
Proof. rewrite tsk_wake. destruct (Z.eqb_spec b a) as [->|]; [apply woken_place|done]. Qed.

Lemma wake_all (l : list Z) (k : kernel) :
  let k' := fold_left (fun k a => wake a k) l k in
  same_rest k k' /\
  forall b, tsk k' b = if bool_decide (b ∈ l) then woken (tick_count k) (tsk k b) else tsk k b.
Proof.
  revert k. induction l as [|a l IH]; intros k; cbn [fold_left]; [done|].
  destruct (IH (wake a k)) as [Hr Hb]. cbv zeta in *.
  destruct (wake_rest a k) as (E1 & E2 & E3 & E4 & E5). split.
  - destruct Hr as (? & ? & ? & ? & ?). repeat split; congruence.
  - intros b. rewrite Hb, E4, !tsk_wake. case_bool_decide as H1; case_bool_decide as H2.
    + destruct (Z.eqb_spec b a) as [->|]; [apply woken_idem|done].
    + destruct H2. by right.
    + apply elem_of_cons in H2 as [->|?]; [|done]. by rewrite Z.eqb_refl.
    + destruct (Z.eqb_spec b a) as [->|]; [|done]. destruct H2. left.
Qed.

Lemma ring_cons_split (k : kernel) (l : list Z) :
  ring k l -> l <> [] -> exists l', l = ready_head k :: l' /\ seg (store k) (ready_head k) l (ready_head k) /\
    (ready_head k ∉ l') /\ (length l' < ring_fuel k)%nat.
Proof.
  intros Hr Hl. pose proof (ring_length k l Hr) as Hlen. destruct Hr as (Hs & Hnd & _).
  destruct l as [|h l']; [done|]. pose proof (seg_head _ _ _ _ _ Hs) as Eh. exists l'. rewrite <- Eh in *.
  apply NoDup_cons in Hnd as [Hn _]. cbn [length] in Hlen. split; [done|]. split; [done|]. split; [done|lia].
Qed.

Lemma task_foreach_spec (k : kernel) (l : list Z) (f : Z -> kernel -> kernel) :
  ring k l -> (forall a k b, next (tsk (f a k) b) = next (tsk k b)) ->
  task_foreach k f = Some (fold_left (fun k a => f a k) l k).
Proof.
  intros Hr Hf. unfold task_foreach. rewrite (ring_empty k l Hr). destruct (decide (l = [])) as [->|Hne]; [done|].
  destruct (ring_cons_split k l Hr Hne) as (l' & E & Hs & Hn & Hl). rewrite E in *.
  by apply ring_walk_spec.
Qed.

Lemma wake_ring (l l' : list Z) (k : kernel) :
  ring k l -> (forall a, a ∈ l' -> a ∈ l) -> ring (fold_left (fun k a => wake a k) l' k) l.
Proof.
  revert k. induction l' as [|a l' IH]; intros k Hr Hin; [done|]. cbn [fold_left].
  apply IH; [|intros b Hb; apply Hin; by right]. unfold wake. destruct (_ && _); [|done].
  apply ring_set_same; [done|apply Hin; left|done].
Qed.

Lemma wf_cpu_states (k k' : kernel) (l : list Z) :
  wf_cpu k l -> length (cpu_info k') = length (cpu_info k) ->
  (forall c, 0 <= c -> current_task (cpu_of k' c) = current_task (cpu_of k c)) ->
  (forall a, a ∈ l -> tsk k' a = tsk k a \/ state (tsk k a) <> TASK_RUNNING /\ state (tsk k' a) <> TASK_RUNNING) ->
  wf_cpu k' l.
Proof.
  intros [Hl Hc Hr] El Ec Ht. split; [by rewrite El|..].
  - intros c Hc1. rewrite Ec by lia. intros H0. destruct (Hc c Hc1 H0) as (Hin & Hs & Ha).
    destruct (Ht _ Hin) as [->|[? _]]; done.
  - intros a Ha Hs. destruct (Ht a Ha) as [E|[_ ?]]; [|done]. rewrite E in *.
    destruct (Hr a Ha Hs) as [H1 H2]. rewrite Ec by lia. done.
Qed.

Lemma wf_same_tasks (k k' : kernel) (l : list Z) :
  wf k l -> store k' = store k -> ready_head k' = ready_head k ->
  frames (mm k') = frames (mm k) -> kernel_page_dir (mm k') = kernel_page_dir (mm k) ->
  length (cpu_info k') = length (cpu_info k) ->
  (forall c, 0 <= c -> current_task (cpu_of k' c) = current_task (cpu_of k c)) -> wf k' l.
Proof.
  intros [Hm Hc] Es Eh Ef Ed El Ec. assert (Et : forall a, tsk k' a = tsk k a) by (intros; unfold tsk; by rewrite Es).
  split.
  - eapply wf_mem_same; [done|by eapply ring_same; [apply Hm|..]| |done|done].
    intros a _. left. by rewrite Et.
  - eapply wf_cpu_states; [done|done|done|]. intros a _. left. by rewrite Et.
Qed.

Lemma wf_wake_all (k : kernel) (l : list Z) : wf k l -> wf (fold_left (fun k a => wake a k) l k) l.
Proof.
  intros [Hm Hc]. destruct (wake_all l k) as [(E1 & E2 & E3 & E4 & E5) Hb]. cbv zeta in Hb.
  set (k' := fold_left _ l k) in *.
  assert (Ht : forall a, a ∈ l -> tsk k' a = woken (tick_count k) (tsk k a)).
  { intros a Ha. rewrite Hb. by rewrite bool_decide_eq_true_2. }
  split.
  - eapply wf_mem_same; [done|by apply wake_ring; [apply Hm|]| |by rewrite E5|by rewrite E5].
    intros a Ha. left. rewrite Ht by done. apply woken_place.
  - eapply wf_cpu_states; [done|by rewrite E3|intros; unfold cpu_of; by rewrite E3|].
    intros a Ha. rewrite Ht by done. destruct (woken_state (tick_count k) (tsk k a)) as [E|[-> ->]]; [by left|by right].
Qed.

Lemma set_resched (k : kernel) (c d : Z) (b : bool) :
  0 <= c -> 0 <= d ->
  current_task (cpu_of (set_cpu k c (mkCpu (current_task (cpu_of k c)) b (esp0 (cpu_of k c)))) d)
    = current_task (cpu_of k d).
Proof.
  intros Hc Hd. destruct (decide (c = d)) as [<-|]; [|by rewrite cpu_of_set_ne].
  destruct (decide (Z.to_nat c < length (cpu_info k))%nat) as [Hl|Hl]; [by rewrite cpu_of_set_eq|].
  unfold cpu_of. cbn [set_cpu cpu_info]. by rewrite list_insert_ge by lia.
Qed.

(** One timer interrupt: its effect on the tasks, the tick and the flag *)
Lemma timer_handler_spec (k : kernel) (l : list Z) (c n : Z) (free : bool) :
  wf k l -> 0 <= c < MAX_CPU ->
  exists k', timer_handler k c n free = Some ((c =? 0) && (1 <? n), k') /\ wf k' l /\
    tick_count k' = (if c =? 0 then u32 (tick_count k + 1) else tick_count k) /\
    resched_pending (cpu_of k' c) = true /\
    forall a, tsk k' a = if (c =? 0) && free && bool_decide (a ∈ l)
                         then woken (u32 (tick_count k + 1)) (tsk k a) else tsk k a.
Proof.
  intros Hw Hc. unfold timer_handler.
  set (k0 := if c =? 0 then _ else k).
  assert (Hw0 : wf k0 l) by (unfold k0; destruct (c =? 0); [by apply (wf_same_tasks k)|done]).
  assert (Et0 : forall a, tsk k0 a = tsk k a) by (unfold k0; by destruct (c =? 0)).
  assert (En0 : tick_count k0 = if c =? 0 then u32 (tick_count k + 1) else tick_count k) by (unfold k0; by destruct (c =? 0)).
  assert (E : exists k1, (if (c =? 0) && free then task_foreach k0 wake else Some k0) = Some k1 /\ wf k1 l /\
    tick_count k1 = tick_count k0 /\
    forall a, tsk k1 a = if (c =? 0) && free && bool_decide (a ∈ l) then woken (tick_count k0) (tsk k0 a) else tsk k0 a).
  { destruct ((c =? 0) && free); [|by exists k0]. eexists.
    rewrite (task_foreach_spec k0 l) by (apply Hw0 || (intros; apply wake_next)). split; [done|].
    destruct (wake_all l k0) as [(_ & _ & _ & E4 & _) Hb]. split; [by apply wf_wake_all|]. split; [done|]. exact Hb. }
  destruct E as (k1 & -> & Hw1 & En1 & Et1). eexists. split; [reflexivity|].
  split; [apply (wf_same_tasks k1); [done..|cbn; by rewrite length_insert|intros; apply set_resched; lia]|].
  split; [cbn; by rewrite En1, En0|].
  split; [rewrite cpu_of_set_eq; [done|]; destruct Hw1 as [_ [-> _ _]]; unfold MAX_CPU in *; lia|].
  intros a. change (tsk (set_cpu k1 c _) a) with (tsk k1 a). rewrite Et1, Et0, En0. by destruct (c =? 0).
Qed.

(** ** Releasing a task's memory *)

(** [F] frees exactly the frames of [S] (frame 0 is never handed out). *)
Definition frees (F : pfa -> pfa) (S : Z -> bool) : Prop :=
  forall p, pfa_inv p -> pfa_inv (F p) /\ total_frames (F p) = total_frames p /\
    forall g, 0 < g < total_frames p -> used (F p) g = used p g && negb (S g).

Lemma frees_id : frees (fun p => p) (fun _ => false).
Proof. intros p Hp. split; [done|]. split; [done|]. intros. by rewrite andb_true_r. Qed.

Lemma frees_comp (F G : pfa -> pfa) (S T : Z -> bool) :
  frees F S -> frees G T -> frees (fun p => G (F p)) (fun g => S g || T g).
Proof.
  intros HF HG p Hp. destruct (HF p Hp) as (H1 & H2 & H3). destruct (HG _ H1) as (H4 & H5 & H6).
  split; [done|]. split; [lia|]. intros g Hg. rewrite H6, H3 by lia. by rewrite negb_orb, andb_assoc.
Qed.

Lemma frees_ext (F G : pfa -> pfa) (S T : Z -> bool) :
  frees F S -> (forall p, G p = F p) -> (forall g, 0 < g -> T g = S g) -> frees G T.
Proof.
  intros HF EG ES p Hp. rewrite EG. destruct (HF p Hp) as (H1 & H2 & H3).
  split; [done|]. split; [done|]. intros g Hg. rewrite ES by lia. auto.
Qed.

Lemma frees_frame (a : Z) : a mod FRAME_SIZE = 0 -> 0 <= a -> frees (fun p => free_frame p a) (fun g => g =? FRAME a).
Proof.
  intros Hm Ha p Hp. destruct (Z.eq_dec a 0) as [->|Hne].
  - split; [done|]. split; [done|]. intros g Hg. change (FRAME 0) with 0. change (free_frame p 0) with p.
    destruct (Z.eqb_spec g 0); [lia|]. by rewrite andb_true_r.
  - destruct (free_frame_spec p a Hp) as (H1 & H2 & H3); [unfold FRAME_SIZE in *; div_mod_lia|].
    split; [done|]. split; [done|]. intros g Hg. rewrite H3 by lia. unfold FRAME. by rewrite andb_comm.
Qed.

Lemma frees_frames (a n : Z) :
  FRAME_SIZE <= a < 4294967296 -> 0 <= n <= 1024 ->
  frees (fun p => free_frames p a n) (fun g => (FRAME a <=? g) && (g <? FRAME a + n)).
Proof.
  intros Ha Hn p Hp. destruct (free_frames_spec p a n Hp Ha) as (H1 & H2 & H3); [lia|unfold FRAME, FRAME_SIZE in *; div_mod_lia|].
  split; [done|]. split; [done|]. intros g Hg. rewrite H3 by lia. by rewrite andb_comm.
Qed.

Lemma frees_loop (body : Z -> pfa -> pfa) (S : Z -> Z -> bool) (n : nat) (i : Z) :
  (forall j, i <= j < i + Z.of_nat n -> frees (body j) (S j)) ->
  frees (for_up n i 1 body) (fun g => existsb (fun j => S j g) (seqZ i (Z.of_nat n))).
Proof.
  revert i. induction n as [|n IH]; intros i Hb.
  { eapply frees_ext; [apply frees_id|done|done]. }
  cbn [for_up]. eapply frees_ext.
  - apply (frees_comp (body i) (for_up n (i + 1) 1 body)); [apply Hb; lia|apply IH; intros; apply Hb; lia].
  - done.
  - intros g _. rewrite seqZ_cons by lia. cbn [existsb]. f_equal. f_equal. f_equal; lia.
Qed.

Lemma frees_if (b : bool) (F : pfa -> pfa) (S : Z -> bool) :
  (b = true -> frees F S) -> frees (fun p => if b then F p else p) (fun g => b && S g).
Proof. destruct b; intros H; [by apply H|apply frees_id]. Qed.

(** The frames of a page table and of a user directory: the pages, the
    tables and the directory itself, of the entries that are not the
    kernel's *)
Definition table_frames (m : memory) (pt g : Z) : bool :=
  existsb (fun j => present (entry m pt j) && (g =? FRAME (frame_of (entry m pt j)))) (seqZ 0 1024) || (g =? FRAME pt).

Definition dir_frames (m : memory) (dir kdir g : Z) : bool :=
  existsb (fun i => negb (entry m dir i =? entry m kdir i) &&
                    (present (entry m dir i) && table_frames m (frame_of (entry m dir i)) g)) (seqZ 0 1024)
  || (g =? FRAME dir).

Lemma frame_of_mod (e : Z) : 0 <= e < 4294967296 -> frame_of e mod FRAME_SIZE = 0 /\ 0 <= frame_of e.
Proof. intros He. rewrite frame_of_eq by done. unfold FRAME_SIZE. div_mod_lia. Qed.

Lemma entry_u32 (m : memory) (t i : Z) : 0 <= entry m t i < 4294967296.
Proof. apply load32_range. Qed.

Lemma free_user_table_frees (m : memory) (pt : Z) :
  pt mod FRAME_SIZE = 0 -> 0 <= pt -> frees (free_user_table m pt) (table_frames m pt).
Proof.
  intros Hm Hp. unfold free_user_table, table_frames.
  apply (frees_comp (for_up 1024 0 1 _) (fun p => free_frame p pt)); [|by apply frees_frame].
  apply (frees_loop _ (fun j g => present (entry m pt j) && (g =? FRAME (frame_of (entry m pt j)))) 1024 0).
  intros j _. apply frees_if. intros _. apply frees_frame; apply frame_of_mod, entry_u32.
Qed.

Lemma free_user_dir_frees (m : memory) (dir kdir : Z) :
  dir mod FRAME_SIZE = 0 -> 0 <= dir -> frees (free_user_dir m dir kdir) (dir_frames m dir kdir).
Proof.
  intros Hm Hp. unfold free_user_dir, dir_frames.
  apply (frees_comp (for_up 1024 0 1 _) (fun p => free_frame p dir)); [|by apply frees_frame].
  apply (frees_loop _ (fun i g => negb (entry m dir i =? entry m kdir i) &&
                    (present (entry m dir i) && table_frames m (frame_of (entry m dir i)) g)) 1024 0).
  intros i _. eapply frees_ext with
    (F := fun p => if negb (entry m dir i =? entry m kdir i) then
                     (if present (entry m dir i) then free_user_table m (frame_of (entry m dir i)) p else p) else p).
  - apply frees_if. intros _. apply frees_if. intros _. apply free_user_table_frees; apply frame_of_mod, entry_u32.
  - intros p. by destruct (_ =? _).
  - done.
Qed.

(** ** Removal *)

(** The task owns a page directory of its own. *)
Definition has_user_dir (k : kernel) (x : task) : bool :=
  negb (page_dir x =? 0) && negb (page_dir x =? kernel_page_dir (mm k)).

(** The frames [release_task] frees: the directory's and the stack's *)
Definition task_frees (k : kernel) (x : task) (g : Z) : bool :=
  has_user_dir k x && dir_frames (vmem (mm k)) (page_dir x) (kernel_page_dir (mm k)) g ||
  negb (kernel_stack_base x =? 0) &&
    ((FRAME (kernel_stack_base x) <=? g) && (g <? FRAME (kernel_stack_base x) + 4)).

Definition released (k : kernel) (x : task) (dir' : Z) : task :=
  mkTask (pid x) (state x) (cpu_assigned x) (if has_user_dir k x then dir' else page_dir x) (kernel_esp x) 0
    (wakeup_tick x) (next x).

Definition release_frames (k : kernel) (x : task) : pfa :=
  let fr := if has_user_dir k x
            then free_user_dir (vmem (mm k)) (page_dir x) (kernel_page_dir (mm k)) (frames (mm k))
            else frames (mm k) in
  if kernel_stack_base x =? 0 then fr else free_frames fr (kernel_stack_base x) 4.

Lemma released_id (k : kernel) (x : task) (d : Z) :
  has_user_dir k x = false -> kernel_stack_base x = 0 -> released k x d = x.
Proof. intros H0 H1. unfold released. rewrite H0. destruct x; cbn in *. by rewrite H1. Qed.

Lemma release_task_eq (k : kernel) (t d : Z) (x : task) :
  store k !! t = Some x ->
  release_task k t d = set_mm (set_task k t (released k x d)) (with_frames (mm k) (release_frames k x)).
Proof.
  intros Hx. unfold release_task. rewrite (tsk_lookup k t x Hx). fold (has_user_dir k x).
  unfold release_frames. destruct (has_user_dir k x) eqn:Eu.
  - rewrite tsk_set_eq. cbn [kernel_stack_base]. destruct (Z.eqb_spec (kernel_stack_base x) 0) as [E0|].
    + unfold set_task, set_mm, released. rewrite Eu, E0. done.
    + unfold set_task, set_mm, released. cbn. rewrite insert_insert_eq, Eu. done.
  - rewrite (tsk_lookup k t x Hx). destruct (Z.eqb_spec (kernel_stack_base x) 0) as [E0|].
    + rewrite with_frames_same, (released_id k x d Eu E0). unfold set_task, set_mm. cbn.
      rewrite insert_id by done. by destruct k.
    + unfold set_task, set_mm, released. cbn. rewrite Eu. done.
Qed.

(** A page directory of its own is frame aligned, and the stack is not in
    frame 0. *)
Definition task_ok (k : kernel) (x : task) : Prop :=
  (has_user_dir k x = true -> page_dir x mod FRAME_SIZE = 0 /\ 0 <= page_dir x) /\
  (kernel_stack_base x <> 0 -> FRAME_SIZE <= kernel_stack_base x < 4294967296).

Lemma release_frames_spec (k : kernel) (x : task) :
  pfa_inv (frames (mm k)) -> task_ok k x ->
  pfa_inv (release_frames k x) /\ total_frames (release_frames k x) = total k /\
  forall g, 0 < g < total k -> used (release_frames k x) g = in_use k g && negb (task_frees k x g).
Proof.
  intros Hp (Hm & Hs).
  assert (F : frees (fun p => if negb (kernel_stack_base x =? 0)
                              then free_frames (if has_user_dir k x then free_user_dir (vmem (mm k)) (page_dir x)
                                                  (kernel_page_dir (mm k)) p else p) (kernel_stack_base x) 4
                              else (if has_user_dir k x then free_user_dir (vmem (mm k)) (page_dir x)
                                                  (kernel_page_dir (mm k)) p else p)) (task_frees k x)).
  { apply (frees_comp
      (fun p => if has_user_dir k x then free_user_dir (vmem (mm k)) (page_dir x) (kernel_page_dir (mm k)) p else p)
      (fun p => if negb (kernel_stack_base x =? 0) then free_frames p (kernel_stack_base x) 4 else p)).
    - apply frees_if. intros Hud. apply free_user_dir_frees; by apply Hm.
    - apply frees_if. intros Hne. zbool. apply frees_frames; [by apply Hs|lia]. }
  destruct (F _ Hp) as (H1 & H2 & H3). unfold release_frames, total, in_use.
  destruct (Z.eqb_spec (kernel_stack_base x) 0); cbn [negb] in *; done.
Qed.

(** [task_kill] after the task was found *)
Lemma kill_found (k : kernel) (l1 l2 : list Z) (t : Z) :
  ring k (l1 ++ t :: l2) -> pfa_inv (frames (mm k)) -> task_ok k (tsk k t) ->
  exists k1 k', ring_unlink k t = Some k1 /\
    k' = release_task (set_task k1 t (assign (tsk k1 t) TASK_FREE (-1))) t 0 /\
    ring k' (l1 ++ l2) /\ state (tsk k' t) = TASK_FREE /\ cpu_info k' = cpu_info k /\
    (forall a, a <> t -> same_task (tsk k a) (tsk k' a)) /\
    kernel_page_dir (mm k') = kernel_page_dir (mm k) /\ pfa_inv (frames (mm k')) /\ total k' = total k /\
    forall g, 0 < g < total k -> in_use k' g = in_use k g && negb (task_frees k (tsk k t) g).
Proof.
  intros Hr Hp Hok. destruct (ring_unlink_spec k t l1 l2 Hr) as (k1 & E & Hr1 & Hrt & Ei & Em & _).
  eexists k1, _. split; [done|]. split; [reflexivity|]. set (k2 := set_task k1 t _).
  rewrite (release_task_eq k2 t 0 (assign (tsk k1 t) TASK_FREE (-1))) by (cbn; by rewrite lookup_insert_eq).
  set (x := assign _ _ _). pose proof (Hrt t) as Ht. unfold same_task, with_next in Ht.
  injection Ht as _ _ _ Epd _ Esb _.
  assert (Hu : has_user_dir k2 x = has_user_dir k (tsk k t)) by (unfold has_user_dir, x; cbn; by rewrite Epd, Em).
  assert (Hx : task_ok k2 x) by (unfold task_ok; rewrite Hu; unfold x; cbn; by rewrite Epd, Esb).
  assert (Hfr : forall g, task_frees k2 x g = task_frees k (tsk k t) g).
  { intros g. unfold task_frees. rewrite Hu. cbn [x assign page_dir kernel_stack_base k2 set_task mm].
    by rewrite Epd, Esb, Em. }
  destruct (release_frames_spec k2 x) as (Hp' & Ht' & Hu'); [cbn; by rewrite Em|done|].
  assert (Etot : total k2 = total k) by (unfold total; cbn; by rewrite Em).
  assert (Hnt : t ∉ l1 ++ l2).
  { destruct Hr as (_ & Hnd & _). apply NoDup_app in Hnd as (_ & Hd & Hnd). apply NoDup_cons in Hnd as [Hn _].
    intros Hin. apply elem_of_app in Hin as [Hin|]; [|done]. apply (Hd t Hin). left. }
  split; [apply (ring_store_other (set_task k1 t x)); [apply ring_store_other; [done|done]|done]|].
  split; [unfold tsk; cbn; by rewrite lookup_insert_eq|]. split; [cbn; done|]. split.
  { intros a Ha. unfold tsk at 2. cbn. rewrite !lookup_insert_ne by done. apply Hrt. }
  split; [cbn; by rewrite Em|]. split; [exact Hp'|]. split; [unfold total at 1; cbn [set_mm mm frames with_frames]; lia|].
  intros g Hg. unfold in_use at 1. cbn [set_mm mm frames with_frames]. rewrite Hu' by lia.
  rewrite Hfr. unfold in_use. cbn [k2 set_task mm]. by rewrite Em.
Qed.
