(* ===== verification/TaskProps.v ===== *)
(** * Properties of the task scheduler

    Killing and exiting, the interleaving of all operations as a step
    relation, and the properties: no task on two processors, round-robin
    order, the initial frame of a task, wake-ups, removal, and what the exit
    system call leaves behind. *)
From S2P Require Import Prelude Bytes Memory FrameAlloc Pfa Paging PagingProps Task TaskRing TaskInv.
Import Pfa Paging Task.

(** ** Killing *)

(** The effect of killing task [t] of the list [l] *)
Definition killed (k k' : kernel) (l : list Z) (t : Z) : Prop :=
  (exists l1 l2, l = l1 ++ t :: l2 /\ ring k' (l1 ++ l2)) /\
  state (tsk k' t) = TASK_FREE /\ cpu_info k' = cpu_info k /\
  (forall a, a <> t -> same_task (tsk k a) (tsk k' a)) /\
  kernel_page_dir (mm k') = kernel_page_dir (mm k) /\ pfa_inv (frames (mm k')) /\ total k' = total k /\
  forall g, 0 < g < total k -> in_use k' g = in_use k g && negb (task_frees k (tsk k t) g).

Lemma task_kill_spec (k : kernel) (l : list Z) (n : Z) :
  ring k l -> pfa_inv (frames (mm k)) -> (forall a, a ∈ l -> task_ok k (tsk k a)) ->
  let t := first_task k (fun _ x => pid x =? n) l in
  exists r k', task_kill k n = Some (r, k') /\
    if t =? 0 then r = -1 /\ k' = k
    else if state (tsk k t) =? TASK_RUNNING then r = -2 /\ k' = k
    else r = 0 /\ killed k k' l t.
Proof.
  intros Hr Hp Hok t. unfold task_kill. rewrite (ring_empty k l Hr).
  destruct (decide (l = [])) as [E|Hne].
  { subst l. by exists (-1), k. }
  destruct (ring_cons_split k l Hr Hne) as (l' & El & Hs & Hn & Hl).
  rewrite (ring_find_spec _ k (fun _ x => pid x =? n) (ready_head k) (ready_head k) l'); [|by rewrite <- El|done|done].
  rewrite <- El. fold t. destruct l as [|x0 lt]; [done|]. destruct (Z.eqb_spec t 0) as [|Ht]; [by exists (-1), k|].
  destruct (state (tsk k t) =? TASK_RUNNING); [by exists (-2), k|].
  destruct (first_task_in k (fun _ x => pid x =? n) (x0 :: lt) Ht) as [Hin _]. fold t in Hin.
  destruct (elem_split _ _ Hin) as (l1 & l2 & E2). rewrite E2 in Hr.
  destruct (kill_found k l1 l2 t Hr Hp (Hok t Hin)) as (k1 & k' & Eu & Ek & Hk). rewrite Eu, <- Ek.
  exists 0, k'. split; [done|]. split; [done|]. split; [|apply Hk]. exists l1, l2. split; [done|apply Hk].
Qed.

Lemma stack_frame_iff (x : task) (g : Z) :
  negb (kernel_stack_base x =? 0) &&
    ((FRAME (kernel_stack_base x) <=? g) && (g <? FRAME (kernel_stack_base x) + 4)) = true <-> stack_frame x g.
Proof. unfold stack_frame. rewrite !andb_true_iff, negb_true_iff, Z.eqb_neq, Z.leb_le, Z.ltb_lt. tauto. Qed.

(** A task of a well-formed list has no directory of its own, so that it
    gives up its stack only. *)
Lemma wf_no_user_dir (k : kernel) (l : list Z) (a : Z) : wf_mem k l -> a ∈ l -> has_user_dir k (tsk k a) = false.
Proof. intros Hw Ha. unfold has_user_dir. rewrite (wf_dir k l Hw a Ha), Z.eqb_refl. apply andb_false_r. Qed.

Lemma wf_task_ok (k : kernel) (l : list Z) (a : Z) : wf_mem k l -> a ∈ l -> task_ok k (tsk k a).
Proof.
  intros Hw Ha. split; [by rewrite (wf_no_user_dir k l a)|]. intros H0.
  assert (Hs : stack_frame (tsk k a) (FRAME (kernel_stack_base (tsk k a)))) by (split; [done|lia]).
  destruct (wf_stack k l Hw a _ Ha Hs) as (Hg & _). destruct (wf_pfa k l Hw) as (_ & _ & Ht & _).
  unfold total, FRAME, FRAME_SIZE, MAX_FRAMES in *. div_mod_lia.
Qed.

Lemma wf_frees (k : kernel) (l : list Z) (a g : Z) :
  wf_mem k l -> a ∈ l -> task_frees k (tsk k a) g = true -> stack_frame (tsk k a) g.
Proof. intros Hw Ha. unfold task_frees. rewrite (wf_no_user_dir k l a Hw Ha). apply stack_frame_iff. Qed.

Lemma wf_killed (k k' : kernel) (l : list Z) (t : Z) :
  wf k l -> t ∈ l -> state (tsk k t) <> TASK_RUNNING -> killed k k' l t -> exists l', wf k' l'.
Proof.
  intros [Hm Hc] Hin Hst ((l1 & l2 & E & Hr') & Hf & Ei & Hsame & Ed & Hp & Et & Hu). exists (l1 ++ l2).
  assert (Hsub : forall a, a ∈ l1 ++ l2 -> a ∈ l /\ a <> t).
  { intros a Ha. destruct Hm as [(_ & Hnd & _) _ _ _ _]. rewrite E in Hnd |- *.
    apply NoDup_app in Hnd as (_ & Hd & Hnd). apply NoDup_cons in Hnd as [Hn _].
    apply elem_of_app in Ha as [Ha|Ha]; rewrite elem_of_app, elem_of_cons; (split; [tauto|]); intros ->; [|done].
    apply (Hd t Ha). left. }
  assert (Hfld : forall a, a ∈ l1 ++ l2 -> state (tsk k' a) = state (tsk k a) /\ cpu_assigned (tsk k' a) = cpu_assigned (tsk k a)
    /\ page_dir (tsk k' a) = page_dir (tsk k a) /\ kernel_stack_base (tsk k' a) = kernel_stack_base (tsk k a)).
  { intros a Ha. destruct (Hsub a Ha) as [_ Hne]. specialize (Hsame a Hne). unfold same_task, with_next in Hsame.
    by injection Hsame. }
  split.
  - apply (wf_mem_step k k' l (l1 ++ l2)); [done|done| |done|done|done|].
    + intros a Ha. split; [apply Hsub, Ha|]. unfold stack_frame. destruct (Hfld a Ha) as (_ & _ & -> & ->). done.
    + intros g Hg Hgu Hor. rewrite Hu, Hgu by done. cbn [andb]. apply negb_true_iff, not_true_iff_false. intros Hfr.
      apply (wf_frees k l t g Hm Hin) in Hfr. destruct (wf_stack k l Hm t g Hin Hfr) as (_ & _ & Hnl & Hun).
      destruct Hor as [Hgl|(a & Ha & Hga)]; [apply Hnl, (Hsub _ Hgl)|]. destruct (Hsub a Ha) as [Ha1 Ha2].
      apply Ha2. symmetry. apply Hun; [done|]. unfold stack_frame in *. destruct (Hfld a Ha) as (_ & _ & _ & <-). done.
  - destruct Hc as [Hl Hcu Hru].
    assert (Eo : forall c, cpu_of k' c = cpu_of k c) by (intros; unfold cpu_of; by rewrite Ei).
    split; [by rewrite Ei|..].
    + intros c Hc1. rewrite Eo. intros H0. destruct (Hcu c Hc1 H0) as (Hcin & Hcs & Hca).
      assert (Hin' : current_task (cpu_of k c) ∈ l1 ++ l2).
      { rewrite E in Hcin. apply elem_of_app. apply elem_of_app in Hcin as [?|Hcin]; [by left|right].
        apply elem_of_cons in Hcin as [Hcin|?]; [|done]. rewrite Hcin in Hcs. done. }
      destruct (Hfld _ Hin') as (-> & -> & _). done.
    + intros a Ha. destruct (Hfld a Ha) as (-> & -> & _). rewrite Eo. apply Hru. apply (Hsub a Ha).
Qed.

(** ** Leaving and entering a processor *)

Lemma current_set (k : kernel) (c d a : Z) :
  0 <= c < MAX_CPU -> length (cpu_info k) = Z.to_nat MAX_CPU -> 0 <= d ->
  current_task (cpu_of (set_current k c a) d) = if d =? c then a else current_task (cpu_of k d).
Proof.
  intros Hc Hl Hd. unfold set_current. destruct (Z.eqb_spec d c) as [->|].
  - rewrite cpu_of_set_eq; [done|]. unfold MAX_CPU in *. lia.
  - by rewrite cpu_of_set_ne by lia.
Qed.

Lemma current_gdt (k : kernel) (c d e : Z) :
  0 <= c -> 0 <= d -> current_task (cpu_of (gdt_set_kernel_stack k c e) d) = current_task (cpu_of k d).
Proof.
  intros Hc Hd. unfold gdt_set_kernel_stack. destruct (_ && _); [|done].
  destruct (decide (c = d)) as [<-|]; [|by rewrite cpu_of_set_ne].
  destruct (decide (Z.to_nat c < length (cpu_info k))%nat) as [Hl|Hl]; [by rewrite cpu_of_set_eq|].
  unfold cpu_of. cbn [set_cpu cpu_info]. by rewrite list_insert_ge by lia.
Qed.

(** The current task [curr] of processor [c] stops with record [x], which
    may have given up the stack; the processor has no task. *)
Lemma wf_leave (k k' : kernel) (l : list Z) (c : Z) (x : task) :
  wf k l -> 0 <= c < MAX_CPU -> current_task (cpu_of k c) ∈ l ->
  ring k' l -> wf_mem k' l ->
  (forall a, a ∈ l -> tsk k' a = if a =? current_task (cpu_of k c) then x else tsk k a) ->
  state x <> TASK_RUNNING -> length (cpu_info k') = length (cpu_info k) ->
  (forall d, 0 <= d -> current_task (cpu_of k' d) = if d =? c then 0 else current_task (cpu_of k d)) ->
  wf k' l.
Proof.
  intros [Hm [Hl Hcu Hru]] Hc Hin Hr' Hm' Ht Hx El Ec. split; [done|]. set (curr := current_task (cpu_of k c)) in *.
  assert (Hcn : curr <> 0) by (intros E; destruct Hm as [(_ & _ & Hz & _) _ _ _ _]; rewrite E in Hin; done).
  split; [by rewrite El|..].
  - intros d Hd. rewrite Ec by lia. destruct (Z.eqb_spec d c); [done|]. intros H0.
    destruct (Hcu d Hd H0) as (Hind & Hst & Has). rewrite (Ht _ Hind).
    destruct (Z.eqb_spec (current_task (cpu_of k d)) curr) as [E|]; [|done].
    exfalso. assert (c = d); [|congruence]. eapply (current_unique k l); [by split|done|done|done|done].
  - intros a Ha. rewrite (Ht a Ha). destruct (Z.eqb_spec a curr) as [->|]; [done|]. intros Hst.
    destruct (Hru a Ha Hst) as [H1 H2]. split; [done|]. rewrite Ec by lia.
    destruct (Z.eqb_spec (cpu_assigned (tsk k a)) c) as [E|]; [|done]. exfalso. rewrite E in H2. by symmetry in H2.
Qed.

(** A processor without a task takes [nxt]. *)
Lemma wf_enter (k k' : kernel) (l : list Z) (c nxt : Z) :
  wf k l -> 0 <= c < MAX_CPU -> current_task (cpu_of k c) = 0 -> nxt ∈ l -> state (tsk k nxt) <> TASK_RUNNING ->
  store k' = <[nxt := assign (tsk k nxt) TASK_RUNNING c]> (store k) -> ready_head k' = ready_head k ->
  frames (mm k') = frames (mm k) -> kernel_page_dir (mm k') = kernel_page_dir (mm k) ->
  length (cpu_info k') = length (cpu_info k) ->
  (forall d, 0 <= d -> current_task (cpu_of k' d) = if d =? c then nxt else current_task (cpu_of k d)) ->
  wf k' l.
Proof.
  intros [Hm [Hl Hcu Hru]] Hc H0 Hin Hns Es Eh Ef Ed El Ec.
  assert (Ht : forall a, tsk k' a = if a =? nxt then assign (tsk k nxt) TASK_RUNNING c else tsk k a).
  { intros a. unfold tsk at 1. rewrite Es. destruct (Z.eqb_spec a nxt) as [->|]; [by rewrite lookup_insert_eq|].
    by rewrite lookup_insert_ne. }
  assert (Hnz : nxt <> 0) by (intros E; destruct Hm as [(_ & _ & Hz & _) _ _ _ _]; rewrite E in Hin; done).
  split.
  - eapply wf_mem_same; [done| | |done|done].
    + eapply ring_same; [apply (ring_set_same k l nxt (assign (tsk k nxt) TASK_RUNNING c) (wf_ring k l Hm) Hin)|done|done].
      done.
    + intros a Ha. left. rewrite Ht. by destruct (Z.eqb_spec a nxt) as [->|].
  - split; [by rewrite El|..].
    + intros d Hd. rewrite Ec by lia. destruct (Z.eqb_spec d c) as [->|]; [by rewrite Ht, Z.eqb_refl|].
      intros Hd0. destruct (Hcu d Hd Hd0) as (? & Hst & ?). rewrite Ht.
      destruct (Z.eqb_spec (current_task (cpu_of k d)) nxt) as [E|]; [congruence|done].
    + intros a Ha. rewrite Ht. destruct (Z.eqb_spec a nxt) as [->|].
      * intros _. split; [done|]. cbn [cpu_assigned assign]. rewrite Ec by lia. by rewrite Z.eqb_refl.
      * intros Hst. destruct (Hru a Ha Hst) as [H1 H2]. split; [done|]. rewrite Ec by lia.
        destruct (Z.eqb_spec (cpu_assigned (tsk k a)) c) as [E|]; [|done].
        exfalso. rewrite E in H2. destruct Hm as [(_ & _ & Hz & _) _ _ _ _]. apply Hz. congruence.
Qed.

(** ** The exit system call *)

(** The record of the exiting task *)
Definition exited (k : kernel) (x : task) : task := assign (released k x (kernel_page_dir (mm k))) TASK_FREE (-1).

(** The tasks that [sys_exit] may continue with *)
Definition eligible (curr : Z) (a : Z) (x : task) : bool :=
  (state x =? TASK_READY) && (cpu_assigned x <? 0) && negb (kernel_esp x =? 0) && negb (a =? curr).

(** The state after the exiting task gave up its memory *)
Definition exit_state (k : kernel) (curr : Z) : kernel :=
  set_mm (set_task k curr (exited k (tsk k curr))) (with_frames (mm k) (release_frames k (tsk k curr))).

Lemma exit_state_eq (k : kernel) (curr : Z) (x : task) :
  store k !! curr = Some x ->
  let k1 := release_task k curr (kernel_page_dir (mm k)) in
  set_task k1 curr (assign (tsk k1 curr) TASK_FREE (-1)) = exit_state k curr.
Proof.
  intros Hx k1. unfold k1. rewrite (release_task_eq k curr _ x Hx). unfold exit_state, exited.
  rewrite (tsk_lookup k curr x Hx). unfold tsk, set_task, set_mm. cbn. rewrite lookup_insert_eq, insert_insert_eq. done.
Qed.

Lemma tsk_exit_state (k : kernel) (curr a : Z) :
  tsk (exit_state k curr) a = if a =? curr then exited k (tsk k curr) else tsk k a.
Proof.
  unfold tsk at 1, exit_state. cbn. destruct (Z.eqb_spec a curr) as [->|]; [by rewrite lookup_insert_eq|].
  by rewrite lookup_insert_ne.
Qed.

Lemma wf_mem_exit (k : kernel) (l : list Z) (curr : Z) : wf_mem k l -> curr ∈ l -> wf_mem (exit_state k curr) l.
Proof.
  intros Hw Hin. destruct (release_frames_spec k (tsk k curr) (wf_pfa k l Hw) (wf_task_ok k l curr Hw Hin)) as (Hp & Ht & Hu).
  assert (Hsf : forall a g, stack_frame (tsk (exit_state k curr) a) g -> stack_frame (tsk k a) g /\ a <> curr).
  { intros a g. rewrite tsk_exit_state. destruct (Z.eqb_spec a curr) as [->|]; [|done]. by intros [? _]. }
  apply (wf_mem_step k _ l l); [done| | |done|done|done|].
  - eapply ring_same; [apply (ring_set_same k l curr (exited k (tsk k curr)) (wf_ring k l Hw) Hin)|done|done]. done.
  - intros a Ha. split; [done|]. split; [|intros g Hg; by apply Hsf]. rewrite tsk_exit_state.
    destruct (Z.eqb_spec a curr) as [->|]; [|done]. cbn. by rewrite (wf_no_user_dir k l curr Hw Hin).
  - intros g Hg Hgu Hor. change (in_use (exit_state k curr) g) with (used (release_frames k (tsk k curr)) g).
    rewrite Hu, Hgu by done. apply negb_true_iff, not_true_iff_false. intros Hfr.
    apply (wf_frees k l curr g Hw Hin) in Hfr. destruct (wf_stack k l Hw curr g Hin Hfr) as (_ & _ & Hnl & Hun).
    destruct Hor as [?|(a & Ha & Hga)]; [done|]. apply Hsf in Hga as [Hga Hne]. apply Hne. symmetry. by apply Hun.
Qed.

(** The block that starts task [nxt] on processor [c]: what it leaves in the
    components that [wf] looks at *)
Lemma start_block (k : kernel) (c nxt : Z) :
  0 <= c < MAX_CPU -> length (cpu_info k) = Z.to_nat MAX_CPU ->
  let k2 := set_task k nxt (assign (tsk k nxt) TASK_RUNNING c) in
  let k3 := set_current k2 c nxt in
  let k4 := gdt_set_kernel_stack k3 c (u32 (kernel_stack_base (tsk k3 nxt) + TASK_STACK_SIZE)) in
  let k' := set_mm k4 (page_dir_switch (mm k4) (page_dir (tsk k4 nxt))) in
  store k' = <[nxt := assign (tsk k nxt) TASK_RUNNING c]> (store k) /\ ready_head k' = ready_head k /\
  frames (mm k') = frames (mm k) /\ kernel_page_dir (mm k') = kernel_page_dir (mm k) /\
  length (cpu_info k') = length (cpu_info k) /\
  forall d, 0 <= d -> current_task (cpu_of k' d) = if d =? c then nxt else current_task (cpu_of k d).
Proof.
  intros Hc Hl k2 k3 k4 k'.
  assert (E4 : store k4 = store k3 /\ ready_head k4 = ready_head k3 /\ mm k4 = mm k3 /\
    length (cpu_info k4) = length (cpu_info k3)).
  { unfold k4, gdt_set_kernel_stack. destruct (_ && _); [|done]. cbn. by rewrite length_insert. }
  destruct E4 as (E1 & E2 & E3 & E4). cbn [k' set_mm store ready_head cpu_info mm page_dir_switch frames kernel_page_dir].
  rewrite E1, E2, E3, E4. split; [done|]. split; [done|]. split; [done|]. split; [done|].
  split; [cbn; by rewrite length_insert|]. intros d Hd. change (cpu_of k' d) with (cpu_of k4 d).
  unfold k4. rewrite current_gdt by lia. unfold k3. by rewrite current_set.
Qed.

(** What the exit system call does on processor [c], on both branches *)
Lemma sys_exit_spec (k : kernel) (l : list Z) (c : Z) :
  wf k l -> 0 <= c < MAX_CPU -> current_task (cpu_of k c) <> 0 ->
  let curr := current_task (cpu_of k c) in
  let nxt := first_task k (eligible curr) l in
  exists k', sys_exit k c = Some (if nxt =? 0 then 0 else kernel_esp (tsk k nxt), k') /\ wf k' l /\
    current_task (cpu_of k' c) = nxt /\
    forall a, a ∈ l -> tsk k' a = if a =? curr then exited k (tsk k curr)
                                  else if a =? nxt then assign (tsk k nxt) TASK_RUNNING c else tsk k a.
Proof.
  intros Hw Hc H0 curr nxt. pose proof Hw as [Hm Hcp]. destruct (wf_current k l Hcp c Hc H0) as (Hin & _ & _). fold curr in Hin.
  pose proof (wf_len k l Hcp) as Hlen.
  pose proof (wf_mem_exit k l curr Hm Hin) as Hm1.
  unfold sys_exit. fold curr. destruct (Z.eqb_spec curr 0); [done|].
  change (kernel_page_dir (mm (release_task k curr (kernel_page_dir (mm k))))) with
    (kernel_page_dir (mm (set_task (release_task k curr (kernel_page_dir (mm k))) curr
       (assign (tsk (release_task k curr (kernel_page_dir (mm k))) curr) TASK_FREE (-1))))).
  rewrite (exit_state_eq k curr _ (ring_lookup k l curr (wf_ring k l Hm) Hin)). set (k1 := exit_state k curr) in *.
  rewrite (ring_empty k1 l (wf_ring k1 l Hm1)).
  assert (Hne : l <> []) by (intros ->; inversion Hin).
  destruct (ring_cons_split k1 l (wf_ring k1 l Hm1) Hne) as (l' & El & Hs & Hn & Hl).
  fold (eligible curr).
  rewrite (ring_find_spec _ k1 (eligible curr) _ _ l') by (done || (rewrite <- El; done)). rewrite <- El.
  replace (first_task k1 (eligible curr) l) with nxt.
  2:{ unfold nxt, first_task. f_equal. apply find_ext. intros a _. unfold k1. rewrite tsk_exit_state.
      destruct (Z.eqb_spec a curr) as [->|]; [|done]. unfold eligible. rewrite Z.eqb_refl. by rewrite !andb_false_r. }
  assert (Hw0 : wf (set_current k1 c 0) l).
  { eapply (wf_leave k _ l c (exited k (tsk k curr))); [done|done|done| | | | | |].
    - eapply ring_same; [apply (wf_ring k1 l Hm1)|done|done].
    - eapply wf_mem_same; [exact Hm1|eapply ring_same; [apply (wf_ring k1 l Hm1)|done|done]| |done|done]. by left.
    - intros a _. change (tsk (set_current k1 c 0) a) with (tsk k1 a). apply tsk_exit_state.
    - done.
    - cbn. by rewrite length_insert.
    - intros d Hd. by rewrite current_set. }
  destruct l as [|x0 lt]; [done|]. destruct (Z.eqb_spec nxt 0) as [->|Hnz].
  - eexists. split; [reflexivity|]. split; [by eapply wf_same_tasks|].
    split; [change (cpu_of (set_mm ?q _)) with (cpu_of q); rewrite current_set by (done || lia); by rewrite Z.eqb_refl|].
    intros a Ha. change (tsk (set_mm (set_current k1 c 0) _) a) with (tsk k1 a). unfold k1. rewrite tsk_exit_state.
    destruct (a =? curr); [done|]. destruct (Z.eqb_spec a 0) as [->|]; [|done].
    destruct Hm as [(_ & _ & Hz & _) _ _ _ _]. done.
  - destruct (first_task_in k (eligible curr) _ Hnz) as [Hin2 Hel]. fold nxt in Hin2, Hel. unfold eligible in Hel. zbool.
    assert (En : tsk k1 nxt = tsk k nxt) by (unfold k1; rewrite tsk_exit_state; by destruct (Z.eqb_spec nxt curr)).
    destruct (start_block k1 c nxt Hc Hlen) as (Es & Eh & Ef & Ed & Elc & Ec). cbv zeta in *.
    set (k' := set_mm _ _) in *. rewrite En in Es.
    assert (Et : forall a, tsk k' a = if a =? nxt then assign (tsk k nxt) TASK_RUNNING c else tsk k1 a).
    { intros a. unfold tsk at 1. rewrite Es. destruct (Z.eqb_spec a nxt) as [->|]; [by rewrite lookup_insert_eq|].
      by rewrite lookup_insert_ne. }
    exists k'. split; [by rewrite Et, Z.eqb_refl|]. split; [|split].
    + apply (wf_enter (set_current k1 c 0) k' (x0 :: lt) c nxt); try done.
      * by rewrite current_set, Z.eqb_refl by (done || lia).
      * change (tsk (set_current k1 c 0) nxt) with (tsk k1 nxt). rewrite En, H. done.
      * change (tsk (set_current k1 c 0) nxt) with (tsk k1 nxt). by rewrite En.
      * rewrite Elc. cbn. by rewrite length_insert.
      * intros d Hd. rewrite Ec, current_set by done. by destruct (d =? c).
    + by rewrite Ec, Z.eqb_refl by lia.
    + intros a _. rewrite Et. unfold k1. rewrite tsk_exit_state.
      destruct (Z.eqb_spec a nxt), (Z.eqb_spec a curr); congruence.
Qed.

Lemma current_claim (k : kernel) (c t d : Z) :
  length (cpu_info k) = Z.to_nat MAX_CPU -> 0 <= c < MAX_CPU -> 0 <= d ->
  current_task (cpu_of (claim_idle k c t) d) = if d =? c then t else current_task (cpu_of k d).
Proof. intros. unfold claim_idle. by rewrite current_set. Qed.

Lemma wf_claim (k : kernel) (l : list Z) (c t : Z) :
  wf k l -> 0 <= c < MAX_CPU -> current_task (cpu_of k c) = 0 -> t ∈ l -> state (tsk k t) <> TASK_RUNNING ->
  wf (claim_idle k c t) l /\ current_task (cpu_of (claim_idle k c t) c) = t.
Proof.
  intros Hw Hc H0 Ht Hs. pose proof (wf_len k l (proj2 Hw)) as Hl.
  split; [|rewrite current_claim, Z.eqb_refl by (done || lia); done].
  apply (wf_enter k _ l c t); try done; [cbn; by rewrite length_insert|]. intros d Hd. by apply current_claim.
Qed.

Lemma wf_start_idle (k k' : kernel) (l : list Z) (c entry t : Z) :
  wf k l -> 0 <= c < MAX_CPU -> current_task (cpu_of k c) = 0 ->
  start_idle k c entry = (t, k') -> t <> 0 -> wf k' (insert_after l t) /\ current_task (cpu_of k' c) = t.
Proof.
  intros Hw Hc H0. unfold start_idle. destruct (task_create k entry) as [a k1] eqn:E. intros [= -> <-] Ht.
  destruct (task_create_spec k k1 l entry t Hw E) as [[? _]|(stack & Hcr & Hw1 & _ & _ & Ei)]; [done|].
  assert (Eo : forall d, cpu_of k1 d = cpu_of k d) by (intros; unfold cpu_of; by rewrite Ei).
  apply wf_claim; [exact Hw1|exact Hc|by rewrite Eo|apply elem_insert_after; by left|].
  rewrite (cr_task _ _ _ _ _ Hcr). done.
Qed.

(** ** Interleavings of the kernel's operations *)

(** A processor's first task is created and later claimed, two steps of
    which the second holds no lock: [step_claim] asks that no processor runs
    the task by then, which the code does not ensure ([idle_start_race]). *)
Inductive step : kernel -> kernel -> Prop :=
| step_create (k k' : kernel) (entry t : Z) : task_create k entry = (t, k') -> step k k'
| step_claim (k : kernel) (c t : Z) :
    0 <= c < MAX_CPU -> current_task (cpu_of k c) = 0 -> (forall l, ring k l -> t ∈ l) ->
    state (tsk k t) <> TASK_RUNNING -> step k (claim_idle k c t)
| step_yield (k k' : kernel) (c esp r : Z) :
    0 <= c < MAX_CPU -> task_yield k c esp = Some (r, k') -> step k k'
| step_block (k k' : kernel) (c esp wake r : Z) :
    0 <= c < MAX_CPU -> task_block_and_switch k c esp wake = Some (r, k') -> step k k'
| step_tick (k k' : kernel) (c esp r : Z) :
    0 <= c < MAX_CPU -> task_switch_tick k c esp = Some (r, k') -> step k k'
| step_timer (k k' : kernel) (c n : Z) (free b : bool) :
    0 <= c < MAX_CPU -> timer_handler k c n free = Some (b, k') -> step k k'
| step_ipi (k : kernel) (c : Z) : 0 <= c < MAX_CPU -> step k (resched_ipi_handler k c)
| step_kill (k k' : kernel) (n r : Z) : task_kill k n = Some (r, k') -> step k k'
| step_exit (k k' : kernel) (c r : Z) : 0 <= c < MAX_CPU -> sys_exit k c = Some (r, k') -> step k k'.

Lemma wf_resched (k : kernel) (l : list Z) (c : Z) (b : bool) :
  wf k l -> 0 <= c < MAX_CPU -> wf (set_cpu k c (mkCpu (current_task (cpu_of k c)) b (esp0 (cpu_of k c)))) l.
Proof.
  intros Hw Hc. apply (wf_same_tasks k); [done..|cbn; by rewrite length_insert|]. intros d Hd. apply set_resched; lia.
Qed.

Lemma wf_step (k k' : kernel) : (exists l, wf k l) -> step k k' -> exists l, wf k' l.
Proof.
  intros [l Hw] Hs. pose proof Hw as [Hm _].
  destruct Hs as [k k' entry t E|k c t Hc H0 Hin Hns|k k' c esp r Hc E|k k' c esp w r Hc E|k k' c esp r Hc E
                 |k k' c n fr b Hc E|k c Hc|k k' n r E|k k' c r Hc E].
  - destruct (task_create_spec k k' l entry t Hw E) as [(_ & ? & _)|(stack & _ & ? & _)]; eauto.
  - exists l. apply wf_claim; [done|done|done|apply Hin, Hm|done].
  - exists l. by apply (wf_switch k k' l c esp TASK_READY 0 r).
  - exists l. by apply (wf_switch k k' l c esp TASK_BLOCKED w r).
  - exists l. unfold task_switch_tick in E. destruct (_ =? 0); [by injection E as <- <-|].
    destruct (negb _); [by injection E as <- <-|].
    eapply wf_switch; [exact (wf_resched k l c false Hw Hc)|exact Hc| |exact E]. done.
  - exists l. destruct (timer_handler_spec k l c n fr Hw Hc) as (k1 & E1 & Hw1 & _). congruence.
  - exists l. by apply wf_resched.
  - destruct (task_kill_spec k l n (wf_ring k l Hm) (wf_pfa k l Hm)) as (r' & k1 & E1 & Hk);
      [intros a Ha; by apply (wf_task_ok k l)|]. rewrite E1 in E. injection E as -> ->. cbv zeta in Hk.
    set (t := first_task _ _ _) in *. destruct (Z.eqb_spec t 0) as [|Hnz]; [destruct Hk as [_ ->]; eauto|].
    destruct (Z.eqb_spec (state (tsk k t)) TASK_RUNNING); [destruct Hk as [_ ->]; eauto|].
    apply (wf_killed k k' l t); [done|by apply (first_task_in k (fun _ x => pid x =? n))|done|apply Hk].
  - exists l. destruct (Z.eq_dec (current_task (cpu_of k c)) 0) as [E0|Hn0].
    + unfold sys_exit in E. rewrite E0 in E. by injection E as <- <-.
    + destruct (sys_exit_spec k l c Hw Hc Hn0) as (k1 & E1 & Hw1 & _). congruence.
Qed.

(** The state before the first task is created *)
Definition at_boot (k : kernel) : Prop :=
  ready_head k = 0 /\ pfa_inv (frames (mm k)) /\ length (cpu_info k) = Z.to_nat MAX_CPU /\
  forall c, 0 <= c < MAX_CPU -> current_task (cpu_of k c) = 0.

Lemma wf_boot (k : kernel) : at_boot k -> wf k [].
Proof.
  intros (Hh & Hp & Hl & Hc). split; [split; [|done|..]|split; [done|..]].
  - split; [done|]. split; [constructor|]. split; [apply not_elem_of_nil|done].
  - intros a Ha. inversion Ha.
  - intros a Ha. inversion Ha.
  - intros a g Ha. inversion Ha.
  - intros c Hc1. by rewrite Hc.
  - intros a Ha. inversion Ha.
Qed.

(** ** Properties *)


(** C32: Round robin.  When a task gives up processor [c] (yield, tick or
    sleep), the scan of the ring ends and the processor goes to the first
    task after it, in ring order, that is ready, not bound to another
    processor and has a saved stack pointer: that task becomes running on
    [c], its kernel stack and page directory are installed and its saved
    stack pointer is returned.  Without such a task the call returns 0 and
    the current task goes on running.  No other task changes. *)
Theorem switch_round_robin (k : kernel) (c curr esp ns wake : Z) (l1 l2 : list Z) :
  0 <= c < MAX_CPU -> length (cpu_info k) = Z.to_nat MAX_CPU ->
  ring k (l1 ++ curr :: l2) -> current_task (cpu_of k c) = curr ->
  let nxt := first_task k (fun _ t => runnable c t) (l2 ++ l1) in
  task_switch_from k c esp ns wake =
    Some (if nxt =? 0 then (0, set_task k curr (saved (tsk k curr) c esp TASK_RUNNING wake))
          else (kernel_esp (tsk k nxt), switched k c curr nxt (saved (tsk k curr) c esp ns wake))).
Proof. intros Hc Hl Hr Hcur. exact (task_switch_from_spec k c curr esp ns wake l1 l2 Hc Hl Hr Hcur). Qed.

(** A new task.  [task_create] either fails, with every frame as free as
    before and every task untouched, or returns a task in a frame of its own
    that is ready, unbound, has the next pid and the kernel's page
    directory, is linked right after the head of the ring, and whose four
    fresh stack frames hold exactly what the return from its first switch
    pops: the segment registers, eight zero registers, and the interrupt
    frame that starts [entry] in kernel mode with interrupts on. *)
Theorem task_create_correct (k k' : kernel) (l : list Z) (entry t : Z) :
  wf k l -> task_create k entry = (t, k') ->
  (t = 0 /\ wf k' l /\ (forall g, 0 <= g < total k -> in_use k' g = in_use k g) /\
     forall a, a ∈ l -> tsk k' a = tsk k a) \/
  exists stack, created k k' t stack entry /\ wf k' (insert_after l t) /\ t <> 0 /\
    (forall a, a ∈ l -> same_task (tsk k a) (tsk k' a)) /\ cpu_info k' = cpu_info k.
Proof. apply task_create_spec. Qed.

(** Killing by pid.  [task_kill] returns -1 and changes nothing when no
    task of the ring has the pid, -2 and changes nothing when the first task
    that has it is running, and otherwise 0: the task is out of the ring,
    the others keep their records and order, and exactly the frames of its
    own page directory (pages, tables, directory) and of its kernel stack
    become free. *)
Theorem task_kill_correct (k : kernel) (l : list Z) (n : Z) :
  ring k l -> pfa_inv (frames (mm k)) -> (forall a, a ∈ l -> task_ok k (tsk k a)) ->
  let t := first_task k (fun _ x => pid x =? n) l in
  exists r k', task_kill k n = Some (r, k') /\
    if t =? 0 then r = -1 /\ k' = k
    else if state (tsk k t) =? TASK_RUNNING then r = -2 /\ k' = k
    else r = 0 /\ killed k k' l t.
Proof. apply task_kill_spec. Qed.

(** Timer interrupts of the boot processor, one per element: whether it
    finds the scheduler's lock free *)
Fixpoint timer_ticks (free : list bool) (n : Z) (k : kernel) : option kernel :=
  match free with
  | [] => Some k
  | f :: free => match timer_handler k 0 n f with Some (_, k) => timer_ticks free n k | None => None end
  end.

(** One of the interrupts after tick [now] finds the lock free and the tick
    counter, which wraps around, not below [w] *)
Fixpoint due (now w : Z) (free : list bool) : bool :=
  match free with
  | [] => false
  | f :: free => f && negb (w =? 0) && (w <=? u32 (now + 1)) || due (u32 (now + 1)) w free
  end.

(** The record after the wake-up *)
Definition awake (x : task) : task :=
  mkTask (pid x) TASK_READY (cpu_assigned x) (page_dir x) (kernel_esp x) (kernel_stack_base x) 0 (next x).

Lemma woken_blocked (n : Z) (x : task) : state x = TASK_BLOCKED ->
  woken n x = if negb (wakeup_tick x =? 0) && (wakeup_tick x <=? n) then awake x else x.
Proof. intros Hs. unfold woken. rewrite Hs, Z.eqb_refl. done. Qed.

Lemma woken_ready (n : Z) (t : task) : state t = TASK_READY -> woken n t = t.
Proof. intros Hs. unfold woken. by rewrite Hs. Qed.

(** A task that is awake stays as it is. *)
Lemma timer_ticks_ready (free : list bool) (n : Z) (k : kernel) (l : list Z) (a : Z) :
  wf k l -> a ∈ l -> state (tsk k a) = TASK_READY ->
  exists k', timer_ticks free n k = Some k' /\ tick_count k' = fold_left (fun t _ => u32 (t + 1)) free (tick_count k) /\
    tsk k' a = tsk k a.
Proof.
  revert k. induction free as [|f free IH]; intros k Hw Ha Hs; cbn [timer_ticks fold_left]; [by exists k|].
  destruct (timer_handler_spec k l 0 n f Hw) as (k1 & -> & Hw1 & Et & _ & Hts); [unfold MAX_CPU; lia|].
  specialize (Hts a). rewrite bool_decide_eq_true_2 in Hts by done. cbn [Z.eqb andb] in Et, Hts.
  assert (E : tsk k1 a = tsk k a) by (rewrite Hts; destruct f; cbn [andb]; [by apply woken_ready|done]).
  destruct (IH k1 Hw1 Ha) as (k' & E1 & E2 & E3); [by rewrite E|]. exists k'. rewrite <- Et, <- E. done.
Qed.

Lemma timer_ticks_wake (free : list bool) (n : Z) (k : kernel) (l : list Z) (a : Z) :
  wf k l -> a ∈ l -> state (tsk k a) = TASK_BLOCKED ->
  exists k', timer_ticks free n k = Some k' /\ tick_count k' = fold_left (fun t _ => u32 (t + 1)) free (tick_count k) /\
    tsk k' a = if due (tick_count k) (wakeup_tick (tsk k a)) free then awake (tsk k a) else tsk k a.
Proof.
  revert k. induction free as [|f free IH]; intros k Hw Ha Hs; cbn [timer_ticks fold_left due]; [by exists k|].
  destruct (timer_handler_spec k l 0 n f Hw) as (k1 & -> & Hw1 & Et & _ & Hts); [unfold MAX_CPU; lia|].
  specialize (Hts a). rewrite bool_decide_eq_true_2, andb_true_r in Hts by done. cbn [Z.eqb andb] in Et, Hts.
  rewrite woken_blocked in Hts by done. rewrite <- Et. rewrite <- Et in Hts. rewrite <- andb_assoc.
  set (b := negb _ && _) in *. destruct f; cbn [andb orb].
  - destruct b; cbn [orb].
    + destruct (timer_ticks_ready free n k1 l a Hw1 Ha) as (k' & E1 & E2 & E3); [by rewrite Hts|]. exists k'. by rewrite E3.
    + rewrite <- Hts. apply IH; [done|done|by rewrite Hts].
  - rewrite <- Hts. apply IH; [done|done|by rewrite Hts].
Qed.

(** With the lock free and no wrap-around, exactly the ticks from [w] on *)
Lemma due_free (m : nat) (now w : Z) : 0 <= now < w -> now + Z.of_nat m < 4294967296 ->
  due now w (replicate m true) = (w <=? now + Z.of_nat m).
Proof.
  revert now. induction m as [|m IH]; intros now Hw Hm; cbn [replicate due andb].
  { symmetry. apply Z.leb_gt. lia. }
  rewrite u32_small, (proj2 (Z.eqb_neq w 0)) by lia. cbn [negb andb].
  destruct (Z.leb_spec w (now + 1)); cbn [orb]; [symmetry; apply Z.leb_le; lia|].
  rewrite IH by lia. f_equal. lia.
Qed.

Lemma ticks_free (m : nat) (now : Z) : 0 <= now -> now + Z.of_nat m < 4294967296 ->
  fold_left (fun t (_ : bool) => u32 (t + 1)) (replicate m true) now = now + Z.of_nat m.
Proof.
  revert now. induction m as [|m IH]; intros now H0 Hm; cbn [replicate fold_left]; [lia|].
  rewrite u32_small, IH by lia. lia.
Qed.


(** What the exit system call leaves when every other task has run before:
    a task that has run once stays bound to its processor, so the scan for
    an unbound task finds nothing; the call returns 0, which the interrupt
    return loads as the stack pointer, and the processor is left without a
    task although [b], bound to it, is ready; no later tick gives it one. *)
Theorem exit_strands_processor (k : kernel) (l : list Z) (c b : Z) :
  wf k l -> 0 <= c < MAX_CPU -> current_task (cpu_of k c) <> 0 ->
  (forall a, a ∈ l -> 0 <= cpu_assigned (tsk k a)) ->
  b ∈ l -> b <> current_task (cpu_of k c) -> runnable c (tsk k b) = true ->
  exists k', sys_exit k c = Some (0, k') /\ current_task (cpu_of k' c) = 0 /\
    runnable c (tsk k' b) = true /\ forall esp, task_switch_tick k' c esp = Some (0, k').
Proof.
  intros Hw Hc H0 Hall Hb Hne Hrun. destruct (sys_exit_spec k l c Hw Hc H0) as (k' & E & Hw' & Hcur & Ht).
  assert (En : first_task k (eligible (current_task (cpu_of k c))) l = 0).
  { unfold first_task. destruct (List.find _ l) as [a|] eqn:Ef; [|done]. exfalso.
    apply List.find_some in Ef as [Ha Hel]. apply list_elem_of_In in Ha. unfold eligible in Hel. zbool.
    specialize (Hall a Ha). lia. }
  rewrite En in *. exists k'. split; [exact E|]. split; [done|]. split.
  - rewrite (Ht b Hb). destruct (Z.eqb_spec b (current_task (cpu_of k c))); [done|].
    destruct (Z.eqb_spec b 0) as [->|]; [|done]. by destruct Hw as [[(_ & _ & Hz & _) _ _ _ _] _].
  - intros esp. unfold task_switch_tick. by rewrite Hcur.
Qed.

(** ** Witnesses: a machine with 16 frames, an idle task and a second task *)

Definition boot_kernel : kernel := mkKernel ∅ 0 1 (repeat (mkCpu 0 false 0) 8) 0 boot_vm.

Definition idle_task : Z := 4096.

Definition kernel0 : kernel := (task_create boot_kernel 1000).2.

Definition kernel1 : kernel := claim_idle kernel0 0 idle_task.

Definition kernel2 : kernel := (task_create kernel1 2000).2.

Definition second_task : Z := 24576.

(** The idle task has yielded to the second, which sleeps until tick 2. *)
Definition kernel3 : kernel := (switch_result kernel2 0 idle_task 7000 TASK_READY 0 [second_task]).2.

Definition kernel4 : kernel := (switch_result kernel3 0 second_task 8000 TASK_BLOCKED 2 [idle_task]).2.

Lemma boot_kernel_ok : at_boot boot_kernel.
Proof.
  split; [done|]. split; [apply boot_vm_ok|]. split; [done|]. intros c Hc. unfold MAX_CPU in Hc.
  assert (c = 0 \/ c = 1 \/ c = 2 \/ c = 3 \/ c = 4 \/ c = 5 \/ c = 6 \/ c = 7) as Hcs by lia.
  by decompose [or] Hcs; subst.
Qed.

Lemma kernel0_eq : task_create boot_kernel 1000 = (idle_task, kernel0).
Proof. rewrite (surjective_pairing (task_create _ _)). unfold kernel0. by f_equal. Qed.

Lemma kernel1_eq : start_idle boot_kernel 0 1000 = (idle_task, kernel1).
Proof. unfold start_idle. by rewrite kernel0_eq. Qed.

Lemma kernel2_eq : task_create kernel1 2000 = (second_task, kernel2).
Proof. rewrite (surjective_pairing (task_create _ _)). unfold kernel2. by f_equal. Qed.

Lemma kernel1_wf : wf kernel1 [idle_task] /\ current_task (cpu_of kernel1 0) = idle_task.
Proof.
  apply (wf_start_idle boot_kernel kernel1 [] 0 1000 idle_task); [apply wf_boot, boot_kernel_ok|done|done| |done].
  apply kernel1_eq.
Qed.

Lemma kernel2_wf : wf kernel2 [idle_task; second_task].
Proof.
  destruct (task_create_spec kernel1 kernel2 [idle_task] 2000 second_task (proj1 kernel1_wf) kernel2_eq)
    as [[? _]|(stack & _ & Hw & _)]; [done|exact Hw].
Qed.

Lemma kernel2_current : current_task (cpu_of kernel2 0) = idle_task.
Proof. vm_compute. reflexivity. Qed.

Lemma kernel2_next : first_task kernel2 (fun _ t => runnable 0 t) ([second_task] ++ []) = second_task.
Proof. vm_compute. reflexivity. Qed.

Lemma kernel2_second : kernel_esp (tsk kernel2 second_task) <> 0.
Proof. vm_compute. discriminate. Qed.

#[local] Opaque kernel1 kernel2.

Lemma kernel3_eq :
  task_yield kernel2 0 7000 = Some ((switch_result kernel2 0 idle_task 7000 TASK_READY 0 [second_task]).1, kernel3).
Proof.
  unfold kernel3. rewrite <- surjective_pairing.
  exact (task_switch_from_spec kernel2 0 idle_task 7000 TASK_READY 0 [] [second_task] ltac:(done)
           (wf_len _ _ (proj2 kernel2_wf)) (wf_ring _ _ (proj1 kernel2_wf)) kernel2_current).
Qed.

Lemma kernel3_wf : wf kernel3 [idle_task; second_task].
Proof. exact (wf_switch kernel2 kernel3 _ 0 7000 TASK_READY 0 _ kernel2_wf ltac:(done) ltac:(done) kernel3_eq). Qed.

Lemma kernel3_current : current_task (cpu_of kernel3 0) = second_task.
Proof. vm_compute. reflexivity. Qed.

Lemma kernel3_result : (switch_result kernel3 0 second_task 8000 TASK_BLOCKED 2 [idle_task]).1 = 7000.
Proof. vm_compute. reflexivity. Qed.

#[local] Opaque kernel3.

Lemma kernel4_eq : task_block_and_switch kernel3 0 8000 2 = Some (7000, kernel4).
Proof.
  rewrite <- kernel3_result. unfold kernel4. rewrite <- surjective_pairing.
  exact (task_switch_from_spec kernel3 0 second_task 8000 TASK_BLOCKED 2 [idle_task] [] ltac:(done)
           (wf_len _ _ (proj2 kernel3_wf)) (wf_ring _ _ (proj1 kernel3_wf)) kernel3_current).
Qed.

Lemma kernel4_wf : wf kernel4 [idle_task; second_task].
Proof. exact (wf_switch kernel3 kernel4 _ 0 8000 TASK_BLOCKED 2 7000 kernel3_wf ltac:(done) ltac:(done) kernel4_eq). Qed.

Lemma kernel4_sleeper :
  state (tsk kernel4 second_task) = TASK_BLOCKED /\ wakeup_tick (tsk kernel4 second_task) = 2 /\
  tick_count kernel4 = 0 /\ pid (tsk kernel4 second_task) = 2 /\
  first_task kernel4 (fun _ x => pid x =? 2) [idle_task; second_task] = second_task.
Proof. repeat split; vm_compute; reflexivity. Qed.

#[local] Opaque kernel4.

Lemma idle_claimable (l : list Z) : ring kernel0 l -> idle_task ∈ l.
Proof.
  assert (Eh : ready_head kernel0 = idle_task) by (vm_compute; reflexivity).
  intros (Hs & _ & _ & He). rewrite Eh in Hs, He. destruct l as [|x l]; [by specialize (He eq_refl)|].
  pose proof (seg_head _ _ _ _ _ Hs) as <-. left.
Qed.


(** The race that [step_claim] leaves out.  Processor 1 creates the task it
    will start on; before it claims it, processor 0 yields and picks it, as it
    is ready and bound to no processor; then both run it. *)
Theorem idle_start_race :
  task_create kernel1 2000 = (second_task, kernel2) /\
  (exists r, task_yield kernel2 0 7000 = Some (r, kernel3)) /\
  let k := claim_idle kernel3 1 second_task in
  current_task (cpu_of k 0) = second_task /\ current_task (cpu_of k 1) = second_task.
Proof.
  split; [exact kernel2_eq|]. split; [eexists; exact kernel3_eq|]. cbv zeta.
  pose proof (wf_len _ _ (proj2 kernel3_wf)) as Hl. pose proof kernel3_current as Hc.
  generalize dependent kernel3. intros k Hl Hc. assert (0 <= 1 < MAX_CPU) by (unfold MAX_CPU; lia).
  rewrite (current_claim k 1 second_task 0 Hl), (current_claim k 1 second_task 1 Hl) by lia. by split.
Qed.

Lemma switch_round_robin_witness :
  exists r k', task_switch_from kernel2 0 7000 TASK_READY 0 = Some (r, k') /\ r <> 0.
Proof.
  pose proof (switch_round_robin kernel2 0 idle_task 7000 TASK_READY 0 [] [second_task] ltac:(done)
    (wf_len _ _ (proj2 kernel2_wf)) (wf_ring _ _ (proj1 kernel2_wf)) kernel2_current) as E.
  cbv zeta in E. rewrite kernel2_next in E. eexists _, _. split; [exact E|]. exact kernel2_second.
Defined.

Lemma task_create_correct_witness :
  exists stack, created kernel1 kernel2 second_task stack 2000.
Proof.
  destruct (task_create_correct kernel1 kernel2 [idle_task] 2000 second_task (proj1 kernel1_wf) kernel2_eq)
    as [[H _]|(stack & H & _)]; [discriminate H|]. exists stack. exact H.
Defined.

Lemma task_kill_correct_witness :
  exists k', task_kill kernel4 2 = Some (0, k') /\ killed kernel4 k' [idle_task; second_task] second_task.
Proof.
  destruct (task_kill_correct kernel4 [idle_task; second_task] 2 (wf_ring _ _ (proj1 kernel4_wf))
    (wf_pfa _ _ (proj1 kernel4_wf))) as (r & k' & E & H).
  { intros a Ha. exact (wf_task_ok _ _ a (proj1 kernel4_wf) Ha). }
  destruct kernel4_sleeper as (Hs & _ & _ & _ & Hf). rewrite Hf in H. cbn [Z.eqb second_task] in H.
  change (Z.pos _) with second_task in H. rewrite Hs in H. cbn [Z.eqb TASK_BLOCKED TASK_RUNNING Pos.eqb] in H.
  destruct H as [-> H]. exists k'. split; [exact E|exact H].
Defined.

