(* ===== verification/Elf.v ===== *)
(** * kernel/elf.c: the program loader

    [elf_exec] after its [nvfs_read]: the load buffer [buf] and the number
    [size] of bytes read into it are arguments.  The checks come first and
    have no effect; then the address space is built, the segments are copied
    through it, and the task is created.  A store through a page directory
    that does not map the address is a page fault in the kernel, which stops
    the machine: [None].  The messages are values of [reject]. *)
From S2P Require Import Prelude Bytes Memory FrameAlloc Pfa Paging Task.

Module Elf.
Import Pfa Paging Task.

Definition ELF_MAGIC : Z := 1179403647.

Definition PT_LOAD : Z := 1.

Definition USER_ELF_BASE : Z := 8388608.

Definition USER_ELF_LIMIT : Z := 9437184.

Definition USER_STACK_TOP : Z := 10485760.

Definition USER_EXIT_TRAMP : Z := 10485248.

Definition USER_PDE_IDX : Z := 2.

(** ** Headers *)

(** The fields of [elf32_ehdr_t] that the loader reads *)
Definition e_entry (buf : list Z) : Z := get32 buf 24.

Definition e_phoff (buf : list Z) : Z := get32 buf 28.

Definition e_phentsize (buf : list Z) : Z := get16 buf 42.

Definition e_phnum (buf : list Z) : Z := get16 buf 44.

(** The fields of [elf32_phdr_t] that the loader reads *)
Record phdr := mkPhdr { p_type : Z; p_offset : Z; p_vaddr : Z; p_filesz : Z; p_memsz : Z }.

(** The header at [ph_table + i * ehdr->e_phentsize] *)
Definition phdr_at (buf : list Z) (i : Z) : phdr :=
  let o := e_phoff buf + i * e_phentsize buf in
  mkPhdr (get32 buf o) (get32 buf (o + 4)) (get32 buf (o + 8)) (get32 buf (o + 16)) (get32 buf (o + 20)).

(** ** Checks *)

Inductive reject :=
  | ReadFailed | TooSmall | BadMagic | BadClass | BadMachine | BadEntry | TableOverflow | TableOutOfFile
  | EntrySizeTooSmall | BadLoadAddress | PastUserRange | PastFile | FileszTooLarge.

(** One iteration of the first loop over the program headers *)
Definition check_segment (size : Z) (ph : phdr) : option reject :=
  if negb (p_type ph =? PT_LOAD) then None
  else if (p_vaddr ph <? USER_ELF_BASE) || (USER_ELF_LIMIT <=? p_vaddr ph) then Some BadLoadAddress
  else if USER_STACK_TOP <? u32 (p_vaddr ph + p_memsz ph) then Some PastUserRange
  else if (u32 (p_offset ph + p_filesz ph) <? p_offset ph) || (size <? u32 (p_offset ph + p_filesz ph))
  then Some PastFile
  else if p_memsz ph <? p_filesz ph then Some FileszTooLarge
  else None.

Fixpoint check_segments (n : nat) (buf : list Z) (size i : Z) : option reject :=
  match n with
  | O => None
  | S n =>
      match check_segment size (phdr_at buf i) with
      | Some e => Some e
      | None => check_segments n buf size (i + 1)
      end
  end.

(** [elf_exec] up to the creation of the page directory: [None] when the
    file is accepted *)
Definition elf_check (buf : list Z) (size : Z) : option reject :=
  if size <=? 0 then Some ReadFailed
  else if size <? 52 then Some TooSmall
  else if negb (get32 buf 0 =? ELF_MAGIC) then Some BadMagic
  else if negb (byte_at buf 4 =? 1) then Some BadClass
  else if negb (get16 buf 18 =? 3) then Some BadMachine
  else if (e_entry buf <? USER_ELF_BASE) || (USER_ELF_LIMIT <=? e_entry buf) then Some BadEntry
  else if (65535 <? e_phnum buf) || (65535 <? e_phentsize buf) ||
          (4294967295 - e_phoff buf <? u32 (e_phnum buf * e_phentsize buf)) then Some TableOverflow
  else if size <? u32 (e_phoff buf + e_phnum buf * e_phentsize buf) then Some TableOutOfFile
  else if e_phentsize buf <? 32 then Some EntrySizeTooSmall
  else check_segments (Z.to_nat (e_phnum buf)) buf size 0.

(** ** The address space *)

(** The loop that maps [n] fresh pages from [addr] on: [false] when it ran
    out of memory *)
Fixpoint map_user (n : nat) (s : vm pfa) (pd addr : Z) : bool * vm pfa :=
  match n with
  | O => (true, s)
  | S n =>
      let '(phys, fr) := alloc_frame (frames s) in
      let s := with_frames s fr in
      if phys =? 0 then (false, s)
      else
        let '(r, s) := map_page_to_dir s pd addr phys (Z.lor PAGE_WRITE PAGE_USER) in
        if negb (r =? 0) then (false, s)
        else map_user n s pd (addr + 4096)
  end.

Definition USER_PAGES : Z := (USER_STACK_TOP - USER_ELF_BASE) / 4096.

(** A new directory with the user window mapped; 0 on failure *)
Definition user_dir (s : vm pfa) : Z * vm pfa :=
  let '(pd, s) := page_dir_create s in
  if pd =? 0 then (0, s)
  else
    let s := with_mem s (set_entry (vmem s) pd USER_PDE_IDX 0) in
    let '(ok, s) := map_user (Z.to_nat USER_PAGES) s pd USER_ELF_BASE in
    if ok then (pd, s)
    else
      let s := with_mem s (set_entry (vmem s) pd USER_PDE_IDX 0) in
      (0, with_frames s (free_frame (frames s) pd)).

(** ** Loading *)

(** A byte store with the directory [dir] in CR3 *)
Definition vstore8 (dir a v : Z) (m : memory) : option memory :=
  match walk m dir a with
  | Some pte => Some (store8 m (frame_of pte + a mod 4096) v)
  | None => None
  end.

(** [lib_memcpy] to [a] *)
Fixpoint vcopy (dir a : Z) (bs : list Z) (m : memory) : option memory :=
  match bs with
  | [] => Some m
  | b :: bs => match vstore8 dir a b m with Some m => vcopy dir (u32 (a + 1)) bs m | None => None end
  end.

(** [lib_memset(a, 0, n)] *)
Fixpoint vzero (n : nat) (dir a : Z) (m : memory) : option memory :=
  match n with
  | O => Some m
  | S n => match vstore8 dir a 0 m with Some m => vzero n dir (u32 (a + 1)) m | None => None end
  end.

(** One iteration of the second loop over the program headers *)
Definition load_segment (dir : Z) (buf : list Z) (ph : phdr) (m : memory) : option memory :=
  if p_type ph =? PT_LOAD then
    match vcopy dir (p_vaddr ph) (get_bytes buf (p_offset ph) (p_filesz ph)) m with
    | None => None
    | Some m =>
        if p_filesz ph <? p_memsz ph
        then vzero (Z.to_nat (p_memsz ph - p_filesz ph)) dir (u32 (p_vaddr ph + p_filesz ph)) m
        else Some m
    end
  else Some m.

Fixpoint load_segments (n : nat) (dir : Z) (buf : list Z) (i : Z) (m : memory) : option memory :=
  match n with
  | O => Some m
  | S n =>
      match load_segment dir buf (phdr_at buf i) m with
      | Some m => load_segments n dir buf (i + 1) m
      | None => None
      end
  end.

(** [mov $0, %eax; int $0x80] *)
Definition exit_code : list Z := [184; 0; 0; 0; 0; 205; 128].

(** The bytes of the return address on the user stack *)
Definition return_address : list Z :=
  [u8 USER_EXIT_TRAMP; u8 (USER_EXIT_TRAMP / 256); u8 (USER_EXIT_TRAMP / 65536); u8 (USER_EXIT_TRAMP / 16777216)].

(** Everything the kernel writes with the user directory active *)
Definition load_image (dir : Z) (buf : list Z) (m : memory) : option memory :=
  match load_segments (Z.to_nat (e_phnum buf)) dir buf 0 m with
  | None => None
  | Some m =>
      match vcopy dir USER_EXIT_TRAMP exit_code m with
      | None => None
      | Some m => vcopy dir (USER_STACK_TOP - 4) return_address m
      end
  end.

(** ** The task *)

(** What is pushed on the kernel stack: SS, ESP, EFLAGS, CS, EIP, the error
    code and interrupt number, the registers of [pusha], and the segments *)
Definition user_frame (entry : Z) : list Z :=
  [35; USER_STACK_TOP - 4; 514; 27; entry; 0; 0] ++ repeat 0 8 ++ repeat 35 4.

Definition user_task (k : kernel) (pd entry : Z) : Z * kernel :=
  let '(t, k) := alloc_task k in
  if t =? 0 then (-1, k)
  else
    let '(stack, fr) := alloc_frames (frames (mm k)) (Z.shiftr TASK_STACK_SIZE 12) in
    let k := set_mm k (with_frames (mm k) fr) in
    if stack =? 0 then (-1, set_mm k (with_frames (mm k) (free_frame (frames (mm k)) t)))
    else
      let '(m, sp) := push_words (vmem (mm k)) (u32 (stack + TASK_STACK_SIZE)) (user_frame entry) in
      let k := set_mm k (with_mem (mm k) m) in
      let x := tsk k t in
      let k := set_task k t (mkTask (pid x) TASK_READY (cpu_assigned x) pd sp stack (wakeup_tick x) (next x)) in
      (0, ring_insert k t).

(** [elf_exec] *)
Definition elf_exec (k : kernel) (buf : list Z) (size : Z) : option (Z * kernel) :=
  match elf_check buf size with
  | Some _ => Some (-1, k)
  | None =>
      let '(pd, s) := user_dir (mm k) in
      let k := set_mm k s in
      if pd =? 0 then Some (-1, k)
      else
        let k := set_mm k (page_dir_switch (mm k) pd) in
        match load_image pd buf (vmem (mm k)) with
        | None => None
        | Some m =>
            let k := set_mm k (with_mem (mm k) m) in
            let k := set_mm k (page_dir_switch (mm k) (kernel_page_dir (mm k))) in
            let m := set_entry (set_entry (vmem (mm k)) pd 0 0) pd 1 0 in
            let k := set_mm k (with_mem (mm k) m) in
            Some (user_task k pd (e_entry buf))
        end
  end.

End Elf.
