(* ===== verification/ElfSpace.v ===== *)
(** * The user address space: building it and writing through it

    What the loader's page-table work and its stores through the new
    directory do to memory.  [user_space] describes the finished window: each
    page has a frame of its own, apart from the directory and its tables, so
    a store through the window changes one byte of the window and nothing
    else. *)
From S2P Require Import Prelude Bytes Memory FrameAlloc Pfa Paging Task Elf.
Import Pfa Paging Task Elf.

(** ** Footprints *)

Lemma load8_set_entry (m : memory) (b i v x : Z) :
  b mod 4096 = 0 -> 0 <= i < 1024 -> x / 4096 <> b / 4096 -> load8 (set_entry m b i v) x = load8 m x.
Proof. intros Hb Hi Hx. unfold set_entry. apply load8_store32_ne. div_mod_lia. Qed.

Lemma load8_fill_table (m : memory) (b x : Z) (f : Z -> Z) :
  b mod 4096 = 0 -> x / 4096 <> b / 4096 -> load8 (fill_table m b f) x = load8 m x.
Proof.
  intros Hb Hx. unfold fill_table.
  apply (for_up_ind (fun _ q => load8 q x = load8 m x)); [done|].
  intros k q Hk Hq. rewrite load8_set_entry by (done || lia). done.
Qed.

Lemma load8_copy_dir (m : memory) (b src x : Z) :
  b mod 4096 = 0 -> x / 4096 <> b / 4096 -> load8 (copy_dir m b src) x = load8 m x.
Proof.
  intros Hb Hx. unfold copy_dir.
  apply (for_up_ind (fun _ q => load8 q x = load8 m x)); [done|].
  intros k q Hk Hq. rewrite load8_set_entry by (done || lia). done.
Qed.

(** Entries of a frame whose bytes are the same *)
Lemma entry_frame (m m' : memory) (b j : Z) :
  b mod 4096 = 0 -> 0 <= j < 1024 -> (forall x, x / 4096 = b / 4096 -> load8 m' x = load8 m x) ->
  entry m' b j = entry m b j.
Proof. intros Hb Hj H. unfold entry. apply load32_ext. intros x Hx. apply H. div_mod_lia. Qed.

Lemma entry_store8 (m : memory) (a v b j : Z) :
  b mod 4096 = 0 -> 0 <= j < 1024 -> a / 4096 <> b / 4096 -> entry (store8 m a v) b j = entry m b j.
Proof.
  intros Hb Hj Ha. apply entry_frame; [done|done|]. intros x Hx. apply load8_store8_ne. intros ->. done.
Qed.

(** ** The window *)

Definition in_window (v : Z) : Prop := USER_ELF_BASE <= v < USER_STACK_TOP.

Definition in_pages (p : Z) : Prop := 2048 <= p < 2560.

(** Page [p] of the window is in frame [fp p]. *)
Record user_space (m : memory) (dir : Z) (fp : Z -> Z) : Prop := {
  us_dir : dir mod 4096 = 0 /\ forall p, in_pages p -> fp p <> dir / 4096;
  us_frames : forall p, in_pages p -> 0 < fp p < 262144;
  us_inj : forall p q, in_pages p -> in_pages q -> fp p = fp q -> p = q;
  us_tables : forall i, 0 <= i < 1024 -> present (entry m dir i) = true ->
    forall p, in_pages p -> fp p <> frame_of (entry m dir i) / 4096;
  us_walk : forall v, in_window v -> walk m dir v = Some (fp (v / 4096) * 4096 + 7) }.

(** The byte of the window at [v] *)
Definition window (m : memory) (fp : Z -> Z) (v : Z) : Z := load8 m (fp (v / 4096) * 4096 + v mod 4096).

(** Memory outside the window's frames *)
Definition outside (fp : Z -> Z) (x : Z) : Prop := forall p, in_pages p -> x / 4096 <> fp p.

Lemma window_page (v : Z) : in_window v -> in_pages (v / 4096).
Proof. unfold in_window, in_pages, USER_ELF_BASE, USER_STACK_TOP. div_mod_lia. Qed.

(** What changes the window's frames only leaves the translation alone. *)
Lemma walk_outside (m m' : memory) (dir : Z) (fp : Z -> Z) (v : Z) :
  user_space m dir fp -> (forall x, outside fp x -> load8 m' x = load8 m x) -> walk m' dir v = walk m dir v.
Proof.
  intros [[Hd Hnd] _ _ Ht _] Hsame. unfold walk. pose proof (PDE_IDX_range v) as Hi. pose proof (PTE_IDX_range v) as Hj.
  rewrite (entry_frame m m' dir) by (first [done | intros x Hx; apply Hsame; intros p Hp; rewrite Hx; by apply not_eq_sym, Hnd]).
  destruct (present (entry m dir (PDE_IDX v))) eqn:Ep; [|done].
  rewrite (entry_frame m m' (frame_of _)); [done|apply frame_of_aligned|done|].
  intros x Hx. apply Hsame. intros p Hp. rewrite Hx. by apply not_eq_sym, Ht.
Qed.

Lemma user_space_outside (m m' : memory) (dir : Z) (fp : Z -> Z) :
  user_space m dir fp -> (forall x, outside fp x -> load8 m' x = load8 m x) -> user_space m' dir fp.
Proof.
  intros Hu Hsame. pose proof Hu as [[Hd Hnd] Hf Hi Ht Hw].
  assert (He : forall j, 0 <= j < 1024 -> entry m' dir j = entry m dir j).
  { intros j Hj. apply entry_frame; [done|done|]. intros x Hx. apply Hsame. intros p Hp. rewrite Hx. by apply not_eq_sym, Hnd. }
  split; [done|done|done|..].
  - intros i Hir. rewrite He by done. by apply Ht.
  - intros v Hv. rewrite (walk_outside m m' dir fp v Hu Hsame). by apply Hw.
Qed.

(** One store through the window *)
Lemma vstore8_user (m : memory) (dir a v : Z) (fp : Z -> Z) :
  user_space m dir fp -> in_window a ->
  exists m', vstore8 dir a v m = Some m' /\ user_space m' dir fp /\
    (forall b, in_window b -> window m' fp b = if b =? a then u8 v else window m fp b) /\
    (forall x, outside fp x -> load8 m' x = load8 m x).
Proof.
  intros Hu Ha. pose proof (window_page a Ha) as Hp. pose proof (us_frames _ _ _ Hu _ Hp) as Hf.
  unfold vstore8. rewrite (us_walk _ _ _ Hu a Ha).
  assert (Ef : frame_of (fp (a / 4096) * 4096 + 7) = fp (a / 4096) * 4096) by (rewrite frame_of_eq; div_mod_lia).
  rewrite Ef. set (x := fp (a / 4096) * 4096 + a mod 4096).
  assert (Hxp : x / 4096 = fp (a / 4096)) by (unfold x; div_mod_lia).
  assert (Hout : forall y, outside fp y -> load8 (store8 m x v) y = load8 m y).
  { intros y Hy. apply load8_store8_ne. intros <-. by apply (Hy _ Hp). }
  exists (store8 m x v). split; [done|]. split; [by apply (user_space_outside m)|]. split; [|done].
  intros b Hb. unfold window. destruct (Z.eqb_spec b a) as [->|Hne]; [apply load8_store8_eq|].
  apply load8_store8_ne. intros Heq. apply Hne.
  assert (fp (b / 4096) = fp (a / 4096)) as E by (unfold x in Heq; div_mod_lia).
  apply (us_inj _ _ _ Hu) in E; [|by apply window_page|done]. unfold x in Heq. rewrite E in Heq. div_mod_lia.
Qed.

(** ** The image, abstractly

    Contents of the window as a function of the address *)
Definition put_at (a : Z) (bs : list Z) (f : Z -> Z) (v : Z) : Z :=
  if (a <=? v) && (v <? a + Z.of_nat (length bs)) then byte_at bs (v - a) else f v.

Definition zero_at (a n : Z) (f : Z -> Z) (v : Z) : Z := if (a <=? v) && (v <? a + n) then 0 else f v.

(** A loaded segment: its bytes of the file, then zeros *)
Definition segment_at (buf : list Z) (ph : phdr) (f : Z -> Z) : Z -> Z :=
  if p_type ph =? PT_LOAD then
    zero_at (p_vaddr ph + p_filesz ph) (p_memsz ph - p_filesz ph)
      (put_at (p_vaddr ph) (get_bytes buf (p_offset ph) (p_filesz ph)) f)
  else f.

(** The segments from [i] on, in the order of the headers *)
Fixpoint segments_at (n : nat) (buf : list Z) (i : Z) (f : Z -> Z) : Z -> Z :=
  match n with
  | O => f
  | S n => segments_at n buf (i + 1) (segment_at buf (phdr_at buf i) f)
  end.

(** The program as it starts: the segments, the exit trampoline and the
    return address on the stack, over the previous contents *)
Definition image (buf : list Z) (f : Z -> Z) : Z -> Z :=
  put_at (USER_STACK_TOP - 4) return_address
    (put_at USER_EXIT_TRAMP exit_code (segments_at (Z.to_nat (e_phnum buf)) buf 0 f)).

(** [m'] is [m] with the window's contents [g]. *)
Definition wrote (m m' : memory) (dir : Z) (fp g : Z -> Z) : Prop :=
  user_space m' dir fp /\ (forall b, in_window b -> window m' fp b = g b) /\
  (forall x, outside fp x -> load8 m' x = load8 m x).

Lemma wrote_trans (m m1 m2 : memory) (dir : Z) (fp g h : Z -> Z) :
  wrote m m1 dir fp g -> wrote m1 m2 dir fp h -> wrote m m2 dir fp h.
Proof.
  intros (_ & _ & O1) (U2 & W2 & O2). split; [done|]. split; [done|]. intros x Hx. rewrite O2, O1 by done. done.
Qed.

Lemma wrote_ext (m m' : memory) (dir : Z) (fp g h : Z -> Z) :
  (forall v, in_window v -> g v = h v) -> wrote m m' dir fp g -> wrote m m' dir fp h.
Proof. intros E (U & W & O). split; [done|]. split; [|done]. intros b Hb. rewrite W, E by done. done. Qed.

Lemma u32_next (a : Z) : in_window a -> u32 (a + 1) = a + 1.
Proof. unfold in_window, USER_ELF_BASE, USER_STACK_TOP. intros. apply u32_small. lia. Qed.

(** Stepping the two byte loops *)
Lemma put_at_cons (a b : Z) (bs : list Z) (f : Z -> Z) (v : Z) :
  is_byte b -> put_at (a + 1) bs (fun w => if w =? a then u8 b else f w) v = put_at a (b :: bs) f v.
Proof.
  intros Hb. unfold put_at. cbn [length]. destruct (Z.eqb_spec v a) as [->|Hne].
  - rewrite (proj2 (Z.leb_gt (a + 1) a)), Z.leb_refl, (proj2 (Z.ltb_lt a (a + Z.of_nat (S (length bs))))) by lia.
    cbn [andb]. rewrite Z.sub_diag. by apply u8_small.
  - destruct (Z.leb_spec (a + 1) v), (Z.leb_spec a v), (Z.ltb_spec v (a + 1 + Z.of_nat (length bs))),
      (Z.ltb_spec v (a + Z.of_nat (S (length bs)))); try lia; cbn [andb]; try done.
    unfold byte_at. by replace (Z.to_nat (v - a)) with (S (Z.to_nat (v - (a + 1)))) by lia.
Qed.

Lemma zero_at_S (a n : Z) (f : Z -> Z) (v : Z) :
  0 <= n -> zero_at (a + 1) n (fun w => if w =? a then u8 0 else f w) v = zero_at a (n + 1) f v.
Proof.
  intros Hn. unfold zero_at. change (u8 0) with 0.
  destruct (Z.leb_spec (a + 1) v), (Z.leb_spec a v), (Z.ltb_spec v (a + 1 + n)), (Z.ltb_spec v (a + (n + 1))),
    (Z.eqb_spec v a); try lia; done.
Qed.

Lemma put_at_ext (a : Z) (bs : list Z) (f g : Z -> Z) (v : Z) : f v = g v -> put_at a bs f v = put_at a bs g v.
Proof. intros E. unfold put_at. by rewrite E. Qed.

Lemma zero_at_ext (a n : Z) (f g : Z -> Z) (v : Z) : f v = g v -> zero_at a n f v = zero_at a n g v.
Proof. intros E. unfold zero_at. by rewrite E. Qed.

Lemma vcopy_user (bs : list Z) (m : memory) (dir a : Z) (fp : Z -> Z) :
  user_space m dir fp -> is_bytes bs -> USER_ELF_BASE <= a -> a + Z.of_nat (length bs) <= USER_STACK_TOP ->
  exists m', vcopy dir a bs m = Some m' /\ wrote m m' dir fp (put_at a bs (window m fp)).
Proof.
  revert m a. induction bs as [|b bs IH]; intros m a Hu Hb Ha Hl.
  { exists m. split; [done|]. split; [done|]. split; [|done]. intros v _. unfold put_at. cbn [length].
    destruct (Z.leb_spec a v), (Z.ltb_spec v (a + Z.of_nat 0)); try lia; done. }
  apply Forall_cons in Hb as [Hb1 Hb]. cbn [length] in Hl.
  assert (Hw : in_window a) by (unfold in_window; lia).
  destruct (vstore8_user m dir a b fp Hu Hw) as (m1 & E1 & U1 & W1 & O1).
  destruct (IH m1 (a + 1) U1 Hb) as (m2 & E2 & H2); [lia|lia|].
  exists m2. cbn [vcopy]. rewrite E1, u32_next by done. split; [done|].
  apply (wrote_trans m m1 m2 dir fp (window m1 fp) _ (conj U1 (conj (fun _ _ => eq_refl) O1))).
  apply (wrote_ext _ _ _ _ _ _) with (2 := H2). intros v Hv.
  rewrite <- put_at_cons by done. apply put_at_ext, W1, Hv.
Qed.

Lemma vzero_user (n : nat) (m : memory) (dir a : Z) (fp : Z -> Z) :
  user_space m dir fp -> USER_ELF_BASE <= a -> a + Z.of_nat n <= USER_STACK_TOP ->
  exists m', vzero n dir a m = Some m' /\ wrote m m' dir fp (zero_at a (Z.of_nat n) (window m fp)).
Proof.
  revert m a. induction n as [|n IH]; intros m a Hu Ha Hl.
  { exists m. split; [done|]. split; [done|]. split; [|done]. intros v _. unfold zero_at.
    destruct (Z.leb_spec a v), (Z.ltb_spec v (a + Z.of_nat 0)); try lia; done. }
  assert (Hw : in_window a) by (unfold in_window; lia).
  destruct (vstore8_user m dir a 0 fp Hu Hw) as (m1 & E1 & U1 & W1 & O1).
  destruct (IH m1 (a + 1) U1) as (m2 & E2 & H2); [lia|lia|].
  exists m2. cbn [vzero]. rewrite E1, u32_next by done. split; [done|].
  apply (wrote_trans m m1 m2 dir fp (window m1 fp) _ (conj U1 (conj (fun _ _ => eq_refl) O1))).
  apply (wrote_ext _ _ _ _ _ _) with (2 := H2). intros v Hv.
  replace (Z.of_nat (S n)) with (Z.of_nat n + 1) by lia. rewrite <- zero_at_S by lia. apply zero_at_ext, W1, Hv.
Qed.

(** Zeroing that leaves the window faults on the first address above it. *)
Lemma vzero_faults (n : nat) (m : memory) (dir a : Z) (fp : Z -> Z) :
  user_space m dir fp -> walk m dir USER_STACK_TOP = None ->
  USER_ELF_BASE <= a <= USER_STACK_TOP -> USER_STACK_TOP < a + Z.of_nat n -> vzero n dir a m = None.
Proof.
  revert m a. induction n as [|n IH]; intros m a Hu Hnone Ha Hl; [lia|]. cbn [vzero].
  destruct (Z.eq_dec a USER_STACK_TOP) as [->|Hne].
  { unfold vstore8. by rewrite Hnone. }
  assert (Hw : in_window a) by (unfold in_window; lia).
  destruct (vstore8_user m dir a 0 fp Hu Hw) as (m1 & E1 & U1 & W1 & O1). rewrite E1, u32_next by done.
  apply IH; [done| |lia|lia]. by rewrite (walk_outside m m1 dir fp).
Qed.

(** ** Loading the image *)

(** A loadable segment inside the window *)
Definition fits (ph : phdr) : Prop :=
  p_type ph = PT_LOAD -> USER_ELF_BASE <= p_vaddr ph /\ 0 <= p_filesz ph <= p_memsz ph /\
    p_vaddr ph + p_memsz ph <= USER_STACK_TOP.

Lemma segment_at_ext (buf : list Z) (ph : phdr) (f g : Z -> Z) (v : Z) :
  f v = g v -> segment_at buf ph f v = segment_at buf ph g v.
Proof. intros E. unfold segment_at. destruct (p_type ph =? PT_LOAD); [|done]. by apply zero_at_ext, put_at_ext. Qed.

Lemma segments_at_ext (n : nat) (buf : list Z) (i : Z) (f g : Z -> Z) (v : Z) :
  f v = g v -> segments_at n buf i f v = segments_at n buf i g v.
Proof.
  revert i f g. induction n as [|n IH]; intros i f g E; cbn [segments_at]; [done|]. by apply IH, segment_at_ext.
Qed.

Lemma is_bytes_read (l : list Z) (a n : Z) : is_bytes l -> is_bytes (get_bytes l a n).
Proof. intros H. unfold get_bytes. apply Forall_map, Forall_forall. intros i _. by apply is_bytes_byte_at. Qed.

Lemma load_segment_user (m : memory) (dir : Z) (buf : list Z) (ph : phdr) (fp : Z -> Z) :
  user_space m dir fp -> is_bytes buf -> fits ph ->
  exists m', load_segment dir buf ph m = Some m' /\ wrote m m' dir fp (segment_at buf ph (window m fp)).
Proof.
  intros Hu Hb Hfit. unfold load_segment, segment_at. destruct (Z.eqb_spec (p_type ph) PT_LOAD) as [Hl|_].
  2: { exists m. split; [done|]. exact (conj Hu (conj (fun _ _ => eq_refl) (fun _ _ => eq_refl))). }
  destruct (Hfit Hl) as (Ha & Hfm & Hend). set (bs := get_bytes buf (p_offset ph) (p_filesz ph)).
  assert (Hlen : Z.of_nat (length bs) = p_filesz ph) by (unfold bs; rewrite length_get_bytes; lia).
  destruct (vcopy_user bs m dir (p_vaddr ph) fp Hu) as (m1 & E1 & H1);
    [by apply is_bytes_read|done|lia|]. rewrite E1. pose proof H1 as (U1 & W1 & O1).
  destruct (Z.ltb_spec (p_filesz ph) (p_memsz ph)) as [Hlt|Hge].
  - unfold USER_ELF_BASE, USER_STACK_TOP in *. rewrite u32_small by lia.
    destruct (vzero_user (Z.to_nat (p_memsz ph - p_filesz ph)) m1 dir (p_vaddr ph + p_filesz ph) fp U1) as (m2 & E2 & H2);
      [unfold USER_ELF_BASE; lia|unfold USER_STACK_TOP; lia|]. exists m2. split; [done|].
    apply (wrote_trans m m1 m2 dir fp _ _ H1). rewrite Z2Nat.id in H2 by lia.
    apply (wrote_ext _ _ _ _ _ _) with (2 := H2). intros v Hv. apply zero_at_ext, W1, Hv.
  - exists m1. split; [done|]. apply (wrote_ext _ _ _ _ _ _) with (2 := H1). intros v Hv. unfold zero_at.
    destruct (Z.leb_spec (p_vaddr ph + p_filesz ph) v),
      (Z.ltb_spec v (p_vaddr ph + p_filesz ph + (p_memsz ph - p_filesz ph))); try lia; done.
Qed.

Lemma load_segments_user (n : nat) (m : memory) (dir i : Z) (buf : list Z) (fp : Z -> Z) :
  user_space m dir fp -> is_bytes buf -> (forall j, i <= j < i + Z.of_nat n -> fits (phdr_at buf j)) ->
  exists m', load_segments n dir buf i m = Some m' /\ wrote m m' dir fp (segments_at n buf i (window m fp)).
Proof.
  revert m i. induction n as [|n IH]; intros m i Hu Hb Hfit; cbn [load_segments segments_at].
  { exists m. split; [done|]. exact (conj Hu (conj (fun _ _ => eq_refl) (fun _ _ => eq_refl))). }
  destruct (load_segment_user m dir buf (phdr_at buf i) fp Hu Hb) as (m1 & E1 & H1); [apply Hfit; lia|].
  rewrite E1. pose proof H1 as (U1 & W1 & _).
  destruct (IH m1 (i + 1) U1 Hb) as (m2 & E2 & H2); [intros j Hj; apply Hfit; lia|].
  exists m2. split; [done|]. apply (wrote_trans m m1 m2 dir fp _ _ H1).
  apply (wrote_ext _ _ _ _ _ _) with (2 := H2). intros v Hv. apply segments_at_ext, W1, Hv.
Qed.

Lemma load_image_user (m : memory) (dir : Z) (buf : list Z) (fp : Z -> Z) :
  user_space m dir fp -> is_bytes buf -> (forall j, 0 <= j < e_phnum buf -> fits (phdr_at buf j)) ->
  exists m', load_image dir buf m = Some m' /\ wrote m m' dir fp (image buf (window m fp)).
Proof.
  intros Hu Hb Hfit. unfold load_image.
  destruct (load_segments_user (Z.to_nat (e_phnum buf)) m dir 0 buf fp Hu Hb) as (m1 & -> & H1);
    [intros j Hj; apply Hfit; lia|]. pose proof H1 as (U1 & W1 & _).
  destruct (vcopy_user exit_code m1 dir USER_EXIT_TRAMP fp U1) as (m2 & -> & H2);
    [by repeat constructor|done|done|]. pose proof H2 as (U2 & W2 & _).
  destruct (vcopy_user return_address m2 dir (USER_STACK_TOP - 4) fp U2) as (m3 & -> & H3);
    [by repeat constructor|done|done|]. exists m3. split; [done|].
  apply (wrote_trans m m1 m3 dir fp _ _ H1), (wrote_trans m1 m2 m3 dir fp _ _ H2).
  apply (wrote_ext _ _ _ _ _ _) with (2 := H3). intros v Hv. unfold image. apply put_at_ext.
  rewrite W2 by done. apply put_at_ext, W1, Hv.
Qed.

(** A segment whose end is past the window: the kernel faults. *)
Lemma load_segment_faults (m : memory) (dir : Z) (buf : list Z) (ph : phdr) (fp : Z -> Z) :
  user_space m dir fp -> walk m dir USER_STACK_TOP = None -> is_bytes buf -> p_type ph = PT_LOAD ->
  USER_ELF_BASE <= p_vaddr ph -> 0 <= p_filesz ph < p_memsz ph -> p_vaddr ph + p_filesz ph <= USER_STACK_TOP ->
  USER_STACK_TOP < p_vaddr ph + p_memsz ph -> load_segment dir buf ph m = None.
Proof.
  intros Hu Hn Hb Hl Ha Hf Hv Hend. unfold load_segment. rewrite Hl, Z.eqb_refl.
  set (bs := get_bytes buf (p_offset ph) (p_filesz ph)).
  assert (Hlen : Z.of_nat (length bs) = p_filesz ph) by (unfold bs; rewrite length_get_bytes; lia).
  destruct (vcopy_user bs m dir (p_vaddr ph) fp Hu) as (m1 & E1 & U1 & W1 & O1);
    [by apply is_bytes_read|done|lia|]. rewrite E1, (proj2 (Z.ltb_lt _ _)) by lia.
  unfold USER_ELF_BASE, USER_STACK_TOP in *. rewrite u32_small by lia.
  apply (vzero_faults _ m1 dir _ fp U1); [|unfold USER_ELF_BASE, USER_STACK_TOP; lia|unfold USER_STACK_TOP; lia].
  by rewrite (walk_outside m m1 dir fp).
Qed.
