(* ===== verification/ElfBuild.v ===== *)
(** * Building the user address space

    [user_dir] from the page directory copy to the last mapped page: the
    window is mapped to fresh frames, the other entries are the kernel's, and
    no byte of a frame that was in use is written. *)
From S2P Require Import Prelude Bytes Memory FrameAlloc Pfa Paging Task Elf ElfSpace.
Import Pfa Paging Task Elf.

(** Memory in the frames that [fr] has handed out *)
Definition kept (fr : pfa) (m m' : memory) : Prop :=
  forall x, 0 <= x < 4096 * total_frames fr -> used fr (x / 4096) = true -> load8 m' x = load8 m x.

(** After [j] pages: the directory [pd] built on the kernel's [kd], from the
    memory [m0] and allocator [fr0] *)
Record built (m0 : memory) (fr0 : pfa) (kd : Z) (m : memory) (fr : pfa) (pd : Z) (fp : Z -> Z) (j : Z) : Prop := {
  bu_wf : dir_wf m fr pd;
  bu_pd : used fr0 (pd / 4096) = false;
  bu_table : present (entry m pd USER_PDE_IDX) = true -> used fr0 (frame_of (entry m pd USER_PDE_IDX) / 4096) = false;
  bu_rest : forall i, 0 <= i < 1024 -> i <> USER_PDE_IDX -> entry m pd i = entry m0 kd i;
  bu_mem : forall x, x / 4096 <> pd / 4096 ->
    (present (entry m pd USER_PDE_IDX) = true -> x / 4096 <> frame_of (entry m pd USER_PDE_IDX) / 4096) ->
    load8 m x = load8 m0 x;
  bu_used : forall g, 0 <= g < total_frames fr0 -> used fr0 g = true -> used fr g = true;
  bu_total : total_frames fr = total_frames fr0;
  bu_fp : forall p, 2048 <= p < 2048 + j -> 0 < fp p < total_frames fr /\ used fr0 (fp p) = false /\
    used fr (fp p) = true /\ fp p <> pd / 4096 /\
    (present (entry m pd USER_PDE_IDX) = true -> fp p <> frame_of (entry m pd USER_PDE_IDX) / 4096);
  bu_inj : forall p q, 2048 <= p < 2048 + j -> 2048 <= q < 2048 + j -> fp p = fp q -> p = q;
  bu_walk : forall v, 8388608 <= v < 12582912 ->
    walk m pd v = if v / 4096 <? 2048 + j then Some (fp (v / 4096) * 4096 + 7) else None }.

(** ** One page *)

Lemma create_table_footprint (s s' : vm pfa) (pd virt flags t : Z) :
  pd mod 4096 = 0 -> t mod 4096 = 0 -> t <> pd -> t <> 0 -> create_table_in_dir s pd virt flags = (t, s') ->
  (forall j, 0 <= j < 1024 -> j <> PDE_IDX virt -> entry (vmem s') pd j = entry (vmem s) pd j) /\
  (forall x, x / 4096 <> pd / 4096 -> x / 4096 <> t / 4096 -> load8 (vmem s') x = load8 (vmem s) x).
Proof.
  intros Hp Ht Hne H0 E. pose proof (PDE_IDX_range virt) as Hi. unfold create_table_in_dir in E.
  destruct (fa_alloc (frames s)) as [a fr]. destruct (Z.eqb_spec a 0); injection E as <- <-; [done|].
  cbn [with_mem with_frames vmem]. split.
  - intros j Hj Hji. rewrite entry_set, entry_fill by done.
    destruct (Z.eqb_spec pd a); [congruence|]. destruct (Z.eqb_spec j (PDE_IDX virt)); [done|]. by rewrite andb_false_r.
  - intros x Hx1 Hx2. rewrite load8_set_entry, load8_fill_table by done. done.
Qed.

(** The footprint of [map_page_to_dir] *)
Lemma map_page_footprint (s s' : vm pfa) (pd virt phys flags : Z) :
  dir_wf (vmem s) (frames s) pd -> 0 <= virt < 4294967296 -> map_page_to_dir s pd virt phys flags = (0, s') ->
  let i := PDE_IDX virt in
  present (entry (vmem s') pd i) = true /\
  ((present (entry (vmem s) pd i) = true /\ entry (vmem s') pd i = entry (vmem s) pd i /\ frames s' = frames s) \/
   (present (entry (vmem s) pd i) = false /\ frame_of (entry (vmem s') pd i) <> 0 /\
    alloc_frame (frames s) = (frame_of (entry (vmem s') pd i), frames s'))) /\
  (forall j, 0 <= j < 1024 -> j <> i -> entry (vmem s') pd j = entry (vmem s) pd j) /\
  (forall x, x / 4096 <> pd / 4096 -> x / 4096 <> frame_of (entry (vmem s') pd i) / 4096 ->
     load8 (vmem s') x = load8 (vmem s) x).
Proof.
  intros Hwf Hv E i. pose proof (PDE_IDX_range virt) as Hi. fold i in Hi. pose proof (PTE_IDX_range virt) as Hj.
  pose proof (dir_aligned _ _ _ Hwf) as Hal. unfold map_page_to_dir in E. fold i in E.
  destruct (present (entry (vmem s) pd i)) eqn:Hp; cbn [Z.eqb] in E.
  - injection E as <-. cbn [with_mem vmem frames]. destruct Hwf as (_ & _ & Ht & _). destruct (Ht i Hi Hp) as [_ Hne].
    assert (He : forall j v, 0 <= j < 1024 ->
      entry (set_entry (vmem s) (frame_of (entry (vmem s) pd i)) (PTE_IDX virt) v) pd j = entry (vmem s) pd j).
    { intros j v Hjr. rewrite entry_set by (first [apply frame_of_aligned | done]).
      destruct (Z.eqb_spec pd (frame_of (entry (vmem s) pd i))); [congruence|done]. }
    rewrite !He by done. split; [done|]. split; [by left|]. split; [intros; by apply He|].
    intros x Hx1 Hx2. apply load8_set_entry; [apply frame_of_aligned|done|done].
  - pose proof (create_table_spec s pd virt flags Hwf Hp) as Hc.
    destruct (create_table_in_dir s pd virt flags) as [t s1] eqn:Ec.
    destruct Hc as (_ & _ & _ & [(-> & -> & _)|(Ht & Ea & Hwf1 & Hp1 & Hf1 & _)]); [discriminate|].
    destruct (Z.eqb_spec t 0) as [|_]; [contradiction|]. cbn [Z.eqb] in E. injection E as <-.
    fold i in Hp1, Hf1. destruct Hwf1 as (_ & _ & Ht1 & _). destruct (Ht1 i Hi Hp1) as [[Hta _] Hne]. rewrite Hf1 in *.
    destruct (create_table_footprint s s1 pd virt flags t Hal Hta Hne Ht Ec) as [Hej Hx]. fold i in Hej.
    cbn [with_mem vmem frames].
    assert (He : forall j v, 0 <= j < 1024 -> entry (set_entry (vmem s1) t (PTE_IDX virt) v) pd j = entry (vmem s1) pd j).
    { intros j v Hjr. rewrite entry_set by done. destruct (Z.eqb_spec pd t); [congruence|done]. }
    rewrite !He, Hf1 by done. split; [done|]. split; [right; done|]. split; [intros; rewrite He by done; by apply Hej|].
    intros x Hx1 Hx2. rewrite load8_set_entry by done. by apply Hx.
Qed.

(** An allocated frame, in the allocator's own terms *)
Lemma fresh_frame (fr fr' : pfa) (a : Z) :
  pfa_inv fr -> alloc_frame fr = (a, fr') -> a <> 0 ->
  a = a / 4096 * 4096 /\ 0 < a / 4096 < total_frames fr /\ used fr (a / 4096) = false /\ pfa_inv fr' /\
  total_frames fr' = total_frames fr /\ (forall g, 0 <= g -> used fr' g = (g =? a / 4096) || used fr g).
Proof.
  intros Hp E Ha. destruct (alloc_frame_some fr fr' a Hp E Ha) as (f & Ef & Hf & Hu & _ & Hp' & Ht & Hu').
  unfold FRAME_SIZE in Ef. assert (a / 4096 = f) as -> by (rewrite Ef; apply Z.div_mul; lia). done.
Qed.

Lemma page_index (j : Z) : 0 <= j < 512 -> PDE_IDX (USER_ELF_BASE + 4096 * j) = USER_PDE_IDX.
Proof. intros Hj. unfold USER_ELF_BASE, USER_PDE_IDX. rewrite PDE_IDX_eq by lia. div_mod_lia. Qed.

(** The frame of the window's page table after a page was mapped to frame
    [f]: it is none of the frames that matter. *)
Lemma built_table (m0 : memory) (fr0 fr1 fr' : pfa) (kd pd j f : Z) (m m' : memory) (fr : pfa) (fp : Z -> Z) :
  built m0 fr0 kd m fr pd fp j -> pfa_inv fr1 -> total_frames fr1 = total_frames fr -> used fr f = false ->
  (forall g, 0 <= g -> used fr1 g = (g =? f) || used fr g) ->
  let T := frame_of (entry m' pd USER_PDE_IDX) in
  (present (entry m pd USER_PDE_IDX) = true /\ entry m' pd USER_PDE_IDX = entry m pd USER_PDE_IDX /\ fr' = fr1) \/
  (present (entry m pd USER_PDE_IDX) = false /\ T <> 0 /\ alloc_frame fr1 = (T, fr')) ->
  used fr0 (T / 4096) = false /\ f <> T / 4096 /\ (forall p, 2048 <= p < 2048 + j -> fp p <> T / 4096) /\
  total_frames fr' = total_frames fr /\ (forall g, 0 <= g -> used fr g = true \/ g = f -> used fr' g = true).
Proof.
  intros [(_ & _ & Htok & _) _ Htab _ _ Hused Htot Hfp _ _] Hp1 Ht1 Hff Hu1 T Hcase.
  destruct Hcase as [(Hp0 & Ee & ->)|(Hp0 & HT0 & EaT)].
  - assert (ET : T = frame_of (entry m pd USER_PDE_IDX)) by (unfold T; by rewrite Ee). rewrite ET.
    split; [by apply Htab|]. assert (Hi2 : 0 <= USER_PDE_IDX < 1024) by (unfold USER_PDE_IDX; lia).
    destruct (Htok _ Hi2 Hp0) as [(_ & _ & Hut) _].
    change (used fr (frame_of (entry m pd USER_PDE_IDX) / 4096) = true) in Hut. split; [congruence|].
    split; [intros p Hp; apply Hfp; [done|]; by rewrite Hp0|]. split; [done|].
    intros g Hg [Hu|Hgf]; rewrite Hu1 by done; [by rewrite Hu, orb_true_r|by rewrite Hgf, Z.eqb_refl].
  - pose proof (fresh_frame _ _ _ Hp1 EaT HT0) as (_ & HTr & HTu & _ & HTt & HTu').
    rewrite Hu1 in HTu by lia. apply orb_false_iff in HTu as [HTf HTu]. apply Z.eqb_neq in HTf.
    split; [|split; [congruence|split; [|split; [by rewrite HTt, Ht1|]]]].
    + destruct (used fr0 (T / 4096)) eqn:Eu; [|done]. rewrite Hused in HTu by (done || lia). done.
    + intros p Hp Ec. destruct (Hfp p Hp) as (_ & _ & Hup & _). congruence.
    + intros g Hg [Hu|Hgf]; rewrite HTu', Hu1 by done; [by rewrite Hu, !orb_true_r|by rewrite Hgf, Z.eqb_refl, orb_true_r].
Qed.

Lemma built_step (m0 : memory) (fr0 fr1 : pfa) (kd pd phys j : Z) (s s' : vm pfa) (fp : Z -> Z) :
  built m0 fr0 kd (vmem s) (frames s) pd fp j -> 0 <= j < 512 ->
  alloc_frame (frames s) = (phys, fr1) -> phys <> 0 ->
  map_page_to_dir (with_frames s fr1) pd (USER_ELF_BASE + 4096 * j) phys (Z.lor PAGE_WRITE PAGE_USER) = (0, s') ->
  built m0 fr0 kd (vmem s') (frames s') pd (fun p => if p =? 2048 + j then phys / 4096 else fp p) (j + 1).
Proof.
  intros Hb Hj Ea Hph Em. pose proof Hb as [Hwf Hpd Htab Hrest Hmem Hused Htot Hfp Hinj Hwalk].
  pose proof (fresh_frame _ _ _ (proj1 Hwf) Ea Hph) as (Eph & Hf & Hff & Hp1 & Ht1 & Hu1). set (f := phys / 4096) in *.
  destruct (dir_wf_alloc _ _ _ _ phys Hwf Ea Hph) as (Hwf1 & Hnpd & Hnt).
  assert (Hv : 0 <= USER_ELF_BASE + 4096 * j < 4294967296) by (unfold USER_ELF_BASE; lia).
  assert (Hphr : 0 <= phys < 4294967296).
  { destruct Hp1 as (_ & _ & ? & _). unfold MAX_FRAMES in *. lia. }
  destruct (map_page_to_dir_spec (with_frames s fr1) s' pd _ phys _ 0 Hwf1 Hv Hphr Em) as (_ & [(_ & Hwf' & Hw')|(? & _)]); [|lia].
  destruct (map_page_footprint (with_frames s fr1) s' pd _ phys _ Hwf1 Hv Em) as (Hpres & Hcase & Hent & Hby).
  rewrite page_index in * by done. cbn [with_frames vmem frames] in *.
  set (T := frame_of (entry (vmem s') pd USER_PDE_IDX)) in *.
  destruct Hwf as (_ & (Hpal & Hpr & Hpu) & Htok & _).
  change (used (frames s) (pd / 4096) = true) in Hpu. assert (Hfpd : f <> pd / 4096) by congruence.
  destruct (built_table m0 fr0 fr1 (frames s') kd pd j f (vmem s) (vmem s') (frames s) fp) as
    (HTfree & HTf & HTfp & HTtot & HTused); [done|done|done|done|done|done|]. fold T in HTfree, HTf, HTfp.
  assert (Hf0 : used fr0 f = false).
  { destruct (used fr0 f) eqn:Eu; [|done]. rewrite Hused in Hff by (done || lia). done. }
  split; [done|done|done|..].
  - intros i Hi Hne. rewrite Hent by done. by apply Hrest.
  - intros x Hx1 Hx2. rewrite Hby by (first [done | by apply Hx2]). apply Hmem; [done|]. intros Hp0.
    destruct Hcase as [(_ & Ee & _)|(Hp0' & _)]; [|congruence]. rewrite <- Ee. by apply Hx2.
  - intros g Hg Hu. apply HTused; [lia|]. left. by apply Hused.
  - by rewrite HTtot.
  - intros p Hp. destruct (Z.eqb_spec p (2048 + j)) as [->|Hne].
    + rewrite HTtot. split; [done|]. split; [done|]. split; [apply HTused; [lia|by right]|]. split; [done|]. by intros _.
    + destruct (Hfp p ltac:(lia)) as (H1 & H2 & H3 & H4 & _). rewrite HTtot. split; [done|]. split; [done|].
      split; [apply HTused; [lia|by left]|]. split; [done|]. intros _. apply HTfp. lia.
  - intros p q Hp Hq. destruct (Z.eqb_spec p (2048 + j)), (Z.eqb_spec q (2048 + j)); try lia.
    + intros E. destruct (Hfp q ltac:(lia)) as (_ & _ & Hu & _). congruence.
    + intros E. destruct (Hfp p ltac:(lia)) as (_ & _ & Hu & _). congruence.
    + apply Hinj; lia.
  - intros v Hvr. rewrite Hw' by lia. rewrite Hwalk by lia. unfold USER_ELF_BASE.
    replace ((8388608 + 4096 * j) / 4096) with (2048 + j) by div_mod_lia.
    unfold mapped_pte. change (Z.lor PAGE_PRESENT (Z.land (Z.lor PAGE_WRITE PAGE_USER) 7)) with 7.
    destruct (Z.eqb_spec (v / 4096) (2048 + j)) as [->|Hne].
    + rewrite (proj2 (Z.ltb_lt _ _)) by lia. fold f. f_equal. lia.
    + destruct (Z.ltb_spec (v / 4096) (2048 + j)), (Z.ltb_spec (v / 4096) (2048 + (j + 1))); try lia; done.
Qed.

(** ** The whole directory *)

(** What a step of the loader may do to the rest of the system: take free
    frames and write to them *)
Record grown (m0 : memory) (fr0 : pfa) (kd : Z) (s : vm pfa) : Prop := {
  gr_kept : kept fr0 m0 (vmem s);
  gr_inv : pfa_inv (frames s);
  gr_total : total_frames (frames s) = total_frames fr0;
  gr_used : forall g, 0 <= g < total_frames fr0 -> used fr0 g = true -> used (frames s) g = true;
  gr_dir : kernel_page_dir s = kd }.

Lemma built_kept (m0 m : memory) (fr0 fr : pfa) (kd pd j : Z) (fp : Z -> Z) :
  built m0 fr0 kd m fr pd fp j -> kept fr0 m0 m.
Proof.
  intros [_ Hpd Htab _ Hmem _ _ _ _ _] x Hx Hu. apply Hmem.
  - intros E. rewrite E in Hu. congruence.
  - intros Hp E. rewrite E in Hu. rewrite Htab in Hu by done. done.
Qed.

Lemma built_grown (m0 : memory) (fr0 : pfa) (kd pd j : Z) (s : vm pfa) (fp : Z -> Z) :
  built m0 fr0 kd (vmem s) (frames s) pd fp j -> kernel_page_dir s = kd -> grown m0 fr0 kd s.
Proof.
  intros Hb Hk. split; [by eapply built_kept|apply Hb|apply Hb|apply Hb|done].
Qed.

Lemma grown_frames (m0 : memory) (fr0 fr : pfa) (kd : Z) (s : vm pfa) :
  grown m0 fr0 kd s -> pfa_inv fr -> total_frames fr = total_frames (frames s) ->
  (forall g, 0 <= g < total_frames fr0 -> used fr0 g = true -> used (frames s) g = true -> used fr g = true) ->
  grown m0 fr0 kd (with_frames s fr).
Proof.
  intros [? ? ? Hu ?] Hp Ht Hm. split; cbn [with_frames vmem frames kernel_page_dir]; [done|done|congruence| |done].
  intros g Hg H0. apply Hm; auto.
Qed.

Lemma map_user_spec (m0 : memory) (fr0 : pfa) (kd pd : Z) (n : nat) (j : Z) (s s' : vm pfa) (fp : Z -> Z) (ok : bool) :
  built m0 fr0 kd (vmem s) (frames s) pd fp j -> kernel_page_dir s = kd -> 0 <= j -> j + Z.of_nat n <= 512 ->
  map_user n s pd (USER_ELF_BASE + 4096 * j) = (ok, s') ->
  grown m0 fr0 kd s' /\
  (ok = true -> exists fp', built m0 fr0 kd (vmem s') (frames s') pd fp' (j + Z.of_nat n)).
Proof.
  revert j s fp. induction n as [|n IH]; intros j s fp Hb Hk Hj Hn; cbn [map_user].
  { intros [= <- <-]. split; [by eapply built_grown|]. intros _. exists fp. by rewrite Z.add_0_r. }
  destruct (alloc_frame (frames s)) as [phys fr1] eqn:Ea. pose proof (built_grown _ _ _ _ _ _ _ Hb Hk) as Hg.
  destruct (Z.eqb_spec phys 0) as [->|Hph].
  { intros [= <- <-]. destruct (alloc_frame_none _ _ (gr_inv _ _ _ _ Hg) Ea) as [-> _].
    destruct s. split; [done|]. discriminate. }
  pose proof (fresh_frame _ _ _ (gr_inv _ _ _ _ Hg) Ea Hph) as (Eph & Hf & _ & Hp1 & Ht1 & Hu1).
  destruct (map_page_to_dir _ pd _ phys _) as [r s1] eqn:Em.
  destruct (dir_wf_alloc _ _ _ _ phys (bu_wf _ _ _ _ _ _ _ _ Hb) Ea Hph) as (Hwf1 & _ & _).
  assert (Hphr : 0 <= phys < 4294967296).
  { destruct Hp1 as (_ & _ & ? & _). unfold MAX_FRAMES in *. lia. }
  destruct (map_page_to_dir_spec (with_frames s fr1) s1 pd (USER_ELF_BASE + 4096 * j) phys _ r Hwf1 ltac:(unfold USER_ELF_BASE; lia) Hphr Em)
    as (Hk1 & [(-> & _)|(-> & -> & _)]); cbn [Z.eqb negb].
  - intros Er. replace (USER_ELF_BASE + 4096 * j + 4096) with (USER_ELF_BASE + 4096 * (j + 1)) in Er by lia.
    pose proof (built_step _ _ _ _ _ _ _ _ _ _ Hb ltac:(lia) Ea Hph Em) as Hb1.
    replace (j + Z.of_nat (S n)) with (j + 1 + Z.of_nat n) by lia.
    apply (IH (j + 1) s1 _ Hb1); [rewrite Hk1; exact Hk|lia|lia|done].
  - intros [= <- <-]. split; [|discriminate]. apply grown_frames; [done|done|done|].
    intros g Hg0 _ Hu. by rewrite Hu1, Hu, orb_true_r by lia.
Qed.

(** Clearing a directory entry *)
Lemma dir_wf_clear (m : memory) (fr : pfa) (dir i : Z) :
  dir_wf m fr dir -> 0 <= i < 1024 -> dir_wf (set_entry m dir i 0) fr dir.
Proof.
  intros (Hok & Hd & Ht & Hinj) Hi. pose proof (proj1 Hd) as Hal.
  assert (He : forall j, 0 <= j < 1024 -> entry (set_entry m dir i 0) dir j = if j =? i then 0 else entry m dir j).
  { intros j Hj. rewrite entry_set, Z.eqb_refl by done. cbn [andb]. done. }
  split; [done|]. split; [done|]. split.
  - intros j Hj. rewrite He by done. destruct (j =? i); [done|]. by apply Ht.
  - intros j k Hj Hk Hne. rewrite !He by done. destruct (j =? i), (k =? i); try done. by apply Hinj.
Qed.

Lemma page_dir_create_run (s s1 : vm pfa) (pd : Z) :
  page_dir_create s = (pd, s1) -> pd <> 0 ->
  alloc_frame (frames s) = (pd, frames s1) /\ kernel_page_dir s1 = kernel_page_dir s /\
  vmem s1 = copy_dir (vmem s) pd (kernel_page_dir s).
Proof.
  unfold page_dir_create. cbn [fa_alloc pfa_frame_allocator]. destruct (alloc_frame (frames s)) as [d fr1].
  destruct (Z.eqb_spec d 0); intros [= <- <-] H; [done|]. done.
Qed.

Lemma page_dir_create_fails (s s1 : vm pfa) :
  pfa_inv (frames s) -> page_dir_create s = (0, s1) -> s1 = s.
Proof.
  intros Hp. unfold page_dir_create. cbn [fa_alloc pfa_frame_allocator].
  destruct (alloc_frame (frames s)) as [d fr1] eqn:E. destruct (Z.eqb_spec d 0) as [->|Hne].
  - intros [= <-]. destruct (alloc_frame_none _ _ Hp E) as [-> _]. by destruct s.
  - intros [= E2 _]. done.
Qed.

Lemma built_start (s s1 : vm pfa) (pd : Z) :
  dir_wf (vmem s) (frames s) (kernel_page_dir s) -> page_dir_create s = (pd, s1) -> pd <> 0 ->
  built (vmem s) (frames s) (kernel_page_dir s) (set_entry (vmem s1) pd USER_PDE_IDX 0) (frames s1) pd (fun _ => 0) 0.
Proof.
  intros Hwf E Hpd. destruct (page_dir_create_spec s s1 pd Hwf E Hpd) as (_ & Hwd & Hne & _).
  destruct (page_dir_create_run s s1 pd E Hpd) as (Ea & _ & Em). clear E.
  assert (Hi : 0 <= USER_PDE_IDX < 1024) by (unfold USER_PDE_IDX; lia).
  pose proof (fresh_frame _ _ _ (proj1 Hwf) Ea Hpd) as (_ & Hdr & Hdu & _ & Ht1 & Hu1).
  pose proof (dir_aligned _ _ _ Hwf) as Hkal. pose proof (dir_aligned _ _ _ Hwd) as Hal.
  pose proof (dir_wf_clear _ _ _ _ Hwd Hi) as Hwc.
  assert (He : forall j, 0 <= j < 1024 -> entry (set_entry (vmem s1) pd USER_PDE_IDX 0) pd j =
    if j =? USER_PDE_IDX then 0 else entry (vmem s) (kernel_page_dir s) j).
  { intros j Hj. rewrite entry_set, Z.eqb_refl by done. cbn [andb]. rewrite Em.
    rewrite copy_dir_entries, Z.eqb_refl by (assumption || congruence). reflexivity. }
  assert (Hm : forall x, x / 4096 <> pd / 4096 -> load8 (set_entry (vmem s1) pd USER_PDE_IDX 0) x = load8 (vmem s) x).
  { intros x Hx. rewrite load8_set_entry, Em by assumption. by apply load8_copy_dir. }
  clear Em Hwd. revert Hwc He Hm. generalize (set_entry (vmem s1) pd USER_PDE_IDX 0). intros m2 Hwc He Hm.
  assert (H0 : entry m2 pd USER_PDE_IDX = 0) by (by rewrite He, Z.eqb_refl by done).
  split; rewrite ?H0; [exact Hwc|exact Hdu|discriminate|..].
  - intros i Hir Hni. rewrite He by done. destruct (Z.eqb_spec i USER_PDE_IDX); done.
  - intros x Hx _. by apply Hm.
  - intros g Hg Hu. by rewrite Hu1, Hu, orb_true_r by lia.
  - exact Ht1.
  - intros; lia.
  - intros; lia.
  - intros v Hv. rewrite (proj2 (Z.ltb_ge _ _)) by div_mod_lia. unfold walk.
    rewrite PDE_IDX_eq by lia. replace (v / 4194304) with USER_PDE_IDX by (unfold USER_PDE_IDX; div_mod_lia). by rewrite H0.
Qed.

(** [user_dir]: on success the window is complete; in any case the rest of
    the system is untouched. *)
Lemma user_dir_spec (s s' : vm pfa) (pd : Z) :
  dir_wf (vmem s) (frames s) (kernel_page_dir s) -> user_dir s = (pd, s') ->
  grown (vmem s) (frames s) (kernel_page_dir s) s' /\
  (pd <> 0 -> exists fp, built (vmem s) (frames s) (kernel_page_dir s) (vmem s') (frames s') pd fp 512).
Proof.
  intros Hwf. unfold user_dir. destruct (page_dir_create s) as [d s1] eqn:E1.
  assert (Hg0 : grown (vmem s) (frames s) (kernel_page_dir s) s) by (by split; [intros x Hx Hu|apply Hwf|..]).
  destruct (Z.eqb_spec d 0) as [->|Hd].
  { intros [= <- <-]. split; [|done]. by rewrite (page_dir_create_fails s s1 (gr_inv _ _ _ _ Hg0) E1). }
  pose proof (built_start s s1 d Hwf E1 Hd) as Hb. destruct (page_dir_create_run s s1 d E1 Hd) as (_ & Hk & _).
  destruct (map_user _ _ d USER_ELF_BASE) as [ok s2] eqn:E2.
  destruct (map_user_spec (vmem s) (frames s) (kernel_page_dir s) d (Z.to_nat USER_PAGES) 0
    (with_mem s1 (set_entry (vmem s1) d USER_PDE_IDX 0)) s2 (fun _ => 0) ok Hb Hk ltac:(lia) ltac:(vm_compute; discriminate))
    as [Hg Hok]; [by rewrite Z.mul_0_r, Z.add_0_r|].
  destruct ok.
  - intros [= <- <-]. split; [done|]. intros _. destruct (Hok eq_refl) as [fp Hfp]. exists fp. exact Hfp.
  - intros [= <- <-]. split; [|done]. pose proof (bu_pd _ _ _ _ _ _ _ _ Hb) as Hdu.
    pose proof (dir_aligned _ _ _ (bu_wf _ _ _ _ _ _ _ _ Hb)) as Hal.
    assert (Hdr : 0 < d / 4096) by (apply (bu_wf _ _ _ _ _ _ _ _ Hb)).
    destruct Hg as [Hkp Hinv Htot Hus Hkd].
    destruct (free_frame_spec (frames s2) d Hinv) as (Hp3 & Ht3 & Hu3).
    { pose proof (fa_total_range (frames s) (gr_inv _ _ _ _ Hg0)).
      destruct (bu_wf _ _ _ _ _ _ _ _ Hb) as (_ & (_ & Hr & _) & _).
      unfold FRAME_SIZE. div_mod_lia. }
    split; cbn [with_frames with_mem vmem frames kernel_page_dir]; [|done|congruence| |done].
    + intros x Hx Hu. rewrite load8_set_entry; [by apply Hkp|done|unfold USER_PDE_IDX; lia|]. intros E. congruence.
    + intros g Hg Hu. rewrite Hu3, Hus by (done || lia). unfold FRAME_SIZE. destruct (Z.eqb_spec g (d / 4096)); [congruence|done].
Qed.

(** The finished window *)
Lemma built_space (m0 m : memory) (fr0 fr : pfa) (kd pd : Z) (fp : Z -> Z) :
  dir_wf m0 fr0 kd -> built m0 fr0 kd m fr pd fp 512 -> user_space m pd fp /\ walk m pd USER_STACK_TOP = None.
Proof.
  intros Hk [Hwf Hpd Htab Hrest Hmem Hused Htot Hfp Hinj Hwalk]. pose proof (dir_aligned _ _ _ Hwf) as Hal.
  assert (Hmax : total_frames fr <= 262144) by (destruct Hwf as (Hok & _); apply Hok). split; [split|].
  - split; [done|]. intros p Hp. by apply Hfp.
  - intros p Hp. destruct (Hfp p Hp) as (? & _). lia.
  - intros p q Hp Hq. by apply Hinj.
  - intros i Hi Hpr p Hp E. destruct (Z.eq_dec i USER_PDE_IDX) as [->|Hne].
    + destruct (Hfp p Hp) as (_ & _ & _ & _ & Hn). by apply Hn.
    + rewrite Hrest in Hpr, E by done. destruct Hk as (_ & _ & Ht & _). destruct (Ht i Hi Hpr) as [(_ & _ & Hu) _].
      destruct (Hfp p Hp) as (_ & Hf & _). rewrite E in Hf. change (used fr0 (frame_of (entry m0 kd i) / 4096) = true) in Hu. congruence.
  - intros v Hv. unfold in_window, USER_ELF_BASE, USER_STACK_TOP in Hv. rewrite Hwalk by lia.
    by rewrite (proj2 (Z.ltb_lt _ _)) by div_mod_lia.
  - rewrite Hwalk by (unfold USER_STACK_TOP; lia). done.
Qed.

(** The window before anything is loaded *)
Lemma built_window (m0 m : memory) (fr0 fr : pfa) (kd pd : Z) (fp : Z -> Z) (v : Z) :
  built m0 fr0 kd m fr pd fp 512 -> in_window v -> window m fp v = window m0 fp v.
Proof.
  intros [_ _ _ _ Hmem _ _ Hfp _ _] Hv. pose proof (window_page v Hv) as Hp.
  destruct (Hfp (v / 4096) Hp) as (Hr & _ & _ & Hn1 & Hn2). unfold window. set (x := fp (v / 4096) * 4096 + v mod 4096).
  assert (Ex : x / 4096 = fp (v / 4096)) by (unfold x; div_mod_lia). apply Hmem; rewrite Ex; done.
Qed.
