(* ===== verification/ElfProps.v ===== *)
(** * Properties of the program loader

    What the header checks guarantee, and what a program started by
    [elf_exec] finds: its address space, its contents, its first stack frame;
    and that the rest of memory is untouched. *)
From S2P Require Import Prelude Bytes Memory FrameAlloc Pfa Paging Task TaskRing TaskInv Elf ElfSpace ElfBuild.
Import Pfa Paging Task Elf.

(** ** The checks *)

(** An accepted segment; its end may have wrapped around 2^32. *)
Definition segment_ok (size : Z) (ph : phdr) : Prop :=
  p_type ph = PT_LOAD ->
  USER_ELF_BASE <= p_vaddr ph < USER_ELF_LIMIT /\ p_filesz ph <= p_memsz ph /\
  p_offset ph + p_filesz ph <= size /\
  (p_vaddr ph + p_memsz ph <= USER_STACK_TOP \/ 4294967296 <= p_vaddr ph + p_memsz ph).

(** The fields of a header in a buffer of bytes *)
Definition phdr_words (ph : phdr) : Prop :=
  0 <= p_type ph < 4294967296 /\ 0 <= p_offset ph < 4294967296 /\ 0 <= p_vaddr ph < 4294967296 /\
  0 <= p_filesz ph < 4294967296 /\ 0 <= p_memsz ph < 4294967296.

Lemma phdr_at_words (buf : list Z) (i : Z) : is_bytes buf -> phdr_words (phdr_at buf i).
Proof. intros Hb. unfold phdr_words, phdr_at. cbn. repeat split; apply get32_range; done. Qed.

Lemma check_segment_spec (size : Z) (ph : phdr) :
  phdr_words ph -> size < 4294967296 -> check_segment size ph = None <-> segment_ok size ph.
Proof.
  intros (_ & Ho & Hv & Hf & Hm) Hs. unfold check_segment, segment_ok, USER_ELF_BASE, USER_ELF_LIMIT, USER_STACK_TOP, u32.
  destruct (Z.eqb_spec (p_type ph) PT_LOAD) as [Hl|Hl]; cbn [negb]; [|by split].
  destruct (Z.ltb_spec (p_vaddr ph) 8388608), (Z.leb_spec 9437184 (p_vaddr ph)); cbn [orb];
    try (split; [discriminate|intros G; specialize (G Hl); lia]).
  destruct (Z.ltb_spec 10485760 ((p_vaddr ph + p_memsz ph) mod 4294967296)).
  { split; [discriminate|]. intros G. specialize (G Hl). div_mod_lia. }
  destruct (Z.ltb_spec ((p_offset ph + p_filesz ph) mod 4294967296) (p_offset ph)),
    (Z.ltb_spec size ((p_offset ph + p_filesz ph) mod 4294967296)); cbn [orb];
    try (split; [discriminate|intros G; specialize (G Hl); div_mod_lia]).
  destruct (Z.ltb_spec (p_memsz ph) (p_filesz ph)).
  { split; [discriminate|]. intros G. specialize (G Hl). lia. }
  split; [intros _ _|done]. div_mod_lia.
Qed.

Lemma check_segments_spec (n : nat) (buf : list Z) (size i : Z) :
  is_bytes buf -> size < 4294967296 ->
  check_segments n buf size i = None <-> forall j, i <= j < i + Z.of_nat n -> segment_ok size (phdr_at buf j).
Proof.
  intros Hb Hs. revert i. induction n as [|n IH]; intros i; cbn [check_segments].
  { split; [intros _ j Hj; lia|done]. }
  pose proof (check_segment_spec size (phdr_at buf i) (phdr_at_words buf i Hb) Hs) as Hc.
  destruct (check_segment size (phdr_at buf i)) as [e|].
  - split; [discriminate|]. intros G. assert (Some e = None) by (apply Hc, G; lia). done.
  - rewrite IH. split.
    + intros G j Hj. destruct (Z.eq_dec j i) as [->|]; [by apply Hc|]. apply G. lia.
    + intros G j Hj. apply G. lia.
Qed.

Lemma get16_range (l : list Z) (i : Z) : is_bytes l -> 0 <= get16 l i < 65536.
Proof.
  intros Hb. unfold get16. pose proof (is_bytes_byte_at l i Hb). pose proof (is_bytes_byte_at l (i + 1) Hb). lia.
Qed.

(** The conditions under which a file is accepted *)
Definition acceptable (buf : list Z) (size : Z) : Prop :=
  52 <= size /\ get32 buf 0 = ELF_MAGIC /\ byte_at buf 4 = 1 /\ get16 buf 18 = 3 /\
  USER_ELF_BASE <= e_entry buf < USER_ELF_LIMIT /\ 32 <= e_phentsize buf /\
  e_phoff buf + e_phnum buf * e_phentsize buf <= size /\
  forall i, 0 <= i < e_phnum buf -> segment_ok size (phdr_at buf i).

Lemma elf_check_spec (buf : list Z) (size : Z) :
  is_bytes buf -> size <= 131072 -> elf_check buf size = None <-> acceptable buf size.
Proof.
  intros Hb Hs. pose proof (get32_range buf 28 Hb) as Ho. fold (e_phoff buf) in Ho.
  pose proof (get16_range buf 42 Hb) as He. fold (e_phentsize buf) in He.
  pose proof (get16_range buf 44 Hb) as Hn. fold (e_phnum buf) in Hn.
  assert (Hprod : 0 <= e_phnum buf * e_phentsize buf < 4294967296) by nia.
  pose proof (check_segments_spec (Z.to_nat (e_phnum buf)) buf size 0 Hb ltac:(lia)) as Hc.
  rewrite Z2Nat.id in Hc by lia. unfold elf_check, acceptable.
  rewrite (u32_small (e_phnum buf * e_phentsize buf)) by done.
  generalize dependent (e_phnum buf * e_phentsize buf). intros pr Hprod.
  repeat match goal with
  | |- context [if negb (?a =? ?b) then _ else _] => destruct (Z.eqb_spec a b); cbn [negb]
  | |- context [?a <? ?b] => destruct (Z.ltb_spec a b); cbn [orb]
  | |- context [?a <=? ?b] => destruct (Z.leb_spec a b); cbn [orb]
  end; try (split; [discriminate|intros G; lia]); 
    try (split; [discriminate|intros G; unfold u32 in *; rewrite Z.mod_small in * by lia; lia]).
  rewrite u32_small in * by lia. rewrite Hc. by split; [intros G; do 7 (split; [lia|])|intros (_ & _ & _ & _ & _ & _ & _ & G)].
Qed.

(** ** The task *)

(** The first switch to the task pops this frame, lowest address first. *)
Definition user_words (entry : Z) : list Z :=
  [35; 35; 35; 35; 0; 0; 0; 0; 0; 0; 0; 0; 0; 0; u32 entry; 27; 514; USER_STACK_TOP - 4; 35].

Lemma user_frame_words (m : memory) (top entry : Z) :
  76 <= top < 4294967296 ->
  exists m', push_words m top (user_frame entry) = (m', top - 76) /\
    mem_same m m' (fun a => a < top - 76 \/ top <= a) /\
    map (fun i => load32 m' (top - 76 + 4 * i)) (seqZ 0 19) = user_words entry.
Proof.
  intros Ht. destruct (push_words_spec (user_frame entry) m top) as (m' & E & Hm & Hv); [cbn; lia|].
  exists m'. split; [done|]. split; [done|]. exact (push_words_map _ _ _ Hv).
Qed.

(** The task structures of the list are in frames of their own. *)
Definition tasks_owned (k : kernel) (l : list Z) : Prop := forall a, a ∈ l -> owned_frame k a.

(** A task that [user_task] has started *)
Record started (k k' : kernel) (l : list Z) (t pd stack entry : Z) : Prop := {
  st_ring : ring k' (insert_after l t);
  st_task : tsk k' t = mkTask (next_pid k) TASK_READY (-1) pd (stack + TASK_STACK_SIZE - 76) stack 0 (next (tsk k' t));
  st_words : map (fun i => load32 (vmem (mm k')) (stack + TASK_STACK_SIZE - 76 + 4 * i)) (seqZ 0 19) = user_words entry;
  st_stack : exists s, stack = s * 4096 /\ 0 < s /\ s + 4 <= total k /\ (forall g, s <= g < s + 4 -> in_use k g = false) /\
    forall x, x / 4096 < s \/ s + 4 <= x / 4096 -> load8 (vmem (mm k')) x = load8 (vmem (mm k)) x;
  st_others : forall a, a ∈ l -> same_task (tsk k a) (tsk k' a) }.

Lemma user_task_spec (k k' : kernel) (l : list Z) (pd entry r : Z) :
  ring k l -> pfa_inv (frames (mm k)) -> tasks_owned k l -> user_task k pd entry = (r, k') ->
  cpu_info k' = cpu_info k /\
  ((r = -1 /\ ring k' l /\ vmem (mm k') = vmem (mm k) /\ forall a, a ∈ l -> tsk k' a = tsk k a) \/
   (r = 0 /\ exists t stack, started k k' l t pd stack entry)).
Proof.
  intros Hr Hp Hown. unfold user_task. destruct (alloc_task k) as [t k1] eqn:E1.
  destruct (alloc_task_spec k k1 t Hp E1) as [[-> ->]|(f & fr & Et & Hf & Hff & Hpf & Htf & Huf & ->)].
  { cbn [Z.eqb]. intros [= <- <-]. split; [done|]. by left. }
  assert (Htn : t ∉ l).
  { intros Hin. destruct (Hown t Hin) as (g & Eg & _ & Hu). assert (g = f) by (unfold FRAME_SIZE in *; lia). congruence. }
  destruct (Z.eqb_spec t 0); [unfold FRAME_SIZE in Et; lia|]. cbn [mm frames with_frames].
  change (Z.shiftr TASK_STACK_SIZE 12) with 4. destruct (alloc_frames fr 4) as [b fr'] eqn:E2.
  assert (Hts : forall x p ci tc v a, a ∈ l -> tsk (mkKernel (<[t := x]> (store k)) (ready_head k) p ci tc v) a = tsk k a).
  { intros x p ci tc v a Ha. unfold tsk. cbn [store]. rewrite lookup_insert_ne; [done|]. by intros <-. }
  destruct (Z.eqb_spec b 0) as [->|Hb].
  { intros [= <- <-]. split; [done|]. left. split; [done|]. split; [exact (ring_store_other k l t _ _ _ _ _ Hr Htn)|].
    split; [done|]. intros a Ha. exact (Hts _ _ _ _ _ a Ha). }
  destruct (alloc_frames_some fr fr' 4 b Hpf ltac:(lia) E2 Hb) as (s & Eb & Hs0 & Hs4 & _ & Hsf & Hp' & Ht' & Hu').
  assert (Htot : total k <= 262144) by (unfold total; destruct Hp as (_ & _ & ? & _); unfold MAX_FRAMES in *; lia).
  unfold FRAME_SIZE in *. rewrite Htf in Hs4.
  rewrite (u32_small (b + TASK_STACK_SIZE)) by (unfold TASK_STACK_SIZE; lia). cbn [set_mm mm with_frames vmem].
  destruct (user_frame_words (vmem (mm k)) (b + TASK_STACK_SIZE) entry) as (m' & Em & Hmem & Hwords);
    [unfold TASK_STACK_SIZE; lia|]. rewrite Em.
  set (x := mkTask (next_pid k) TASK_READY (-1) pd (b + TASK_STACK_SIZE - 76) b 0 0).
  set (k4 := mkKernel (<[t := x]> (store k)) (ready_head k) (u32 (next_pid k + 1)) (cpu_info k) (tick_count k)
               (with_mem (with_frames (mm k) fr') m')).
  match goal with |- context [ring_insert ?X t] => assert (EX : X = k4) end.
  { unfold k4, set_task, tsk. cbn [set_mm store ready_head next_pid cpu_info tick_count mm].
    rewrite lookup_insert_eq, insert_insert_eq. reflexivity. }
  rewrite EX. intros [= <- <-].
  destruct (ring_insert_spec k4 l t x) as [Hr' (Hrt & Ei & Emm & _)];
    [exact (ring_store_other k l t _ _ _ _ _ Hr Htn)|done|done|unfold k4; cbn [store]; by rewrite lookup_insert_eq|].
  split; [by rewrite Ei|]. right. split; [done|]. exists t, b.
  assert (Htt : tsk k4 t = x) by (unfold tsk, k4; cbn [store]; by rewrite lookup_insert_eq).
  split.
  - exact Hr'.
  - pose proof (same_task_eq _ _ (Hrt t)) as E. rewrite Htt in E. rewrite E at 1. done.
  - rewrite Emm. exact Hwords.
  - exists s. split; [done|]. split; [done|]. split; [done|]. split.
    + intros g Hg. specialize (Hsf g Hg). rewrite Huf in Hsf by lia. by apply orb_false_iff in Hsf as [_ ?].
    + intros y Hy. rewrite Emm. cbn [k4 mm with_mem vmem]. apply Hmem. unfold TASK_STACK_SIZE. div_mod_lia.
  - intros a Ha. rewrite <- (Hts x (u32 (next_pid k + 1)) (cpu_info k) (tick_count k)
      (with_mem (with_frames (mm k) fr') m') a Ha). apply Hrt.
Qed.

(** ** The address space the program runs in *)

(** Nothing below 8 MB, the window in the frames [fp], the kernel's mapping
    above it *)
Definition user_walk (m0 : memory) (kd : Z) (fp : Z -> Z) (v : Z) : option Z :=
  if v <? USER_ELF_BASE then None
  else if v <? USER_STACK_TOP then Some (fp (v / 4096) * 4096 + 7)
  else if v <? 12582912 then None
  else walk m0 kd v.

Section final.
Variables (m0 m m3 m5 : memory) (fr0 fr : pfa) (kd pd : Z) (fp g : Z -> Z).
Hypothesis Hkd : dir_wf m0 fr0 kd.
Hypothesis Hb : built m0 fr0 kd m fr pd fp 512.
Hypothesis Hw : wrote m m3 pd fp g.
Let m4 : memory := set_entry (set_entry m3 pd 0 0) pd 1 0.
Hypothesis H5 : forall x, 0 <= x < 4096 * total_frames fr -> used fr (x / 4096) = true -> load8 m5 x = load8 m4 x.

Lemma pd_frame : pd mod 4096 = 0 /\ 0 < pd / 4096 < total_frames fr /\ used fr (pd / 4096) = true.
Proof. destruct (bu_wf _ _ _ _ _ _ _ _ Hb) as (_ & Hd & _). exact Hd. Qed.

Lemma m4_outside (x : Z) : x / 4096 <> pd / 4096 -> load8 m4 x = load8 m3 x.
Proof.
  intros Hx. destruct pd_frame as (Hal & _). unfold m4. rewrite !load8_set_entry by (done || lia). done.
Qed.

(** Bytes of a frame in use that is neither the directory nor a page *)
Lemma m5_table (x : Z) :
  0 <= x < 4096 * total_frames fr -> used fr (x / 4096) = true -> x / 4096 <> pd / 4096 -> outside fp x ->
  load8 m5 x = load8 m x.
Proof. intros Hx Hu Hn Ho. rewrite H5, m4_outside by done. by apply Hw. Qed.

Lemma final_kept : kept fr0 m0 m5.
Proof.
  intros x Hx Hu. pose proof (built_kept _ _ _ _ _ _ _ _ Hb x Hx Hu) as E. rewrite <- E.
  destruct Hb as [_ Hpd _ _ _ Hused Htot Hfp _ _]. apply m5_table; [lia|apply Hused; [div_mod_lia|done]|congruence|].
  intros p Hp Ep. destruct (Hfp p Hp) as (_ & Hf & _). congruence.
Qed.

(** The range of a frame's bytes *)
Lemma frame_bytes (fr' : pfa) (b x : Z) : 0 < b / 4096 < total_frames fr' -> x / 4096 = b / 4096 ->
  0 <= x < 4096 * total_frames fr'.
Proof. intros. div_mod_lia. Qed.

Lemma final_entry (i : Z) : 0 <= i < 1024 -> entry m5 pd i = if (i =? 0) || (i =? 1) then 0 else entry m pd i.
Proof.
  intros Hi. destruct pd_frame as (Hal & Hr & Hu). destruct (built_space _ _ _ _ _ _ _ Hkd Hb) as [[[_ Hnd] _ _ _ _] _].
  rewrite (entry_frame m4 m5) by (first [done | intros x Hx; apply H5; [by apply (frame_bytes fr pd)|by rewrite Hx]]).
  unfold m4. rewrite !entry_set, Z.eqb_refl by (done || lia). cbn [andb]. change (u32 0) with 0.
  rewrite (entry_frame m m3); [|done|done|].
  - destruct (Z.eqb_spec i 0), (Z.eqb_spec i 1); done.
  - intros x Hx. apply Hw. intros p Hp. rewrite Hx. by apply not_eq_sym, Hnd.
Qed.

Lemma final_table (i j : Z) : 0 <= i < 1024 -> 0 <= j < 1024 -> present (entry m pd i) = true ->
  entry m5 (frame_of (entry m pd i)) j = entry m (frame_of (entry m pd i)) j.
Proof.
  intros Hi Hj Hp. destruct (built_space _ _ _ _ _ _ _ Hkd Hb) as [[_ _ _ Ht _] _].
  destruct (bu_wf _ _ _ _ _ _ _ _ Hb) as (_ & (Hpa & _) & Htok & _). destruct (Htok i Hi Hp) as [(Hta & Htr & Htu) Hne].
  apply entry_frame; [done|done|]. intros x Hx. apply m5_table.
  - by apply (frame_bytes fr _ x Htr).
  - by rewrite Hx.
  - rewrite Hx. intros E. apply Hne. div_mod_lia.
  - intros p Hpp. rewrite Hx. by apply not_eq_sym, Ht.
Qed.

Lemma final_walk (v : Z) : 0 <= v < 4294967296 -> walk m5 pd v = user_walk m0 kd fp v.
Proof.
  intros Hv. pose proof (PDE_IDX_range v) as Hi. pose proof (PTE_IDX_range v) as Hj. unfold user_walk, USER_ELF_BASE, USER_STACK_TOP.
  assert (E : walk m5 pd v = if v <? 8388608 then None else walk m pd v).
  { unfold walk. rewrite final_entry by done. rewrite (PDE_IDX_eq v Hv) in Hi |- *. destruct (Z.ltb_spec v 8388608).
    - assert (v / 4194304 = 0 \/ v / 4194304 = 1) as [-> | ->] by div_mod_lia; done.
    - destruct (Z.eqb_spec (v / 4194304) 0), (Z.eqb_spec (v / 4194304) 1); [div_mod_lia..|]. cbn [orb].
      destruct (present (entry m pd (v / 4194304))) eqn:Ep; [|done]. by rewrite final_table. }
  rewrite E. destruct (Z.ltb_spec v 8388608); [done|]. destruct (Z.lt_ge_cases v 12582912).
  - rewrite (bu_walk _ _ _ _ _ _ _ _ Hb) by lia.
    destruct (Z.ltb_spec v 10485760), (Z.ltb_spec (v / 4096) (2048 + 512)); try div_mod_lia; [done|].
    by rewrite (proj2 (Z.ltb_lt _ _)) by lia.
  - rewrite !(proj2 (Z.ltb_ge _ _)) by lia. unfold walk. rewrite (PDE_IDX_eq v Hv) in *.
    rewrite (bu_rest _ _ _ _ _ _ _ _ Hb) by (done || (unfold USER_PDE_IDX; div_mod_lia)).
    destruct (present (entry m0 kd (v / 4194304))) eqn:Ep; [|done].
    destruct Hkd as (_ & _ & Ht & _). destruct (Ht _ Hi Ep) as [(Hta & Htr & Htu) _].
    rewrite (entry_frame m0 m); [done|done|done|]. intros x Hx. apply (built_kept _ _ _ _ _ _ _ _ Hb).
    + by apply (frame_bytes fr0 _ x Htr).
    + by rewrite Hx.
Qed.

Lemma final_window (v : Z) : in_window v -> window m5 fp v = g v.
Proof.
  intros Hv. pose proof (window_page v Hv) as Hp. destruct Hw as (_ & Hwin & _). rewrite <- Hwin by done.
  destruct (bu_fp _ _ _ _ _ _ _ _ Hb _ Hp) as (Hr & _ & Hu & Hn & _). unfold window.
  set (x := fp (v / 4096) * 4096 + v mod 4096). assert (Ex : x / 4096 = fp (v / 4096)) by (unfold x; div_mod_lia).
  rewrite H5, m4_outside; [done|by rewrite Ex|div_mod_lia|by rewrite Ex].
Qed.

End final.

(** ** [elf_exec] *)

(** No loadable segment ends beyond the 32-bit address space. *)
Definition no_wrap (buf : list Z) : Prop :=
  forall i, 0 <= i < e_phnum buf -> p_type (phdr_at buf i) = PT_LOAD ->
    p_vaddr (phdr_at buf i) + p_memsz (phdr_at buf i) < 4294967296.

Lemma acceptable_fits (buf : list Z) (size : Z) :
  is_bytes buf -> acceptable buf size -> no_wrap buf -> forall i, 0 <= i < e_phnum buf -> fits (phdr_at buf i).
Proof.
  intros Hb (_ & _ & _ & _ & _ & _ & _ & Hseg) Hnw i Hi Hl. destruct (Hseg i Hi Hl) as (Hv & Hf & _ & Hend).
  specialize (Hnw i Hi Hl). destruct (phdr_at_words buf i Hb) as (_ & _ & _ & ? & ?). lia.
Qed.

(** The program that has been started: task, stack frame, address space and
    contents *)
Record program (k k' : kernel) (l : list Z) (buf : list Z) (t pd stack : Z) (fp : Z -> Z) : Prop := {
  pr_ring : ring k' (insert_after l t);
  pr_task : tsk k' t = mkTask (next_pid k) TASK_READY (-1) pd (stack + TASK_STACK_SIZE - 76) stack 0 (next (tsk k' t));
  pr_words : map (fun i => load32 (vmem (mm k')) (stack + TASK_STACK_SIZE - 76 + 4 * i)) (seqZ 0 19)
    = user_words (e_entry buf);
  pr_fresh : forall p, in_pages p -> in_use k (fp p) = false;
  pr_inj : forall p q, in_pages p -> in_pages q -> fp p = fp q -> p = q;
  pr_walk : forall v, 0 <= v < 4294967296 ->
    walk (vmem (mm k')) pd v = user_walk (vmem (mm k)) (kernel_page_dir (mm k)) fp v;
  pr_image : forall v, in_window v -> window (vmem (mm k')) fp v = image buf (window (vmem (mm k)) fp) v }.

Lemma image_ext (buf : list Z) (f h : Z -> Z) (v : Z) : f v = h v -> image buf f v = image buf h v.
Proof. intros E. unfold image. by apply put_at_ext, put_at_ext, segments_at_ext. Qed.

(** The state in which the task is created *)
Lemma exec_task (k k3 k' : kernel) (l : list Z) (buf : list Z) (pd r : Z) (s2 : vm pfa) (m3 : memory) (fp : Z -> Z) :
  ring k l -> tasks_owned k l -> dir_wf (vmem (mm k)) (frames (mm k)) (kernel_page_dir (mm k)) ->
  grown (vmem (mm k)) (frames (mm k)) (kernel_page_dir (mm k)) s2 ->
  built (vmem (mm k)) (frames (mm k)) (kernel_page_dir (mm k)) (vmem s2) (frames s2) pd fp 512 ->
  wrote (vmem s2) m3 pd fp (image buf (window (vmem s2) fp)) ->
  store k3 = store k -> ready_head k3 = ready_head k -> next_pid k3 = next_pid k -> cpu_info k3 = cpu_info k ->
  frames (mm k3) = frames s2 -> vmem (mm k3) = set_entry (set_entry m3 pd 0 0) pd 1 0 ->
  user_task k3 pd (e_entry buf) = (r, k') ->
  kept (frames (mm k)) (vmem (mm k)) (vmem (mm k')) /\ cpu_info k' = cpu_info k /\
  ((r = -1 /\ ring k' l /\ forall a, a ∈ l -> tsk k' a = tsk k a) \/
   (r = 0 /\ exists t stack, program k k' l buf t pd stack fp)).
Proof.
  intros Hr Hown Hwf Hg Hb Hw Es Eh Ep Ec Efr Em Eu.
  assert (Hr3 : ring k3 l) by (unfold ring; by rewrite Es, Eh).
  assert (Hi3 : pfa_inv (frames (mm k3))) by (rewrite Efr; apply Hg).
  assert (Ht : forall a, tsk k3 a = tsk k a) by (intros a; unfold tsk; by rewrite Es).
  assert (Hown3 : tasks_owned k3 l).
  { intros a Ha. destruct (Hown a Ha) as (f & Ef & Hf & Hu). exists f. unfold total, in_use in *. rewrite Efr.
    rewrite (gr_total _ _ _ _ Hg). split; [done|]. split; [done|]. apply Hg; [lia|done]. }
  destruct (user_task_spec k3 k' l pd _ r Hr3 Hi3 Hown3 Eu) as (Eci & [(-> & Hr' & Em' & Hts)|(-> & t & st & Hst)]).
  - split; [|split; [congruence|]].
    + apply (final_kept _ _ m3 _ _ _ _ _ _ _ Hb Hw). intros x _ _. by rewrite Em', Em.
    + left. split; [done|]. split; [done|]. intros a Ha. by rewrite Hts, Ht.
  - destruct Hst as [Hring Htask Hwords (s & _ & Hs0 & _ & Hfree & Hsame) _].
    assert (H5 : forall x, 0 <= x < 4096 * total_frames (frames s2) -> used (frames s2) (x / 4096) = true ->
      load8 (vmem (mm k')) x = load8 (set_entry (set_entry m3 pd 0 0) pd 1 0) x).
    { intros x Hx Hu. rewrite Hsame, Em; [done|]. destruct (Z.lt_ge_cases (x / 4096) s); [by left|].
      destruct (Z.lt_ge_cases (x / 4096) (s + 4)); [|by right]. specialize (Hfree (x / 4096) ltac:(lia)).
      unfold in_use in Hfree. rewrite Efr in Hfree. congruence. }
    split; [by apply (final_kept _ _ m3 _ _ _ _ _ _ _ Hb Hw)|]. split; [congruence|]. right. split; [done|].
    exists t, st. rewrite Ep in Htask. split; [done|exact Htask|done| | | |].
    + intros p Hp. by apply (bu_fp _ _ _ _ _ _ _ _ Hb).
    + intros p q Hp Hq. by apply (bu_inj _ _ _ _ _ _ _ _ Hb).
    + by apply (final_walk _ _ m3 _ _ _ _ _ _ _ Hwf Hb Hw).
    + intros v Hv. rewrite (final_window _ _ m3 _ _ _ _ _ _ _ Hb Hw H5) by done.
      apply image_ext. by apply (built_window _ _ _ _ _ _ _ _ Hb).
Qed.

(** C7: [elf_exec] on any file whose segments do not run past the 32-bit
    address space returns without a fault.  Memory that was in use is
    untouched, whatever the outcome.  Either it fails and the ring of tasks
    is unchanged; or the file passed every check and a new task is in the
    ring, ready, whose first stack frame enters user mode at the file's entry
    point, and whose page directory maps the window 8 MB to 10 MB, page by
    page, to frames that were free, holding the segments of the file, zeros
    after them, the exit trampoline and the return address, and everywhere
    else what those frames held before; above the window the mapping is the
    kernel's, and below 8 MB nothing is mapped, not even the kernel.  A file
    with a segment whose end wraps around 2^32 passes the checks too, and the
    kernel faults while loading it ([elf_wrap_example]). *)
Theorem elf_exec_correct (k : kernel) (l : list Z) (buf : list Z) (size : Z) :
  ring k l -> tasks_owned k l -> dir_wf (vmem (mm k)) (frames (mm k)) (kernel_page_dir (mm k)) ->
  is_bytes buf -> size <= 131072 -> no_wrap buf ->
  exists r k', elf_exec k buf size = Some (r, k') /\
    kept (frames (mm k)) (vmem (mm k)) (vmem (mm k')) /\ cpu_info k' = cpu_info k /\
    ((r = -1 /\ ring k' l /\ forall a, a ∈ l -> tsk k' a = tsk k a) \/
     (r = 0 /\ acceptable buf size /\ exists t pd stack fp, program k k' l buf t pd stack fp)).
Proof.
  intros Hr Hown Hwf Hb Hs Hnw. pose proof (elf_check_spec buf size Hb Hs) as Hc. unfold elf_exec.
  destruct (elf_check buf size) as [e|].
  { exists (-1), k. split; [done|]. split; [by intros x _ _|]. split; [done|]. by left. }
  assert (Hacc : acceptable buf size) by (by apply Hc). destruct (user_dir (mm k)) as [pd s2] eqn:Ed.
  destruct (user_dir_spec (mm k) s2 pd Hwf Ed) as [Hg Hbuilt]. destruct (Z.eqb_spec pd 0) as [->|Hpd].
  { exists (-1), (set_mm k s2). split; [done|]. split; [apply Hg|]. split; [done|]. left. done. }
  destruct (Hbuilt Hpd) as [fp Hfp]. destruct (built_space _ _ _ _ _ _ _ Hwf Hfp) as [Hus _].
  destruct (load_image_user (vmem s2) pd buf fp Hus Hb (acceptable_fits buf size Hb Hacc Hnw)) as (m3 & El & Hw).
  cbn [set_mm mm page_dir_switch vmem]. rewrite El. cbv zeta.
  match goal with |- context [user_task ?K pd _] => set (k3 := K) end.
  destruct (user_task k3 pd (e_entry buf)) as [r k'] eqn:Eu.
  exists r, k'. split; [done|].
  destruct (exec_task k k3 k' l buf pd r s2 m3 fp Hr Hown Hwf Hg Hfp Hw eq_refl eq_refl eq_refl eq_refl eq_refl eq_refl Eu)
    as (H1 & H2 & [H3|(H3 & t & st & H4)]); (split; [done|]); (split; [done|]); [by left|right].
  split; [done|]. split; [done|]. by exists t, pd, st, fp.
Qed.

(** C40: [elf_check] accepts a file exactly when it has the identification of
    a 32-bit x86 ELF file, its entry point in the window, its program header
    table inside the file, and every loadable segment in the window and in
    the file; so everything the loader then reads, headers and segment
    contents, lies in the part of the buffer that was read from disk.  The
    end of a segment is compared after wrapping around 2^32, so a segment
    that ends beyond it is accepted as well. *)
Theorem elf_check_exact (buf : list Z) (size : Z) :
  is_bytes buf -> size <= 131072 ->
  (elf_check buf size = None <-> acceptable buf size) /\
  (elf_check buf size = None -> forall i, 0 <= i < e_phnum buf ->
     0 <= e_phoff buf + i * e_phentsize buf /\ e_phoff buf + i * e_phentsize buf + 32 <= size /\
     (p_type (phdr_at buf i) = PT_LOAD -> 0 <= p_offset (phdr_at buf i) /\
        p_offset (phdr_at buf i) + p_filesz (phdr_at buf i) <= size)).
Proof.
  intros Hb Hs. pose proof (elf_check_spec buf size Hb Hs) as Hc. split; [done|]. intros Hok i Hi.
  apply Hc in Hok as (_ & _ & _ & _ & _ & He & Ht & Hseg). pose proof (get32_range buf 28 Hb) as Ho.
  fold (e_phoff buf) in Ho. split; [nia|]. split; [nia|]. intros Hl. destruct (Hseg i Hi Hl) as (_ & _ & Hfile & _).
  split; [|done]. apply (phdr_at_words buf i Hb).
Qed.

(** An accepted file with a segment that wraps around stops the kernel with a
    page fault while it zeroes the segment, if there is memory for the
    window. *)
Theorem elf_wrap_faults (k : kernel) (buf : list Z) (size i : Z) :
  dir_wf (vmem (mm k)) (frames (mm k)) (kernel_page_dir (mm k)) -> is_bytes buf -> size <= 131072 ->
  elf_check buf size = None -> (user_dir (mm k)).1 <> 0 -> 0 <= i < e_phnum buf ->
  (forall j, 0 <= j < i -> fits (phdr_at buf j)) -> p_type (phdr_at buf i) = PT_LOAD ->
  4294967296 <= p_vaddr (phdr_at buf i) + p_memsz (phdr_at buf i) ->
  elf_exec k buf size = None.
Proof.
  intros Hwf Hb Hs Hok Hpd Hi Hfit Hl Hwrap. pose proof (proj1 (elf_check_spec buf size Hb Hs) Hok) as Hacc.
  destruct Hacc as (_ & _ & _ & _ & _ & _ & _ & Hseg). destruct (Hseg i Hi Hl) as (Hv & Hf & Hfile & _).
  destruct (phdr_at_words buf i Hb) as (_ & Ho & _ & Hfs & _).
  unfold elf_exec. rewrite Hok. destruct (user_dir (mm k)) as [pd s2] eqn:Ed. cbn in Hpd.
  destruct (user_dir_spec (mm k) s2 pd Hwf Ed) as [_ Hbuilt]. destruct (Z.eqb_spec pd 0); [done|].
  destruct (Hbuilt Hpd) as [fp Hfp]. destruct (built_space _ _ _ _ _ _ _ Hwf Hfp) as [Hus Htop].
  cbn [set_mm mm page_dir_switch vmem]. unfold load_image.
  assert (Hseq : forall q j m, user_space m pd fp -> walk m pd USER_STACK_TOP = None -> 0 <= j <= i ->
    i < j + Z.of_nat q -> load_segments q pd buf j m = None).
  { induction q as [|q IH]; intros j m Hu Hn Hj Hlt; [lia|]. cbn [load_segments]. destruct (Z.eq_dec j i) as [->|Hne].
    - rewrite (load_segment_faults m pd buf (phdr_at buf i) fp); try done; unfold USER_ELF_BASE, USER_ELF_LIMIT, USER_STACK_TOP in *; lia.
    - destruct (load_segment_user m pd buf (phdr_at buf j) fp Hu Hb (Hfit j ltac:(lia))) as (m1 & -> & U1 & _ & O1).
      apply IH; [done| |lia|lia]. by rewrite (walk_outside m m1 pd fp). }
  by rewrite (Hseq (Z.to_nat (e_phnum buf)) 0 (vmem s2)) by (done || lia).
Qed.

(** ** A small machine and a small program

    1024 frames, paging on, no tasks; a file with one segment of three bytes
    and two bytes of zeros, and the same file with a segment that wraps
    around. *)
#[local] Existing Instances pfa_frame_allocator pfa_frame_allocator_laws.

Definition elf_boot : vm pfa := mkVm ∅ 0 0 false (pfa_init bss_pfa 4096 4194304).

Definition elf_vm : vm pfa := default elf_boot (init_paging 1 elf_boot 4194304).

Definition elf_kernel : kernel := mkKernel ∅ 0 1 (repeat (mkCpu 0 false 0) 8) 0 elf_vm.

Definition demo_file (memsz : list Z) : list Z :=
  [127; 69; 76; 70; 1] ++ repeat 0 13 ++ [3; 0] ++ repeat 0 4 ++ [0; 0; 128; 0] ++ [52; 0; 0; 0] ++ repeat 0 10 ++
  [32; 0; 1; 0] ++ repeat 0 6 ++
  [1; 0; 0; 0] ++ [84; 0; 0; 0] ++ [0; 0; 128; 0] ++ [0; 0; 0; 0] ++ [3; 0; 0; 0] ++ memsz ++ repeat 0 8 ++ [144; 144; 195].

Definition demo_elf : list Z := demo_file [5; 0; 0; 0].

Lemma demo_elf_bytes : is_bytes demo_elf.
Proof. apply (bool_decide_unpack (is_bytes demo_elf)). vm_compute. exact I. Qed.

Lemma elf_boot_ok : pfa_inv (frames elf_boot).
Proof. apply bss_pfa_init; lia. Qed.

Lemma elf_boot_free : fa_free_count (frames elf_boot) > 2.
Proof. vm_compute. reflexivity. Qed.

Lemma elf_vm_wf : dir_wf (vmem elf_vm) (frames elf_vm) (kernel_page_dir elf_vm).
Proof.
  pose proof elf_boot_free as Hf. destruct (init_paging_spec 0 1 elf_boot 4194304) as (s' & E & _ & _ & Hwf & _);
    [exact elf_boot_ok|lia|lia|lia|lia|lia|]. unfold elf_vm. rewrite E. exact Hwf.
Qed.

Lemma demo_exec : match elf_exec elf_kernel demo_elf 87 with Some (r, _) => r = 0 | None => False end.
Proof. vm_compute. reflexivity. Qed.

Lemma elf_user_dir : (user_dir elf_vm).1 = 12288.
Proof. vm_compute. reflexivity. Qed.

#[local] Opaque elf_exec elf_vm.

Lemma elf_kernel_ring : ring elf_kernel [].
Proof. split; [done|]. split; [constructor|]. split; [apply not_elem_of_nil|done]. Qed.

Lemma demo_no_wrap : no_wrap demo_elf.
Proof.
  intros i Hi _. change (e_phnum demo_elf) with 1 in Hi. assert (i = 0) as -> by lia. vm_compute. reflexivity.
Qed.

Lemma elf_kernel_owned : tasks_owned elf_kernel [].
Proof. intros a Ha. destruct (not_elem_of_nil a Ha). Qed.

Lemma elf_exec_correct_witness :
  exists k' fp, elf_exec elf_kernel demo_elf 87 = Some (0, k') /\ window (vmem (mm k')) fp 8388610 = 195.
Proof.
  destruct (elf_exec_correct elf_kernel [] demo_elf 87 elf_kernel_ring elf_kernel_owned elf_vm_wf demo_elf_bytes)
    as (r & k' & E & _ & _ & Hcase).
  - lia.
  - exact demo_no_wrap.
  - pose proof demo_exec as Hd. rewrite E in Hd. subst r. destruct Hcase as [[Hr _]|(_ & _ & t & pd & st & fp & P)]; [discriminate Hr|].
    exists k', fp. split; [exact E|]. rewrite (pr_image _ _ _ _ _ _ _ _ P) by (unfold in_window, USER_ELF_BASE, USER_STACK_TOP; lia).
    reflexivity.
Defined.

Lemma elf_check_exact_witness : acceptable demo_elf 87 /\ elf_check demo_elf 87 = None.
Proof.
  destruct (elf_check_exact demo_elf 87 demo_elf_bytes ltac:(lia)) as [Hc _].
  assert (E : elf_check demo_elf 87 = None) by (vm_compute; reflexivity). split; [exact (proj1 Hc E)|exact E].
Defined.

(** A file of 87 bytes that stops the kernel *)
Theorem elf_wrap_example :
  elf_check (demo_file [0; 0; 128; 255]) 87 = None /\ elf_exec elf_kernel (demo_file [0; 0; 128; 255]) 87 = None.
Proof.
  set (buf := demo_file [0; 0; 128; 255]). assert (Hok : elf_check buf 87 = None) by (vm_compute; reflexivity).
  split; [exact Hok|]. apply (elf_wrap_faults elf_kernel buf 87 0); [exact elf_vm_wf| |lia|exact Hok| | | | |].
  - apply (bool_decide_unpack (is_bytes buf)). vm_compute. exact I.
  - change (mm elf_kernel) with elf_vm. rewrite elf_user_dir. discriminate.
  - change (e_phnum buf) with 1. lia.
  - intros j Hj. lia.
  - vm_compute. reflexivity.
  - vm_compute. discriminate.
Qed.
