(* ===== verification/NetBase.v ===== *)
(** * kernel/net: byte order, checksums, addresses, and the stack's state

    The parts of net.c and net.h the rest of the network stack is built on.
    A frame is the list of its bytes.  The network card and the tick counter
    are behind the interface [Nic]: the calls of rtl8139.h and [get_ticks]
    as operations on a world that answers them.  The stack's static
    variables are one record, and an operation is a function on it that has
    no result only when a polling loop runs out of fuel. *)
From S2P Require Import Prelude Bytes.

Module Net.

(** [__builtin_bswap16], [__builtin_bswap32] *)
Definition net_htons (x : Z) : Z := x mod 256 * 256 + x / 256 mod 256.

Definition net_htonl (x : Z) : Z :=
  x mod 256 * 16777216 + x / 256 mod 256 * 65536 + x / 65536 mod 256 * 256 + x / 16777216 mod 256.

Definition ETH_ARP : Z := 2054.

Definition ETH_IP : Z := 2048.

Definition IP_ICMP : Z := 1.

Definition IP_TCP : Z := 6.

Definition ICMP_ECHO_REQ : Z := 8.

Definition ICMP_ECHO_REP : Z := 0.

Definition NET_GW_IP : Z := 167772674.

Definition NET_HOST_IP : Z := 167772687.

Definition NET_NETMASK : Z := 4294967040.

(** ** Checksum *)

(** [while (sum >> 16) sum = (sum & 0xFFFF) + (sum >> 16)]; two iterations
    are enough for a 32-bit sum. *)
Fixpoint fold_carry (fuel : nat) (sum : Z) : option Z :=
  if Z.shiftr sum 16 =? 0 then Some sum
  else
    match fuel with
    | O => None
    | S fuel => fold_carry fuel (u32 (Z.land sum 65535 + Z.shiftr sum 16))
    end.

(** [~((uint16_t)sum)] as a 16-bit value *)
Definition not16 (sum : Z) : Z := 65535 - u16 sum.

(** [for (i = 0; i < n; i++) sum += ptr[i]] *)
Definition sum_words (data : list Z) (n sum : Z) : Z :=
  for_up (Z.to_nat n) 0 1 (fun i sum => u32 (sum + get16 data (2 * i))) sum.

(** [net_checksum(data, len)]; [None] when the carry loop runs out of fuel *)
Definition net_checksum (data : list Z) (len : Z) : option Z :=
  let sum := sum_words data (len / 2) 0 in
  let sum := if Z.land len 1 =? 0 then sum else u32 (sum + byte_at data (len - 1)) in
  match fold_carry 2 sum with
  | Some sum => Some (not16 sum)
  | None => None
  end.

(** ** Addresses *)

(** The loop of [net_ip_aton] over the characters before the terminating 0;
    [val] is an [int], kept as such since the digits of an address do not
    overflow it. *)
Fixpoint aton_loop (str : list Z) (ip val : Z) : Z * Z :=
  match str with
  | [] => (ip, val)
  | c :: str =>
      if c =? 46 then aton_loop str (Z.lor (u32 (Z.shiftl ip 8)) (Z.land val 255)) 0
      else if (48 <=? c) && (c <=? 57) then aton_loop str ip (i32 (val * 10 + (c - 48)))
      else aton_loop str ip val
  end.

Definition net_ip_aton (str : list Z) : Z :=
  let '(ip, val) := aton_loop str 0 0 in Z.lor (u32 (Z.shiftl ip 8)) (Z.land val 255).

(** ** State *)

(** [tcp_sock_t] *)
Record tcp_sock := mkSock {
  used : bool;
  state : Z;
  dst_ip : Z;
  dst_port : Z;
  src_port : Z;
  snd_nxt : Z;
  rcv_nxt : Z;
  snd_una : Z;
  peer_window : Z;
  rcv_buf : list Z;
  rcv_len : Z;
  isn : Z }.

(** The static variables of net.c and tcp.c, and the world. *)
Record net (W : Type) := mkNet {
  own_mac : list Z;
  arp_cache_ip : Z;
  arp_cache_mac : list Z;
  arp_cache_valid : bool;
  ping_reply_received : bool;
  ping_reply_id : Z;
  ping_reply_seq : Z;
  sockets : list tcp_sock;
  next_ephemeral : Z;
  world : W }.

Arguments mkNet {W} _ _ _ _ _ _ _ _ _ _.
Arguments own_mac {W} _.
Arguments arp_cache_ip {W} _.
Arguments arp_cache_mac {W} _.
Arguments arp_cache_valid {W} _.
Arguments ping_reply_received {W} _.
Arguments ping_reply_id {W} _.
Arguments ping_reply_seq {W} _.
Arguments sockets {W} _.
Arguments next_ephemeral {W} _.
Arguments world {W} _.

(** The card and the clock: [rtl8139_send] with its result, [rtl8139_recv]
    with the frame it delivers, if any, and [get_ticks]. *)
Class Nic (W : Type) := {
  rtl8139_send : list Z -> W -> Z * W;
  rtl8139_recv : W -> option (list Z) * W;
  get_ticks : W -> Z * W }.

(** What [net_init] calls before the card runs *)
Class NicSetup (W : Type) := {
  rtl8139_init : W -> Z * W;
  rtl8139_get_mac : W -> list Z }.

(** ** Operations on the state *)

Definition M (W A : Type) : Type := net W -> option (A * net W).

Definition ret {W A} (x : A) : M W A := fun s => Some (x, s).

Definition bind {W A B} (m : M W A) (f : A -> M W B) : M W B :=
  fun s => match m s with Some (x, s) => f x s | None => None end.

Definition get {W} : M W (net W) := fun s => Some (s, s).

Definition modify {W} (f : net W -> net W) : M W unit := fun s => Some (tt, f s).

Definition no_fuel {W A} : M W A := fun _ => None.

(** A pure computation that may run out of fuel *)
Definition lift {W A} (o : option A) : M W A := fun s => match o with Some x => Some (x, s) | None => None end.

(** A call into the world *)
Definition call {W A} (f : W -> A * W) : M W A :=
  fun s => let '(x, w) := f (world s) in
    Some (x, mkNet (own_mac s) (arp_cache_ip s) (arp_cache_mac s) (arp_cache_valid s) (ping_reply_received s)
               (ping_reply_id s) (ping_reply_seq s) (sockets s) (next_ephemeral s) w).

End Net.

Declare Scope net_scope.
Delimit Scope net_scope with net.
Notation "x <- m ;; k" := (Net.bind m (fun x => k))
  (at level 100, m at next level, right associativity) : net_scope.
Notation "m ;;; k" := (Net.bind m (fun _ => k))
  (at level 100, right associativity) : net_scope.
