(* ===== verification/Tcp.v ===== *)
(** * kernel/net/tcp.c: segments and the packet handler

    Sending a segment needs [net_arp_resolve] of net.c, which polls the card
    and dispatches what it receives, TCP packets included; that call is the
    argument [resolve] here, and [NetStack] closes the recursion.  The frames
    are built on the stack; every byte that is sent is written first. *)
From S2P Require Import Prelude Bytes NetBase.

Module Tcp.
Import Net.
#[local] Open Scope net_scope.

Definition TCP_CLOSED : Z := 0.

Definition TCP_SYN_SENT : Z := 1.

Definition TCP_ESTABLISHED : Z := 2.

Definition TCP_FIN_WAIT_1 : Z := 3.

Definition TCP_FIN_WAIT_2 : Z := 4.

Definition TCP_TIME_WAIT : Z := 5.

Definition TCP_CLOSE_WAIT : Z := 6.

Definition TCP_FLAG_FIN : Z := 1.

Definition TCP_FLAG_SYN : Z := 2.

Definition TCP_FLAG_RST : Z := 4.

Definition TCP_FLAG_PSH : Z := 8.

Definition TCP_FLAG_ACK : Z := 16.

Definition TCP_MAX_SOCKS : Z := 4.

(** [sizeof(sock->rcv_buf)] *)
Definition RCV_BUF : Z := 1460.

Definition zero_sock : tcp_sock := mkSock false 0 0 0 0 0 0 0 0 (replicate (Z.to_nat RCV_BUF) 0) 0 0.

(** ** Field updates *)

Definition set_state (k : tcp_sock) (v : Z) : tcp_sock :=
  mkSock (used k) v (dst_ip k) (dst_port k) (src_port k) (snd_nxt k) (rcv_nxt k) (snd_una k) (peer_window k)
    (rcv_buf k) (rcv_len k) (isn k).

Definition set_used (k : tcp_sock) (v : bool) : tcp_sock :=
  mkSock v (state k) (dst_ip k) (dst_port k) (src_port k) (snd_nxt k) (rcv_nxt k) (snd_una k) (peer_window k)
    (rcv_buf k) (rcv_len k) (isn k).

Definition set_snd_nxt (k : tcp_sock) (v : Z) : tcp_sock :=
  mkSock (used k) (state k) (dst_ip k) (dst_port k) (src_port k) v (rcv_nxt k) (snd_una k) (peer_window k)
    (rcv_buf k) (rcv_len k) (isn k).

Definition set_rcv_nxt (k : tcp_sock) (v : Z) : tcp_sock :=
  mkSock (used k) (state k) (dst_ip k) (dst_port k) (src_port k) (snd_nxt k) v (snd_una k) (peer_window k)
    (rcv_buf k) (rcv_len k) (isn k).

(** [sock->snd_una = ack; sock->peer_window = window] *)
Definition set_ack (k : tcp_sock) (ack window : Z) : tcp_sock :=
  mkSock (used k) (state k) (dst_ip k) (dst_port k) (src_port k) (snd_nxt k) (rcv_nxt k) ack window
    (rcv_buf k) (rcv_len k) (isn k).

Definition set_rcv (k : tcp_sock) (buf : list Z) (len : Z) : tcp_sock :=
  mkSock (used k) (state k) (dst_ip k) (dst_port k) (src_port k) (snd_nxt k) (rcv_nxt k) (snd_una k) (peer_window k)
    buf len (isn k).

Definition sock {W} (s : net W) (i : Z) : tcp_sock := default zero_sock (sockets s !! Z.to_nat i).

Definition with_socks {W} (s : net W) (l : list tcp_sock) : net W :=
  mkNet (own_mac s) (arp_cache_ip s) (arp_cache_mac s) (arp_cache_valid s) (ping_reply_received s)
    (ping_reply_id s) (ping_reply_seq s) l (next_ephemeral s) (world s).

(** [sockets[i]] updated in place *)
Definition upd {W} (i : Z) (f : tcp_sock -> tcp_sock) : M W unit :=
  modify (fun s => with_socks s (<[Z.to_nat i := f (sock s i)]> (sockets s))).

Definition tcp_init {W} : M W Z :=
  modify (fun s => with_socks s (replicate (Z.to_nat TCP_MAX_SOCKS) zero_sock)) ;;; ret 0.

(** ** Segments *)

(** [tcp_checksum]: the pseudo header, then the segment [tcp] of [tcp_len]
    bytes *)
Definition pseudo_header (src dst tcp_len : Z) : list Z :=
  let p := replicate 12 0 in
  let p := put32 p 0 src in
  let p := put32 p 4 dst in
  let p := set_byte p 8 0 in
  let p := set_byte p 9 6 in
  put16 p 10 (net_htons tcp_len).

Definition tcp_checksum (src dst : Z) (tcp : list Z) (tcp_len : Z) : option Z :=
  let sum := sum_words (pseudo_header src dst tcp_len) 6 0 in
  let sum := sum_words tcp (tcp_len / 2) sum in
  let sum := if tcp_len mod 2 =? 0 then sum else u32 (sum + byte_at tcp (tcp_len - 1)) in
  match fold_carry 2 sum with
  | Some sum => Some (not16 sum)
  | None => None
  end.

(** The Ethernet header: destination, source, type *)
Definition put_eth (p dst src : list Z) (type : Z) : list Z :=
  put16 (put_bytes (put_bytes p 0 dst) 6 src) 12 (net_htons type).

(** The IP header at offset 14, its checksum over the 20 bytes included *)
Definition put_ip (p : list Z) (total id proto src dst : Z) : option (list Z) :=
  let p := set_byte p 14 69 in
  let p := set_byte p 15 0 in
  let p := put16 p 16 (net_htons total) in
  let p := put16 p 18 (net_htons id) in
  let p := put16 p 20 0 in
  let p := set_byte p 22 64 in
  let p := set_byte p 23 proto in
  let p := put16 p 24 0 in
  let p := put32 p 26 (net_htonl src) in
  let p := put32 p 30 (net_htonl dst) in
  match net_checksum (get_bytes p 14 20) 20 with
  | Some c => Some (put16 p 24 c)
  | None => None
  end.

(** The TCP header at offset 34 with the checksum field 0, and the data *)
Definition put_tcp (p : list Z) (k : tcp_sock) (flags : Z) (data : list Z) : list Z :=
  let p := put16 p 34 (net_htons (src_port k)) in
  let p := put16 p 36 (net_htons (dst_port k)) in
  let p := put32 p 38 (net_htonl (snd_nxt k)) in
  let p := put32 p 42 (net_htonl (rcv_nxt k)) in
  let p := set_byte p 46 80 in
  let p := set_byte p 47 flags in
  let p := put16 p 48 (net_htons 1460) in
  let p := put16 p 52 0 in
  let p := put_bytes p 54 data in
  put16 p 50 0.

(** The frame that [send_tcp_segment] builds, before the destination address
    is known *)
Definition tcp_frame (mac : list Z) (k : tcp_sock) (flags : Z) (data : list Z) : option (list Z) :=
  let data_len := Z.of_nat (length data) in
  let tcp_len := u16 (20 + data_len) in
  let ip_total := u16 (20 + tcp_len) in
  let p := replicate (Z.to_nat (14 + ip_total)) 0 in
  let p := put_eth p (replicate 6 255) mac ETH_IP in
  match put_ip p ip_total 2 6 NET_HOST_IP (dst_ip k) with
  | None => None
  | Some p =>
      let p := put_tcp p k flags data in
      match tcp_checksum (net_htonl NET_HOST_IP) (net_htonl (dst_ip k)) (get_bytes p 34 tcp_len) tcp_len with
      | Some c => Some (put16 p 50 c)
      | None => None
      end
  end.

Section handler.
Context {W : Type} `{Nic W}.

(** [net_arp_resolve(ip, mac)]: 0 and the address, or a negative result *)
Variable resolve : Z -> M W (Z * list Z).

(** [send_tcp_segment(&sockets[i], flags, data, data_len)] *)
Definition send_tcp_segment (i flags : Z) (data : list Z) : M W Z :=
  s <- get ;;
  p <- lift (tcp_frame (own_mac s) (sock s i) flags data) ;;
  a <- resolve (dst_ip (sock s i)) ;;
  if a.1 <? 0 then ret (-1)
  else call (rtl8139_send (put_bytes p 0 a.2)).

(** [find_sock_by_port] *)
Definition find_sock_by_port (s : net W) (port : Z) : option Z :=
  find_up (Z.to_nat TCP_MAX_SOCKS) 0 (fun i => used (sock s i) && (src_port (sock s i) =? port)).

Definition has_flag (flags f : Z) : bool := negb (Z.land flags f =? 0).

(** The end of [tcp_handle_packet]: a FIN, or data in order *)
Definition handle_fin (i seq : Z) : M W unit :=
  upd i (fun k => set_rcv_nxt k (u32 (seq + 1))) ;;;
  send_tcp_segment i TCP_FLAG_ACK [] ;;;
  s <- get ;;
  if state (sock s i) =? TCP_FIN_WAIT_2 then
    upd i (fun k => set_state k TCP_TIME_WAIT) ;;;
    send_tcp_segment i TCP_FLAG_ACK [] ;;;
    ret tt
  else upd i (fun k => set_state k TCP_CLOSE_WAIT).

Definition handle_data (i seq flags data_len : Z) (data : list Z) : M W unit :=
  if (0 <? data_len) || has_flag flags TCP_FLAG_PSH then
    s <- get ;;
    if (0 <? data_len) && (seq =? rcv_nxt (sock s i)) then
      let data_len := if RCV_BUF <? data_len then RCV_BUF else data_len in
      upd i (fun k => set_rcv k (put_bytes (rcv_buf k) 0 (take (Z.to_nat data_len) data)) data_len) ;;;
      upd i (fun k => set_rcv_nxt k (u32 (seq + data_len))) ;;;
      send_tcp_segment i TCP_FLAG_ACK [] ;;;
      ret tt
    else ret tt
  else ret tt.

(** [tcp_handle_packet(pkt, len)]; [len] is the length of [pkt] *)
Definition tcp_handle_packet (pkt : list Z) : M W unit :=
  let len := Z.of_nat (length pkt) in
  let ip_hlen := Z.land (byte_at pkt 14) 15 * 4 in
  if ip_hlen <? 20 then ret tt else
  let tcp_off := 14 + ip_hlen in
  if len <? tcp_off + 20 then ret tt else
  let ip_total := net_htons (get16 pkt 16) in
  if len <? 14 + ip_total then ret tt else
  s <- get ;;
  match find_sock_by_port s (net_htons (get16 pkt (tcp_off + 2))) with
  | None => ret tt
  | Some i =>
      let tcp_hlen := Z.land (Z.shiftr (byte_at pkt (tcp_off + 12)) 4) 15 * 4 in
      if (tcp_hlen <? 20) || (14 + ip_total <? tcp_off + tcp_hlen) then ret tt else
      let seq := net_htonl (get32 pkt (tcp_off + 4)) in
      let ack := net_htonl (get32 pkt (tcp_off + 8)) in
      let flags := byte_at pkt (tcp_off + 13) in
      let window := net_htons (get16 pkt (tcp_off + 14)) in
      if has_flag flags TCP_FLAG_RST then upd i (fun k => set_state k TCP_CLOSED) else
      if state (sock s i) =? TCP_SYN_SENT then
        if has_flag flags TCP_FLAG_SYN && has_flag flags TCP_FLAG_ACK then
          if negb (ack =? snd_nxt (sock s i)) then ret tt
          else
            upd i (fun k => set_state (set_ack (set_rcv_nxt k (u32 (seq + 1))) ack window) TCP_ESTABLISHED) ;;;
            send_tcp_segment i TCP_FLAG_ACK [] ;;;
            ret tt
        else ret tt
      else
        (if has_flag flags TCP_FLAG_ACK then upd i (fun k => set_ack k ack window) else ret tt) ;;;
        if has_flag flags TCP_FLAG_FIN then handle_fin i seq
        else
          handle_data i seq flags (14 + ip_total - tcp_off - tcp_hlen)
            (get_bytes pkt (tcp_off + tcp_hlen) (14 + ip_total - tcp_off - tcp_hlen))
  end.

End handler.
End Tcp.
