(* ===== verification/NetStack.v ===== *)
(** * kernel/net/net.c and the socket calls of kernel/net/tcp.c

    ARP, ICMP echo, the dispatch of received frames, and the calls that poll
    the card until something happens or the clock says that time is up.
    [net_arp_resolve] dispatches what it receives, and handling a TCP packet
    may call it again; the fuel of [arp_poll] bounds the polls, also those
    of the nested calls.  The nested polls receive into the same static
    buffer [pkt_buf] as the outer one; no handler reads its packet after it
    has sent a segment, so a frame is an argument here. *)
From S2P Require Import Prelude Bytes NetBase Tcp.

Module NetStack.
Import Net Tcp.
#[local] Open Scope net_scope.

(** ** Frames *)

(** An ARP packet at offset 14 *)
Definition put_arp (p : list Z) (oper : Z) (sha : list Z) (spa : Z) (tha : list Z) (tpa : Z) : list Z :=
  let p := put16 p 14 (net_htons 1) in
  let p := put16 p 16 (net_htons ETH_IP) in
  let p := set_byte p 18 6 in
  let p := set_byte p 19 4 in
  let p := put16 p 20 (net_htons oper) in
  let p := put_bytes p 22 sha in
  let p := put32 p 28 spa in
  let p := put_bytes p 32 tha in
  put32 p 38 tpa.

Definition arp_request (mac : list Z) (ip : Z) : list Z :=
  put_arp (put_eth (replicate 42 0) (replicate 6 255) mac ETH_ARP) 1 mac (net_htonl NET_HOST_IP)
    (replicate 6 0) (net_htonl ip).

(** The reply to the request [pkt] *)
Definition arp_reply (mac pkt : list Z) : list Z :=
  let sha := get_bytes pkt 22 6 in
  put_arp (put_eth (replicate 42 0) sha mac ETH_ARP) 2 mac (net_htonl NET_HOST_IP) sha (get32 pkt 28).

(** The echo request of [send_icmp_echo], 98 bytes *)
Definition icmp_echo (dst src : list Z) (ip id seq : Z) : option (list Z) :=
  let p := put_eth (replicate 98 0) dst src ETH_IP in
  match put_ip p 84 1 IP_ICMP NET_HOST_IP ip with
  | None => None
  | Some p =>
      let p := set_byte p 34 ICMP_ECHO_REQ in
      let p := set_byte p 35 0 in
      let p := put16 p 36 0 in
      let p := put16 p 38 (net_htons id) in
      let p := put16 p 40 (net_htons seq) in
      let p := for_up 56 0 1 (fun i p => set_byte p (42 + i) i) p in
      match net_checksum (get_bytes p 34 64) 64 with
      | Some c => Some (put16 p 36 c)
      | None => None
      end
  end.

Section stack.
Context {W : Type} `{Nic W}.

Definition set_cache (s : net W) (ip : Z) (mac : list Z) (valid : bool) : net W :=
  mkNet (own_mac s) ip mac valid (ping_reply_received s) (ping_reply_id s) (ping_reply_seq s) (sockets s)
    (next_ephemeral s) (world s).

Definition set_ping (s : net W) (received : bool) (id seq : Z) : net W :=
  mkNet (own_mac s) (arp_cache_ip s) (arp_cache_mac s) (arp_cache_valid s) received id seq (sockets s)
    (next_ephemeral s) (world s).

Definition send_arp_request (ip : Z) : M W unit :=
  s <- get ;; call (rtl8139_send (arp_request (own_mac s) ip)) ;;; ret tt.

Definition send_icmp_echo (ip id seq : Z) : M W unit :=
  s <- get ;;
  p <- lift (icmp_echo (arp_cache_mac s) (own_mac s) ip id seq) ;;
  call (rtl8139_send p) ;;; ret tt.

(** ** Receiving *)

Definition handle_arp (pkt : list Z) : M W unit :=
  let oper := net_htons (get16 pkt 20) in
  let for_us := get32 pkt 38 =? net_htonl NET_HOST_IP in
  (if (oper =? 2) && for_us
   then modify (fun s => set_cache s (net_htonl (get32 pkt 28)) (get_bytes pkt 22 6) true) else ret tt) ;;;
  if (oper =? 1) && for_us then
    s <- get ;; call (rtl8139_send (arp_reply (own_mac s) pkt)) ;;; ret tt
  else ret tt.

(** [check_icmp_checksum], with the ICMP message at offset [off] *)
Definition check_icmp_checksum (pkt : list Z) (off icmp_len : Z) : option bool :=
  match net_checksum (put16 (get_bytes pkt off icmp_len) 2 0) icmp_len with
  | Some calc => Some (get16 pkt (off + 2) =? calc)
  | None => None
  end.

Definition handle_icmp (pkt : list Z) : M W unit :=
  let ip_hlen := Z.land (byte_at pkt 14) 15 * 4 in
  if ip_hlen <? 20 then ret tt else
  let off := 14 + ip_hlen in
  let icmp_len := u32 (Z.of_nat (length pkt) - off) in
  if icmp_len <? 8 then ret tt else
  ok <- lift (check_icmp_checksum pkt off icmp_len) ;;
  if negb ok then ret tt else
  if byte_at pkt off =? ICMP_ECHO_REP then
    modify (fun s => set_ping s true (net_htons (get16 pkt (off + 4))) (net_htons (get16 pkt (off + 6))))
  else ret tt.

(** The checks of [net_parse_packet] on an IP packet: [None] when the carry
    loop runs out of fuel *)
Definition ip_accepted (pkt : list Z) : option bool :=
  let len := Z.of_nat (length pkt) in
  let ver_ihl := byte_at pkt 14 in
  let ip_hlen := Z.land ver_ihl 15 * 4 in
  if negb (Z.shiftr ver_ihl 4 =? 4) then Some false else
  if ip_hlen <? 20 then Some false else
  if len <? 14 + ip_hlen then Some false else
  let ip_total := net_htons (get16 pkt 16) in
  if (ip_total <? ip_hlen) || (len <? 14 + ip_total) then Some false else
  if negb (Z.land (get16 pkt 20) 63 =? 0) then Some false else
  match net_checksum (get_bytes pkt 14 ip_hlen) ip_hlen with
  | Some c => Some (c =? 0)
  | None => None
  end.

(** [net_parse_packet(pkt, len)] *)
Definition net_parse_packet (resolve : Z -> M W (Z * list Z)) (pkt : list Z) : M W Z :=
  let len := Z.of_nat (length pkt) in
  if len <? 14 then ret (-1) else
  let type := net_htons (get16 pkt 12) in
  if type =? ETH_ARP then (if 42 <=? len then handle_arp pkt else ret tt) ;;; ret 0
  else if type =? ETH_IP then
    if 34 <=? len then
      ok <- lift (ip_accepted pkt) ;;
      if negb ok then ret 0 else
      let ip_hlen := Z.land (byte_at pkt 14) 15 * 4 in
      let protocol := byte_at pkt 23 in
      (if (protocol =? IP_ICMP) && (14 + ip_hlen + 8 <=? len) then handle_icmp pkt else ret tt) ;;;
      (if (protocol =? IP_TCP) && (14 + ip_hlen + 20 <=? len) then tcp_handle_packet resolve pkt else ret tt) ;;;
      ret 0
    else ret 0
  else ret (-1).

(** ** Address resolution *)

(** The cached address of [ip] *)
Definition cache_hit (s : net W) (ip : Z) : bool := arp_cache_valid s && (arp_cache_ip s =? ip).

(** [net_arp_resolve(ip, mac)] around its polling loop *)
Definition arp_resolve (poll : Z -> Z -> M W (Z * list Z)) (ip : Z) : M W (Z * list Z) :=
  s <- get ;;
  if cache_hit s ip then ret (0, arp_cache_mac s)
  else
    send_arp_request ip ;;;
    start <- call get_ticks ;;
    poll start ip.

(** [while ((get_ticks() - start) < 50) ...] *)
Fixpoint arp_poll (fuel : nat) (start ip : Z) : M W (Z * list Z) :=
  match fuel with
  | O => no_fuel
  | S fuel =>
      now <- call get_ticks ;;
      if u32 (now - start) <? 50 then
        pkt <- call rtl8139_recv ;;
        match pkt with
        | Some pkt => net_parse_packet (arp_resolve (arp_poll fuel)) pkt ;;; ret tt
        | None => ret tt
        end ;;;
        s <- get ;;
        if cache_hit s ip then ret (0, arp_cache_mac s)
        else arp_poll fuel start ip
      else ret (-1, [])
  end.

Definition net_arp_resolve (fuel : nat) (ip : Z) : M W (Z * list Z) := arp_resolve (arp_poll fuel) ip.

(** [net_init] *)
Definition net_init `{NicSetup W} : M W Z :=
  r <- call rtl8139_init ;;
  if r <? 0 then ret (-1)
  else
    modify (fun s =>
      mkNet (rtl8139_get_mac (world s)) (arp_cache_ip s) (arp_cache_mac s) false false (ping_reply_id s)
        (ping_reply_seq s) (sockets s) (next_ephemeral s) (world s)) ;;;
    ret 0.

(** ** Ping *)

(** The loop of [net_ping]: 0 and the round-trip time, or -1 *)
Fixpoint ping_poll (fuel : nat) (start timeout : Z) : M W (Z * Z) :=
  match fuel with
  | O => no_fuel
  | S fuel =>
      now <- call get_ticks ;;
      if u32 (now - start) <? timeout then
        pkt <- call rtl8139_recv ;;
        match pkt with
        | Some pkt => net_parse_packet (net_arp_resolve fuel) pkt ;;; ret tt
        | None => ret tt
        end ;;;
        s <- get ;;
        if ping_reply_received s then
          now <- call get_ticks ;;
          ret (0, i32 (u32 (now - start) * 10))
        else ping_poll fuel start timeout
      else ret (-1, 0)
  end.

(** [(timeout_ms + 9) / 10] of an [int], converted to unsigned *)
Definition timeout_ticks (timeout_ms : Z) : Z := u32 (Z.quot (timeout_ms + 9) 10).

(** [net_ping(dst_ip, timeout_ms, rtt_ms)] *)
Definition net_ping (fuel : nat) (ip timeout_ms : Z) : M W (Z * Z) :=
  let target := if Z.land ip NET_NETMASK =? Z.land NET_HOST_IP NET_NETMASK then ip else NET_GW_IP in
  a <- net_arp_resolve fuel target ;;
  a <- (if a.1 <? 0 then net_arp_resolve fuel target else ret a) ;;
  if a.1 <? 0 then ret (-1, 0)
  else
    modify (fun s => set_cache s target a.2 true) ;;;
    modify (fun s => set_ping s false (ping_reply_id s) (ping_reply_seq s)) ;;;
    start <- call get_ticks ;;
    send_icmp_echo ip 4660 1 ;;;
    ping_poll fuel start (timeout_ticks timeout_ms).

(** ** Sockets *)

(** One iteration's receive in the socket loops *)
Definition tcp_receive (fuel : nat) : M W unit :=
  pkt <- call rtl8139_recv ;;
  match pkt with
  | Some pkt => tcp_handle_packet (net_arp_resolve fuel) pkt
  | None => ret tt
  end.

(** The polling loops of the socket calls: while less than [timeout] ticks
    have passed, receive and test; [done] gives the result, if any. *)
Fixpoint tcp_poll (fuel : nat) (start timeout : Z) (done : net W -> option Z) : M W (option Z) :=
  match fuel with
  | O => no_fuel
  | S fuel =>
      now <- call get_ticks ;;
      if u32 (now - start) <? timeout then
        tcp_receive fuel ;;;
        s <- get ;;
        match done s with
        | Some r => ret (Some r)
        | None => tcp_poll fuel start timeout done
        end
      else ret None
  end.

Definition tcp_poll_until (fuel : nat) (i target timeout_ms : Z) : M W Z :=
  s <- get ;;
  if negb (used (sock s i)) then ret (-1)
  else
    start <- call get_ticks ;;
    r <- tcp_poll fuel start (timeout_ticks timeout_ms)
           (fun s => if state (sock s i) =? target then Some 0
                     else if (TCP_CLOSE_WAIT <=? state (sock s i)) && negb (target =? TCP_CLOSED) then Some (-1)
                     else None) ;;
    ret (default (-1) r).

Definition set_ephemeral (s : net W) (v : Z) : net W :=
  mkNet (own_mac s) (arp_cache_ip s) (arp_cache_mac s) (arp_cache_valid s) (ping_reply_received s)
    (ping_reply_id s) (ping_reply_seq s) (sockets s) v (world s).

Definition tcp_connect (fuel : nat) (ip port timeout_ms : Z) : M W Z :=
  s <- get ;;
  match find_up (Z.to_nat TCP_MAX_SOCKS) 0 (fun i => negb (used (sock s i))) with
  | None => ret (-1)
  | Some i =>
      now <- call get_ticks ;;
      let isn := u32 (Z.shiftl now 4) in
      upd i (fun _ => mkSock true TCP_SYN_SENT ip port (next_ephemeral s) isn 0 isn 0
                        (replicate (Z.to_nat RCV_BUF) 0) 0 isn) ;;;
      modify (fun s => set_ephemeral s (u16 (next_ephemeral s + 1))) ;;;
      r <- send_tcp_segment (net_arp_resolve fuel) i TCP_FLAG_SYN [] ;;
      if r <? 0 then upd i (fun k => set_used k false) ;;; ret (-1)
      else
        upd i (fun k => set_snd_nxt k (u32 (isn + 1))) ;;;
        r <- tcp_poll_until fuel i TCP_ESTABLISHED timeout_ms ;;
        if r <? 0 then upd i (fun k => set_used k false) ;;; ret (-1)
        else ret i
  end.

(** [tcp_send(i, data, len, timeout_ms)]; [len] is the length of [data] *)
Definition tcp_send (fuel : nat) (i : Z) (data : list Z) (timeout_ms : Z) : M W Z :=
  s <- get ;;
  if negb (used (sock s i)) || negb (state (sock s i) =? TCP_ESTABLISHED) then ret (-1)
  else
    let data := take (Z.to_nat 1460) data in
    upd i (fun k => set_snd_nxt k (snd_una k)) ;;;
    r <- send_tcp_segment (net_arp_resolve fuel) i (Z.lor TCP_FLAG_PSH TCP_FLAG_ACK) data ;;
    if r <? 0 then ret (-1)
    else
      upd i (fun k => set_snd_nxt k (u32 (snd_una k + Z.of_nat (length data)))) ;;;
      start <- call get_ticks ;;
      r <- tcp_poll fuel start (timeout_ticks timeout_ms)
             (fun s => if snd_nxt (sock s i) <=? snd_una (sock s i) then Some 0 else None) ;;
      ret (default (-1) r).

(** What [tcp_recv] takes out of the receive buffer: the bytes copied to the
    caller, and the rest moved to the front *)
Definition take_received (max_len : Z) (k : tcp_sock) : list Z * tcp_sock :=
  let copy := if rcv_len k <? max_len then rcv_len k else max_len in
  let out := get_bytes (rcv_buf k) 0 copy in
  let buf := if copy <? rcv_len k
             then put_bytes (rcv_buf k) 0 (get_bytes (rcv_buf k) copy (rcv_len k - copy)) else rcv_buf k in
  (out, set_rcv k buf (rcv_len k - copy)).

(** The loop of [tcp_recv]: the bytes received *)
Fixpoint recv_poll (fuel : nat) (i max_len start timeout : Z) : M W (list Z) :=
  match fuel with
  | O => no_fuel
  | S fuel =>
      now <- call get_ticks ;;
      if u32 (now - start) <? timeout then
        s <- get ;;
        if 0 <? rcv_len (sock s i) then
          upd i (fun k => (take_received max_len k).2) ;;;
          ret (take_received max_len (sock s i)).1
        else
          tcp_receive fuel ;;;
          s <- get ;;
          if TCP_CLOSE_WAIT <=? state (sock s i) then ret []
          else recv_poll fuel i max_len start timeout
      else ret []
  end.

(** [tcp_recv]: [None] for -1, else the bytes (their number is the result) *)
Definition tcp_recv (fuel : nat) (i max_len timeout_ms : Z) : M W (option (list Z)) :=
  s <- get ;;
  if negb (used (sock s i)) then ret None
  else
    start <- call get_ticks ;;
    out <- recv_poll fuel i max_len start (timeout_ticks timeout_ms) ;;
    ret (Some out).

Definition tcp_close (fuel : nat) (i : Z) : M W unit :=
  s <- get ;;
  if negb (used (sock s i)) then ret tt
  else
    (if state (sock s i) =? TCP_ESTABLISHED then
       send_tcp_segment (net_arp_resolve fuel) i (Z.lor TCP_FLAG_FIN TCP_FLAG_ACK) [] ;;;
       upd i (fun k => set_state (set_snd_nxt k (u32 (snd_nxt k + 1))) TCP_FIN_WAIT_1) ;;;
       start <- call get_ticks ;;
       tcp_poll fuel start 50
         (fun s => if (TCP_TIME_WAIT <=? state (sock s i)) || (state (sock s i) =? TCP_CLOSE_WAIT)
                   then Some 0 else None) ;;;
       ret tt
     else ret tt) ;;;
    upd i (fun k => set_used k false).

End stack.
End NetStack.
