(* ===== verification/NetSum.v ===== *)
(** * The Internet checksum

    [net_checksum] and [tcp_checksum] against the definition of RFC 1071:
    one's-complement addition of 16-bit words, complemented.  The central
    fact is the closed form [ones16] of the end-around-carry sum, from which
    follows that a message with its checksum stored verifies. *)
From S2P Require Import Prelude Bytes NetBase Tcp.
Import Net Tcp.

(** ** Reference *)

(** The 16-bit words of a message, in memory order; an odd last byte is a
    word with high byte 0. *)
Fixpoint words (l : list Z) : list Z :=
  match l with
  | [] => []
  | [a] => [a]
  | a :: b :: l => a + 256 * b :: words l
  end.

(** One's-complement addition of two 16-bit words *)
Definition onec_add (a b : Z) : Z := if a + b <? 65536 then a + b else a + b - 65535.

Definition onec_sum (ws : list Z) : Z := fold_left onec_add ws 0.

Definition rfc1071 (l : list Z) : Z := 65535 - onec_sum (words l).

(** ** The closed form *)

Definition ones16 (s : Z) : Z := if s =? 0 then 0 else (s - 1) mod 65535 + 1.

Definition sumz (ws : list Z) : Z := fold_right Z.add 0 ws.

Lemma ones16_range (s : Z) : 0 <= ones16 s < 65536.
Proof. unfold ones16. destruct (s =? 0); [lia|]. pose proof (Z.mod_pos_bound (s - 1) 65535). lia. Qed.

Lemma ones16_step (a b : Z) : 0 <= a -> 0 <= b -> onec_add (ones16 a) (ones16 b) = ones16 (a + b).
Proof.
  intros Ha Hb. unfold onec_add, ones16.
  destruct (Z.eqb_spec a 0), (Z.eqb_spec b 0), (Z.eqb_spec (a + b) 0); try lia; subst.
  - done.
  - rewrite !Z.add_0_l. pose proof (Z.mod_pos_bound (b - 1) 65535).
    by rewrite (proj2 (Z.ltb_lt _ _)) by lia.
  - rewrite !Z.add_0_r. pose proof (Z.mod_pos_bound (a - 1) 65535).
    by rewrite (proj2 (Z.ltb_lt _ _)) by lia.
  - destruct (Z.ltb_spec ((a - 1) mod 65535 + 1 + ((b - 1) mod 65535 + 1)) 65536); div_mod_lia.
Qed.

Lemma ones16_word (w : Z) : 0 <= w < 65536 -> ones16 w = w.
Proof. intros. unfold ones16. destruct (Z.eqb_spec w 0); [done|]. div_mod_lia. Qed.

Lemma onec_sum_closed (ws : list Z) :
  Forall (fun w => 0 <= w < 65536) ws -> onec_sum ws = ones16 (sumz ws) /\ 0 <= sumz ws.
Proof.
  intros H. unfold onec_sum. assert (G : forall acc, 0 <= acc ->
    fold_left onec_add ws (ones16 acc) = ones16 (acc + sumz ws) /\ 0 <= sumz ws).
  { induction H as [|w ws Hw _ IH]; intros acc Ha; cbn [fold_left sumz fold_right].
    - by rewrite Z.add_0_r.
    - rewrite <- (ones16_word w) at 1 by done. rewrite ones16_step by lia. fold (sumz ws).
      destruct (IH (acc + w)) as [-> ?]; [lia|]. split; [f_equal; lia|lia]. }
  exact (G 0 ltac:(lia)).
Qed.

(** ** The carry loop *)

Lemma fold_carry_small (n : nat) (s : Z) : 0 <= s < 65536 -> fold_carry n s = Some s.
Proof.
  intros Hs. destruct n; cbn [fold_carry]; rewrite Z.shiftr_div_pow2 by lia; change (2 ^ 16) with 65536;
    by rewrite Z.div_small by lia.
Qed.

Lemma fold_carry_step (n : nat) (s : Z) :
  65536 <= s < 4294967296 -> fold_carry (S n) s = fold_carry n (s mod 65536 + s / 65536).
Proof.
  intros Hs. cbn [fold_carry]. rewrite Z.shiftr_div_pow2 by lia. change (2 ^ 16) with 65536.
  destruct (Z.eqb_spec (s / 65536) 0); [div_mod_lia|]. change 65535 with (Z.ones 16).
  rewrite Z.land_ones by lia. change (2 ^ 16) with 65536. rewrite u32_small; [done|div_mod_lia].
Qed.

Lemma ones16_fold (s : Z) : 65536 <= s -> ones16 (s mod 65536 + s / 65536) = ones16 s.
Proof.
  intros Hs. unfold ones16. destruct (Z.eqb_spec s 0); [lia|].
  destruct (Z.eqb_spec (s mod 65536 + s / 65536) 0); [div_mod_lia|]. f_equal.
  replace (s - 1) with (s mod 65536 + s / 65536 - 1 + s / 65536 * 65535) by div_mod_lia.
  by rewrite Z.mod_add by lia.
Qed.

(** Two iterations reach a 16-bit value, for every 32-bit sum. *)
Lemma fold_carry_ones16 (s : Z) : 0 <= s < 4294967296 -> fold_carry 2 s = Some (ones16 s).
Proof.
  intros Hs. destruct (Z.lt_ge_cases s 65536).
  { rewrite fold_carry_small, ones16_word by lia. done. }
  rewrite fold_carry_step, <- ones16_fold by lia. set (s1 := s mod 65536 + s / 65536).
  assert (H1 : 0 < s1 <= 131070) by (unfold s1; div_mod_lia).
  destruct (Z.lt_ge_cases s1 65536).
  { rewrite fold_carry_small, ones16_word by lia. done. }
  rewrite fold_carry_step, <- (ones16_fold s1) by lia.
  rewrite fold_carry_small, ones16_word by div_mod_lia. done.
Qed.

(** ** The summing loop *)

Lemma for_up_shift {S : Type} (n : nat) (i : Z) (body : Z -> S -> S) (s : S) :
  for_up n (i + 1) 1 body s = for_up n i 1 (fun x => body (x + 1)) s.
Proof. revert i s. induction n as [|n IH]; intros i s; cbn [for_up]; [done|]. by rewrite IH. Qed.

Lemma byte_at_cons (a : Z) (l : list Z) (i : Z) : 0 <= i -> byte_at (a :: l) (i + 1) = byte_at l i.
Proof. intros. unfold byte_at. replace (Z.to_nat (i + 1)) with (S (Z.to_nat i)) by lia. done. Qed.

Lemma get16_cons2 (a b : Z) (l : list Z) (i : Z) : 0 <= i -> get16 (a :: b :: l) (2 * (i + 1)) = get16 l (2 * i).
Proof.
  intros. unfold get16. replace (2 * (i + 1)) with (2 * i + 1 + 1) by lia. by rewrite !byte_at_cons by lia.
Qed.

Lemma sum_words_cons2 (a b : Z) (l : list Z) (n s : Z) :
  0 <= n -> sum_words (a :: b :: l) (n + 1) s = sum_words l n (u32 (s + (a + 256 * b))).
Proof.
  intros Hn. unfold sum_words. replace (Z.to_nat (n + 1)) with (S (Z.to_nat n)) by lia. cbn [for_up].
  rewrite (for_up_shift (Z.to_nat n) 0). change (get16 (a :: b :: l) (2 * 0)) with (a + 256 * b).
  assert (G : forall m i s, 0 <= i ->
    for_up m i 1 (fun x sum => u32 (sum + get16 (a :: b :: l) (2 * (x + 1)))) s =
    for_up m i 1 (fun x sum => u32 (sum + get16 l (2 * x))) s).
  { induction m as [|m IH]; intros i s0 Hi; cbn [for_up]; [done|]. rewrite get16_cons2 by lia. apply IH. lia. }
  apply G. lia.
Qed.

(** The sum that the checksum functions compute over [l], from [s] *)
Definition raw_sum (l : list Z) (s : Z) : Z :=
  let n := Z.of_nat (length l) in
  let s := sum_words l (n / 2) s in
  if n mod 2 =? 0 then s else u32 (s + byte_at l (n - 1)).

Lemma words_range (l : list Z) : is_bytes l -> Forall (fun w => 0 <= w < 65536) (words l).
Proof.
  revert l. fix IH 1. intros [|a [|b l]] H; cbn [words].
  - constructor.
  - apply Forall_cons in H as [Ha _]. unfold is_byte in Ha. constructor; [lia|constructor].
  - apply Forall_cons in H as [Ha H]. apply Forall_cons in H as [Hb H]. unfold is_byte in *.
    constructor; [lia|]. by apply IH.
Qed.

Lemma sumz_bound (ws : list Z) :
  Forall (fun w => 0 <= w < 65536) ws -> 0 <= sumz ws <= 65535 * Z.of_nat (length ws).
Proof.
  induction 1 as [|w ws Hw _ IH]; [cbn; lia|]. cbn [sumz fold_right length]. fold (sumz ws). lia.
Qed.

Lemma length_words (l : list Z) : 2 * Z.of_nat (length (words l)) <= Z.of_nat (length l) + 1.
Proof. revert l. fix IH 1. intros [|a [|b l]]; cbn [words length]; [lia|lia|]. specialize (IH l). lia. Qed.

Lemma raw_sum_words (l : list Z) (s : Z) :
  is_bytes l -> 0 <= s -> s + sumz (words l) < 4294967296 -> raw_sum l s = s + sumz (words l).
Proof.
  revert l s. fix IH 1. intros [|a [|b l]] s H Hs Hb.
  - change (sumz (words [])) with 0. by rewrite Z.add_0_r.
  - change (raw_sum [a] s) with (u32 (s + a)). change (sumz (words [a])) with (a + 0) in *.
    apply Forall_cons in H as [Ha _]. unfold is_byte in Ha. rewrite u32_small; lia.
  - apply Forall_cons in H as [Ha H]. apply Forall_cons in H as [Hb' H]. unfold is_byte in *.
    cbn [words sumz fold_right] in *. fold (sumz (words l)) in *.
    pose proof (sumz_bound _ (words_range l H)).
    unfold raw_sum. cbn [length]. set (n := Z.of_nat (length l)).
    replace (Z.of_nat (S (S (length l)))) with (n + 2) by lia.
    replace ((n + 2) / 2) with (n / 2 + 1) by div_mod_lia. replace ((n + 2) mod 2) with (n mod 2) by div_mod_lia.
    rewrite sum_words_cons2 by div_mod_lia. rewrite u32_small by lia.
    specialize (IH l (s + (a + 256 * b)) H ltac:(lia) ltac:(lia)). unfold raw_sum in IH. fold n in IH.
    destruct (Z.eqb_spec (n mod 2) 0); [lia|].
    replace (n + 2 - 1) with (n - 1 + 1 + 1) by lia. rewrite !byte_at_cons by div_mod_lia. lia.
Qed.

(** ** The checksum functions are RFC 1071's *)

Lemma sumz_app (l l' : list Z) : sumz (l ++ l') = sumz l + sumz l'.
Proof. induction l as [|x l IH]; [done|]. cbn [app sumz fold_right]. fold (sumz (l ++ l')) (sumz l). lia. Qed.

Lemma words_app (l l' : list Z) : Nat.even (length l) = true -> words (l ++ l') = words l ++ words l'.
Proof.
  revert l. fix IH 1. intros [|a [|b l]] H; [done|discriminate|]. cbn [app words]. f_equal. by apply IH.
Qed.

Lemma carry_not16 (l : list Z) :
  is_bytes l -> sumz (words l) < 4294967296 ->
  match fold_carry 2 (sumz (words l)) with Some s => Some (not16 s) | None => None end = Some (rfc1071 l).
Proof.
  intros Hb Hs. destruct (onec_sum_closed _ (words_range l Hb)) as [E H0].
  rewrite fold_carry_ones16 by lia. unfold rfc1071, not16. rewrite E. unfold u16.
  by rewrite Z.mod_small by apply ones16_range.
Qed.

Lemma words_small (l : list Z) : is_bytes l -> Z.of_nat (length l) <= 131071 -> 0 <= sumz (words l) < 4294967296.
Proof.
  intros Hb Hl. pose proof (sumz_bound _ (words_range l Hb)). pose proof (length_words l). lia.
Qed.

Lemma net_checksum_rfc (l : list Z) (n : Z) :
  is_bytes l -> n = Z.of_nat (length l) -> n <= 131071 -> net_checksum l n = Some (rfc1071 l).
Proof.
  intros Hb -> Hl. pose proof (words_small l Hb Hl) as Hs. rewrite <- carry_not16 by (done || lia).
  pose proof (raw_sum_words l 0 Hb ltac:(lia) ltac:(lia)) as E. unfold raw_sum in E. cbv zeta in E.
  unfold net_checksum. replace (Z.land (Z.of_nat (length l)) 1) with (Z.of_nat (length l) mod 2)
    by exact (eq_sym (Z.land_ones (Z.of_nat (length l)) 1 ltac:(lia))).
  cbv zeta. rewrite E. done.
Qed.

Lemma is_bytes_put16 (l : list Z) (i v : Z) : is_bytes l -> is_bytes (put16 l i v).
Proof. intros. unfold put16. by apply is_bytes_set_byte, is_bytes_set_byte. Qed.

Lemma length_put16 (l : list Z) (i v : Z) : length (put16 l i v) = length l.
Proof. unfold put16. by rewrite !length_set_byte. Qed.

Lemma is_bytes_zeros (n : nat) : is_bytes (replicate n 0).
Proof. apply is_bytes_replicate. lia. Qed.

Lemma pseudo_header_bytes (src dst n : Z) : is_bytes (pseudo_header src dst n) /\ length (pseudo_header src dst n) = 12%nat.
Proof.
  unfold pseudo_header. split.
  - apply is_bytes_put16, is_bytes_set_byte, is_bytes_set_byte, is_bytes_put32, is_bytes_put32, is_bytes_zeros.
  - by rewrite length_put16, !length_set_byte, !length_put32.
Qed.

(** The pseudo header and the segment are summed as one message. *)
Lemma tcp_checksum_rfc (src dst : Z) (tcp : list Z) (n : Z) :
  is_bytes tcp -> n = Z.of_nat (length tcp) -> n <= 65535 ->
  tcp_checksum src dst tcp n = Some (rfc1071 (pseudo_header src dst n ++ tcp)).
Proof.
  intros Hb -> Hl. set (n := Z.of_nat (length tcp)). destruct (pseudo_header_bytes src dst n) as [Hpb Hpl].
  set (p := pseudo_header src dst n) in *.
  assert (Hab : is_bytes (p ++ tcp)) by (by apply Forall_app).
  assert (Hs : 0 <= sumz (words (p ++ tcp)) < 4294967296) by (apply words_small; [done|rewrite length_app; lia]).
  rewrite <- carry_not16 by (done || lia).
  rewrite words_app, sumz_app in * by (by rewrite Hpl).
  pose proof (sumz_bound _ (words_range p Hpb)). pose proof (sumz_bound _ (words_range tcp Hb)).
  pose proof (raw_sum_words p 0 Hpb ltac:(lia) ltac:(lia)) as Ep. unfold raw_sum in Ep. rewrite Hpl in Ep.
  change (sum_words p 6 0 = 0 + sumz (words p)) in Ep. rewrite Z.add_0_l in Ep.
  pose proof (raw_sum_words tcp (sumz (words p)) Hb ltac:(lia) ltac:(lia)) as Et. unfold raw_sum in Et. cbv zeta in Et.
  fold n in Et. unfold tcp_checksum. fold p. rewrite Ep, Et. done.
Qed.

(** ** Verification *)

Lemma ones16_complement (s : Z) : 0 <= s -> ones16 (s + (65535 - ones16 s)) = 65535.
Proof.
  intros Hs. unfold ones16 at 2. destruct (Z.eqb_spec s 0) as [->|]; [done|].
  assert (E : s + (65535 - ((s - 1) mod 65535 + 1)) = ((s - 1) / 65535 + 1) * 65535) by div_mod_lia.
  rewrite E. assert (0 <= (s - 1) / 65535) by (apply Z.div_pos; lia).
  unfold ones16. destruct (Z.eqb_spec (((s - 1) / 65535 + 1) * 65535) 0); [lia|]. div_mod_lia.
Qed.

Lemma set_byte_cons (a : Z) (l : list Z) (i v : Z) : 0 <= i -> set_byte (a :: l) (i + 1) v = a :: set_byte l i v.
Proof. intros. unfold set_byte. replace (Z.to_nat (i + 1)) with (S (Z.to_nat i)) by lia. done. Qed.

(** Storing a word at an even offset replaces that word of the sum. *)
Lemma sum_put16 (l : list Z) (i c : Z) :
  is_bytes l -> 0 <= i -> i mod 2 = 0 -> i + 1 < Z.of_nat (length l) -> 0 <= c < 65536 ->
  sumz (words (put16 l i c)) = sumz (words (put16 l i 0)) + c.
Proof.
  revert l i. fix IH 1. intros [|a [|b l]] i Hb Hi Hm Hlt Hc; [cbn in Hlt; lia|cbn in Hlt; lia|].
  destruct (Z.eq_dec i 0) as [->|Hne].
  - change (put16 (a :: b :: l) 0 c) with (u8 c :: u8 (c / 256) :: l).
    change (put16 (a :: b :: l) 0 0) with (0 :: 0 :: l). cbn [words sumz fold_right]. fold (sumz (words l)).
    unfold u8. div_mod_lia.
  - assert (E : forall v, put16 (a :: b :: l) i v = a :: b :: put16 l (i - 2) v).
    { intros v. unfold put16. replace i with (i - 2 + 1 + 1) at 1 2 by lia.
      rewrite !set_byte_cons by (div_mod_lia || lia). by replace (i - 2 + 1) with (i - 2 + 1) by lia. }
    rewrite !E. cbn [words sumz fold_right]. fold (sumz (words (put16 l (i - 2) c))) (sumz (words (put16 l (i - 2) 0))).
    apply Forall_cons in Hb as [_ Hb]. apply Forall_cons in Hb as [_ Hb]. cbn [length] in Hlt.
    rewrite (IH l (i - 2)) by (done || lia || div_mod_lia). lia.
Qed.

(** A message with its checksum in the (even) checksum field verifies. *)
Lemma rfc1071_verifies (p l : list Z) (i : Z) :
  is_bytes p -> is_bytes l -> Nat.even (length p) = true -> 0 <= i -> i mod 2 = 0 -> i + 1 < Z.of_nat (length l) ->
  rfc1071 (p ++ put16 l i (rfc1071 (p ++ put16 l i 0))) = 0.
Proof.
  intros Hp Hl He Hi Hm Hlt. set (c := rfc1071 (p ++ put16 l i 0)).
  assert (Hb : forall v, is_bytes (p ++ put16 l i v)) by (intros; apply Forall_app; split; [done|by apply is_bytes_put16]).
  destruct (onec_sum_closed _ (words_range _ (Hb 0))) as [E0 H0].
  destruct (onec_sum_closed _ (words_range _ (Hb c))) as [Ec _].
  assert (Hc : c = 65535 - ones16 (sumz (words (p ++ put16 l i 0)))) by (unfold c, rfc1071; by rewrite E0).
  pose proof (ones16_range (sumz (words (p ++ put16 l i 0)))).
  unfold rfc1071. rewrite Ec. rewrite words_app, sumz_app in * by done. rewrite (sum_put16 l i c) by (done || lia).
  rewrite Hc, Z.add_assoc, ones16_complement by done. done.
Qed.
