(* ===== verification/NetFrames.v ===== *)
(** * The frames the stack builds

    Reading back the fields of a frame that was written field by field, and
    the validity of the TCP segments and echo requests: lengths, header
    fields and checksums, as the receiving side of the stack reads them. *)
From S2P Require Import Prelude Bytes NetBase Tcp NetStack NetSum.
Import Net Tcp NetStack.

(** ** Reading a field after a write elsewhere *)

Lemma byte_at_put16_ne (l : list Z) (i j v : Z) :
  0 <= i -> 0 <= j -> j < i \/ i + 2 <= j -> byte_at (put16 l i v) j = byte_at l j.
Proof. intros. unfold put16. by rewrite !byte_at_set_ne by lia. Qed.

Lemma byte_at_put16_lo (l : list Z) (i v : Z) :
  0 <= i -> i + 1 < Z.of_nat (length l) -> byte_at (put16 l i v) i = u8 v.
Proof. intros. unfold put16. rewrite byte_at_set_ne by lia. apply byte_at_set_eq. lia. Qed.

Lemma byte_at_put16_hi (l : list Z) (i v : Z) :
  0 <= i -> i + 1 < Z.of_nat (length l) -> byte_at (put16 l i v) (i + 1) = u8 (v / 256).
Proof. intros. unfold put16. apply byte_at_set_eq. rewrite length_set_byte. lia. Qed.

Lemma get16_put16_eq (l : list Z) (i v : Z) :
  0 <= i -> i + 1 < Z.of_nat (length l) -> 0 <= v < 65536 -> get16 (put16 l i v) i = v.
Proof. intros. unfold get16. rewrite byte_at_put16_lo, byte_at_put16_hi by lia. unfold u8. div_mod_lia. Qed.

Lemma get16_put16_ne (l : list Z) (i j v : Z) :
  0 <= i -> 0 <= j -> j + 2 <= i \/ i + 2 <= j -> get16 (put16 l i v) j = get16 l j.
Proof. intros. unfold get16. by rewrite !byte_at_put16_ne by lia. Qed.

Lemma get16_put32_ne (l : list Z) (i j v : Z) :
  0 <= i -> 0 <= j -> j + 2 <= i \/ i + 4 <= j -> get16 (put32 l i v) j = get16 l j.
Proof. intros. unfold get16. by rewrite !byte_at_put32_ne by lia. Qed.

Lemma get16_set_byte_ne (l : list Z) (i j v : Z) :
  0 <= i -> 0 <= j -> j + 2 <= i \/ i + 1 <= j -> get16 (set_byte l i v) j = get16 l j.
Proof. intros. unfold get16. by rewrite !byte_at_set_ne by lia. Qed.

Lemma get16_put_bytes_out (src l : list Z) (i j : Z) :
  0 <= i -> 0 <= j -> j + 2 <= i \/ i + Z.of_nat (length src) <= j -> get16 (put_bytes l i src) j = get16 l j.
Proof. intros. unfold get16. by rewrite !byte_at_put_bytes_out by lia. Qed.

Lemma get32_put16_ne (l : list Z) (i j v : Z) :
  0 <= i -> 0 <= j -> j + 4 <= i \/ i + 2 <= j -> get32 (put16 l i v) j = get32 l j.
Proof. intros. unfold get32. by rewrite !byte_at_put16_ne by lia. Qed.

Lemma get32_put_bytes_out (src l : list Z) (i j : Z) :
  0 <= i -> 0 <= j -> j + 4 <= i \/ i + Z.of_nat (length src) <= j -> get32 (put_bytes l i src) j = get32 l j.
Proof. intros. unfold get32. by rewrite !byte_at_put_bytes_out by lia. Qed.

(** Walk a read through the writes; the side conditions are linear. *)
Ltac field :=
  repeat first
    [ rewrite byte_at_put16_ne by lia | rewrite byte_at_put32_ne by lia | rewrite byte_at_set_ne by lia
    | rewrite byte_at_put_bytes_out by lia
    | rewrite get16_put16_ne by lia | rewrite get16_put32_ne by lia | rewrite get16_set_byte_ne by lia
    | rewrite get16_put_bytes_out by lia
    | rewrite get32_put16_ne by lia | rewrite get32_put32_ne by lia | rewrite get32_set_byte_ne by lia
    | rewrite get32_put_bytes_out by lia ].

Ltac lengths :=
  repeat first [rewrite length_put16 | rewrite length_set_byte | rewrite length_put32 | rewrite length_put_bytes].

(** ** Parts of a frame *)

Lemma get_bytes_eq (l l' : list Z) (a n : Z) :
  (forall i, a <= i < a + n -> byte_at l i = byte_at l' i) -> get_bytes l a n = get_bytes l' a n.
Proof. intros H. unfold get_bytes. by apply map_seqZ_ext. Qed.

Lemma get_bytes_put16 (l : list Z) (a n i v : Z) :
  0 <= a <= i -> i + 2 <= a + n -> i + 2 <= Z.of_nat (length l) ->
  get_bytes (put16 l i v) a n = put16 (get_bytes l a n) (i - a) v.
Proof.
  intros Ha Hn Hl. apply bytes_ext; [by rewrite length_put16, !length_get_bytes|].
  intros j Hj. rewrite length_get_bytes in Hj. rewrite byte_at_get_bytes by lia.
  destruct (Z.eq_dec j (i - a)) as [->|]; [|destruct (Z.eq_dec j (i - a + 1)) as [->|]].
  - rewrite byte_at_put16_lo by (rewrite ?length_get_bytes; lia).
    replace (a + (i - a)) with i by lia. by rewrite byte_at_put16_lo by lia.
  - rewrite byte_at_put16_hi by (rewrite ?length_get_bytes; lia).
    replace (a + (i - a + 1)) with (i + 1) by lia. by rewrite byte_at_put16_hi by lia.
  - rewrite !byte_at_put16_ne by lia. by rewrite byte_at_get_bytes by lia.
Qed.

Lemma get_bytes_put16_out (l : list Z) (a n i v : Z) :
  0 <= a -> 0 <= i -> i + 2 <= a \/ a + n <= i -> get_bytes (put16 l i v) a n = get_bytes l a n.
Proof. intros. apply get_bytes_eq. intros. by rewrite byte_at_put16_ne by lia. Qed.

Lemma put16_twice (l : list Z) (i v w : Z) : 0 <= i -> put16 (put16 l i v) i w = put16 l i w.
Proof.
  intros Hi. unfold put16, set_byte. apply list_eq. intros j.
  rewrite !list_lookup_insert, !length_insert. repeat case_decide; naive_solver.
Qed.

Lemma put16_zero (l : list Z) (i : Z) :
  is_bytes l -> 0 <= i -> i + 1 < Z.of_nat (length l) -> get16 l i = 0 -> put16 l i 0 = l.
Proof.
  intros Hb Hi Hl H0. pose proof (is_bytes_byte_at l i Hb). pose proof (is_bytes_byte_at l (i + 1) Hb).
  unfold get16 in H0. apply bytes_ext; [by rewrite length_put16|]. intros j Hj.
  destruct (Z.eq_dec j i) as [->|]; [|destruct (Z.eq_dec j (i + 1)) as [->|]].
  - rewrite byte_at_put16_lo by lia. change (u8 0) with 0. lia.
  - rewrite byte_at_put16_hi by lia. change (u8 (0 / 256)) with 0. lia.
  - by rewrite byte_at_put16_ne by lia.
Qed.

Lemma is_bytes_get_bytes (l : list Z) (a n : Z) : is_bytes l -> is_bytes (get_bytes l a n).
Proof.
  intros H. unfold get_bytes. apply Forall_map, Forall_forall. intros i _. by apply is_bytes_byte_at.
Qed.

(** Byte order conversions are inverse to themselves. *)
Lemma htons_htons (x : Z) : 0 <= x < 65536 -> net_htons (net_htons x) = x.
Proof. intros. unfold net_htons. div_mod_lia. Qed.

Lemma htons_range (x : Z) : 0 <= net_htons x < 65536.
Proof. unfold net_htons. pose proof (u8_range x). pose proof (u8_range (x / 256)). unfold u8 in *. lia. Qed.

Lemma htonl_range (x : Z) : 0 <= net_htonl x < 4294967296.
Proof.
  unfold net_htonl. pose proof (u8_range x). pose proof (u8_range (x / 256)). pose proof (u8_range (x / 65536)).
  pose proof (u8_range (x / 16777216)). unfold u8 in *. lia.
Qed.

(** The bytes of a word, and the word of four bytes *)
Lemma htonl_bytes (a b c d : Z) :
  is_byte a -> is_byte b -> is_byte c -> is_byte d -> net_htonl (le32 a b c d) = le32 d c b a.
Proof.
  unfold is_byte. intros. unfold net_htonl, le32.
  set (x := a + 256 * b + 65536 * c + 16777216 * d).
  assert (x mod 256 = a) as -> by (unfold x; div_mod_lia).
  assert (x / 256 = b + 256 * c + 65536 * d) as -> by (unfold x; div_mod_lia).
  assert (x / 65536 = c + 256 * d) as -> by (unfold x; div_mod_lia).
  assert (x / 16777216 = d) as -> by (unfold x; div_mod_lia). clear x.
  assert ((b + 256 * c + 65536 * d) mod 256 = b) as -> by div_mod_lia.
  assert ((c + 256 * d) mod 256 = c) as -> by div_mod_lia.
  rewrite (Z.mod_small d) by lia. lia.
Qed.

Lemma htonl_htonl (x : Z) : 0 <= x < 4294967296 -> net_htonl (net_htonl x) = x.
Proof.
  intros Hx. assert (E : x = le32 (u8 x) (u8 (x / 256)) (u8 (x / 65536)) (u8 (x / 16777216))).
  { unfold le32, u8. div_mod_lia. }
  rewrite E, !htonl_bytes by apply u8_range. done.
Qed.

(** ** The IP header *)

(** A correct header at offset 14: version 4 with 20 bytes, no fragment, and
    a checksum that verifies *)
Record ip_header (q : list Z) (total proto src dst : Z) : Prop := {
  ih_ver : byte_at q 14 = 69;
  ih_total : get16 q 16 = net_htons total;
  ih_frag : get16 q 20 = 0;
  ih_proto : byte_at q 23 = u8 proto;
  ih_src : get32 q 26 = net_htonl src;
  ih_dst : get32 q 30 = net_htonl dst;
  ih_sum : rfc1071 (get_bytes q 14 20) = 0 }.

Lemma put_ip_valid (p : list Z) (total id proto src dst : Z) :
  is_bytes p -> 34 <= Z.of_nat (length p) ->
  exists q, put_ip p total id proto src dst = Some q /\ is_bytes q /\ length q = length p /\
    ip_header q total proto src dst /\ (forall j, 0 <= j < 14 \/ 34 <= j -> byte_at q j = byte_at p j).
Proof.
  intros Hb Hl. unfold put_ip. cbv zeta.
  set (p1 := put16 _ 20 0). set (p2 := put16 (set_byte (set_byte p1 22 64) 23 proto) 24 0).
  set (p3 := put32 (put32 p2 26 (net_htonl src)) 30 (net_htonl dst)).
  assert (L1 : length p1 = length p) by (unfold p1; by rewrite !length_put16, !length_set_byte).
  assert (L2 : length p2 = length p) by (unfold p2; by rewrite length_put16, !length_set_byte).
  assert (L3 : length p3 = length p) by (unfold p3; by rewrite !length_put32).
  assert (B1 : is_bytes p1) by (unfold p1; repeat first [apply is_bytes_put16 | apply is_bytes_set_byte]; done).
  assert (B2 : is_bytes p2) by (unfold p2; apply is_bytes_put16, is_bytes_set_byte, is_bytes_set_byte, B1).
  assert (B3 : is_bytes p3) by (unfold p3; apply is_bytes_put32, is_bytes_put32, B2).
  rewrite (net_checksum_rfc (get_bytes p3 14 20)) by
    (first [apply is_bytes_get_bytes, B3 | rewrite length_get_bytes; lia | lia]).
  set (c := rfc1071 (get_bytes p3 14 20)). exists (put16 p3 24 c).
  split; [done|]. split; [by apply is_bytes_put16|]. split; [by rewrite length_put16|].
  pose proof (htonl_range src). pose proof (htonl_range dst). pose proof (htons_range total). split.
  - constructor.
    + rewrite byte_at_put16_ne by lia. unfold p3, p2, p1. field. apply byte_at_set_eq. lia.
    + rewrite get16_put16_ne by lia. unfold p3, p2, p1. field. apply get16_put16_eq; lengths; lia.
    + rewrite get16_put16_ne by lia. unfold p3, p2. field. apply get16_put16_eq; lengths; lia.
    + rewrite byte_at_put16_ne by lia. unfold p3, p2. field. apply byte_at_set_eq; lengths; lia.
    + rewrite get32_put16_ne by lia. unfold p3. field. rewrite get32_put32_eq by (lengths; lia). by apply u32_small.
    + rewrite get32_put16_ne by lia. unfold p3. rewrite get32_put32_eq by (lengths; lia). by apply u32_small.
    + rewrite get_bytes_put16 by (lengths; lia). change (24 - 14) with 10.
      assert (E : put16 (get_bytes p3 14 20) 10 0 = get_bytes p3 14 20).
      { apply put16_zero; [by apply is_bytes_get_bytes|lia|rewrite length_get_bytes; lia|].
        unfold get16. rewrite !byte_at_get_bytes by lia. change (14 + 10) with 24. change (14 + (10 + 1)) with (24 + 1).
        unfold p3. field. unfold p2. rewrite byte_at_put16_lo, byte_at_put16_hi by (lengths; lia). done. }
      pose proof (rfc1071_verifies [] (get_bytes p3 14 20) 10 (Forall_nil_2 _)
                    (is_bytes_get_bytes _ 14 20 B3) eq_refl ltac:(lia) eq_refl ltac:(rewrite length_get_bytes; lia)) as V.
      cbn [app] in V. by rewrite E in V.
  - intros j Hj. unfold p3, p2, p1. destruct Hj; field; done.
Qed.

Lemma get16_ext (q q' : list Z) (i : Z) :
  byte_at q' i = byte_at q i -> byte_at q' (i + 1) = byte_at q (i + 1) -> get16 q' i = get16 q i.
Proof. unfold get16. congruence. Qed.

Lemma get32_bytes_ext (q q' : list Z) (i : Z) :
  (forall j, i <= j < i + 4 -> byte_at q' j = byte_at q j) -> get32 q' i = get32 q i.
Proof. intros H. unfold get32. rewrite !H by lia. done. Qed.

Lemma ip_header_ext (q q' : list Z) (total proto src dst : Z) :
  (forall j, 14 <= j < 34 -> byte_at q' j = byte_at q j) ->
  ip_header q total proto src dst -> ip_header q' total proto src dst.
Proof.
  intros E [? ? ? ? ? ? ?]. constructor.
  - by rewrite E by lia.
  - by rewrite (get16_ext q) by (apply E; lia).
  - by rewrite (get16_ext q) by (apply E; lia).
  - by rewrite E by lia.
  - by rewrite (get32_bytes_ext q) by (intros; apply E; lia).
  - by rewrite (get32_bytes_ext q) by (intros; apply E; lia).
  - by rewrite (get_bytes_eq q' q) by (intros; apply E; lia).
Qed.

(** The receiving side accepts a packet with such a header. *)
Lemma ip_header_accepted (q : list Z) (total proto src dst : Z) :
  is_bytes q -> ip_header q total proto src dst -> 20 <= total < 65536 -> 14 + total <= Z.of_nat (length q) ->
  ip_accepted q = Some true.
Proof.
  intros Hb [Hv Ht Hf _ _ _ Hs] Htot Hl. unfold ip_accepted. rewrite Hv, Ht, Hf, htons_htons by lia.
  change (Z.land 69 15 * 4) with 20. change (Z.shiftr 69 4 =? 4) with true. change (20 <? 20) with false.
  cbn [negb]. rewrite (proj2 (Z.ltb_ge _ _)), (proj2 (Z.ltb_ge _ _)), (proj2 (Z.ltb_ge _ _)) by lia. cbn [orb].
  change (negb (Z.land 0 63 =? 0)) with false. cbv iota.
  rewrite net_checksum_rfc by (first [by apply is_bytes_get_bytes | rewrite length_get_bytes; lia | lia]).
  by rewrite Hs.
Qed.

(** ** TCP segments *)

(** The segment of socket [k] at offset 34, with a checksum that verifies
    over the pseudo header of the packet's addresses *)
Record tcp_segment (q : list Z) (k : tcp_sock) (flags : Z) (data : list Z) : Prop := {
  ts_sport : get16 q 34 = net_htons (src_port k);
  ts_dport : get16 q 36 = net_htons (dst_port k);
  ts_seq : get32 q 38 = net_htonl (snd_nxt k);
  ts_ack : get32 q 42 = net_htonl (rcv_nxt k);
  ts_off : byte_at q 46 = 80;
  ts_flags : byte_at q 47 = u8 flags;
  ts_win : get16 q 48 = net_htons 1460;
  ts_data : get_bytes q 54 (Z.of_nat (length data)) = data;
  ts_sum : let n := 20 + Z.of_nat (length data) in
           rfc1071 (pseudo_header (net_htonl NET_HOST_IP) (net_htonl (dst_ip k)) n ++ get_bytes q 34 n) = 0 }.

Lemma put_tcp_bytes (p : list Z) (k : tcp_sock) (flags : Z) (data : list Z) :
  is_bytes p -> is_bytes (put_tcp p k flags data) /\ length (put_tcp p k flags data) = length p.
Proof.
  intros Hb. unfold put_tcp. split.
  - repeat first [apply is_bytes_put16 | apply is_bytes_set_byte | apply is_bytes_put32 | apply is_bytes_put_bytes]; done.
  - by rewrite !length_put16, length_put_bytes, !length_put16, !length_set_byte, !length_put32, !length_put16.
Qed.

Lemma put_tcp_below (p : list Z) (k : tcp_sock) (flags : Z) (data : list Z) (j : Z) :
  0 <= j < 34 -> byte_at (put_tcp p k flags data) j = byte_at p j.
Proof. intros Hj. unfold put_tcp. by field. Qed.

(** The fields, whatever is stored in the checksum field *)
Lemma put_tcp_fields (p : list Z) (k : tcp_sock) (flags c : Z) (data : list Z) :
  is_bytes data -> Z.of_nat (length p) = 54 + Z.of_nat (length data) ->
  let q := put16 (put_tcp p k flags data) 50 c in
  get16 q 34 = net_htons (src_port k) /\ get16 q 36 = net_htons (dst_port k) /\
  get32 q 38 = net_htonl (snd_nxt k) /\ get32 q 42 = net_htonl (rcv_nxt k) /\ byte_at q 46 = 80 /\
  byte_at q 47 = u8 flags /\ get16 q 48 = net_htons 1460 /\ get_bytes q 54 (Z.of_nat (length data)) = data.
Proof.
  intros Hd Hl q. unfold q, put_tcp. cbv zeta. clear q. rewrite put16_twice by lia.
  pose proof (htons_range (src_port k)). pose proof (htons_range (dst_port k)). pose proof (htons_range 1460).
  pose proof (htonl_range (snd_nxt k)). pose proof (htonl_range (rcv_nxt k)).
  repeat match goal with |- _ /\ _ => split end.
  - field. apply get16_put16_eq; lengths; lia.
  - field. apply get16_put16_eq; lengths; lia.
  - field. rewrite get32_put32_eq by (lengths; lia). by apply u32_small.
  - field. rewrite get32_put32_eq by (lengths; lia). by apply u32_small.
  - field. apply byte_at_set_eq; lengths; lia.
  - field. apply byte_at_set_eq; lengths; lia.
  - field. apply get16_put16_eq; lengths; lia.
  - rewrite get_bytes_put16_out by lia. apply get_put_bytes; [done|lia|lengths; lia].
Qed.

Lemma put_tcp_segment (p : list Z) (k : tcp_sock) (flags : Z) (data : list Z) :
  is_bytes p -> is_bytes data -> Z.of_nat (length p) = 54 + Z.of_nat (length data) ->
  let n := 20 + Z.of_nat (length data) in
  let pseudo := pseudo_header (net_htonl NET_HOST_IP) (net_htonl (dst_ip k)) n in
  tcp_segment (put16 (put_tcp p k flags data) 50 (rfc1071 (pseudo ++ get_bytes (put_tcp p k flags data) 34 n)))
    k flags data.
Proof.
  intros Hb Hd Hl n pseudo. destruct (put_tcp_bytes p k flags data Hb) as [Hq Hql].
  set (q := put_tcp p k flags data) in *. set (c := rfc1071 _).
  destruct (put_tcp_fields p k flags c data Hd Hl) as (? & ? & ? & ? & ? & ? & ? & ?).
  constructor; [done..|]. fold n. cbv zeta. fold pseudo.
  assert (Hqs : Z.of_nat (length q) = 54 + Z.of_nat (length data)) by (rewrite Hql; exact Hl).
  rewrite get_bytes_put16 by (unfold n; lia). change (50 - 34) with 16.
  destruct (pseudo_header_bytes (net_htonl NET_HOST_IP) (net_htonl (dst_ip k)) n) as [Hpb Hpl].
  fold pseudo in Hpb, Hpl.
  assert (E : put16 (get_bytes q 34 n) 16 0 = get_bytes q 34 n).
  { apply put16_zero; [by apply is_bytes_get_bytes|lia|rewrite length_get_bytes; unfold n; lia|].
    unfold get16. rewrite !byte_at_get_bytes by (unfold n; lia). change (34 + 16) with 50.
    change (34 + (16 + 1)) with (50 + 1). unfold q, put_tcp.
    rewrite byte_at_put16_lo, byte_at_put16_hi by (lengths; lia). done. }
  unfold c. rewrite <- E at 2.
  apply rfc1071_verifies; [done|by apply is_bytes_get_bytes|by rewrite Hpl|lia|done|].
  rewrite length_get_bytes. unfold n. lia.
Qed.

(** The whole frame *)
Lemma tcp_frame_spec (mac : list Z) (k : tcp_sock) (flags : Z) (data : list Z) :
  is_bytes mac -> length mac = 6%nat -> is_bytes data -> Z.of_nat (length data) <= 1460 ->
  exists p, tcp_frame mac k flags data = Some p /\ is_bytes p /\
    Z.of_nat (length p) = 54 + Z.of_nat (length data) /\ get_bytes p 6 6 = mac /\ get16 p 12 = net_htons ETH_IP /\
    ip_header p (40 + Z.of_nat (length data)) IP_TCP NET_HOST_IP (dst_ip k) /\ tcp_segment p k flags data.
Proof.
  intros Hm Hml Hd Hl. unfold tcp_frame. cbv zeta.
  assert (u16 (20 + Z.of_nat (length data)) = 20 + Z.of_nat (length data)) as -> by (unfold u16; apply Z.mod_small; lia).
  assert (u16 (20 + (20 + Z.of_nat (length data))) = 40 + Z.of_nat (length data)) as ->
    by (unfold u16; rewrite Z.mod_small by lia; lia).
  set (n := Z.of_nat (length data)) in *. set (z := replicate (Z.to_nat (14 + (40 + n))) 0).
  assert (Lz : Z.of_nat (length z) = 54 + n) by (unfold z; rewrite length_replicate; lia).
  set (e := put_eth z (replicate 6 255) mac ETH_IP).
  assert (Be : is_bytes e).
  { unfold e, put_eth. apply is_bytes_put16, is_bytes_put_bytes, is_bytes_put_bytes, is_bytes_zeros. }
  assert (Le : Z.of_nat (length e) = 54 + n) by (unfold e, put_eth; by rewrite length_put16, !length_put_bytes).
  destruct (put_ip_valid e (40 + n) 2 6 NET_HOST_IP (dst_ip k) Be ltac:(lia)) as (q & -> & Hq & Hql & Hih & Hout).
  destruct (put_tcp_bytes q k flags data Hq) as [Ht Htl].
  rewrite tcp_checksum_rfc by (first [by apply is_bytes_get_bytes | rewrite length_get_bytes; lia | lia]).
  set (c := rfc1071 _). set (f := put16 _ 50 c). exists f. split; [done|].
  assert (Hlow : forall j, 0 <= j < 34 -> byte_at f j = byte_at q j).
  { intros j Hj. unfold f. rewrite byte_at_put16_ne by lia. apply put_tcp_below. lia. }
  repeat match goal with |- _ /\ _ => split end.
  - unfold f. by apply is_bytes_put16.
  - unfold f. rewrite length_put16, Htl, Hql. exact Le.
  - rewrite (get_bytes_eq f e) by (intros i Hi; rewrite Hlow by lia; apply Hout; lia).
    unfold e, put_eth. rewrite get_bytes_put16_out by lia. 
    pose proof (get_put_bytes mac (put_bytes z 0 (replicate 6 255)) 6 Hm ltac:(lia)) as G.
    rewrite Hml, length_put_bytes in G. apply G. lia.
  - rewrite (get16_ext e f) by (rewrite Hlow by lia; apply Hout; lia). unfold e, put_eth.
    apply get16_put16_eq; [lia|rewrite !length_put_bytes; lia|apply htons_range].
  - apply (ip_header_ext q); [intros; apply Hlow; lia|exact Hih].
  - apply put_tcp_segment; [done|done|rewrite Hql; exact Le].
Qed.
