(* ===== verification/NetInv.v ===== *)
(** * The socket table over all sequences of calls

    The calls into the stack as one type, the relation of one call, and the
    invariant of the socket table: field widths, the receive buffer within
    its bounds, and the states a socket can be in.  Preservation is proved
    once per primitive and composed. *)
From S2P Require Import Prelude Bytes NetBase Tcp NetStack NetSum NetFrames.
Import Net Tcp NetStack.
#[local] Open Scope net_scope.

(** ** Invariant *)

(** A 32-bit and a 16-bit field *)
Definition word (x : Z) : Prop := 0 <= x < 4294967296.

Definition half (x : Z) : Prop := 0 <= x < 65536.

(** The states that the code assigns *)
Definition live_states : list Z := [TCP_CLOSED; TCP_SYN_SENT; TCP_ESTABLISHED; TCP_FIN_WAIT_1; TCP_CLOSE_WAIT].

Record sock_ok (k : tcp_sock) : Prop := {
  so_state : state k ∈ live_states;
  so_dst : word (dst_ip k);
  so_dport : half (dst_port k);
  so_sport : half (src_port k);
  so_snd : word (snd_nxt k);
  so_rcv : word (rcv_nxt k);
  so_una : word (snd_una k);
  so_win : half (peer_window k);
  so_buf : is_bytes (rcv_buf k) /\ Z.of_nat (length (rcv_buf k)) = RCV_BUF;
  so_len : 0 <= rcv_len k <= RCV_BUF;
  so_isn : word (isn k) }.

Record net_ok {W} (s : net W) : Prop := {
  no_count : Z.of_nat (length (sockets s)) = TCP_MAX_SOCKS;
  no_socks : Forall sock_ok (sockets s);
  no_port : half (next_ephemeral s) }.

Lemma zero_sock_ok : sock_ok zero_sock.
Proof.
  constructor; cbn [zero_sock state dst_ip dst_port src_port snd_nxt rcv_nxt snd_una peer_window rcv_buf rcv_len isn];
    unfold word, half, RCV_BUF; try lia.
  - unfold live_states. set_solver.
  - split; [apply is_bytes_zeros|]. by rewrite length_replicate.
Qed.

Lemma zero_socks_ok : Forall sock_ok (replicate (Z.to_nat TCP_MAX_SOCKS) zero_sock).
Proof. apply Forall_replicate, zero_sock_ok. Qed.

Lemma sock_ok_at {W} (s : net W) (i : Z) : net_ok s -> sock_ok (sock s i).
Proof.
  intros [_ H _]. unfold sock. destruct (sockets s !! Z.to_nat i) as [k|] eqn:E; [|apply zero_sock_ok].
  exact (proj1 (Forall_lookup _ _) H _ _ E).
Qed.

(** ** Computations that keep the invariant *)

Section keeps.
Context {W : Type}.

Definition keeps {A} (m : M W A) : Prop := forall s x s', net_ok s -> m s = Some (x, s') -> net_ok s'.

Lemma keeps_ret {A} (x : A) : keeps (ret x).
Proof. intros s y s' H [= _ <-]. done. Qed.

Lemma keeps_bind {A B} (m : M W A) (f : A -> M W B) : keeps m -> (forall x, keeps (f x)) -> keeps (bind m f).
Proof.
  intros Hm Hf s y s' H. unfold bind. destruct (m s) as [[x t]|] eqn:E; [|done]. intros E'.
  exact (Hf x t y s' (Hm s x t H E) E').
Qed.

Lemma keeps_get {B} (f : net W -> M W B) : (forall s, net_ok s -> keeps (f s)) -> keeps (bind get f).
Proof. intros Hf s y s' H E. exact (Hf s H s y s' H E). Qed.

Lemma keeps_lift {A} (o : option A) : keeps (lift o).
Proof. intros s x s' H. unfold lift. destruct o; [|done]. intros [= _ <-]. done. Qed.

Lemma keeps_no_fuel {A} : keeps (@no_fuel W A).
Proof. intros s x s' _ E. discriminate. Qed.

(** A change of anything but the socket table and the port counter *)
Lemma keeps_modify (f : net W -> net W) :
  (forall s, sockets (f s) = sockets s /\ next_ephemeral (f s) = next_ephemeral s) -> keeps (modify f).
Proof.
  intros Hf s x s' [H1 H2 H3] [= _ <-]. destruct (Hf s) as [E1 E2]. constructor; rewrite ?E1, ?E2; done.
Qed.

Lemma keeps_call {A} (f : W -> A * W) : keeps (call f).
Proof.
  intros s x s' [H1 H2 H3]. unfold call. destruct (f (world s)) as [y w]. intros [= _ <-]. by constructor.
Qed.

Lemma keeps_upd (i : Z) (f : tcp_sock -> tcp_sock) :
  (forall k, sock_ok k -> sock_ok (f k)) -> keeps (upd i f).
Proof.
  intros Hf s x s' Hs [= _ <-]. pose proof (sock_ok_at s i Hs) as Hk. destruct Hs as [H1 H2 H3].
  constructor; cbn [with_socks sockets next_ephemeral].
  - by rewrite length_insert.
  - apply Forall_insert; [done|]. by apply Hf.
  - done.
Qed.

Lemma keeps_if {A} (b : bool) (m n : M W A) : keeps m -> keeps n -> keeps (if b then m else n).
Proof. by destruct b. Qed.

End keeps.

(** ** Updates of one socket *)

Lemma set_state_ok (k : tcp_sock) (v : Z) : v ∈ live_states -> sock_ok k -> sock_ok (set_state k v).
Proof. intros Hv []. by constructor. Qed.

Lemma set_used_ok (k : tcp_sock) (v : bool) : sock_ok k -> sock_ok (set_used k v).
Proof. intros []. by constructor. Qed.

Lemma set_snd_nxt_ok (k : tcp_sock) (v : Z) : word v -> sock_ok k -> sock_ok (set_snd_nxt k v).
Proof. intros Hv []. by constructor. Qed.

Lemma set_rcv_nxt_ok (k : tcp_sock) (v : Z) : word v -> sock_ok k -> sock_ok (set_rcv_nxt k v).
Proof. intros Hv []. by constructor. Qed.

Lemma set_ack_ok (k : tcp_sock) (a w : Z) : word a -> half w -> sock_ok k -> sock_ok (set_ack k a w).
Proof. intros Ha Hw []. by constructor. Qed.

Lemma set_rcv_ok (k : tcp_sock) (buf : list Z) (len : Z) :
  is_bytes buf -> Z.of_nat (length buf) = RCV_BUF -> 0 <= len <= RCV_BUF -> sock_ok k -> sock_ok (set_rcv k buf len).
Proof. intros ? ? ? []. by constructor. Qed.

Lemma word_u32 (x : Z) : word (u32 x).
Proof. apply u32_range. Qed.

Lemma word_htonl (x : Z) : word (net_htonl x).
Proof. apply htonl_range. Qed.

Lemma half_htons (x : Z) : half (net_htons x).
Proof. apply htons_range. Qed.

Lemma half_u16 (x : Z) : half (u16 x).
Proof. unfold half, u16. apply Z.mod_pos_bound. lia. Qed.

Create HintDb netdb.
#[export] Hint Resolve zero_sock_ok set_used_ok set_snd_nxt_ok set_rcv_nxt_ok set_ack_ok word_u32 word_htonl
  half_htons half_u16 so_una so_snd : netdb.

(** One step through a computation *)
Ltac keep :=
  repeat match goal with
    | |- forall _, _ => intro
    | |- keeps (ret _) => apply keeps_ret
    | |- keeps (call _) => apply keeps_call
    | |- keeps (lift _) => apply keeps_lift
    | |- keeps (bind get _) => apply keeps_get
    | |- keeps (bind _ _) => apply keeps_bind
    | |- keeps (if _ then _ else _) => apply keeps_if
    | |- keeps (upd _ _) => apply keeps_upd
    | |- keeps (modify _) => apply keeps_modify; intros; split; reflexivity
    | |- keeps (match ?o with Some _ => _ | None => _ end) => destruct o
    | |- keeps (let _ := _ in _) => cbv zeta
    | H : forall _, _ |- keeps _ => solve [apply H]
    | H : keeps ?m |- keeps ?m => exact H
    | |- sock_ok _ => solve [auto with netdb]
    end.

#[export] Hint Extern 1 (_ ∈ live_states) => (unfold live_states; set_solver) : netdb.
#[export] Hint Resolve set_state_ok : netdb.

(** FIN_WAIT_2 is never assigned. *)
Lemma not_fin_wait_2 (k : tcp_sock) : sock_ok k -> (state k =? TCP_FIN_WAIT_2) = false.
Proof.
  intros [H _ _ _ _ _ _ _ _ _ _]. apply Z.eqb_neq. intros E. rewrite E in H. unfold live_states in H.
  by apply (bool_decide_eq_true_2 _) in H.
Qed.

Lemma receive_ok (k : tcp_sock) (data : list Z) (n : Z) :
  0 < n -> sock_ok k ->
  sock_ok (set_rcv k (put_bytes (rcv_buf k) 0 (take (Z.to_nat (if RCV_BUF <? n then RCV_BUF else n)) data))
             (if RCV_BUF <? n then RCV_BUF else n)).
Proof.
  intros Hn Hk. destruct (so_buf k Hk) as [Hb Hl]. apply set_rcv_ok; [..|exact Hk].
  - by apply is_bytes_put_bytes.
  - by rewrite length_put_bytes.
  - unfold RCV_BUF in *. destruct (Z.ltb_spec 1460 n); lia.
Qed.

Lemma take_received_ok (n : Z) (k : tcp_sock) : 0 <= n -> sock_ok k -> sock_ok (take_received n k).2.
Proof.
  intros Hn Hk. destruct (so_buf k Hk) as [Hb Hl]. pose proof (so_len k Hk). unfold take_received. cbn [snd].
  apply set_rcv_ok; [..|exact Hk].
  - destruct (_ <? rcv_len k); [|done]. by apply is_bytes_put_bytes.
  - destruct (_ <? rcv_len k); [|done]. by rewrite length_put_bytes.
  - destruct (Z.ltb_spec (rcv_len k) n); lia.
Qed.

Section ops.
Context {W : Type} `{Nic W}.

Lemma keeps_send (resolve : Z -> M W (Z * list Z)) (i flags : Z) (data : list Z) :
  (forall ip, keeps (resolve ip)) -> keeps (send_tcp_segment resolve i flags data).
Proof. intros Hr. unfold send_tcp_segment. keep. Qed.

Lemma keeps_handle_fin (resolve : Z -> M W (Z * list Z)) (i seq : Z) :
  (forall ip, keeps (resolve ip)) -> keeps (handle_fin resolve i seq).
Proof.
  intros Hr. pose proof (fun f d => keeps_send resolve i f d Hr) as Hs. unfold handle_fin.
  apply keeps_bind; [keep|intros _]. apply keeps_bind; [done|intros _]. apply keeps_get. intros s Hok.
  rewrite not_fin_wait_2 by (by apply sock_ok_at). keep.
Qed.

Lemma keeps_handle_data (resolve : Z -> M W (Z * list Z)) (i seq flags n : Z) (data : list Z) :
  (forall ip, keeps (resolve ip)) -> keeps (handle_data resolve i seq flags n data).
Proof.
  intros Hr. pose proof (fun f d => keeps_send resolve i f d Hr) as Hs. unfold handle_data.
  apply keeps_if; [|keep]. apply keeps_get. intros s Hok.
  destruct (Z.ltb_spec 0 n) as [Hn|Hn]; [|apply keeps_ret]. cbn [andb]. apply keeps_if; [|keep]. cbv zeta.
  apply keeps_bind; [|keep]. apply keeps_upd. intros k Hk. by apply receive_ok.
Qed.

Lemma keeps_handle_packet (resolve : Z -> M W (Z * list Z)) (pkt : list Z) :
  (forall ip, keeps (resolve ip)) -> keeps (tcp_handle_packet resolve pkt).
Proof.
  intros Hr. pose proof (fun i f d => keeps_send resolve i f d Hr) as Hs.
  pose proof (fun i q => keeps_handle_fin resolve i q Hr) as Hf.
  pose proof (fun i q f n d => keeps_handle_data resolve i q f n d Hr) as Hd.
  unfold tcp_handle_packet. keep.
Qed.

Lemma keeps_parse (resolve : Z -> M W (Z * list Z)) (pkt : list Z) :
  (forall ip, keeps (resolve ip)) -> keeps (net_parse_packet resolve pkt).
Proof.
  intros Hr. pose proof (fun p => keeps_handle_packet resolve p Hr) as Ht.
  unfold net_parse_packet, handle_arp, handle_icmp. keep.
Qed.

Lemma keeps_arp_poll (fuel : nat) (start ip : Z) : keeps (arp_poll fuel start ip).
Proof.
  revert start ip. induction fuel as [|fuel IH]; intros start ip; cbn [arp_poll]; [apply keeps_no_fuel|].
  assert (Hp : forall pkt, keeps (net_parse_packet (arp_resolve (arp_poll fuel)) pkt)).
  { intros pkt. apply keeps_parse. intros ip'. unfold arp_resolve, send_arp_request. keep. }
  keep.
Qed.

Lemma keeps_resolve (fuel : nat) (ip : Z) : keeps (net_arp_resolve fuel ip).
Proof.
  pose proof (keeps_arp_poll fuel) as Hp. unfold net_arp_resolve, arp_resolve, send_arp_request. keep.
Qed.

Lemma keeps_receive (fuel : nat) : keeps (tcp_receive fuel).
Proof.
  pose proof (fun p => keeps_handle_packet (net_arp_resolve fuel) p (keeps_resolve fuel)) as Hp.
  unfold tcp_receive. keep.
Qed.

Lemma keeps_tcp_poll (fuel : nat) (start timeout : Z) (done : net W -> option Z) :
  keeps (tcp_poll fuel start timeout done).
Proof.
  induction fuel as [|fuel IH]; cbn [tcp_poll]; [apply keeps_no_fuel|].
  pose proof (keeps_receive fuel) as Hp. keep.
Qed.

Lemma keeps_recv_poll (fuel : nat) (i n start timeout : Z) : 0 <= n -> keeps (recv_poll fuel i n start timeout).
Proof.
  intros Hn. induction fuel as [|fuel IH]; cbn [recv_poll]; [apply keeps_no_fuel|].
  pose proof (keeps_receive fuel) as Hp. pose proof (fun k => take_received_ok n k Hn) as Ht. keep.
Qed.

Lemma keeps_ping_poll (fuel : nat) (start timeout : Z) : keeps (ping_poll fuel start timeout).
Proof.
  induction fuel as [|fuel IH]; cbn [ping_poll]; [apply keeps_no_fuel|].
  pose proof (fun p => keeps_parse (net_arp_resolve fuel) p (keeps_resolve fuel)) as Hp. keep.
Qed.

End ops.

(** ** Calls *)

(** The functions the stack exports *)
Inductive net_call :=
  | CResolve (ip : Z)
  | CPing (ip timeout : Z)
  | CParse (pkt : list Z)
  | CTcpInit
  | CConnect (ip port timeout : Z)
  | CSend (i : Z) (data : list Z) (timeout : Z)
  | CRecv (i max_len timeout : Z)
  | CClose (i : Z).

(** Arguments of the C types, and a socket index in range *)
Definition call_ok (c : net_call) : Prop :=
  match c with
  | CTcpInit | CParse _ => True
  | CResolve ip | CPing ip _ => word ip
  | CConnect ip port _ => word ip /\ half port
  | CSend i _ _ | CClose i => 0 <= i < TCP_MAX_SOCKS
  | CRecv i n _ => 0 <= i < TCP_MAX_SOCKS /\ half n
  end.

Section calls.
Context {W : Type} `{Nic W}.

Definition drop_result {A} (m : M W A) : M W unit := m ;;; ret tt.

Definition net_exec (fuel : nat) (c : net_call) : M W unit :=
  match c with
  | CResolve ip => drop_result (net_arp_resolve fuel ip)
  | CPing ip t => drop_result (net_ping fuel ip t)
  | CParse pkt => drop_result (net_parse_packet (net_arp_resolve fuel) pkt)
  | CTcpInit => drop_result tcp_init
  | CConnect ip port t => drop_result (tcp_connect fuel ip port t)
  | CSend i data t => drop_result (tcp_send fuel i data t)
  | CRecv i n t => drop_result (tcp_recv fuel i n t)
  | CClose i => drop_result (tcp_close fuel i)
  end.

(** The static variables before the first call *)
Definition net_boot (w : W) : net W :=
  mkNet (replicate 6 0) 0 (replicate 6 0) false false 0 0 (replicate (Z.to_nat TCP_MAX_SOCKS) zero_sock) 40000 w.

(** One call that returns, or the initialisation *)
Inductive net_step `{NicSetup W} : net W -> net W -> Prop :=
  | net_step_call fuel c s s' : call_ok c -> net_exec fuel c s = Some (tt, s') -> net_step s s'
  | net_step_init r s s' : net_init s = Some (r, s') -> net_step s s'.

Lemma keeps_connect (fuel : nat) (ip port t : Z) : word ip -> half port -> keeps (tcp_connect fuel ip port t).
Proof.
  intros Hip Hport. pose proof (fun i f d => keeps_send (net_arp_resolve fuel) i f d (keeps_resolve fuel)) as Hs.
  pose proof (keeps_tcp_poll fuel) as Hp. unfold tcp_connect, tcp_poll_until. apply keeps_get. intros s [_ _ Hs1].
  destruct (find_up _ _ _) as [i|]; [|apply keeps_ret]. apply keeps_bind; [apply keeps_call|intros now]. cbv zeta.
  apply keeps_bind.
  { apply keeps_upd. intros k _.
    assert (Hb : is_bytes (replicate (Z.to_nat RCV_BUF) 0)) by apply is_bytes_zeros.
    constructor; cbn [state dst_ip dst_port src_port snd_nxt rcv_nxt snd_una peer_window rcv_buf rcv_len isn];
      auto with netdb; try (unfold word, half, RCV_BUF; lia). }
  intros _. apply keeps_bind; [|keep].
  intros t0 x s' [H1 H2 H3] [= _ <-]. constructor; [done|done|]. apply half_u16.
Qed.

Lemma keeps_exec (fuel : nat) (c : net_call) : call_ok c -> keeps (net_exec fuel c).
Proof.
  pose proof (fun i f d => keeps_send (net_arp_resolve fuel) i f d (keeps_resolve fuel)) as Hs.
  pose proof (keeps_tcp_poll fuel) as Hp. pose proof (keeps_resolve fuel) as Hr. pose proof (keeps_ping_poll fuel) as Hg.
  destruct c; cbn [call_ok net_exec]; intros Hc; unfold drop_result; (apply keeps_bind; [|keep]).
  - apply Hr.
  - unfold net_ping, send_icmp_echo. keep.
  - apply keeps_parse, Hr.
  - unfold tcp_init. apply keeps_bind; [|keep]. intros s x s' [H1 H2 H3] [= _ <-].
    constructor; cbn [with_socks sockets next_ephemeral]; [done|exact zero_socks_ok|done].
  - destruct Hc. by apply keeps_connect.
  - unfold tcp_send. keep.
  - destruct Hc as [_ Hn]. assert (Hq : forall st tm, keeps (recv_poll fuel i max_len st tm))
      by (intros; apply keeps_recv_poll, Hn). unfold tcp_recv. keep.
  - unfold tcp_close. keep.
Qed.

Lemma net_boot_ok (w : W) : net_ok (net_boot w).
Proof.
  constructor; cbn [net_boot sockets next_ephemeral]; [done|exact zero_socks_ok|unfold half; lia].
Qed.

Lemma keeps_init `{NicSetup W} : keeps net_init.
Proof. unfold net_init. keep. Qed.

Lemma net_steps_ok `{NicSetup W} (s s' : net W) : net_ok s -> rtc net_step s s' -> net_ok s'.
Proof.
  intros Hs H1. revert Hs. apply (rtc_invariant net_step net_ok s s'); [|done].
  intros a b Ha Hab. destruct Hab as [fuel c a b Hc E|r a b E];
    [exact (keeps_exec fuel c Hc a tt b Ha E)|exact (keeps_init a r b Ha E)].
Qed.

End calls.
