(* ===== verification/NetTerm.v ===== *)
(** * Every call into the stack returns

    The polling loops stop when the clock says so, and while they poll they
    dispatch what arrives, which may start further polls.  Against a card
    that has finitely many frames to deliver and a clock that advances, the
    fuel needed is bounded and every call has a result.  Any call of the
    driver or of the timer may take time: the task may be preempted, and the
    driver polls its card. *)
From S2P Require Import Prelude Bytes NetBase Tcp NetStack NetSum NetFrames NetInv.
Import Net Tcp NetStack.
#[local] Open Scope net_scope.

(** ** The environment

    [time] counts the ticks since the machine started; [get_ticks] reads the
    low 32 bits of its value at some moment of the call.  Reading the counter,
    sending or receiving a frame takes at most [delay] ticks, and the counter
    moves at least once in every [patience + 1] readings.  A delivered frame
    is gone. *)
Class FairNic (W : Type) `{Nic W} := {
  time : W -> Z;
  delay : Z;
  patience : Z;
  rank : W -> Z;
  frames : W -> Z;
  fair_rank : forall w, 0 <= rank w <= patience;
  fair_frames : forall w, 0 <= frames w;
  fair_ticks : forall w, exists t w', get_ticks w = (u32 t, w') /\ frames w' = frames w /\
    time w <= t <= time w' /\ time w' <= time w + delay /\ (time w < time w' \/ rank w' < rank w);
  fair_recv : forall w, exists r w', rtl8139_recv w = (r, w') /\
    time w <= time w' <= time w + delay /\ (time w < time w' \/ rank w' <= rank w) /\
    match r with Some _ => frames w' = frames w - 1 | None => frames w' = frames w end;
  fair_send : forall p w, exists r w', rtl8139_send p w = (r, w') /\
    time w <= time w' <= time w + delay /\ (time w < time w' \/ rank w' <= rank w) /\
    frames w' = frames w }.

(** The ticks that a resolution, a segment and the handling of a frame take
    at most: 50 ticks of polling, and the delays of the calls around it *)
Definition resolve_ticks `{FairNic W} : Z := 50 + 5 * delay.
Definition segment_ticks `{FairNic W} : Z := resolve_ticks + delay.
Definition frame_ticks `{FairNic W} : Z := 2 * segment_ticks.

(** ** The frames are built without running out of fuel *)

Lemma sum_words_word (l : list Z) (n s : Z) : word s -> word (sum_words l n s).
Proof.
  intros Hs. unfold sum_words. generalize (Z.to_nat n) as m, 0 as i. intros m. revert s Hs.
  induction m as [|m IH]; intros s Hs i; cbn [for_up]; [done|]. apply IH, word_u32.
Qed.

Lemma fold_carry_total (s : Z) : word s -> exists c, fold_carry 2 s = Some c.
Proof. intros Hs. eexists. by apply fold_carry_ones16. Qed.

Lemma net_checksum_total (l : list Z) (n : Z) : exists c, net_checksum l n = Some c.
Proof.
  unfold net_checksum. match goal with |- context [fold_carry 2 ?s] => assert (Hs : word s) end.
  { destruct (Z.land n 1 =? 0); [|apply word_u32]. apply sum_words_word. unfold word. lia. }
  destruct (fold_carry_total _ Hs) as [c ->]. by eexists.
Qed.

Lemma tcp_checksum_total (a b : Z) (l : list Z) (n : Z) : exists c, tcp_checksum a b l n = Some c.
Proof.
  unfold tcp_checksum. match goal with |- context [fold_carry 2 ?s] => assert (Hs : word s) end.
  { destruct (n mod 2 =? 0); [|apply word_u32]. do 2 apply sum_words_word. unfold word. lia. }
  destruct (fold_carry_total _ Hs) as [c ->]. by eexists.
Qed.

Lemma tcp_frame_total (mac : list Z) (k : tcp_sock) (flags : Z) (data : list Z) :
  exists p, tcp_frame mac k flags data = Some p.
Proof.
  unfold tcp_frame, put_ip. cbv zeta.
  match goal with |- context [net_checksum ?l ?n] => destruct (net_checksum_total l n) as [c ->] end.
  match goal with |- context [tcp_checksum ?a ?b ?l ?n] => destruct (tcp_checksum_total a b l n) as [d ->] end.
  by eexists.
Qed.

Lemma icmp_echo_total (dst src : list Z) (ip id seq : Z) : exists p, icmp_echo dst src ip id seq = Some p.
Proof.
  unfold icmp_echo, put_ip. cbv zeta.
  match goal with |- context [net_checksum ?l 20] => destruct (net_checksum_total l 20) as [c ->] end.
  match goal with |- context [net_checksum ?l 64] => destruct (net_checksum_total l 64) as [d ->] end.
  by eexists.
Qed.

Lemma ip_accepted_total (pkt : list Z) : exists b, ip_accepted pkt = Some b.
Proof.
  unfold ip_accepted. repeat match goal with |- context [if ?b then Some false else _] => destruct b; [by eexists|] end.
  match goal with |- context [net_checksum ?l ?n] => destruct (net_checksum_total l n) as [c ->] end. by eexists.
Qed.

Lemma check_icmp_total (pkt : list Z) (off n : Z) : exists b, check_icmp_checksum pkt off n = Some b.
Proof.
  unfold check_icmp_checksum.
  match goal with |- context [net_checksum ?l ?n] => destruct (net_checksum_total l n) as [c ->] end. by eexists.
Qed.

(** ** Computations that return within a number of ticks *)

Section within.
Context {W : Type} `{FairNic W}.

(** Nothing arrives from nowhere and the clock does not go back. *)
Definition later (w w' : W) : Prop :=
  frames w' <= frames w /\ (time w < time w' \/ time w' = time w /\ rank w' <= rank w).

#[global] Instance later_preorder : PreOrder later.
Proof. split; [intros w|intros a b c]; unfold later; lia. Qed.

Lemma delay_pos (w : W) : 0 <= delay.
Proof. destruct (fair_ticks w) as (t & w' & ? & ? & ?). lia. Qed.

Lemma frame_ticks_pos (w : W) : 0 <= frame_ticks.
Proof. pose proof (delay_pos w). unfold frame_ticks, segment_ticks, resolve_ticks. lia. Qed.

(** [m] returns, [c] ticks later at most, and [frame_ticks] more for each
    frame that it takes from the card *)
Definition within {A} (c : Z) (m : M W A) (s : net W) : Prop :=
  exists x s', m s = Some (x, s') /\ later (world s) (world s') /\
    time (world s') - time (world s) <= c + frame_ticks * (frames (world s) - frames (world s')).

Lemma within_weaken {A} (c c' : Z) (m : M W A) (s : net W) : c <= c' -> within c m s -> within c' m s.
Proof. intros Hc (x & s' & E & L & T). exists x, s'. repeat (split; [done|]). lia. Qed.

Lemma within_ret {A} (x : A) (s : net W) : within 0 (ret x) s.
Proof. exists x, s. split; [done|]. split; [done|]. lia. Qed.

Lemma within_bind {A B} (c1 c2 : Z) (m : M W A) (f : A -> M W B) (s : net W) :
  within c1 m s -> (forall x s', later (world s) (world s') -> within c2 (f x) s') -> within (c1 + c2) (bind m f) s.
Proof.
  intros (x & t & E & L & T) Hf. destruct (Hf x t L) as (y & u & E' & L' & T'). exists y, u.
  unfold bind. rewrite E. split; [done|]. split; [by etransitivity|]. rewrite Z.mul_sub_distr_l in *. lia.
Qed.

Lemma within_get {B} (c : Z) (f : net W -> M W B) (s : net W) : within c (f s) s -> within c (bind get f) s.
Proof. done. Qed.

Lemma within_modify (f : net W -> net W) (s : net W) : world (f s) = world s -> within 0 (modify f) s.
Proof. intros E. exists tt, (f s). rewrite E. split; [done|]. split; [done|]. lia. Qed.

Lemma within_lift {A} (o : option A) (s : net W) : (exists x, o = Some x) -> within 0 (lift o) s.
Proof. intros [x ->]. apply within_ret. Qed.

Lemma within_ticks (s : net W) : within delay (call get_ticks) s.
Proof.
  destruct (fair_ticks (world s)) as (t & w & E & F & T). unfold within, call. rewrite E. do 2 eexists.
  split; [done|]. cbn [world]. unfold later. rewrite F. lia.
Qed.

Lemma within_send (p : list Z) (s : net W) : within delay (call (rtl8139_send p)) s.
Proof.
  destruct (fair_send p (world s)) as (r & w & E & T & R & F). unfold within, call. rewrite E. do 2 eexists.
  split; [done|]. cbn [world]. unfold later. rewrite F. lia.
Qed.

Lemma within_if {A} (c : Z) (b : bool) (m n : M W A) (s : net W) :
  within c m s -> within c n s -> within c (if b then m else n) s.
Proof. by destruct b. Qed.

End within.

(** ** The handlers *)

Section handlers.
Context {W : Type} `{FairNic W}.

Lemma within_then {A B} (c : Z) (m : M W A) (f : A -> M W B) (s : net W) :
  within 0 m s -> (forall x s', later (world s) (world s') -> within c (f x) s') -> within c (bind m f) s.
Proof. intros Hm Hf. apply (within_weaken (0 + c)); [lia|]. by apply within_bind. Qed.

Lemma within_ret_any {A} (c : Z) (x : A) (s : net W) : 0 <= c -> within c (ret x) s.
Proof. intros. apply (within_weaken 0); [done|]. apply within_ret. Qed.

Lemma within_upd (i : Z) (f : tcp_sock -> tcp_sock) (s : net W) : within 0 (upd i f) s.
Proof. by apply within_modify. Qed.

Lemma within_ret_ticks {A} (c : Z) (x : A) (s : net W) :
  c = resolve_ticks \/ c = segment_ticks \/ c = frame_ticks \/ c = delay -> within c (ret x) s.
Proof.
  intros Hc. apply within_ret_any. pose proof (delay_pos (world s)). unfold frame_ticks, segment_ticks, resolve_ticks in *. lia.
Qed.

Section with_resolve.
Variable resolve : Z -> M W (Z * list Z).
Variable f : Z.
Hypothesis Hres : forall ip s, frames (world s) <= f -> within resolve_ticks (resolve ip) s.

#[local] Ltac idle := by apply within_ret_ticks; auto.

Lemma within_segment (i flags : Z) (data : list Z) (s : net W) :
  frames (world s) <= f -> within segment_ticks (send_tcp_segment resolve i flags data) s.
Proof.
  intros Hf. unfold send_tcp_segment. apply within_get, within_then; [apply within_lift, tcp_frame_total|].
  intros p s1 L1. apply within_bind; [apply Hres; unfold later in *; lia|].
  intros a s2 _. apply within_if; [idle|apply within_send].
Qed.

Lemma within_segment_then {B} (c : Z) (i flags : Z) (data : list Z) (k : Z -> M W B) (s : net W) :
  frames (world s) <= f -> (forall x s', frames (world s') <= f -> within c (k x) s') ->
  within (segment_ticks + c) (bind (send_tcp_segment resolve i flags data) k) s.
Proof.
  intros Hf Hk. apply within_bind; [by apply within_segment|]. intros x s' L. apply Hk. unfold later in L. lia.
Qed.

(** Two segments at most *)
Lemma within_two_segments {B} (i flags : Z) (data : list Z) (k : Z -> M W B) (s : net W) :
  frames (world s) <= f -> (forall x s', frames (world s') <= f -> within segment_ticks (k x) s') ->
  within frame_ticks (bind (send_tcp_segment resolve i flags data) k) s.
Proof.
  intros Hf Hk. apply (within_weaken (segment_ticks + segment_ticks)); [unfold frame_ticks; lia|].
  by apply within_segment_then.
Qed.

Lemma within_free {A} (m : M W A) (s : net W) : within 0 m s -> within frame_ticks m s /\ within segment_ticks m s.
Proof.
  intros Hm. pose proof (delay_pos (world s)).
  split; (eapply within_weaken; [|exact Hm]); unfold frame_ticks, segment_ticks, resolve_ticks; lia.
Qed.

Lemma within_handle_fin (i seq : Z) (s : net W) : frames (world s) <= f -> within frame_ticks (handle_fin resolve i seq) s.
Proof.
  intros Hf. unfold handle_fin. apply within_then; [apply within_upd|]. intros _ s1 [L1 _].
  apply within_two_segments; [lia|]. intros _ s2 F2. apply within_get, within_if.
  - apply within_then; [apply within_upd|]. intros _ s3 [L3 _]. apply (within_weaken (segment_ticks + 0)); [lia|].
    apply within_segment_then; [lia|]. intros. apply within_ret.
  - apply within_free, within_upd.
Qed.

Lemma within_handle_data (i seq flags n : Z) (data : list Z) (s : net W) :
  frames (world s) <= f -> within frame_ticks (handle_data resolve i seq flags n data) s.
Proof.
  intros Hf. unfold handle_data. apply within_if; [|idle]. apply within_get, within_if; [|idle].
  cbv zeta. apply within_then; [apply within_upd|]. intros _ s1 [L1 _].
  apply within_then; [apply within_upd|]. intros _ s2 [L2 _].
  apply within_two_segments; [lia|]. intros. idle.
Qed.

Lemma within_tcp_handle (pkt : list Z) (s : net W) :
  frames (world s) <= f -> within frame_ticks (tcp_handle_packet resolve pkt) s.
Proof.
  intros Hf. unfold tcp_handle_packet. cbv zeta. do 3 (apply within_if; [idle|]). apply within_get.
  destruct (find_sock_by_port s _) as [i|]; [|idle]. apply within_if; [idle|].
  apply within_if; [apply within_free, within_upd|]. apply within_if.
  - apply within_if; [|idle]. apply within_if; [idle|].
    apply within_then; [apply within_upd|]. intros _ s1 [L1 _].
    apply within_two_segments; [lia|]. intros. idle.
  - apply within_then; [apply within_if; [apply within_upd|apply within_ret]|]. intros _ s1 [L1 _].
    apply within_if; [apply within_handle_fin|apply within_handle_data]; lia.
Qed.

(** ARP: at most a reply *)
Lemma within_handle_arp (pkt : list Z) (s : net W) : within frame_ticks (handle_arp pkt) s.
Proof.
  unfold handle_arp. cbv zeta. apply within_then; [apply within_if; [by apply within_modify|apply within_ret]|].
  intros _ s1 _. apply within_if; [|idle]. apply within_get, (within_weaken (delay + 0)).
  { pose proof (delay_pos (world s1)). unfold frame_ticks, segment_ticks, resolve_ticks. lia. }
  apply within_bind; [apply within_send|]. intros. apply within_ret.
Qed.

Lemma within_parse (pkt : list Z) (s : net W) :
  frames (world s) <= f -> within frame_ticks (net_parse_packet resolve pkt) s.
Proof.
  intros Hf. unfold net_parse_packet. cbv zeta. apply within_if; [idle|]. apply within_if.
  - apply (within_weaken (frame_ticks + 0)); [lia|]. apply within_bind; [|intros; apply within_ret].
    apply within_if; [apply within_handle_arp|idle].
  - apply within_if; [|idle]. apply within_if; [|idle].
    apply within_then; [apply within_lift, ip_accepted_total|]. intros ok s1 [L1 _].
    apply within_if; [idle|]. apply within_then.
    + apply within_if; [|apply within_ret]. unfold handle_icmp. cbv zeta. do 2 (apply within_if; [apply within_ret|]).
      apply within_then; [apply within_lift, check_icmp_total|]. intros b s2 _.
      apply within_if; [apply within_ret|]. apply within_if; [by apply within_modify|apply within_ret].
    + intros _ s2 [L2 _]. apply (within_weaken (frame_ticks + 0)); [lia|]. apply within_bind; [|intros; apply within_ret].
      apply within_if; [apply within_tcp_handle; lia|idle].
Qed.

End with_resolve.
End handlers.

(** ** The polling loops *)

Section loop.
Context {W : Type} `{FairNic W} {A : Type}.

(** One iteration: it looks for a frame, and what it does with the frame is
    paid by the frame; an iteration that ends the loop may read the clock
    once more. *)
Definition stepped (m : M W (option A)) (s : net W) : Prop :=
  exists x s', m s = Some (x, s') /\ later (world s) (world s') /\
    time (world s') - time (world s) <=
      delay + (match x with Some _ => delay | None => 0 end) + frame_ticks * (frames (world s) - frames (world s')).

Variable poll : nat -> M W A.
Variable step : nat -> M W (option A).
Variable last : A.
Variables (timeout t0 f : Z).
Variable enough : nat.
Hypothesis poll_eq : forall n s, poll (S n) s =
  (now <- call get_ticks ;;
   if u32 (now - u32 t0) <? timeout then x <- step n ;; match x with Some r => ret r | None => poll n end
   else ret last) s.
Hypothesis step_ok : forall n s, (enough <= n)%nat -> frames (world s) <= f -> stepped (step n) s.
Hypothesis no_wrap : 0 <= timeout /\ timeout + 3 * delay + frame_ticks * f < 4294967296.

Lemma clock_diff (t : Z) : 0 <= t - t0 < 4294967296 -> u32 (u32 t - u32 t0) = t - t0.
Proof. intros. unfold u32. rewrite <- Zminus_mod. by apply Z.mod_small. Qed.

(** The loop ends at the first reading that finds the time over. *)
Lemma poll_returns (n : nat) (s : net W) :
  let t := time (world s) in
  t0 <= t -> frames (world s) <= f -> t - t0 + frame_ticks * frames (world s) <= timeout + 2 * delay + frame_ticks * f ->
  Z.max 0 (t0 + timeout - t) * (patience + 1) + rank (world s) + 1 + Z.of_nat enough <= Z.of_nat n ->
  within (Z.max delay (t0 + timeout + 3 * delay - t)) (poll n) s.
Proof.
  revert s. induction n as [|n IH]; intros s; cbv zeta; intros Ht Hf Hc Hn.
  { pose proof (fair_rank (world s)). nia. }
  pose proof (fair_rank (world s)) as Hr. pose proof (fair_frames (world s)) as Hf0. pose proof (delay_pos (world s)) as Hd.
  pose proof (frame_ticks_pos (world s)) as Hft.
  assert (Hff : 0 <= frame_ticks * frames (world s) <= frame_ticks * f) by nia.
  destruct (fair_ticks (world s)) as (t & w & E & F & T & TD & TR). pose proof (fair_rank w) as Hrw.
  unfold within. rewrite poll_eq. unfold bind at 1, call. rewrite E. cbv iota beta.
  rewrite clock_diff by lia. set (s1 := mkNet _ _ _ _ _ _ _ _ _ w).
  destruct (Z.ltb_spec (t - t0) timeout) as [Hlt|Hge].
  2: { exists last, s1. split; [done|]. change (world s1) with w. unfold later. rewrite F. lia. }
  rewrite Z.max_r in Hn |- * by lia.
  destruct (step_ok n s1) as (x & s2 & E2 & L2 & T2); [nia|change (world s1) with w; lia|].
  change (world s1) with w in *. rewrite F in T2. unfold bind. rewrite E2. unfold later in L2.
  rewrite Z.mul_sub_distr_l in T2.
  destruct x as [r|]; cbv iota in T2.
  { exists r, s2. split; [done|]. unfold later. rewrite Z.mul_sub_distr_l. lia. }
  destruct (IH s2) as (y & s3 & E3 & L3 & T3); [lia|lia|lia| |].
  { pose proof (fair_rank (world s2)). destruct (Z.max_spec 0 (t0 + timeout - time (world s2))) as [[? ->]|[? ->]]; nia. }
  assert (frame_ticks * frames (world s2) <= frame_ticks * frames (world s)) by (apply Z.mul_le_mono_nonneg_l; lia).
  exists y, s3. split; [done|]. rewrite Z.mul_sub_distr_l in *. unfold later in *. lia.
Qed.

End loop.

Section timed.
Context {W : Type} `{FairNic W}.

(** Fuel for a loop of [timeout] ticks, not counting the loops it nests *)
Definition need (timeout : Z) : Z := (timeout + 1) * (patience + 1).

(** Read the clock, then poll, perhaps after another call. *)
Lemma within_timed {A} (timeout : Z) (k : Z -> M W A) (s : net W) :
  0 <= timeout ->
  (forall t0 s', t0 <= time (world s') <= t0 + delay -> frames (world s') = frames (world s) ->
     within (Z.max (2 * delay) (t0 + timeout + 3 * delay - time (world s'))) (k (u32 t0)) s') ->
  within (timeout + 4 * delay) (bind (call get_ticks) k) s.
Proof.
  intros Ht Hk. destruct (fair_ticks (world s)) as (t & w & E & F & T & TD & TR). unfold within, bind, call. rewrite E.
  set (s1 := mkNet _ _ _ _ _ _ _ _ _ w). pose proof (fair_rank w).
  destruct (Hk t s1) as (x & s2 & E2 & L2 & T2); [change (world s1) with w; lia|done|].
  exists x, s2. split; [done|]. unfold later in *. change (world s1) with w in *. rewrite F in *. lia.
Qed.

(** Receive a frame and dispatch it. *)
Lemma receive_dispatch {A} (handle : list Z -> M W A) (f : Z) (s : net W) :
  frames (world s) <= f -> (forall pkt s', frames (world s') <= f - 1 -> within frame_ticks (handle pkt) s') ->
  within delay (pkt <- call rtl8139_recv ;; match pkt with Some pkt => handle pkt ;;; ret tt | None => ret tt end) s.
Proof.
  intros Hf Hh. destruct (fair_recv (world s)) as (r & w & E & T & R & F). unfold within, bind, call. rewrite E.
  set (s1 := mkNet _ _ _ _ _ _ _ _ _ w). destruct r as [pkt|].
  - destruct (Hh pkt s1) as (x & s2 & E2 & L2 & T2); [cbn; lia|]. rewrite E2. exists tt, s2. split; [done|].
    unfold later in *. change (world s1) with w in *. rewrite F in T2.
    rewrite Z.mul_sub_distr_l, Z.mul_sub_distr_l in T2. rewrite Z.mul_sub_distr_l. lia.
  - exists tt, s1. split; [done|]. change (world s1) with w. unfold later. rewrite F. lia.
Qed.

(** One iteration that only tests the state after the dispatch *)
Lemma stepped_test {A} (m : M W unit) (test : net W -> option A) (s : net W) :
  within delay m s -> stepped (m ;;; s <- get ;; ret (test s)) s.
Proof.
  intros (x & s' & E & L & T). exists (test s'), s'. unfold bind. rewrite E. split; [done|]. split; [done|].
  pose proof (delay_pos (world s)). destruct (test s'); lia.
Qed.

(** A loop of [timeout] ticks whose iterations resolve addresses *)
Lemma loop_within {A} (poll : nat -> M W A) (step : nat -> M W (option A)) (last : A) (timeout t0 : Z) (f n : nat)
    (s : net W) :
  (forall n s, poll (S n) s =
     (now <- call get_ticks ;;
      if u32 (now - u32 t0) <? timeout then x <- step n ;; match x with Some r => ret r | None => poll n end
      else ret last) s) ->
  (forall m s, need 50 * Z.of_nat f <= Z.of_nat m -> frames (world s) <= Z.of_nat f -> stepped (step m) s) ->
  0 <= timeout -> timeout + 3 * delay + frame_ticks * Z.of_nat f < 4294967296 -> need timeout + need 50 * Z.of_nat f <= Z.of_nat n ->
  t0 <= time (world s) <= t0 + 2 * delay -> frames (world s) <= Z.of_nat f ->
  within (Z.max delay (t0 + timeout + 3 * delay - time (world s))) (poll n) s.
Proof.
  intros Heq Hstep Ht Hw Hn Htime Hf.
  assert (Hp : 0 <= patience) by (pose proof (fair_rank (world s)); lia).
  pose proof (frame_ticks_pos (world s)) as Hd.
  assert (frame_ticks * frames (world s) <= frame_ticks * Z.of_nat f) by (apply Z.mul_le_mono_nonneg_l; lia).
  set (enough := Z.to_nat (need 50 * Z.of_nat f)).
  assert (He : Z.of_nat enough = need 50 * Z.of_nat f) by (unfold enough, need; nia).
  refine (poll_returns poll step last timeout t0 (Z.of_nat f) enough Heq _ _ n s _ _ _ _); [|lia..|].
  - intros m s' Hm Hf'. apply Hstep; [lia|done].
  - rewrite He. pose proof (fair_rank (world s)). unfold need in *.
    destruct (Z.max_spec 0 (t0 + timeout - time (world s))) as [[? ->]|[? ->]]; nia.
Qed.

End timed.

(** ** Address resolution returns *)

Section resolve.
Context {W : Type} `{FairNic W}.

Lemma arp_poll_eq (t0 ip : Z) (n : nat) (s : net W) :
  arp_poll (S n) (u32 t0) ip s =
  (now <- call get_ticks ;;
   if u32 (now - u32 t0) <? 50 then
     x <- ((pkt <- call rtl8139_recv ;;
            match pkt with Some pkt => net_parse_packet (net_arp_resolve n) pkt ;;; ret tt | None => ret tt end) ;;;
           s <- get ;; ret (if cache_hit s ip then Some (0, arp_cache_mac s) else None)) ;;
     match x with Some r => ret r | None => arp_poll n (u32 t0) ip end
   else ret (-1, [])) s.
Proof.
  cbn [arp_poll]. unfold bind, get. destruct (call get_ticks s) as [[now s1]|]; [|done].
  destruct (u32 (now - u32 t0) <? 50); [|done]. destruct (call rtl8139_recv s1) as [[r s2]|]; [|done].
  destruct r as [pkt|]; cbn.
  - unfold net_arp_resolve. destruct (net_parse_packet _ pkt s2) as [[z s3]|]; [|done]. cbn. by destruct (cache_hit s3 ip).
  - by destruct (cache_hit s2 ip).
Qed.

Lemma fewer_frames (w : W) (f : nat) : frame_ticks * Z.of_nat (f - 1) <= frame_ticks * Z.of_nat f.
Proof. apply Z.mul_le_mono_nonneg_l; [by apply frame_ticks_pos|lia]. Qed.

Lemma resolve_returns (f n : nat) (ip : Z) (s : net W) :
  50 + 3 * delay + frame_ticks * Z.of_nat f < 4294967296 -> need 50 * (Z.of_nat f + 1) <= Z.of_nat n -> frames (world s) <= Z.of_nat f ->
  within resolve_ticks (net_arp_resolve n ip) s.
Proof.
  revert n ip s. induction f as [f IH] using lt_wf_ind. intros n ip s Hw Hn Hf.
  unfold net_arp_resolve, arp_resolve, send_arp_request. apply within_get.
  destruct (cache_hit s ip); [by apply within_ret_ticks; auto|].
  apply (within_weaken (delay + 0 + (50 + 4 * delay))); [unfold resolve_ticks; lia|]. apply within_bind.
  { apply within_get, within_bind; [apply within_send|]. intros. apply within_ret. }
  intros _ s1 [L1 _]. apply (within_timed 50); [lia|]. intros t0 s2 Ht2 Hf2. pose proof (delay_pos (world s2)).
  apply (within_weaken (Z.max delay (t0 + 50 + 3 * delay - time (world s2)))); [lia|].
  apply (loop_within (fun n => arp_poll n (u32 t0) ip) _ (-1, []) 50 t0 f n s2 (arp_poll_eq t0 ip)); [|lia..].
  intros m s3 Hm Hf3. apply stepped_test, (receive_dispatch _ (Z.of_nat f)); [done|]. intros pkt s4 Hf4.
  pose proof (fair_frames (world s4)). apply (within_parse _ (Z.of_nat (f - 1))); [|lia]. intros ip' s5 Hf5.
  pose proof (fewer_frames (world s5) f). apply (IH (f - 1)%nat); [lia|lia| |done]. replace (Z.of_nat (f - 1) + 1) with (Z.of_nat f) by lia. lia.
Qed.

(** The handlers, given fuel for the resolutions they start *)
Lemma resolving (f m : nat) :
  50 + 3 * delay + frame_ticks * Z.of_nat f < 4294967296 -> need 50 * Z.of_nat f <= Z.of_nat m ->
  forall ip s, frames (world s) <= Z.of_nat f - 1 -> within resolve_ticks (net_arp_resolve m ip) s.
Proof.
  intros Hw Hm ip s Hf. pose proof (fair_frames (world s)). pose proof (fewer_frames (world s) f).
  apply (resolve_returns (f - 1)); [lia| |lia].
  replace (Z.of_nat (f - 1) + 1) with (Z.of_nat f) by lia. done.
Qed.

End resolve.

(** ** The other loops *)

Section loops.
Context {W : Type} `{FairNic W}.

Lemma ping_poll_eq (timeout t0 : Z) (n : nat) (s : net W) :
  ping_poll (S n) (u32 t0) timeout s =
  (now <- call get_ticks ;;
   if u32 (now - u32 t0) <? timeout then
     x <- ((pkt <- call rtl8139_recv ;;
            match pkt with Some pkt => net_parse_packet (net_arp_resolve n) pkt ;;; ret tt | None => ret tt end) ;;;
           s <- get ;;
           if ping_reply_received s then now <- call get_ticks ;; ret (Some (0, i32 (u32 (now - u32 t0) * 10)))
           else ret None) ;;
     match x with Some r => ret r | None => ping_poll n (u32 t0) timeout end
   else ret (-1, 0)) s.
Proof.
  cbn [ping_poll]. unfold bind, get. destruct (call get_ticks s) as [[now s1]|]; [|done].
  destruct (u32 (now - u32 t0) <? timeout); [|done]. destruct (call rtl8139_recv s1) as [[r s2]|]; [|done].
  destruct r as [pkt|]; cbn.
  - destruct (net_parse_packet _ pkt s2) as [[z s3]|]; [|done]. cbn.
    destruct (ping_reply_received s3); [|done]. by destruct (call get_ticks s3) as [[? ?]|].
  - destruct (ping_reply_received s2); [|done]. by destruct (call get_ticks s2) as [[? ?]|].
Qed.

Lemma tcp_poll_eq (timeout t0 : Z) (done : net W -> option Z) (n : nat) (s : net W) :
  tcp_poll (S n) (u32 t0) timeout done s =
  (now <- call get_ticks ;;
   if u32 (now - u32 t0) <? timeout then
     x <- (tcp_receive n ;;; s <- get ;; ret (option_map Some (done s))) ;;
     match x with Some r => ret r | None => tcp_poll n (u32 t0) timeout done end
   else ret None) s.
Proof.
  cbn [tcp_poll]. unfold bind, get. destruct (call get_ticks s) as [[now s1]|]; [|done].
  destruct (u32 (now - u32 t0) <? timeout); [|done]. destruct (tcp_receive n s1) as [[u s2]|]; [|done].
  cbn. by destruct (done s2).
Qed.

Lemma recv_poll_eq (i max_len timeout t0 : Z) (n : nat) (s : net W) :
  recv_poll (S n) i max_len (u32 t0) timeout s =
  (now <- call get_ticks ;;
   if u32 (now - u32 t0) <? timeout then
     x <- (s <- get ;;
           if 0 <? rcv_len (sock s i) then
             upd i (fun k => (take_received max_len k).2) ;;; ret (Some (take_received max_len (sock s i)).1)
           else
             tcp_receive n ;;; s <- get ;; ret (if TCP_CLOSE_WAIT <=? state (sock s i) then Some [] else None)) ;;
     match x with Some r => ret r | None => recv_poll n i max_len (u32 t0) timeout end
   else ret []) s.
Proof.
  cbn [recv_poll]. unfold bind, get. destruct (call get_ticks s) as [[now s1]|]; [|done].
  destruct (u32 (now - u32 t0) <? timeout); [|done]. destruct (0 <? rcv_len (sock s1 i)); [done|].
  destruct (tcp_receive n s1) as [[u s2]|]; [|done]. cbn. by destruct (TCP_CLOSE_WAIT <=? state (sock s2 i)).
Qed.

Section bounded.
Variables f : nat.
Hypothesis Hw : 50 + 3 * delay + frame_ticks * Z.of_nat f < 4294967296.

Lemma within_receive (m : nat) (s : net W) :
  need 50 * Z.of_nat f <= Z.of_nat m -> frames (world s) <= Z.of_nat f -> within delay (tcp_receive m) s.
Proof.
  intros Hm Hf.
  destruct (receive_dispatch (tcp_handle_packet (net_arp_resolve m)) (Z.of_nat f) s Hf) as (x & s' & E & L).
  { intros pkt s' Hf'. apply (within_tcp_handle _ (Z.of_nat f - 1)); [|done]. by apply resolving. }
  exists x, s'. split; [|exact L]. revert E. unfold tcp_receive, bind.
  destruct (call rtl8139_recv s) as [[[pkt|] s1]|]; [|done..].
  destruct (tcp_handle_packet _ pkt s1) as [[[] s2]|]; [|done]. destruct x. done.
Qed.

Lemma tcp_poll_within (timeout t0 : Z) (done : net W -> option Z) (n : nat) (s : net W) :
  0 <= timeout -> timeout + 3 * delay + frame_ticks * Z.of_nat f < 4294967296 -> need timeout + need 50 * Z.of_nat f <= Z.of_nat n ->
  t0 <= time (world s) <= t0 + 2 * delay -> frames (world s) <= Z.of_nat f ->
  within (Z.max delay (t0 + timeout + 3 * delay - time (world s))) (tcp_poll n (u32 t0) timeout done) s.
Proof.
  intros. apply (loop_within (fun n => tcp_poll n (u32 t0) timeout done) _ None timeout t0 f n s
    (tcp_poll_eq timeout t0 done)); [|lia..]. intros m s' Hm Hf. by apply stepped_test, within_receive.
Qed.

Lemma recv_poll_within (i max_len timeout t0 : Z) (n : nat) (s : net W) :
  0 <= timeout -> timeout + 3 * delay + frame_ticks * Z.of_nat f < 4294967296 -> need timeout + need 50 * Z.of_nat f <= Z.of_nat n ->
  t0 <= time (world s) <= t0 + 2 * delay -> frames (world s) <= Z.of_nat f ->
  within (Z.max delay (t0 + timeout + 3 * delay - time (world s))) (recv_poll n i max_len (u32 t0) timeout) s.
Proof.
  intros. apply (loop_within (fun n => recv_poll n i max_len (u32 t0) timeout) _ [] timeout t0 f n s
    (recv_poll_eq i max_len timeout t0)); [|lia..]. intros m s' Hm Hf. unfold stepped, bind at 1, get at 1.
  destruct (0 <? rcv_len (sock s' i)).
  - do 2 eexists. split; [reflexivity|]. split; [reflexivity|]. pose proof (delay_pos (world s')). cbn. lia.
  - exact (stepped_test (tcp_receive m) (fun s => if TCP_CLOSE_WAIT <=? state (sock s i) then Some [] else None) s'
      (within_receive m s' Hm Hf)).
Qed.

Lemma ping_poll_within (timeout t0 : Z) (n : nat) (s : net W) :
  0 <= timeout -> timeout + 3 * delay + frame_ticks * Z.of_nat f < 4294967296 -> need timeout + need 50 * Z.of_nat f <= Z.of_nat n ->
  t0 <= time (world s) <= t0 + 2 * delay -> frames (world s) <= Z.of_nat f ->
  within (Z.max delay (t0 + timeout + 3 * delay - time (world s))) (ping_poll n (u32 t0) timeout) s.
Proof.
  intros. apply (loop_within (fun n => ping_poll n (u32 t0) timeout) _ (-1, 0) timeout t0 f n s
    (ping_poll_eq timeout t0)); [|lia..]. intros m s' Hm Hf.
  destruct (receive_dispatch (net_parse_packet (net_arp_resolve m)) (Z.of_nat f) s' Hf) as (x & s1 & E & L & T).
  { intros pkt s1 Hf1. apply (within_parse _ (Z.of_nat f - 1)); [|done]. by apply resolving. }
  unfold stepped, bind at 1. rewrite E. unfold bind at 1, get. destruct (ping_reply_received s1).
  - destruct (within_ticks s1) as (now & s2 & E2 & L2 & T2). unfold bind. rewrite E2. do 2 eexists.
    split; [reflexivity|]. split; [by etransitivity|]. rewrite Z.mul_sub_distr_l in *. lia.
  - do 2 eexists. split; [reflexivity|]. split; [done|]. lia.
Qed.

End bounded.
End loops.

(** ** The calls *)

(** The ticks a call may poll for, resolution apart *)
Definition call_ticks (c : net_call) : Z :=
  match c with
  | CPing _ t | CConnect _ _ t | CSend _ _ t | CRecv _ _ t => timeout_ticks t
  | CClose _ => 50
  | _ => 0
  end.

Section calls.
Context {W : Type} `{FairNic W}.

Section bounded.
Variables f n : nat.
Hypothesis Hres : 50 + 3 * delay + frame_ticks * Z.of_nat f < 4294967296.
Hypothesis Hn : need 50 * (Z.of_nat f + 1) <= Z.of_nat n.

Lemma call_resolve (ip : Z) (s : net W) : frames (world s) <= Z.of_nat f -> within resolve_ticks (net_arp_resolve n ip) s.
Proof. by apply resolve_returns. Qed.

(** A segment, then whatever follows *)
Lemma call_segment {B} (c i flags : Z) (data : list Z) (k : Z -> M W B) (s : net W) :
  frames (world s) <= Z.of_nat f -> (forall x s', frames (world s') <= Z.of_nat f -> within c (k x) s') ->
  within (segment_ticks + c) (bind (send_tcp_segment (net_arp_resolve n) i flags data) k) s.
Proof. apply within_segment_then. apply call_resolve. Qed.

Lemma call_poll {B} (timeout : Z) (done : net W -> option Z) (k : option Z -> M W B) (s : net W) :
  0 <= timeout -> timeout + 3 * delay + frame_ticks * Z.of_nat f < 4294967296 -> need timeout + need 50 * Z.of_nat f <= Z.of_nat n ->
  frames (world s) <= Z.of_nat f -> (forall x s', within 0 (k x) s') ->
  within (timeout + 4 * delay) (start <- call get_ticks ;; r <- tcp_poll n start timeout done ;; k r) s.
Proof.
  intros Ht Hw Hf Hs Hk. apply within_timed; [done|]. intros t0 s' Ht' Hf'. pose proof (delay_pos (world s')).
  apply (within_weaken (Z.max delay (t0 + timeout + 3 * delay - time (world s')) + 0)); [lia|].
  apply within_bind; [|intros; apply Hk]. apply (tcp_poll_within f); [done..|lia|lia].
Qed.

Lemma echo_sent (ip id seq : Z) (s : net W) :
  exists s', send_icmp_echo ip id seq s = Some (tt, s') /\ later (world s) (world s') /\
    time (world s') <= time (world s) + delay /\ frames (world s') = frames (world s).
Proof.
  unfold send_icmp_echo, bind, get. destruct (icmp_echo_total (arp_cache_mac s) (own_mac s) ip id seq) as [p ->].
  cbn [lift]. unfold call. destruct (fair_send p (world s)) as (r & w & -> & T & R & F). eexists. split; [done|].
  cbn [world]. unfold later. lia.
Qed.

(** The ticks of a call besides its own time-out and the frames it takes *)
Definition call_overhead : Z := 100 + 14 * delay.

#[local] Ltac cost s := pose proof (delay_pos (world s)); unfold call_overhead, frame_ticks, segment_ticks, resolve_ticks in *; lia.

Lemma ping_within (ip t : Z) (s : net W) :
  timeout_ticks t + 3 * delay + frame_ticks * Z.of_nat f < 4294967296 -> need (timeout_ticks t) + need 50 * Z.of_nat f <= Z.of_nat n ->
  frames (world s) <= Z.of_nat f -> within (timeout_ticks t + call_overhead) (net_ping n ip t) s.
Proof.
  intros Hw Hf Hs. pose proof (u32_range (Z.quot (t + 9) 10)) as Ht. fold (timeout_ticks t) in Ht.
  unfold net_ping. cbv zeta.
  apply (within_weaken (resolve_ticks + (resolve_ticks + (timeout_ticks t + 4 * delay)))); [cost s|].
  apply within_bind; [by apply call_resolve|]. intros a s1 [L1 _]. apply within_bind.
  { apply within_if; [apply call_resolve; lia|by apply within_ret_ticks; auto]. }
  intros b s2 [L2 _]. apply within_if; [apply within_ret_any; cost s|].
  apply within_then; [by apply within_modify|]. intros _ s3 [L3 _].
  apply within_then; [by apply within_modify|]. intros _ s4 [L4 _].
  apply within_timed; [lia|]. intros t0 s5 Ht5 Hf5.
  destruct (echo_sent ip 4660 1 s5) as (s6 & E & L6 & T6 & F6).
  destruct (ping_poll_within f Hres (timeout_ticks t) t0 n s6) as (x & s7 & E7 & L7 & T7); [unfold later in *; lia..|].
  exists x, s7. unfold bind. rewrite E. split; [done|]. split; [by etransitivity|]. rewrite F6 in T7. unfold later in *.
  pose proof (delay_pos (world s)). lia.
Qed.

Lemma connect_within (ip port t : Z) (s : net W) :
  timeout_ticks t + 3 * delay + frame_ticks * Z.of_nat f < 4294967296 -> need (timeout_ticks t) + need 50 * Z.of_nat f <= Z.of_nat n ->
  frames (world s) <= Z.of_nat f -> within (timeout_ticks t + call_overhead) (tcp_connect n ip port t) s.
Proof.
  intros Hw Hf Hs. pose proof (u32_range (Z.quot (t + 9) 10)) as Ht. fold (timeout_ticks t) in Ht.
  unfold tcp_connect. apply within_get. destruct (find_up _ _ _) as [i|]; [|apply within_ret_any; cost s].
  assert (Hfail : forall s', within 0 (upd i (fun k => set_used k false) ;;; ret (-1)) s').
  { intros s'. apply within_then; [apply within_upd|]. intros. apply within_ret. }
  apply (within_weaken (delay + (segment_ticks + (timeout_ticks t + 4 * delay + 0)))); [cost s|].
  apply within_bind; [apply within_ticks|]. intros now s1 [L1 _]. cbv zeta.
  apply within_then; [apply within_upd|]. intros _ s2 [L2 _].
  apply within_then; [by apply within_modify|]. intros _ s3 [L3 _].
  apply call_segment; [lia|]. intros r s4 F4.
  apply within_if; [apply (within_weaken 0); [cost s|apply Hfail]|].
  apply within_then; [apply within_upd|]. intros _ s5 [L5 _]. apply within_bind.
  - unfold tcp_poll_until. apply within_get, within_if; [apply within_ret_any; cost s|].
    apply call_poll; [lia..|]. intros. apply within_ret.
  - intros r' s6 _. apply within_if; [apply Hfail|apply within_ret].
Qed.

Lemma send_within (i t : Z) (data : list Z) (s : net W) :
  timeout_ticks t + 3 * delay + frame_ticks * Z.of_nat f < 4294967296 -> need (timeout_ticks t) + need 50 * Z.of_nat f <= Z.of_nat n ->
  frames (world s) <= Z.of_nat f -> within (timeout_ticks t + call_overhead) (tcp_send n i data t) s.
Proof.
  intros Hw Hf Hs. pose proof (u32_range (Z.quot (t + 9) 10)) as Ht. fold (timeout_ticks t) in Ht.
  unfold tcp_send. apply within_get, within_if; [apply within_ret_any; cost s|]. cbv zeta.
  apply (within_weaken (segment_ticks + (timeout_ticks t + 4 * delay))); [cost s|].
  apply within_then; [apply within_upd|]. intros _ s1 [L1 _]. apply call_segment; [lia|]. intros r s2 F2.
  apply within_if; [apply within_ret_any; cost s|]. apply within_then; [apply within_upd|]. intros _ s3 [L3 _].
  apply call_poll; [lia..|]. intros. apply within_ret.
Qed.

Lemma recv_within (i max_len t : Z) (s : net W) :
  timeout_ticks t + 3 * delay + frame_ticks * Z.of_nat f < 4294967296 -> need (timeout_ticks t) + need 50 * Z.of_nat f <= Z.of_nat n ->
  frames (world s) <= Z.of_nat f -> within (timeout_ticks t + call_overhead) (tcp_recv n i max_len t) s.
Proof.
  intros Hw Hf Hs. pose proof (u32_range (Z.quot (t + 9) 10)) as Ht. fold (timeout_ticks t) in Ht.
  unfold tcp_recv. apply within_get, within_if; [apply within_ret_any; cost s|].
  apply (within_weaken (timeout_ticks t + 4 * delay)); [cost s|]. apply within_timed; [lia|]. intros t0 s' Ht' Hf'.
  pose proof (delay_pos (world s')).
  apply (within_weaken (Z.max delay (t0 + timeout_ticks t + 3 * delay - time (world s')) + 0)); [lia|].
  apply within_bind; [|intros; apply within_ret]. apply (recv_poll_within f Hres); lia.
Qed.

Lemma close_within (i : Z) (s : net W) :
  need 50 + need 50 * Z.of_nat f <= Z.of_nat n -> frames (world s) <= Z.of_nat f -> within call_overhead (tcp_close n i) s.
Proof.
  intros Hf Hs. unfold tcp_close. apply within_get, within_if; [apply within_ret_any; cost s|].
  apply (within_weaken (segment_ticks + (50 + 4 * delay) + 0)); [cost s|]. apply within_bind; [|intros; apply within_upd].
  apply within_if; [|apply within_ret_any; cost s]. apply call_segment; [lia|]. intros r s2 F2.
  apply within_then; [apply within_upd|]. intros _ s3 [L3 _]. apply (call_poll 50); [lia..|]. intros. apply within_ret.
Qed.

End bounded.

(** Every call returns, and when. *)
Lemma exec_returns (f n : nat) (c : net_call) (s : net W) :
  frames (world s) <= Z.of_nat f -> call_ticks c + 50 + 3 * delay + frame_ticks * Z.of_nat f < 4294967296 ->
  need (call_ticks c) + need 50 * (Z.of_nat f + 1) <= Z.of_nat n -> within (call_ticks c + call_overhead) (net_exec n c) s.
Proof.
  intros Hs Hw Hf. assert (Hp : 0 <= patience) by (pose proof (fair_rank (world s)); lia).
  pose proof (delay_pos (world s)) as Hd.
  assert (Ht : 0 <= call_ticks c) by (destruct c; cbn; try apply u32_range; lia).
  assert (Hn1 : need 50 * (Z.of_nat f + 1) <= Z.of_nat n) by (unfold need in *; nia).
  assert (Hn2 : need (call_ticks c) + need 50 * Z.of_nat f <= Z.of_nat n) by (unfold need in *; nia).
  assert (Hc : 0 <= resolve_ticks <= call_overhead /\ frame_ticks <= call_overhead)
    by (unfold call_overhead, frame_ticks, segment_ticks, resolve_ticks; lia).
  apply (within_weaken (call_ticks c + call_overhead + 0)); [lia|].
  assert (Hdrop : forall A (m : M W A), within (call_ticks c + call_overhead) m s ->
    within (call_ticks c + call_overhead + 0) (drop_result m) s).
  { intros A m Hm. apply within_bind; [done|]. intros. apply within_ret. }
  destruct c; cbn [net_exec]; apply Hdrop; cbn [call_ticks] in *.
  - apply (within_weaken resolve_ticks); [lia|]. by apply (call_resolve f); [lia|..].
  - apply (ping_within f); lia.
  - apply (within_weaken frame_ticks); [lia|]. apply (within_parse _ (Z.of_nat f)); [|done]. intros. apply (call_resolve f); lia.
  - unfold tcp_init. apply (within_weaken 0); [lia|]. apply within_then; [by apply within_modify|]. intros. apply within_ret.
  - apply (connect_within f); lia.
  - apply (send_within f); lia.
  - apply (recv_within f); lia.
  - apply (within_weaken call_overhead); [lia|]. apply (close_within f); lia.
Qed.

End calls.
