(* ===== verification/NetDeliver.v ===== *)
(** * A data segment from one stack to the other

    What [net_parse_packet] of the receiving stack does with a frame that
    [send_tcp_segment] of the sending stack put on the wire. *)
From S2P Require Import Prelude Bytes NetBase Tcp NetStack NetSum NetFrames NetInv NetTerm.
Import Net Tcp NetStack.
#[local] Open Scope net_scope.

(** ** Sockets after an update *)

Lemma upd_run {W} (i : Z) (f : tcp_sock -> tcp_sock) (s : net W) :
  upd i f s = Some (tt, with_socks s (<[Z.to_nat i := f (sock s i)]> (sockets s))).
Proof. done. Qed.

Lemma sock_with_eq {W} (s : net W) (i : Z) (k : tcp_sock) :
  0 <= i < Z.of_nat (length (sockets s)) -> sock (with_socks s (<[Z.to_nat i := k]> (sockets s))) i = k.
Proof. intros Hi. unfold sock. cbn [with_socks sockets]. rewrite list_lookup_insert_eq by lia. done. Qed.

Lemma sock_with_ne {W} (s : net W) (i j : Z) (k : tcp_sock) :
  0 <= i -> 0 <= j -> i <> j -> sock (with_socks s (<[Z.to_nat i := k]> (sockets s))) j = sock s j.
Proof. intros. unfold sock. cbn [with_socks sockets]. by rewrite list_lookup_insert_ne by lia. Qed.

Lemma with_with {W} (s : net W) (l l' : list tcp_sock) : with_socks (with_socks s l) l' = with_socks s l'.
Proof. done. Qed.

Lemma upd_after {W} (i : Z) (f : tcp_sock -> tcp_sock) (k : tcp_sock) (s : net W) :
  0 <= i < Z.of_nat (length (sockets s)) ->
  upd i f (with_socks s (<[Z.to_nat i := k]> (sockets s))) = Some (tt, with_socks s (<[Z.to_nat i := f k]> (sockets s))).
Proof.
  intros Hi. rewrite upd_run, sock_with_eq, with_with by done. cbn [with_socks sockets].
  by rewrite list_insert_insert_eq.
Qed.

(** ** Frames on the wire *)

Lemma tcp_segment_ext (q q' : list Z) (k : tcp_sock) (flags : Z) (data : list Z) :
  (forall j, 34 <= j -> byte_at q' j = byte_at q j) -> tcp_segment q k flags data -> tcp_segment q' k flags data.
Proof.
  intros E [? ? ? ? ? ? ? ? ?]. constructor.
  - by rewrite (get16_ext q) by (apply E; lia).
  - by rewrite (get16_ext q) by (apply E; lia).
  - by rewrite (get32_bytes_ext q) by (intros; apply E; lia).
  - by rewrite (get32_bytes_ext q) by (intros; apply E; lia).
  - by rewrite E by lia.
  - by rewrite E by lia.
  - by rewrite (get16_ext q) by (apply E; lia).
  - by rewrite (get_bytes_eq q' q) by (intros; apply E; lia).
  - cbv zeta in *. by rewrite (get_bytes_eq q' q) by (intros; apply E; lia).
Qed.

(** What a receiver can rely on of a frame with a segment of [k] *)
Record tcp_wire (pkt : list Z) (k : tcp_sock) (flags : Z) (data : list Z) : Prop := {
  tw_bytes : is_bytes pkt;
  tw_len : Z.of_nat (length pkt) = 54 + Z.of_nat (length data);
  tw_type : get16 pkt 12 = net_htons ETH_IP;
  tw_ip : ip_header pkt (40 + Z.of_nat (length data)) IP_TCP NET_HOST_IP (dst_ip k);
  tw_seg : tcp_segment pkt k flags data }.

(** The frame with the resolved destination stored into it *)
Lemma tcp_frame_wire (mac dst : list Z) (k : tcp_sock) (flags : Z) (data : list Z) :
  is_bytes mac -> length mac = 6%nat -> length dst = 6%nat -> is_bytes data -> Z.of_nat (length data) <= 1460 ->
  exists p, tcp_frame mac k flags data = Some p /\ tcp_wire (put_bytes p 0 dst) k flags data /\
    get_bytes (put_bytes p 0 dst) 6 6 = mac.
Proof.
  intros Hm Hml Hdl Hd Hl. destruct (tcp_frame_spec mac k flags data Hm Hml Hd Hl) as (p & E & B & L & S & T & I & G).
  exists p. split; [done|]. assert (Hout : forall j, 6 <= j -> byte_at (put_bytes p 0 dst) j = byte_at p j).
  { intros j Hj. apply byte_at_put_bytes_out; lia. }
  split; [constructor|].
  - by apply is_bytes_put_bytes.
  - by rewrite length_put_bytes.
  - by rewrite (get16_ext p) by (apply Hout; lia).
  - apply (ip_header_ext p); [intros; apply Hout; lia|done].
  - apply (tcp_segment_ext p); [intros; apply Hout; lia|done].
  - by rewrite (get_bytes_eq _ p) by (intros; apply Hout; lia).
Qed.

(** ** The receiving side *)

Section deliver.
Context {W : Type} `{Nic W}.

(** An acknowledgement to a peer whose address is cached *)
Lemma ack_sent (fuel : nat) (i flags : Z) (s : net W) :
  cache_hit s (dst_ip (sock s i)) = true ->
  exists p, tcp_frame (own_mac s) (sock s i) flags [] = Some p /\
    send_tcp_segment (net_arp_resolve fuel) i flags [] s = call (rtl8139_send (put_bytes p 0 (arp_cache_mac s))) s.
Proof.
  intros Hc. destruct (tcp_frame_total (own_mac s) (sock s i) flags []) as [p E]. exists p. split; [done|].
  unfold send_tcp_segment, bind, get. rewrite E. cbn [lift].
  unfold net_arp_resolve, arp_resolve, bind, get. by rewrite Hc.
Qed.

(** [tcp_handle_packet] on such a frame goes on to the socket's branches. *)
Lemma handle_wire (resolve : Z -> M W (Z * list Z)) (pkt : list Z) (k : tcp_sock) (data : list Z) (i : Z) (s : net W) :
  tcp_wire pkt k (Z.lor TCP_FLAG_PSH TCP_FLAG_ACK) data -> sock_ok k -> Z.of_nat (length data) <= 1460 ->
  find_sock_by_port s (dst_port k) = Some i -> state (sock s i) = TCP_ESTABLISHED ->
  tcp_handle_packet resolve pkt s =
    (upd i (fun j => set_ack j (rcv_nxt k) 1460) ;;;
     handle_data resolve i (snd_nxt k) (Z.lor TCP_FLAG_PSH TCP_FLAG_ACK) (Z.of_nat (length data)) data) s.
Proof.
  intros [Hb Hl _ [Hv Ht _ _ _ _ _] [_ Hdp Hsq Hak Ho Hfl Hw Hd _]] Hk Hn Hfind Hst.
  set (n := Z.of_nat (length data)) in *. unfold tcp_handle_packet. rewrite Hv. change (Z.land 69 15 * 4) with 20. 
  change (20 <? 20) with false. cbv iota zeta. change (14 + 20) with 34.
  rewrite Hl, (proj2 (Z.ltb_ge _ _)) by lia. rewrite Ht, htons_htons by lia.
  rewrite (proj2 (Z.ltb_ge _ _)) by lia. unfold bind at 1, get. change (34 + 2) with 36. change (34 + 12) with 46.
  change (34 + 4) with 38. change (34 + 8) with 42. change (34 + 13) with 47. change (34 + 14) with 48.
  rewrite Hdp, htons_htons by (apply Hk). rewrite Hfind, Ho, Hsq, Hak, Hfl, Hw, !htonl_htonl by (apply Hk).
  change (Z.land (Z.shiftr 80 4) 15 * 4) with 20. change (20 <? 20) with false. cbn [orb].
  rewrite (proj2 (Z.ltb_ge _ _)) by lia. rewrite Hst.
  change (u8 (Z.lor TCP_FLAG_PSH TCP_FLAG_ACK)) with (Z.lor TCP_FLAG_PSH TCP_FLAG_ACK).
  replace (14 + (40 + n) - 34 - 20) with n by lia. change (34 + 20) with 54. rewrite Hd. reflexivity.
Qed.

(** The socket after the data has been stored *)
Definition received (j k : tcp_sock) (data : list Z) : tcp_sock :=
  let n := Z.of_nat (length data) in
  set_rcv_nxt (set_rcv (set_ack j (rcv_nxt k) 1460) (put_bytes (rcv_buf j) 0 data) n) (u32 (snd_nxt k + n)).

Definition with_world (s : net W) (w : W) : net W :=
  mkNet (own_mac s) (arp_cache_ip s) (arp_cache_mac s) (arp_cache_valid s) (ping_reply_received s) (ping_reply_id s)
    (ping_reply_seq s) (sockets s) (next_ephemeral s) w.

Lemma handle_data_run (fuel : nat) (i : Z) (k : tcp_sock) (data : list Z) (s : net W) :
  net_ok s -> 0 <= i < TCP_MAX_SOCKS -> 0 < Z.of_nat (length data) <= 1460 ->
  rcv_nxt (sock s i) = snd_nxt k -> cache_hit s (dst_ip (sock s i)) = true ->
  let s1 := with_socks s (<[Z.to_nat i := received (sock s i) k data]> (sockets s)) in
  exists p, tcp_frame (own_mac s) (sock s1 i) TCP_FLAG_ACK [] = Some p /\
    (upd i (fun j => set_ack j (rcv_nxt k) 1460) ;;;
     handle_data (net_arp_resolve fuel) i (snd_nxt k) (Z.lor TCP_FLAG_PSH TCP_FLAG_ACK) (Z.of_nat (length data)) data) s =
    Some (tt, with_world s1 (rtl8139_send (put_bytes p 0 (arp_cache_mac s)) (world s)).2).
Proof.
  intros [Hcnt _ _] Hi Hn Hseq Hc s1. set (n := Z.of_nat (length data)) in *.
  assert (E1 : (upd i (fun j => set_ack j (rcv_nxt k) 1460) ;;;
    handle_data (net_arp_resolve fuel) i (snd_nxt k) (Z.lor TCP_FLAG_PSH TCP_FLAG_ACK) n data) s =
    (send_tcp_segment (net_arp_resolve fuel) i TCP_FLAG_ACK [] ;;; ret tt) s1).
  { unfold bind at 1. rewrite upd_run. unfold handle_data. rewrite (proj2 (Z.ltb_lt 0 n)) by lia. cbn [orb].
    unfold bind at 1, get. rewrite sock_with_eq by lia.
    change (rcv_nxt (set_ack (sock s i) (rcv_nxt k) 1460)) with (rcv_nxt (sock s i)).
    rewrite Hseq, Z.eqb_refl. cbn [andb]. unfold RCV_BUF. rewrite (proj2 (Z.ltb_ge 1460 n)) by lia. cbv zeta.
    rewrite firstn_all2 by lia. unfold bind at 1. rewrite upd_after by lia.
    unfold bind at 1. rewrite upd_after by lia. done. }
  assert (E2 : sock s1 i = received (sock s i) k data) by (apply sock_with_eq; lia).
  destruct (ack_sent fuel i TCP_FLAG_ACK s1) as (p & Ep & Es).
  { rewrite E2. exact Hc. }
  exists p. split; [exact Ep|]. rewrite E1. unfold bind. rewrite Es. unfold call.
  change (arp_cache_mac s1) with (arp_cache_mac s). change (world s1) with (world s).
  by destruct (rtl8139_send _ (world s)) as [r w].
Qed.

(** The whole way through [net_parse_packet] *)
Lemma deliver (fuel : nat) (pkt : list Z) (k : tcp_sock) (data : list Z) (i : Z) (s : net W) :
  tcp_wire pkt k (Z.lor TCP_FLAG_PSH TCP_FLAG_ACK) data -> sock_ok k -> net_ok s ->
  0 < Z.of_nat (length data) <= 1460 -> find_sock_by_port s (dst_port k) = Some i ->
  state (sock s i) = TCP_ESTABLISHED -> rcv_nxt (sock s i) = snd_nxt k -> cache_hit s (dst_ip (sock s i)) = true ->
  let s1 := with_socks s (<[Z.to_nat i := received (sock s i) k data]> (sockets s)) in
  exists p, tcp_frame (own_mac s) (sock s1 i) TCP_FLAG_ACK [] = Some p /\
    net_parse_packet (net_arp_resolve fuel) pkt s =
    Some (0, with_world s1 (rtl8139_send (put_bytes p 0 (arp_cache_mac s)) (world s)).2).
Proof.
  intros Hwire Hk Hs Hn Hfind Hst Hseq Hc s1. pose proof (find_up_Some _ _ _ _ Hfind) as (Hi & _ & _).
  destruct (handle_data_run fuel i k data s Hs ltac:(unfold TCP_MAX_SOCKS in *; lia) Hn Hseq Hc) as (p & Ep & Er).
  exists p. split; [exact Ep|].
  rewrite <- (handle_wire (net_arp_resolve fuel) pkt k data i s Hwire Hk ltac:(lia) Hfind Hst) in Er.
  destruct Hwire as [Hb Hl Ht Hih _]. pose proof (ip_header_accepted pkt _ _ _ _ Hb Hih ltac:(lia) ltac:(lia)) as Hacc.
  destruct Hih as [Hv _ _ Hp _ _ _]. unfold net_parse_packet. cbv zeta.
  rewrite Hl, (proj2 (Z.ltb_ge _ _)) by lia. rewrite Ht. change (net_htons (net_htons ETH_IP)) with ETH_IP.
  change (ETH_IP =? ETH_ARP) with false. change (ETH_IP =? ETH_IP) with true. cbv iota.
  rewrite (proj2 (Z.leb_le _ _)) by lia. unfold bind at 1. rewrite Hacc. cbn [lift negb].
  rewrite Hp, Hv. change (Z.land 69 15 * 4) with 20. change (u8 IP_TCP =? IP_ICMP) with false.
  change (u8 IP_TCP =? IP_TCP) with true. cbn [andb]. rewrite (proj2 (Z.leb_le _ _)) by lia.
  unfold bind, ret. by rewrite Er.
Qed.

(** What [tcp_recv] takes out of a socket that has just received *)
Lemma take_received_all (j k : tcp_sock) (data : list Z) (max_len : Z) :
  sock_ok j -> is_bytes data -> Z.of_nat (length data) <= 1460 -> Z.of_nat (length data) <= max_len ->
  take_received max_len (received j k data) = (data, set_rcv (received j k data) (rcv_buf (received j k data)) 0).
Proof.
  intros Hj Hd Hn Hm. destruct (so_buf j Hj) as [_ Hl]. unfold RCV_BUF in Hl. unfold take_received.
  change (rcv_len (received j k data)) with (Z.of_nat (length data)).
  change (rcv_buf (received j k data)) with (put_bytes (rcv_buf j) 0 data).
  assert ((if Z.of_nat (length data) <? max_len then Z.of_nat (length data) else max_len) = Z.of_nat (length data)) as ->
    by (destruct (Z.ltb_spec (Z.of_nat (length data)) max_len); lia).
  rewrite Z.ltb_irrefl, Z.sub_diag, get_put_bytes by (done || lia). done.
Qed.

End deliver.
