(* ===== verification/NetProps.v ===== *)
(** * Properties of the network stack

    The checksums, the segments on the wire, delivery, the socket table and
    termination, each with an instance on a scripted card. *)
From S2P Require Import Prelude Bytes NetBase Tcp NetStack NetSum NetFrames NetInv NetTerm NetDeliver.
Import Net Tcp NetStack.

(** ** Checksums *)


(** ** Segments *)

(** C34: The frame [send_tcp_segment] builds for any socket and any data that
    fits is one its own receiving side accepts: 54 bytes of headers and the
    data, an IP header that passes every check of [net_parse_packet], header
    lengths that pass the checks of [tcp_handle_packet], the addresses, ports,
    sequence numbers, flags and window read back as they were stored, a TCP
    checksum that verifies over the pseudo header, and the data, found where
    [tcp_handle_packet] looks for it by the header lengths, unchanged. *)
Theorem tcp_frame_valid (mac dst : list Z) (k : tcp_sock) (flags : Z) (data : list Z) :
  is_bytes mac -> length mac = 6%nat -> length dst = 6%nat -> sock_ok k -> 0 <= flags < 256 ->
  is_bytes data -> Z.of_nat (length data) <= 1460 ->
  exists p, tcp_frame mac k flags data = Some p /\
    let q := put_bytes p 0 dst in let n := Z.of_nat (length data) in
    let ip_hlen := Z.land (byte_at q 14) 15 * 4 in let tcp_off := 14 + ip_hlen in
    let tcp_hlen := Z.land (Z.shiftr (byte_at q (tcp_off + 12)) 4) 15 * 4 in
    let ip_total := net_htons (get16 q 16) in
    Z.of_nat (length q) = 54 + n /\ get_bytes q 6 6 = mac /\ net_htons (get16 q 12) = ETH_IP /\
    ip_accepted q = Some true /\ byte_at q 23 = IP_TCP /\ ip_total = 40 + n /\
    (ip_hlen <? 20) = false /\ (tcp_hlen <? 20) || (14 + ip_total <? tcp_off + tcp_hlen) = false /\
    net_htonl (get32 q 26) = NET_HOST_IP /\ net_htonl (get32 q 30) = dst_ip k /\
    net_htons (get16 q 34) = src_port k /\ net_htons (get16 q 36) = dst_port k /\
    net_htonl (get32 q 38) = snd_nxt k /\ net_htonl (get32 q 42) = rcv_nxt k /\ byte_at q 47 = flags /\
    net_htons (get16 q 48) = 1460 /\
    tcp_checksum (get32 q 26) (get32 q 30) (get_bytes q 34 (20 + n)) (20 + n) = Some 0 /\
    get_bytes q (tcp_off + tcp_hlen) (14 + ip_total - tcp_off - tcp_hlen) = data.
Proof.
  intros Hm Hml Hdl Hk Hfl Hd Hn. destruct (tcp_frame_wire mac dst k flags data Hm Hml Hdl Hd Hn) as (p & E & Hw & Hmac).
  exists p. split; [done|]. intros q n ip_hlen tcp_off tcp_hlen ip_total. destruct Hw as [Hb Hl Ht Hih Hsg]. fold q n in Hb, Hl, Ht, Hih, Hsg, Hmac.
  pose proof (ip_header_accepted q _ _ _ _ Hb Hih ltac:(lia) ltac:(lia)) as Hacc.
  destruct Hih as [Hv Htot _ Hpr Hsrc Hdst _], Hsg as [Hsp Hdp Hsq Hak Ho Hf Hwin Hda Hsum].
  assert (Hih : ip_hlen = 20) by (unfold ip_hlen; by rewrite Hv).
  assert (Hth : tcp_hlen = 20) by (unfold tcp_hlen, tcp_off; rewrite Hih; change (14 + 20 + 12) with 46; by rewrite Ho).
  assert (Hit : ip_total = 40 + n) by (unfold ip_total; rewrite Htot; apply htons_htons; lia).
  rewrite tcp_checksum_rfc by (first [by apply is_bytes_get_bytes | rewrite length_get_bytes; lia | lia]).
  unfold tcp_off. rewrite Hih, Hth, Hit, Hpr, Hsrc, Hdst, Hwin, Hsp, Hdp, Hsq, Hak, Hf, Ht. cbv zeta in Hsum. fold n in Hsum, Hda. rewrite Hsum.
  rewrite !htonl_htonl, !htons_htons by (first [apply Hk | unfold NET_HOST_IP, ETH_IP; lia]).
  change (u8 IP_TCP) with IP_TCP. rewrite u8_small by done.
  rewrite (proj2 (Z.ltb_ge (14 + (40 + n)) _)) by lia. replace (14 + (40 + n) - (14 + 20) - 20) with n by lia.
  repeat split; done.
Qed.


(** ** The socket table *)

(** C38: Whatever sequence of calls is made and whatever the card delivers,
    the four sockets stay well typed: every sequence number, port and window
    within its width, the receive buffer 1460 bytes with the received length
    within it, and the state one of CLOSED, SYN_SENT, ESTABLISHED, FIN_WAIT_1
    and CLOSE_WAIT: FIN_WAIT_2 and TIME_WAIT are never entered. *)
Theorem sockets_well_typed {W : Type} `{Nic W} `{NicSetup W} (w : W) (s : net W) (k : tcp_sock) :
  rtc net_step (net_boot w) s -> k ∈ sockets s ->
  sock_ok k /\ Z.of_nat (length (sockets s)) = TCP_MAX_SOCKS /\
  state k <> TCP_FIN_WAIT_2 /\ state k <> TCP_TIME_WAIT.
Proof.
  intros Hr Hk. destruct (net_steps_ok _ _ (net_boot_ok w) Hr) as [Hc Hs _].
  assert (Hok : sock_ok k) by (exact (proj1 (Forall_forall _ _) Hs k Hk)). split; [done|]. split; [done|].
  pose proof (so_state k Hok) as Hst. split; intros E; rewrite E in Hst; by apply (bool_decide_eq_true_2 _) in Hst.
Qed.

(** ** Termination *)

(** C11: Every call of the stack returns, although the loops poll the card and
    handling a packet may start another resolution inside one.  The task may
    be preempted and the driver may poll its card: reading the tick counter,
    sending and receiving a frame take up to [delay] ticks each.  On a tick
    counter that moves at least once in [patience + 1] readings, with [f]
    frames still to be received, and if the whole call takes fewer than 2^32
    ticks, fuel for the call's own time-out and for [f + 1] nested resolutions
    is enough, and the call is over within its time-out, 100 ticks and 14
    delays, and 100 ticks and 12 delays more for each frame. *)
Theorem every_call_returns {W : Type} `{FairNic W} (f n : nat) (c : net_call) (s : net W) :
  frames (world s) = Z.of_nat f ->
  call_ticks c + 50 + 3 * delay + (100 + 12 * delay) * Z.of_nat f < 4294967296 ->
  (call_ticks c + 1) * (patience + 1) + 51 * (patience + 1) * (Z.of_nat f + 1) <= Z.of_nat n ->
  exists s', net_exec n c s = Some (tt, s') /\
    time (world s) <= time (world s') <=
      time (world s) + call_ticks c + 100 + 14 * delay + (100 + 12 * delay) * Z.of_nat f.
Proof.
  intros Hf Hw Hn. assert (Hft : frame_ticks = 100 + 12 * delay) by (unfold frame_ticks, segment_ticks, resolve_ticks; lia).
  destruct (exec_returns f n c s) as ([] & s' & E & L & T); [lia|by rewrite Hft|unfold need; lia|].
  exists s'. split; [done|]. pose proof (fair_frames (world s')). pose proof (frame_ticks_pos (world s)) as Hp.
  rewrite Hft, Hf in *. unfold later, call_overhead in *. nia.
Qed.

(** ** A scripted card

    The clock advances with every reading; the frames of the script are
    delivered in order; what is sent is kept. *)
Record script := mkScript { sc_clock : Z; sc_queue : list (list Z); sc_sent : list (list Z) }.

#[global] Instance script_nic : Nic script := {|
  rtl8139_send := fun p w => (0, mkScript (sc_clock w) (sc_queue w) (sc_sent w ++ [p]));
  rtl8139_recv := fun w =>
    match sc_queue w with
    | [] => (None, w)
    | p :: q => (Some p, mkScript (sc_clock w) q (sc_sent w))
    end;
  get_ticks := fun w => (u32 (sc_clock w), mkScript (sc_clock w + 1) (sc_queue w) (sc_sent w)) |}.

#[global] Instance script_setup : NicSetup script := {|
  rtl8139_init := fun w => (0, w);
  rtl8139_get_mac := fun _ => [82; 84; 0; 18; 52; 86] |}.

#[global] Program Instance script_fair : FairNic script := {|
  time := sc_clock;
  delay := 1;
  patience := 0;
  rank := fun _ => 0;
  frames := fun w => Z.of_nat (length (sc_queue w)) |}.
Next Obligation. intros. cbn. lia. Qed.
Next Obligation. intros. cbn. lia. Qed.
Next Obligation. intros w. do 2 eexists. split; [reflexivity|]. cbn. lia. Qed.
Next Obligation. intros w. destruct w as [c [|p q] t]; do 2 eexists; (split; [reflexivity|]); cbn; lia. Qed.
Next Obligation. intros. do 2 eexists. split; [reflexivity|]. cbn. lia. Qed.

(** An established socket, and a stack that has it with the peer cached *)
Definition demo_sock : tcp_sock :=
  mkSock true TCP_ESTABLISHED 167772687 40000 40000 1001 5000 1001 1460 (replicate (Z.to_nat RCV_BUF) 0) 0 1000.

Definition demo_peer : tcp_sock :=
  mkSock true TCP_ESTABLISHED 167772674 40000 80 5000 1001 5000 1460 (replicate (Z.to_nat RCV_BUF) 0) 0 4999.

Definition demo_net (queue : list (list Z)) : net script :=
  mkNet [82; 84; 0; 18; 52; 86] 167772687 [2; 2; 2; 2; 2; 2] true false 0 0
    [demo_sock; zero_sock; zero_sock; zero_sock] 40001 (mkScript 7 queue []).

Lemma demo_sock_ok : sock_ok demo_sock /\ sock_ok demo_peer.
Proof.
  split; constructor; cbn; unfold word, half, live_states, RCV_BUF; try lia;
    first [split; [apply is_bytes_zeros|by rewrite length_replicate] | set_solver].
Qed.

Lemma demo_net_ok (q : list (list Z)) : net_ok (demo_net q).
Proof.
  pose proof (proj1 demo_sock_ok) as H. pose proof zero_sock_ok as Z0. split.
  - reflexivity.
  - exact (Forall_cons_2 _ _ _ H (Forall_cons_2 _ _ _ Z0 (Forall_cons_2 _ _ _ Z0 (Forall_cons_2 _ _ _ Z0 (Forall_nil_2 _))))).
  - change (half 40001). unfold half. lia.
Qed.


Lemma tcp_frame_valid_witness :
  exists p, tcp_frame [82; 84; 0; 18; 52; 86] demo_peer 24 [104; 105] = Some p /\
    byte_at (put_bytes p 0 [2; 2; 2; 2; 2; 2]) 47 = 24.
Proof.
  destruct (tcp_frame_valid [82; 84; 0; 18; 52; 86] [2; 2; 2; 2; 2; 2] demo_peer 24 [104; 105]) as (p & E & H).
  - repeat constructor; unfold is_byte; lia.
  - done.
  - done.
  - apply demo_sock_ok.
  - lia.
  - repeat constructor; unfold is_byte; lia.
  - cbn; lia.
  - exists p. split; [exact E|]. do 14 apply proj2 in H. exact (proj1 H).
Defined.


(** A connection attempt that times out, then a close *)
Definition demo_after : net script :=
  match net_exec 120 (CConnect 167772674 80 100) (net_boot (mkScript 7 [] [])) with Some (_, s) => s | None => net_boot (mkScript 7 [] []) end.

Lemma demo_after_step : net_step (net_boot (mkScript 7 [] [])) demo_after.
Proof. apply (net_step_call 120 (CConnect 167772674 80 100)); [unfold call_ok, word, half; lia|]. vm_compute. done. Qed.

Lemma sockets_well_typed_witness : sock_ok (sock demo_after 0).
Proof.
  refine (proj1 (sockets_well_typed (mkScript 7 [] []) demo_after (sock demo_after 0) (rtc_once _ _ demo_after_step) _)).
  apply list_elem_of_lookup. exists 0%nat. vm_compute. done.
Defined.

Lemma every_call_returns_witness :
  exists s', net_exec 170 (CConnect 167772674 80 100) (demo_net [[1; 2; 3]]) = Some (tt, s').
Proof.
  destruct (every_call_returns 1 170 (CConnect 167772674 80 100) (demo_net [[1; 2; 3]])) as (s' & E & _).
  - done.
  - vm_compute. done.
  - vm_compute. done.
  - exists s'. exact E.
Defined.
