(* ===== verification/Font.v ===== *)
(** * kernel/drivers/font.h: the bitmap font

    16 bytes per character, one bit per pixel, for the characters 32 to
    126.  The table is the source's, one character per line; the 16 bytes of
    a character are the digits of one hexadecimal number, the top row
    first. *)
From S2P Require Import Prelude.

Definition FONT_WIDTH : Z := 8.

Definition FONT_HEIGHT : Z := 16.

Definition FONT_FIRST_CHAR : Z := 32.

Definition FONT_LAST_CHAR : Z := 126.

(** The rows of a character, from the number they make *)
Definition glyph_rows (n : Z) : list Z :=
  map (fun i => Z.land (Z.shiftr n (8 * (15 - i))) 255) (seqZ 0 FONT_HEIGHT).

Definition font_data : list (list Z) := map glyph_rows [
  0x00000000000000000000000000000000;
  0x0000183C3C3C18181800181800000000;
  0x00666666660000000000000000000000;
  0x00006666FF6666FF6666000000000000;
  0x00183E60603C06067C18000000000000;
  0x000063660C183066C600000000000000;
  0x0000386C6C3876DCCC76000000000000;
  0x00303030600000000000000000000000;
  0x00000C183030303030180C0000000000;
  0x000030180C0C0C0C0C18300000000000;
  0x000000663CFF3C660000000000000000;
  0x00000018187E18180000000000000000;
  0x00000000000000001818183000000000;
  0x00000000007E00000000000000000000;
  0x00000000000000001818000000000000;
  0x000003060C183060C000000000000000;
  0x00003C666E766666663C000000000000;
  0x0000183818181818187E000000000000;
  0x00003C66060C1830607E000000000000;
  0x00003C66061C0606663C000000000000;
  0x00000C1C3C6CCCFE0C0C000000000000;
  0x00007E60607C0606663C000000000000;
  0x00003C66607C6666663C000000000000;
  0x00007E06060C18303030000000000000;
  0x00003C66663C6666663C000000000000;
  0x00003C6666663E06663C000000000000;
  0x00000018180000001818000000000000;
  0x00000018180000001818183000000000;
  0x0000060C1830180C0600000000000000;
  0x000000007E007E000000000000000000;
  0x00006030180C18306000000000000000;
  0x00003C66060C18180018180000000000;
  0x00003C666E6E6E60663C000000000000;
  0x0000183C6666667E6666000000000000;
  0x00007C66667C6666667C000000000000;
  0x00003C6660606060663C000000000000;
  0x0000786C666666666C78000000000000;
  0x00007E60607C6060607E000000000000;
  0x00007E60607C60606060000000000000;
  0x00003C6660606E66663E000000000000;
  0x00006666667E66666666000000000000;
  0x00003C1818181818183C000000000000;
  0x00001E0606060606663C000000000000;
  0x0000666C7870786C6666000000000000;
  0x0000606060606060607E000000000000;
  0x0000C6EEFEFED6C6C6C6000000000000;
  0x000066767E7E6E666666000000000000;
  0x00003C6666666666663C000000000000;
  0x00007C6666667C606060000000000000;
  0x00003C666666666E3C06000000000000;
  0x00007C6666667C6C6666000000000000;
  0x00003C66603C0606663C000000000000;
  0x00007E18181818181818000000000000;
  0x0000666666666666663C000000000000;
  0x00006666666666663C18000000000000;
  0x0000C6C6C6C6D6FE6C6C000000000000;
  0x000066663C183C666666000000000000;
  0x00006666663C18181818000000000000;
  0x00007E060C183060607E000000000000;
  0x00003C3030303030303C000000000000;
  0x0000C06030180C060300000000000000;
  0x00003C0C0C0C0C0C0C3C000000000000;
  0x00183C66000000000000000000000000;
  0x0000000000000000000000007E000000;
  0x0030180C000000000000000000000000;
  0x000000003C063E66663E000000000000;
  0x000060607C666666667C000000000000;
  0x000000003C666060663C000000000000;
  0x000006063E666666663E000000000000;
  0x000000003C667E60663C000000000000;
  0x00001C307C3030303030000000000000;
  0x000000003E666666663E06663C000000;
  0x000060607C6666666666000000000000;
  0x0000181800381818183C000000000000;
  0x00000606000E0606060666663C000000;
  0x00006060666C78786C66000000000000;
  0x0000381818181818183C000000000000;
  0x000000006CFED6D6D6C6000000000000;
  0x000000007C6666666666000000000000;
  0x000000003C666666663C000000000000;
  0x000000007C666666667C606060000000;
  0x000000003E666666663E060606000000;
  0x000000007C6666606060000000000000;
  0x000000003E603C06067C000000000000;
  0x000030307C303030301C000000000000;
  0x0000000066666666663E000000000000;
  0x00000000666666663C18000000000000;
  0x00000000C6C6D6D66C6C000000000000;
  0x00000000663C18183C66000000000000;
  0x0000000066666666663E06663C000000;
  0x000000007E0C1830607E000000000000;
  0x00000E181830603018180E0000000000;
  0x00001818181818181818000000000000;
  0x00007018180C060C1818700000000000;
  0x0000000073FECE000000000000000000].
