(* ===== verification/Serial.v ===== *)
(** * kernel/drivers/serial.c: the serial log

    Output goes to COM1 one byte at a time; the state is the list of port
    writes made so far.  The transmitter's ready bit is polled before each
    byte; the model is of the writes that follow.  Numbers are formatted
    into a buffer on the stack, by the code that screen.c repeats for the
    screen. *)
From S2P Require Import Prelude Bytes.

Module Serial.

Definition COM1 : Z := 1016.

(** [outb] in order of execution: port and value *)
Abbreviation trace := (list (Z * Z)).

Definition outb (o : trace) (port v : Z) : trace := o ++ [(port, u8 v)].

Definition init_serial (o : trace) : trace :=
  let o := outb o (COM1 + 1) 0 in
  let o := outb o (COM1 + 3) 128 in
  let o := outb o (COM1 + 0) 1 in
  let o := outb o (COM1 + 1) 0 in
  let o := outb o (COM1 + 3) 3 in
  let o := outb o (COM1 + 2) 199 in
  outb o (COM1 + 4) 11.

Definition serial_write_char_impl (o : trace) (c : Z) : trace :=
  let o := if c =? 10 then outb o COM1 13 else o in
  outb o COM1 c.

Definition serial_write_char (o : trace) (c : Z) : trace := serial_write_char_impl o c.

(** A C string is the list of its bytes before the NUL. *)
Definition serial_write_string (o : trace) (str : list Z) : trace :=
  fold_left serial_write_char_impl str o.

(** The bytes of a buffer before its first NUL *)
Fixpoint until_nul (l : list Z) : list Z :=
  match l with
  | [] => []
  | c :: r => if c =? 0 then [] else c :: until_nul r
  end.

Definition hex_char (nibble : Z) : Z := if nibble <? 10 then 48 + nibble else 65 + nibble - 10.

(** [char hex[11]] after the loop *)
Definition hex_buf (num : Z) : list Z :=
  fst (for_up 8 9 (-1)
         (fun i '(hex, num) => (set_byte hex i (hex_char (Z.land num 15)), Z.shiftr num 4))
         ([48; 120; 0; 0; 0; 0; 0; 0; 0; 0; 0], num)).

Definition serial_write_hex (o : trace) (num : Z) : trace :=
  fold_left serial_write_char_impl (until_nul (hex_buf num)) o.

(** [while (num && i > 0)]: the final [i] and [buf] *)
Fixpoint int_loop (i : nat) (num : Z) (buf : list Z) : nat * list Z :=
  match i with
  | O => (O, buf)
  | S i' =>
      if num =? 0 then (i, buf)
      else int_loop i' (num / 10) (set_byte buf (Z.of_nat i') (48 + num mod 10))
  end.

(** The string [buf + i] after the loop *)
Definition int_string (num : Z) : list Z :=
  let '(i, buf) := int_loop 11 num (replicate 12 0) in until_nul (drop i buf).

Definition serial_write_int (o : trace) (num : Z) : trace :=
  if num =? 0 then serial_write_char_impl o 48
  else fold_left serial_write_char_impl (int_string num) o.

(** ** What the numbers read as *)

(** The value of a string of digits in base [b] *)
Definition digits_value (b : Z) (dig : Z -> Z) (l : list Z) : Z :=
  fold_left (fun a c => b * a + dig c) l 0.

Definition dec_digit (c : Z) : Z := c - 48.

Definition hex_digit (c : Z) : Z := if c <? 65 then c - 48 else c - 55.

Lemma until_nul_app (l r : list Z) :
  Forall (fun c => c <> 0) l -> until_nul (l ++ r) = l ++ until_nul r.
Proof.
  induction 1 as [|c l Hc _ IH]; [done|]. cbn [app until_nul].
  by rewrite (proj2 (Z.eqb_neq _ _) Hc), IH.
Qed.

Lemma until_nul_all (l : list Z) : Forall (fun c => c <> 0) l -> until_nul l = l.
Proof. intros H. rewrite <- (app_nil_r l) at 1. by rewrite until_nul_app, app_nil_r. Qed.

Lemma digits_value_snoc (b : Z) (dig : Z -> Z) (l : list Z) (c : Z) :
  digits_value b dig (l ++ [c]) = b * digits_value b dig l + dig c.
Proof. unfold digits_value. by rewrite fold_left_app. Qed.

(** The digits the loop leaves in front of what [buf] held from [i] on *)
Lemma int_loop_spec (i : nat) (num : Z) (buf : list Z) :
  (i <= length buf)%nat -> 0 <= num < 10 ^ Z.of_nat i ->
  exists ds, let '(j, buf') := int_loop i num buf in
    drop j buf' = ds ++ drop i buf /\ (length ds <= i)%nat /\
    Forall (fun c => 48 <= c <= 57) ds /\ digits_value 10 dec_digit ds = num /\
    head ds <> Some 48.
Proof.
  revert num buf; induction i as [|i IH]; intros num buf Hi Hn.
  { exists []. cbn [int_loop]. change (10 ^ Z.of_nat 0) with 1 in Hn.
    repeat split; [simpl; lia|constructor|unfold digits_value; simpl; lia|done]. }
  cbn [int_loop]. destruct (Z.eqb_spec num 0) as [->|Hz].
  { exists []. repeat split; [simpl; lia|constructor|done]. }
  assert (H10 : 10 ^ Z.of_nat (S i) = 10 * 10 ^ Z.of_nat i).
  { rewrite Nat2Z.inj_succ, Z.pow_succ_r by lia. done. }
  destruct (IH (num / 10) (set_byte buf (Z.of_nat i) (48 + num mod 10))) as [ds Hd];
    [rewrite length_set_byte; lia|div_mod_lia|].
  destruct (int_loop i _ _) as [j buf']. destruct Hd as (E & Hl & Hf & Hv & Hh).
  assert (Hm : 0 <= num mod 10 < 10) by (apply Z.mod_pos_bound; lia).
  assert (Eb : drop i (set_byte buf (Z.of_nat i) (48 + num mod 10)) = (48 + num mod 10) :: drop (S i) buf).
  { unfold set_byte. rewrite Nat2Z.id, (u8_small (48 + _)) by lia.
    rewrite (drop_S _ (48 + num mod 10) i) by (rewrite list_lookup_insert_eq; [done|lia]).
    f_equal. apply drop_insert_lt. lia. }
  rewrite Eb in E. exists (ds ++ [48 + num mod 10]).
  rewrite E, <- app_assoc. split; [done|]. rewrite length_app. split; [simpl; lia|].
  split; [apply Forall_app; split; [done|constructor; [lia|done]]|].
  rewrite digits_value_snoc, Hv. unfold dec_digit. split; [div_mod_lia|].
  destruct ds as [|d ds]; [|exact Hh]. cbn in Hv |- *. intros [= He].
  assert (num / 10 = 0) by (symmetry; exact Hv). div_mod_lia.
Qed.

(** [print_int] and [serial_write_int]: a number's decimal digits without
    leading zeros. *)
Lemma int_string_spec (num : Z) :
  0 < num < 4294967296 ->
  Forall (fun c => 48 <= c <= 57) (int_string num) /\
  digits_value 10 dec_digit (int_string num) = num /\ head (int_string num) <> Some 48.
Proof.
  intros Hn. unfold int_string.
  destruct (int_loop_spec 11 num (replicate 12 0) ltac:(simpl; lia)) as [ds Hd];
    [change (10 ^ Z.of_nat 11) with 100000000000; lia|].
  destruct (int_loop 11 num (replicate 12 0)) as [j buf]. destruct Hd as (E & _ & Hf & Hv & Hh).
  rewrite E. change (drop 11 (replicate 12 0)) with [0].
  rewrite until_nul_app by (eapply Forall_impl; [exact Hf|intros; simpl in *; lia]).
  cbn [until_nul Z.eqb]. by rewrite app_nil_r.
Qed.

(** ** Hexadecimal *)

Definition nibble (num k : Z) : Z := (num / 16 ^ k) mod 16.

Lemma hex_char_range (n : Z) : 0 <= n < 16 -> 48 <= hex_char n <= 70 /\ hex_digit (hex_char n) = n.
Proof. intros. unfold hex_char, hex_digit. repeat (zcase; try lia). Qed.

Lemma hex_buf_spec (num : Z) :
  hex_buf num = [48; 120] ++ map (fun k => hex_char (nibble num k)) [7; 6; 5; 4; 3; 2; 1; 0] ++ [0].
Proof.
  assert (Hd : forall x k, 0 <= k -> nibble (Z.shiftr x 4) k = nibble x (k + 1)).
  { intros x k Hk. unfold nibble. rewrite Z.shiftr_div_pow2 by lia.
    rewrite Z.div_div, Z.pow_add_r by lia. do 2 f_equal. lia. }
  assert (H0 : forall x, u8 (hex_char (Z.land x 15)) = hex_char (nibble x 0)).
  { intros x. unfold nibble. change (16 ^ 0) with 1. rewrite Z.div_1_r.
    change 15 with (Z.ones 4). rewrite Z.land_ones by lia. change (2 ^ 4) with 16.
    apply u8_small. destruct (hex_char_range (x mod 16)); [apply Z.mod_pos_bound|]; lia. }
  unfold hex_buf, set_byte. cbn [for_up fst]. rewrite !H0, !Hd by lia. reflexivity.
Qed.

Lemma hex_string_spec (num : Z) :
  0 <= num < 4294967296 ->
  exists ds, until_nul (hex_buf num) = [48; 120] ++ ds /\ length ds = 8%nat /\
    Forall (fun c => 48 <= c <= 70) ds /\ digits_value 16 hex_digit ds = num.
Proof.
  intros Hn. exists (map (fun k => hex_char (nibble num k)) [7; 6; 5; 4; 3; 2; 1; 0]).
  assert (Hm : forall k, 0 <= nibble num k < 16) by (intros; apply Z.mod_pos_bound; lia).
  assert (Hr : Forall (fun c => 48 <= c <= 70)
                 (map (fun k => hex_char (nibble num k)) [7; 6; 5; 4; 3; 2; 1; 0])).
  { apply Forall_map, Forall_true. intros k. by destruct (hex_char_range _ (Hm k)). }
  split; [|split; [done|split; [done|]]].
  - rewrite hex_buf_spec, app_assoc, until_nul_app; [by rewrite app_nil_r|].
    apply Forall_app; split; [repeat constructor; lia|].
    eapply Forall_impl; [exact Hr|]. intros c. simpl. lia.
  - unfold digits_value. cbn [map fold_left].
    rewrite !(proj2 (hex_char_range _ (Hm _))). unfold nibble.
    change (16 ^ 0) with 1. change (16 ^ 1) with 16. change (16 ^ 2) with 256. change (16 ^ 3) with 4096.
    change (16 ^ 4) with 65536. change (16 ^ 5) with 1048576. change (16 ^ 6) with 16777216.
    change (16 ^ 7) with 268435456. clear Hm. div_mod_lia.
Qed.

End Serial.
