(* ===== verification/Graphics.v ===== *)
(** * kernel/drivers/graphics.c: drawing into the linear frame buffer

    The frame buffer is [fb_height] rows of [fb_pitch] bytes at [lfb_ptr], a
    pixel being three or four bytes.  The drawing routines write to [memory]
    through pointers, as the source does; coordinates are C [int]s.

    Their effect is described by pixels: [painted g m m' f] says that
    exactly the pixels for which [f] gives a colour have changed, to that
    colour, and that nothing outside the frame buffer has. *)
From S2P Require Import Prelude Bytes Memory Lib Font.

Module Graphics.

Record gfx := mkGfx {
  lfb_ptr : Z; fb_active : bool;
  fb_width : Z; fb_height : Z; fb_pitch : Z; fb_bpp : Z; fb_bpp_bytes : Z
}.

Definition pixel_write (g : gfx) (m : memory) (p color : Z) : memory :=
  let m := store8 m p (Z.land color 255) in
  let m := store8 m (p + 1) (Z.land (Z.shiftr color 8) 255) in
  let m := store8 m (p + 2) (Z.land (Z.shiftr color 16) 255) in
  if fb_bpp_bytes g =? 4 then store8 m (p + 3) (Z.land (Z.shiftr color 24) 255) else m.

Definition init_graphics (lfb width height pitch bpp : Z) : gfx :=
  mkGfx lfb true width height pitch bpp (bpp / 8).

(** [lfb_ptr + y * fb_pitch + x * fb_bpp_bytes] *)
Definition pixel_addr (g : gfx) (x y : Z) : Z :=
  u32 (lfb_ptr g + y * fb_pitch g + x * fb_bpp_bytes g).

Definition draw_pixel (g : gfx) (m : memory) (x y color : Z) : memory :=
  if (x <? 0) || (fb_width g <=? x) || (y <? 0) || (fb_height g <=? y) then m
  else pixel_write g m (pixel_addr g x y) color.

Definition fill_rect (g : gfx) (m : memory) (x y w h color : Z) : memory :=
  for_up (Z.to_nat (Z.min (i32 (y + h)) (fb_height g) - y)) y 1 (fun row m =>
    let p := pixel_addr g x row in
    let max_col := i32 (x + w) in
    let max_col := if fb_width g <? max_col then fb_width g else max_col in
    snd (for_up (Z.to_nat (max_col - x)) x 1
           (fun _ '(p, m) => (u32 (p + fb_bpp_bytes g), pixel_write g m p color)) (p, m))) m.

Definition char_row (c row : Z) : Z :=
  let c := if (c <? FONT_FIRST_CHAR) || (FONT_LAST_CHAR <? c) then 63 else c in
  byte_at (default [] (font_data !! Z.to_nat (c - FONT_FIRST_CHAR))) row.

Definition draw_char_gfx (g : gfx) (m : memory) (x y c fg bg : Z) : memory :=
  for_up (Z.to_nat FONT_HEIGHT) 0 1 (fun row m =>
    let bits := char_row c row in
    let p := pixel_addr g x (y + row) in
    snd (for_up (Z.to_nat FONT_WIDTH) 0 1
           (fun col '(p, m) =>
              (u32 (p + fb_bpp_bytes g),
               if negb (Z.land bits (Z.shiftr 128 col) =? 0) then pixel_write g m p fg
               else if negb (bg =? 4294967295) then pixel_write g m p bg
               else m)) (p, m))) m.

Definition scroll_gfx (g : gfx) (m : memory) (lines : Z) : memory :=
  if (lines <=? 0) || (fb_height g <=? u32 (lines * FONT_HEIGHT))
  then fill_rect g m 0 0 (fb_width g) (fb_height g) 0
  else
    let pixel_lines := lines * FONT_HEIGHT in
    let src := u32 (lfb_ptr g + pixel_lines * fb_pitch g) in
    let copy_bytes := (fb_height g - pixel_lines) * fb_pitch g in
    let m := for_up (Z.to_nat copy_bytes) 0 1
               (fun i m => store8 m (lfb_ptr g + i) (load8 m (src + i))) m in
    fill_rect g m 0 (fb_height g - pixel_lines) (fb_width g) pixel_lines 0.

(** ** Pixels *)

(** A frame buffer as the boot loader hands it over *)
Record fb_ok (g : gfx) : Prop := {
  ok_bytes : fb_bpp_bytes g = 3 \/ fb_bpp_bytes g = 4;
  ok_width : 0 < fb_width g < 65536;
  ok_height : 0 < fb_height g < 65536;
  ok_pitch : fb_width g * fb_bpp_bytes g <= fb_pitch g < 65536;
  ok_lfb : 0 <= lfb_ptr g;
  ok_end : lfb_ptr g + fb_height g * fb_pitch g <= 4294967296
}.

Definition on_screen (g : gfx) (x y : Z) : Prop := 0 <= x < fb_width g /\ 0 <= y < fb_height g.

Definition pixel (g : gfx) (m : memory) (x y : Z) : list Z :=
  load_bytes m (lfb_ptr g + y * fb_pitch g + x * fb_bpp_bytes g) (fb_bpp_bytes g).

Definition color_bytes (g : gfx) (color : Z) : list Z :=
  map (fun k => (color / 256 ^ k) mod 256) (seqZ 0 (fb_bpp_bytes g)).

Definition outside_fb (g : gfx) (a : Z) : Prop :=
  a < lfb_ptr g \/ lfb_ptr g + fb_height g * fb_pitch g <= a.

Record painted (g : gfx) (m m' : memory) (f : Z -> Z -> option Z) : Prop := {
  painted_pixel x y : on_screen g x y ->
    pixel g m' x y = match f x y with Some c => color_bytes g c | None => pixel g m x y end;
  painted_outside : mem_same m m' (outside_fb g)
}.

Section drawing.

Context (g : gfx) (Hg : fb_ok g).

Let bytes := fb_bpp_bytes g.
Let pitch := fb_pitch g.

Lemma bytes_bounds : 3 <= bytes <= 4.
Proof. subst bytes. destruct (ok_bytes g Hg); lia. Qed.

Lemma row_bounds (x : Z) : 0 <= x < fb_width g -> 0 <= x * bytes /\ x * bytes + bytes <= pitch.
Proof.
  pose proof bytes_bounds. pose proof (ok_pitch g Hg) as Hp. fold bytes pitch in Hp. nia.
Qed.

Lemma pixel_addr_on (x y : Z) :
  0 <= x <= fb_width g -> 0 <= y < fb_height g -> x < fb_width g ->
  pixel_addr g x y = lfb_ptr g + y * pitch + x * bytes /\
  lfb_ptr g <= lfb_ptr g + y * pitch + x * bytes /\
  lfb_ptr g + y * pitch + x * bytes + bytes <= lfb_ptr g + fb_height g * pitch.
Proof.
  intros Hx Hy Hw. destruct (row_bounds x ltac:(lia)). pose proof bytes_bounds.
  pose proof (ok_lfb g Hg). pose proof (ok_end g Hg) as He. fold pitch in He.
  assert (y * pitch + pitch <= fb_height g * pitch) by nia.
  assert (0 <= y * pitch) by nia.
  split; [|lia]. unfold pixel_addr. fold bytes pitch. apply u32_small. lia.
Qed.

(** Two pixels on the screen have disjoint bytes. *)
Lemma pixels_apart (x y x' y' : Z) :
  on_screen g x y -> on_screen g x' y' -> x <> x' \/ y <> y' ->
  y * pitch + x * bytes + bytes <= y' * pitch + x' * bytes \/
  y' * pitch + x' * bytes + bytes <= y * pitch + x * bytes.
Proof.
  intros [Hx Hy] [Hx' Hy'] Hne.
  destruct (row_bounds x Hx), (row_bounds x' Hx'). pose proof bytes_bounds.
  destruct (Z.lt_trichotomy y y') as [?|[->|?]].
  - left. assert (y * pitch + pitch <= y' * pitch) by nia. lia.
  - destruct (Z.lt_trichotomy x x') as [?|[?|?]]; [left|lia|right]; nia.
  - right. assert (y' * pitch + pitch <= y * pitch) by nia. lia.
Qed.

Lemma byte_shift (color k : Z) : 0 <= k -> u8 (Z.land (Z.shiftr color (8 * k)) 255) = (color / 256 ^ k) mod 256.
Proof.
  intros. change 255 with (Z.ones 8). rewrite Z.land_ones, Z.shiftr_div_pow2 by lia.
  rewrite Z.pow_mul_r by lia. unfold u8. apply Zmod_mod.
Qed.

Lemma pixel_write_bytes (m : memory) (p color : Z) :
  load_bytes (pixel_write g m p color) p bytes = color_bytes g color /\
  mem_same m (pixel_write g m p color) (fun a => a < p \/ p + bytes <= a).
Proof.
  assert (E0 : u8 (Z.land color 255) = (color / 256 ^ 0) mod 256).
  { rewrite <- byte_shift by lia. done. }
  assert (E1 := byte_shift color 1 ltac:(lia)). assert (E2 := byte_shift color 2 ltac:(lia)).
  assert (E3 := byte_shift color 3 ltac:(lia)).
  change (8 * 1) with 8 in E1. change (8 * 2) with 16 in E2. change (8 * 3) with 24 in E3.
  unfold pixel_write, color_bytes, load_bytes. subst bytes.
  split.
  - destruct (ok_bytes g Hg) as [-> | ->];
      [change (seqZ 0 3) with [0; 1; 2]; change (seqZ p 3) with [0 + p; 1 + p; 2 + p]
      |change (seqZ 0 4) with [0; 1; 2; 3]; change (seqZ p 4) with [0 + p; 1 + p; 2 + p; 3 + p]];
      rewrite !(Z.add_comm _ p), Z.add_0_r; cbn [Z.eqb Pos.eqb map]; rewrite <- E0, <- E1, <- E2, <- ?E3;
      repeat first [rewrite load8_store8_eq | rewrite load8_store8_ne by lia]; done.
  - intros a Ha. destruct (ok_bytes g Hg) as [Hb|Hb]; rewrite Hb in *; cbn [Z.eqb Pos.eqb];
      rewrite !load8_store8_ne by lia; done.
Qed.

(** *** Composing paintings *)

Lemma painted_refl (m : memory) : painted g m m (fun _ _ => None).
Proof. split; [done|by intros a _]. Qed.

Lemma painted_trans (m1 m2 m3 : memory) (f h : Z -> Z -> option Z) :
  painted g m1 m2 f -> painted g m2 m3 h ->
  painted g m1 m3 (fun x y => match h x y with Some c => Some c | None => f x y end).
Proof.
  intros [Hf Hof] [Hh Hoh]. split.
  - intros x y Hxy. rewrite Hh by done. destruct (h x y); [done|]. by apply Hf.
  - by eapply mem_same_trans.
Qed.

Lemma painted_ext (m m' : memory) (f h : Z -> Z -> option Z) :
  painted g m m' f -> (forall x y, on_screen g x y -> f x y = h x y) -> painted g m m' h.
Proof. intros [Hf Ho] E. split; [|done]. intros x y Hxy. rewrite <- E by done. by apply Hf. Qed.

Lemma put_pixel (m : memory) (x y c : Z) :
  on_screen g x y ->
  painted g m (pixel_write g m (pixel_addr g x y) c)
    (fun x' y' => if (x' =? x) && (y' =? y) then Some c else None).
Proof.
  intros [Hx Hy]. destruct (pixel_addr_on x y ltac:(lia) Hy ltac:(lia)) as (E & Hlo & Hhi).
  rewrite E. destruct (pixel_write_bytes m (lfb_ptr g + y * pitch + x * bytes) c) as [Hb Hs].
  split.
  - intros x' y' Hxy. destruct ((x' =? x) && (y' =? y)) eqn:Eb.
    + zbool. subst x' y'. exact Hb.
    + apply load_bytes_ext. intros i Hi. apply Hs.
      assert (x <> x' \/ y <> y') by (apply andb_false_iff in Eb as [?|?]; zbool; lia).
      fold bytes pitch in Hi |- *.
      destruct (pixels_apart x y x' y' (conj Hx Hy) Hxy); lia.
  - intros a Ha. apply Hs. unfold outside_fb in Ha. fold pitch in Ha. lia.
Qed.

(** The loop over the columns of a row: column [col] gets [paint col]. *)
Lemma row_loop (paint : Z -> option Z) (body : Z -> Z -> memory -> memory) :
  (forall col p m, body col p m = match paint col with Some c => pixel_write g m p c | None => m end) ->
  forall (n : nat) (m : memory) (x y i : Z),
  0 <= x -> x + Z.of_nat n <= fb_width g -> 0 <= y < fb_height g ->
  painted g m (snd (for_up n i 1 (fun col '(p, m) => (u32 (p + fb_bpp_bytes g), body col p m))
                      (pixel_addr g x y, m)))
    (fun x' y' => if (y' =? y) && (x <=? x') && (x' <? x + Z.of_nat n) then paint (i + (x' - x)) else None).
Proof.
  intros Hb n. induction n as [|n IH]; intros m x y i Hx Hn Hy; cbn [for_up].
  { eapply painted_ext; [apply painted_refl|]. intros x' y' _. cbv beta. repeat (zcase; try lia); done. }
  replace (u32 (pixel_addr g x y + fb_bpp_bytes g)) with (pixel_addr g (x + 1) y)
    by (unfold pixel_addr, u32; rewrite Zplus_mod_idemp_l; f_equal; lia).
  eapply painted_ext.
  { eapply painted_trans; [|apply IH; lia].
    instantiate (1 := fun x' y' => if (x' =? x) && (y' =? y) then paint i else None).
    rewrite Hb. destruct (paint i) as [c|].
    - apply put_pixel. split; lia.
    - eapply painted_ext; [apply painted_refl|]. intros. cbv beta. by destruct (_ && _). }
  intros x' y' _. cbv beta. destruct (Z.eqb_spec y' y); [|by rewrite !andb_false_r]. rewrite !andb_true_r, !andb_true_l.
  destruct (Z.eqb_spec x' x) as [->|].
  - repeat (zcase; try lia); simpl. f_equal; lia.
  - replace (i + 1 + (x' - (x + 1))) with (i + (x' - x)) by lia.
    repeat (zcase; try lia); simpl; try done; by destruct (paint (i + (x' - x))).
Qed.

(** The loop over rows: the row at [i + d] gets [h] in iteration [i]. *)
Lemma rows_loop (h : Z -> Z -> option Z) (F : Z -> memory -> memory) (d : Z) (n : nat) (m : memory) (i : Z) :
  (forall k m, i <= k < i + Z.of_nat n ->
     painted g m (F k m) (fun x' y' => if y' =? k + d then h x' y' else None)) ->
  painted g m (for_up n i 1 F m)
    (fun x' y' => if (i + d <=? y') && (y' <? i + d + Z.of_nat n) then h x' y' else None).
Proof.
  revert m i; induction n as [|n IH]; intros m i HF; cbn [for_up].
  { eapply painted_ext; [apply painted_refl|]. intros x' y' _. cbv beta. repeat (zcase; try lia); done. }
  eapply painted_ext.
  { eapply painted_trans; [apply (HF i m); lia|]. apply IH. intros k m' Hk. apply HF. lia. }
  intros x' y' _. cbv beta. destruct (Z.eqb_spec y' (i + d)) as [->|];
    repeat (zcase; try lia); simpl; try done; by destruct (h x' y').
Qed.

Lemma fill_rect_painted (m : memory) (x y w h color : Z) :
  0 <= x -> 0 <= y -> x + w < 2147483648 -> y + h < 2147483648 -> 0 <= w -> 0 <= h ->
  painted g m (fill_rect g m x y w h color)
    (fun x' y' => if (x <=? x') && (x' <? x + w) && (y <=? y') && (y' <? y + h) then Some color else None).
Proof.
  intros Hx Hy Hxw Hyh Hw Hh. unfold fill_rect.
  rewrite !i32_small by lia. pose proof (ok_height g Hg). pose proof (ok_width g Hg).
  eapply painted_ext.
  { apply (rows_loop (fun x' _ => if (x <=? x') && (x' <? x + w) then Some color else None) _ 0).
    intros k m' Hk. set (mc := if fb_width g <? x + w then fb_width g else x + w).
    assert (Hmc : mc = Z.min (x + w) (fb_width g)) by (subst mc; zcase; lia).
    destruct (Z.le_gt_cases mc x) as [Hle|Hgt].
    - replace (Z.to_nat (mc - x)) with 0%nat by lia. cbn [for_up snd].
      eapply painted_ext; [apply painted_refl|]. intros x' y' [Hx' _]. cbv beta.
      repeat (zcase; try lia); done.
    - eapply painted_ext.
      { apply (row_loop (fun _ => Some color) (fun _ p m => pixel_write g m p color));
          [done|lia|lia|]. rewrite Z2Nat.id in Hk by lia. lia. }
      intros x' y' [Hx' _]. cbv beta. rewrite !Z2Nat.id by lia.
      repeat (zcase; try lia); done. }
  intros x' y' [_ Hy']. cbv beta. repeat (zcase; try lia); done.
Qed.

(** The colour of a pixel of a glyph, column 0 being the highest bit *)
Definition glyph_bit (c row col : Z) : bool := Z.testbit (char_row c row) (7 - col).

Lemma glyph_mask (bits col : Z) :
  0 <= col < 8 -> negb (Z.land bits (Z.shiftr 128 col) =? 0) = Z.testbit bits (7 - col).
Proof.
  intros H. replace (Z.shiftr 128 col) with (2 ^ (7 - col)).
  - rewrite land_pow2 by lia. assert (0 < 2 ^ (7 - col)) by (apply Z.pow_pos_nonneg; lia).
    destruct (Z.testbit bits (7 - col)); [|done].
    destruct (Z.eqb_spec (2 ^ (7 - col)) 0); [lia|done].
  - rewrite Z.shiftr_div_pow2 by lia. change 128 with (2 ^ 7). rewrite <- Z.pow_sub_r by lia. done.
Qed.

Lemma draw_char_painted (m : memory) (x y c fg bg : Z) :
  0 <= x -> x + FONT_WIDTH <= fb_width g -> 0 <= y -> y + FONT_HEIGHT <= fb_height g -> bg <> 4294967295 ->
  painted g m (draw_char_gfx g m x y c fg bg)
    (fun x' y' => if (x <=? x') && (x' <? x + FONT_WIDTH) && (y <=? y') && (y' <? y + FONT_HEIGHT)
                  then Some (if glyph_bit c (y' - y) (x' - x) then fg else bg) else None).
Proof.
  intros Hx Hxw Hy Hyh Hbg. unfold draw_char_gfx.
  eapply painted_ext.
  { apply (rows_loop (fun x' y' => if (x <=? x') && (x' <? x + FONT_WIDTH)
             then Some (if glyph_bit c (y' - y) (x' - x) then fg else bg) else None) _ y).
    intros k m' Hk. unfold FONT_HEIGHT in *. change (Z.of_nat (Z.to_nat 16)) with 16 in Hk.
    set (bits := char_row c k).
    pose proof (row_loop
      (fun col => if negb (Z.land bits (Z.shiftr 128 col) =? 0) then Some fg
                  else if negb (bg =? 4294967295) then Some bg else None)
      (fun col p m => if negb (Z.land bits (Z.shiftr 128 col) =? 0) then pixel_write g m p fg
               else if negb (bg =? 4294967295) then pixel_write g m p bg else m)) as Hrow.
    eapply painted_ext.
    { apply Hrow; [|done|unfold FONT_WIDTH in *; lia|lia].
      intros col p m0. by repeat case_match. }
    intros x' y' _. cbv beta. unfold FONT_WIDTH. change (Z.of_nat (Z.to_nat 8)) with 8.
    replace (y + k =? y') with (y' =? k + y) by (repeat zcase; lia).
    destruct (Z.eqb_spec y' (y + k)) as [->|Hne].
    - rewrite (proj2 (Z.eqb_eq _ _) (Z.add_comm y k)). rewrite andb_true_l.
      destruct ((x <=? x') && (x' <? x + 8)) eqn:Ec; [|done]. zbool.
      rewrite glyph_mask by lia. rewrite (proj2 (Z.eqb_neq bg _) Hbg). cbn [negb].
      unfold glyph_bit. replace (y + k - y) with k by lia. fold bits.
      replace (7 - (0 + (x' - x))) with (7 - (x' - x)) by lia. by destruct (Z.testbit _ _).
    - rewrite (proj2 (Z.eqb_neq y' (k + y))) by lia. done. }
  intros x' y' _. cbv beta. unfold FONT_HEIGHT. change (Z.of_nat (Z.to_nat 16)) with 16.
  repeat (zcase; try lia); done.
Qed.

(** Scrolling by [lines] text lines: every pixel comes from below, the last
    lines are black. *)
Lemma scroll_gfx_pixels (m : memory) (lines x y : Z) :
  0 < lines -> lines * FONT_HEIGHT <= fb_height g -> on_screen g x y ->
  pixel g (scroll_gfx g m lines) x y =
    if y + lines * FONT_HEIGHT <? fb_height g then pixel g m x (y + lines * FONT_HEIGHT) else color_bytes g 0.
Proof.
  intros Hl Hh [Hx Hy]. pose proof (ok_height g Hg) as Hht. pose proof (ok_width g Hg).
  unfold scroll_gfx, FONT_HEIGHT in *. rewrite (proj2 (Z.leb_gt lines 0)) by lia. rewrite u32_small by lia.
  cbn [orb]. destruct (Z.leb_spec (fb_height g) (lines * 16)).
  { rewrite (painted_pixel _ _ _ _ (fill_rect_painted m 0 0 (fb_width g) (fb_height g) 0
      ltac:(lia) ltac:(lia) ltac:(lia) ltac:(lia) ltac:(lia) ltac:(lia)) x y (conj Hx Hy)).
    repeat (zcase; try lia); done. }
  set (n := (fb_height g - lines * 16) * fb_pitch g). set (src := u32 _).
  set (m' := for_up _ _ _ _ _).
  rewrite (painted_pixel _ _ _ _ (fill_rect_painted m' 0 (fb_height g - lines * 16) (fb_width g) (lines * 16) 0
      ltac:(lia) ltac:(lia) ltac:(lia) ltac:(lia) ltac:(lia) ltac:(lia)) x y (conj Hx Hy)).
  assert (Hp : 0 < pitch) by (destruct (row_bounds x Hx); pose proof bytes_bounds; lia).
  pose proof (ok_lfb g Hg). pose proof (ok_end g Hg) as He. fold pitch in He.
  assert (Hsrc : src = lfb_ptr g + lines * 16 * pitch).
  { subst src. apply u32_small. fold pitch. nia. }
  destruct (Lib.lib_memcpy_spec m (lfb_ptr g) src n) as [Hc _]; [subst n; fold pitch; nia|left; nia|].
  destruct (Z.ltb_spec (y + lines * 16) (fb_height g)).
  - replace (_ && _) with false by (repeat (zcase; try lia); done).
    apply load_bytes_ext. intros i Hi. destruct (row_bounds x Hx). fold bytes pitch in Hi |- *.
    replace (lfb_ptr g + y * pitch + x * bytes + i) with (lfb_ptr g + (y * pitch + x * bytes + i)) by lia.
    subst m'. etransitivity; [apply Hc|f_equal; rewrite Hsrc; lia].
    subst n. fold pitch. assert (y * pitch + pitch <= (fb_height g - lines * 16) * pitch) by nia.
    assert (0 <= y * pitch) by nia. lia.
  - replace (_ && _) with true by (repeat (zcase; try lia); done). done.
Qed.

Lemma scroll_gfx_outside (m : memory) (lines : Z) :
  0 < lines -> lines * FONT_HEIGHT <= fb_height g ->
  mem_same m (scroll_gfx g m lines) (outside_fb g).
Proof.
  intros Hl Hh. pose proof (ok_height g Hg) as Hht. pose proof (ok_width g Hg).
  unfold scroll_gfx, FONT_HEIGHT in *. rewrite u32_small by lia.
  case_match eqn:Hc; [apply fill_rect_painted; lia|]. zbool.
  eapply mem_same_trans; [|apply fill_rect_painted; lia].
  pose proof (ok_pitch g Hg). pose proof bytes_bounds. subst bytes.
  assert (Hp : 0 <= pitch) by (subst pitch; nia).
  set (n := (fb_height g - lines * 16) * fb_pitch g). set (src := u32 _).
  destruct (Lib.lib_memcpy_spec m (lfb_ptr g) src n) as [_ Hs].
  { subst n. fold pitch. nia. }
  { left. pose proof (ok_lfb g Hg). pose proof (ok_end g Hg) as He. fold pitch in He.
    assert (0 < pitch) by (subst pitch; nia).
    assert (lines * 16 * pitch < fb_height g * pitch) by (apply Zmult_lt_compat_r; lia).
    assert (0 <= lines * 16 * pitch) by (apply Z.mul_nonneg_nonneg; lia).
    subst src. rewrite u32_small by (fold pitch; lia). fold pitch. lia. }
  eapply mem_same_weaken; [exact Hs|]. intros a Ha. unfold outside_fb in Ha. fold pitch in Ha.
  assert (n <= fb_height g * pitch) by (subst n; apply Z.mul_le_mono_nonneg_r; [exact Hp|lia]).
  cbv beta. lia.
Qed.

End drawing.
End Graphics.
