(* ===== verification/Screen.v ===== *)
(** * kernel/drivers/screen.c: the console

    Characters go to the VGA text buffer at 0xB8000, or to the frame buffer
    when graphics are active, or, while a command's output is captured, to a
    4 KB buffer.  Video memory is part of byte [memory], because the cursor
    that addresses it is not checked by [set_cursor].  [hw_cursor] is the
    position held by the two cursor registers of the VGA controller.  A
    [char] is its byte; the comparison [c >= ' '] is on signed characters,
    so it is false for bytes from 128.  [screen_lock] covers each public
    routine, which is one step. *)
From S2P Require Import Prelude Bytes Memory Font Graphics Serial.

Module Screen.
Import Graphics Serial.

Definition VIDEO_MEMORY : Z := 753664.

Definition MAX_ROWS : Z := 25.

Definition MAX_COLS : Z := 80.

Definition WHITE_ON_BLACK : Z := 15.

Definition GFX_FG : Z := 12632256.

Definition GFX_BG : Z := 0.

Definition CAPTURE_SIZE : Z := 4096.

Record screen := mkScreen {
  cursor_x : Z; cursor_y : Z;
  capture_mode : bool; capture_buf : list Z; capture_pos : Z;
  hw_cursor : Z; vram : memory; fb : gfx; log : trace
}.

Definition with_capture (s : screen) (on : bool) (buf : list Z) (pos : Z) : screen :=
  mkScreen (cursor_x s) (cursor_y s) on buf pos (hw_cursor s) (vram s) (fb s) (log s).

Definition with_view (s : screen) (x y : Z) (m : memory) : screen :=
  mkScreen x y (capture_mode s) (capture_buf s) (capture_pos s) (hw_cursor s) m (fb s) (log s).

Definition with_log (s : screen) (o : trace) : screen :=
  mkScreen (cursor_x s) (cursor_y s) (capture_mode s) (capture_buf s) (capture_pos s) (hw_cursor s)
    (vram s) (fb s) o.

(** ** Capturing output *)

Definition clamp_pos (pos : Z) : Z := if CAPTURE_SIZE <=? pos then CAPTURE_SIZE - 1 else pos.

Definition set_capture (s : screen) (on : bool) : screen :=
  let pos := clamp_pos (if on then 0 else capture_pos s) in
  with_capture s on (set_byte (capture_buf s) pos 0) pos.

Definition get_capture (s : screen) : list Z * screen :=
  let pos := clamp_pos (capture_pos s) in
  let buf := set_byte (capture_buf s) pos 0 in
  (until_nul buf, with_capture s (capture_mode s) buf pos).

(** [c >= ' '] for a signed [char] *)
Definition printable (c : Z) : bool := (32 <=? c) && (c <? 128).

Definition capture_char (s : screen) (c : Z) : screen :=
  if (c =? 10) || printable c then
    if capture_pos s <? CAPTURE_SIZE - 1
    then with_capture s (capture_mode s) (set_byte (capture_buf s) (capture_pos s) c) (capture_pos s + 1)
    else s
  else s.

(** ** The text buffer *)

(** The address of [video[i]] *)
Definition video (i : Z) : Z := u32 (VIDEO_MEMORY + 2 * i).

Definition blank : Z := Z.lor (Z.shiftl WHITE_ON_BLACK 8) 32.

(** [for (i = first; i < first + n; i++) video[i] = blank;] *)
Definition blank_cells (m : memory) (first n : Z) : memory :=
  for_up (Z.to_nat n) first 1 (fun i m => store16 m (video i) blank) m.

Definition set_cursor_impl (s : screen) (x y : Z) : screen :=
  mkScreen x y (capture_mode s) (capture_buf s) (capture_pos s)
    (if fb_active (fb s) then hw_cursor s else u16 (y * MAX_COLS + x)) (vram s) (fb s) (log s).

Definition clear_screen_impl (s : screen) : screen :=
  if fb_active (fb s) then
    with_view s 0 0 (fill_rect (fb s) (vram s) 0 0 (fb_width (fb s)) (fb_height (fb s)) GFX_BG)
  else
    set_cursor_impl (with_view s 0 0 (blank_cells (vram s) 0 (MAX_ROWS * MAX_COLS))) 0 0.

Definition clear_screen (s : screen) : screen := clear_screen_impl s.

Definition init_screen (s : screen) : screen := clear_screen s.

Definition set_cursor (s : screen) (x y : Z) : screen := set_cursor_impl s x y.

(** The video memory after [scroll]; it also sets [cursor_y] to the last row *)
Definition scroll (m : memory) : memory :=
  let m := for_up (Z.to_nat ((MAX_ROWS - 1) * MAX_COLS)) 0 1
             (fun i m => store16 m (video i) (load16 m (video (i + MAX_COLS)))) m in
  blank_cells m ((MAX_ROWS - 1) * MAX_COLS) MAX_COLS.

(** ** Printing a character *)

Definition text_char (s : screen) (c : Z) : screen :=
  let x := cursor_x s in
  let y := cursor_y s in
  let m := vram s in
  if c =? 13 then
    set_cursor_impl (with_view s 0 y (blank_cells m (y * MAX_COLS) MAX_COLS)) 0 y
  else
    let '(x, y, m) :=
      if c =? 10 then (0, y + 1, m)
      else if c =? 8 then (if 0 <? x then x - 1 else x, y, m)
      else if c =? 9 then (Z.land (x + 8) (Z.lnot 7), y, m)
      else (x + 1, y, store16 m (video (y * MAX_COLS + x)) (Z.lor (Z.shiftl WHITE_ON_BLACK 8) c)) in
    let '(x, y) := if MAX_COLS <=? x then (0, y + 1) else (x, y) in
    let '(y, m) := if MAX_ROWS <=? y then (MAX_ROWS - 1, scroll m) else (y, m) in
    set_cursor_impl (with_view s x y m) x y.

Definition gfx_char (s : screen) (c : Z) : screen :=
  let g := fb s in
  let x := cursor_x s in
  let y := cursor_y s in
  let m := vram s in
  let '(x, y, m) :=
    if c =? 10 then (0, y + 1, m)
    else if c =? 8 then (if 0 <? x then x - 1 else x, y, m)
    else if c =? 13 then (0, y, fill_rect g m 0 (y * FONT_HEIGHT) (fb_width g) FONT_HEIGHT GFX_BG)
    else if c =? 9 then (Z.land (x + 8) (Z.lnot 7), y, m)
    else if printable c then
      (x + 1, y, draw_char_gfx g m (x * FONT_WIDTH) (y * FONT_HEIGHT) c GFX_FG GFX_BG)
    else (x, y, m) in
  let max_cols := fb_width g / FONT_WIDTH in
  let max_rows := fb_height g / FONT_HEIGHT in
  let '(x, y) := if max_cols <=? x then (0, y + 1) else (x, y) in
  let '(y, m) := if max_rows <=? y then (max_rows - 1, scroll_gfx g m 1) else (y, m) in
  with_view s x y m.

Definition print_char_impl (s : screen) (c : Z) : screen :=
  if capture_mode s then capture_char s c
  else if fb_active (fb s) then gfx_char s c
  else text_char s c.

(** ** Printing *)

Definition print_chars (s : screen) (str : list Z) : screen := fold_left print_char_impl str s.

Definition print_char (s : screen) (c : Z) : screen := print_char_impl s c.

Definition print_string (s : screen) (str : list Z) : screen :=
  let s := if capture_mode s then s else with_log s (serial_write_string (log s) str) in
  print_chars s str.

Definition print_hex (s : screen) (num : Z) : screen :=
  print_chars (with_log s (serial_write_hex (log s) num)) (until_nul (hex_buf num)).

Definition print_int (s : screen) (num : Z) : screen :=
  if num =? 0 then print_char_impl (with_log s (serial_write_int (log s) 0)) 48
  else print_chars (with_log s (serial_write_int (log s) num)) (int_string num).

Definition get_cursor_x (s : screen) : Z := cursor_x s.

Definition get_cursor_y (s : screen) : Z := cursor_y s.

End Screen.
