(* ===== verification/ScreenProps.v ===== *)
(** * Properties of the console

    An abstract terminal: a grid of characters with a cursor, which wraps at
    the right margin and scrolls at the bottom.  [Console] is the interface
    a display offers; the text buffer and the frame buffer both implement
    it, so the same output appears on both.  Then captured output and the
    numbers. *)
From S2P Require Import Prelude Bytes Memory Font Graphics Serial Screen.

Import Graphics Serial Screen.

#[local] Opaque hex_buf int_string.

(** ** The terminal *)

Record term := mkTerm { cell : Z -> Z -> Z; col : Z; row : Z }.

Definition blank_grid : Z -> Z -> Z := fun _ _ => 32.

Definition set_cell (f : Z -> Z -> Z) (y x v : Z) : Z -> Z -> Z :=
  fun r c => if (r =? y) && (c =? x) then v else f r c.

Definition clear_row (f : Z -> Z -> Z) (y : Z) : Z -> Z -> Z := fun r c => if r =? y then 32 else f r c.

(** A terminal of [R] rows and [C] columns that displays the characters [show] *)
Section terminal.

Context (C R : Z) (show : Z -> bool).

Definition scrolled (f : Z -> Z -> Z) : Z -> Z -> Z := fun r c => if r <? R - 1 then f (r + 1) c else 32.

Definition wrap (t : term) : term :=
  let t := if C <=? col t then mkTerm (cell t) 0 (row t + 1) else t in
  if R <=? row t then mkTerm (scrolled (cell t)) (col t) (R - 1) else t.

Definition term_char (t : term) (c : Z) : term :=
  if c =? 13 then mkTerm (clear_row (cell t) (row t)) 0 (row t)
  else if c =? 10 then wrap (mkTerm (cell t) 0 (row t + 1))
  else if c =? 8 then mkTerm (cell t) (Z.max 0 (col t - 1)) (row t)
  else if c =? 9 then wrap (mkTerm (cell t) (8 * (col t / 8) + 8) (row t))
  else if show c then wrap (mkTerm (set_cell (cell t) (row t) (col t) c) (col t + 1) (row t))
  else t.

Inductive call :=
  | PrintChar (c : Z)
  | PrintString (str : list Z)
  | PrintHex (num : Z)
  | PrintInt (num : Z)
  | ClearScreen
  | SetCursor (x y : Z).

(** The characters a printing call sends *)
Definition output (k : call) : list Z :=
  match k with
  | PrintChar c => [c]
  | PrintString str => str
  | PrintHex num => until_nul (hex_buf num)
  | PrintInt num => if num =? 0 then [48] else int_string num
  | ClearScreen | SetCursor _ _ => []
  end.

Definition term_call (t : term) (k : call) : term :=
  match k with
  | ClearScreen => mkTerm blank_grid 0 0
  | SetCursor x y => mkTerm (cell t) x y
  | _ => fold_left term_char (output k) t
  end.

Definition call_ok (k : call) : Prop :=
  match k with
  | PrintChar c => 0 <= c < 256
  | PrintString str => Forall (fun c => 0 <= c < 256) str
  | PrintHex num | PrintInt num => 0 <= num < 4294967296
  | ClearScreen => True
  | SetCursor x y => 0 <= x < C /\ 0 <= y < R
  end.

Record term_ok (t : term) : Prop := {
  ok_col : 0 <= col t < C;
  ok_row : 0 <= row t < R;
  ok_cells r c : 0 <= cell t r c < 256
}.

Lemma output_bytes (k : call) : call_ok k -> Forall (fun c => 0 <= c < 256) (output k).
Proof.
  destruct k as [c|str|num|num| |x y]; cbn [call_ok output]; intros H;
    [by constructor|exact H| | |constructor|constructor].
  - destruct (hex_string_spec num H) as (ds & -> & _ & Hf & _). apply Forall_app; split.
    + repeat constructor; lia.
    + eapply Forall_impl; [exact Hf|]. intros c. simpl. lia.
  - destruct (Z.eqb_spec num 0) as [->|]; [repeat constructor; lia|].
    destruct (int_string_spec num ltac:(lia)) as [Hf _].
    eapply Forall_impl; [exact Hf|]. intros c. simpl. lia.
Qed.

Lemma wrap_ok (f : Z -> Z -> Z) (x y : Z) :
  0 < C -> 0 < R -> (forall r c, 0 <= f r c < 256) -> 0 <= x -> 0 <= y -> y < R \/ y = R /\ x = 0 ->
  term_ok (wrap (mkTerm f x y)).
Proof.
  intros HC HR Hf Hx Hy Hyr. unfold wrap, scrolled. cbn [col row cell].
  destruct (Z.leb_spec C x); cbn [col row cell]; zcase; constructor;
    cbn [col row cell]; intros; try lia; try apply Hf; case_match; solve [apply Hf|lia].
Qed.

Lemma term_char_ok (t : term) (c : Z) :
  0 < C -> 0 < R -> 0 <= c < 256 -> term_ok t -> term_ok (term_char t c).
Proof.
  intros HC HR Hc [Hx Hy Hf]. unfold term_char.
  repeat case_match; try (apply wrap_ok; try done; try div_mod_lia).
  - constructor; cbn [col row cell]; try lia. intros r k. unfold clear_row. case_match; [lia|apply Hf].
  - constructor; cbn [col row cell]; [lia|lia|apply Hf].
  - intros r k. unfold set_cell. case_match; [lia|apply Hf].
  - done.
Qed.

End terminal.

(** ** What a display offers *)

(** [shows s t]: state [s] of the console displays terminal [t]; printing
    touches [frame] only. *)
Class Console (C R : Z) (show : Z -> bool) (frame : Z -> Prop) (shows : screen -> term -> Prop) := {
  con_term s t : shows s t -> 0 < C /\ 0 < R /\ term_ok C R t;
  con_log s t o : shows s t -> shows (with_log s o) t;
  con_capture s t buf pos : shows s t -> shows (with_capture s false buf pos) t;
  con_char s t c : shows s t -> 0 <= c < 256 ->
    shows (print_char_impl s c) (term_char C R show t c) /\
    mem_same (vram s) (vram (print_char_impl s c)) (fun a => ~ frame a);
  con_clear s t : shows s t ->
    shows (clear_screen s) (mkTerm blank_grid 0 0) /\
    mem_same (vram s) (vram (clear_screen s)) (fun a => ~ frame a);
  con_cursor s t x y : shows s t -> 0 <= x < C -> 0 <= y < R ->
    shows (set_cursor s x y) (mkTerm (cell t) x y) /\ vram (set_cursor s x y) = vram s;
  con_live s t : shows s t -> capture_mode s = false
}.

Definition run_call (s : screen) (k : call) : screen :=
  match k with
  | PrintChar c => print_char s c
  | PrintString str => print_string s str
  | PrintHex num => print_hex s num
  | PrintInt num => print_int s num
  | ClearScreen => clear_screen s
  | SetCursor x y => set_cursor s x y
  end.

Definition run_calls (s : screen) (ks : list call) : screen := fold_left run_call ks s.

Section console.

Context (C R : Z) (show : Z -> bool) (frame : Z -> Prop) (shows : screen -> term -> Prop).
Context `{!Console C R show frame shows}.

Lemma print_chars_shows (str : list Z) (s : screen) (t : term) :
  shows s t -> Forall (fun c => 0 <= c < 256) str ->
  shows (print_chars s str) (fold_left (term_char C R show) str t) /\
  mem_same (vram s) (vram (print_chars s str)) (fun a => ~ frame a).
Proof.
  revert s t; induction str as [|c str IH]; intros s t Hs Hf; [split; [done|by intros a _]|].
  apply Forall_cons in Hf as [Hc Hf]. destruct (con_char s t c Hs Hc) as [Hs' Hm].
  destruct (IH _ _ Hs' Hf) as [H1 H2]. split; [exact H1|]. eapply mem_same_trans; [exact Hm|exact H2].
Qed.

Lemma run_call_shows (k : call) (s : screen) (t : term) :
  shows s t -> call_ok C R k ->
  shows (run_call s k) (term_call C R show t k) /\
  mem_same (vram s) (vram (run_call s k)) (fun a => ~ frame a).
Proof.
  intros Hs Hk. pose proof (output_bytes C R k Hk) as Ho. pose proof (con_live s t Hs) as Hl.
  destruct k as [c|str|num|num| |x y]; cbn [run_call term_call output] in *.
  - apply (print_chars_shows [c]); done.
  - unfold print_string. rewrite Hl.
    apply (print_chars_shows str (with_log s _)); [by apply con_log|done].
  - apply (print_chars_shows _ (with_log s _)); [by apply con_log|done].
  - unfold print_int. destruct (num =? 0).
    + apply (print_chars_shows [48] (with_log s _)); [by apply con_log|done].
    + apply (print_chars_shows _ (with_log s _)); [by apply con_log|done].
  - apply (con_clear s t Hs).
  - destruct Hk as [Hx Hy]. destruct (con_cursor s t x y Hs Hx Hy) as [H1 ->].
    split; [done|by intros a _].
Qed.

Lemma run_calls_shows (ks : list call) (s : screen) (t : term) :
  shows s t -> Forall (call_ok C R) ks ->
  shows (run_calls s ks) (fold_left (term_call C R show) ks t) /\
  mem_same (vram s) (vram (run_calls s ks)) (fun a => ~ frame a).
Proof.
  revert s t; induction ks as [|k ks IH]; intros s t Hs Hf; [split; [done|by intros a _]|].
  apply Forall_cons in Hf as [Hk Hf]. destruct (run_call_shows k s t Hs Hk) as [Hs' Hm].
  destruct (IH _ _ Hs' Hf) as [H1 H2]. split; [exact H1|]. eapply mem_same_trans; [exact Hm|exact H2].
Qed.

End console.

(** ** The text buffer *)

Definition CELLS : Z := MAX_ROWS * MAX_COLS.

Definition in_text (a : Z) : Prop := VIDEO_MEMORY <= a < VIDEO_MEMORY + 2 * CELLS.

Definition vget (m : memory) (i : Z) : Z := load16 m (video i).

(** [m'] is [m] with the cells for which [h] gives a word changed to it. *)
Definition redrawn (m m' : memory) (h : Z -> option Z) : Prop :=
  (forall i, 0 <= i < CELLS -> vget m' i = match h i with Some v => v | None => vget m i end) /\
  mem_same m m' (fun a => ~ in_text a).

Lemma video_addr (i : Z) : 0 <= i < CELLS -> video i = VIDEO_MEMORY + 2 * i.
Proof. intros. unfold video. apply u32_small. unfold CELLS, VIDEO_MEMORY, MAX_ROWS, MAX_COLS in *. lia. Qed.

Lemma redrawn_one (m : memory) (i v : Z) :
  0 <= i < CELLS -> 0 <= v < 65536 ->
  redrawn m (store16 m (video i) v) (fun j => if j =? i then Some v else None).
Proof.
  intros Hi Hv. rewrite video_addr by done. split.
  - intros j Hj. unfold vget, load16, store16. rewrite video_addr by done.
    destruct (Z.eqb_spec j i) as [->|].
    + rewrite load8_store8_eq, load8_store8_ne, load8_store8_eq by lia. cint.
    + rewrite !load8_store8_ne by lia. done.
  - intros a Ha. unfold in_text in Ha. unfold store16. rewrite !load8_store8_ne by lia. done.
Qed.

Lemma redrawn_trans (m1 m2 m3 : memory) (f h : Z -> option Z) :
  redrawn m1 m2 f -> redrawn m2 m3 h ->
  redrawn m1 m3 (fun i => match h i with Some v => Some v | None => f i end).
Proof.
  intros [Hf Hof] [Hh Hoh]. split; [|by eapply mem_same_trans].
  intros i Hi. rewrite Hh by done. destruct (h i); [done|]. by apply Hf.
Qed.

Lemma redrawn_ext (m m' : memory) (f h : Z -> option Z) :
  redrawn m m' f -> (forall i, 0 <= i < CELLS -> f i = h i) -> redrawn m m' h.
Proof. intros [Hf Ho] E. split; [|done]. intros i Hi. rewrite <- E by done. by apply Hf. Qed.

Lemma blank_cells_redrawn (m : memory) (first n : Z) :
  0 <= first -> 0 <= n -> first + n <= CELLS ->
  redrawn m (blank_cells m first n)
    (fun i => if (first <=? i) && (i <? first + n) then Some blank else None).
Proof.
  intros Hf Hn. rewrite <- (Z2Nat.id n Hn). unfold blank_cells. rewrite Nat2Z.id.
  generalize (Z.to_nat n) as k. clear n Hn. intros k.
  revert m first Hf; induction k as [|k IH]; intros m first Hf Hle; cbn [for_up].
  { split; [|by intros a _]. intros i Hi. repeat (zcase; try lia); done. }
  eapply redrawn_ext.
  { eapply redrawn_trans; [apply (redrawn_one m first blank); [lia|by vm_compute]|apply IH; lia]. }
  intros i Hi. cbv beta. repeat (zcase; try lia); done.
Qed.

Lemma scroll_redrawn (m : memory) :
  redrawn m (scroll m) (fun i => Some (if i <? CELLS - MAX_COLS then vget m (i + MAX_COLS) else blank)).
Proof.
  unfold scroll. set (n := (MAX_ROWS - 1) * MAX_COLS).
  assert (HC : CELLS = n + MAX_COLS) by reflexivity.
  assert (Hc : MAX_COLS = 80) by reflexivity. assert (Hn : n = 1920) by reflexivity. clearbody n.
  set (m1 := for_up _ _ _ _ _).
  assert (H1 : redrawn m m1 (fun i => if i <? n then Some (vget m (i + MAX_COLS)) else None)).
  { subst m1.
    pose proof (for_up_ind (fun k m' => redrawn m m' (fun i => if i <? k then Some (vget m (i + MAX_COLS)) else None))
      (Z.to_nat n) 0 1 (fun i m => store16 m (video i) (load16 m (video (i + MAX_COLS)))) m) as HI.
    rewrite Z2Nat.id, Z.mul_1_r, Z.add_0_l in HI by lia. apply HI.
    - split; [|by intros a _]. intros i Hi. by rewrite (proj2 (Z.ltb_ge i 0)) by lia.
    - intros k x Hk Hx. rewrite !Z.mul_1_r, !Z.add_0_l in *.
      assert (Ev : load16 x (video (k + MAX_COLS)) = vget m (k + MAX_COLS)).
      { change (vget x (k + MAX_COLS) = vget m (k + MAX_COLS)).
        rewrite (proj1 Hx) by lia. by rewrite (proj2 (Z.ltb_ge _ k)) by lia. }
      rewrite Ev. eapply redrawn_ext.
      { eapply redrawn_trans; [exact Hx|]. apply (redrawn_one x k); [lia|].
        unfold vget, load16. pose proof (load8_range m (video (k + MAX_COLS))).
        pose proof (load8_range m (video (k + MAX_COLS) + 1)). lia. }
      intros i Hi. cbv beta. destruct (Z.eqb_spec i k) as [->|]; repeat (zcase; try lia); done. }
  eapply redrawn_ext.
  { eapply redrawn_trans; [exact H1|]. apply blank_cells_redrawn; lia. }
  intros i Hi. cbv beta. repeat (zcase; try lia); done.
Qed.

Record text_shows (s : screen) (t : term) : Prop := {
  tx_live : capture_mode s = false;
  tx_text : fb_active (fb s) = false;
  tx_cursor : cursor_x s = col t /\ cursor_y s = row t;
  tx_hw : hw_cursor s = row t * MAX_COLS + col t;
  tx_term : term_ok MAX_COLS MAX_ROWS t;
  tx_cells r c : 0 <= r < MAX_ROWS -> 0 <= c < MAX_COLS ->
    vget (vram s) (r * MAX_COLS + c) = 3840 + cell t r c
}.

Definition cells (m : memory) (f : Z -> Z -> Z) : Prop :=
  forall r c, 0 <= r < MAX_ROWS -> 0 <= c < MAX_COLS -> vget m (r * MAX_COLS + c) = 3840 + f r c.

Ltac text_dims := unfold CELLS, MAX_ROWS, MAX_COLS in *.

Lemma cells_redrawn (m m' : memory) (f f' : Z -> Z -> Z) (h : Z -> option Z) :
  cells m f -> redrawn m m' h ->
  (forall r c, 0 <= r < MAX_ROWS -> 0 <= c < MAX_COLS ->
     match h (r * MAX_COLS + c) with Some v => v = 3840 + f' r c | None => f' r c = f r c end) ->
  cells m' f'.
Proof.
  intros Hc [Hr _] Hf r c Hr' Hc'. rewrite Hr by (text_dims; lia). specialize (Hf r c Hr' Hc').
  destruct (h _); [done|]. rewrite Hf. by apply Hc.
Qed.

Lemma attribute (c : Z) : 0 <= c < 256 -> Z.lor (Z.shiftl WHITE_ON_BLACK 8) c = 3840 + c.
Proof.
  intros Hc. rewrite lor_low by (change (2 ^ 8) with 256; lia). reflexivity.
Qed.

Lemma cells_put (m : memory) (f : Z -> Z -> Z) (x y c : Z) :
  cells m f -> 0 <= y < MAX_ROWS -> 0 <= x < MAX_COLS -> 0 <= c < 256 ->
  cells (store16 m (video (y * MAX_COLS + x)) (Z.lor (Z.shiftl WHITE_ON_BLACK 8) c)) (set_cell f y x c) /\
  mem_same m (store16 m (video (y * MAX_COLS + x)) (Z.lor (Z.shiftl WHITE_ON_BLACK 8) c))
    (fun a => ~ in_text a).
Proof.
  intros Hf Hy Hx Hc. rewrite attribute by done.
  pose proof (redrawn_one m (y * MAX_COLS + x) (3840 + c) ltac:(text_dims; lia) ltac:(lia)) as Hr.
  split; [|apply Hr]. eapply cells_redrawn; [exact Hf|exact Hr|]. intros r k Hr' Hk. cbv beta.
  unfold set_cell. text_dims. repeat (zcase; try lia); done.
Qed.

Lemma cells_clear_row (m : memory) (f : Z -> Z -> Z) (y : Z) :
  cells m f -> 0 <= y < MAX_ROWS ->
  cells (blank_cells m (y * MAX_COLS) MAX_COLS) (clear_row f y) /\
  mem_same m (blank_cells m (y * MAX_COLS) MAX_COLS) (fun a => ~ in_text a).
Proof.
  intros Hf Hy.
  pose proof (blank_cells_redrawn m (y * MAX_COLS) MAX_COLS ltac:(text_dims; lia) ltac:(text_dims; lia)
                ltac:(text_dims; lia)) as Hr.
  split; [|apply Hr]. eapply cells_redrawn; [exact Hf|exact Hr|]. intros r k Hr' Hk. cbv beta.
  unfold clear_row. text_dims. repeat (zcase; try lia); done.
Qed.

Lemma cells_scroll (m : memory) (f : Z -> Z -> Z) : cells m f -> cells (scroll m) (scrolled MAX_ROWS f).
Proof.
  intros Hf. eapply cells_redrawn; [exact Hf|apply scroll_redrawn|]. intros r c Hr Hc. cbv beta.
  unfold scrolled. destruct (Z.ltb_spec r (MAX_ROWS - 1)).
  - rewrite (proj2 (Z.ltb_lt _ _)) by (text_dims; lia).
    replace (r * MAX_COLS + c + MAX_COLS) with ((r + 1) * MAX_COLS + c) by lia.
    apply Hf; text_dims; lia.
  - rewrite (proj2 (Z.ltb_ge _ _)) by (text_dims; lia). reflexivity.
Qed.

Lemma cells_blank (m : memory) :
  cells (blank_cells m 0 CELLS) blank_grid /\ mem_same m (blank_cells m 0 CELLS) (fun a => ~ in_text a).
Proof.
  pose proof (blank_cells_redrawn m 0 CELLS ltac:(lia) ltac:(text_dims; lia) ltac:(lia)) as Hr.
  split; [|apply Hr]. intros r c Hr' Hc. rewrite (proj1 Hr) by (text_dims; lia). cbv beta.
  rewrite (proj2 (Z.leb_le _ _)), (proj2 (Z.ltb_lt _ _)) by (text_dims; lia). reflexivity.
Qed.

Lemma text_cursor (s : screen) (m : memory) (t : term) :
  capture_mode s = false -> fb_active (fb s) = false -> cells m (cell t) -> term_ok MAX_COLS MAX_ROWS t ->
  text_shows (set_cursor_impl (with_view s (col t) (row t) m) (col t) (row t)) t.
Proof.
  intros Hl Ha Hc Ht. pose proof (ok_col _ _ _ Ht). pose proof (ok_row _ _ _ Ht).
  split; cbn [set_cursor_impl with_view capture_mode fb cursor_x cursor_y hw_cursor vram]; try done.
  rewrite Ha. unfold u16. apply Z.mod_small. text_dims. lia.
Qed.

(** The end of [print_char_impl]: the margin and the bottom of the screen *)
Lemma text_wrap (s : screen) (m : memory) (f : Z -> Z -> Z) (x y : Z) :
  capture_mode s = false -> fb_active (fb s) = false -> cells m f ->
  term_ok MAX_COLS MAX_ROWS (wrap MAX_COLS MAX_ROWS (mkTerm f x y)) ->
  let s' := let '(x', y') := if MAX_COLS <=? x then (0, y + 1) else (x, y) in
            let '(y', m') := if MAX_ROWS <=? y' then (MAX_ROWS - 1, scroll m) else (y', m) in
            set_cursor_impl (with_view s x' y' m') x' y' in
  text_shows s' (wrap MAX_COLS MAX_ROWS (mkTerm f x y)) /\ mem_same m (vram s') (fun a => ~ in_text a).
Proof.
  intros Hl Ha Hc Hok. unfold wrap in *. cbn [cell col row] in *.
  destruct (MAX_COLS <=? x); cbn [cell col row] in *;
    (destruct (MAX_ROWS <=? _); cbv zeta; cbn [cell col row] in *;
     match goal with |- text_shows _ ?t /\ mem_same _ (vram (set_cursor_impl (with_view _ _ _ ?m') _ _)) _ =>
       split; [apply (text_cursor s m' t)|] end;
     solve [done|by apply cells_scroll|by intros a _|apply scroll_redrawn]).
Qed.

Lemma land_tab (x : Z) : Z.land (x + 8) (Z.lnot 7) = 8 * (x / 8) + 8.
Proof. change 7 with (Z.ones 3). rewrite land_lnot_ones by lia. change (2 ^ 3) with 8. div_mod_lia. Qed.

Lemma text_char_shows (s : screen) (t : term) (c : Z) :
  text_shows s t -> 0 <= c < 256 ->
  text_shows (text_char s c) (term_char MAX_COLS MAX_ROWS (fun _ => true) t c) /\
  mem_same (vram s) (vram (text_char s c)) (fun a => ~ in_text a).
Proof.
  intros [Hl Ha [Ex Ey] Hh Ht Hc] Hb.
  pose proof (term_char_ok MAX_COLS MAX_ROWS (fun _ => true) t c ltac:(done) ltac:(done) Hb Ht) as Hok.
  destruct Ht as [Hx Hy Hf]. destruct t as [f x y]. cbn [cell col row] in *.
  unfold text_char, term_char in *. rewrite Ex, Ey, land_tab. cbn [cell col row] in *.
  destruct (c =? 13).
  { destruct (cells_clear_row (vram s) f y Hc Hy) as [H1 H2].
    split; [apply (text_cursor s _ (mkTerm (clear_row f y) 0 y)); done|exact H2]. }
  destruct (c =? 10); [exact (text_wrap s (vram s) f 0 (y + 1) Hl Ha Hc Hok)|].
  destruct (c =? 8).
  { replace (if 0 <? x then x - 1 else x) with (Z.max 0 (x - 1)) by (zcase; lia).
    rewrite (proj2 (Z.leb_gt MAX_COLS _)), (proj2 (Z.leb_gt MAX_ROWS _)) by lia.
    split; [apply (text_cursor s _ (mkTerm f (Z.max 0 (x - 1)) y)); done|by intros a _]. }
  destruct (c =? 9); [exact (text_wrap s (vram s) f _ y Hl Ha Hc Hok)|].
  destruct (cells_put (vram s) f x y c Hc Hy Hx Hb) as [H1 H2].
  destruct (text_wrap s _ _ (x + 1) y Hl Ha H1 Hok) as [H3 H4].
  split; [exact H3|]. eapply mem_same_trans; [exact H2|exact H4].
Qed.

Lemma text_cleared (s : screen) :
  capture_mode s = false -> fb_active (fb s) = false ->
  text_shows (clear_screen s) (mkTerm blank_grid 0 0) /\
  mem_same (vram s) (vram (clear_screen s)) (fun a => ~ in_text a).
Proof.
  intros Hl Ha. unfold clear_screen, clear_screen_impl. rewrite Ha.
  destruct (cells_blank (vram s)) as [H1 H2]. fold CELLS.
  split; [|exact H2]. apply (text_cursor s _ (mkTerm blank_grid 0 0)); [done|done|exact H1|].
  split; cbn [cell col row]; [done|done|]. intros. unfold blank_grid. lia.
Qed.

#[export] Instance text_console : Console MAX_COLS MAX_ROWS (fun _ => true) in_text text_shows.
Proof.
  split.
  - intros s t Hs. split; [done|]. split; [done|apply Hs].
  - intros s t o [Hl Ha Hx Hh Ht Hc]. by split.
  - intros s t b p [Hl Ha Hx Hh Ht Hc]. by split.
  - intros s t c Hs Hc. unfold print_char_impl. rewrite (tx_live _ _ Hs), (tx_text _ _ Hs).
    by apply text_char_shows.
  - intros s t Hs. apply text_cleared; apply Hs.
  - intros s t x y [Hl Ha _ _ Ht Hc] Hx Hy. split; [|done].
    apply (text_cursor s (vram s) (mkTerm (cell t) x y)); [done|done|exact Hc|].
    split; [done|done|apply (ok_cells _ _ _ Ht)].
  - intros s t Hs. apply Hs.
Qed.

(** ** The frame buffer *)

Definition text_cols (g : gfx) : Z := fb_width g / FONT_WIDTH.

Definition text_rows (g : gfx) : Z := fb_height g / FONT_HEIGHT.

(** The colour of a pixel of a screen full of characters *)
Definition cell_color (g : gfx) (f : Z -> Z -> Z) (x y : Z) : Z :=
  if (x / FONT_WIDTH <? text_cols g) && (y / FONT_HEIGHT <? text_rows g) &&
     glyph_bit (f (y / FONT_HEIGHT) (x / FONT_WIDTH)) (y mod FONT_HEIGHT) (x mod FONT_WIDTH)
  then GFX_FG else GFX_BG.

Definition shown (g : gfx) (m : memory) (f : Z -> Z -> Z) : Prop :=
  forall x y, on_screen g x y -> pixel g m x y = color_bytes g (cell_color g f x y).

Definition in_fb (g : gfx) (a : Z) : Prop := ~ outside_fb g a.

Lemma not_in_fb (g : gfx) (a : Z) : ~ in_fb g a -> outside_fb g a.
Proof. unfold in_fb, outside_fb. lia. Qed.

Lemma space_is_blank (r k : Z) : glyph_bit 32 r k = false.
Proof.
  unfold glyph_bit. replace (char_row 32 r) with 0; [apply Z.bits_0|].
  change (char_row 32 r) with (byte_at (replicate 16 0) r). unfold byte_at.
  destruct (replicate 16 0 !! Z.to_nat r) as [b|] eqn:E; [|done].
  by apply lookup_replicate in E as [-> _].
Qed.

Ltac gfx_dims := unfold text_cols, text_rows, FONT_WIDTH, FONT_HEIGHT in *.

Section frame_buffer.

Context (g : gfx) (Hg : fb_ok g).

Lemma shown_painted (m m' : memory) (f f' : Z -> Z -> Z) (h : Z -> Z -> option Z) :
  shown g m f -> painted g m m' h ->
  (forall x y, on_screen g x y ->
     match h x y with Some c => c = cell_color g f' x y | None => cell_color g f' x y = cell_color g f x y end) ->
  shown g m' f'.
Proof.
  intros Hf Hp E x y Hxy. rewrite (painted_pixel _ _ _ _ Hp) by done. specialize (E x y Hxy).
  destruct (h x y); [by subst|]. rewrite E. by apply Hf.
Qed.

Lemma shown_put (m : memory) (f : Z -> Z -> Z) (x y c : Z) :
  shown g m f -> 0 <= x < text_cols g -> 0 <= y < text_rows g ->
  shown g (draw_char_gfx g m (x * FONT_WIDTH) (y * FONT_HEIGHT) c GFX_FG GFX_BG) (set_cell f y x c) /\
  mem_same m (draw_char_gfx g m (x * FONT_WIDTH) (y * FONT_HEIGHT) c GFX_FG GFX_BG) (outside_fb g).
Proof.
  intros Hf Hx Hy.
  pose proof (draw_char_painted g Hg m (x * FONT_WIDTH) (y * FONT_HEIGHT) c GFX_FG GFX_BG
    ltac:(gfx_dims; lia) ltac:(gfx_dims; div_mod_lia) ltac:(gfx_dims; lia) ltac:(gfx_dims; div_mod_lia)
    ltac:(done)) as Hp.
  split; [|apply Hp]. eapply shown_painted; [exact Hf|exact Hp|]. intros x' y' [Hx' Hy']. cbv beta.
  unfold cell_color, set_cell. destruct (_ && _ && _ && _) eqn:E.
  - zbool. assert (x' / FONT_WIDTH = x) as -> by (gfx_dims; div_mod_lia).
    assert (y' / FONT_HEIGHT = y) as -> by (gfx_dims; div_mod_lia).
    rewrite !Z.eqb_refl, (proj2 (Z.ltb_lt x _)), (proj2 (Z.ltb_lt y _)) by lia. cbn [andb].
    replace (y' - y * FONT_HEIGHT) with (y' mod FONT_HEIGHT) by (gfx_dims; div_mod_lia).
    replace (x' - x * FONT_WIDTH) with (x' mod FONT_WIDTH) by (gfx_dims; div_mod_lia). done.
  - replace ((y' / FONT_HEIGHT =? y) && (x' / FONT_WIDTH =? x)) with false; [done|].
    symmetry. apply andb_false_iff. gfx_dims. revert E. rewrite !andb_false_iff, !Z.leb_gt, !Z.ltb_ge, !Z.eqb_neq.
    intros E. div_mod_lia.
Qed.

Lemma shown_clear_row (m : memory) (f : Z -> Z -> Z) (y : Z) :
  shown g m f -> 0 <= y < text_rows g ->
  shown g (fill_rect g m 0 (y * FONT_HEIGHT) (fb_width g) FONT_HEIGHT GFX_BG) (clear_row f y) /\
  mem_same m (fill_rect g m 0 (y * FONT_HEIGHT) (fb_width g) FONT_HEIGHT GFX_BG) (outside_fb g).
Proof.
  intros Hf Hy. pose proof (ok_width g Hg). pose proof (ok_height g Hg).
  pose proof (fill_rect_painted g Hg m 0 (y * FONT_HEIGHT) (fb_width g) FONT_HEIGHT GFX_BG
    ltac:(lia) ltac:(gfx_dims; lia) ltac:(lia) ltac:(gfx_dims; div_mod_lia) ltac:(lia) ltac:(gfx_dims; lia)) as Hp.
  split; [|apply Hp]. eapply shown_painted; [exact Hf|exact Hp|]. intros x' y' [Hx' Hy']. cbv beta.
  unfold cell_color, clear_row. rewrite (proj2 (Z.leb_le 0 x')), (proj2 (Z.ltb_lt x' (0 + _))) by lia.
  cbn [andb]. destruct (Z.eqb_spec (y' / FONT_HEIGHT) y) as [He|Hne].
  - rewrite space_is_blank, andb_false_r.
    replace (_ && _) with true; [done|]. symmetry. gfx_dims. apply andb_true_iff. rewrite Z.leb_le, Z.ltb_lt.
    div_mod_lia.
  - replace ((y * FONT_HEIGHT <=? y') && (y' <? y * FONT_HEIGHT + FONT_HEIGHT)) with false; [done|].
    symmetry. gfx_dims. apply andb_false_iff. rewrite Z.leb_gt, Z.ltb_ge. div_mod_lia.
Qed.

Lemma shown_blank (m : memory) :
  shown g (fill_rect g m 0 0 (fb_width g) (fb_height g) GFX_BG) blank_grid /\
  mem_same m (fill_rect g m 0 0 (fb_width g) (fb_height g) GFX_BG) (outside_fb g).
Proof.
  pose proof (ok_width g Hg). pose proof (ok_height g Hg).
  pose proof (fill_rect_painted g Hg m 0 0 (fb_width g) (fb_height g) GFX_BG
    ltac:(lia) ltac:(lia) ltac:(lia) ltac:(lia) ltac:(lia) ltac:(lia)) as Hp.
  split; [|apply Hp]. intros x y Hxy. rewrite (painted_pixel _ _ _ _ Hp x y Hxy). destruct Hxy.
  unfold cell_color, blank_grid. rewrite space_is_blank, andb_false_r.
  repeat (zcase; try lia); reflexivity.
Qed.

Lemma shown_scroll (m : memory) (f : Z -> Z -> Z) :
  0 < text_rows g -> shown g m f ->
  shown g (scroll_gfx g m 1) (scrolled (text_rows g) f) /\ mem_same m (scroll_gfx g m 1) (outside_fb g).
Proof.
  intros HR Hf. assert (Hh : 1 * FONT_HEIGHT <= fb_height g) by (gfx_dims; div_mod_lia).
  split; [|apply scroll_gfx_outside; [exact Hg|lia|exact Hh]]. intros x y Hxy.
  rewrite scroll_gfx_pixels by (done || lia). destruct Hxy as [Hx Hy].
  destruct (Z.ltb_spec (y + 1 * FONT_HEIGHT) (fb_height g)) as [Hlt|Hge].
  - rewrite Hf by (split; [done|gfx_dims; lia]). f_equal. unfold cell_color, scrolled.
    replace ((y + 1 * FONT_HEIGHT) / FONT_HEIGHT) with (y / FONT_HEIGHT + 1) by (gfx_dims; div_mod_lia).
    replace ((y + 1 * FONT_HEIGHT) mod FONT_HEIGHT) with (y mod FONT_HEIGHT) by (gfx_dims; div_mod_lia).
    destruct (Z.ltb_spec (y / FONT_HEIGHT) (text_rows g - 1)).
    + rewrite !(proj2 (Z.ltb_lt _ (text_rows g))) by lia. done.
    + rewrite space_is_blank, (proj2 (Z.ltb_ge (_ + 1) _)) by lia. by rewrite !andb_false_r.
  - unfold cell_color, scrolled. rewrite (proj2 (Z.ltb_ge _ (text_rows g - 1))) by (gfx_dims; div_mod_lia).
    by rewrite space_is_blank, andb_false_r.
Qed.

End frame_buffer.

Record gfx_shows (g : gfx) (s : screen) (t : term) : Prop := {
  gx_live : capture_mode s = false;
  gx_fb : fb s = g;
  gx_active : fb_active g = true;
  gx_ok : fb_ok g;
  gx_dims : 0 < text_cols g /\ 0 < text_rows g;
  gx_cursor : cursor_x s = col t /\ cursor_y s = row t;
  gx_term : term_ok (text_cols g) (text_rows g) t;
  gx_shown : shown g (vram s) (cell t)
}.

Section graphics_console.

Context (g : gfx).

Lemma gfx_wrap (s : screen) (m : memory) (f : Z -> Z -> Z) (x y : Z) :
  capture_mode s = false -> fb s = g -> fb_active g = true -> fb_ok g ->
  0 < text_cols g /\ 0 < text_rows g -> shown g m f ->
  term_ok (text_cols g) (text_rows g) (wrap (text_cols g) (text_rows g) (mkTerm f x y)) ->
  let s' := let '(x', y') := if text_cols g <=? x then (0, y + 1) else (x, y) in
            let '(y', m') := if text_rows g <=? y' then (text_rows g - 1, scroll_gfx g m 1) else (y', m) in
            with_view s x' y' m' in
  gfx_shows g s' (wrap (text_cols g) (text_rows g) (mkTerm f x y)) /\ mem_same m (vram s') (outside_fb g).
Proof.
  intros Hl Hfb Ha Hg Hd Hs Hok. destruct (shown_scroll g Hg m f (proj2 Hd) Hs) as [H1 H2].
  unfold wrap in *. cbn [cell col row] in *.
  destruct (text_cols g <=? x); cbn [cell col row] in *;
    (destruct (text_rows g <=? _); cbv zeta; cbn [cell col row] in *;
     (split; [split; done|solve [done|by intros a _]])).
Qed.

Lemma gfx_char_shows (s : screen) (t : term) (c : Z) :
  gfx_shows g s t -> 0 <= c < 256 ->
  gfx_shows g (gfx_char s c) (term_char (text_cols g) (text_rows g) printable t c) /\
  mem_same (vram s) (vram (gfx_char s c)) (outside_fb g).
Proof.
  intros [Hl Hfb Ha Hg Hd [Ex Ey] Ht Hs] Hb.
  pose proof (term_char_ok _ _ printable t c (proj1 Hd) (proj2 Hd) Hb Ht) as Hok.
  destruct Ht as [Hx Hy Hf]. destruct t as [f x y]. cbn [cell col row] in *.
  unfold gfx_char, term_char in *. rewrite Hfb, Ex, Ey, land_tab. fold (text_cols g) (text_rows g).
  cbn [cell col row] in *.
  assert (Hstay : forall x y m f, 0 <= x < text_cols g -> 0 <= y < text_rows g ->
    shown g m f -> (forall r k, 0 <= f r k < 256) -> mem_same (vram s) m (outside_fb g) ->
    let s' := let '(x', y') := if text_cols g <=? x then (0, y + 1) else (x, y) in
              let '(y', m') := if text_rows g <=? y' then (text_rows g - 1, scroll_gfx g m 1) else (y', m) in
              with_view s x' y' m' in
    gfx_shows g s' (mkTerm f x y) /\ mem_same (vram s) (vram s') (outside_fb g)).
  { intros x1 y1 m1 f1 Hx1 Hy1 Hs1 Hf1 Hm1. rewrite (proj2 (Z.leb_gt (text_cols g) x1)) by lia.
    rewrite (proj2 (Z.leb_gt (text_rows g) y1)) by lia. split; [|done]. by split; [..|split|]. }
  destruct (Z.eqb_spec c 13) as [->|].
  { destruct (shown_clear_row g Hg (vram s) f y Hs Hy) as [H1 H2]. cbn [Z.eqb Pos.eqb] in *.
    apply Hstay; [lia|done|done| |done]. apply (ok_cells _ _ _ Hok). }
  destruct (c =? 10); [exact (gfx_wrap s (vram s) f 0 (y + 1) Hl Hfb Ha Hg Hd Hs Hok)|].
  destruct (c =? 8).
  { replace (if 0 <? x then x - 1 else x) with (Z.max 0 (x - 1)) by (zcase; lia).
    apply Hstay; [lia|done|done|done|by intros a _]. }
  destruct (c =? 9); [exact (gfx_wrap s (vram s) f _ y Hl Hfb Ha Hg Hd Hs Hok)|].
  destruct (printable c); [|apply Hstay; [done|done|done|done|by intros a _]].
  destruct (shown_put g Hg (vram s) f x y c Hs Hx Hy) as [H1 H2].
  destruct (gfx_wrap s _ _ (x + 1) y Hl Hfb Ha Hg Hd H1 Hok) as [H3 H4].
  split; [exact H3|]. eapply mem_same_trans; [exact H2|exact H4].
Qed.

Lemma gfx_cleared (s : screen) :
  capture_mode s = false -> fb s = g -> fb_active g = true -> fb_ok g ->
  0 < text_cols g /\ 0 < text_rows g ->
  gfx_shows g (clear_screen s) (mkTerm blank_grid 0 0) /\
  mem_same (vram s) (vram (clear_screen s)) (outside_fb g).
Proof.
  intros Hl Hfb Ha Hg Hd. unfold clear_screen, clear_screen_impl. rewrite Hfb, Ha.
  destruct (shown_blank g Hg (vram s)) as [H1 H2]. split; [|exact H2].
  split; try done. split; cbn [cell col row]; [lia|lia|]. intros. unfold blank_grid. lia.
Qed.

#[export] Instance gfx_console : Console (text_cols g) (text_rows g) printable (in_fb g) (gfx_shows g).
Proof.
  split.
  - intros s t [_ _ _ _ Hd _ Ht _]. split; [apply Hd|]. split; [apply Hd|exact Ht].
  - intros s t o [Hl Hfb Ha Hg Hd Hx Ht Hs]. by split.
  - intros s t b p [Hl Hfb Ha Hg Hd Hx Ht Hs]. by split.
  - intros s t c Hs Hc. unfold print_char_impl.
    rewrite (gx_live _ _ _ Hs), (gx_fb _ _ _ Hs), (gx_active _ _ _ Hs).
    destruct (gfx_char_shows s t c Hs Hc) as [H1 H2]. split; [exact H1|].
    eapply mem_same_weaken; [exact H2|]. intros a. apply not_in_fb.
  - intros s t [Hl Hfb Ha Hg Hd _ _ _]. destruct (gfx_cleared s Hl Hfb Ha Hg Hd) as [H1 H2].
    split; [exact H1|]. eapply mem_same_weaken; [exact H2|]. intros a. apply not_in_fb.
  - intros s t x y [Hl Hfb Ha Hg Hd _ Ht Hs] Hx Hy. split; [|done].
    split; try done. split; [done|done|apply (ok_cells _ _ _ Ht)].
  - intros s t Hs. apply Hs.
Qed.

End graphics_console.

(** ** Properties *)

(** C35: The text console refines a terminal of 25 rows and 80 columns: for
    every sequence of printing, clearing and cursor calls that starts from a
    screen that shows [t] and sets the cursor to positions on the screen
    only, the text buffer shows what the terminal shows after the same calls,
    character for character, with wrapping and scrolling, the hardware cursor
    follows, and no byte outside the 4000 bytes of the text buffer changes.
    set_cursor itself checks nothing: after a position off the screen the
    next character is written there ([cursor_outside_screen]). *)
Theorem text_console_refines_terminal (s : screen) (t : term) (ks : list call) :
  text_shows s t -> Forall (call_ok MAX_COLS MAX_ROWS) ks ->
  text_shows (run_calls s ks) (fold_left (term_call MAX_COLS MAX_ROWS (fun _ => true)) ks t) /\
  mem_same (vram s) (vram (run_calls s ks)) (fun a => ~ in_text a).
Proof. apply run_calls_shows, _. Qed.

(** C36: The graphics console refines the same terminal, of as many rows and
    columns as fit: every pixel of the screen has the colour that the font
    gives it for the character of its cell, after every sequence of calls
    that sets the cursor to positions on the screen only, and no byte outside
    the frame buffer changes.  (A negative row makes the console draw in
    front of the frame buffer: [cursor_above_screen].) *)
Theorem graphics_console_refines_terminal (g : gfx) (s : screen) (t : term) (ks : list call) :
  gfx_shows g s t -> Forall (call_ok (text_cols g) (text_rows g)) ks ->
  gfx_shows g (run_calls s ks) (fold_left (term_call (text_cols g) (text_rows g) printable) ks t) /\
  mem_same (vram s) (vram (run_calls s ks)) (outside_fb g).
Proof.
  intros Hs Hk. destruct (run_calls_shows _ _ _ _ _ ks s t Hs Hk) as [H1 H2]. split; [exact H1|].
  eapply mem_same_weaken; [exact H2|]. unfold in_fb. tauto.
Qed.

(** *** Captured output *)

Definition kept (c : Z) : bool := (c =? 10) || printable c.

(** What of the output [out] fits into the buffer *)
Definition captured (out : list Z) : list Z := take (Z.to_nat (CAPTURE_SIZE - 1)) (List.filter kept out).

Definition prints (k : call) : Prop :=
  match k with ClearScreen | SetCursor _ _ => False | _ => True end.

Record capturing (s0 s : screen) (out : list Z) : Prop := {
  cap_on : capture_mode s = true;
  cap_len : length (capture_buf s) = Z.to_nat CAPTURE_SIZE;
  cap_pos : capture_pos s = Z.of_nat (length (captured out));
  cap_take : take (length (captured out)) (capture_buf s) = captured out;
  cap_view : cursor_x s = cursor_x s0 /\ cursor_y s = cursor_y s0 /\ vram s = vram s0
}.

Lemma kept_byte (c : Z) : kept c = true -> 0 < c < 128.
Proof. unfold kept, printable. intros H. apply orb_true_iff in H as [H|H]; zbool; lia. Qed.

Lemma captured_nonzero (out : list Z) : Forall (fun c => c <> 0) (captured out).
Proof.
  apply Forall_take, List.Forall_forall. intros c Hc. apply filter_In in Hc as [_ Hk].
  apply kept_byte in Hk. lia.
Qed.

Lemma length_captured (out : list Z) : (length (captured out) <= 4095)%nat.
Proof. unfold captured. rewrite length_take. change (Z.to_nat (CAPTURE_SIZE - 1)) with 4095%nat. lia. Qed.

Lemma capture_char_step (s0 s : screen) (out : list Z) (c : Z) :
  capturing s0 s out -> capturing s0 (print_char_impl s c) (out ++ [c]).
Proof.
  intros [Hon Hlen Hpos Htake Hv]. unfold print_char_impl. rewrite Hon. unfold capture_char. fold (kept c).
  assert (E : captured (out ++ [c]) =
    if kept c && (Z.of_nat (length (captured out)) <? CAPTURE_SIZE - 1) then captured out ++ [c] else captured out).
  { unfold captured. rewrite List.filter_app. cbn [List.filter]. change (Z.to_nat (CAPTURE_SIZE - 1)) with 4095%nat.
    change (CAPTURE_SIZE - 1) with 4095. rewrite length_take.
    destruct (kept c); cbn [andb]; [|by rewrite app_nil_r].
    destruct (Z.ltb_spec (Z.of_nat (4095 `min` length (List.filter kept out))) 4095).
    - rewrite !take_ge; [done|lia|rewrite length_app; simpl; lia].
    - by rewrite take_app_le by lia. }
  rewrite Hpos. destruct (kept c) eqn:Hk; cbn [andb] in E; [|by split; rewrite ?E].
  destruct (Z.ltb_spec (Z.of_nat (length (captured out))) (CAPTURE_SIZE - 1)) as [Hlt|]; [|by split; rewrite ?E].
  assert (Hb : (length (captured out) < length (capture_buf s))%nat).
  { rewrite Hlen. unfold CAPTURE_SIZE in *. lia. }
  split; cbn [with_capture capture_mode capture_buf capture_pos cursor_x cursor_y vram];
    rewrite ?E, ?length_app; try done.
  - by rewrite length_set_byte.
  - simpl. lia.
  - cbn [length]. unfold set_byte. rewrite Nat2Z.id, u8_small by (apply kept_byte in Hk; lia).
    rewrite Nat.add_1_r, (take_S_r _ _ c) by (by rewrite list_lookup_insert_eq).
    rewrite take_insert_ge by lia. by rewrite Htake.
Qed.

Lemma capture_chars_step (str : list Z) (s0 s : screen) (out : list Z) :
  capturing s0 s out -> capturing s0 (print_chars s str) (out ++ str).
Proof.
  revert s out; induction str as [|c str IH]; intros s out H; [by rewrite app_nil_r|].
  rewrite cons_middle, app_assoc. apply IH. by apply capture_char_step.
Qed.

Lemma capture_call_step (k : call) (s0 s : screen) (out : list Z) :
  prints k -> capturing s0 s out -> capturing s0 (run_call s k) (out ++ output k).
Proof.
  intros Hk H. assert (Hlog : forall o, capturing s0 (with_log s o) out).
  { destruct H. intros o. by split. }
  destruct k; try contradiction; cbn [run_call output].
  - by apply capture_char_step.
  - unfold print_string. rewrite (cap_on _ _ _ H). by apply capture_chars_step.
  - apply capture_chars_step, Hlog.
  - unfold print_int. destruct (num =? 0); [apply capture_char_step, Hlog|apply capture_chars_step, Hlog].
Qed.

Lemma capture_calls_step (ks : list call) (s0 s : screen) (out : list Z) :
  Forall prints ks -> capturing s0 s out -> capturing s0 (run_calls s ks) (out ++ concat (map output ks)).
Proof.
  intros Hks. revert s out; induction Hks as [|k ks Hk _ IH]; intros s out H; [by rewrite app_nil_r|].
  cbn [map concat]. rewrite app_assoc. apply IH. by apply capture_call_step.
Qed.

(** Output printed while capturing is on is returned by [get_capture]:
    the line breaks and printable characters of all the calls, in order, cut
    at 4095 characters, whatever the buffer held before; nothing of it
    reaches the screen. *)
Theorem capture_returns_output (s : screen) (ks : list call) :
  length (capture_buf s) = Z.to_nat CAPTURE_SIZE -> Forall prints ks ->
  let s' := run_calls (set_capture s true) ks in
  fst (get_capture s') = captured (concat (map output ks)) /\
  vram s' = vram s /\ cursor_x s' = cursor_x s /\ cursor_y s' = cursor_y s.
Proof.
  intros Hl Hks s'. assert (H0 : capturing s (set_capture s true) []).
  { split; cbn; try done. by rewrite length_set_byte. }
  destruct (capture_calls_step ks s _ [] Hks H0) as [Hon Hlen Hpos Htake (Hx & Hy & Hv)].
  split; [|done]. rewrite app_nil_l in *. subst s'. unfold get_capture. cbn [fst].
  set (s1 := run_calls _ _) in *. set (out := captured _) in *.
  pose proof (length_captured (concat (map output ks))) as Hle. fold out in Hle.
  unfold clamp_pos. rewrite Hpos, (proj2 (Z.leb_gt _ _)) by (unfold CAPTURE_SIZE; lia).
  unfold set_byte. rewrite Nat2Z.id, insert_take_drop by (rewrite Hlen; unfold CAPTURE_SIZE; lia).
  rewrite Htake. rewrite until_nul_app by apply captured_nonzero. cbn [until_nul]. apply app_nil_r.
Qed.

(** Numbers print as their digits: [print_int] shows the decimal digits
    of the number without leading zeros and [print_hex] "0x" and its eight
    hexadecimal digits, for every 32-bit value (the buffers never overflow),
    and both send the same characters to the serial log. *)
Theorem numbers_print_as_digits (s : screen) (num : Z) :
  0 <= num < 4294967296 ->
  (exists ds, print_int s num = print_chars (with_log s (serial_write_string (log s) ds)) ds /\
     Forall (fun c => 48 <= c <= 57) ds /\ digits_value 10 dec_digit ds = num /\
     (head ds = Some 48 -> ds = [48])) /\
  (exists ds, print_hex s num =
       print_chars (with_log s (serial_write_string (log s) ([48; 120] ++ ds))) ([48; 120] ++ ds) /\
     length ds = 8%nat /\ digits_value 16 hex_digit ds = num).
Proof.
  intros Hn. split.
  - unfold print_int, serial_write_int. destruct (Z.eqb_spec num 0) as [->|Hz].
    + exists [48]. split; [reflexivity|]. split; [constructor; [lia|constructor]|]. by split.
    + destruct (int_string_spec num ltac:(lia)) as (H1 & H2 & H3). exists (int_string num).
      split; [reflexivity|]. by repeat split.
  - destruct (hex_string_spec num Hn) as (ds & E & Hl & _ & Hv). exists ds.
    unfold print_hex, serial_write_hex. by rewrite E.
Qed.

(** ** Witnesses *)

(** A console at boot in text mode, and one with a frame buffer of 64 by 32
    pixels at 0xE0000000 *)
Definition boot_screen : screen :=
  mkScreen 0 0 false (replicate (Z.to_nat CAPTURE_SIZE) 0) 0 0 ∅ (mkGfx 0 false 0 0 0 0 0) [].

Definition demo_fb : gfx := init_graphics 3758096384 64 32 256 32.

Definition boot_graphics : screen :=
  mkScreen 0 0 false (replicate (Z.to_nat CAPTURE_SIZE) 0) 0 0 ∅ demo_fb [].

Lemma demo_fb_ok : fb_ok demo_fb.
Proof.
  split; change (fb_bpp_bytes demo_fb) with 4; change (fb_width demo_fb) with 64;
    change (fb_height demo_fb) with 32; change (fb_pitch demo_fb) with 256;
    change (lfb_ptr demo_fb) with 3758096384; lia.
Qed.

Lemma text_console_refines_terminal_witness :
  vget (vram (run_calls (clear_screen boot_screen) [PrintString [72; 10; 105]])) 80 = 3840 + 105.
Proof.
  destruct (text_console_refines_terminal (clear_screen boot_screen) _ [PrintString [72; 10; 105]]
    (proj1 (text_cleared boot_screen eq_refl eq_refl))) as [H _].
  { repeat constructor; lia. }
  exact (tx_cells _ _ H 1 0 ltac:(unfold MAX_ROWS; lia) ltac:(unfold MAX_COLS; lia)).
Defined.

Lemma graphics_console_refines_terminal_witness :
  pixel demo_fb (vram (run_calls (clear_screen boot_graphics) [PrintString [10; 33]])) 3 18 =
    [192; 192; 192; 0].
Proof.
  destruct (graphics_console_refines_terminal demo_fb (clear_screen boot_graphics) _ [PrintString [10; 33]]
    (proj1 (gfx_cleared demo_fb boot_graphics eq_refl eq_refl eq_refl demo_fb_ok
              (conj (eq_refl : 0 < text_cols demo_fb) (eq_refl : 0 < text_rows demo_fb))))) as [H _].
  { repeat constructor; lia. }
  apply (gx_shown _ _ _ H 3 18).
  split; [change (fb_width demo_fb) with 64|change (fb_height demo_fb) with 32]; lia.
Defined.

Lemma capture_returns_output_witness :
  fst (get_capture (run_calls (set_capture boot_screen true) [PrintString [72; 7]; PrintInt 42])) = [72; 52; 50].
Proof.
  destruct (capture_returns_output boot_screen [PrintString [72; 7]; PrintInt 42]) as [H _].
  - apply length_replicate.
  - repeat constructor.
  - rewrite H. reflexivity.
Defined.

Lemma numbers_print_as_digits_witness :
  exists ds, print_int boot_screen 4294967295 =
    print_chars (with_log boot_screen (serial_write_string [] ds)) ds /\
    digits_value 10 dec_digit ds = 4294967295.
Proof.
  destruct (numbers_print_as_digits boot_screen 4294967295 ltac:(lia)) as [(ds & H1 & _ & H2 & _) _].
  exists ds. split; [exact H1|exact H2].
Defined.

(** ** What set_cursor does not check *)

(** A character on row 30 of the 25 is stored behind the text buffer. *)
Theorem cursor_outside_screen :
  let s := run_calls boot_screen [SetCursor 0 30; PrintChar 65] in
  vget (vram s) (30 * 80) = 3840 + 65 /\ ~ in_text (video (30 * 80)).
Proof. split; [vm_compute; reflexivity|unfold in_text, video; vm_compute; intuition discriminate]. Qed.

(** A character on row -1 of the graphics console is drawn in front of the
    frame buffer. *)
Theorem cursor_above_screen :
  let s := run_calls boot_graphics [SetCursor 0 (-1); PrintChar 33] in
  let a := lfb_ptr demo_fb - 14 * fb_pitch demo_fb + 3 * fb_bpp_bytes demo_fb in
  a < lfb_ptr demo_fb /\ load8 (vram boot_graphics) a = 0 /\ load8 (vram s) a = 192.
Proof. vm_compute. repeat split; reflexivity. Qed.
