(* ===== verification/Pci.v ===== *)
(** * Port access (kernel/cpu/ports.h) and kernel/drivers/pci.c

    A machine is a state with port reads and writes, which may change it,
    and byte memory, which its devices may write to at any such step.  The
    PCI code reads and writes configuration space through two ports. *)
From S2P Require Import Prelude Bytes Memory.

(** ** Machines *)

Definition IO (W A : Type) : Type := W -> A * W.

Definition io_ret {W A : Type} (x : A) : IO W A := fun w => (x, w).

Definition io_bind {W A B : Type} (m : IO W A) (f : A -> IO W B) : IO W B :=
  fun w => let '(x, w) := m w in f x w.

Declare Scope io_scope.
Delimit Scope io_scope with io.
Notation "x <- m ;; k" := (io_bind m (fun x => k)) (at level 100, m at next level, right associativity) : io_scope.
Notation "m ;;; k" := (io_bind m (fun _ => k)) (at level 100, right associativity) : io_scope.

(** The port instructions, and the memory the processor sees *)
Class Machine (W : Type) := {
  inb : Z -> IO W Z;
  inw : Z -> IO W Z;
  inl : Z -> IO W Z;
  outb : Z -> Z -> IO W unit;
  outw : Z -> Z -> IO W unit;
  outl : Z -> Z -> IO W unit;
  ram : W -> memory;
  set_ram : memory -> IO W unit
}.

Module Pci.
Open Scope io_scope.

Definition PCI_ADDR_PORT : Z := 3320.

Definition PCI_DATA_PORT : Z := 3324.

(** The address word of a configuration register *)
Definition config_addr (bus slot func offset : Z) : Z :=
  Z.lor (Z.lor (Z.lor (Z.lor 2147483648 (u32 (Z.shiftl bus 16))) (Z.shiftl (Z.land slot 31) 11))
           (Z.shiftl (Z.land func 7) 8)) (Z.land offset 252).

Section pci.

Context {W : Type} `{Machine W}.

Definition pci_config_read (bus slot func offset : Z) : IO W Z :=
  outl PCI_ADDR_PORT (config_addr bus slot func offset) ;;;
  inl PCI_DATA_PORT.

Definition pci_config_write (bus slot func offset val : Z) : IO W unit :=
  outl PCI_ADDR_PORT (config_addr bus slot func offset) ;;;
  outl PCI_DATA_PORT val.

(** [(bus << 8) | (slot << 3) | func] *)
Definition pci_pack (bus slot func : Z) : Z :=
  u16 (Z.lor (Z.lor (Z.shiftl bus 8) (Z.shiftl slot 3)) func).

(** The three loops of [pci_find_device], from [func], [slot] and [bus] on *)
Fixpoint scan_funcs (n : nat) (vendor device bus slot func : Z) : IO W (option Z) :=
  match n with
  | O => io_ret None
  | S n =>
      vd <- pci_config_read bus slot func 0 ;;
      if (Z.land vd 65535 =? vendor) && (Z.land (Z.shiftr vd 16) 65535 =? device)
      then io_ret (Some (pci_pack bus slot func))
      else if func =? 0 then
        hdr <- pci_config_read bus slot func 12 ;;
        if Z.land hdr 8388608 =? 0 then io_ret None
        else scan_funcs n vendor device bus slot (func + 1)
      else scan_funcs n vendor device bus slot (func + 1)
  end.

Fixpoint scan_slots (n : nat) (vendor device bus slot : Z) : IO W (option Z) :=
  match n with
  | O => io_ret None
  | S n =>
      r <- scan_funcs 8 vendor device bus slot 0 ;;
      match r with
      | Some d => io_ret (Some d)
      | None => scan_slots n vendor device bus (slot + 1)
      end
  end.

Fixpoint scan_buses (n : nat) (vendor device bus : Z) : IO W (option Z) :=
  match n with
  | O => io_ret None
  | S n =>
      r <- scan_slots 32 vendor device bus 0 ;;
      match r with
      | Some d => io_ret (Some d)
      | None => scan_buses n vendor device (bus + 1)
      end
  end.

Definition pci_find_device (vendor device : Z) : IO W Z :=
  r <- scan_buses 256 vendor device 0 ;; io_ret (default 65535 r).

Definition pci_read_bar (bus slot func bar : Z) : IO W Z := pci_config_read bus slot func (u8 (16 + bar * 4)).

Definition pci_read_int_line (bus slot func : Z) : IO W Z :=
  v <- pci_config_read bus slot func 60 ;; io_ret (u8 (Z.shiftr v 8)).

Definition pci_unpack (dev : Z) : Z * Z * Z :=
  (Z.land (Z.shiftr dev 8) 255, Z.land (Z.shiftr dev 3) 31, Z.land dev 7).

End pci.

(** ** The search

    [config w a] is what the data port reads once [a] has been written to
    the address port (PCI configuration mechanism 1); reading changes no
    register. *)
Class PciBus (W : Type) `{Machine W} := {
  config : W -> Z -> Z;
  config_read w a : 0 <= a < 4294967296 -> Z.testbit a 31 = true ->
    exists w', (outl PCI_ADDR_PORT a ;;; inl PCI_DATA_PORT) w = (config w a, w') /\ config w' = config w
}.

(** The functions of a device in the order of their packed numbers *)
Definition reg (cfg : Z -> Z) (n offset : Z) : Z :=
  cfg (config_addr (n / 256) (n / 8 mod 32) (n mod 8) offset).

Definition matches (cfg : Z -> Z) (vendor device n : Z) : bool :=
  (reg cfg n 0 mod 65536 =? vendor) && (reg cfg n 0 / 65536 mod 65536 =? device).

(** Functions other than 0 exist on devices with the multi-function bit only. *)
Definition visible (cfg : Z -> Z) (n : Z) : bool :=
  (n mod 8 =? 0) || Z.testbit (reg cfg (n - n mod 8) 12) 23.

Definition wanted (cfg : Z -> Z) (vendor device n : Z) : bool := visible cfg n && matches cfg vendor device n.

Lemma config_addr_ok (bus slot func offset : Z) :
  0 <= config_addr bus slot func offset < 4294967296 /\
  Z.testbit (config_addr bus slot func offset) 31 = true.
Proof.
  assert (Hm : forall x k j, 0 <= k -> 0 <= j -> k + j <= 32 -> 0 <= Z.shiftl (Z.land x (Z.ones k)) j < 2 ^ 32).
  { intros x k j Hk Hj Hkj. rewrite Z.land_ones, Z.shiftl_mul_pow2 by lia.
    pose proof (Z.mod_pos_bound x (2 ^ k) ltac:(apply Z.pow_pos_nonneg; lia)).
    assert (0 < 2 ^ j) by (apply Z.pow_pos_nonneg; lia).
    assert (2 ^ k * 2 ^ j <= 2 ^ 32) by (rewrite <- Z.pow_add_r by lia; apply Z.pow_le_mono_r; lia). nia. }
  unfold config_addr. split.
  - change 4294967296 with (2 ^ 32). repeat apply lor_range; try lia.
    + apply u32_range.
    + apply (Hm slot 5 11); lia.
    + apply (Hm func 3 8); lia.
    + pose proof (Z.land_nonneg offset 252) as Hn. split; [apply Hn; lia|].
      assert (Z.land offset 252 <= 252); [|lia]. apply Z.ldiff_le; [lia|].
      apply Z.bits_inj'. intros n _. rewrite Z.ldiff_spec, Z.land_spec, Z.bits_0.
      by destruct (Z.testbit offset n), (Z.testbit 252 n).
  - rewrite !Z.lor_spec. by rewrite !orb_true_iff; left; left; left; left.
Qed.

Lemma pack_number (bus slot func : Z) :
  0 <= bus < 256 -> 0 <= slot < 32 -> 0 <= func < 8 -> pci_pack bus slot func = bus * 256 + slot * 8 + func.
Proof.
  intros Hb Hs Hf. unfold pci_pack. rewrite <- Z.lor_assoc, (lor_low slot func 3) by lia.
  rewrite lor_low by (change (2 ^ 3) with 8; change (2 ^ 8) with 256; lia).
  change (2 ^ 3) with 8. change (2 ^ 8) with 256. unfold u16. rewrite Z.mod_small by lia. lia.
Qed.

Section search.

Context {W : Type} `{PciBus W}.

Lemma config_read_run (w : W) (bus slot func offset : Z) :
  exists w', pci_config_read bus slot func offset w = (config w (config_addr bus slot func offset), w') /\
    config w' = config w.
Proof. destruct (config_addr_ok bus slot func offset). by apply config_read. Qed.

(** [m] reads configuration space only and returns [r]. *)
Definition finds (w : W) (m : IO W (option Z)) (r : option Z) : Prop :=
  exists w', m w = (r, w') /\ config w' = config w.

Lemma finds_bind (w : W) (m : IO W (option Z)) (k : option Z -> IO W (option Z)) (r r' : option Z) :
  finds w m r -> (forall w', config w' = config w -> finds w' (k r) r') -> finds w (io_bind m k) r'.
Proof.
  intros (w1 & E1 & C1) Hk. destruct (Hk w1 C1) as (w2 & E2 & C2). exists w2. unfold io_bind.
  rewrite E1. split; [exact E2|congruence].
Qed.

Lemma finds_read (w : W) (bus slot func offset : Z) (k : Z -> IO W (option Z)) (r : option Z) :
  (forall w', config w' = config w -> finds w' (k (config w (config_addr bus slot func offset))) r) ->
  finds w (io_bind (pci_config_read bus slot func offset) k) r.
Proof.
  intros Hk. destruct (config_read_run w bus slot func offset) as (w1 & E1 & C1).
  destruct (Hk w1 C1) as (w2 & E2 & C2). exists w2. unfold io_bind. rewrite E1. split; [exact E2|congruence].
Qed.

Lemma scan_funcs_finds (vendor device bus slot : Z) (n : nat) (func : Z) (w : W) :
  0 <= bus < 256 -> 0 <= slot < 32 -> 0 <= func -> func + Z.of_nat n = 8 ->
  (0 < func -> Z.testbit (reg (config w) (bus * 256 + slot * 8) 12) 23 = true) ->
  finds w (scan_funcs n vendor device bus slot func)
    (find_up n (bus * 256 + slot * 8 + func) (wanted (config w) vendor device)).
Proof.
  intros Hb Hs. revert func w; induction n as [|n IH]; intros func w Hf Hn Hm.
  { by exists w. }
  assert (Hreg : forall cfg offset, cfg (config_addr bus slot func offset) = reg cfg (bus * 256 + slot * 8 + func) offset).
  { intros cfg offset. unfold reg. do 2 f_equal; div_mod_lia. }
  assert (Hbase : bus * 256 + slot * 8 + func - (bus * 256 + slot * 8 + func) mod 8 = bus * 256 + slot * 8)
    by div_mod_lia.
  assert (Hmod : (bus * 256 + slot * 8 + func) mod 8 = func) by div_mod_lia.
  cbn [scan_funcs find_up]. apply finds_read. intros w1 C1. rewrite Hreg.
  change (Z.land (reg (config w) (bus * 256 + slot * 8 + func) 0) 65535) with
    (Z.land (reg (config w) (bus * 256 + slot * 8 + func) 0) (Z.ones 16)).
  change 65535 with (Z.ones 16). rewrite !Z.land_ones, Z.shiftr_div_pow2 by lia. change (2 ^ 16) with 65536.
  unfold wanted at 1, visible. rewrite Hbase, Hmod.
  fold (matches (config w) vendor device (bus * 256 + slot * 8 + func)).
  assert (Hvis : (func =? 0) || Z.testbit (reg (config w) (bus * 256 + slot * 8) 12) 23 = true).
  { destruct (Z.eqb_spec func 0); [done|]. apply Hm. lia. }
  rewrite Hvis, andb_true_l.
  destruct (matches _ _ _ _); [exists w1; by rewrite pack_number by lia|].
  destruct (Z.eqb_spec func 0) as [->|Hne].
  - apply finds_read. intros w2 C2. rewrite Hreg, C1, Z.add_0_r.
    change 8388608 with (2 ^ 23). rewrite land_pow2 by lia.
    destruct (Z.testbit (reg (config w) (bus * 256 + slot * 8) 12) 23) eqn:Ht; cbn [Z.eqb].
    + rewrite <- C1, <- C2. replace (bus * 256 + slot * 8 + 1) with (bus * 256 + slot * 8 + (0 + 1)) by lia.
      apply IH; [lia|lia|]. intros _. by rewrite C2, C1.
    + exists w2. split; [|congruence]. f_equal. symmetry. apply find_up_None.
      intros y Hy. unfold wanted, visible.
      assert (y mod 8 <> 0 /\ y - y mod 8 = bus * 256 + slot * 8) as [Hy0 ->] by div_mod_lia.
      by rewrite (proj2 (Z.eqb_neq _ _) Hy0), Ht.
  - rewrite <- C1. replace (bus * 256 + slot * 8 + func + 1) with (bus * 256 + slot * 8 + (func + 1)) by lia.
    apply IH; [lia|lia|]. intros _. rewrite C1. apply Hm. lia.
Qed.

Lemma scan_slots_finds (vendor device bus : Z) (n : nat) (slot : Z) (w : W) :
  0 <= bus < 256 -> 0 <= slot -> slot + Z.of_nat n = 32 ->
  finds w (scan_slots n vendor device bus slot)
    (find_up (8 * n) (bus * 256 + slot * 8) (wanted (config w) vendor device)).
Proof.
  intros Hb. revert slot w; induction n as [|n IH]; intros slot w Hs Hn; [by exists w|].
  cbn [scan_slots]. replace (8 * S n)%nat with (8 + 8 * n)%nat by lia. rewrite find_up_app.
  eapply finds_bind; [apply scan_funcs_finds; lia|]. rewrite Z.add_0_r. intros w1 C1.
  destruct (find_up 8 _ _); [by exists w1|]. rewrite <- C1.
  replace (bus * 256 + slot * 8 + Z.of_nat 8) with (bus * 256 + (slot + 1) * 8) by lia. apply IH; lia.
Qed.

Lemma scan_buses_finds (vendor device : Z) (n : nat) (bus : Z) (w : W) :
  0 <= bus -> bus + Z.of_nat n = 256 ->
  finds w (scan_buses n vendor device bus)
    (find_up (256 * n) (bus * 256) (wanted (config w) vendor device)).
Proof.
  revert bus w; induction n as [|n IH]; intros bus w Hb Hn; [by exists w|].
  cbn [scan_buses]. replace (256 * S n)%nat with (8 * 32 + 256 * n)%nat by lia. rewrite find_up_app.
  eapply finds_bind; [apply scan_slots_finds; lia|].
  replace (bus * 256 + 0 * 8) with (bus * 256) by lia. intros w1 C1.
  destruct (find_up (8 * 32) _ _); [by exists w1|]. rewrite <- C1.
  replace (bus * 256 + Z.of_nat (8 * 32)) with ((bus + 1) * 256) by lia. apply IH; lia.
Qed.

(** [pci_find_device] returns the first function, in the order of bus,
    slot and function number, that exists and has the vendor and device
    numbers, and [pci_unpack] takes its number apart again; it returns
    0xFFFF only when no function matches (or the last one does). *)
Theorem pci_find_device_first (vendor device : Z) (w : W) :
  exists r w', pci_find_device vendor device w = (r, w') /\ config w' = config w /\
    ((r = 65535 /\ forall n, 0 <= n < 65536 -> wanted (config w) vendor device n = false) \/
     (0 <= r < 65536 /\ wanted (config w) vendor device r = true /\
      (forall n, 0 <= n < r -> wanted (config w) vendor device n = false) /\
      pci_unpack r = (r / 256, r / 8 mod 32, r mod 8))).
Proof.
  destruct (scan_buses_finds vendor device 256 0 w ltac:(lia) ltac:(lia)) as (w1 & E & C1).
  exists (default 65535 (find_up (256 * 256) (0 * 256) (wanted (config w) vendor device))), w1.
  split; [unfold pci_find_device, io_bind; by rewrite E|]. split; [done|].
  assert (Hn : Z.of_nat (256 * 256) = 65536) by (rewrite Nat2Z.inj_mul; reflexivity).
  destruct (find_up _ _ _) as [r|] eqn:Ef.
  - right. apply find_up_Some in Ef as (Hr & Hw & Hlt). rewrite Hn in Hr. change (default 65535 (Some r)) with r.
    split; [lia|]. split; [done|]. split; [intros n Hn'; apply Hlt; lia|].
    unfold pci_unpack. change 255 with (Z.ones 8). change 31 with (Z.ones 5). change 7 with (Z.ones 3).
    rewrite !Z.land_ones, !Z.shiftr_div_pow2 by lia.
    change (2 ^ 8) with 256. change (2 ^ 3) with 8. change (2 ^ 5) with 32.
    by rewrite (Z.mod_small (r / 256)) by div_mod_lia.
  - left. split; [done|]. intros n Hn'. apply (proj1 (find_up_None _ _ _) Ef). rewrite Hn. lia.
Qed.

End search.

(** A bus with one card, in slot 3 of bus 0 *)
Definition demo_config (a : Z) : Z := if a =? config_addr 0 3 0 0 then 2168000748 else 0.

#[local] Instance demo_machine : Machine Z := {|
  inb := fun _ => io_ret 0; inw := fun _ => io_ret 0;
  inl := fun _ => fun w => (demo_config w, w);
  outb := fun _ _ => io_ret tt; outw := fun _ _ => io_ret tt; outl := fun _ v => fun _ => (tt, v);
  ram := fun _ => ∅; set_ram := fun _ => io_ret tt |}.

#[local] Instance demo_bus : PciBus Z.
Proof. refine {| config := fun _ => demo_config |}. intros w a _ _. by exists a. Defined.

Lemma pci_find_device_first_witness :
  fst (pci_find_device 4332 33081 0) = 24 /\ wanted demo_config 4332 33081 24 = true.
Proof.
  destruct (pci_find_device_first 4332 33081 0) as (r & w' & E & _ & H).
  assert (Er : fst (pci_find_device 4332 33081 0) = 24) by (vm_compute; reflexivity).
  split; [exact Er|]. rewrite E in Er. cbn [fst] in Er. subst r.
  destruct H as [[H _]|(_ & H & _)]; [discriminate H|exact H].
Defined.

End Pci.
