(* ===== verification/SerialPort.v ===== *)
(** * kernel/drivers/serial.c at the ports

    [Serial] is the log as the rest of the kernel sees it: a list of port
    writes.  Here the routines poll the line status before each byte, as
    the code does, on a machine with a UART after the data sheet of the
    16550 ([Uart]).  The theorem joins the two: the bytes that reach the line
    are those of the log, in order, and every call returns.  Input is here
    only.  The polling loops take fuel. *)
From S2P Require Import Prelude Bytes Memory Pci Serial.

Module SerialPort.
Import Serial(COM1, hex_buf, int_string, until_nul).
Open Scope io_scope.

Section port.

Context {W : Type} `{Machine W}.

Definition is_transmit_empty : IO W Z := v <- inb (COM1 + 5) ;; io_ret (Z.land v 32).

Definition init_serial : IO W unit :=
  outb (COM1 + 1) 0 ;;;
  outb (COM1 + 3) 128 ;;;
  outb (COM1 + 0) 1 ;;;
  outb (COM1 + 1) 0 ;;;
  outb (COM1 + 3) 3 ;;;
  outb (COM1 + 2) 199 ;;;
  outb (COM1 + 4) 11.

(** [while (!is_transmit_empty());] *)
Fixpoint transmit_wait (fuel : nat) (w : W) : option W :=
  match fuel with
  | O => None
  | S fuel => let '(v, w) := is_transmit_empty w in if v =? 0 then transmit_wait fuel w else Some w
  end.

Definition serial_write_char_impl (fuel : nat) (c : Z) (w : W) : option W :=
  w ← transmit_wait fuel w;
  let w := if c =? 10 then snd (outb COM1 13 w) else w in
  Some (snd (outb COM1 (u8 c) w)).

Definition serial_write_char (fuel : nat) (c : Z) (w : W) : option W := serial_write_char_impl fuel c w.

(** The loop over the characters before the NUL *)
Fixpoint serial_write_string (fuel : nat) (str : list Z) (w : W) : option W :=
  match str with
  | [] => Some w
  | c :: str => w ← serial_write_char_impl fuel c w; serial_write_string fuel str w
  end.

Definition serial_write_hex (fuel : nat) (num : Z) : W -> option W :=
  serial_write_string fuel (until_nul (hex_buf num)).

Definition serial_write_int (fuel : nat) (num : Z) : W -> option W :=
  if num =? 0 then serial_write_char_impl fuel 48 else serial_write_string fuel (int_string num).

Definition serial_data_available : IO W Z := v <- inb (COM1 + 5) ;; io_ret (Z.land v 1).

Fixpoint serial_read_char (fuel : nat) (w : W) : option (Z * W) :=
  match fuel with
  | O => None
  | S fuel =>
      let '(v, w) := serial_data_available w in
      if v =? 0 then serial_read_char fuel w else Some (inb COM1 w)
  end.

End port.

(** ** The UART

    [line] is what was sent so far, [arrived] what was received and not yet
    read.  While the transmitter is busy a byte would be lost, so that the
    law for the data register asks for it to be idle; in FIFO mode it then
    takes sixteen bytes.  [coming]: the number of status reads within which
    the next byte arrives, when one does. *)
Class Uart (W : Type) `{Machine W} := {
  dlab : W -> bool;
  divisor : W -> Z;
  lcr : W -> Z;
  line : W -> list Z;
  arrived : W -> list Z;
  room : W -> nat;
  busy : W -> nat;
  coming : W -> option nat;
  slowness : nat;
  busy_bound w : (busy w <= slowness)%nat;
  (** line status: bit 5 is set when the transmitter is empty *)
  status_law w : exists v w' new, inb (COM1 + 5) w = (v, w') /\
    dlab w' = dlab w /\ divisor w' = divisor w /\ lcr w' = lcr w /\ line w' = line w /\
    arrived w' = arrived w ++ new /\
    Z.testbit v 0 = negb (bool_decide (arrived w' = [])) /\
    (if Z.testbit v 5 then room w' = 16%nat else (busy w' < busy w)%nat) /\
    (arrived w' = [] -> forall n, coming w = Some n -> exists n', (n' < n)%nat /\ coming w' = Some n');
  (** the data register, without and with the divisor latch *)
  data_law w v n : dlab w = false -> room w = S n -> exists w', outb COM1 v w = (tt, w') /\
    dlab w' = false /\ divisor w' = divisor w /\ lcr w' = lcr w /\ line w' = line w ++ [v] /\ room w' = n;
  latch_low_law w v : dlab w = true -> exists w', outb (COM1 + 0) v w = (tt, w') /\
    dlab w' = true /\ divisor w' = 256 * (divisor w / 256) + v /\ lcr w' = lcr w /\ line w' = line w;
  receive_law w c l : dlab w = false -> arrived w = c :: l -> exists w' new, inb COM1 w = (c, w') /\
    arrived w' = l ++ new /\ line w' = line w;
  (** COM1 + 1: the interrupt mask, or the high byte of the divisor *)
  latch_high_law w v : exists w', outb (COM1 + 1) v w = (tt, w') /\
    dlab w' = dlab w /\ lcr w' = lcr w /\ line w' = line w /\
    divisor w' = if dlab w then 256 * v + divisor w mod 256 else divisor w;
  (** COM1 + 3: word length, parity, stop bits; bit 7 is the latch *)
  lcr_law w v : exists w', outb (COM1 + 3) v w = (tt, w') /\
    dlab w' = Z.testbit v 7 /\ lcr w' = v /\ line w' = line w /\ divisor w' = divisor w;
  (** FIFO control and modem control *)
  control_law w k v : k = 2 \/ k = 4 -> exists w', outb (COM1 + k) v w = (tt, w') /\
    dlab w' = dlab w /\ lcr w' = lcr w /\ line w' = line w /\ divisor w' = divisor w
}.

Section uart.

Context {W : Type} `{Uart W}.

(** The bytes a character of the log takes on the line *)
Definition crlf (c : Z) : list Z := if c =? 10 then [13; 10] else [u8 c].

(** What output leaves alone *)
Definition settings (w : W) : bool * Z * Z := (dlab w, divisor w, lcr w).

Lemma transmit_wait_ready (fuel : nat) (w : W) : (busy w < fuel)%nat ->
  exists w', transmit_wait fuel w = Some w' /\ settings w' = settings w /\ line w' = line w /\ room w' = 16%nat.
Proof.
  revert w. induction fuel as [|fuel IH]; intros w Hf; [lia|].
  cbn [transmit_wait]. unfold is_transmit_empty, io_bind.
  destruct (status_law w) as (v & w' & new & -> & Hd & Hv & Hl & Hs & _ & _ & Hr & _). unfold io_ret.
  change 32 with (2 ^ 5). rewrite land_pow2 by lia. destruct (Z.testbit v 5).
  - exists w'. unfold settings. by rewrite Hd, Hv, Hl.
  - destruct (IH w') as (w2 & E & Hset & Hline & Hroom); [lia|]. exists w2.
    split; [exact E|]. split; [rewrite Hset; unfold settings; by rewrite Hd, Hv, Hl|]. by rewrite Hline.
Qed.

Lemma data_out (w : W) (v : Z) (n : nat) : dlab w = false -> room w = S n ->
  let w' := snd (outb COM1 v w) in settings w' = settings w /\ line w' = line w ++ [v] /\ room w' = n.
Proof.
  intros Hd Hr. destruct (data_law w v n Hd Hr) as (w' & -> & Hd' & Hv & Hl & Hline & Hroom). cbn [snd].
  unfold settings. by rewrite Hd, Hd', Hv, Hl.
Qed.

Lemma write_char_sends (fuel : nat) (c : Z) (w : W) : dlab w = false -> (slowness < fuel)%nat ->
  exists w', serial_write_char_impl fuel c w = Some w' /\ settings w' = settings w /\ line w' = line w ++ crlf c.
Proof.
  intros Hd Hf. unfold serial_write_char_impl. pose proof (busy_bound w).
  destruct (transmit_wait_ready fuel w) as (w1 & -> & Hs1 & Hl1 & Hr1); [lia|]. cbn [mbind option_bind].
  assert (Hd1 : dlab w1 = false) by (unfold settings in Hs1; congruence).
  destruct (data_out w1 13 _ Hd1 Hr1) as (Hs2 & Hl2 & Hr2). eexists. split; [reflexivity|].
  unfold crlf. destruct (Z.eqb_spec c 10) as [->|].
  - destruct (data_out (snd (outb COM1 13 w1)) (u8 10) 14) as (Hs3 & Hl3 & _); [unfold settings in Hs2; congruence|done|].
    split; [congruence|]. rewrite Hl3, Hl2, Hl1, <- app_assoc. done.
  - destruct (data_out w1 (u8 c) _ Hd1 Hr1) as (Hs3 & Hl3 & _). split; [congruence|]. by rewrite Hl3, Hl1.
Qed.

Lemma write_string_sends (fuel : nat) (str : list Z) (w : W) : dlab w = false -> (slowness < fuel)%nat ->
  exists w', serial_write_string fuel str w = Some w' /\ settings w' = settings w /\
    line w' = line w ++ flat_map crlf str.
Proof.
  revert w. induction str as [|c str IH]; intros w Hd Hf; cbn [serial_write_string flat_map].
  { exists w. by rewrite app_nil_r. }
  destruct (write_char_sends fuel c w Hd Hf) as (w1 & -> & Hs1 & Hl1). cbn [mbind option_bind].
  destruct (IH w1) as (w2 & -> & Hs2 & Hl2); [unfold settings in Hs1; congruence|exact Hf|].
  exists w2. split; [done|]. split; [congruence|]. by rewrite Hl2, Hl1, <- app_assoc.
Qed.

(** The same in terms of the log *)
Lemma log_char (o : list (Z * Z)) (c : Z) : Serial.serial_write_char_impl o c = o ++ map (pair COM1) (crlf c).
Proof.
  unfold Serial.serial_write_char_impl, Serial.outb, crlf. destruct (Z.eqb_spec c 10) as [->|]; [by rewrite <- app_assoc|done].
Qed.

Lemma log_string (str : list Z) (o : list (Z * Z)) :
  fold_left Serial.serial_write_char_impl str o = o ++ map (pair COM1) (flat_map crlf str).
Proof.
  revert o. induction str as [|c str IH]; intros o; cbn [fold_left flat_map]; [by rewrite app_nil_r|].
  by rewrite IH, log_char, <- app_assoc, <- map_app.
Qed.

(** A routine of this file sends what the routine of [Serial] logs. *)
Definition sends (f : W -> option W) (logs : list (Z * Z) -> list (Z * Z)) : Prop :=
  forall w, dlab w = false -> exists w' bytes, f w = Some w' /\ settings w' = settings w /\
    line w' = line w ++ bytes /\ forall o, logs o = o ++ map (pair COM1) bytes.

(** C21: On a 16550 UART every output routine returns (the polling loop needs
    no more rounds than the transmitter is slow) and the bytes that reach
    the line are exactly those that the log model records, in order, with a
    carriage return before each line feed; the line's settings stay as they
    were. *)
Theorem uart_sends_log (fuel : nat) (str : list Z) (c num : Z) : (slowness < fuel)%nat ->
  sends (serial_write_char fuel c) (fun o => Serial.serial_write_char o c) /\
  sends (serial_write_string fuel str) (fun o => Serial.serial_write_string o str) /\
  sends (serial_write_hex fuel num) (fun o => Serial.serial_write_hex o num) /\
  sends (serial_write_int fuel num) (fun o => Serial.serial_write_int o num).
Proof.
  intros Hf.
  assert (Hc : forall c, sends (serial_write_char_impl fuel c) (fun o => Serial.serial_write_char_impl o c)).
  { intros c' w Hd. destruct (write_char_sends fuel c' w Hd Hf) as (w' & E & Hs & Hl). exists w', (crlf c').
    repeat split; [exact E|exact Hs|exact Hl|]. intros o. apply log_char. }
  assert (Hstr : forall l, sends (serial_write_string fuel l) (fun o => fold_left Serial.serial_write_char_impl l o)).
  { intros l w Hd. destruct (write_string_sends fuel l w Hd Hf) as (w' & E & Hs & Hl). exists w', (flat_map crlf l).
    repeat split; [exact E|exact Hs|exact Hl|]. intros o. apply log_string. }
  split; [apply Hc|]. split; [apply Hstr|]. split; [apply Hstr|].
  unfold serial_write_int, Serial.serial_write_int. destruct (num =? 0); [apply Hc|apply Hstr].
Qed.

(** init_serial sets 115200 baud (divisor 1), eight bits without parity, and
    leaves the divisor latch closed; nothing is sent. *)
Theorem init_serial_settings (w : W) :
  let w' := snd (init_serial w) in settings w' = (false, 1, 3) /\ line w' = line w.
Proof.
  unfold init_serial, io_bind.
  destruct (latch_high_law w 0) as (w1 & -> & D1 & L1 & S1 & V1).
  destruct (lcr_law w1 128) as (w2 & -> & D2 & L2 & S2 & V2).
  destruct (latch_low_law w2 1 D2) as (w3 & -> & D3 & V3 & L3 & S3).
  destruct (latch_high_law w3 0) as (w4 & -> & D4 & L4 & S4 & V4).
  destruct (lcr_law w4 3) as (w5 & -> & D5 & L5 & S5 & V5).
  destruct (control_law w5 2 199 ltac:(lia)) as (w6 & -> & D6 & L6 & S6 & V6).
  destruct (control_law w6 4 11 ltac:(lia)) as (w7 & -> & D7 & L7 & S7 & V7). cbn [snd].
  split; [|congruence]. unfold settings. rewrite D3 in V4. change (Z.testbit 3 7) with false in D5.
  assert (divisor w4 = 1) as Ev by (rewrite V4, V3; div_mod_lia). congruence.
Qed.

(** serial_read_char returns the oldest byte that was received, once there
    is one. *)
Theorem read_char_oldest (n fuel : nat) (w : W) : dlab w = false -> arrived w <> [] \/ coming w = Some n -> (n < fuel)%nat ->
  exists c w' l, serial_read_char fuel w = Some (c, w') /\ line w' = line w /\ arrived w' = l /\
    exists l0, arrived w ++ l0 = c :: l.
Proof.
  revert n w. induction fuel as [|fuel IH]; intros n w Hd Hc Hf; [lia|]. cbn [serial_read_char].
  unfold serial_data_available, io_bind.
  destruct (status_law w) as (v & w1 & new & -> & Hd1 & _ & _ & Hs & Ha & Hb & _ & Hn). unfold io_ret.
  change 1 with (2 ^ 0) at 1. rewrite land_pow2, Hb by lia.
  destruct (bool_decide_reflect (arrived w1 = [])) as [E|E]; cbn [negb Z.eqb].
  - assert (Ew : arrived w = []) by (rewrite E in Ha; symmetry in Ha; by apply app_nil in Ha as [-> _]).
    destruct Hc as [Hc|Hc]; [done|]. destruct (Hn E n Hc) as (n' & Hlt & Hc').
    destruct (IH n' w1) as (c & w' & l & E1 & Hl & Hr & l0 & E2); [congruence|by right|lia|].
    exists c, w', l. split; [exact E1|]. split; [congruence|]. split; [exact Hr|]. exists l0.
    by rewrite E in E2; rewrite Ew.
  - destruct (arrived w1) as [|c l] eqn:Ea; [done|].
    destruct (receive_law w1 c l) as (w' & new' & -> & Hr & Hl); [congruence|exact Ea|].
    exists c, w', (l ++ new'). split; [done|]. split; [congruence|]. split; [exact Hr|].
    exists (new ++ new'). by rewrite app_assoc, <- Ha.
Qed.

End uart.

(** ** A UART that is busy for one status read after each byte *)

Record chip := mkChip {
  u_dlab : bool; u_div : Z; u_lcr : Z; u_line : list Z; u_in : list Z; u_room : nat; u_busy : bool }.

Definition chip_inb (port : Z) (w : chip) : Z * chip :=
  if port =? COM1 + 5 then
    ((if u_busy w then 0 else 32) + (match u_in w with [] => 0 | _ => 1 end),
     mkChip (u_dlab w) (u_div w) (u_lcr w) (u_line w) (u_in w) (if u_busy w then u_room w else 16%nat) false)
  else match u_in w with
       | c :: l => (c, mkChip (u_dlab w) (u_div w) (u_lcr w) (u_line w) l (u_room w) (u_busy w))
       | [] => (0, w)
       end.

Definition chip_outb (port v : Z) (w : chip) : unit * chip :=
  (tt,
   if port =? COM1 then
     if u_dlab w
     then mkChip true (256 * (u_div w / 256) + v) (u_lcr w) (u_line w) (u_in w) (u_room w) (u_busy w)
     else mkChip false (u_div w) (u_lcr w) (u_line w ++ [v]) (u_in w) (Nat.pred (u_room w)) true
   else if port =? COM1 + 1 then
     mkChip (u_dlab w) (if u_dlab w then 256 * v + u_div w mod 256 else u_div w) (u_lcr w) (u_line w) (u_in w)
       (u_room w) (u_busy w)
   else if port =? COM1 + 3 then
     mkChip (Z.testbit v 7) (u_div w) v (u_line w) (u_in w) (u_room w) (u_busy w)
   else w).

#[local] Instance chip_machine : Machine chip := {|
  inb := chip_inb; inw := fun _ => io_ret 0; inl := fun _ => io_ret 0;
  outb := chip_outb; outw := fun _ _ => io_ret tt; outl := fun _ _ => io_ret tt;
  ram := fun _ => ∅; set_ram := fun _ => io_ret tt |}.

#[local] Instance chip_uart : Uart chip.
Proof.
  refine {| dlab := u_dlab; divisor := u_div; lcr := u_lcr; line := u_line; arrived := u_in; room := u_room;
            busy := fun w => if u_busy w then 1%nat else 0%nat; coming := fun _ => None; slowness := 1%nat |}.
  - intros w. destruct (u_busy w); lia.
  - intros w. do 2 eexists. exists []. split; [reflexivity|]. cbn -[Z.testbit Z.add].
    rewrite app_nil_r. repeat (split; [done|]).
    destruct (u_in w), (u_busy w); (split; [done|]); (split; [|done]); vm_compute; lia || reflexivity.
  - intros w v n Hd Hr. eexists. split; [reflexivity|]. cbn. rewrite Hd. cbn. by rewrite Hr.
  - intros w v Hd. eexists. split; [reflexivity|]. cbn. rewrite Hd. done.
  - intros w c l Hd Ha. do 2 eexists. unfold inb, chip_machine, chip_inb. rewrite Ha. split; [reflexivity|]. cbn.
    by rewrite app_nil_r.
  - intros w v. eexists. split; [reflexivity|]. by cbn.
  - intros w v. eexists. split; [reflexivity|]. by cbn.
  - intros w k v [-> | ->]; eexists; (split; [reflexivity|]); by cbn.
Defined.

Lemma uart_sends_log_witness :
  exists w', serial_write_string 2 [79; 75; 10] (mkChip false 1 3 [] [] 0 true) = Some w' /\
    line w' = [79; 75; 13; 10].
Proof.
  destruct (@uart_sends_log chip chip_machine chip_uart 2 [79; 75; 10] 0 0 (le_n 2)) as (_ & Hs & _).
  destruct (Hs (mkChip false 1 3 [] [] 0 true) eq_refl) as (w' & bytes & E & _ & Hl & Ho).
  exists w'. split; [exact E|]. change (u_line w' = [79; 75; 13; 10]). cbn in Hl. rewrite Hl. specialize (Ho []). cbn in Ho.
  destruct bytes as [|a [|b [|c [|d [|e r]]]]]; try discriminate Ho. by injection Ho as <- <- <- <-.
Defined.

End SerialPort.
