(* ===== verification/Rtl8139.v ===== *)
(** * kernel/drivers/rtl8139.c: the network card driver

    The driver's static variables are the record [rtl]; the card is behind
    the port instructions of [Machine] and writes received frames to memory
    by itself.  The caller's receive buffer and [*len] are arguments and
    results of [rtl8139_recv].  Waiting loops have the bounds of the source;
    the loop over received entries takes fuel. *)
From S2P Require Import Prelude Bytes Memory Lib FrameAlloc Pfa Pci.

Module Rtl8139.
Import Pfa Pci.
Open Scope io_scope.

Definition RTL_VENDOR : Z := 4332.

Definition RTL_DEVICE : Z := 33081.

Definition RT_IDR0 : Z := 0.

Definition RT_TX_STATUS : Z := 16.

Definition RT_TX_ADDR : Z := 32.

Definition RT_RBSTART : Z := 48.

Definition RT_CR : Z := 55.

Definition RT_CAPR : Z := 56.

Definition RT_CBR : Z := 58.

Definition RT_IMR : Z := 60.

Definition RT_ISR : Z := 62.

Definition RT_TX_CONFIG : Z := 64.

Definition RT_RX_CONFIG : Z := 68.

Definition RT_CONFIG1 : Z := 82.

Definition CR_RST : Z := 16.

Definition CR_RE : Z := 8.

Definition CR_TE : Z := 4.

Definition RCR_APM : Z := 2.

Definition RCR_AB : Z := 8.

Definition TX_HOST_OWNS : Z := 8192.

Definition TX_STAT_OK : Z := 32768.

Definition RX_STAT_OK : Z := 1.

Definition TX_IFG96 : Z := Z.shiftl 3 24.

Definition TX_DMA_BURST : Z := Z.shiftl 6 8.

Definition TX_RETRY : Z := Z.shiftl 15 4.

Definition RX_CFG_8K : Z := 0.

Definition RX_CFG_NO_WRAP : Z := Z.shiftl 1 7.

Definition RX_CFG_FIFO_NONE : Z := Z.shiftl 7 13.

Definition RX_CFG_DMA_UNLIM : Z := Z.shiftl 7 8.

Definition RX_BUF_SIZE : Z := 8192.

Definition TX_NUM : Z := 4.

Definition TX_BUF_SIZE : Z := 2048.

(** [tx_buf_virt] and [tx_buf_phys] hold the same addresses. *)
Record rtl := mkRtl {
  io_base : Z; mac : list Z; rx_buf : Z; tx_buf : list Z;
  rx_offset : Z; tx_in_use : list Z; tx_next_idx : Z
}.

Definition with_offset (d : rtl) (off : Z) : rtl :=
  mkRtl (io_base d) (mac d) (rx_buf d) (tx_buf d) off (tx_in_use d) (tx_next_idx d).

Definition with_tx (d : rtl) (idx in_use next : Z) : rtl :=
  mkRtl (io_base d) (mac d) (rx_buf d) (tx_buf d) (rx_offset d)
    (<[Z.to_nat idx := in_use]> (tx_in_use d)) next.

Definition tx_addr (d : rtl) (idx : Z) : Z := default 0 (tx_buf d !! Z.to_nat idx).

Section driver.

Context {W : Type} `{Machine W}.

Definition get_ram : IO W memory := fun w => (ram w, w).

(** [while (inb(CR) & CR_RST)] with at most [n] reads *)
Fixpoint reset_wait (n : nat) (base : Z) : IO W unit :=
  match n with
  | O => io_ret tt
  | S n => v <- inb (base + RT_CR) ;; if Z.land v CR_RST =? 0 then io_ret tt else reset_wait n base
  end.

Definition rtl8139_reset (base : Z) : IO W unit :=
  outb (base + RT_CR) CR_RST ;;; reset_wait (Z.to_nat 10001) base.

Fixpoint read_mac (n : nat) (base i : Z) : IO W (list Z) :=
  match n with
  | O => io_ret []
  | S n => b <- inb (base + RT_IDR0 + i) ;; r <- read_mac n base (i + 1) ;; io_ret (b :: r)
  end.

(** The transmit buffers from [i] on; false when a frame cannot be allocated *)
Fixpoint init_tx (n : nat) (i : Z) (d : rtl) (p : pfa) : IO W (bool * rtl * pfa) :=
  match n with
  | O => io_ret (true, d, p)
  | S n =>
      let '(a, p) := alloc_frame p in
      let d := mkRtl (io_base d) (mac d) (rx_buf d) (<[Z.to_nat i := a]> (tx_buf d)) (rx_offset d)
                 (tx_in_use d) (tx_next_idx d) in
      if a =? 0 then io_ret (false, d, p)
      else
        m <- get_ram ;;
        set_ram (Lib.lib_memset m a 0 TX_BUF_SIZE) ;;;
        outl (io_base d + RT_TX_ADDR + i * 4) a ;;;
        outl (io_base d + RT_TX_STATUS + i * 4) TX_HOST_OWNS ;;;
        init_tx n (i + 1) (with_tx d i 0 (tx_next_idx d)) p
  end.

Definition rtl8139_init (d : rtl) (p : pfa) : IO W (Z * rtl * pfa) :=
  dev <- pci_find_device RTL_VENDOR RTL_DEVICE ;;
  if dev =? 65535 then io_ret (-1, d, p)
  else
    let '(bus, slot, func) := pci_unpack dev in
    bar <- pci_read_bar bus slot func 0 ;;
    let base := Z.land bar 65532 in
    cmd <- pci_config_read bus slot func 4 ;;
    pci_config_write bus slot func 4 (Z.lor cmd 7) ;;;
    outb (base + RT_CONFIG1) 0 ;;;
    rtl8139_reset base ;;;
    mac <- read_mac 6 base 0 ;;
    let '(rx, p) := alloc_frames p 3 in
    let d := mkRtl base mac rx (tx_buf d) (rx_offset d) (tx_in_use d) (tx_next_idx d) in
    if rx =? 0 then io_ret (-1, d, p)
    else
      m <- get_ram ;;
      set_ram (Lib.lib_memset m rx 0 RX_BUF_SIZE) ;;;
      outl (base + RT_RBSTART) rx ;;;
      r <- init_tx (Z.to_nat TX_NUM) 0 d p ;;
      let '(ok, d, p) := r in
      if negb ok then io_ret (-1, d, p)
      else
        outl (base + RT_RX_CONFIG)
          (Z.lor (Z.lor (Z.lor (Z.lor (Z.lor RX_CFG_8K RX_CFG_NO_WRAP) RX_CFG_FIFO_NONE) RX_CFG_DMA_UNLIM)
                    RCR_AB) RCR_APM) ;;;
        outl (base + RT_TX_CONFIG) (Z.lor (Z.lor TX_IFG96 TX_DMA_BURST) TX_RETRY) ;;;
        outw (base + RT_IMR) 5 ;;;
        outb (base + RT_CR) (Z.lor CR_RE CR_TE) ;;;
        inb (base + RT_CR) ;;;
        inw (base + RT_ISR) ;;;
        off <- inw (base + RT_CBR) ;;
        inl (base + RT_RBSTART) ;;;
        io_ret (0, mkRtl base (Rtl8139.mac d) (rx_buf d) (tx_buf d) off (tx_in_use d) 0, p).

Definition rtl8139_get_mac (d : rtl) : list Z := take 6 (mac d).

(** [while (timeout-- && !(inl(TX_STATUS) & TX_HOST_OWNS))]: whether the
    descriptor was released within [n] reads *)
Fixpoint tx_wait (n : nat) (reg : Z) : IO W bool :=
  match n with
  | O => io_ret false
  | S n => v <- inl reg ;; if Z.land v TX_HOST_OWNS =? 0 then tx_wait n reg else io_ret true
  end.

(** The polling loop after the transmission was started *)
Fixpoint tx_poll (n : nat) (reg : Z) : IO W bool :=
  match n with
  | O => io_ret false
  | S n => v <- inl reg ;; if Z.land v TX_STAT_OK =? 0 then tx_poll n reg else io_ret true
  end.

(** The copy of the frame, padded with zeros to 60 bytes *)
Definition tx_fill (m : memory) (a : Z) (data : list Z) : memory :=
  let len := Z.of_nat (length data) in
  let m := for_up (Z.to_nat len) 0 1 (fun i m => store8 m (a + i) (byte_at data i)) m in
  if len <? 60 then Lib.lib_memset m (a + len) 0 (60 - len) else m.

Definition TX_TRIES : nat := Z.to_nat 5000000.

Definition rtl8139_send (d : rtl) (data : list Z) : IO W (Z * rtl) :=
  let len := Z.of_nat (length data) in
  if (len <? 14) || (1514 <? len) then io_ret (-1, d)
  else
    let idx := tx_next_idx d in
    let reg := io_base d + RT_TX_STATUS + idx * 4 in
    ready <- tx_wait TX_TRIES reg ;;
    if negb ready then io_ret (-1, d)
    else
      let d := with_tx d idx 1 idx in
      m <- get_ram ;;
      set_ram (tx_fill m (tx_addr d idx) data) ;;;
      outl reg (if len <? 60 then 60 else len) ;;;
      ok <- tx_poll TX_TRIES reg ;;
      if ok then io_ret (0, with_tx d idx 0 ((idx + 1) mod TX_NUM))
      else
        inl (io_base d + RT_TX_ADDR + idx * 4) ;;;
        io_ret (-2, with_tx d idx 0 idx).

(** [(off + 4 + n + 3) & ~3], then within the ring *)
Definition advance (off n : Z) : Z :=
  Z.land (Z.land (off + 4 + n + 3) (Z.lnot 3)) (RX_BUF_SIZE - 1).

(** The bytes copied for a frame of [data_len] bytes whose entry is at [off] *)
Definition rx_copy (m : memory) (rx off data_len : Z) : list Z :=
  let data_off := Z.land (off + 4) (RX_BUF_SIZE - 1) in
  if data_off + data_len <=? RX_BUF_SIZE then load_bytes m (rx + data_off) data_len
  else
    let first := RX_BUF_SIZE - data_off in
    load_bytes m (rx + data_off) first ++ load_bytes m rx (data_len - first).

(** [while (rx_offset != cbr)]; the result, [buf], [*len] and the driver *)
Fixpoint recv_loop (fuel : nat) (d : rtl) (buf : list Z) (len cbr : Z) (w : W) :
    option (Z * list Z * Z * rtl * W) :=
  match fuel with
  | O => None
  | S fuel =>
      let off := rx_offset d in
      if off =? cbr then Some (-1, buf, len, d, w)
      else
        let status := load16 (ram w) (rx_buf d + off) in
        let pkt_len := load16 (ram w) (rx_buf d + off + 2) in
        let '(off', buf, len) :=
          if (pkt_len <? 4) || (8192 <? pkt_len) then (advance off 4, buf, len)
          else if Z.land status RX_STAT_OK =? 0 then (advance off pkt_len, buf, len)
          else
            let data_len := if 1514 <? pkt_len - 4 then 1514 else pkt_len - 4 in
            (advance off pkt_len, put_bytes buf 0 (rx_copy (ram w) (rx_buf d) off data_len), data_len) in
        let d := with_offset d off' in
        let '(_, w) := outw (io_base d + RT_CAPR) (u16 (Z.land (off' - 16) (RX_BUF_SIZE - 1))) w in
        let '(_, w) := outw (io_base d + RT_ISR) 5 w in
        let '(cbr, w) := inw (io_base d + RT_CBR) w in
        if 0 <? len then Some (0, buf, len, d, w) else recv_loop fuel d buf len cbr w
  end.

Definition rtl8139_recv (fuel : nat) (d : rtl) (buf : list Z) (len : Z) (w : W) :
    option (Z * list Z * Z * rtl * W) :=
  let '(cbr, w) := inw (io_base d + RT_CBR) w in recv_loop fuel d buf len cbr w.

End driver.
End Rtl8139.
