(* ===== verification/RtlProps.v ===== *)
(** * Properties of the network card driver

    What the driver relies on is stated as laws of the card ([RxCard]),
    after its data sheet: received frames are stored in a ring of 8 KB, each
    with a header of status and length, four-byte aligned; CBR is where the
    next one will be stored, and writing CAPR releases what was read.  In
    the mode the driver selects a frame that reaches the end of the ring is
    stored contiguously beyond it. *)
From S2P Require Import Prelude Bytes Memory Lib FrameAlloc Pfa Pci Rtl8139.

Import Pci Rtl8139.

Definition flen (f : list Z) : Z := Z.of_nat (length f).

(** Frames with their checksums, oldest first, from offset [off] on *)
Fixpoint holds (m : memory) (rx off : Z) (fs : list (list Z)) : Prop :=
  match fs with
  | [] => True
  | f :: fs =>
      Z.odd (load16 m (rx + off)) = true /\ load16 m (rx + off + 2) = flen f /\
      load_bytes m (rx + off + 4) (flen f) = f /\ holds m rx (advance off (flen f)) fs
  end.

Fixpoint ring_end (off : Z) (fs : list (list Z)) : Z :=
  match fs with [] => off | f :: fs => ring_end (advance off (flen f)) fs end.

(** The space an entry takes in the ring *)
Definition entry_size (f : list Z) : Z := 4 * ((flen f + 7) / 4).

Definition ring_size (fs : list (list Z)) : Z := fold_right (fun f n => entry_size f + n) 0 fs.

(** A frame the card accepts: 64 to 1518 bytes with its checksum *)
Definition frame_ok (f : list Z) : Prop := 64 <= flen f <= 1518.

(** The card with registers at [base] and its ring at [rx] *)
Class RxCard (base rx : Z) (W : Type) `{Machine W} := {
  pending : W -> list (list Z);
  rx_read : W -> Z;
  card_ring w : holds (ram w) rx (rx_read w) (pending w);
  card_aligned w : 0 <= rx_read w < RX_BUF_SIZE /\ rx_read w mod 4 = 0;
  card_frames w : Forall frame_ok (pending w);
  card_room w : ring_size (pending w) < RX_BUF_SIZE;
  (** reading CBR and acknowledging interrupts leave the entries alone, but
      more may arrive *)
  card_cbr w : exists new w', inw (base + RT_CBR) w = (ring_end (rx_read w) (pending w ++ new), w') /\
    pending w' = pending w ++ new /\ rx_read w' = rx_read w;
  card_isr w v : exists new w', outw (base + RT_ISR) v w = (tt, w') /\
    pending w' = pending w ++ new /\ rx_read w' = rx_read w;
  (** CAPR holds the read offset less 16 *)
  card_capr w f fs : pending w = f :: fs ->
    exists new w', outw (base + RT_CAPR) (u16 (Z.land (advance (rx_read w) (flen f) - 16) (RX_BUF_SIZE - 1))) w
                     = (tt, w') /\
      pending w' = fs ++ new /\ rx_read w' = advance (rx_read w) (flen f)
}.

Lemma advance_mod (off n : Z) : off mod 4 = 0 -> advance off n = (off + 4 * ((n + 7) / 4)) mod 8192.
Proof.
  intros Ho. unfold advance. rewrite land_align4. change (RX_BUF_SIZE - 1) with (Z.ones 13).
  rewrite Z.land_ones by lia. change (2 ^ 13) with 8192. f_equal. div_mod_lia.
Qed.

Lemma entry_size_pos (f : list Z) : 4 <= entry_size f.
Proof. unfold entry_size, flen. div_mod_lia. Qed.

Lemma ring_size_nonneg (fs : list (list Z)) : 0 <= ring_size fs.
Proof.
  induction fs as [|f fs IH]; unfold ring_size in *; cbn [fold_right]; [lia|].
  pose proof (entry_size_pos f). lia.
Qed.

Lemma ring_end_mod (fs : list (list Z)) (off : Z) :
  off mod 4 = 0 -> 0 <= off < 8192 -> ring_end off fs = (off + ring_size fs) mod 8192.
Proof.
  revert off; induction fs as [|f fs IH]; intros off Ho Hr; cbn [ring_end ring_size fold_right].
  { rewrite Z.add_0_r. by rewrite Z.mod_small. }
  rewrite advance_mod by done. fold (entry_size f).
  rewrite IH.
  - fold (ring_size fs). rewrite Zplus_mod_idemp_l. f_equal. lia.
  - unfold entry_size. div_mod_lia.
  - apply Z.mod_pos_bound. lia.
Qed.

(** The ring is empty exactly when the two offsets agree. *)
Lemma ring_end_ne (off : Z) (f : list Z) (fs : list (list Z)) :
  off mod 4 = 0 -> 0 <= off < 8192 -> ring_size (f :: fs) < 8192 -> off <> ring_end off (f :: fs).
Proof.
  intros Ho Hr Hs. rewrite ring_end_mod by done.
  assert (Hp : 0 < ring_size (f :: fs)).
  { cbn [ring_size fold_right]. pose proof (entry_size_pos f).
    pose proof (ring_size_nonneg fs). fold (ring_size fs). lia. }
  intros E. div_mod_lia.
Qed.

Lemma load_bytes_take (m : memory) (a k n : Z) :
  0 <= k <= n -> take (Z.to_nat k) (load_bytes m a n) = load_bytes m a k.
Proof.
  intros Hk. unfold load_bytes. replace n with (k + (n - k)) by lia.
  rewrite seqZ_app, map_app by lia. apply take_app_length'. by rewrite length_map, length_seqZ.
Qed.

Section receive.

Context (base rx : Z) {W : Type} `{RxCard base rx W}.

(** The machine after the driver has released the oldest entry *)
Definition released (w : W) (f : list Z) : W :=
  let w := snd (outw (base + RT_CAPR) (u16 (Z.land (advance (rx_read w) (flen f) - 16) (RX_BUF_SIZE - 1))) w) in
  snd (inw (base + RT_CBR) (snd (outw (base + RT_ISR) 5 w))).

(** One round of the loop for a frame that has arrived *)
Lemma recv_loop_run (fuel : nat) (d : rtl) (buf f : list Z) (len cbr : Z) (fs : list (list Z)) (w : W) :
  io_base d = base -> rx_buf d = rx -> rx_offset d = rx_read w -> pending w = f :: fs ->
  cbr <> rx_read w ->
  recv_loop (S fuel) d buf len cbr w =
    Some (0, put_bytes buf 0 (rx_copy (ram w) rx (rx_read w) (flen f - 4)), flen f - 4,
          with_offset d (advance (rx_read w) (flen f)), released w f).
Proof.
  intros Hb Hrx Ho Hp Hc. pose proof (card_ring w) as Hh. pose proof (card_frames w) as Hf.
  rewrite Hp in Hh, Hf. destruct Hh as (Hodd & Hlen & _ & _). apply Forall_cons in Hf as [Hf _].
  unfold frame_ok in Hf. cbn [recv_loop]. rewrite Ho, Hrx, Hlen.
  rewrite (proj2 (Z.eqb_neq (rx_read w) cbr)) by done.
  rewrite (proj2 (Z.ltb_ge (flen f) 4)), (proj2 (Z.ltb_ge 8192 (flen f))) by lia. cbn [orb].
  replace (Z.land (load16 (ram w) (rx + rx_read w)) RX_STAT_OK =? 0) with false
    by (change RX_STAT_OK with (2 ^ 0); rewrite land_pow2, Z.bit0_odd, Hodd by lia; done).
  rewrite (proj2 (Z.ltb_ge 1514 (flen f - 4))) by lia.
  cbn [with_offset io_base]. rewrite Hb. unfold released.
  destruct (outw (base + RT_CAPR) _ w) as [[] w1]. cbn [snd]. destruct (outw (base + RT_ISR) 5 w1) as [[] w2]. cbn [snd].
  destruct (inw (base + RT_CBR) w2) as [c w3]. by rewrite (proj2 (Z.ltb_lt 0 (flen f - 4))) by lia.
Qed.

Lemma recv_loop_frame (fuel : nat) (d : rtl) (buf f : list Z) (len cbr : Z) (fs : list (list Z)) (w : W) :
  io_base d = base -> rx_buf d = rx -> rx_offset d = rx_read w -> pending w = f :: fs ->
  cbr <> rx_read w ->
  exists new w', recv_loop (S fuel) d buf len cbr w =
      Some (0, put_bytes buf 0 (rx_copy (ram w) rx (rx_read w) (flen f - 4)), flen f - 4,
            with_offset d (rx_read w'), w') /\
    pending w' = fs ++ new /\ rx_read w' = advance (rx_read w) (flen f).
Proof.
  intros Hb Hrx Ho Hp Hc. rewrite (recv_loop_run fuel d buf f len cbr fs w Hb Hrx Ho Hp Hc). unfold released.
  destruct (card_capr w f fs Hp) as (n1 & w1 & -> & P1 & R1). cbn [snd].
  destruct (card_isr w1 5) as (n2 & w2 & -> & P2 & R2). cbn [snd].
  destruct (card_cbr w2) as (n3 & w3 & -> & P3 & R3). cbn [snd].
  exists (n1 ++ n2 ++ n3), w3. rewrite R3, R2, R1. split; [done|]. split; [|done].
  rewrite P3, P2, P1, <- !app_assoc. done.
Qed.

(** A frame that ends inside the ring is copied as it was received. *)
Lemma rx_copy_fits (w : W) (f : list Z) (fs : list (list Z)) :
  pending w = f :: fs -> rx_read w + flen f <= RX_BUF_SIZE ->
  rx_copy (ram w) rx (rx_read w) (flen f - 4) = take (Z.to_nat (flen f - 4)) f.
Proof.
  intros Hp Hfit. pose proof (card_ring w) as Hh. pose proof (card_frames w) as Hf.
  pose proof (card_aligned w) as [Ha _]. rewrite Hp in Hh, Hf. destruct Hh as (_ & _ & Hb & _).
  apply Forall_cons in Hf as [Hf _]. unfold frame_ok, RX_BUF_SIZE in *. unfold rx_copy.
  change (RX_BUF_SIZE - 1) with (Z.ones 13). rewrite Z.land_ones by lia. change (2 ^ 13) with 8192.
  rewrite Z.mod_small, (proj2 (Z.leb_le _ _)) by (unfold RX_BUF_SIZE; lia).
  rewrite Z.add_assoc. rewrite <- (load_bytes_take _ _ (flen f - 4) (flen f)) by lia.
  by rewrite Hb.
Qed.

(** With [RxCard] a call of [rtl8139_recv] reports the oldest frame that
    has arrived, if any, with the length of the frame without its checksum,
    in the caller's buffer, whatever [*len] held; the frame leaves the ring,
    the others stay in order, and the driver's offset keeps up with the
    card's.  Frames are copied correctly when they end inside the ring.  The
    loop runs at most once. *)
Theorem recv_oldest_frame (d : rtl) (buf : list Z) (len : Z) (w : W) :
  io_base d = base -> rx_buf d = rx -> rx_offset d = rx_read w ->
  exists new w', pending w' = pending w ++ new /\ rx_read w' = rx_read w /\
    match pending w' with
    | [] => rtl8139_recv 1 d buf len w = Some (-1, buf, len, d, w')
    | f :: fs => exists new' w2 data, rtl8139_recv 1 d buf len w =
          Some (0, put_bytes buf 0 data, flen f - 4, with_offset d (rx_read w2), w2) /\
        pending w2 = fs ++ new' /\
        (rx_read w + flen f <= RX_BUF_SIZE -> data = take (Z.to_nat (flen f - 4)) f)
    end.
Proof.
  intros Hb Hrx Ho. unfold rtl8139_recv. rewrite Hb.
  destruct (card_cbr w) as (n1 & w1 & -> & P1 & R1). exists n1, w1. split; [done|]. split; [done|].
  rewrite <- P1, <- R1 in *. destruct (card_aligned w1) as [Ha H4]. pose proof (card_room w1) as Hroom.
  destruct (pending w1) as [|f fs] eqn:Ep.
  - cbn [recv_loop ring_end]. by rewrite Ho, Z.eqb_refl.
  - destruct (recv_loop_frame 0 d buf f len (ring_end (rx_read w1) (f :: fs)) fs w1 Hb Hrx Ho Ep)
      as (n2 & w2 & E & P2 & _).
    { intros E. by apply (ring_end_ne (rx_read w1) f fs). }
    exists n2, w2, (rx_copy (ram w1) rx (rx_read w1) (flen f - 4)). split; [exact E|]. split; [exact P2|].
    by apply (rx_copy_fits w1 f fs).
Qed.

(** A frame that crosses the end of the ring: the driver takes the bytes
    after the end from the start of the ring, where the card has not put
    them. *)
Theorem recv_crossing_frame (w : W) (f : list Z) (fs : list (list Z)) :
  pending w = f :: fs -> RX_BUF_SIZE < rx_read w + flen f -> rx_read w + 4 < RX_BUF_SIZE ->
  exists k, 0 < k < flen f - 4 /\
    rx_copy (ram w) rx (rx_read w) (flen f - 4) =
      take (Z.to_nat k) f ++ load_bytes (ram w) rx (flen f - 4 - k).
Proof.
  intros Hp Hcross Hoff. pose proof (card_ring w) as Hh. pose proof (card_frames w) as Hf.
  pose proof (card_aligned w) as [Ha _]. rewrite Hp in Hh, Hf. destruct Hh as (_ & _ & Hb & _).
  apply Forall_cons in Hf as [Hf _]. unfold frame_ok in Hf. unfold rx_copy, RX_BUF_SIZE in *.
  change (8192 - 1) with (Z.ones 13). rewrite Z.land_ones by lia. change (2 ^ 13) with 8192.
  rewrite Z.mod_small, (proj2 (Z.leb_gt _ _)) by lia.
  exists (8192 - (rx_read w + 4)). split; [lia|]. f_equal.
  rewrite Z.add_assoc, <- (load_bytes_take _ _ _ (flen f)) by lia. by rewrite Hb.
Qed.

End receive.

(** ** Sending *)

Lemma copy_in_spec (m : memory) (a : Z) (data : list Z) :
  is_bytes data ->
  let m1 := for_up (Z.to_nat (flen data)) 0 1 (fun i m => store8 m (a + i) (byte_at data i)) m in
  (forall i, 0 <= i < flen data -> load8 m1 (a + i) = byte_at data i) /\
  mem_same m m1 (fun x => x < a \/ a + flen data <= x).
Proof.
  intros Hd m1. subst m1.
  pose proof (for_up_ind (fun k m' => (forall i, 0 <= i < k -> load8 m' (a + i) = byte_at data i) /\
      mem_same m m' (fun x => x < a \/ a + k <= x)) (Z.to_nat (flen data)) 0 1
      (fun i m => store8 m (a + i) (byte_at data i)) m) as HI.
  rewrite Z2Nat.id, Z.mul_1_r, Z.add_0_l in HI by (unfold flen; lia). apply HI.
  - split; [intros; lia|by intros x _].
  - intros k x Hk [Hv Hs]. rewrite !Z.mul_1_r, !Z.add_0_l in *. split.
    + intros i Hi. destruct (Z.eq_dec i k) as [->|].
      * rewrite load8_store8_eq. apply u8_small. by apply is_bytes_byte_at.
      * rewrite load8_store8_ne by lia. apply Hv. lia.
    + intros x' Hx'. cbv beta in Hx'. rewrite load8_store8_ne by lia. apply Hs. lia.
Qed.

Lemma tx_fill_bytes (m : memory) (a : Z) (data : list Z) :
  is_bytes data ->
  (forall i, 0 <= i < Z.max 60 (flen data) -> load8 (tx_fill m a data) (a + i) = byte_at data i) /\
  mem_same m (tx_fill m a data) (fun x => x < a \/ a + Z.max 60 (flen data) <= x).
Proof.
  intros Hd. unfold tx_fill. fold (flen data). destruct (copy_in_spec m a data Hd) as [Hv Hs].
  set (m1 := for_up _ _ _ _ _) in *. assert (Hl : 0 <= flen data) by (unfold flen; lia).
  destruct (Z.ltb_spec (flen data) 60).
  - destruct (Lib.lib_memset_spec m1 (a + flen data) 0 (60 - flen data) ltac:(lia)) as [Hz Hzs]. split.
    + intros i Hi. destruct (Z.lt_ge_cases i (flen data)).
      * rewrite Hzs by (left; lia). by apply Hv; lia.
      * replace (a + i) with (a + flen data + (i - flen data)) by lia. rewrite Hz by lia.
        unfold byte_at. rewrite lookup_ge_None_2 by (unfold flen in *; lia). done.
    + eapply mem_same_trans; [eapply mem_same_weaken; [exact Hs|]|eapply mem_same_weaken; [exact Hzs|]];
        intros x Hx; cbv beta in *; lia.
  - split; [intros i Hi; apply Hv; lia|]. eapply mem_same_weaken; [exact Hs|]. intros x Hx. cbv beta in *. lia.
Qed.

(** The frame as it goes out: padded with zeros to 60 bytes *)
Definition padded (data : list Z) : list Z := data ++ replicate (60 - length data) 0.

Lemma tx_fill_padded (m : memory) (a : Z) (data : list Z) :
  is_bytes data -> load_bytes (tx_fill m a data) a (flen (padded data)) = padded data.
Proof.
  intros Hd. destruct (tx_fill_bytes m a data Hd) as [Hv _].
  assert (Hn : flen (padded data) = Z.max 60 (flen data)).
  { unfold padded, flen. rewrite length_app, length_replicate. lia. }
  apply bytes_ext; [rewrite length_load_bytes; unfold flen; lia|].
  intros i Hi. rewrite length_load_bytes, Hn in Hi. rewrite Hn, byte_at_load_bytes, Hv by lia.
  unfold byte_at, padded, flen in *. destruct (Z.lt_ge_cases i (Z.of_nat (length data))).
  - by rewrite lookup_app_l by lia.
  - rewrite lookup_app_r, lookup_ge_None_2 by lia. by rewrite lookup_replicate_2 by lia.
Qed.

(** What the processor's memory does: it holds what was stored *)
Class MachineRam (W : Type) `{Machine W} : Prop := {
  ram_set m w : ram (set_ram m w).2 = m
}.

Section send.

Context {W : Type} `{MachineRam W}.

(** A read of a 32-bit port *)
Definition reads (w w' : W) : Prop := exists port v, inl port w = (v, w').

Lemma tx_wait_reads (n : nat) (r : Z) (w : W) : exists b w', tx_wait n r w = (b, w') /\ rtc reads w w'.
Proof.
  revert w; induction n as [|n IH]; intros w; [by exists false, w|].
  cbn [tx_wait]. unfold io_bind. destruct (inl r w) as [v w1] eqn:E.
  assert (Hr : reads w w1) by (by exists r, v). destruct (Z.land v TX_HOST_OWNS =? 0).
  - destruct (IH w1) as (b & w2 & E2 & Hr2). exists b, w2. split; [done|]. by eapply rtc_l.
  - exists true, w1. split; [done|]. by apply rtc_once.
Qed.

Lemma tx_poll_reads (n : nat) (r : Z) (w : W) : exists b w', tx_poll n r w = (b, w') /\ rtc reads w w'.
Proof.
  revert w; induction n as [|n IH]; intros w; [by exists false, w|].
  cbn [tx_poll]. unfold io_bind. destruct (inl r w) as [v w1] eqn:E.
  assert (Hr : reads w w1) by (by exists r, v). destruct (Z.land v TX_STAT_OK =? 0).
  - destruct (IH w1) as (b & w2 & E2 & Hr2). exists b, w2. split; [done|]. by eapply rtc_l.
  - exists true, w1. split; [done|]. by apply rtc_once.
Qed.

#[local] Opaque TX_TRIES.

(** [rtl8139_send] for every card.  It always returns.  A frame of a
    length the card does not take is refused before anything happens.
    Otherwise the driver waits by reading only and either gives up (-1,
    driver unchanged) or stores the frame, padded with zeros to 60 bytes, in
    the buffer of the next descriptor, touching no other byte, writes its
    length to that descriptor's register, and reads on until the card
    reports success (0, and the next descriptor is next) or does not (-2,
    and the same descriptor is tried again). *)
Theorem send_stores_padded_frame (d : rtl) (data : list Z) (w : W) :
  is_bytes data ->
  let idx := tx_next_idx d in
  let a := tx_addr d idx in
  if (flen data <? 14) || (1514 <? flen data) then rtl8139_send d data w = ((-1, d), w)
  else exists w1, rtc reads w w1 /\
    (rtl8139_send d data w = ((-1, d), w1) \/
     exists m r next w', let d' := with_tx d idx 0 next in
       load_bytes m a (flen (padded data)) = padded data /\
       mem_same (ram w1) m (fun x => x < a \/ a + flen (padded data) <= x) /\
       ram (set_ram m w1).2 = m /\
       rtc reads (outl (io_base d + RT_TX_STATUS + idx * 4) (flen (padded data)) (set_ram m w1).2).2 w' /\
       rtl8139_send d data w = ((r, d'), w') /\
       (r = 0 /\ next = (idx + 1) mod TX_NUM \/ r = -2 /\ next = idx)).
Proof.
  intros Hd idx a. unfold rtl8139_send. fold (flen data).
  destruct ((flen data <? 14) || (1514 <? flen data)); [done|]. fold idx.
  set (r := io_base d + RT_TX_STATUS + idx * 4).
  destruct (tx_wait_reads TX_TRIES r w) as (b & w1 & E1 & R1). exists w1. split; [done|].
  unfold io_bind. rewrite E1. destruct b; cbn [negb]; [right|by left].
  assert (Hn : flen (padded data) = Z.max 60 (flen data)).
  { unfold padded, flen. rewrite length_app, length_replicate. lia. }
  set (m := tx_fill (ram w1) a data).
  assert (Ha : tx_addr (with_tx d idx 1 idx) idx = a) by done.
  assert (Hlen : (if flen data <? 60 then 60 else flen data) = flen (padded data)) by (rewrite Hn; zcase; lia).
  unfold get_ram. rewrite Ha, Hlen. fold m.
  destruct (set_ram m w1) as [[] w2] eqn:E2. destruct (outl r (flen (padded data)) w2) as [[] w3] eqn:E3.
  destruct (tx_poll_reads TX_TRIES r w3) as (ok & w4 & E4 & R4). rewrite E4.
  assert (Hw : forall nx, with_tx (with_tx d idx 1 idx) idx 0 nx = with_tx d idx 0 nx).
  { intros nx. unfold with_tx. cbn. by rewrite list_insert_insert_eq. }
  assert (Hmem : load_bytes m a (flen (padded data)) = padded data) by (by apply tx_fill_padded).
  assert (Hsame : mem_same (ram w1) m (fun x => x < a \/ a + flen (padded data) <= x)).
  { rewrite Hn. by apply tx_fill_bytes. }
  pose proof (ram_set m w1) as Hset.
  destruct ok.
  - exists m, 0, ((idx + 1) mod TX_NUM), w4. rewrite E2, Hw in *. cbn [snd] in *. rewrite E3. cbn [snd].
    do 4 (split; [done|]). split; [done|]. by left.
  - destruct (inl (io_base (with_tx d idx 1 idx) + RT_TX_ADDR + idx * 4) w4) as [v w5] eqn:E5.
    exists m, (-2), idx, w5. rewrite E2, Hw in *. cbn [snd] in *. rewrite E3. cbn [snd].
    do 3 (split; [done|]). split; [eapply rtc_r; [exact R4|by eexists _, v]|]. split; [done|]. by right.
Qed.

End send.

(** ** Witnesses *)

(** A card with its ring at 0x10000 that has received one frame of 64 bytes;
    the state says whether it is still in the ring. *)
Definition demo_frame : list Z := replicate 64 7.

Definition demo_ram : memory :=
  Lib.lib_memset (store16 (store16 ∅ 65536 1) 65538 64) 65540 7 64.

#[local] Instance demo_card_machine : Machine bool := {|
  inb := fun _ => io_ret 0;
  inw := fun _ w => (68, w);
  inl := fun _ => io_ret 0;
  outb := fun _ _ => io_ret tt;
  outw := fun port _ w => (tt, if port =? 49152 + RT_CAPR then false else w);
  outl := fun _ _ => io_ret tt;
  ram := fun _ => demo_ram;
  set_ram := fun _ => io_ret tt |}.

#[local] Instance demo_card : RxCard 49152 65536 bool.
Proof.
  refine {| pending := fun w : bool => if w then [demo_frame] else [];
            rx_read := fun w : bool => if w then 0 else 68 |}.
  - intros []; [|done]. repeat split; vm_compute; reflexivity.
  - intros []; vm_compute; intuition discriminate.
  - intros []; repeat constructor; vm_compute; discriminate.
  - intros []; vm_compute; reflexivity.
  - intros w. exists [], w. destruct w; done.
  - intros w v. exists [], w. destruct w; done.
  - intros [] f fs; [|discriminate]. intros [= <- <-]. by exists [], false.
Defined.

Definition demo_rtl : rtl := mkRtl 49152 [82; 84; 0; 18; 52; 86] 65536 [69632; 73728; 77824; 81920] 0 [0; 0; 0; 0] 0.

Lemma recv_oldest_frame_witness :
  exists w2, rtl8139_recv 1 demo_rtl (replicate 1514 0) 0 true =
    Some (0, put_bytes (replicate 1514 0) 0 (replicate 60 7), 60, with_offset demo_rtl (rx_read w2), w2).
Proof.
  destruct (recv_oldest_frame 49152 65536 demo_rtl (replicate 1514 0) 0 true)
    as (new & w' & P & R & H); [reflexivity..|]. destruct w'; [|discriminate P].
  destruct H as (n2 & w2 & data & E & _ & Hd). exists w2. rewrite Hd in E by (vm_compute; discriminate).
  exact E.
Defined.

(** A machine with memory whose card always reports success *)
#[local] Instance demo_ram_machine : Machine memory := {|
  inb := fun _ => io_ret 0; inw := fun _ => io_ret 0; inl := fun _ => io_ret 40960;
  outb := fun _ _ => io_ret tt; outw := fun _ _ => io_ret tt; outl := fun _ _ => io_ret tt;
  ram := fun w => w; set_ram := fun m _ => (tt, m) |}.

#[local] Instance demo_ram_laws : MachineRam memory.
Proof. by split. Qed.

Lemma send_stores_padded_frame_witness :
  exists r next w', rtl8139_send demo_rtl (replicate 14 9) (∅ : memory) = ((r, next), w') /\
    (r = -1 \/ r = 0 \/ r = -2).
Proof.
  destruct (send_stores_padded_frame demo_rtl (replicate 14 9) (∅ : memory)) as (w1 & _ & [E|H]).
  - apply is_bytes_replicate. lia.
  - exists (-1), demo_rtl, w1. split; [exact E|by left].
  - destruct H as (m & r & next & w' & _ & _ & _ & _ & E & H). exists r, (with_tx demo_rtl 0 0 next), w'.
    split; [exact E|]. destruct H as [[-> _]|[-> _]]; [right; left|right; right]; reflexivity.
Defined.
