(* ===== verification/NicRtl.v ===== *)
(** * The network stack on the network card's driver

    The stack is proved for every card and clock that keep the promises of
    [Net.Nic] and [FairNic].  Here the driver of rtl8139.c, on a machine
    with the card, keeps them: the world is the driver's state with the
    machine, as long as the two agree on the ring.  The caller's frame
    buffer and length variable are uninitialised, as in the code. *)
From S2P Require Import Prelude Bytes Memory Lib FrameAlloc Pfa Pci Rtl8139 RtlProps NetBase Tcp NetStack NetSum NetFrames NetInv NetTerm.

Import Pci Rtl8139.
Import Net(Nic).

Module NicRtl.

(** The area the card may write to: the ring and the longest entry that
    starts at its end *)
Definition RING_AREA : Z := RX_BUF_SIZE + 2048.

(** Time, the timer's counter as net.c and tcp.c read it, and the frames
    still to arrive.  [mclock] is the time in units in which an operation
    takes at most [mop], the processor's other work and pre-emption up to the
    next operation included; the counter advances every [mtick] units. *)
Class NicObs (W : Type) := {
  read_ticks : W -> Z * W;
  mclock : W -> Z;
  mtick : Z;
  mop : Z;
  arriving : W -> Z
}.

(** The ticks since the machine started *)
Definition mtime {W : Type} `{NicObs W} (w : W) : Z := mclock w / mtick.

Section steps.

Context {base rx : Z} {W : Type} `{RxCard base rx W} `{NicObs W}.

(** Of the entries [old] are left, and [new] arrive. *)
Definition receives (w w' : W) (old new : list (list Z)) : Prop :=
  pending w' = old ++ new /\ arriving w' + Z.of_nat (length new) = arriving w.

(** At most [k] operations' time passes. *)
Definition takes (k : Z) (w w' : W) : Prop := mclock w <= mclock w' <= mclock w + k * mop.

(** An operation during which frames may arrive *)
Definition quiet (w w' : W) : Prop :=
  rx_read w' = rx_read w /\ takes 1 w w' /\ exists new, receives w w' (pending w) new.

End steps.

(** Besides the laws of reception, what the driver's other steps do *)
Class NicMachine (base rx : Z) (W : Type) `{RxCard base rx W} `{NicObs W} : Prop := {
  arriving_pos w : 0 <= arriving w;
  mtick_pos : 0 < mtick;
  quiet_cbr w : quiet w (snd (inw (base + RT_CBR) w));
  quiet_isr w v : quiet w (snd (outw (base + RT_ISR) v w));
  quiet_inl w p : quiet w (snd (inl (base + p) w));
  quiet_tx w i v : 0 <= i < TX_NUM -> quiet w (snd (outl (base + RT_TX_STATUS + i * 4) v w));
  quiet_ram w m : mem_same (ram w) m (fun x => rx <= x < rx + RING_AREA) -> quiet w (snd (set_ram m w));
  (** releasing the oldest entry *)
  release_law w f fs : pending w = f :: fs ->
    let w' := snd (outw (base + RT_CAPR) (u16 (Z.land (advance (rx_read w) (flen f) - 16) (RX_BUF_SIZE - 1))) w) in
    rx_read w' = advance (rx_read w) (flen f) /\ takes 1 w w' /\ exists new, receives w w' fs new;
  (** reading the counter takes time; the value is that of some moment of it *)
  ticks_law w : let '(t, w') := read_ticks w in
    rx_read w' = rx_read w /\ (exists new, receives w w' (pending w) new) /\ takes 1 w w' /\ mclock w < mclock w' /\
    exists x, mclock w <= x <= mclock w' /\ t = u32 (x / mtick)
}.

(** Two moments at most [b] units apart, on a counter that advances every [m] units *)
Lemma ticks_between (m a a' b : Z) : 0 < m -> a <= a' <= a + b ->
  a / m <= a' / m <= a / m + (b / m + 1) /\
  (a / m < a' / m \/ m - 1 - a' mod m <= m - 1 - a mod m /\ (a < a' -> m - 1 - a' mod m < m - 1 - a mod m)).
Proof.
  intros Hm Hb. pose proof (Z.div_mod a m ltac:(lia)). pose proof (Z.mod_pos_bound a m Hm).
  pose proof (Z.div_mod a' m ltac:(lia)). pose proof (Z.mod_pos_bound a' m Hm).
  pose proof (Z.div_mod b m ltac:(lia)). pose proof (Z.mod_pos_bound b m Hm).
  pose proof (Z.div_le_mono a a' m Hm ltac:(lia)).
  set (q := a / m) in *. set (q' := a' / m) in *. set (qb := b / m) in *.
  split; [split; [done|]|].
  - assert (m * (q' - q - qb - 2) < 0) by lia. nia.
  - destruct (decide (q < q')) as [|Hq]; [by left|right]. assert (q' = q) as Eq by lia. rewrite Eq in *. lia.
Qed.

Section driver.

Context (base rx : Z) (tx : list Z) (junk : list Z) (junk_len : Z).
Context {W : Type} `{NM : NicMachine base rx W}.

(** The four transmit buffers, apart from the ring's area *)
Hypothesis tx_four : length tx = 4%nat.
Hypothesis tx_apart : Forall (fun a => a + TX_BUF_SIZE <= rx \/ rx + RING_AREA <= a) tx.

Definition agrees (d : rtl) (w : W) : Prop :=
  io_base d = base /\ rx_buf d = rx /\ rx_offset d = rx_read w /\ tx_buf d = tx /\ 0 <= tx_next_idx d < TX_NUM.

(** The frames that are still to be delivered *)
Definition left (w : W) : Z := arriving w + Z.of_nat (length (pending w)).

(** What [k] operations leave: the frames but the [n] they took *)
Definition after (k n : Z) (w w' : W) : Prop := takes k w w' /\ left w' = left w - n.

Lemma receives_left (w w' : W) (old new : list (list Z)) :
  receives w w' old new -> left w' = arriving w + Z.of_nat (length old).
Proof. intros [E A]. unfold left. rewrite E, length_app. lia. Qed.

Lemma mop_pos (w : W) : 0 <= mop.
Proof. destruct (quiet_cbr w) as (_ & T & _). unfold takes in T. lia. Qed.

Lemma quiet_after (w w' : W) : quiet w w' -> after 1 0 w w' /\ rx_read w' = rx_read w.
Proof.
  intros (Hr & Ht & new & Hn). apply receives_left in Hn. split; [|done]. split; [done|]. unfold left in *. lia.
Qed.

Lemma after_trans (k l a b : Z) (w1 w2 w3 : W) : after k a w1 w2 -> after l b w2 w3 -> after (k + l) (a + b) w1 w3.
Proof. unfold after, takes. intros (T1 & L1) (T2 & L2). split; lia. Qed.

Lemma after_weaken (k l n : Z) (w w' : W) : k <= l -> after k n w w' -> after l n w w'.
Proof. intros Hk [T L]. split; [|done]. unfold takes in *. pose proof (mop_pos w). nia. Qed.

(** *** Receiving *)

Lemma released_after (w : W) (f : list Z) (fs : list (list Z)) : pending w = f :: fs ->
  after 3 1 w (released base rx w f) /\ rx_read (released base rx w f) = advance (rx_read w) (flen f).
Proof.
  intros Hp. unfold released. destruct (release_law w f fs Hp) as (R1 & T1 & new & N1).
  set (w1 := snd (outw _ _ w)) in *. apply receives_left in N1.
  destruct (quiet_after _ _ (quiet_isr w1 5)) as [A2 R2]. set (w2 := snd (outw _ _ w1)) in *.
  destruct (quiet_after _ _ (quiet_cbr w2)) as [A3 R3]. split; [|congruence].
  apply (after_trans 1 2 1 0 _ w1); [|exact (after_trans 1 1 0 0 _ _ _ A2 A3)].
  split; [done|]. unfold left in *. rewrite Hp in *. cbn [length] in *. lia.
Qed.

(** What a call that reports a frame stored for the caller *)
Definition delivered (w1 : W) (f : list Z) (buf : list Z) (len : Z) : Prop :=
  len = flen f - 4 /\ buf = put_bytes junk 0 (rx_copy (ram w1) rx (rx_read w1) len).

Lemma driver_recv_run (d : rtl) (w : W) : agrees d w ->
  exists r buf len d' w', Rtl8139.rtl8139_recv 1 d junk junk_len w = Some (r, buf, len, d', w') /\ agrees d' w' /\
    (r = -1 /\ after 1 0 w w' \/
     r = 0 /\ after 4 1 w w' /\ exists w1 f fs, quiet w w1 /\ pending w1 = f :: fs /\ delivered w1 f buf len).
Proof.
  intros (Hb & Hrx & Ho & Htx & Hi). unfold Rtl8139.rtl8139_recv. rewrite Hb.
  pose proof (quiet_cbr w) as Q1. destruct (quiet_after _ _ Q1) as [A1 R1].
  destruct (card_cbr w) as (n1 & w1 & E & P1 & _). rewrite E in *. cbn [snd] in *. rewrite <- P1, <- R1 in *.
  destruct (card_aligned w1) as [Ha H4]. pose proof (card_room w1) as Hroom.
  destruct (pending w1) as [|f fs] eqn:Ep.
  - cbn [recv_loop ring_end]. rewrite Ho, Z.eqb_refl. do 5 eexists. split; [reflexivity|].
    split; [repeat split; done || lia|]. by left.
  - rewrite (recv_loop_run base rx 0 d junk f junk_len _ fs w1 Hb Hrx Ho Ep)
      by (intros E'; by apply (ring_end_ne (rx_read w1) f fs)).
    destruct (released_after w1 f fs Ep) as [A2 R2]. do 5 eexists. split; [reflexivity|].
    split; [repeat split; done || cbn; lia|]. right. split; [done|]. split; [exact (after_trans 1 3 0 1 _ _ _ A1 A2)|].
    by exists w1, f, fs.
Qed.

(** *** Sending *)

(** [k] operations: nothing was taken and the driver's offset still fits. *)
Definition still (k : Z) (w w' : W) : Prop := after k 0 w w' /\ rx_read w' = rx_read w.

Lemma still_refl (w : W) : still 0 w w.
Proof. split; [|done]. split; [unfold takes; lia|lia]. Qed.

Lemma still_trans (k l : Z) (w1 w2 w3 : W) : still k w1 w2 -> still l w2 w3 -> still (k + l) w1 w3.
Proof. intros [A1 R1] [A2 R2]. split; [exact (after_trans k l 0 0 _ _ _ A1 A2)|congruence]. Qed.

Lemma still_weaken (k l : Z) (w w' : W) : k <= l -> still k w w' -> still l w w'.
Proof. intros Hk [A R]. split; [by apply (after_weaken k)|done]. Qed.

Lemma inl_still (p : Z) (w w' : W) (v : Z) : inl (base + p) w = (v, w') -> still 1 w w'.
Proof. intros E. apply quiet_after. pose proof (quiet_inl w p) as Hq. by rewrite E in Hq. Qed.

Lemma tx_wait_still (n : nat) (p : Z) (w : W) : still (Z.of_nat n) w (snd (tx_wait n (base + p) w)).
Proof.
  revert w. induction n as [|n IH]; intros w; cbn [tx_wait]; [apply still_refl|]. unfold io_bind.
  destruct (inl (base + p) w) as [v w1] eqn:E. apply inl_still in E. apply (still_weaken (1 + Z.of_nat n)); [lia|].
  destruct (Z.land v TX_HOST_OWNS =? 0); [eapply still_trans; [exact E|apply IH]|eapply still_weaken; [|exact E]; lia].
Qed.

Lemma tx_poll_still (n : nat) (p : Z) (w : W) : still (Z.of_nat n) w (snd (tx_poll n (base + p) w)).
Proof.
  revert w. induction n as [|n IH]; intros w; cbn [tx_poll]; [apply still_refl|]. unfold io_bind.
  destruct (inl (base + p) w) as [v w1] eqn:E. apply inl_still in E. apply (still_weaken (1 + Z.of_nat n)); [lia|].
  destruct (Z.land v TX_STAT_OK =? 0); [eapply still_trans; [exact E|apply IH]|eapply still_weaken; [|exact E]; lia].
Qed.

(** The copy stays inside the descriptor's buffer. *)
Lemma tx_fill_same (m : memory) (a : Z) (data : list Z) :
  mem_same m (tx_fill m a data) (fun x => x < a \/ a + Z.max 60 (flen data) <= x).
Proof.
  unfold tx_fill. fold (flen data). assert (Hl : 0 <= flen data) by (unfold flen; lia).
  set (m1 := for_up _ _ _ _ _). assert (Hs : mem_same m m1 (fun x => x < a \/ a + flen data <= x)).
  { subst m1. pose proof (for_up_ind (fun k m' => mem_same m m' (fun x => x < a \/ a + flen data <= x))
      (Z.to_nat (flen data)) 0 1 (fun i m => store8 m (a + i) (byte_at data i)) m) as HI. apply HI; [by intros x _|].
    intros k q Hk Hq x Hx. cbv beta in Hx. rewrite load8_store8_ne by lia. by apply Hq. }
  destruct (Z.ltb_spec (flen data) 60).
  - destruct (Lib.lib_memset_spec m1 (a + flen data) 0 (60 - flen data) ltac:(lia)) as [_ Hz].
    eapply mem_same_trans; [eapply mem_same_weaken; [exact Hs|]|eapply mem_same_weaken; [exact Hz|]];
      intros x Hx; cbv beta in *; lia.
  - eapply mem_same_weaken; [exact Hs|]. cbv beta. lia.
Qed.

Lemma tx_addr_apart (d : rtl) (idx : Z) : tx_buf d = tx -> 0 <= idx < TX_NUM ->
  tx_addr d idx + TX_BUF_SIZE <= rx \/ rx + RING_AREA <= tx_addr d idx.
Proof.
  intros Htx Hi. unfold tx_addr. rewrite Htx. unfold TX_NUM in Hi.
  destruct (lookup_lt_is_Some_2 tx (Z.to_nat idx)) as [a Ea]; [lia|]. rewrite Ea.
  exact (proj1 (Forall_lookup _ _) tx_apart _ _ Ea).
Qed.

(** The operations of a call that sends: two polling loops and five more *)
Definition SEND_OPS : Z := 10000005.

Lemma tries_ops : 2 * Z.of_nat TX_TRIES + 5 = SEND_OPS.
Proof. unfold TX_TRIES, SEND_OPS. lia. Qed.

#[local] Opaque TX_TRIES.

Lemma driver_send_run (d : rtl) (data : list Z) (w : W) : agrees d w ->
  let '((r, d'), w') := Rtl8139.rtl8139_send d data w in agrees d' w' /\ after SEND_OPS 0 w w'.
Proof.
  intros Hag. pose proof Hag as (Hb & Hrx & Ho & Htx & Hi). unfold Rtl8139.rtl8139_send. fold (flen data).
  set (idx := tx_next_idx d) in *. pose proof tries_ops as Hops.
  assert (Hkeep : forall next use k w', k <= SEND_OPS -> still k w w' -> 0 <= next < TX_NUM ->
    agrees (with_tx d idx use next) w' /\ after SEND_OPS 0 w w').
  { intros next use k w' Hk Hs Hn. apply (still_weaken _ _ _ _ Hk) in Hs as [Ha Hr]. split; [|done].
    repeat split; cbn; congruence || lia. }
  assert (Hnone : agrees d w /\ after SEND_OPS 0 w w).
  { split; [done|]. apply (after_weaken 0); [unfold SEND_OPS; lia|apply still_refl]. }
  destruct (Z.ltb_spec (flen data) 14) as [|]; cbn [orb]; [exact Hnone|].
  destruct (Z.ltb_spec 1514 (flen data)) as [|Hlen]; [exact Hnone|].
  rewrite Hb, <- Z.add_assoc. set (p := RT_TX_STATUS + idx * 4).
  unfold io_bind. pose proof (tx_wait_still TX_TRIES p w) as S1.
  destruct (tx_wait TX_TRIES (base + p) w) as [ready w1]. cbn [snd] in S1. destruct ready; cbn [negb].
  2:{ apply (still_weaken _ SEND_OPS) in S1 as [A1 R1]; [|lia]. split; [repeat split; congruence || lia|done]. }
  unfold get_ram. set (m := tx_fill _ _ _).
  assert (S2 : still 1 w1 (snd (set_ram m w1))).
  { apply quiet_after, quiet_ram. eapply mem_same_weaken; [apply tx_fill_same|].
    pose proof (tx_addr_apart (with_tx d idx 1 idx) idx Htx Hi). unfold TX_BUF_SIZE, RING_AREA, RX_BUF_SIZE in *. cbv beta. lia. }
  destruct (set_ram m w1) as [[] w2]. cbn [snd] in S2.
  pose proof (quiet_after _ _ (quiet_tx w2 idx (if flen data <? 60 then 60 else flen data) Hi)) as S3.
  rewrite <- Z.add_assoc in S3. fold p in S3.
  destruct (outl (base + p) _ w2) as [[] w3]. cbn [snd] in S3.
  pose proof (tx_poll_still TX_TRIES p w3) as S4. destruct (tx_poll TX_TRIES (base + p) w3) as [ok w4]. cbn [snd] in S4.
  pose proof (still_trans _ _ _ _ _ S1 (still_trans _ _ _ _ _ S2 (still_trans _ _ _ _ _ S3 S4))) as S.
  assert (Ew : forall nx, with_tx (with_tx d idx 1 idx) idx 0 nx = with_tx d idx 0 nx)
    by (intros; unfold with_tx; cbn; by rewrite list_insert_insert_eq).
  destruct ok; unfold io_ret; rewrite ?Ew.
  - eapply Hkeep; [|exact S|]; [lia|]. unfold TX_NUM. apply Z.mod_pos_bound. lia.
  - change (io_base (with_tx d idx 1 idx)) with (io_base d). rewrite Hb, <- Z.add_assoc.
    destruct (inl (base + (RT_TX_ADDR + idx * 4)) w4) as [v w5] eqn:E5.
    eapply Hkeep; [|exact (still_trans _ _ _ _ _ S (inl_still _ _ _ _ E5))|exact Hi]. lia.
Qed.

(** *** The driver as the stack's card *)

Record nic_world := mkNicWorld { drv : rtl; mach : W; drv_ok : agrees drv mach }.

Lemma recv_agrees (d d' : rtl) (w w' : W) (r len : Z) (buf : list Z) :
  agrees d w -> Rtl8139.rtl8139_recv 1 d junk junk_len w = Some (r, buf, len, d', w') -> agrees d' w'.
Proof. intros Ha E. destruct (driver_recv_run d w Ha) as (? & ? & ? & ? & ? & E' & Ha' & _). congruence. Qed.

Lemma send_agrees (d d' : rtl) (w w' : W) (r : Z) (data : list Z) :
  agrees d w -> Rtl8139.rtl8139_send d data w = ((r, d'), w') -> agrees d' w'.
Proof. intros Ha E. pose proof (driver_send_run d data w Ha) as H'. rewrite E in H'. apply H'. Qed.

Lemma ticks_agrees (d : rtl) (w w' : W) (t : Z) : agrees d w -> read_ticks w = (t, w') -> agrees d w'.
Proof.
  intros (Hb & Hrx & Ho & Htx & Hi) E. pose proof (ticks_law w) as Hl. rewrite E in Hl. destruct Hl as (Hr & _).
  repeat split; congruence || lia.
Qed.

(** The bytes of the caller's buffer that [*len] counts; the loop of the
    driver needs no second round. *)
Definition recv_case (x : nic_world) (o : option (Z * list Z * Z * rtl * W)) :
    Rtl8139.rtl8139_recv 1 (drv x) junk junk_len (mach x) = o -> option (list Z) * nic_world :=
  match o with
  | Some (r, buf, len, d, w) => fun E =>
      (if r =? 0 then Some (get_bytes buf 0 len) else None,
       mkNicWorld d w (recv_agrees _ _ _ _ _ _ _ (drv_ok x) E))
  | None => fun _ => (None, x)
  end.

Definition nic_recv (x : nic_world) : option (list Z) * nic_world := recv_case x _ eq_refl.

Definition send_case (data : list Z) (x : nic_world) (o : Z * rtl * W) :
    Rtl8139.rtl8139_send (drv x) data (mach x) = o -> Z * nic_world :=
  match o with (r, d, w) => fun E => (r, mkNicWorld d w (send_agrees _ _ _ _ _ _ (drv_ok x) E)) end.

Definition nic_send (data : list Z) (x : nic_world) : Z * nic_world := send_case data x _ eq_refl.

Definition ticks_case (x : nic_world) (o : Z * W) : read_ticks (mach x) = o -> Z * nic_world :=
  match o with (t, w) => fun E => (t, mkNicWorld (drv x) w (ticks_agrees _ _ _ _ (drv_ok x) E)) end.

Definition nic_ticks (x : nic_world) : Z * nic_world := ticks_case x _ eq_refl.

#[local] Instance rtl_nic : Nic nic_world := {|
  Net.rtl8139_send := nic_send; Net.rtl8139_recv := nic_recv; Net.get_ticks := nic_ticks |}.

Lemma nic_recv_run (x : nic_world) :
  exists o x', nic_recv x = (o, x') /\
    match o with
    | None => after 1 0 (mach x) (mach x')
    | Some p => after 4 1 (mach x) (mach x') /\ exists w1 f fs buf len,
        quiet (mach x) w1 /\ pending w1 = f :: fs /\ delivered w1 f buf len /\ p = get_bytes buf 0 len
    end.
Proof.
  destruct (driver_recv_run (drv x) (mach x) (drv_ok x)) as (r & buf & len & d' & w' & E & _ & Hc). unfold nic_recv.
  generalize (eq_refl (Rtl8139.rtl8139_recv 1 (drv x) junk junk_len (mach x))).
  generalize (Rtl8139.rtl8139_recv 1 (drv x) junk junk_len (mach x)) at 2 3 as o. intros o Eo.
  assert (o = Some (r, buf, len, d', w')) as -> by congruence. cbn [recv_case].
  destruct Hc as [[-> Ha]|(-> & Ha & w1 & f & fs & Hq & Hp & Hd)]; do 2 eexists; (split; [reflexivity|]); [exact Ha|].
  split; [exact Ha|]. exists w1, f, fs, buf, len. done.
Qed.

Lemma nic_send_run (data : list Z) (x : nic_world) :
  exists r x', nic_send data x = (r, x') /\ after SEND_OPS 0 (mach x) (mach x').
Proof.
  pose proof (driver_send_run (drv x) data (mach x) (drv_ok x)) as Hs. unfold nic_send.
  generalize (eq_refl (Rtl8139.rtl8139_send (drv x) data (mach x))).
  generalize (Rtl8139.rtl8139_send (drv x) data (mach x)) at 2 3 as o. intros [[r d'] w'] Eo.
  rewrite Eo in Hs. do 2 eexists. split; [reflexivity|]. apply Hs.
Qed.

Lemma nic_ticks_run (x : nic_world) :
  exists t x', nic_ticks x = (u32 (t / mtick), x') /\ mclock (mach x) <= t <= mclock (mach x') /\
    after 1 0 (mach x) (mach x') /\ mclock (mach x) < mclock (mach x').
Proof.
  pose proof (ticks_law (mach x)) as Hl. unfold nic_ticks. generalize (eq_refl (read_ticks (mach x))).
  generalize (read_ticks (mach x)) at 2 3 as o. intros [t w'] Eo. rewrite Eo in Hl.
  destruct Hl as (_ & (new & Hn) & Ht & Hlt & y & Hy & ->). apply receives_left in Hn.
  exists y. eexists. split; [reflexivity|]. split; [exact Hy|]. split; [|exact Hlt]. split; [exact Ht|].
  cbn [ticks_case mach]. unfold left in *. lia.
Qed.

(** The ticks a call of the driver takes at most *)
Definition mdelay : Z := SEND_OPS * mop / mtick + 1.

(** The time until the counter moves *)
Definition mrank (w : W) : Z := mtick - 1 - mclock w mod mtick.

Lemma mrank_bound (w : W) : 0 <= mrank w <= mtick - 1.
Proof. pose proof mtick_pos. pose proof (Z.mod_pos_bound (mclock w) mtick). unfold mrank. lia. Qed.

Lemma takes_ticks (k : Z) (w w' : W) : k <= SEND_OPS -> takes k w w' ->
  mtime w <= mtime w' <= mtime w + mdelay /\
  (mtime w < mtime w' \/ mrank w' <= mrank w /\ (mclock w < mclock w' -> mrank w' < mrank w)).
Proof.
  intros Hk Ht. pose proof mtick_pos as Hm. pose proof (mop_pos w) as Ho.
  assert (Hs : mclock w <= mclock w' <= mclock w + SEND_OPS * mop) by (unfold takes in Ht; nia).
  exact (ticks_between mtick (mclock w) (mclock w') (SEND_OPS * mop) Hm Hs).
Qed.

#[local] Program Instance rtl_fair : FairNic nic_world := {|
  time := fun x => mtime (mach x);
  delay := mdelay;
  patience := mtick - 1;
  rank := fun x => mrank (mach x);
  frames := fun x => left (mach x) |}.
Next Obligation. intros x. apply mrank_bound. Qed.
Next Obligation. intros x. pose proof (arriving_pos (mach x)). unfold left. lia. Qed.
Next Obligation.
  intros x. destruct (nic_ticks_run x) as (t & x' & E & Ht & (T & L) & Hlt). exists (t / mtick), x'. split; [exact E|].
  destruct (takes_ticks 1 _ _ ltac:(unfold SEND_OPS; lia) T) as (Hd & Hr).
  split; [lia|]. pose proof mtick_pos.
  split; [split; unfold mtime; apply Z.div_le_mono; lia|]. split; [lia|]. destruct Hr as [?|[_ Hr]]; [by left|right; auto].
Qed.
Next Obligation.
  intros x. destruct (nic_recv_run x) as (o & x' & E & Ho). exists o, x'. split; [exact E|].
  assert (Hn : exists k n, k <= SEND_OPS /\ n = (match o with Some _ => 1 | None => 0 end) /\ after k n (mach x) (mach x')).
  { destruct o as [p|]; [destruct Ho as [Ho _]; exists 4|exists 1]; eexists; (split; [unfold SEND_OPS; lia|]); by split. }
  destruct Hn as (k & n & Hk & -> & T & L). destruct (takes_ticks k _ _ Hk T) as (Hd & Hr). split; [exact Hd|].
  split; [destruct Hr as [?|[? _]]; auto|]. destruct o; lia.
Qed.
Next Obligation.
  intros p x. destruct (nic_send_run p x) as (r & x' & E & T & L). exists r, x'. split; [exact E|].
  destruct (takes_ticks SEND_OPS _ _ ltac:(lia) T) as (Hd & Hr). split; [exact Hd|].
  split; [destruct Hr as [?|[? _]]; auto|lia].
Qed.

(** A delivered frame is the oldest in the ring, without its checksum, when
    it does not cross the ring's end. *)
Lemma delivered_bytes (w1 : W) (f buf : list Z) (fs : list (list Z)) (len : Z) :
  length junk = 1514%nat -> pending w1 = f :: fs -> delivered w1 f buf len -> rx_read w1 + flen f <= RX_BUF_SIZE ->
  get_bytes buf 0 len = take (Z.to_nat (flen f - 4)) f.
Proof.
  intros Hj Hp (-> & ->) Hfit. pose proof (card_frames w1) as Hf. rewrite Hp in Hf. apply Forall_cons in Hf as [Hf _].
  unfold frame_ok in Hf. set (data := rx_copy (ram w1) rx (rx_read w1) (flen f - 4)).
  assert (Hd : data = take (Z.to_nat (flen f - 4)) f) by (exact (rx_copy_fits base rx w1 f fs Hp Hfit)).
  assert (Hl : Z.of_nat (length data) = flen f - 4) by (rewrite Hd, length_take; unfold flen in *; lia).
  assert (Hb : is_bytes data).
  { rewrite Hd. pose proof (card_ring w1) as Hh. rewrite Hp in Hh. destruct Hh as (_ & _ & <- & _).
    apply Forall_take. unfold load_bytes. apply Forall_map, Forall_forall. intros a _. apply load8_range. }
  transitivity data; [|exact Hd]. clearbody data. rewrite <- Hl. apply get_put_bytes; [exact Hb|lia|]. rewrite Hj. lia.
Qed.

(** C12: The network stack runs on the real driver.  On a machine with the
    card, its ring and a running timer, on which an operation takes at most
    [mop] units of time and a tick lasts [mtick], and with the driver's state
    as rtl8139_init leaves it: a frame the stack receives is the oldest in
    the ring, without its checksum, provided it ends inside the ring (a frame
    that crosses the ring's end is delivered wrong); and every call of the
    stack that takes fewer than 2^32 ticks returns, within its time-out, 100
    ticks and 14 delays, and 100 ticks and 12 delays more for each of the
    frames still to be delivered, a delay being the ticks of the ten million
    port reads that sending a frame may poll for. *)
Theorem stack_runs_on_driver (f n : nat) (c : net_call) (s : Net.net nic_world) :
  length junk = 1514%nat -> left (mach (Net.world s)) = Z.of_nat f ->
  call_ticks c + 50 + 3 * mdelay + (100 + 12 * mdelay) * Z.of_nat f < 4294967296 ->
  (call_ticks c + 1) * mtick + 51 * mtick * (Z.of_nat f + 1) <= Z.of_nat n ->
  (forall p x', Net.rtl8139_recv (Net.world s) = (Some p, x') ->
     exists w1 g fs, quiet (mach (Net.world s)) w1 /\ pending w1 = g :: fs /\
       (rx_read w1 + flen g <= RX_BUF_SIZE -> p = take (Z.to_nat (flen g - 4)) g)) /\
  exists s', net_exec n c s = Some (tt, s') /\
    mtime (mach (Net.world s)) <= mtime (mach (Net.world s')) <=
      mtime (mach (Net.world s)) + call_ticks c + 100 + 14 * mdelay + (100 + 12 * mdelay) * Z.of_nat f.
Proof.
  intros Hj Hf Hw Hn. split.
  - intros p x' E. destruct (nic_recv_run (Net.world s)) as (o & x2 & E2 & Ho).
    change (nic_recv (Net.world s) = (Some p, x')) in E. rewrite E2 in E. injection E as -> ->.
    destruct Ho as (_ & w1 & g & fs & buf & len & Hq & Hp & Hd & ->). exists w1, g, fs. split; [exact Hq|].
    split; [exact Hp|]. by apply (delivered_bytes w1 g buf fs len).
  - assert (Hft : frame_ticks = 100 + 12 * mdelay) by (unfold frame_ticks, segment_ticks, resolve_ticks; cbn; lia).
    destruct (exec_returns f n c s) as ([] & s' & E & L & T);
      [change (left (mach (Net.world s)) <= Z.of_nat f); lia|by rewrite Hft|unfold need; change patience with (mtick - 1); lia|].
    pose proof (fair_frames (Net.world s')) as F. pose proof (frame_ticks_pos (Net.world s)) as Hp.
    exists s'. split; [exact E|]. unfold later, call_overhead in *. rewrite Hft in *. cbn in *. rewrite Hf in T. nia.
Qed.

End driver.

(** ** Initialisation prepares the driver *)

(** A transmit buffer apart from the ring at [rx] *)
Definition apart (rx a : Z) : Prop := a + TX_BUF_SIZE <= rx \/ rx + RING_AREA <= a.

Section init.

Context {W : Type} `{Machine W}.

(** A frame that is free while the ring's three frames are in use *)
Lemma free_apart (p : Pfa.pfa) (st f : Z) :
  (forall g, st <= g < st + 3 -> Pfa.used p g = true) -> Pfa.used p f = false -> apart (st * FRAME_SIZE) (f * FRAME_SIZE).
Proof.
  intros Hu Hf. assert (~ (st <= f < st + 3)) by (intros Hr; by rewrite Hu in Hf).
  unfold apart, RING_AREA, RX_BUF_SIZE, TX_BUF_SIZE, FRAME_SIZE. lia.
Qed.

(** The loop over the descriptors *)
Lemma init_tx_apart (n : nat) (i st : Z) (d d' : rtl) (p p' : Pfa.pfa) (w w' : W) :
  0 <= i -> i + Z.of_nat n = Z.of_nat (length (tx_buf d)) -> Pfa.pfa_inv p -> 0 <= st ->
  (forall g, st <= g < st + 3 -> Pfa.used p g = true) ->
  (forall j a, tx_buf d !! j = Some a -> Z.of_nat j < i -> apart (st * FRAME_SIZE) a) ->
  init_tx n i d p w = ((true, d', p'), w') ->
  length (tx_buf d') = length (tx_buf d) /\ rx_buf d' = rx_buf d /\ Forall (apart (st * FRAME_SIZE)) (tx_buf d').
Proof.
  revert i d p w. induction n as [|n IH]; intros i d p w Hi Hn Hp Hst Hu Hd; cbn [init_tx].
  { intros [= <- _ _]. do 2 (split; [done|]). apply Forall_lookup. intros j a Hj. apply (Hd j a Hj).
    apply lookup_lt_Some in Hj. lia. }
  destruct (Pfa.alloc_frame p) as [a p1] eqn:Ea. destruct (Z.eqb_spec a 0) as [|Ha]; [discriminate|].
  destruct (Pfa.alloc_frame_some p p1 a Hp Ea Ha) as (f & -> & Hf & Hfu & _ & Hp1 & _ & Hu1).
  unfold io_bind, get_ram. destruct (set_ram _ w) as [[] w1]. destruct (outl _ _ w1) as [[] w2].
  destruct (outl _ _ w2) as [[] w3]. intros E.
  apply IH in E; cbn [tx_buf rx_buf with_tx] in *; rewrite ?length_insert in *; [exact E|lia|lia|done|done| |].
  - intros g Hg. rewrite Hu1 by lia. rewrite Hu by lia. apply orb_true_r.
  - intros j b Hj Hji. destruct (decide (j = Z.to_nat i)) as [->|Hne].
    + rewrite list_lookup_insert_eq in Hj by lia. injection Hj as <-. by apply (free_apart p).
    + rewrite list_lookup_insert_ne in Hj by done. apply (Hd j b Hj). lia.
Qed.

(** When rtl8139_init succeeds, the transmit buffers are apart from the ring
    and the first descriptor is next. *)
Lemma init_prepares (d d' : rtl) (p p' : Pfa.pfa) (w w' : W) :
  length (tx_buf d) = 4%nat -> Pfa.pfa_inv p -> rtl8139_init d p w = ((0, d', p'), w') ->
  length (tx_buf d') = 4%nat /\ Forall (apart (rx_buf d')) (tx_buf d') /\ tx_next_idx d' = 0.
Proof.
  intros Hl Hp. unfold rtl8139_init, io_bind, io_ret.
  destruct (pci_find_device _ _ w) as [dev w1]. destruct (dev =? 65535); [discriminate|].
  destruct (pci_unpack dev) as [[bus slot] func]. destruct (pci_read_bar _ _ _ _ w1) as [bar w2].
  set (base := Z.land bar 65532). destruct (pci_config_read _ _ _ _ w2) as [cmd w3].
  destruct (pci_config_write _ _ _ _ _ w3) as [[] w4]. destruct (outb _ _ w4) as [[] w5].
  destruct (rtl8139_reset base w5) as [[] w6]. destruct (read_mac 6 base 0 w6) as [hw w7].
  destruct (Pfa.alloc_frames p 3) as [rx p1] eqn:Er. destruct (Z.eqb_spec rx 0) as [|Hrx]; [discriminate|].
  destruct (Pfa.alloc_frames_some p p1 3 rx Hp ltac:(lia) Er Hrx) as (st & -> & Hst & _ & _ & _ & Hp1 & _ & Hu).
  unfold get_ram. destruct (set_ram _ w7) as [[] w8]. destruct (outl _ _ w8) as [[] w9].
  destruct (init_tx _ _ _ _ w9) as [[[ok d1] p2] w10] eqn:Et. destruct ok; cbn [negb]; [|discriminate].
  apply (init_tx_apart _ _ st) in Et; cbn [tx_buf rx_buf] in *; [|lia|rewrite Hl; done|done|lia| |intros; lia].
  2:{ intros g Hg. rewrite Hu by lia. by repeat (zcase; try lia). }
  destruct Et as (L & R & F). do 8 (match goal with |- context [let (_, _) := ?e in _] => destruct e as [? ?] end).
  intros [= <- _ _]. cbn. by rewrite R, L.
Qed.

End init.

(** ** A machine with one frame in the ring

    The state says whether the frame is still there, and the time. *)
Definition box : Type := bool * Z.

#[local] Instance box_machine : Machine box := {|
  inb := fun _ => io_ret 0;
  inw := fun _ w => (68, w);
  inl := fun _ w => (40960, (fst w, snd w + 1));
  outb := fun _ _ => io_ret tt;
  outw := fun port _ w => (tt, if port =? 49152 + RT_CAPR then (false, snd w) else w);
  outl := fun _ _ => io_ret tt;
  ram := fun _ => demo_ram;
  set_ram := fun _ => io_ret tt |}.

#[local] Instance box_card : RxCard 49152 65536 box.
Proof.
  refine {| pending := fun w : box => if fst w then [demo_frame] else [];
            rx_read := fun w : box => if fst w then 0 else 68 |}.
  - intros [[] t]; [|done]. repeat split; vm_compute; reflexivity.
  - intros [[] t]; vm_compute; intuition discriminate.
  - intros [[] t]; repeat constructor; vm_compute; discriminate.
  - intros [[] t]; vm_compute; reflexivity.
  - intros w. exists [], w. destruct w as [[] t]; done.
  - intros w v. exists [], w. destruct w as [[] t]; done.
  - intros [[] t] f fs; [|discriminate]. intros [= <- <-]. by exists [], (false, t).
Defined.

#[local] Instance box_obs : NicObs box := {|
  read_ticks := fun w => (u32 (snd w / 3), (fst w, snd w + 1)); mclock := snd; mtick := 3; mop := 1;
  arriving := fun _ => 0 |}.

(** Nothing but the time changes. *)
Lemma box_quiet (b : bool) (t t' : Z) : t <= t' <= t + 1 -> quiet (base := 49152) (rx := 65536) (b, t) (b, t').
Proof. intros Ht. split; [done|]. split; [unfold takes; cbn; lia|]. exists []. split; [by rewrite app_nil_r|done]. Qed.

#[local] Instance box_nic : NicMachine 49152 65536 box.
Proof.
  split; intros; try (destruct w as [b t]; apply box_quiet; lia); try done.
  - destruct w as [b t]. apply (box_quiet b t (t + 1)). lia.
  - destruct w as [[] t]; [|discriminate]. match goal with E : _ = _ |- _ => injection E as <- <- end.
    cbn -[demo_frame]. split; [done|]. split; [change (t <= t <= t + 1 * 1); lia|]. by exists [].
  - destruct w as [b t]. destruct (box_quiet b t (t + 1) ltac:(lia)) as (R & T & N). cbn.
    split; [exact R|]. split; [exact N|]. split; [exact T|]. split; [lia|]. exists t. split; [lia|done].
Qed.

Definition box_tx : list Z := [81920; 86016; 90112; 94208].

Definition box_rtl : rtl := mkRtl 49152 [82; 84; 0; 18; 52; 86] 65536 box_tx 0 [0; 0; 0; 0] 0.

Lemma box_agrees : agrees 49152 65536 box_tx box_rtl (true, 7).
Proof. repeat split; done. Qed.

Lemma box_apart : Forall (fun a => a + TX_BUF_SIZE <= 65536 \/ 65536 + RING_AREA <= a) box_tx.
Proof. unfold box_tx. do 4 (apply Forall_cons_2; [right; vm_compute; discriminate|]). apply Forall_nil_2. Qed.

Lemma stack_runs_on_driver_witness :
  let nic := rtl_nic 49152 65536 box_tx (replicate 1514 0) 9 eq_refl box_apart in
  exists s', @net_exec _ nic 1000 (CResolve 167772674) (net_boot (mkNicWorld 49152 65536 box_tx box_rtl (true, 7) box_agrees))
    = Some (tt, s').
Proof.
  destruct (stack_runs_on_driver 49152 65536 box_tx (replicate 1514 0) 9 eq_refl box_apart 1 1000 (CResolve 167772674)
    (net_boot (mkNicWorld 49152 65536 box_tx box_rtl (true, 7) box_agrees))) as (_ & s' & E & _).
  - done.
  - reflexivity.
  - vm_compute. reflexivity.
  - vm_compute. discriminate.
  - exists s'. exact E.
Defined.

End NicRtl.
