(* ===== verification/Acpi.v ===== *)
(** * kernel/acpi/rsdp.c and kernel/acpi/madt.c: the ACPI tables

    The boot processor finds the firmware's tables in physical memory, maps
    them to their own addresses and lists the processors.  Tables are read
    from byte memory; mapping them changes the page tables ([Paging]) and
    may allocate frames.  Log output is omitted. *)
From S2P Require Import Prelude Bytes Memory FrameAlloc Pfa Paging.

Module Acpi.
Import Pfa Paging.

Definition MAX_CPU : Z := 8.

Definition CPU_UNINITIALIZED : Z := 0.

Definition MADT_TYPE_PROCESSOR : Z := 0.

Definition MADT_TYPE_IOAPIC : Z := 1.

(** [sizeof(sdt_header_t)] *)
Definition SDT_HEADER : Z := 36.

Record cpu_info_t := mkCpu {
  cpu_id : Z; apic_id : Z; state : Z; stack_top : Z; current_task : Z; resched_pending : Z
}.

(** ** The root pointer *)

(** "RSD PTR " *)
Definition signature : list Z := [82; 83; 68; 32; 80; 84; 82; 32].

Definition byte_sum (m : memory) (a n : Z) : Z :=
  for_up (Z.to_nat n) 0 1 (fun i sum => u8 (sum + load8 m (a + i))) 0.

Definition rsdp_here (m : memory) (p : Z) : bool :=
  bool_decide (load_bytes m p 8 = signature) && (byte_sum m p 20 =? 0).

(** [while (p + 20 <= end) ... p += 16]; 0 when nothing is found *)
Definition rsdp_search_region (m : memory) (start length : Z) : Z :=
  match find_up (Z.to_nat ((length - 20) / 16 + 1)) 0 (fun k => rsdp_here m (start + 16 * k)) with
  | Some k => start + 16 * k
  | None => 0
  end.

Definition acpi_find_rsdp (m : memory) : Z :=
  let ebda_seg := load16 m 1038 in
  let rsdp := if ebda_seg =? 0 then 0 else rsdp_search_region m (ebda_seg * 16) 1024 in
  if negb (rsdp =? 0) then rsdp else rsdp_search_region m 917504 131072.

(** ** The tables *)

Definition acpi_checksum (m : memory) (a length : Z) : bool := byte_sum m a length =? 0.

Definition identity_map_region (s : vm pfa) (phys size : Z) : vm pfa :=
  let start := Z.land phys (Z.lnot 4095) in
  let end_ := Z.land (u32 (phys + size + 4095)) (Z.lnot 4095) in
  for_up (Z.to_nat ((end_ - start) / 4096)) start 4096 (fun p s => snd (map_page s p p PAGE_WRITE)) s.

Definition map_access (s : vm pfa) (phys min_size : Z) : vm pfa := identity_map_region s phys min_size.

(** The loop over the RSDT's entries from [i] on: the address of the MADT,
    or 0 *)
Fixpoint find_madt (n : nat) (s : vm pfa) (rsdt i : Z) : Z * vm pfa :=
  match n with
  | O => (0, s)
  | S n =>
      let entry_phys := load32 (vmem s) (rsdt + SDT_HEADER + 4 * i) in
      let s := map_access s entry_phys SDT_HEADER in
      let hdr_len := load32 (vmem s) (entry_phys + 4) in
      if hdr_len <? SDT_HEADER then find_madt n s rsdt (i + 1)
      else
        let s := map_access s entry_phys hdr_len in
        if negb (acpi_checksum (vmem s) entry_phys hdr_len) then find_madt n s rsdt (i + 1)
        else if bool_decide (load_bytes (vmem s) entry_phys 4 = [65; 80; 73; 67]) then (entry_phys, s)
        else find_madt n s rsdt (i + 1)
  end.

(** ** The processors *)

(** [cpu_info] and [cpu_count] *)
Abbreviation cpus := (list cpu_info_t * Z)%type.

Definition add_cpu (c : cpus) (apic : Z) : cpus :=
  let '(info, count) := c in
  if count <? MAX_CPU then
    (alter (fun v => mkCpu count apic CPU_UNINITIALIZED 0 (current_task v) (resched_pending v))
       (Z.to_nat count) info, count + 1)
  else (info, count).

(** The entry at [p] *)
Definition madt_entry (m : memory) (p : Z) (c : cpus) : cpus :=
  if (load8 m p =? MADT_TYPE_PROCESSOR) && (8 <=? load8 m (p + 1)) then
    if Z.testbit (load32 m (p + 4)) 0 then add_cpu c (load8 m (p + 3)) else c
  else c.

(** [while (p < end)] *)
Fixpoint madt_entries (fuel : nat) (m : memory) (p end_ : Z) (c : cpus) : option cpus :=
  match fuel with
  | O => None
  | S fuel =>
      if p <? end_ then
        if load8 m (p + 1) <? 2 then Some c
        else madt_entries fuel m (u32 (p + load8 m (p + 1))) end_ (madt_entry m p c)
      else Some c
  end.

(** The result, [lapic_addr], the processors and the page tables *)
Definition acpi_parse_madt (fuel : nat) (s : vm pfa) (c : cpus) (lapic : Z) :
    option (Z * Z * cpus * vm pfa) :=
  let rsdp := acpi_find_rsdp (vmem s) in
  if rsdp =? 0 then Some (-1, lapic, c, s)
  else
    let rsdt := load32 (vmem s) (rsdp + 16) in
    let s := map_access s rsdt SDT_HEADER in
    let rsdt_len := load32 (vmem s) (rsdt + 4) in
    if rsdt_len <? SDT_HEADER then Some (-1, lapic, c, s)
    else
      let s := map_access s rsdt rsdt_len in
      if negb (acpi_checksum (vmem s) rsdt rsdt_len) then Some (-1, lapic, c, s)
      else
        let entry_count := (rsdt_len - SDT_HEADER) / 4 in
        let '(madt, s) := find_madt (Z.to_nat entry_count) s rsdt 0 in
        if madt =? 0 then Some (-1, lapic, c, s)
        else
          let lapic := load32 (vmem s) (madt + SDT_HEADER) in
          match madt_entries fuel (vmem s) (madt + 44) (u32 (madt + load32 (vmem s) (madt + 4)))
                  (fst c, 0) with
          | None => None
          | Some c => Some (snd c, lapic, c, s)
          end.

(** ** Entries and their bytes *)

Inductive entry :=
  | Processor (uid apic flags : Z)
  | Other (type : Z) (payload : list Z).

Definition encode_entry (e : entry) : list Z :=
  match e with
  | Processor uid apic flags =>
      [MADT_TYPE_PROCESSOR; 8; uid; apic; flags mod 256; flags / 256 mod 256; flags / 65536 mod 256;
       flags / 16777216 mod 256]
  | Other type payload => [type; 2 + Z.of_nat (length payload)] ++ payload
  end.

Definition encode (es : list entry) : list Z := concat (map encode_entry es).

Definition entry_ok (e : entry) : Prop :=
  match e with
  | Processor uid apic flags => 0 <= uid < 256 /\ 0 <= apic < 256 /\ 0 <= flags < 4294967296
  | Other type payload => 0 < type < 256 /\ is_bytes payload /\ (length payload <= 253)%nat
  end.

(** The enabled processors in the order of the table *)
Definition enabled (es : list entry) : list Z :=
  flat_map (fun e => match e with Processor _ apic flags => if Z.odd flags then [apic] else [] | Other _ _ => [] end) es.

(** Bytes at an address *)
Definition bytes_at (m : memory) (a : Z) (l : list Z) : Prop :=
  forall i, 0 <= i < Z.of_nat (length l) -> load8 m (a + i) = byte_at l i.

Lemma bytes_at_app (m : memory) (a : Z) (l1 l2 : list Z) :
  bytes_at m a (l1 ++ l2) -> bytes_at m a l1 /\ bytes_at m (a + Z.of_nat (length l1)) l2.
Proof.
  intros H. split; intros i Hi.
  - rewrite (H i) by (rewrite length_app; lia). unfold byte_at. by rewrite lookup_app_l by lia.
  - rewrite <- Z.add_assoc, (H (Z.of_nat (length l1) + i)) by (rewrite length_app; lia).
    unfold byte_at. rewrite lookup_app_r by lia. do 2 f_equal. lia.
Qed.

Lemma entry_length (e : entry) :
  entry_ok e -> 2 <= Z.of_nat (length (encode_entry e)) < 256 /\
    byte_at (encode_entry e) 1 = Z.of_nat (length (encode_entry e)).
Proof.
  destruct e as [uid apic flags|type payload]; cbn [entry_ok encode_entry]; [done|].
  intros (Ht & Hp & Hl). rewrite length_app. cbn [length]. split; [lia|].
  change (2 + Z.of_nat (length payload) = Z.of_nat (2 + length payload)). lia.
Qed.

Lemma madt_entry_spec (m : memory) (p : Z) (e : entry) (c : cpus) :
  entry_ok e -> bytes_at m p (encode_entry e) ->
  madt_entry m p c = fold_left add_cpu (enabled [e]) c.
Proof.
  intros He Hb. assert (H0 := Hb 0). rewrite Z.add_0_r in H0. unfold madt_entry.
  destruct e as [uid apic flags|type payload]; cbn [entry_ok] in He.
  - unfold load32. rewrite <- !Z.add_assoc.
    rewrite H0, (Hb 1), (Hb 3), (Hb 4), (Hb (4 + 1)), (Hb (4 + 2)), (Hb (4 + 3)) by (simpl; lia).
    change (byte_at (encode_entry (Processor uid apic flags)) 0) with 0.
    change (byte_at (encode_entry (Processor uid apic flags)) 1) with 8.
    change (byte_at (encode_entry (Processor uid apic flags)) 3) with apic.
    change (byte_at (encode_entry (Processor uid apic flags)) 4) with (u8 flags).
    change (byte_at (encode_entry (Processor uid apic flags)) (4 + 1)) with (u8 (flags / 256)).
    change (byte_at (encode_entry (Processor uid apic flags)) (4 + 2)) with (u8 (flags / 65536)).
    change (byte_at (encode_entry (Processor uid apic flags)) (4 + 3)) with (u8 (flags / 16777216)).
    rewrite le32_split, u32_small, Z.bit0_odd by lia. cbn [enabled flat_map app].
    by destruct (Z.odd flags).
  - rewrite H0 by (simpl; lia). change (byte_at (encode_entry (Other type payload)) 0) with type.
    unfold MADT_TYPE_PROCESSOR. by rewrite (proj2 (Z.eqb_neq type 0)) by lia.
Qed.

Lemma enabled_cons (e : entry) (es : list entry) : enabled (e :: es) = enabled [e] ++ enabled es.
Proof. unfold enabled. cbn [flat_map]. by rewrite app_nil_r. Qed.

Lemma madt_entries_spec (es : list entry) (fuel : nat) (m : memory) (p : Z) (c : cpus) :
  Forall entry_ok es -> bytes_at m p (encode es) -> 0 <= p ->
  p + Z.of_nat (length (encode es)) < 4294967296 -> (length es < fuel)%nat ->
  madt_entries fuel m p (p + Z.of_nat (length (encode es))) c = Some (fold_left add_cpu (enabled es) c).
Proof.
  intros Hes. revert fuel p c; induction Hes as [|e es He _ IH]; intros [|fuel] p c Hb Hp Hend Hf;
    try (cbn [length] in Hf; lia).
  { cbn. by rewrite Z.add_0_r, Z.ltb_irrefl. }
  change (encode (e :: es)) with (encode_entry e ++ encode es) in *. rewrite length_app in *.
  apply bytes_at_app in Hb as [Hb1 Hb2]. destruct (entry_length e He) as [Hl Hl1].
  cbn [madt_entries]. rewrite (Hb1 1) by lia. rewrite Hl1.
  rewrite (proj2 (Z.ltb_lt p _)), (proj2 (Z.ltb_ge _ 2)), u32_small by lia.
  rewrite (madt_entry_spec m p e c He Hb1), (enabled_cons e es), fold_left_app.
  replace (p + Z.of_nat (length (encode_entry e) + length (encode es)))
    with (p + Z.of_nat (length (encode_entry e)) + Z.of_nat (length (encode es))) by lia.
  apply IH; [done|lia|lia|cbn [length] in Hf; lia].
Qed.

(** The first eight processors fill [cpu_info] in order. *)
Lemma add_cpus_spec (ids : list Z) (info : list cpu_info_t) (count : Z) :
  0 <= count <= MAX_CPU -> length info = Z.to_nat MAX_CPU ->
  let '(info', count') := fold_left add_cpu ids (info, count) in
  count' = Z.min MAX_CPU (count + Z.of_nat (length ids)) /\ length info' = Z.to_nat MAX_CPU /\
  (forall i, count <= i < count' -> exists v, info' !! Z.to_nat i = Some v /\ cpu_id v = i /\
     ids !! Z.to_nat (i - count) = Some (apic_id v) /\ state v = CPU_UNINITIALIZED /\ stack_top v = 0) /\
  (forall i, 0 <= i < count \/ count' <= i -> info' !! Z.to_nat i = info !! Z.to_nat i).
Proof.
  revert info count; induction ids as [|id ids IH]; intros info count Hc Hl; cbn [fold_left].
  { cbn [length]. repeat split; [lia|done|intros; lia]. }
  unfold add_cpu at 2. destruct (Z.ltb_spec count MAX_CPU) as [Hlt|Hge].
  - set (info1 := alter _ _ _).
    assert (Hl1 : length info1 = Z.to_nat MAX_CPU) by (subst info1; by rewrite length_alter).
    specialize (IH info1 (count + 1) ltac:(lia) Hl1).
    destruct (fold_left add_cpu ids (info1, count + 1)) as [info' count'].
    destruct IH as (Hc' & Hl' & Hin & Hout). cbn [length].
    split; [lia|]. split; [done|]. split.
    + intros i Hi. destruct (Z.eq_dec i count) as [->|Hne].
      * rewrite Hout by lia. subst info1. rewrite list_lookup_alter_eq.
        destruct (lookup_lt_is_Some_2 info (Z.to_nat count)) as [v Hv]; [rewrite Hl; lia|]. rewrite Hv.
        eexists. split; [reflexivity|]. rewrite Z.sub_diag. by repeat split.
      * destruct (Hin i ltac:(lia)) as (v & Hv & Hid & Hap & Hst). exists v. split; [done|]. split; [done|].
        split; [|done]. replace (Z.to_nat (i - count)) with (S (Z.to_nat (i - (count + 1)))) by lia. exact Hap.
    + intros i Hi. rewrite Hout by lia. subst info1. apply list_lookup_alter_ne. lia.
  - assert (Hs : forall ids, fold_left add_cpu ids (info, count) = (info, count)).
    { intros l. induction l as [|x l IHl]; cbn [fold_left]; [done|]. unfold add_cpu at 2.
      by rewrite (proj2 (Z.ltb_ge _ _)) by lia. }
    rewrite Hs. repeat split; [lia|done|intros; lia].
Qed.

(** C37: The loop over the MADT terminates and lists the processors exactly:
    whatever entries the table has, of known and unknown types, [cpu_count]
    is the number of enabled processors, at most eight, and [cpu_info] has
    their APIC numbers in the order of the table; the other elements of the
    array keep their contents. *)
Theorem madt_lists_processors (es : list entry) (m : memory) (p : Z) (info : list cpu_info_t) :
  Forall entry_ok es -> bytes_at m p (encode es) -> 0 <= p ->
  p + Z.of_nat (length (encode es)) < 4294967296 -> length info = Z.to_nat MAX_CPU ->
  exists info' count,
    madt_entries (S (length es)) m p (p + Z.of_nat (length (encode es))) (info, 0) = Some (info', count) /\
    count = Z.min MAX_CPU (Z.of_nat (length (enabled es))) /\
    (forall i, 0 <= i < count -> exists v, info' !! Z.to_nat i = Some v /\ cpu_id v = i /\
       enabled es !! Z.to_nat i = Some (apic_id v) /\ state v = CPU_UNINITIALIZED /\ stack_top v = 0) /\
    (forall i, count <= i -> info' !! Z.to_nat i = info !! Z.to_nat i).
Proof.
  intros Hes Hb Hp Hend Hl. rewrite madt_entries_spec by (done || lia).
  pose proof (add_cpus_spec (enabled es) info 0 ltac:(unfold MAX_CPU; lia) Hl) as H.
  destruct (fold_left add_cpu (enabled es) (info, 0)) as [info' count]. destruct H as (Hc & _ & Hin & Hout).
  exists info', count. split; [done|]. split; [done|]. split.
  - intros i Hi. specialize (Hin i Hi). by rewrite Z.sub_0_r in Hin.
  - intros i Hi. apply Hout. by right.
Qed.

(** Two processors, the second of them disabled, around an entry of another type *)
Definition demo_entries : list entry := [Processor 0 5 1; Other 2 [0; 0; 2]; Processor 1 6 0].

Definition demo_table : memory :=
  for_up 21 0 1 (fun i m => store8 m (4096 + i) (byte_at (encode demo_entries) i)) ∅.

Definition no_cpus : list cpu_info_t := replicate 8 (mkCpu 0 0 0 0 0 0).

Lemma madt_lists_processors_witness :
  exists info', madt_entries 4 demo_table 4096 4117 (no_cpus, 0) = Some (info', 1) /\
    exists v, info' !! 0%nat = Some v /\ apic_id v = 5.
Proof.
  destruct (madt_lists_processors demo_entries demo_table 4096 no_cpus) as (info' & count & E & Hc & Hin & _).
  - repeat constructor; lia.
  - intros i Hi. change (Z.of_nat (length (encode demo_entries))) with 21 in Hi.
    assert (Hall : all_up 21 0 (fun i => load8 demo_table (4096 + i) =? byte_at (encode demo_entries) i) = true)
      by (vm_compute; reflexivity).
    apply Z.eqb_eq, (proj1 (all_up_true _ _ _) Hall). lia.
  - lia.
  - change (Z.of_nat (length (encode demo_entries))) with 21. lia.
  - reflexivity.
  - change (Z.min MAX_CPU (Z.of_nat (length (enabled demo_entries)))) with 1 in Hc. subst count.
    exists info'. split; [exact E|]. destruct (Hin 0 ltac:(lia)) as (v & Hv & _ & Ha & _).
    exists v. split; [exact Hv|]. injection Ha as <-. reflexivity.
Defined.

End Acpi.
