(* ===== verification/Ata.v ===== *)
(** * kernel/drivers/ata.c: the ATA disk driver

    Programmed I/O through the ports of two channels with two drives each.
    The driver's static variables are the record [ata]; the drives are
    behind the port instructions of [Machine].  The caller's buffer is a
    list of bytes, of which the driver transfers 16-bit words.  The waiting
    loops have the source's bound, [TIMEOUT]. *)
From S2P Require Import Prelude Bytes Memory Pci.

Module Ata.
Open Scope io_scope.

Definition TIMEOUT : nat := Z.to_nat 100000.

Definition ATA_RETRIES : nat := 3.

(** [ata_exists[ch][dr]] and [ata_model[ch][dr]], indexed by [2 * ch + dr] *)
Record ata := mkAta { ata_exists : list bool; ata_model : list (list Z) }.

Definition base_of (ch : Z) : Z := if ch =? 0 then 496 else 368.

Definition ata_drive_exists (a : ata) (channel drive : Z) : bool :=
  if (channel <? 0) || (1 <? channel) then false
  else if (drive <? 0) || (1 <? drive) then false
  else default false (ata_exists a !! Z.to_nat (2 * channel + drive)).

Definition ata_get_model (a : ata) (channel drive : Z) : list Z :=
  if ata_drive_exists a channel drive then default [] (ata_model a !! Z.to_nat (2 * channel + drive))
  else [].

Section driver.

Context {W : Type} `{Machine W}.

(** [do { st = inb(status); if (st & 1) fail; } while (timeout-- && (BSY || !DRQ))]
    with [n] the value of [timeout]: whether the drive asked for data *)
Fixpoint drq_wait (n : nat) (base : Z) : IO W bool :=
  st <- inb (base + 7) ;;
  if Z.testbit st 0 then io_ret false
  else match n with
       | O => io_ret false
       | S n => if Z.testbit st 7 || negb (Z.testbit st 3) then drq_wait n base else io_ret true
       end.

(** [while (timeout--) { st = inb(status); if (!BSY) break; }]: whether the
    drive stored the sector without an error *)
Fixpoint store_wait (n : nat) (base : Z) : IO W bool :=
  match n with
  | O => io_ret false
  | S n =>
      st <- inb (base + 7) ;;
      if Z.testbit st 7 then store_wait n base else io_ret (negb (Z.testbit st 0))
  end.

(** [buf[i] = inw(base)] for [n] words from [i] on *)
Fixpoint recv_words (n : nat) (base i : Z) (buf : list Z) : IO W (list Z) :=
  match n with
  | O => io_ret buf
  | S n => v <- inw base ;; recv_words n base (i + 1) (put16 buf (2 * i) v)
  end.

(** [outw(base, buf[i])] for [n] words from [i] on *)
Fixpoint send_words (n : nat) (base i : Z) (buf : list Z) : IO W unit :=
  match n with
  | O => io_ret tt
  | S n => outw base (get16 buf (2 * i)) ;;; send_words n base (i + 1) buf
  end.

(** The body of the loop over sectors *)
Definition pio_sector (base s : Z) (buf : list Z) (write : bool) : IO W (bool * list Z) :=
  ready <- drq_wait TIMEOUT base ;;
  if negb ready then io_ret (false, buf)
  else if write then
    send_words 256 base (s * 256) buf ;;;
    ok <- store_wait TIMEOUT base ;; io_ret (ok, buf)
  else
    buf <- recv_words 256 base (s * 256) buf ;; io_ret (true, buf).

Fixpoint pio_sectors (n : nat) (base s : Z) (buf : list Z) (write : bool) : IO W (bool * list Z) :=
  match n with
  | O => io_ret (true, buf)
  | S n =>
      r <- pio_sector base s buf write ;;
      let '(ok, buf) := r in
      if ok then pio_sectors n base (s + 1) buf write else io_ret (false, buf)
  end.

(** The command: drive and sector number, count, command byte *)
Definition pio_command (base drive lba count : Z) (write : bool) : IO W unit :=
  outb (base + 6) (Z.lor (Z.lor 224 (Z.shiftl drive 4)) (Z.land (Z.shiftr lba 24) 15)) ;;;
  outb (base + 2) count ;;;
  outb (base + 3) (Z.land lba 255) ;;;
  outb (base + 4) (Z.land (Z.shiftr lba 8) 255) ;;;
  outb (base + 5) (Z.land (Z.shiftr lba 16) 255) ;;;
  outb (base + 7) (if write then 48 else 32).

Fixpoint pio_tries (n : nat) (base drive lba count : Z) (buf : list Z) (write : bool) : IO W (Z * list Z) :=
  match n with
  | O => io_ret (-1, buf)
  | S n =>
      pio_command base drive lba count write ;;;
      r <- pio_sectors (Z.to_nat count) base 0 buf write ;;
      let '(ok, buf) := r in
      if ok then io_ret (0, buf) else pio_tries n base drive lba count buf write
  end.

Definition ata_pio (a : ata) (channel drive lba count : Z) (buf : list Z) (write : bool) : IO W (Z * list Z) :=
  if negb (ata_drive_exists a channel drive) then io_ret (-1, buf)
  else pio_tries ATA_RETRIES (base_of channel) drive lba count buf write.

Definition ata_read_sectors (a : ata) (channel drive lba count : Z) (buf : list Z) : IO W (Z * list Z) :=
  ata_pio a channel drive lba count buf false.

Definition ata_write_sectors (a : ata) (channel drive lba count : Z) (buf : list Z) : IO W (Z * list Z) :=
  ata_pio a channel drive lba count buf true.

(** ** Detection *)

(** [n] reads of the status register *)
Fixpoint status_delay (n : nat) (base : Z) : IO W unit :=
  match n with O => io_ret tt | S n => inb (base + 7) ;;; status_delay n base end.

(** [do { s = inb(cmd); ... } while (timeout--)]: the last status read *)
Fixpoint identify_wait (n : nat) (base : Z) : IO W Z :=
  s <- inb (base + 7) ;;
  if (s =? 0) || (s =? 255) || negb (Z.testbit s 7) then io_ret s
  else match n with O => io_ret s | S n => identify_wait n base end.

Fixpoint read_words (n : nat) (base : Z) : IO W (list Z) :=
  match n with
  | O => io_ret []
  | S n => v <- inw base ;; r <- read_words n base ;; io_ret (v :: r)
  end.

(** The model name: the characters of words 27 to 46, spaces at the end cut *)
Fixpoint trim (rev : list Z) : list Z :=
  match rev with c :: r => if c =? 32 then trim r else rev | [] => [] end.

Definition model_string (words : list Z) : list Z :=
  rev (trim (rev (flat_map (fun v => [Z.land v 255; Z.shiftr v 8]) (take 20 (drop 27 words))))).

(** One drive: [None] when there is none *)
Definition ata_identify (ch dr : Z) : IO W (option (list Z)) :=
  let base := base_of ch in
  outb (base + 6) (Z.lor 224 (Z.shiftl dr 4)) ;;;
  status_delay 4 base ;;;
  outb (base + 2) 0 ;;; outb (base + 3) 0 ;;; outb (base + 4) 0 ;;; outb (base + 5) 0 ;;;
  outb (base + 7) 236 ;;;
  inb (base + 7) ;;;
  s <- identify_wait TIMEOUT base ;;
  if (s =? 0) || (s =? 255) then io_ret None
  else words <- read_words 256 base ;; io_ret (Some (model_string words)).

(** The two loops over channels and drives, [i = 2 * ch + dr] *)
Fixpoint ata_scan (n : nat) (i detected : Z) (a : ata) : IO W (Z * ata) :=
  match n with
  | O => io_ret (detected, a)
  | S n =>
      r <- ata_identify (i / 2) (i mod 2) ;;
      match r with
      | None => ata_scan n (i + 1) detected (mkAta (<[Z.to_nat i := false]> (ata_exists a)) (ata_model a))
      | Some name =>
          ata_scan n (i + 1) (detected + 1)
            (mkAta (<[Z.to_nat i := true]> (ata_exists a)) (<[Z.to_nat i := name]> (ata_model a)))
      end
  end.

Definition ata_init (a : ata) : IO W (Z * ata) := ata_scan 4 0 0 a.

End driver.
End Ata.
