(* ===== verification/AtaProps.v ===== *)
(** * The disk driver implements the block device

    [AtaDrive] states the ATA standard's programmed-I/O protocol for one
    sector: an idle drive takes a command from its task file; while it works
    it reports BSY, the other status bits meaning nothing, for as long as it
    likes; then it reports an error or a fault, or asks for the transfer of
    256 words; a written sector is stored while BSY is reported again, and
    that may fail too.

    On such drives alone the driver is not safe: it tests ERR while BSY is
    set, it gives the next command to a drive it gave up waiting for, and it
    ignores the device fault bit ([late_drive_answers_wrong_read],
    [fault_taken_as_success]).  [PromptDrive] states what it needs besides
    the standard.  The main theorem is that on prompt drives the driver, with
    its retries, keeps the promises the file system was proved against
    ([BlockDev.MachineLaws]). *)
From S2P Require Import Prelude Bytes Memory Pci Ata BlockDev.

Import Ata.
Open Scope io_scope.

(** ** Words *)

Fixpoint words (l : list Z) : list Z :=
  match l with a :: b :: r => (a + 256 * b) :: words r | _ => [] end.

Definition bytes_of (ws : list Z) : list Z := flat_map (fun v => [u8 v; u8 (v / 256)]) ws.

Lemma words_bytes (n : nat) (l : list Z) : length l = (2 * n)%nat -> is_bytes l -> bytes_of (words l) = l.
Proof.
  revert l; induction n as [|n IH]; intros [|a [|b l]] Hl Hb; try (simpl in Hl; lia); [done|].
  apply Forall_cons in Hb as [Ha Hb]. apply Forall_cons in Hb as [Hb Hl']. unfold is_byte in *.
  cbn [words bytes_of flat_map app]. unfold bytes_of in IH. rewrite IH by (done || simpl in Hl; lia).
  f_equal; [|f_equal]; cint.
Qed.

Lemma length_ata_words (n : nat) (l : list Z) : length l = (2 * n)%nat -> length (words l) = n.
Proof.
  revert l; induction n as [|n IH]; intros [|a [|b l]] Hl; try (simpl in Hl; lia); [done|].
  cbn [words length]. f_equal. apply IH. simpl in Hl. lia.
Qed.

Lemma length_bytes_of (ws : list Z) : length (bytes_of ws) = (2 * length ws)%nat.
Proof. induction ws as [|w ws IH]; [done|]. cbn [bytes_of flat_map app length] in *. unfold bytes_of in IH. lia. Qed.

Lemma bytes_of_is_bytes (ws : list Z) : is_bytes (bytes_of ws).
Proof.
  induction ws as [|w ws IH]; [constructor|]. cbn [bytes_of flat_map app].
  constructor; [apply u8_range|]. constructor; [apply u8_range|exact IH].
Qed.

(** ** The drives *)

Record taskfile := mkTf { tf_count : Z; tf_lba0 : Z; tf_lba1 : Z; tf_lba2 : Z; tf_dev : Z }.

(** A write of [v] to register [k] *)
Definition tf_set (t : taskfile) (k v : Z) : taskfile :=
  if k =? 2 then mkTf v (tf_lba0 t) (tf_lba1 t) (tf_lba2 t) (tf_dev t)
  else if k =? 3 then mkTf (tf_count t) v (tf_lba1 t) (tf_lba2 t) (tf_dev t)
  else if k =? 4 then mkTf (tf_count t) (tf_lba0 t) v (tf_lba2 t) (tf_dev t)
  else if k =? 5 then mkTf (tf_count t) (tf_lba0 t) (tf_lba1 t) v (tf_dev t)
  else mkTf (tf_count t) (tf_lba0 t) (tf_lba1 t) (tf_lba2 t) v.

Definition tf_drive (t : taskfile) : Z := c_bool (Z.testbit (tf_dev t) 4).

Definition tf_sector (t : taskfile) : Z := le32 (tf_lba0 t) (tf_lba1 t) (tf_lba2 t) (tf_dev t mod 16).

Inductive phase :=
  | Idle
  | Command (write : bool) (dr p : Z)
  | In (dr p : Z) (left : list Z)
  | Out (dr p : Z) (got : list Z)
  | Store (dr p : Z) (data : list Z).

(** The channels behind [base_of] *)
Definition channel (ch : Z) : Prop := ch = 0 \/ ch = 1.

Class AtaDrive (W : Type) `{Pci.Machine W} := {
  ph : W -> Z -> phase;
  tf : W -> Z -> taskfile;
  sec : W -> Z -> Z -> Z -> list Z;
  sec_len w ch dr p : length (sec w ch dr p) = 512%nat;
  sec_bytes w ch dr p : is_bytes (sec w ch dr p);
  (** registers *)
  reg_law w ch k v : channel ch -> 2 <= k <= 6 -> ph w ch = Idle ->
    exists w', outb (base_of ch + k) v w = (tt, w') /\ sec w' = sec w /\
      ph w' ch = Idle /\ tf w' ch = tf_set (tf w ch) k v /\ (forall c, c <> ch -> ph w' c = ph w c);
  (** READ SECTORS and WRITE SECTORS of one sector *)
  command_law w ch c : channel ch -> c = 32 \/ c = 48 -> ph w ch = Idle -> tf_count (tf w ch) = 1 ->
    exists w', outb (base_of ch + 7) c w = (tt, w') /\ sec w' = sec w /\
      ph w' ch = Command (c =? 48) (tf_drive (tf w ch)) (tf_sector (tf w ch)) /\
      (forall c, c <> ch -> ph w' c = ph w c);
  (** the status register of a drive without a command: BSY is bit 7, DRQ bit 3 *)
  status_idle_law w ch : channel ch -> ph w ch = Idle ->
    exists st w', inb (base_of ch + 7) w = (st, w') /\ sec w' = sec w /\ (forall c, c <> ch -> ph w' c = ph w c) /\
      ph w' ch = Idle /\ Z.testbit st 7 = false /\ Z.testbit st 3 = false;
  (** while a command runs: busy, an error (ERR, bit 0), a fault without ERR,
      or the request for the data *)
  status_command_law w ch write dr p : channel ch -> ph w ch = Command write dr p ->
    exists st w', inb (base_of ch + 7) w = (st, w') /\ sec w' = sec w /\ (forall c, c <> ch -> ph w' c = ph w c) /\
      (Z.testbit st 7 = true /\ ph w' ch = ph w ch \/
       Z.testbit st 7 = false /\ Z.testbit st 0 = true /\ ph w' ch = Idle \/
       Z.testbit st 7 = false /\ Z.testbit st 0 = false /\ Z.testbit st 3 = false /\ ph w' ch = Idle \/
       Z.testbit st 7 = false /\ Z.testbit st 0 = false /\ Z.testbit st 3 = true /\
         ph w' ch = if write then Out dr p [] else In dr p (words (sec w ch dr p)));
  (** and while a sector is stored; a drive that reports an error or a fault
      (DF, bit 5) may have stored it *)
  status_store_law w ch dr p data : channel ch -> length data = 256%nat -> ph w ch = Store dr p data ->
    exists st w', inb (base_of ch + 7) w = (st, w') /\ (forall c, c <> ch -> ph w' c = ph w c) /\
      (forall c d q, (c, d, q) <> (ch, dr, p) -> sec w' c d q = sec w c d q) /\
      (Z.testbit st 7 = true /\ ph w' ch = ph w ch /\ sec w' ch dr p = sec w ch dr p \/
       Z.testbit st 7 = false /\ ph w' ch = Idle /\
         (sec w' ch dr p = bytes_of data \/
          Z.testbit st 0 || Z.testbit st 5 = true /\ sec w' ch dr p = sec w ch dr p));
  (** the data register *)
  data_in_law w ch dr p v vs : channel ch -> ph w ch = In dr p (v :: vs) ->
    exists w', inw (base_of ch) w = (v, w') /\ sec w' = sec w /\ (forall c, c <> ch -> ph w' c = ph w c) /\
      ph w' ch = match vs with [] => Idle | _ => In dr p vs end;
  data_out_law w ch dr p got v : channel ch -> ph w ch = Out dr p got ->
    exists w', outw (base_of ch) v w = (tt, w') /\ sec w' = sec w /\ (forall c, c <> ch -> ph w' c = ph w c) /\
      ph w' ch = if (length got =? 255)%nat then Store dr p (got ++ [v]) else Out dr p (got ++ [v])
}.

(** What the driver needs of its drives besides the standard: they answer
    within [TIMEOUT] reads of the status register, ERR reads 0 while a
    command is busy, and a fault while storing a sector is reported with ERR *)
Class PromptDrive (W : Type) `{AtaDrive W} := {
  (** the reads of the status register until the drive answers *)
  polls : W -> Z -> nat;
  polls_bound w ch : (polls w ch < TIMEOUT)%nat;
  prompt_command w ch write dr p st w' : channel ch -> ph w ch = Command write dr p ->
    inb (base_of ch + 7) w = (st, w') -> Z.testbit st 7 = true ->
    Z.testbit st 0 = false /\ (polls w' ch < polls w ch)%nat;
  prompt_store w ch dr p data st w' : channel ch -> length data = 256%nat -> ph w ch = Store dr p data ->
    inb (base_of ch + 7) w = (st, w') ->
    if Z.testbit st 7 then (polls w' ch < polls w ch)%nat else Z.testbit st 5 = true -> Z.testbit st 0 = true
}.

Section driver.

Context {W : Type} `{PromptDrive W}.

(** The other channel keeps its phase. *)
Definition others (ch : Z) (w w' : W) : Prop := forall c, c <> ch -> ph w' c = ph w c.

Lemma device_byte (drive lba : Z) :
  drive = 0 \/ drive = 1 ->
  let v := Z.lor (Z.lor 224 (Z.shiftl drive 4)) (Z.land (Z.shiftr lba 24) 15) in
  c_bool (Z.testbit v 4) = drive /\ v mod 16 = lba / 16777216 mod 16.
Proof.
  intros Hd v. assert (Hl : Z.land (Z.shiftr lba 24) 15 = lba / 16777216 mod 16).
  { change 15 with (Z.ones 4). by rewrite Z.land_ones, Z.shiftr_div_pow2 by lia. }
  subst v. rewrite Hl. set (x := lba / 16777216 mod 16).
  assert (Hx : 0 <= x < 16) by (apply Z.mod_pos_bound; lia).
  destruct Hd as [-> | ->].
  - change (Z.lor 224 (Z.shiftl 0 4)) with (Z.shiftl 14 4). rewrite lor_low by lia. change (2 ^ 4) with 16.
    split; [|div_mod_lia]. rewrite <- (Z.shiftr_spec _ 4 0) by lia. rewrite Z.shiftr_div_pow2 by lia.
    replace ((14 * 16 + x) / 2 ^ 4) with 14 by (change (2 ^ 4) with 16; div_mod_lia). reflexivity.
  - change (Z.lor 224 (Z.shiftl 1 4)) with (Z.shiftl 15 4). rewrite lor_low by lia. change (2 ^ 4) with 16.
    split; [|div_mod_lia]. rewrite <- (Z.shiftr_spec _ 4 0) by lia. rewrite Z.shiftr_div_pow2 by lia.
    replace ((15 * 16 + x) / 2 ^ 4) with 15 by (change (2 ^ 4) with 16; div_mod_lia). reflexivity.
Qed.

Lemma command_run (w : W) (ch drive lba : Z) (write : bool) :
  channel ch -> ph w ch = Idle -> drive = 0 \/ drive = 1 ->
  exists w', pio_command (base_of ch) drive lba 1 write w = (tt, w') /\ sec w' = sec w /\ others ch w w' /\
    ph w' ch = Command write drive (phys lba).
Proof.
  intros Hch Hi Hd. unfold pio_command, io_bind.
  destruct (device_byte drive lba Hd) as [Hd4 Hd16].
  set (v := Z.lor (Z.lor 224 (Z.shiftl drive 4)) (Z.land (Z.shiftr lba 24) 15)) in *.
  destruct (reg_law w ch 6 v Hch ltac:(lia) Hi) as (w1 & -> & S1 & I1 & T1 & O1).
  destruct (reg_law w1 ch 2 1 Hch ltac:(lia) I1) as (w2 & -> & S2 & I2 & T2 & O2).
  destruct (reg_law w2 ch 3 (Z.land lba 255) Hch ltac:(lia) I2) as (w3 & -> & S3 & I3 & T3 & O3).
  destruct (reg_law w3 ch 4 (Z.land (Z.shiftr lba 8) 255) Hch ltac:(lia) I3) as (w4 & -> & S4 & I4 & T4 & O4).
  destruct (reg_law w4 ch 5 (Z.land (Z.shiftr lba 16) 255) Hch ltac:(lia) I4) as (w5 & -> & S5 & I5 & T5 & O5).
  assert (Ht : tf w5 ch = mkTf 1 (Z.land lba 255) (Z.land (Z.shiftr lba 8) 255) (Z.land (Z.shiftr lba 16) 255) v)
    by (rewrite T5, T4, T3, T2, T1; reflexivity).
  destruct (command_law w5 ch (if write then 48 else 32) Hch ltac:(destruct write; auto) I5) as (w6 & -> & S6 & P6 & O6);
    [by rewrite Ht|].
  exists w6. split; [done|]. split; [congruence|].
  split; [intros c Hc; by rewrite O6, O5, O4, O3, O2, O1|]. rewrite P6, Ht.
  replace ((if write then 48 else 32) =? 48) with write by (by destruct write).
  unfold tf_drive, tf_sector. cbn [tf_dev tf_lba0 tf_lba1 tf_lba2]. rewrite Hd4, Hd16. f_equal.
  change 255 with (Z.ones 8). rewrite !Z.land_ones, !Z.shiftr_div_pow2 by lia.
  unfold phys, le32. change (2 ^ 8) with 256. change (2 ^ 16) with 65536. div_mod_lia.
Qed.

(** After a fault the driver reads the status register until its count ends. *)
Lemma drq_idle (n : nat) (w : W) (ch : Z) :
  channel ch -> ph w ch = Idle ->
  exists w', drq_wait n (base_of ch) w = (false, w') /\ sec w' = sec w /\ others ch w w' /\ ph w' ch = Idle.
Proof.
  intros Hch. revert w; induction n as [|n IH]; intros w Hi; cbn [drq_wait]; unfold io_bind;
    destruct (status_idle_law w ch Hch Hi) as (st & w1 & -> & S1 & O1 & I1 & B & D);
    (destruct (Z.testbit st 0); [by exists w1|]); [by exists w1|].
  rewrite B, D. cbn [orb negb]. destruct (IH w1 I1) as (w2 & E2 & S2 & O2 & I2).
  exists w2. split; [done|]. split; [congruence|]. split; [intros c Hc; by rewrite O2, O1|done].
Qed.

Lemma drq_run (n : nat) (w : W) (ch drive p : Z) (write : bool) :
  channel ch -> ph w ch = Command write drive p -> (polls w ch < n)%nat ->
  exists b w', drq_wait n (base_of ch) w = (b, w') /\ sec w' = sec w /\ others ch w w' /\
    ph w' ch = if b then (if write then Out drive p [] else In drive p (words (sec w ch drive p))) else Idle.
Proof.
  intros Hch. revert w; induction n as [|n IH]; intros w Hp Hn; [lia|].
  cbn [drq_wait]. unfold io_bind.
  destruct (status_command_law w ch write drive p Hch Hp) as (st & w1 & Hin & S1 & O1 & Hst). rewrite Hin.
  destruct Hst as [(B & P1)|[(B & E & P1)|[(B & E & D & P1)|(B & E & D & P1)]]].
  - destruct (prompt_command w ch write drive p st w1 Hch Hp Hin B) as [E L]. rewrite E, B. cbn [orb]. destruct (IH w1) as (b & w2 & E2 & S2 & O2 & P2); [congruence|lia|].
    exists b, w2. split; [done|]. split; [congruence|]. split; [intros c Hc; by rewrite O2, O1|].
    rewrite P2, S1. done.
  - rewrite E. exists false, w1. done.
  - rewrite E, B, D. cbn [orb negb]. destruct (drq_idle n w1 ch Hch P1) as (w2 & -> & S2 & O2 & P2).
    exists false, w2. split; [done|]. split; [congruence|]. split; [intros c Hc; by rewrite O2, O1|done].
  - rewrite E, B, D. exists true, w1. done.
Qed.

Lemma store_run (n : nat) (w : W) (ch drive p : Z) (data : list Z) :
  channel ch -> length data = 256%nat -> ph w ch = Store drive p data -> (polls w ch < n)%nat ->
  exists b w', store_wait n (base_of ch) w = (b, w') /\ others ch w w' /\ ph w' ch = Idle /\
    (forall c d q, (c, d, q) <> (ch, drive, p) -> sec w' c d q = sec w c d q) /\
    (sec w' ch drive p = bytes_of data \/ b = false /\ sec w' ch drive p = sec w ch drive p).
Proof.
  intros Hch Hd. revert w; induction n as [|n IH]; intros w Hp Hn; [lia|].
  cbn [store_wait]. unfold io_bind.
  destruct (status_store_law w ch drive p data Hch Hd Hp) as (st & w1 & Hin & O1 & F1 & Hst). rewrite Hin.
  pose proof (prompt_store w ch drive p data st w1 Hch Hd Hp Hin) as L.
  destruct Hst as [(B & P1 & S1)|(B & P1 & S1)]; rewrite B in L |- *.
  - destruct (IH w1) as (b & w2 & E2 & O2 & P2 & F2 & S2); [congruence|lia|].
    exists b, w2. split; [done|]. split; [intros c Hc; by rewrite O2, O1|]. split; [done|].
    split; [intros c d q Hq; rewrite F2, F1 by done; done|]. by rewrite <- S1.
  - exists (negb (Z.testbit st 0)), w1. split; [done|]. split; [done|]. split; [done|]. split; [done|].
    destruct S1 as [?|[Hf ?]]; [by left|right; split; [|done]].
    apply orb_true_iff in Hf as [-> | Hf]; [done|]. by rewrite (L Hf).
Qed.

Lemma put16_app (pre r : list Z) (a b v i : Z) :
  Z.of_nat (length pre) = i -> put16 (pre ++ a :: b :: r) i v = pre ++ u8 v :: u8 (v / 256) :: r.
Proof.
  intros <-. unfold put16, set_byte. rewrite Nat2Z.id.
  replace (Z.to_nat (Z.of_nat (length pre) + 1)) with (length pre + 1)%nat by lia.
  rewrite insert_app_r_alt by lia. rewrite Nat.sub_diag. cbn [insert list_insert].
  rewrite insert_app_r_alt by lia. replace (length pre + 1 - length pre)%nat with 1%nat by lia. done.
Qed.

Lemma get16_app (pre r : list Z) (a b i : Z) :
  Z.of_nat (length pre) = i -> get16 (pre ++ a :: b :: r) i = a + 256 * b.
Proof.
  intros <-. unfold get16, byte_at. rewrite Nat2Z.id.
  replace (Z.to_nat (Z.of_nat (length pre) + 1)) with (length pre + 1)%nat by lia.
  rewrite !lookup_app_r by lia. rewrite Nat.sub_diag.
  replace (length pre + 1 - length pre)%nat with 1%nat by lia. done.
Qed.

Lemma recv_run (vs pre mid : list Z) (w : W) (ch drive p i : Z) :
  channel ch -> vs <> [] -> ph w ch = In drive p vs -> Z.of_nat (length pre) = 2 * i -> length mid = (2 * length vs)%nat ->
  exists w', recv_words (length vs) (base_of ch) i (pre ++ mid) w = (pre ++ bytes_of vs, w') /\
    sec w' = sec w /\ others ch w w' /\ ph w' ch = Idle.
Proof.
  intros Hch. revert pre mid w i; induction vs as [|v vs IH]; intros pre mid w i Hne Hp Hpre Hm; [done|].
  destruct mid as [|a [|b mid]]; try (simpl in Hm; lia).
  cbn [length recv_words]. unfold io_bind. destruct (data_in_law w ch drive p v vs Hch Hp) as (w1 & -> & S1 & O1 & P1).
  rewrite put16_app by done. destruct vs as [|v' vs].
  { exists w1. destruct mid; [|simpl in Hm; lia]. done. }
  destruct (IH (pre ++ [u8 v; u8 (v / 256)]) mid w1 (i + 1)) as (w2 & E2 & S2 & O2 & P2); try done.
  - rewrite length_app. simpl. lia.
  - simpl in Hm |- *. lia.
  - exists w2. rewrite <- !app_assoc in E2. split; [exact E2|]. split; [congruence|].
    split; [intros c Hc; by rewrite O2, O1|done].
Qed.

Lemma send_words_run (n : nat) (pre l got : list Z) (w : W) (ch drive p i : Z) :
  channel ch -> ph w ch = Out drive p got -> (length got + n = 256)%nat -> (0 < n)%nat ->
  Z.of_nat (length pre) = 2 * i -> length l = (2 * n)%nat ->
  exists w', send_words n (base_of ch) i (pre ++ l) w = (tt, w') /\
    sec w' = sec w /\ others ch w w' /\ ph w' ch = Store drive p (got ++ words l).
Proof.
  intros Hch. revert pre l got w i; induction n as [|n IH]; intros pre l got w i Hp Hg Hn Hpre Hl; [lia|].
  destruct l as [|a [|b l]]; try (simpl in Hl; lia).
  cbn [send_words words]. unfold io_bind. rewrite get16_app by done.
  destruct (data_out_law w ch drive p got (a + 256 * b) Hch Hp) as (w1 & -> & S1 & O1 & P1).
  destruct (Nat.eqb_spec (length got) 255) as [He|Hne].
  - assert (n = 0%nat) as -> by lia. destruct l; [|simpl in Hl; lia]. by exists w1.
  - destruct (IH (pre ++ [a; b]) l (got ++ [a + 256 * b]) w1 (i + 1) P1) as (w2 & E2 & S2 & O2 & P2).
    + rewrite length_app. simpl. lia.
    + lia.
    + rewrite length_app. simpl. lia.
    + simpl in Hl. lia.
    + exists w2. rewrite <- !app_assoc in E2, P2. split; [exact E2|]. split; [congruence|].
      split; [intros c Hc; by rewrite O2, O1|done].
Qed.

(** One attempt *)
Lemma read_attempt (w : W) (ch drive p : Z) (buf : list Z) :
  channel ch -> ph w ch = Command false drive p -> length buf = 512%nat ->
  exists ok buf' w', pio_sectors 1 (base_of ch) 0 buf false w = ((ok, buf'), w') /\ sec w' = sec w /\
    others ch w w' /\ ph w' ch = Idle /\ length buf' = 512%nat /\ (ok = true -> buf' = sec w ch drive p).
Proof.
  intros Hch Hp Hl. cbn [pio_sectors]. unfold pio_sector, io_bind.
  destruct (drq_run TIMEOUT w ch drive p false Hch Hp (polls_bound w ch)) as (b & w1 & -> & S1 & O1 & P1).
  destruct b; cbn [negb].
  - pose proof (length_ata_words 256 _ (sec_len w ch drive p)) as Hw.
    destruct (recv_run (words (sec w ch drive p)) [] buf w1 ch drive p 0) as (w2 & E2 & S2 & O2 & P2); try done.
    + intros E. by rewrite E in Hw.
    + by rewrite Hw.
    + rewrite Hw, !app_nil_l in E2. change (0 * 256) with 0. rewrite E2.
      rewrite (words_bytes 256) by apply sec_len || apply sec_bytes.
      exists true, (sec w ch drive p), w2. split; [done|]. split; [congruence|].
      split; [intros c Hc; by rewrite O2, O1|]. split; [done|]. split; [apply sec_len|done].
  - exists false, buf, w1. done.
Qed.

Lemma write_attempt (w : W) (ch drive p : Z) (buf : list Z) :
  channel ch -> ph w ch = Command true drive p -> length buf = 512%nat -> is_bytes buf ->
  exists ok w', pio_sectors 1 (base_of ch) 0 buf true w = ((ok, buf), w') /\
    others ch w w' /\ ph w' ch = Idle /\
    (forall c d q, (c, d, q) <> (ch, drive, p) -> sec w' c d q = sec w c d q) /\
    (sec w' ch drive p = buf \/ ok = false /\ sec w' ch drive p = sec w ch drive p).
Proof.
  intros Hch Hp Hl Hb. cbn [pio_sectors]. unfold pio_sector, io_bind.
  destruct (drq_run TIMEOUT w ch drive p true Hch Hp (polls_bound w ch)) as (b & w1 & -> & S1 & O1 & P1).
  destruct b; cbn [negb].
  - destruct (send_words_run 256 [] buf [] w1 ch drive p 0 Hch P1) as (w2 & E2 & S2 & O2 & P2); try done || lia.
    change (0 * 256) with 0. rewrite app_nil_l in E2, P2. rewrite E2.
    destruct (store_run TIMEOUT w2 ch drive p (words buf) Hch (length_ata_words 256 buf Hl) P2 (polls_bound w2 ch)) as (ok & w3 & -> & O3 & P3 & F3 & S3).
    rewrite (words_bytes 256 buf Hl Hb) in S3.
    exists ok, w3. split; [by destruct ok|]. split; [intros c Hc; by rewrite O3, O2, O1|]. split; [done|].
    rewrite S2, S1 in F3, S3. done.
  - exists false, w1. split; [done|]. split; [done|]. split; [done|]. rewrite S1. auto.
Qed.

(** The retries *)
Lemma read_tries (n : nat) (w : W) (ch drive lba : Z) (buf : list Z) :
  channel ch -> ph w ch = Idle -> drive = 0 \/ drive = 1 -> length buf = 512%nat ->
  exists r buf' w', pio_tries n (base_of ch) drive lba 1 buf false w = ((r, buf'), w') /\ sec w' = sec w /\
    others ch w w' /\ ph w' ch = Idle /\ (r = 0 /\ buf' = sec w ch drive (phys lba) \/ r = -1).
Proof.
  intros Hch Hi Hd. revert w Hi buf; induction n as [|n IH]; intros w Hi buf Hl.
  { exists (-1), buf, w. split; [done|]. split; [done|]. split; [done|]. split; [done|]. by right. }
  cbn [pio_tries]. unfold io_bind at 1. destruct (command_run w ch drive lba false Hch Hi Hd) as (w1 & -> & S1 & O1 & P1).
  unfold io_bind at 1. change (Z.to_nat 1) with 1%nat.
  destruct (read_attempt w1 ch drive (phys lba) buf Hch P1 Hl) as (ok & buf1 & w2 & -> & S2 & O2 & P2 & L2 & Hok).
  destruct ok.
  - exists 0, buf1, w2. split; [done|]. split; [congruence|]. split; [intros c Hc; by rewrite O2, O1|].
    split; [done|]. left. split; [done|]. rewrite (Hok eq_refl). by rewrite S1.
  - destruct (IH w2 P2 buf1 L2) as (r & buf2 & w3 & E3 & S3 & O3 & P3 & Hr).
    exists r, buf2, w3. split; [exact E3|]. split; [congruence|]. split; [intros c Hc; by rewrite O3, O2, O1|].
    split; [done|]. by rewrite S2, S1 in Hr.
Qed.

Lemma write_tries (n : nat) (w : W) (ch drive lba : Z) (buf : list Z) :
  channel ch -> ph w ch = Idle -> drive = 0 \/ drive = 1 -> length buf = 512%nat -> is_bytes buf ->
  exists r w', pio_tries n (base_of ch) drive lba 1 buf true w = ((r, buf), w') /\
    others ch w w' /\ ph w' ch = Idle /\ (r = 0 \/ r = -1) /\
    (forall c d q, (c, d, q) <> (ch, drive, phys lba) -> sec w' c d q = sec w c d q) /\
    (sec w' ch drive (phys lba) = buf \/ r = -1 /\ sec w' ch drive (phys lba) = sec w ch drive (phys lba)).
Proof.
  intros Hch Hi Hd Hl Hb. revert w Hi; induction n as [|n IH]; intros w Hi.
  { exists (-1), w. repeat (split; [solve [done|by right]|]). by right. }
  cbn [pio_tries]. unfold io_bind at 1. destruct (command_run w ch drive lba true Hch Hi Hd) as (w1 & -> & S1 & O1 & P1).
  unfold io_bind at 1. change (Z.to_nat 1) with 1%nat.
  destruct (write_attempt w1 ch drive (phys lba) buf Hch P1 Hl Hb) as (ok & w2 & -> & O2 & P2 & F2 & S2).
  rewrite S1 in F2, S2. destruct ok.
  - exists 0, w2. split; [done|]. split; [intros c Hc; by rewrite O2, O1|]. split; [done|]. split; [by left|].
    split; [done|]. destruct S2 as [?|[? _]]; [by left|done].
  - destruct (IH w2 P2) as (r & w3 & E3 & O3 & P3 & Hr & F3 & S3).
    exists r, w3. split; [exact E3|]. split; [intros c Hc; by rewrite O3, O2, O1|]. split; [done|]. split; [done|].
    split; [intros c d q Hq; by rewrite F3, F2|].
    destruct S3 as [?|[? E]]; [by left|]. rewrite E. destruct S2 as [?|[_ ?]]; [by left|by right].
Qed.

(** ** The block device *)

(** Between two calls no drive is busy. *)
Definition ready (w : W) : Prop := forall ch, channel ch -> ph w ch = Idle.

Lemma ready_others (w w' : W) (ch : Z) : ready w -> others ch w w' -> ph w' ch = Idle -> ready w'.
Proof. intros Hr Ho Hi c Hc. destruct (decide (c = ch)) as [->|Hn]; [done|]. rewrite Ho by done. by apply Hr. Qed.

Lemma exists_channel (a : ata) (ch dr : Z) :
  Ata.ata_drive_exists a ch dr = true -> channel ch /\ (dr = 0 \/ dr = 1).
Proof.
  unfold Ata.ata_drive_exists, channel. intros Hx.
  destruct ((ch <? 0) || (1 <? ch)) eqn:E1; [done|]. destruct ((dr <? 0) || (1 <? dr)) eqn:E2; [done|]. lia.
Qed.

Lemma read_sectors_run (a : ata) (w : W) (ch dr lba : Z) (buf : list Z) :
  ready w -> length buf = 512%nat ->
  exists r buf' w', ata_read_sectors a ch dr lba 1 buf w = ((r, buf'), w') /\ ready w' /\ sec w' = sec w /\
    (r = 0 /\ buf' = sec w ch dr (phys lba) \/ r = -1).
Proof.
  intros Hr Hl. unfold ata_read_sectors, ata_pio. destruct (Ata.ata_drive_exists a ch dr) eqn:Ex; cbn [negb].
  - destruct (exists_channel a ch dr Ex) as [Hc Hd].
    destruct (read_tries ATA_RETRIES w ch dr lba buf Hc (Hr ch Hc) Hd Hl) as (r & buf' & w' & E & S & O & P & R).
    exists r, buf', w'. split; [done|]. split; [by eapply ready_others|done].
  - exists (-1), buf, w. split; [done|]. split; [done|]. split; [done|]. by right.
Qed.

Lemma write_sectors_run (a : ata) (w : W) (ch dr lba : Z) (buf : list Z) :
  ready w -> length buf = 512%nat -> is_bytes buf ->
  exists r w', ata_write_sectors a ch dr lba 1 buf w = ((r, buf), w') /\ ready w' /\ (r = 0 \/ r = -1) /\
    (forall c d q, (c, d, q) <> (ch, dr, phys lba) -> sec w' c d q = sec w c d q) /\
    (sec w' ch dr (phys lba) = buf \/ r = -1 /\ sec w' ch dr (phys lba) = sec w ch dr (phys lba)).
Proof.
  intros Hr Hl Hb. unfold ata_write_sectors, ata_pio. destruct (Ata.ata_drive_exists a ch dr) eqn:Ex; cbn [negb].
  - destruct (exists_channel a ch dr Ex) as [Hc Hd].
    destruct (write_tries ATA_RETRIES w ch dr lba buf Hc (Hr ch Hc) Hd Hl Hb) as (r & w' & E & O & P & R & F & S).
    exists r, w'. split; [done|]. split; [by eapply ready_others|done].
  - exists (-1), w. repeat (split; [solve [done|by right]|]). by right.
Qed.

(** The driver's table, and what the file system uses besides the disk *)
Variable table : ata.
Variable ticks : W -> Z * W.
Variable buffer : W -> Z -> option (list Z) * W.
Hypothesis ticks_ok : forall w, ready w ->
  ready (snd (ticks w)) /\ sec (snd (ticks w)) = sec w /\ 0 <= fst (ticks w) < 4294967296.
Hypothesis buffer_ok : forall w n, ready w ->
  ready (snd (buffer w n)) /\ sec (snd (buffer w n)) = sec w /\
  (0 <= n -> forall b, fst (buffer w n) = Some b -> Z.of_nat (length b) = n /\ is_bytes b).

(** A sector buffer: the first 512 bytes the caller has there *)
Definition sector_buf (l : list Z) : list Z := take 512 (map u8 l ++ replicate 512 0).

Lemma sector_buf_wf (l : list Z) : length (sector_buf l) = 512%nat /\ is_bytes (sector_buf l).
Proof.
  unfold sector_buf. split.
  - rewrite length_take, length_app, length_replicate. lia.
  - apply Forall_take, Forall_app; split; [|apply is_bytes_replicate; lia].
    apply Forall_forall. intros x Hx. apply list_elem_of_fmap in Hx as (y & -> & _). apply u8_range.
Qed.

Lemma sector_buf_id (l : list Z) : length l = 512%nat -> is_bytes l -> sector_buf l = l.
Proof.
  intros Hl Hb. unfold sector_buf. rewrite take_app_le by (rewrite length_map; lia).
  rewrite take_ge by (rewrite length_map; lia). rewrite <- (map_id l) at 2. apply map_ext_in.
  intros x Hx. apply u8_small. eapply Forall_forall in Hb; [exact Hb|]. by apply list_elem_of_In.
Qed.

Definition disk_read (w : W) (ch dr lba : Z) : option (list Z) * W :=
  let '((r, buf), w) := ata_read_sectors table ch dr lba 1 (sector_buf []) w in
  ((if r =? 0 then Some buf else None), w).

Definition disk_write (w : W) (ch dr lba : Z) (buf : list Z) : bool * W :=
  let '((r, _), w) := ata_write_sectors table ch dr lba 1 (sector_buf buf) w in (r =? 0, w).

Lemma disk_read_ready (w : W) (ch dr lba : Z) : ready w -> ready (snd (disk_read w ch dr lba)).
Proof.
  intros Hr. unfold disk_read.
  by destruct (read_sectors_run table w ch dr lba (sector_buf []) Hr) as (r & b & w' & -> & Hr' & _); [apply sector_buf_wf|].
Qed.

Lemma disk_write_ready (w : W) (ch dr lba : Z) (buf : list Z) : ready w -> ready (snd (disk_write w ch dr lba buf)).
Proof.
  intros Hr. unfold disk_write. destruct (sector_buf_wf buf).
  by destruct (write_sectors_run table w ch dr lba (sector_buf buf) Hr) as (r & w' & -> & Hr' & _).
Qed.

Definition disk : Type := { w : W | ready w }.

Definition on_disk {A : Type} (f : W -> A * W) (keep : forall w, ready w -> ready (snd (f w))) (d : disk) : A * disk :=
  (fst (f (`d)), exist _ (snd (f (`d))) (keep (`d) (proj2_sig d))).

#[local] Instance disk_machine : BlockDev.Machine disk := {
  BlockDev.ata_drive_exists _ := Ata.ata_drive_exists table;
  ata_read d ch dr lba := on_disk (fun w => disk_read w ch dr lba) (fun w => disk_read_ready w ch dr lba) d;
  ata_write d ch dr lba buf := on_disk (fun w => disk_write w ch dr lba buf) (fun w => disk_write_ready w ch dr lba buf) d;
  get_ticks := on_disk ticks (fun w Hw => proj1 (ticks_ok w Hw));
  get_buffer d n := on_disk (fun w => buffer w n) (fun w Hw => proj1 (buffer_ok w n Hw)) d;
  sector d := sec (`d) }.

(** C2: The disk driver keeps the promises the file system is proved against:
    on drives that follow the ATA protocol for programmed I/O and are prompt
    (they answer within TIMEOUT = 100000 reads of the status register, ERR
    reads 0 while BSY is set, and a fault while a sector is stored is
    reported with ERR), a call of ata_read_sectors for one sector returns
    that sector or an error and changes no sector; a call of
    ata_write_sectors stores the given bytes or returns an error with the
    sector old or new, and changes no other sector, of either drive of
    either channel; the drives are idle again after each call, so calls
    compose.  Commands may fail, with an error or a fault; each of the three
    conditions is needed.  On such drives the file system's theorems hold on
    this driver. *)
Theorem ata_implements_block_device : MachineLaws disk.
Proof.
  split.
  - intros d ch dr p. apply sec_len.
  - intros d ch dr p. apply sec_bytes.
  - intros [w Hw] ch dr lba r d' [= <- <-]. unfold same_disk. cbn. unfold disk_read.
    destruct (read_sectors_run table w ch dr lba (sector_buf []) Hw) as (r & b & w' & -> & Hr & S & R);
      [apply sector_buf_wf|]. cbn. rewrite S. split; [done|]. destruct R as [[-> ->]| ->]; auto.
  - intros [w Hw] ch dr lba buf ok d' [= <- <-]. cbn. unfold disk_write. destruct (sector_buf_wf buf) as [Hl Hb].
    destruct (write_sectors_run table w ch dr lba (sector_buf buf) Hw Hl Hb) as (r & w' & -> & Hr & R & F & S).
    cbn. split; [|done]. intros Hl' Hb'. rewrite sector_buf_id in S by done.
    destruct S as [S|[-> S]]; [by left|by right].
  - intros [w Hw] t d' [= <- <-]. unfold same_disk. cbn. destruct (ticks_ok w Hw) as (_ & S & T). by rewrite S.
  - intros [w Hw] n r d' Hn [= <- <-]. unfold same_disk. cbn. destruct (buffer_ok w n Hw) as (_ & S & T).
    rewrite S. auto.
Qed.

End driver.

(** ** A simulated pair of channels *)

(** Commands for the sectors in [m_bad] fail; writes to the sectors in
    [m_faulty] end with a device fault and without ERR; a command, or the
    store of a sector, reports BSY for [m_delay] reads of the status
    register.  Register writes to a busy drive are ignored. *)
Record sim := mkSim {
  m_ph : Z -> phase; m_tf : Z -> taskfile; m_sec : Z -> Z -> Z -> list Z; m_busy : Z -> Z; m_bad : Z -> bool }.

Definition upd {A : Type} (f : Z -> A) (k : Z) (v : A) : Z -> A := fun x => if x =? k then v else f x.

Definition set_ph (w : sim) (ch : Z) (p : phase) (busy : Z) : sim :=
  mkSim (upd (m_ph w) ch p) (m_tf w) (m_sec w) (upd (m_busy w) ch busy) (m_bad w).

Definition port_channel (port : Z) : Z := if port <? 496 then 1 else 0.

Section sim.

Variable m_delay : Z.
Variable m_faulty : Z -> bool.

(** The reads that still report BSY *)
Definition pending (w : sim) (ch : Z) : Z := Z.min m_delay (m_busy w ch).

Definition sim_status (w : sim) (ch : Z) : Z * sim :=
  match m_ph w ch with
  | Command write dr p =>
      if 0 <? pending w ch then (128, set_ph w ch (Command write dr p) (pending w ch - 1))
      else if m_bad w p then (1, set_ph w ch Idle 0)
      else (8, set_ph w ch (if write then Out dr p [] else In dr p (words (sector_buf (m_sec w ch dr p)))) 0)
  | Store dr p data =>
      if 0 <? pending w ch then (128, set_ph w ch (Store dr p data) (pending w ch - 1))
      else if m_faulty p then (96, set_ph w ch Idle 0)
      else (64, mkSim (upd (m_ph w) ch Idle) (m_tf w)
                  (upd (m_sec w) ch (upd (m_sec w ch) dr (upd (m_sec w ch dr) p (bytes_of data))))
                  (m_busy w) (m_bad w))
  | Idle => (64, w)
  | _ => (8, w)
  end.

Definition sim_outb (port v : Z) (w : sim) : unit * sim :=
  let ch := port_channel port in
  let k := port - base_of ch in
  let t := m_tf w ch in
  (tt, match m_ph w ch with
       | Idle =>
           if k =? 7 then set_ph w ch (Command (v =? 48) (tf_drive t) (tf_sector t)) m_delay
           else mkSim (m_ph w) (upd (m_tf w) ch (tf_set t k v)) (m_sec w) (m_busy w) (m_bad w)
       | _ => w
       end).

Definition sim_inw (port : Z) (w : sim) : Z * sim :=
  let ch := port_channel port in
  match m_ph w ch with
  | In dr p (v :: vs) => (v, set_ph w ch (match vs with [] => Idle | _ => In dr p vs end) 0)
  | _ => (0, w)
  end.

Definition sim_outw (port v : Z) (w : sim) : unit * sim :=
  let ch := port_channel port in
  match m_ph w ch with
  | Out dr p got =>
      (tt, if (length got =? 255)%nat then set_ph w ch (Store dr p (got ++ [v])) m_delay
           else set_ph w ch (Out dr p (got ++ [v])) 0)
  | _ => (tt, w)
  end.

#[local] Instance sim_machine : Pci.Machine sim := {
  inb port := fun w => sim_status w (port_channel port);
  inw := sim_inw;
  inl _ := io_ret 0;
  outb := sim_outb;
  outw := sim_outw;
  outl _ _ := io_ret tt;
  Pci.ram _ := ∅;
  set_ram _ := io_ret tt }.

Lemma upd_eq {A : Type} (f : Z -> A) (k : Z) (v : A) : upd f k v k = v.
Proof. unfold upd. by rewrite Z.eqb_refl. Qed.

Lemma upd_ne {A : Type} (f : Z -> A) (k x : Z) (v : A) : x <> k -> upd f k v x = f x.
Proof. intros Hx. unfold upd. by rewrite (proj2 (Z.eqb_neq x k) Hx). Qed.

Ltac upd_solve := intros; repeat first [rewrite upd_eq | rewrite upd_ne by congruence]; try done.

Lemma port_channel_base (ch k : Z) : channel ch -> 0 <= k <= 7 -> port_channel (base_of ch + k) = ch.
Proof. intros [-> | ->] Hk; unfold port_channel, base_of; cbn [Z.eqb]; [change (0 =? 0) with true|change (1 =? 0) with false]; case_match; lia. Qed.

Lemma port_channel_data (ch : Z) : channel ch -> port_channel (base_of ch) = ch.
Proof. by intros [-> | ->]. Qed.

#[local] Instance sim_drive : AtaDrive sim.
Proof.
  refine {| ph := m_ph; tf := m_tf; sec w ch dr p := sector_buf (m_sec w ch dr p) |}.
  - intros. apply sector_buf_wf.
  - intros. apply sector_buf_wf.
  - intros w ch k v Hc Hk Hi. cbn [outb sim_machine]. unfold sim_outb. rewrite port_channel_base by (done || lia).
    replace (base_of ch + k - base_of ch) with k by lia. rewrite (proj2 (Z.eqb_neq k 7)) by lia. rewrite Hi.
    eexists. split; [reflexivity|]. cbn [m_ph m_tf m_sec]. by rewrite upd_eq.
  - intros w ch c Hc Hcc Hi Ht. cbn [outb sim_machine]. unfold sim_outb. rewrite port_channel_base by (done || lia).
    replace (base_of ch + 7 - base_of ch) with 7 by lia. rewrite Hi. cbn [Z.eqb Pos.eqb].
    eexists. split; [reflexivity|]. cbn [set_ph m_ph m_tf m_sec]. split; [done|]. split; upd_solve.
  - intros w ch Hc Hi. cbn [inb sim_machine]. rewrite port_channel_base by (done || lia).
    unfold sim_status. rewrite Hi. do 2 eexists. split; [reflexivity|]. done.
  - intros w ch write dr p Hc Hp. cbn [inb sim_machine]. rewrite port_channel_base by (done || lia).
    unfold sim_status. rewrite Hp. destruct (0 <? pending w ch) eqn:Eb; [|destruct (m_bad w p)];
      do 2 eexists; (split; [reflexivity|]); cbn [set_ph m_ph m_tf m_sec m_busy]; (split; [done|]);
      (split; [upd_solve|]); rewrite !upd_eq.
    + by left.
    + right; left. done.
    + do 3 right. done.
  - intros w ch dr p data Hc Hd Hp. cbn [inb sim_machine]. rewrite port_channel_base by (done || lia).
    unfold sim_status. rewrite Hp. destruct (0 <? pending w ch) eqn:Eb; [|destruct (m_faulty p)];
      do 2 eexists; (split; [reflexivity|]); cbn [set_ph m_ph m_tf m_sec m_busy];
      (split; [upd_solve|]); rewrite !upd_eq.
    + split; [done|]. by left.
    + split; [done|]. right. split; [done|]. split; [done|]. by right.
    + split; [|right; split; [done|]; split; [done|]; left].
      * intros c d q Hq. unfold upd. repeat case_match; zbool; congruence.
      * apply sector_buf_id; [rewrite length_bytes_of; lia|apply bytes_of_is_bytes].
  - intros w ch dr p v vs Hc Hp. cbn [inw sim_machine]. unfold sim_inw. rewrite port_channel_data, Hp by done.
    eexists. split; [reflexivity|]. cbn [set_ph m_ph m_tf m_sec]. split; [done|]. split; upd_solve.
  - intros w ch dr p got v Hc Hp. cbn [outw sim_machine]. unfold sim_outw. rewrite port_channel_data, Hp by done.
    destruct (length got =? 255)%nat; (eexists; split; [reflexivity|]);
      cbn [set_ph m_ph m_tf m_sec]; (split; [done|]); split; upd_solve.
Defined.

(** A drive of this kind is prompt when its delay is short and no sector is faulty. *)
Lemma sim_prompt : m_delay < 100000 -> (forall p, m_faulty p = false) -> PromptDrive sim.
Proof.
  intros Hd Hf. refine {| polls w ch := Z.to_nat (pending w ch) |}.
  - intros w ch. unfold pending, TIMEOUT. lia.
  - intros w ch write dr p st w' Hc Hp. cbn [inb sim_machine]. rewrite port_channel_base by (done || lia).
    cbn [ph sim_drive] in Hp. unfold sim_status. rewrite Hp. destruct (0 <? pending w ch) eqn:Eb; zbool.
    + intros [= <- <-] _. split; [done|]. unfold pending in *. cbn [set_ph m_busy]. rewrite upd_eq. lia.
    + by destruct (m_bad w p); intros [= <- <-].
  - intros w ch dr p data st w' Hc _ Hp. cbn [inb sim_machine]. rewrite port_channel_base by (done || lia).
    cbn [ph sim_drive] in Hp. unfold sim_status. rewrite Hp, Hf. destruct (0 <? pending w ch) eqn:Eb; zbool; intros [= <- <-].
    + change (Z.testbit 128 7) with true. cbv iota. unfold pending in *. cbn [set_ph m_busy]. rewrite upd_eq. lia.
    + change (Z.testbit 64 7) with false. cbv iota. done.
Defined.

End sim.

(** The primary master with bad sectors from 1000 on *)
Definition sim_start : sim :=
  mkSim (fun _ => Idle) (fun _ => mkTf 0 0 0 0 0) (fun ch dr p => replicate 512 (u8 p)) (fun _ => 0)
    (fun p => 1000 <=? p).

Definition sim_table : ata := mkAta [true; false; false; false] [[]; []; []; []].

(** A drive that answers after three reads and has no faulty sector *)
#[local] Instance quick_machine : Pci.Machine sim := sim_machine 3 (fun _ => false).
#[local] Instance quick_drive : AtaDrive sim := sim_drive 3 (fun _ => false).
#[local] Instance quick_prompt : PromptDrive sim := sim_prompt 3 (fun _ => false) ltac:(lia) (fun _ => eq_refl).

Lemma ata_implements_block_device_witness :
  let M := disk_machine sim_table (fun w : sim => (0, w)) (fun w n => (Some (replicate (Z.to_nat n) 0), w)) in
  exists T B, @MachineLaws disk (M T B) /\
    fst (disk_read sim_table sim_start 0 0 5) = Some (replicate 512 5) /\
    fst (disk_read sim_table sim_start 0 0 1005) = None /\
    fst (disk_read sim_table sim_start 0 1 5) = None /\
    (let w := snd (disk_write sim_table sim_start 0 0 5 (replicate 512 9)) in
     fst (disk_read sim_table w 0 0 5) = Some (replicate 512 9) /\
     fst (disk_read sim_table w 0 0 6) = Some (replicate 512 6)).
Proof.
  intros M.
  assert (T : forall w : sim, ready w ->
    ready w /\ sec w = sec w /\ 0 <= fst (0, w) < 4294967296) by (cbn; intros; repeat split; done || lia).
  assert (B : forall (w : sim) (n : Z), ready w -> ready w /\ sec w = sec w /\
    (0 <= n -> forall b, Some (replicate (Z.to_nat n) 0) = Some b -> Z.of_nat (length b) = n /\ is_bytes b)).
  { intros w n Hw. split; [done|]. split; [done|]. intros Hn b [= <-]. rewrite length_replicate.
    split; [lia|]. apply is_bytes_replicate. lia. }
  exists T, B. split; [exact (ata_implements_block_device sim_table (fun w : sim => (0, w)) (fun w n => (Some (replicate (Z.to_nat n) 0), w)) T B)|].
  repeat split; vm_compute; reflexivity.
Defined.

(** A drive that reports a fault of sector 5 without ERR: the write returns
    success and the sector has its old contents. *)
Theorem fault_taken_as_success :
  let M := sim_machine 3 (fun p => p =? 5) in
  let '((r, _), w) := @ata_write_sectors sim M sim_table 0 0 5 1 (replicate 512 9) sim_start in
  r = 0 /\ @sec sim M (sim_drive 3 (fun p => p =? 5)) w 0 0 5 = replicate 512 5.
Proof. vm_compute. split; reflexivity. Qed.

(** A drive that needs 300010 reads: the read of sector 5 times out; the next
    call, for sector 6, succeeds with the contents of sector 5. *)
Theorem late_drive_answers_wrong_read :
  let M := sim_machine 300010 (fun _ => false) in
  let '((r1, _), w1) := @ata_read_sectors sim M sim_table 0 0 5 1 (replicate 512 0) sim_start in
  let '((r2, buf), _) := @ata_read_sectors sim M sim_table 0 0 6 1 (replicate 512 0) w1 in
  r1 = -1 /\ r2 = 0 /\ buf = replicate 512 5 /\
  @sec sim M (sim_drive 300010 (fun _ => false)) w1 0 0 6 = replicate 512 6.
Proof. vm_compute. repeat split; reflexivity. Qed.
