(* ===== verification/Gdt.v ===== *)
(** * kernel/cpu/gdt.c: segment descriptors and task state segments

    The tables are the kernel's static arrays; the segment registers, the
    task register and GDTR are the record [segs].  What the processor makes
    of eight bytes of a descriptor table is [seg_of_bytes], after the
    processor manual.  The addresses the linker gives to the arrays are
    parameters. *)
From S2P Require Import Prelude Bytes.

Module Gdt.

Definition GDT_NULL : Z := 0.

Definition GDT_CODE : Z := 8.

Definition GDT_DATA : Z := 16.

Definition GDT_UCODE : Z := 24.

Definition GDT_UDATA : Z := 32.

Definition GDT_TSS : Z := 40.

Definition GDT_PERCPU : Z := 48.

Definition GDT_ENTRIES : Z := 7.

Record gdt_entry := mkGdt {
  limit_low : Z; base_low : Z; base_middle : Z; access : Z; granularity : Z; base_high : Z }.

Record tss := mkTss {
  link : Z; esp0 : Z; ss0 : Z; esp1 : Z; ss1 : Z; esp2 : Z; ss2 : Z; t_cr3 : Z; eip : Z; eflags : Z;
  eax : Z; ecx : Z; edx : Z; ebx : Z; esp : Z; ebp : Z; esi : Z; edi : Z;
  t_es : Z; t_cs : Z; t_ss : Z; t_ds : Z; t_fs : Z; t_gs : Z; ldtr : Z; reserved : Z; iopb : Z }.

(** [sizeof] of the packed structures *)
Definition sizeof_gdt_entry : Z := 8.

Definition sizeof_tss : Z := 104.

Definition sizeof_cpu_info : Z := 24.

Record gdts := mkGdts {
  boot_gdt : list gdt_entry; per_cpu_gdt : list (list gdt_entry); per_cpu_tss : list tss }.

(** A processor's GDTR and selectors *)
Record segs := mkSegs {
  gdtr_limit : Z; gdtr_base : Z; cs : Z; ds : Z; es : Z; ss : Z; fs : Z; gs : Z; tr : Z }.

Definition gdt_set_entry_at (gdt : list gdt_entry) (num base limit access gran : Z) : list gdt_entry :=
  <[Z.to_nat num :=
      mkGdt (Z.land limit 65535) (Z.land base 65535) (Z.land (Z.shiftr base 16) 255) access
        (Z.lor (Z.land (Z.shiftr limit 16) 15) (Z.land gran 240)) (Z.land (Z.shiftr base 24) 255)]> gdt.

Definition lgdt (s : segs) (limit base : Z) : segs :=
  mkSegs limit base (cs s) (ds s) (es s) (ss s) (fs s) (gs s) (tr s).

(** [%gs] is left alone. *)
Definition reload_segments (s : segs) : segs :=
  mkSegs (gdtr_limit s) (gdtr_base s) GDT_CODE GDT_DATA GDT_DATA GDT_DATA GDT_DATA (gs s) (tr s).

Section gdt.

(** Link addresses *)
Variables boot_gdt_addr per_cpu_gdt_addr per_cpu_tss_addr cpu_info_addr : Z.

Definition gdt_addr (cpu_id : Z) : Z := per_cpu_gdt_addr + cpu_id * (sizeof_gdt_entry * GDT_ENTRIES).

Definition tss_addr (cpu_id : Z) : Z := per_cpu_tss_addr + cpu_id * sizeof_tss.

Definition info_addr (cpu_id : Z) : Z := cpu_info_addr + cpu_id * sizeof_cpu_info.

Definition init_gdt (g : gdts) (s : segs) : gdts * segs :=
  let b := boot_gdt g in
  let b := gdt_set_entry_at b 0 0 0 0 0 in
  let b := gdt_set_entry_at b 1 0 4294967295 154 207 in
  let b := gdt_set_entry_at b 2 0 4294967295 146 207 in
  let b := gdt_set_entry_at b 3 0 4294967295 250 207 in
  let b := gdt_set_entry_at b 4 0 4294967295 242 207 in
  (mkGdts b (per_cpu_gdt g) (per_cpu_tss g),
   reload_segments (lgdt s (sizeof_gdt_entry * 5 - 1) boot_gdt_addr)).

(** [for (i = 0; i < 5; i++) gdt[i] = boot_gdt[i]] *)
Definition copy_shared (boot gdt : list gdt_entry) : list gdt_entry :=
  for_up 5 0 1 (fun i gdt => match boot !! Z.to_nat i with Some e => <[Z.to_nat i := e]> gdt | None => gdt end) gdt.

Definition init_tss (t : tss) : tss :=
  mkTss (link t) 0 GDT_DATA (esp1 t) (ss1 t) (esp2 t) (ss2 t) (t_cr3 t) (eip t) (eflags t)
    (eax t) (ecx t) (edx t) (ebx t) (esp t) (ebp t) (esi t) (edi t)
    GDT_DATA GDT_CODE GDT_DATA GDT_DATA GDT_DATA GDT_PERCPU (ldtr t) (reserved t) sizeof_tss.

Definition gdt_init_percpu (g : gdts) (s : segs) (cpu_id : Z) : gdts * segs :=
  let c := Z.to_nat cpu_id in
  let fill gdt :=
    let gdt := copy_shared (boot_gdt g) gdt in
    let gdt := gdt_set_entry_at gdt 5 (tss_addr cpu_id) (sizeof_tss - 1) 137 0 in
    gdt_set_entry_at gdt 6 (info_addr cpu_id) (sizeof_cpu_info - 1) 146 0 in
  let g := mkGdts (boot_gdt g) (alter fill c (per_cpu_gdt g)) (alter init_tss c (per_cpu_tss g)) in
  let s := reload_segments (lgdt s (sizeof_gdt_entry * GDT_ENTRIES - 1) (gdt_addr cpu_id)) in
  (g, mkSegs (gdtr_limit s) (gdtr_base s) (cs s) (ds s) (es s) (ss s) (fs s) GDT_PERCPU GDT_TSS).

Definition set_esp0 (t : tss) (e : Z) : tss :=
  mkTss (link t) e (ss0 t) (esp1 t) (ss1 t) (esp2 t) (ss2 t) (t_cr3 t) (eip t) (eflags t)
    (eax t) (ecx t) (edx t) (ebx t) (esp t) (ebp t) (esi t) (edi t)
    (t_es t) (t_cs t) (t_ss t) (t_ds t) (t_fs t) (t_gs t) (ldtr t) (reserved t) (iopb t).

Definition gdt_set_kernel_stack (g : gdts) (cpu_id esp0 : Z) : gdts :=
  if (0 <=? cpu_id) && (cpu_id <? 8)
  then mkGdts (boot_gdt g) (per_cpu_gdt g) (alter (fun t => set_esp0 t esp0) (Z.to_nat cpu_id) (per_cpu_tss g))
  else g.

(** ** What the processor reads *)

(** The bytes of the packed structure *)
Definition entry_bytes (e : gdt_entry) : list Z :=
  [u8 (limit_low e); u8 (limit_low e / 256); u8 (base_low e); u8 (base_low e / 256);
   u8 (base_middle e); u8 (access e); u8 (granularity e); u8 (base_high e)].

(** A segment: first and last byte, present, privilege level and type (with
    the bit that tells code and data from system segments) *)
Record segment := mkSegment { first : Z; last : Z; present : bool; dpl : Z; kind : Z }.

Definition seg_of_bytes (b : list Z) : option segment :=
  match b with
  | [l0; l1; b0; b1; b2; acc; gran; b3] =>
      let base := b0 + 256 * b1 + 65536 * b2 + 16777216 * b3 in
      let limit := l0 + 256 * l1 + 65536 * (gran mod 16) in
      let size := if Z.testbit gran 7 then limit * 4096 + 4095 else limit in
      Some (mkSegment base (base + size) (Z.testbit acc 7) (acc / 32 mod 4) (acc mod 32))
  | _ => None
  end.

(** What selector [sel] names in the table *)
Definition seg_at (gdt : list gdt_entry) (sel : Z) : option segment :=
  match gdt !! Z.to_nat (sel / 8) with Some e => seg_of_bytes (entry_bytes e) | None => None end.

Definition CODE : Z := 26.

Definition DATA : Z := 18.

Definition TSS_AVAILABLE : Z := 9.

(** A byte-granular descriptor describes the bytes it was made for. *)
Lemma small_descriptor (base size acc : Z) :
  0 <= base < 4294967296 -> 0 < size <= 1048576 -> 0 <= acc < 256 ->
  seg_of_bytes (entry_bytes
    (mkGdt (Z.land (size - 1) 65535) (Z.land base 65535) (Z.land (Z.shiftr base 16) 255) acc
       (Z.lor (Z.land (Z.shiftr (size - 1) 16) 15) (Z.land 0 240)) (Z.land (Z.shiftr base 24) 255))) =
  Some (mkSegment base (base + size - 1) (Z.testbit acc 7) (acc / 32 mod 4) (acc mod 32)).
Proof.
  intros Hb Hs Ha. set (l := size - 1). assert (Hl : 0 <= l < 1048576) by lia.
  cbn [entry_bytes seg_of_bytes limit_low base_low base_middle access granularity base_high].
  rewrite Z.land_0_l, Z.lor_0_r.
  change 65535 with (Z.ones 16). change 255 with (Z.ones 8). change 15 with (Z.ones 4).
  rewrite !Z.land_ones, !Z.shiftr_div_pow2 by lia.
  change (2 ^ 16) with 65536. change (2 ^ 8) with 256. change (2 ^ 4) with 16. change (2 ^ 24) with 16777216.
  assert (Hg : u8 (l / 65536 mod 16) = l / 65536) by cint.
  assert (Ht : Z.testbit (u8 (l / 65536 mod 16)) 7 = false).
  { rewrite Hg. rewrite Z.testbit_false by lia. change (2 ^ 7) with 128. div_mod_lia. }
  rewrite Ht, Hg, (u8_small acc) by lia. f_equal. f_equal; cint.
Qed.

(** The flat descriptors *)
Lemma flat_descriptors (b : list gdt_entry) (per : list (list gdt_entry)) (ts : list tss) (s : segs) :
  length b = 5%nat ->
  let g := boot_gdt (fst (init_gdt (mkGdts b per ts) s)) in
  length g = 5%nat /\
  seg_at g GDT_CODE = Some (mkSegment 0 4294967295 true 0 CODE) /\
  seg_at g GDT_DATA = Some (mkSegment 0 4294967295 true 0 DATA) /\
  seg_at g GDT_UCODE = Some (mkSegment 0 4294967295 true 3 CODE) /\
  seg_at g GDT_UDATA = Some (mkSegment 0 4294967295 true 3 DATA).
Proof.
  intros Hl. destruct b as [|e0 [|e1 [|e2 [|e3 [|e4 [|e5 b]]]]]]; try (simpl in Hl; lia).
  repeat split; vm_compute; reflexivity.
Qed.

Lemma copy_shared_prefix (boot gdt : list gdt_entry) :
  length boot = 5%nat -> length gdt = 7%nat ->
  copy_shared boot gdt = boot ++ drop 5 gdt.
Proof.
  intros Hb Hg. destruct boot as [|a0 [|a1 [|a2 [|a3 [|a4 [|a5 boot]]]]]]; try (simpl in Hb; lia).
  destruct gdt as [|b0 [|b1 [|b2 [|b3 [|b4 [|b5 [|b6 [|b7 gdt]]]]]]]]; try (simpl in Hg; lia).
  reflexivity.
Qed.

Definition fits (addr : Z -> Z) : Prop := forall c, 0 <= c < 8 -> 0 <= addr c < 4294967296.

(** C25: Each processor gets the segments the kernel's layout needs.  After
    init_gdt and gdt_init_percpu for processor [c], GDTR covers exactly the
    processor's own seven descriptors; read back by the processor's rules
    they are flat 4 GB code and data segments of ring 0 and ring 3, a TSS
    descriptor for exactly the 104 bytes of the processor's TSS, and a data
    segment for exactly the processor's cpu_info record, which %gs selects,
    so that get_cpu_id (which reads %gs:0) reads that record.  A trap to ring 0 uses the
    kernel's data segment as stack, the stack pointer that
    gdt_set_kernel_stack stored is the one in that TSS, and the tables and
    TSSs of the other processors are unchanged. *)
Theorem percpu_segments (g0 : gdts) (s0 : segs) (c e : Z) :
  0 <= c < 8 -> fits tss_addr -> fits info_addr ->
  length (boot_gdt g0) = 5%nat -> length (per_cpu_gdt g0) = 8%nat -> length (per_cpu_tss g0) = 8%nat ->
  Forall (fun l => length l = 7%nat) (per_cpu_gdt g0) ->
  let '(g1, s1) := init_gdt g0 s0 in
  let '(g2, s2) := gdt_init_percpu g1 s1 c in
  let g3 := gdt_set_kernel_stack g2 c e in
  exists gdt t, per_cpu_gdt g3 !! Z.to_nat c = Some gdt /\ per_cpu_tss g3 !! Z.to_nat c = Some t /\
    gdtr_base s2 = gdt_addr c /\ gdtr_limit s2 + 1 = 8 * Z.of_nat (length gdt) /\
    seg_at gdt (cs s2) = Some (mkSegment 0 4294967295 true 0 CODE) /\
    (forall sel, In sel [ds s2; es s2; ss s2; fs s2; ss0 t] ->
       seg_at gdt sel = Some (mkSegment 0 4294967295 true 0 DATA)) /\
    seg_at gdt GDT_UCODE = Some (mkSegment 0 4294967295 true 3 CODE) /\
    seg_at gdt GDT_UDATA = Some (mkSegment 0 4294967295 true 3 DATA) /\
    seg_at gdt (tr s2) = Some (mkSegment (tss_addr c) (tss_addr c + 103) true 0 TSS_AVAILABLE) /\
    seg_at gdt (gs s2) = Some (mkSegment (info_addr c) (info_addr c + 23) true 0 DATA) /\
    esp0 t = e /\
    (forall d, 0 <= d -> d <> c -> per_cpu_gdt g3 !! Z.to_nat d = per_cpu_gdt g0 !! Z.to_nat d /\
       per_cpu_tss g3 !! Z.to_nat d = per_cpu_tss g0 !! Z.to_nat d).
Proof.
  intros Hc Ht Hi Hb Hp Hs Hl. destruct g0 as [b per ts]. cbn [boot_gdt per_cpu_gdt per_cpu_tss] in *.
  destruct (flat_descriptors b per ts s0 Hb) as (Lb & D1 & D2 & D3 & D4).
  cbn [init_gdt fst boot_gdt] in Lb, D1, D2, D3, D4.
  cbn [init_gdt boot_gdt per_cpu_gdt per_cpu_tss gdt_init_percpu].
  set (b' := gdt_set_entry_at _ 4 _ _ _ _) in *.
  destruct (lookup_lt_is_Some_2 per (Z.to_nat c)) as [old Ho]; [lia|].
  destruct (lookup_lt_is_Some_2 ts (Z.to_nat c)) as [t0 Ht0]; [lia|].
  pose proof (Forall_lookup_1 _ _ _ _ Hl Ho) as L7. cbv beta in L7.
  unfold gdt_set_kernel_stack. rewrite (proj2 (Z.leb_le 0 c)), (proj2 (Z.ltb_lt c 8)) by lia.
  cbn [andb boot_gdt per_cpu_gdt per_cpu_tss].
  exists (b' ++ [mkGdt (Z.land (104 - 1) 65535) (Z.land (tss_addr c) 65535) (Z.land (Z.shiftr (tss_addr c) 16) 255) 137
             (Z.lor (Z.land (Z.shiftr (104 - 1) 16) 15) (Z.land 0 240)) (Z.land (Z.shiftr (tss_addr c) 24) 255);
           mkGdt (Z.land (24 - 1) 65535) (Z.land (info_addr c) 65535) (Z.land (Z.shiftr (info_addr c) 16) 255) 146
             (Z.lor (Z.land (Z.shiftr (24 - 1) 16) 15) (Z.land 0 240)) (Z.land (Z.shiftr (info_addr c) 24) 255)]),
    (set_esp0 (init_tss t0) e).
  assert (Hlow : forall l sel, 0 <= sel < 40 -> seg_at (b' ++ l) sel = seg_at b' sel).
  { intros l sel Hsel. unfold seg_at. rewrite lookup_app_l; [done|]. rewrite Lb. div_mod_lia. }
  split; [|split].
  - rewrite list_lookup_alter_eq, Ho. cbn [fmap option_fmap option_map]. f_equal.
    rewrite copy_shared_prefix by done.
    destruct b' as [|a0 [|a1 [|a2 [|a3 [|a4 [|a5 bb]]]]]]; try (simpl in Lb; lia).
    destruct old as [|b0 [|b1 [|b2 [|b3 [|b4 [|b5 [|b6 [|b7 old]]]]]]]]; try (simpl in L7; lia). reflexivity.
  - by rewrite !list_lookup_alter_eq, Ht0.
  - cbn [gdtr_base gdtr_limit cs ds es ss fs gs tr reload_segments lgdt ss0 esp0 set_esp0 init_tss].
    rewrite length_app, Lb. split; [done|]. split; [done|].
    split; [by rewrite Hlow|]. split.
    { intros sel Hsel. rewrite Hlow; [|cbv [In GDT_DATA] in Hsel; lia].
      repeat destruct Hsel as [<-|Hsel]; try done. }
    split; [by rewrite Hlow|]. split; [by rewrite Hlow|].
    split; [|split; [|split; [done|]]].
    + unfold seg_at. change (Z.to_nat (GDT_TSS / 8)) with (5 + 0)%nat. rewrite lookup_app_r by lia.
      rewrite Lb. cbn [Nat.add Nat.sub lookup list_lookup].
      rewrite small_descriptor by (apply Ht; lia) || lia. do 2 f_equal. lia.
    + unfold seg_at. change (Z.to_nat (GDT_PERCPU / 8)) with (5 + 1)%nat. rewrite lookup_app_r by lia.
      rewrite Lb. cbn [Nat.add Nat.sub lookup list_lookup].
      rewrite small_descriptor by (apply Hi; lia) || lia. do 2 f_equal. lia.
    + intros d Hd Hne. rewrite !list_lookup_alter_ne by lia. done.
Qed.

End gdt.

Definition zero_entry : gdt_entry := mkGdt 0 0 0 0 0 0.

Definition zero_tss : tss := mkTss 0 0 0 0 0 0 0 0 0 0 0 0 0 0 0 0 0 0 0 0 0 0 0 0 0 0 0.

Definition start_gdts : gdts :=
  mkGdts (replicate 5 zero_entry) (replicate 8 (replicate 7 zero_entry)) (replicate 8 zero_tss).

Lemma percpu_segments_witness :
  exists gdt, per_cpu_gdt (fst (gdt_init_percpu 65536 131072 196608
                (fst (init_gdt 4096 start_gdts (mkSegs 0 0 0 0 0 0 0 0 0)))
                (snd (init_gdt 4096 start_gdts (mkSegs 0 0 0 0 0 0 0 0 0))) 2)) !! 2%nat = Some gdt /\
    seg_at gdt GDT_PERCPU = Some (mkSegment 196656 196679 true 0 DATA).
Proof.
  destruct (percpu_segments 4096 65536 131072 196608 start_gdts (mkSegs 0 0 0 0 0 0 0 0 0) 2 5)
    as (gdt & t & E & _ & _ & _ & _ & _ & _ & _ & _ & S & _).
  - lia.
  - intros c Hc. unfold tss_addr, sizeof_tss. lia.
  - intros c Hc. unfold info_addr, sizeof_cpu_info. lia.
  - reflexivity.
  - reflexivity.
  - reflexivity.
  - repeat constructor.
  - exists gdt. split; [exact E|exact S].
Defined.

End Gdt.
