(* ===== verification/Apic.v ===== *)
(** * kernel/apic: the local APICs and the I/O APIC, and kernel/sync/tlb.c

    [Platform] adds to the port instructions of [Machine] what these files
    do to the hardware: accesses to memory-mapped registers, model-specific
    registers, the interrupt flag and the TLB.  The page tables are threaded
    through as in Paging.v.  Delay loops and log output have no effect in the
    model. *)
From S2P Require Import Prelude Bytes Memory FrameAlloc Pfa Paging Pci.
Import Paging Pfa.

Class Platform (W : Type) `{Machine W} := {
  mmio_read : Z -> IO W Z;
  mmio_write : Z -> Z -> IO W unit;
  (** low and high half *)
  rdmsr : Z -> IO W (Z * Z);
  wrmsr : Z -> Z -> Z -> IO W unit;
  cli : IO W unit;
  sti : IO W unit;
  invlpg : Z -> IO W unit;
  (** [mov %cr3, %eax; mov %eax, %cr3] *)
  flush_tlb : IO W unit
}.

Module Apic.
Open Scope io_scope.

Definition LAPIC_BASE_PHYS : Z := 4276092928.

Definition MSR_APIC_BASE : Z := 27.

Definition LAPIC_ID : Z := 32.

Definition LAPIC_VERSION : Z := 48.

Definition LAPIC_TPR : Z := 128.

Definition LAPIC_EOI : Z := 176.

Definition LAPIC_SVR : Z := 240.

Definition LAPIC_ICR_LOW : Z := 768.

Definition LAPIC_ICR_HIGH : Z := 784.

Definition LAPIC_LVT_TIMER : Z := 800.

Definition LAPIC_LVT_LINT0 : Z := 848.

Definition LAPIC_LVT_LINT1 : Z := 864.

Definition LAPIC_LVT_ERROR : Z := 880.

Definition IOAPIC_BASE_PHYS : Z := 4273995776.

Definition TLB_IPI_VECTOR : Z := 80.

(** [lapic], [ioapic] and [apic_enabled] *)
Record apic := mkApic { lapic : Z; ioapic : Z; apic_enabled : bool }.

Section apic.

Context {W : Type} `{Platform W}.

(** ** Local APIC *)

Definition lapic_read (a : apic) (reg : Z) : IO W Z := mmio_read (lapic a + 4 * (reg / 4)).

Definition lapic_write (a : apic) (reg val : Z) : IO W unit := mmio_write (lapic a + 4 * (reg / 4)) val.

(** [acpi] is the result of acpi_get_lapic_addr, [cpu_id] of get_cpu_id. *)
Definition lapic_init (a : apic) (s : vm pfa) (acpi cpu_id : Z) : IO W (apic * vm pfa) :=
  let phys := if acpi =? 0 then LAPIC_BASE_PHYS else acpi in
  let s := snd (map_page s phys phys PAGE_WRITE) in
  let a := mkApic phys (ioapic a) (apic_enabled a) in
  msr <- rdmsr MSR_APIC_BASE ;;
  let '(low, high) := msr in
  (if negb (Z.testbit low 11) then wrmsr MSR_APIC_BASE (Z.lor low (Z.shiftl 1 11)) high else io_ret tt) ;;;
  lapic_write a LAPIC_SVR (Z.lor (Z.shiftl 1 8) 255) ;;;
  lapic_write a LAPIC_TPR 0 ;;;
  lapic_write a LAPIC_LVT_TIMER 65536 ;;;
  lapic_write a LAPIC_LVT_ERROR 65536 ;;;
  (if cpu_id =? 0 then lapic_write a LAPIC_LVT_LINT0 1792 else lapic_write a LAPIC_LVT_LINT0 65536) ;;;
  lapic_write a LAPIC_LVT_LINT1 1024 ;;;
  lapic_read a LAPIC_ID ;;;
  lapic_read a LAPIC_VERSION ;;;
  io_ret (mkApic phys (ioapic a) true, s).

Definition lapic_eoi (a : apic) : IO W unit :=
  if apic_enabled a then lapic_write a LAPIC_EOI 0 else io_ret tt.

Definition lapic_send_ipi (a : apic) (apic_id icr_low : Z) : IO W unit :=
  lapic_write a LAPIC_ICR_HIGH (u32 (Z.shiftl apic_id 24)) ;;;
  lapic_write a LAPIC_ICR_LOW icr_low.

Definition lapic_send_ipi_all_exc_self (a : apic) (vector : Z) : IO W unit :=
  lapic_write a LAPIC_ICR_HIGH 0 ;;;
  lapic_write a LAPIC_ICR_LOW (Z.lor 786432 vector).

Definition lapic_start_ap (a : apic) (apic_id trampoline_page : Z) : IO W unit :=
  cli ;;;
  lapic_send_ipi a apic_id 50432 ;;;
  lapic_send_ipi a apic_id 34048 ;;;
  lapic_send_ipi a apic_id (Z.lor 1536 trampoline_page) ;;;
  lapic_send_ipi a apic_id (Z.lor 1536 trampoline_page) ;;;
  sti.

(** ** I/O APIC *)

Definition ioapic_read (a : apic) (reg : Z) : IO W Z :=
  mmio_write (ioapic a) reg ;;; mmio_read (ioapic a + 16).

Definition ioapic_write (a : apic) (reg val : Z) : IO W unit :=
  mmio_write (ioapic a) reg ;;; mmio_write (ioapic a + 16) val.

Definition ioapic_set_irq (a : apic) (irq apic_id vector : Z) (masked : bool) : IO W unit :=
  let low := if masked then Z.lor vector (Z.shiftl 1 16) else vector in
  let high := u32 (Z.shiftl apic_id 24) in
  ioapic_write a (16 + 2 * irq) low ;;;
  ioapic_write a (16 + 2 * irq + 1) high.

(** [for (i = 2; i <= max_entries; i++)], [n] more rounds *)
Fixpoint mask_irqs (n : nat) (a : apic) (i : Z) : IO W unit :=
  match n with
  | O => io_ret tt
  | S n => ioapic_set_irq a i 0 0 true ;;; mask_irqs n a (i + 1)
  end.

Definition ioapic_init (a : apic) (s : vm pfa) : IO W (apic * vm pfa) :=
  let phys := IOAPIC_BASE_PHYS in
  let s := snd (map_page s phys phys PAGE_WRITE) in
  let a := mkApic (lapic a) phys (apic_enabled a) in
  ver <- ioapic_read a 1 ;;
  let max_entries := Z.land (Z.shiftr ver 16) 255 in
  id <- lapic_read a LAPIC_ID ;;
  ioapic_set_irq a 0 (Z.shiftr id 24) 32 false ;;;
  id <- lapic_read a LAPIC_ID ;;
  ioapic_set_irq a 1 (Z.shiftr id 24) 33 false ;;;
  mask_irqs (Z.to_nat (max_entries - 1)) a 2 ;;;
  outb 34 112 ;;;
  outb 35 1 ;;;
  io_ret (a, s).

(** ** TLB *)

Definition tlb_shootdown (a : apic) (virt : Z) : IO W unit :=
  invlpg virt ;;;
  if apic_enabled a then lapic_send_ipi_all_exc_self a TLB_IPI_VECTOR else io_ret tt.

Definition tlb_ipi_handler (a : apic) : IO W unit :=
  lapic_eoi a ;;; flush_tlb.

End apic.

(** ** The chip *)

(** The I/O APIC's register window: writing the index register selects one
    of its registers, the data register is the one selected. *)
Class IoApicChip (W : Type) `{Platform W} := {
  index : W -> Z;
  reg : W -> Z -> Z;
  (** where the local APIC of the processor that runs is mapped, and its
      identifier register *)
  local_base : Z;
  local_id : W -> Z;
  local_id_byte w : 0 <= Z.shiftr (local_id w) 24 < 256;
  index_law w v : exists w', mmio_write IOAPIC_BASE_PHYS v w = (tt, w') /\
    index w' = v /\ reg w' = reg w /\ local_id w' = local_id w;
  data_read_law w : exists w', mmio_read (IOAPIC_BASE_PHYS + 16) w = (reg w (index w), w') /\
    index w' = index w /\ reg w' = reg w /\ local_id w' = local_id w;
  (** the redirection table *)
  data_write_law w v : 16 <= index w -> exists w', mmio_write (IOAPIC_BASE_PHYS + 16) v w = (tt, w') /\
    index w' = index w /\ (forall r, reg w' r = if r =? index w then v else reg w r) /\ local_id w' = local_id w;
  id_law w a : lapic a = local_base -> exists w', lapic_read a LAPIC_ID w = (local_id w, w') /\
    index w' = index w /\ reg w' = reg w /\ local_id w' = local_id w;
  imcr_law w p v : p = 34 \/ p = 35 -> exists w', outb p v w = (tt, w') /\ reg w' = reg w
}.

(** An entry of the redirection table *)
Record route := mkRoute { vector : Z; masked : bool; fixed_edge : bool; destination : Z }.

Definition route_of {W} `{IoApicChip W} (w : W) (irq : Z) : route :=
  let low := reg w (16 + 2 * irq) in
  mkRoute (low mod 256) (Z.testbit low 16) (low / 256 mod 256 =? 0) (reg w (16 + 2 * irq + 1) / 16777216).

Section routes.

Context {W : Type} `{IoApicChip W}.

Definition max_irq (w : W) : Z := Z.land (Z.shiftr (reg w 1) 16) 255.

Lemma ioapic_write_run (a : apic) (w : W) (r v : Z) : ioapic a = IOAPIC_BASE_PHYS -> 16 <= r ->
  exists w', ioapic_write a r v w = (tt, w') /\ local_id w' = local_id w /\
    forall r', reg w' r' = if r' =? r then v else reg w r'.
Proof.
  intros Ha Hr. unfold ioapic_write, io_bind. rewrite Ha.
  destruct (index_law w r) as (w1 & -> & I1 & R1 & L1).
  destruct (data_write_law w1 v) as (w2 & -> & I2 & R2 & L2); [by rewrite I1|].
  exists w2. split; [done|]. split; [congruence|]. intros r'. by rewrite R2, I1, R1.
Qed.

Lemma set_irq_run (a : apic) (w : W) (irq id vec : Z) (m : bool) : ioapic a = IOAPIC_BASE_PHYS -> 0 <= irq ->
  exists w', ioapic_set_irq a irq id vec m w = (tt, w') /\ local_id w' = local_id w /\ reg w' 1 = reg w 1 /\
    reg w' (16 + 2 * irq) = (if m then Z.lor vec (Z.shiftl 1 16) else vec) /\
    reg w' (16 + 2 * irq + 1) = u32 (Z.shiftl id 24) /\
    forall i, i <> irq -> route_of w' i = route_of w i.
Proof.
  intros Ha Hi. unfold ioapic_set_irq, io_bind.
  destruct (ioapic_write_run a w (16 + 2 * irq) (if m then Z.lor vec (Z.shiftl 1 16) else vec) Ha ltac:(lia))
    as (w1 & -> & L1 & R1).
  destruct (ioapic_write_run a w1 (16 + 2 * irq + 1) (u32 (Z.shiftl id 24)) Ha ltac:(lia)) as (w2 & -> & L2 & R2).
  exists w2. split; [done|]. split; [congruence|].
  assert (Hreg : forall r, r <> 16 + 2 * irq -> r <> 16 + 2 * irq + 1 -> reg w2 r = reg w r).
  { intros r Ha1 Ha2. rewrite R2, (proj2 (Z.eqb_neq _ _) Ha2), R1, (proj2 (Z.eqb_neq _ _) Ha1). done. }
  split; [apply Hreg; lia|]. split.
  { rewrite R2, (proj2 (Z.eqb_neq _ _)), R1, Z.eqb_refl by lia. done. }
  split; [by rewrite R2, Z.eqb_refl|].
  intros i Hne. unfold route_of. rewrite !Hreg by lia. done.
Qed.

Lemma mask_irqs_run (n : nat) (a : apic) (w : W) (i : Z) : ioapic a = IOAPIC_BASE_PHYS -> 0 <= i ->
  exists w', mask_irqs n a i w = (tt, w') /\ reg w' 1 = reg w 1 /\
    (forall j, i <= j < i + Z.of_nat n -> masked (route_of w' j) = true) /\
    (forall j, j < i \/ i + Z.of_nat n <= j -> route_of w' j = route_of w j).
Proof.
  intros Ha. revert w i; induction n as [|n IH]; intros w i Hi.
  { exists w. split; [done|]. split; [done|]. split; [lia|done]. }
  cbn [mask_irqs]. unfold io_bind.
  destruct (set_irq_run a w i 0 0 true Ha Hi) as (w1 & -> & L1 & V1 & R1 & _ & F1).
  destruct (IH w1 (i + 1) ltac:(lia)) as (w2 & E2 & V2 & M2 & F2).
  exists w2. split; [done|]. split; [congruence|]. split.
  - intros j Hj. destruct (decide (j = i)) as [->|Hne].
    + rewrite F2 by lia. unfold route_of. cbn [masked]. by rewrite R1.
    + apply M2. lia.
  - intros j Hj. rewrite F2, F1 by lia. done.
Qed.

(** After ioapic_init the I/O APIC delivers the timer's line 0 as vector
    0x20 and the keyboard's line 1 as vector 0x21, unmasked, with fixed
    delivery, to the processor that ran the initialisation, and every other
    line the chip has is masked.  The chip is any one whose registers are
    reached through its index and data registers. *)
Theorem ioapic_routes (a : apic) (s : vm pfa) (w : W) :
  1 <= max_irq w -> lapic a = local_base ->
  exists a' s' w', ioapic_init a s w = ((a', s'), w') /\
    route_of w' 0 = mkRoute 32 false true (Z.shiftr (local_id w) 24) /\
    route_of w' 1 = mkRoute 33 false true (Z.shiftr (local_id w) 24) /\
    (forall i, 2 <= i <= max_irq w -> masked (route_of w' i) = true).
Proof.
  intros Hmax Hla. unfold ioapic_init, ioapic_read. set (a1 := mkApic (lapic a) IOAPIC_BASE_PHYS (apic_enabled a)).
  assert (Ha : ioapic a1 = IOAPIC_BASE_PHYS) by done. unfold io_bind at 1 2. rewrite Ha.
  destruct (index_law w 1) as (w1 & -> & I1 & R1 & L1).
  destruct (data_read_law w1) as (w2 & -> & I2 & R2 & L2). rewrite I1, R1. fold (max_irq w).
  unfold io_bind at 1. destruct (id_law w2 a1 Hla) as (w3 & -> & I3 & R3 & L3).
  unfold io_bind at 1.
  destruct (set_irq_run a1 w3 0 (Z.shiftr (local_id w2) 24) 32 false Ha ltac:(lia)) as (w4 & -> & L4 & _ & A4 & B4 & F4).
  unfold io_bind at 1. destruct (id_law w4 a1 Hla) as (w5 & -> & I5 & R5 & L5).
  unfold io_bind at 1.
  destruct (set_irq_run a1 w5 1 (Z.shiftr (local_id w4) 24) 33 false Ha ltac:(lia)) as (w6 & -> & L6 & _ & A6 & B6 & F6).
  unfold io_bind at 1.
  destruct (mask_irqs_run (Z.to_nat (max_irq w - 1)) a1 w6 2 Ha ltac:(lia)) as (w7 & -> & _ & M7 & F7).
  unfold io_bind at 1. destruct (imcr_law w7 34 112 (or_introl eq_refl)) as (w8 & -> & R8).
  unfold io_bind at 1. destruct (imcr_law w8 35 1 (or_intror eq_refl)) as (w9 & -> & R9).
  exists a1, (snd (map_page s IOAPIC_BASE_PHYS IOAPIC_BASE_PHYS PAGE_WRITE)), w9. split; [done|].
  assert (Hr : forall i, route_of w9 i = route_of w7 i) by (intros i; unfold route_of; by rewrite R9, R8).
  assert (Hid : forall x, 0 <= x < 256 -> u32 (Z.shiftl x 24) / 16777216 = x).
  { intros x Hx. rewrite Z.shiftl_mul_pow2 by lia. change (2 ^ 24) with 16777216. cint. }
  pose proof (local_id_byte w) as Hb.
  split; [|split].
  - rewrite Hr, F7, F6 by lia. unfold route_of. rewrite R5, A4, B4, L2, L1, Hid by done. done.
  - rewrite Hr, F7 by lia. unfold route_of. rewrite A6, B6, L4, L3, L2, L1, Hid by done. done.
  - intros i Hi. rewrite Hr. apply M7. lia.
Qed.

End routes.
End Apic.
