(* ===== verification/Text.v ===== *)
(** * String literals

    The C string literals of the kernel as the lists of their bytes. *)
From S2P Require Import Prelude Bytes.
From stdpp Require Export strings.
Open Scope Z_scope.

Definition str (s : String.string) : list Z :=
  map (fun c => Z.of_N (Ascii.N_of_ascii c)) (String.list_ascii_of_string s).

Arguments str s%_string.

Definition nl : list Z := [10].

Lemma str_range (s : String.string) : Forall (fun c => 0 <= c < 256) (str s).
Proof.
  unfold str. apply Forall_map, Forall_forall. intros c _. cbn. pose proof (Ascii.N_ascii_bounded c). lia.
Qed.

Lemma str_nl_range (s : String.string) : Forall (fun c => 0 <= c < 256) (str s ++ nl).
Proof. apply Forall_app; split; [apply str_range|]. repeat constructor; lia. Qed.

#[export] Hint Resolve str_range str_nl_range : core.
