(* ===== verification/PageDump.v ===== *)
(** * kernel/memory/paging.c: the report of the page tables

    [dump_page_info] walks the kernel's directory and logs one line per table
    and the totals.  The report is compared with the text that counts the
    mapped pages through [Paging.get_page_mapping], the code's own lookup.
    Counters are C ints; they stay below [2^22]. *)
From S2P Require Import Prelude Bytes Memory FrameAlloc Pfa Paging PagingProps Serial Text.

Import Paging Serial.

Module PageDump.

Section dump.

Context {A : Type}.

(** The loop over one table: [ptes] and [total_ptes] *)
Definition count_ptes (m : memory) (table total_ptes : Z) : Z * Z :=
  for_up 1024 0 1
    (fun pte_i '(ptes, total) =>
       if negb (present (entry m table pte_i)) then (ptes, total) else (ptes + 1, total + 1))
    (0, total_ptes).

(** The line of one directory entry *)
Definition dump_pde (o : trace) (pde_i pt_phys ptes : Z) : trace :=
  let o := serial_write_string o (str "  PDE[") in
  let o := serial_write_int o (u32 pde_i) in
  let o := serial_write_string o (str "] PT=") in
  let o := serial_write_hex o pt_phys in
  let o := serial_write_string o (str " (") in
  let o := serial_write_int o (u32 ptes) in
  let o := serial_write_string o (str " PTEs, virt 0x") in
  let o := serial_write_hex o (u32 (Z.shiftl pde_i 22)) in
  serial_write_string o (str ")" ++ nl).

(** The body of the loop over the directory: log, [total_pdes] and
    [total_ptes] *)
Definition dump_step (s : vm A) (pde_i : Z) (st : trace * Z * Z) : trace * Z * Z :=
  let '(o, total_pdes, total_ptes) := st in
  let pde := entry (vmem s) (kernel_page_dir s) pde_i in
  if negb (present pde) then (o, total_pdes, total_ptes)
  else
    let pt_phys := frame_of pde in
    let '(ptes, total_ptes) := count_ptes (vmem s) pt_phys total_ptes in
    (dump_pde o pde_i pt_phys ptes, total_pdes + 1, total_ptes).

Definition dump_page_info (s : vm A) (o : trace) : trace :=
  let o := serial_write_string o (str "[pages] Page Dir at ") in
  let o := serial_write_hex o (cr3 s) in
  let o := serial_write_string o nl in
  let '(o, total_pdes, total_ptes) := for_up 1024 0 1 (dump_step s) (o, 0, 0) in
  let o := serial_write_string o (str "  Total: ") in
  let o := serial_write_int o (u32 total_pdes) in
  let o := serial_write_string o (str " PDEs, ") in
  let o := serial_write_int o (u32 total_ptes) in
  let o := serial_write_string o (str " PTEs (") in
  let o := serial_write_int o (u32 (total_ptes * 4)) in
  serial_write_string o (str " KB mapped)" ++ nl).

(** ** The report as a text *)

Definition hex_text (n : Z) : list Z := until_nul (hex_buf n).

Definition dec_text (n : Z) : list Z := if n =? 0 then [48] else int_string n.

(** Page number [p] is mapped *)
Definition mapped (s : vm A) (p : Z) : bool :=
  match get_page_mapping s (4096 * p) with Some _ => true | None => false end.

Definition has_table (s : vm A) (i : Z) : bool := present (entry (vmem s) (kernel_page_dir s) i).

Definition pde_text (s : vm A) (i : Z) : list Z :=
  if has_table s i then
    str "  PDE[" ++ dec_text i ++ str "] PT=" ++ hex_text (frame_of (entry (vmem s) (kernel_page_dir s) i)) ++
    str " (" ++ dec_text (count_up 1024 (1024 * i) (mapped s)) ++ str " PTEs, virt 0x" ++ hex_text (4194304 * i) ++
    str ")" ++ nl
  else [].

Definition rows (s : vm A) (n : nat) : list Z := concat (map (pde_text s) (seqZ 0 (Z.of_nat n))).

Definition report (s : vm A) (pdes ptes : Z) : list Z :=
  str "[pages] Page Dir at " ++ hex_text (cr3 s) ++ nl ++ rows s 1024 ++
  str "  Total: " ++ dec_text pdes ++ str " PDEs, " ++ dec_text ptes ++ str " PTEs (" ++ dec_text (4 * ptes) ++
  str " KB mapped)" ++ nl.

(** ** Lemmas *)

Lemma write_app (o : trace) (a b : list Z) :
  serial_write_string (serial_write_string o a) b = serial_write_string o (a ++ b).
Proof. unfold serial_write_string. by rewrite fold_left_app. Qed.

Lemma write_hex_text (o : trace) (n : Z) : serial_write_hex o n = serial_write_string o (hex_text n).
Proof. done. Qed.

Lemma write_dec_text (o : trace) (n : Z) : serial_write_int o n = serial_write_string o (dec_text n).
Proof. unfold serial_write_int, dec_text. by destruct (n =? 0). Qed.

Lemma count_ptes_eq (m : memory) (table total : Z) :
  let n := count_up 1024 0 (fun j => present (entry m table j)) in count_ptes m table total = (n, total + n).
Proof.
  cbv zeta. unfold count_ptes, count_up. generalize 1024%nat as k. intros k.
  assert (G : forall c t i, for_up k i 1 (fun pte_i '(ptes, total) =>
      if negb (present (entry m table pte_i)) then (ptes, total) else (ptes + 1, total + 1)) (c, t) =
    (c + count_up k i (fun j => present (entry m table j)), t + count_up k i (fun j => present (entry m table j)))).
  { induction k as [|k IH]; intros c t i; [cbn; f_equal; lia|]. cbn [for_up]. rewrite !count_up_S.
    destruct (present _); cbn [negb]; rewrite IH; cbn [c_bool]; f_equal; lia. }
  rewrite G. fold (count_up k 0 (fun j => present (entry m table j))). done.
Qed.

(** A table's present entries are the mapped pages of its 4 MB. *)
Lemma table_pages (s : vm A) (i : Z) : 0 <= i < 1024 ->
  count_up 1024 (1024 * i) (mapped s) =
  if has_table s i then count_up 1024 0 (fun j => present (entry (vmem s) (frame_of (entry (vmem s) (kernel_page_dir s) i)) j)) else 0.
Proof.
  intros Hi. assert (Hshift : forall k x y p q, (forall j, 0 <= j < Z.of_nat k -> p (x + j) = q (y + j)) ->
    count_up k x p = count_up k y q).
  { induction k as [|k IH]; intros x y p q Hpq; [done|]. rewrite !count_up_S.
    rewrite (IH (x + 1) (y + 1) p q); [|intros j Hj; rewrite <- !Z.add_assoc; apply Hpq; lia].
    specialize (Hpq 0 ltac:(lia)). rewrite !Z.add_0_r in Hpq. by rewrite Hpq. }
  assert (Hm : forall j, 0 <= j < 1024 -> mapped s (1024 * i + j) =
    has_table s i && present (entry (vmem s) (frame_of (entry (vmem s) (kernel_page_dir s) i)) j)).
  { intros j Hj. unfold mapped, get_page_mapping, has_table. rewrite PDE_IDX_eq, PTE_IDX_eq by lia.
    replace (4096 * (1024 * i + j) / 4194304) with i by div_mod_lia.
    replace ((4096 * (1024 * i + j) / 4096) mod 1024) with j by div_mod_lia.
    destruct (present _); cbn [negb andb]; [|done]. by destruct (present _). }
  destruct (has_table s i) eqn:E.
  - apply Hshift. intros j Hj. rewrite Hm by lia. done.
  - rewrite (Hshift 1024%nat _ 0 _ (fun _ => false)); [reflexivity|]. intros j Hj. rewrite Hm by lia. done.
Qed.

Lemma rows_S (s : vm A) (n : nat) : rows s (S n) = rows s n ++ pde_text s (Z.of_nat n).
Proof.
  unfold rows. replace (Z.of_nat (S n)) with (Z.of_nat n + 1) by lia. rewrite seqZ_app by lia.
  rewrite map_app, concat_app. f_equal. cbn. apply app_nil_r.
Qed.

Lemma dump_step_eq (s : vm A) (i : Z) (o : trace) (pdes ptes : Z) : 0 <= i < 1024 ->
  dump_step s i (o, pdes, ptes) =
  (serial_write_string o (pde_text s i), pdes + c_bool (has_table s i), ptes + count_up 1024 (1024 * i) (mapped s)).
Proof.
  intros Hi. unfold dump_step, pde_text. rewrite (table_pages s i Hi). fold (has_table s i).
  destruct (has_table s i); cbn [negb c_bool].
  - rewrite count_ptes_eq. set (n := count_up 1024 0 _). pose proof (count_up_range 1024 0 (fun j => present
      (entry (vmem s) (frame_of (entry (vmem s) (kernel_page_dir s) i)) j))) as Hn. fold n in Hn.
    unfold dump_pde. rewrite !write_dec_text, !write_hex_text, !write_app, <- ?app_assoc.
    rewrite Z.shiftl_mul_pow2 by lia. change (2 ^ 22) with 4194304. rewrite !u32_small by lia.
    by rewrite (Z.mul_comm i).
  - cbn. by rewrite !Z.add_0_r.
Qed.

Lemma dump_loop_eq (s : vm A) (o : trace) (n : nat) : (n <= 1024)%nat ->
  for_up n 0 1 (dump_step s) (o, 0, 0) =
  (serial_write_string o (rows s n), count_up n 0 (has_table s), count_up (1024 * n) 0 (mapped s)).
Proof.
  intros Hn.
  pose proof (for_up_ind (fun k st => st = (serial_write_string o (rows s (Z.to_nat k)),
    count_up (Z.to_nat k) 0 (has_table s), count_up (1024 * Z.to_nat k) 0 (mapped s))) n 0 1 (dump_step s) (o, 0, 0)) as HI.
  replace (0 + Z.of_nat n * 1) with (Z.of_nat n) in HI by lia. rewrite Nat2Z.id in HI. apply HI; [done|].
  intros k x Hk ->. rewrite dump_step_eq by lia. replace (0 + k * 1) with k by lia.
  replace (Z.to_nat (0 + (k + 1) * 1)) with (S (Z.to_nat k)) by lia.
  rewrite rows_S, write_app, Z2Nat.id by lia. f_equal; [f_equal|].
  - replace (S (Z.to_nat k)) with (Z.to_nat k + 1)%nat by lia. rewrite count_up_app. f_equal.
    rewrite count_up_S, Z2Nat.id by lia. rewrite Z.add_0_l. cbn. lia.
  - replace (1024 * S (Z.to_nat k))%nat with (1024 * Z.to_nat k + 1024)%nat by lia. rewrite count_up_app.
    do 2 f_equal. lia.
Qed.

(** C22: [dump_page_info] reports the address space.  The log it writes is the
    reference text: a line for each page table of the kernel's directory with
    the number of pages [get_page_mapping] finds in its 4 MB, and totals that
    count every table and every mapped page of the 4 GB address space. *)
Theorem dump_reports_mappings (s : vm A) (o : trace) :
  dump_page_info s o =
  serial_write_string o
    (report s (count_up 1024 0 (has_table s)) (count_up (Z.to_nat 1048576) 0 (mapped s))).
Proof.
  unfold dump_page_info. rewrite dump_loop_eq by lia. replace (1024 * 1024)%nat with (Z.to_nat 1048576) by lia.
  pose proof (count_up_range 1024 0 (has_table s)). pose proof (count_up_range (Z.to_nat 1048576) 0 (mapped s)).
  set (pdes := count_up 1024 0 _) in *. set (ptes := count_up _ 0 (mapped s)) in *. clearbody pdes ptes.
  unfold report. rewrite !write_dec_text, !write_hex_text, !write_app, <- ?app_assoc, !u32_small by lia.
  by rewrite (Z.mul_comm ptes).
Qed.

End dump.

(** ** The report after boot *)

(** After [init_paging] has mapped [n + 1] regions, the report's total is
    their 1024 pages each. *)
Lemma pages_after_init {A : Type} `{FrameAllocatorLaws A} (n fuel : nat) (s : vm A) (ram : Z) :
  fa_ok (frames s) -> Z.of_nat n <= 1022 -> (n < fuel)%nat ->
  ram <= (1 + Z.of_nat n) * 4194304 -> (0 < Z.of_nat n -> Z.of_nat n * 4194304 < ram) ->
  2 + Z.of_nat n <= fa_free_count (frames s) ->
  exists s', init_paging fuel s ram = Some s' /\
    count_up (Z.to_nat 1048576) 0 (mapped s') = 1024 * (1 + Z.of_nat n).
Proof.
  intros Hok Hn Hf Hr Hl Hc.
  destruct (init_paging_identity n fuel s ram Hok Hn Hf Hr Hl Hc) as (s' & E & _ & _ & _ & Hw).
  exists s'. split; [exact E|]. set (k := 1024 * (1 + Z.of_nat n)).
  replace (Z.to_nat 1048576) with (Z.to_nat k + Z.to_nat (1048576 - k))%nat by lia.
  rewrite count_up_app, count_up_true, count_up_false; [lia| |]; intros x Hx; unfold mapped; rewrite Hw by lia;
    (destruct (Z.ltb_spec (4096 * x) ((1 + Z.of_nat n) * 4194304)); [|]); done || lia.
Qed.

End PageDump.
