(* ===== verification/Power.v ===== *)
(** * Restart and power off: reboot and shutdown of kernel/kernel.c

    Both log, then speak to a device: reboot waits until the keyboard
    controller has taken its last byte and pulses the processor's reset line
    through it; shutdown writes the sleep command to the two ports where
    emulators have their power management and halts.  The waiting loop takes
    fuel. *)
From S2P Require Import Prelude Bytes Memory Pci Serial SerialPort Text.

Module Power.
Import SerialPort.

Definition KBC : Z := 100.

Section power.

Context {W : Type} `{Machine W}.

(** [#define debug_log(msg)] *)
Definition debug_log (fuel : nat) (msg : list Z) (w : W) : option W :=
  w ← serial_write_string fuel (str "[kernel] ") w;
  w ← serial_write_string fuel msg w;
  serial_write_char fuel 10 w.

(** [while ((inb(0x64) & 0x02) != 0);] *)
Fixpoint kbc_wait (fuel : nat) (w : W) : option W :=
  match fuel with
  | O => None
  | S fuel => let '(v, w) := inb KBC w in if Z.land v 2 =? 0 then Some w else kbc_wait fuel w
  end.

Definition reboot (fuel : nat) (w : W) : option W :=
  w ← debug_log fuel (str "reboot") w;
  w ← kbc_wait fuel w;
  Some (snd (outb KBC 254 w)).

(** The machine when it halts *)
Definition shutdown (fuel : nat) (w : W) : option W :=
  w ← debug_log fuel (str "shutdown") w;
  let w := snd (outw 45060 8192 w) in
  Some (snd (outw 1540 8192 w)).

End power.

(** The keyboard controller: a command counts when its input buffer is
    empty; [pulses] are the commands it took, [drain] the reads of its status
    within which the buffer empties. *)
Class Kbc (W : Type) `{Machine W} := {
  input_full : W -> bool;
  pulses : W -> list Z;
  drain : W -> nat;
  drain_max : nat;
  drain_bound w : (drain w <= drain_max)%nat;
  kbc_status w : exists v w', inb KBC w = (v, w') /\ pulses w' = pulses w /\
    Z.testbit v 1 = input_full w' /\ (input_full w' = true -> (drain w' < drain w)%nat);
  kbc_command w c : input_full w = false -> pulses (snd (outb KBC c w)) = pulses w ++ [c]
}.

Section laws.

Context {W : Type} `{UM : Uart W} `{!Kbc W}.

Lemma kbc_wait_empty (fuel : nat) (w : W) : (drain w < fuel)%nat ->
  exists w', kbc_wait fuel w = Some w' /\ pulses w' = pulses w /\ input_full w' = false.
Proof.
  revert w. induction fuel as [|fuel IH]; intros w Hf; [lia|]. cbn [kbc_wait].
  destruct (kbc_status w) as (v & w1 & -> & Hp & Hb & Hd). change 2 with (2 ^ 1). rewrite land_pow2, Hb by lia.
  destruct (input_full w1) eqn:E; cbn [Z.eqb].
  - destruct (IH w1) as (w2 & E2 & Hp2 & He2); [specialize (Hd eq_refl); lia|]. exists w2. by rewrite Hp2.
  - by exists w1.
Qed.

Lemma debug_log_sends (fuel : nat) (msg : list Z) (w : W) : dlab w = false -> (slowness < fuel)%nat ->
  exists w', debug_log fuel msg w = Some w' /\ settings w' = settings w /\
    line w' = line w ++ flat_map crlf (str "[kernel] " ++ msg ++ nl).
Proof.
  intros Hd Hf. unfold debug_log.
  destruct (write_string_sends fuel (str "[kernel] ") w Hd Hf) as (w1 & -> & S1 & L1). cbn [mbind option_bind].
  assert (Hd1 : dlab w1 = false) by (unfold settings in S1; congruence).
  destruct (write_string_sends fuel msg w1 Hd1 Hf) as (w2 & -> & S2 & L2). cbn [mbind option_bind].
  destruct (write_char_sends fuel 10 w2) as (w3 & E3 & S3 & L3); [unfold settings in S2; congruence|done|].
  exists w3. split; [exact E3|]. split; [congruence|].
  by rewrite L3, L2, L1, !flat_map_app, <- !app_assoc.
Qed.

(** reboot logs its line and then the controller takes exactly the reset
    pulse, at a moment when it can. *)
Theorem reboot_pulses_reset (fuel : nat) (w : W) : dlab w = false -> (slowness < fuel)%nat -> (drain_max < fuel)%nat ->
  exists w1 w2, debug_log fuel (str "reboot") w = Some w1 /\
    line w1 = line w ++ flat_map crlf (str "[kernel] reboot" ++ nl) /\
    reboot fuel w = Some (snd (outb KBC 254 w2)) /\ input_full w2 = false /\
    pulses (snd (outb KBC 254 w2)) = pulses w1 ++ [254].
Proof.
  intros Hd Hs Hk. destruct (debug_log_sends fuel (str "reboot") w Hd Hs) as (w1 & E1 & _ & L1).
  pose proof (drain_bound w1). destruct (kbc_wait_empty fuel w1) as (w2 & E2 & P2 & F2); [lia|].
  exists w1, w2. split; [exact E1|]. split; [exact L1|]. unfold reboot. rewrite E1. cbn [mbind option_bind].
  rewrite E2. split; [done|]. split; [done|]. by rewrite kbc_command, P2.
Qed.

End laws.

End Power.
