(* ===== verification/Idt.v ===== *)
(** * kernel/cpu/idt.c: interrupt gates, dispatch and the exception report

    The interrupt descriptor table and the table of handlers are the
    kernel's static arrays; a handler is a function of the saved registers
    on the machine's state.  The report of a CPU exception is the sequence
    of console and serial calls the code makes; reads of the stack go to the
    memory the console also writes to.  The addresses of the entry stubs
    (interrupt.S) are parameters. *)
From S2P Require Import Prelude Bytes Memory Serial Graphics Screen ScreenProps Text Pfa Paging Pci Apic.
Import Serial Screen.

(** The console and the control registers of the machine *)
Class KernelState (W : Type) := {
  console : W -> screen;
  set_console : screen -> IO W unit;
  cr0 : W -> Z;
  cr2 : W -> Z;
  cr3 : W -> Z;
  lidt : Z -> Z -> IO W unit
}.

Module Idt.
Open Scope io_scope.

Record idt_entry := mkIdt { base_low : Z; sel : Z; always0 : Z; flags : Z; base_high : Z }.

(** [registers_t] *)
Record registers := mkRegs {
  gs : Z; fs : Z; es : Z; ds : Z;
  edi : Z; esi : Z; ebp : Z; esp : Z; ebx : Z; edx : Z; ecx : Z; eax : Z;
  int_no : Z; err_code : Z;
  eip : Z; cs : Z; eflags : Z; useresp : Z; ss : Z }.

Definition idt_set_entry (t : list idt_entry) (num base sel flags : Z) : list idt_entry :=
  <[Z.to_nat (u8 num) :=
      mkIdt (Z.land base 65535) sel 0 flags (Z.land (Z.shiftr base 16) 65535)]> t.

(** ** The report of an exception *)

Definition exception_names : list (list Z) :=
  [str "Division By Zero"; str "Debug"; str "Non-Maskable Interrupt"; str "Breakpoint"; str "Overflow";
   str "Bound Range Exceeded"; str "Invalid Opcode"; str "Device Not Available"; str "Double Fault";
   str "Coprocessor Segment Overrun"; str "Invalid TSS"; str "Segment Not Present"; str "Stack-Segment Fault";
   str "General Protection Fault"; str "Page Fault"; str "Reserved"; str "x87 Floating-Point Exception";
   str "Alignment Check"; str "Machine Check"; str "SIMD Floating-Point Exception";
   str "Virtualization Exception"; str "Reserved"; str "Reserved"; str "Reserved"; str "Reserved";
   str "Reserved"; str "Reserved"; str "Reserved"; str "Reserved"; str "Reserved"; str "Security Exception";
   str "Reserved"].

Definition dump_registers (regs : registers) (c0 c2 c3 : Z) (s : screen) : screen :=
  run_calls s
    [PrintString (str "EIP: "); PrintHex (eip regs);
     PrintString (str "  CS: "); PrintHex (cs regs);
     PrintString (str "  EFLAGS: "); PrintHex (eflags regs);
     PrintString (str "  userESP: "); PrintHex (useresp regs);
     PrintString (nl ++ nl);
     PrintString (str "EAX: "); PrintHex (eax regs);
     PrintString (str "  EBX: "); PrintHex (ebx regs);
     PrintString (str "  ECX: "); PrintHex (ecx regs);
     PrintString (str "  EDX: "); PrintHex (edx regs);
     PrintString nl;
     PrintString (str "ESI: "); PrintHex (esi regs);
     PrintString (str "  EDI: "); PrintHex (edi regs);
     PrintString (str "  EBP: "); PrintHex (ebp regs);
     PrintString (str "  ESP: "); PrintHex (esp regs);
     PrintString (str "  SS: "); PrintHex (ss regs);
     PrintString (nl ++ nl);
     PrintString (str "DS: "); PrintHex (ds regs);
     PrintString (str "  ES: "); PrintHex (es regs);
     PrintString (str "  FS: "); PrintHex (fs regs);
     PrintString (str "  GS: "); PrintHex (gs regs);
     PrintString nl;
     PrintString (str "CR0: "); PrintHex c0;
     PrintString (str "  CR2: "); PrintHex c2;
     PrintString (str "  CR3: "); PrintHex c3;
     PrintString nl].

(** One line of the stack dump *)
Definition stack_line (esp sp i : Z) (s : screen) : screen :=
  let addr := u32 (sp + i * 4) in
  let s := run_calls s [PrintHex addr; PrintString (str ": ")] in
  let s := if (u32 (esp - 16) <=? addr) && (addr <=? u32 (esp + 16))
           then print_string s (str "=> ") else print_string s (str "   ") in
  run_calls s [PrintHex (load32 (vram s) addr); PrintString nl].

Definition dump_stack (regs : registers) (s : screen) : screen :=
  let esp := if Z.land (cs regs) 3 =? 0 then esp regs else useresp regs in
  if esp =? 0 then s
  else
    let s := run_calls s [PrintString (str "Stack dump (user ESP="); PrintHex esp; PrintString (str "):" ++ nl)] in
    let sp := Z.land esp (u32 (Z.lnot 4095)) in
    for_up 64 0 1 (stack_line esp sp) s.

Definition dump_pagefault (regs : registers) (c2 : Z) (s : screen) : screen :=
  let ec := err_code regs in
  run_calls s
    [PrintString (str "CR2 (fault addr): "); PrintHex c2; PrintString nl;
     PrintString (str "Page fault: ");
     PrintString (if Z.testbit ec 0 then str "page-protection" else str "not-present");
     PrintString (str ", ");
     PrintString (if Z.testbit ec 1 then str "write" else str "read");
     PrintString (str ", ");
     PrintString (if Z.testbit ec 2 then str "user" else str "supervisor");
     PrintString nl].

(** [while (ebp && 0x10000 <= ebp && ebp < 0x90000 && depth < 16)], [n] is [16 - depth] *)
Fixpoint backtrace (n : nat) (ebp : Z) (s : screen) : screen :=
  match n with
  | O => s
  | S n =>
      if (65536 <=? ebp) && (ebp <? 589824) then
        let eip := load32 (vram s) (ebp + 4) in
        let s := run_calls s [PrintString (str "  ["); PrintHex eip; PrintString (str "]" ++ nl)] in
        backtrace n (load32 (vram s) ebp) s
      else s
  end.

Definition dump_backtrace (regs : registers) (s : screen) : screen :=
  backtrace 16 (ebp regs) (print_string s (str "Stack trace:" ++ nl)).

(** A call of the serial log *)
Inductive logged := LogString (l : list Z) | LogHex (n : Z).

Definition serial_call (o : trace) (c : logged) : trace :=
  match c with LogString l => serial_write_string o l | LogHex n => serial_write_hex o n end.

Definition exception_name (n : Z) : list Z := default [] (exception_names !! Z.to_nat n).

Definition serial_report (regs : registers) (c2 : Z) : list logged :=
  [LogString (nl ++ str "!!! CPU EXCEPTION !!!" ++ nl);
   LogString (str "Exception: "); LogHex (int_no regs);
   LogString (str " - ")] ++
  (if int_no regs <? 32 then [LogString (exception_name (int_no regs))] else []) ++
  [LogString nl;
   LogString (str "Error code: "); LogHex (err_code regs);
   LogString (str " EIP: "); LogHex (eip regs);
   LogString (str " CS: "); LogHex (cs regs);
   LogString (str " userESP: "); LogHex (useresp regs);
   LogString (str " SS: "); LogHex (ss regs);
   LogString nl;
   LogString (str "EAX="); LogHex (eax regs);
   LogString (str " EBX="); LogHex (ebx regs);
   LogString (str " ECX="); LogHex (ecx regs);
   LogString (str " EDX="); LogHex (edx regs);
   LogString nl;
   LogString (str "ESI="); LogHex (esi regs);
   LogString (str " EDI="); LogHex (edi regs);
   LogString (str " EBP="); LogHex (ebp regs);
   LogString nl;
   LogString (str "DS="); LogHex (ds regs);
   LogString (str " ES="); LogHex (es regs);
   LogString (str " FS="); LogHex (fs regs);
   LogString (str " GS="); LogHex (gs regs);
   LogString nl] ++
  (if int_no regs =? 14 then [LogString (str "CR2="); LogHex c2; LogString nl] else []).

(** Up to [cli; hlt] *)
Definition exception_handler (regs : registers) (c0 c2 c3 : Z) (s : screen) : screen :=
  let s := run_calls s
    [ClearScreen; PrintString (nl ++ str "!!! CPU EXCEPTION !!!" ++ nl ++ nl);
     PrintString (str "Exception: "); PrintHex (int_no regs); PrintString (str " - ");
     PrintString (if int_no regs <? 32 then exception_name (int_no regs) else str "Unknown");
     PrintString nl;
     PrintString (str "Error code: "); PrintHex (err_code regs); PrintString (nl ++ nl)] in
  let s := if int_no regs =? 14 then dump_pagefault regs c2 s else s in
  let s := dump_registers regs c0 c2 c3 s in
  let s := dump_backtrace regs s in
  let s := dump_stack regs s in
  let s := print_string s (nl ++ str "System halted." ++ nl) in
  with_log s (fold_left serial_call (serial_report regs c2) (log s)).

(** ** Dispatch *)

Inductive outcome := Returned | Halted.

Section dispatch.

Context {W : Type} `{Platform W} `{KernelState W}.

Abbreviation handler := (registers -> IO W unit).

Definition register_interrupt_handler (h : list (option handler)) (irq : Z) (f : handler) : list (option handler) :=
  <[Z.to_nat irq := Some f]> h.

Definition handler_of (h : list (option handler)) (n : Z) : option handler := h !! Z.to_nat n ≫= id.

Definition isr_handler (h : list (option handler)) (regs : registers) : IO W outcome :=
  match handler_of h (int_no regs) with
  | Some f => f regs ;;; io_ret Returned
  | None =>
      if int_no regs <? 32
      then fun w => let s := exception_handler regs (cr0 w) (cr2 w) (cr3 w) (console w) in
                    (set_console s ;;; io_ret Halted) w
      else io_ret Returned
  end.

Definition pic_eoi (n : Z) : IO W unit :=
  (if 40 <=? n then Pci.outb 160 32 else io_ret tt) ;;; Pci.outb 32 32.

Definition irq_handler (a : Apic.apic) (h : list (option handler)) (regs : registers) : IO W unit :=
  match handler_of h (int_no regs) with Some f => f regs | None => io_ret tt end ;;;
  if Apic.apic_enabled a
  then Apic.lapic_eoi a ;;; pic_eoi (int_no regs)
  else pic_eoi (int_no regs).

(** ** Initialisation *)

Definition irq_remap : IO W unit :=
  Pci.outb 32 17 ;;; Pci.outb 160 17 ;;;
  Pci.outb 33 32 ;;; Pci.outb 161 40 ;;;
  Pci.outb 33 4 ;;; Pci.outb 161 2 ;;;
  Pci.outb 33 1 ;;; Pci.outb 161 1 ;;;
  Pci.outb 33 252 ;;; Pci.outb 161 0.

(** The entry stubs: [isr n] for the exceptions, [irq n] for the sixteen
    lines, and the four others *)
Variables (isr irq : Z -> Z) (isr255 isr0x50 irq0x51 isr128 idt_addr : Z).

(** [idt_set_entry(i, f i, 0x08, 0x8E)] for [n] vectors from [i] on, which
    the code writes one by one *)
Definition set_gates (n : nat) (i : Z) (f : Z -> Z) (t : list idt_entry) : list idt_entry :=
  for_up n i 1 (fun i t => idt_set_entry t i (f i) 8 142) t.

Definition idt_table (t : list idt_entry) : list idt_entry :=
  let t := for_up 256 0 1 (fun i t => idt_set_entry t i 0 0 0) t in
  let t := set_gates 32 0 isr t in
  let t := set_gates 16 32 (fun i => irq (i - 32)) t in
  let t := idt_set_entry t 255 isr255 8 142 in
  let t := idt_set_entry t 80 isr0x50 8 142 in
  let t := idt_set_entry t 81 irq0x51 8 142 in
  idt_set_entry t 128 isr128 8 238.

Definition idt_install : IO W unit := lidt (256 * 8 - 1) idt_addr.

Definition init_idt (t : list idt_entry) : IO W (list idt_entry) :=
  let t := idt_table t in
  idt_install ;;; irq_remap ;;; sti ;;; io_ret t.

End dispatch.
End Idt.
