(* ===== verification/IdtProps.v ===== *)
(** * Properties of the interrupt tables

    What the processor makes of the gates of init_idt; the pair of 8259
    interrupt controllers as a state machine, after its data sheet, with the
    vectors they deliver after irq_remap and the acknowledgements of
    irq_handler. *)
From S2P Require Import Prelude Bytes Memory Serial Graphics Screen ScreenProps Text Pfa Paging Pci Apic Idt.

Import Idt Screen.
Open Scope io_scope.

(** ** Gates *)

(** A present gate: where it goes, with which segment, and the least
    privileged ring whose INT instruction may use it; [interrupt] tells
    interrupt gates (which clear the interrupt flag) from others. *)
Record gate := mkGate { target : Z; segment : Z; dpl : Z; interrupt : bool }.

Definition gate_of (e : idt_entry) : option gate :=
  if Z.testbit (flags e) 7
  then Some (mkGate (base_low e + 65536 * base_high e) (sel e) (flags e / 32 mod 4) (flags e mod 32 =? 14))
  else None.

Definition gate_at (t : list idt_entry) (v : Z) : option gate := t !! Z.to_nat v ≫= gate_of.

Lemma gate_at_set (t : list idt_entry) (num base s f v : Z) :
  length t = 256%nat -> 0 <= num < 256 -> 0 <= v < 256 ->
  gate_at (idt_set_entry t num base s f) v =
  if v =? num then gate_of (mkIdt (Z.land base 65535) s 0 f (Z.land (Z.shiftr base 16) 65535)) else gate_at t v.
Proof.
  intros Hl Hn Hv. unfold gate_at, idt_set_entry. rewrite u8_small by lia.
  destruct (Z.eqb_spec v num) as [->|Hne].
  - by rewrite list_lookup_insert_eq by lia.
  - by rewrite list_lookup_insert_ne by lia.
Qed.

Lemma length_set (t : list idt_entry) (num base s f : Z) : length (idt_set_entry t num base s f) = length t.
Proof. apply length_insert. Qed.

(** The loops of idt_table *)
Lemma gates_loop (n : nat) (i s f : Z) (g : Z -> Z) (t : list idt_entry) :
  length t = 256%nat -> 0 <= i -> i + Z.of_nat n <= 256 ->
  let t' := for_up n i 1 (fun i t => idt_set_entry t i (g i) s f) t in
  length t' = 256%nat /\
  forall v, 0 <= v < 256 -> gate_at t' v =
    if (i <=? v) && (v <? i + Z.of_nat n)
    then gate_of (mkIdt (Z.land (g v) 65535) s 0 f (Z.land (Z.shiftr (g v) 16) 65535)) else gate_at t v.
Proof.
  intros Hl Hi Hn t'.
  assert (HP : (fun k t' => length t' = 256%nat /\ forall v, 0 <= v < 256 -> gate_at t' v =
    if (i <=? v) && (v <? k)
    then gate_of (mkIdt (Z.land (g v) 65535) s 0 f (Z.land (Z.shiftr (g v) 16) 65535)) else gate_at t v)
    (i + Z.of_nat n * 1) t').
  { apply for_up_ind.
    - split; [done|]. intros v Hv. case_match; zbool; [lia|done].
    - intros k x Hk [Lx Hx]. split; [by rewrite length_set|]. intros v Hv.
      rewrite gate_at_set, Hx by lia. destruct (Z.eqb_spec v (i + k * 1)) as [->|].
      + by rewrite (proj2 (Z.leb_le _ _)), (proj2 (Z.ltb_lt _ _)) by lia.
      + repeat case_match; zbool; try done; lia. }
  cbv beta in HP. by rewrite Z.mul_1_r in HP.
Qed.

Lemma gate_decode (b f : Z) : 0 <= b < 4294967296 -> f = 142 \/ f = 238 ->
  gate_of (mkIdt (Z.land b 65535) 8 0 f (Z.land (Z.shiftr b 16) 65535)) =
  Some (mkGate b 8 (if f =? 238 then 3 else 0) true).
Proof.
  intros Hb Hf. unfold gate_of. cbn [flags base_low base_high sel].
  assert (Z.land b 65535 + 65536 * Z.land (Z.shiftr b 16) 65535 = b) as ->.
  { change 65535 with (Z.ones 16). rewrite !Z.land_ones, Z.shiftr_div_pow2 by lia. change (2 ^ 16) with 65536. div_mod_lia. }
  by destruct Hf as [-> | ->].
Qed.

(** C24: The interrupt descriptor table init_idt installs, as the processor
    reads it: exactly the 32 exceptions, the 16 lines of the interrupt
    controllers, the spurious vector, the two interprocessor interrupts and
    the system call have a gate; each gate goes to its own entry stub through
    the kernel's code segment with interrupts disabled; and the system call
    is the only one that a program in ring 3 may raise with an INT
    instruction, so user code can forge no other interrupt. *)
Theorem idt_gates (isr irq : Z -> Z) (isr255 isr0x50 irq0x51 isr128 : Z) (t : list idt_entry) (v : Z) :
  length t = 256%nat -> 0 <= v < 256 ->
  (forall n, 0 <= isr n < 4294967296) -> (forall n, 0 <= irq n < 4294967296) ->
  Forall (fun a => 0 <= a < 4294967296) [isr255; isr0x50; irq0x51; isr128] ->
  gate_at (idt_table isr irq isr255 isr0x50 irq0x51 isr128 t) v =
  if v <? 32 then Some (mkGate (isr v) 8 0 true)
  else if v <? 48 then Some (mkGate (irq (v - 32)) 8 0 true)
  else if v =? 80 then Some (mkGate isr0x50 8 0 true)
  else if v =? 81 then Some (mkGate irq0x51 8 0 true)
  else if v =? 128 then Some (mkGate isr128 8 3 true)
  else if v =? 255 then Some (mkGate isr255 8 0 true)
  else None.
Proof.
  intros Hl Hv Hisr Hirq Hs. repeat (apply Forall_cons in Hs as [? Hs]).
  unfold idt_table, set_gates.
  destruct (gates_loop 256 0 0 0 (fun _ => 0) t Hl) as [L1 G1]; [lia|lia|].
  set (t1 := for_up 256 _ _ _ _) in *.
  destruct (gates_loop 32 0 8 142 isr t1 L1) as [L2 G2]; [lia|lia|].
  set (t2 := for_up 32 _ _ _ _) in *.
  destruct (gates_loop 16 32 8 142 (fun i => irq (i - 32)) t2 L2) as [L3 G3]; [lia|lia|].
  set (t3 := for_up 16 _ _ _ _) in *.
  rewrite !gate_at_set by (rewrite ?length_set; done || lia).
  rewrite G3, G2, G1 by done. rewrite !gate_decode by auto.
  change (32 + Z.of_nat 16) with 48. change (0 + Z.of_nat 32) with 32. change (0 + Z.of_nat 256) with 256.
  clear -Hv. repeat case_match; try done; exfalso; lia.
Qed.

(** ** The interrupt controllers *)

(** One 8259: the initialisation word expected next (0 for none), the first
    vector, and the mask and in-service registers *)
Record chip := mkChip { icw : Z; vbase : Z; imr : Z; in_service : Z }.

(** A write to the command port: ICW1, or a non-specific end of interrupt,
    which ends the interrupt of highest priority in service *)
Definition chip_command (c : chip) (v : Z) : chip :=
  if Z.testbit v 4 then mkChip 2 (vbase c) 0 0
  else if v =? 32 then mkChip (icw c) (vbase c) (imr c) (Z.land (in_service c) (in_service c - 1))
  else c.

Definition chip_data (c : chip) (v : Z) : chip :=
  if icw c =? 2 then mkChip 3 (Z.land v 248) (imr c) (in_service c)
  else if icw c =? 3 then mkChip 4 (vbase c) (imr c) (in_service c)
  else if icw c =? 4 then mkChip 0 (vbase c) (imr c) (in_service c)
  else mkChip (icw c) (vbase c) v (in_service c).

(** Master and slave, the slave on the master's line 2 *)
Definition pics : Type := chip * chip.

Definition pic_out (p : pics) (port v : Z) : pics :=
  if port =? 32 then (chip_command (fst p) v, snd p)
  else if port =? 33 then (chip_data (fst p) v, snd p)
  else if port =? 160 then (fst p, chip_command (snd p) v)
  else if port =? 161 then (fst p, chip_data (snd p) v)
  else p.

(** Whether line [i] of the chip can interrupt, and the chip when it does *)
Definition can_raise (c : chip) (i : Z) : bool :=
  (icw c =? 0) && negb (Z.testbit (imr c) i) && (in_service c mod 2 ^ (i + 1) =? 0).

Definition raise (c : chip) (i : Z) : chip := mkChip (icw c) (vbase c) (imr c) (Z.lor (in_service c) (2 ^ i)).

(** Line [i] of the sixteen raised: the vector delivered *)
Definition acknowledge (p : pics) (i : Z) : option (Z * pics) :=
  if i <? 8 then
    if negb (i =? 2) && can_raise (fst p) i then Some (vbase (fst p) + i, (raise (fst p) i, snd p)) else None
  else if can_raise (snd p) (i - 8) && can_raise (fst p) 2
       then Some (vbase (snd p) + (i - 8), (raise (fst p) 2, raise (snd p) (i - 8))) else None.

(** The controllers of a machine; the local APIC's registers are elsewhere. *)
Class PicPair (W : Type) `{Platform W} := {
  pic : W -> pics;
  pic_out_law w port v : pic (snd (Pci.outb port v w)) = pic_out (pic w) port v;
  pic_mmio_law w a v : pic (snd (mmio_write a v w)) = pic w
}.

Section controllers.

Context {W : Type} `{PicPair W} `{KernelState W}.

Lemma pic_step (port v : Z) (w : W) :
  exists w', Pci.outb port v w = (tt, w') /\ pic w' = pic_out (pic w) port v.
Proof.
  destruct (Pci.outb port v w) as [[] w'] eqn:E. exists w'. split; [done|].
  by rewrite <- pic_out_law, E.
Qed.

Lemma remapped (w : W) :
  pic (snd (irq_remap w)) = (mkChip 0 32 252 0, mkChip 0 40 0 0).
Proof.
  unfold irq_remap, io_bind.
  repeat (match goal with |- context [Pci.outb ?p ?v ?x] =>
    destruct (pic_step p v x) as (? & -> & ?) end).
  cbn [snd]. repeat match goal with E : pic ?x = _ |- context [pic ?x] => rewrite E end.
  destruct (pic w) as [[? ? ? ?] [? ? ? ?]]. reflexivity.
Qed.

(** After an end of interrupt the controller is as before the interrupt:
    nothing of higher or equal priority was in service. *)
Lemma eoi_restores (c : chip) (i : Z) :
  0 <= i < 8 -> 0 <= in_service c < 256 -> can_raise c i = true -> chip_command (raise c i) 32 = c.
Proof.
  intros Hi Hs Hr. unfold can_raise in Hr. zbool.
  assert (Hall : forallb (fun i => forallb (fun s =>
    negb (s mod 2 ^ (i + 1) =? 0) || (Z.land (Z.lor s (2 ^ i)) (Z.lor s (2 ^ i) - 1) =? s)) (seqZ 0 256)) (seqZ 0 8) = true)
    by (vm_compute; reflexivity).
  rewrite forallb_forall in Hall. specialize (Hall i). rewrite forallb_forall in Hall.
  specialize (Hall ltac:(apply list_elem_of_In, elem_of_seqZ; lia) (in_service c)
    ltac:(apply list_elem_of_In, elem_of_seqZ; lia)).
  unfold chip_command, raise. cbn [icw vbase imr in_service]. change (Z.testbit 32 4) with false.
  cbn [Z.eqb Pos.eqb]. apply orb_true_iff in Hall as [Hall|Hall]; [apply negb_true_iff in Hall; lia|].
  apply Z.eqb_eq in Hall. destruct c. cbn [icw vbase imr in_service] in *. by f_equal.
Qed.

Definition ready (p : pics) : Prop :=
  vbase (fst p) = 32 /\ vbase (snd p) = 40 /\
  0 <= in_service (fst p) < 256 /\ 0 <= in_service (snd p) < 256.

Lemma pic_eoi_restores (p : pics) (i v : Z) (w : W) :
  ready p -> 0 <= i < 16 -> acknowledge p i = Some (v, pic w) -> pic (snd (pic_eoi v w)) = p.
Proof.
  intros (Hv1 & Hv2 & Hs1 & Hs2) Hi Ha. unfold acknowledge in Ha. unfold pic_eoi, io_bind.
  destruct p as [m s]. cbn [fst snd] in *. destruct (Z.ltb_spec i 8).
  - destruct (negb (i =? 2) && can_raise m i) eqn:E; [|done]. apply andb_true_iff in E as [_ E]. injection Ha as <- Hp.
    rewrite (proj2 (Z.leb_gt _ _)) by lia. cbn [io_ret].
    rewrite pic_out_law, <- Hp. unfold pic_out. cbn [Z.eqb Pos.eqb fst snd]. by rewrite eoi_restores by (done || lia).
  - destruct (can_raise s (i - 8) && can_raise m 2) eqn:E; [|done]. apply andb_true_iff in E as [E1 E2]. injection Ha as <- Hp.
    rewrite (proj2 (Z.leb_le _ _)) by lia. destruct (pic_step 160 32 w) as (w1 & -> & Hw1).
    rewrite pic_out_law, Hw1, <- Hp. unfold pic_out. cbn [Z.eqb Pos.eqb fst snd].
    by rewrite !eoi_restores by (done || lia).
Qed.

(** A handler that does not touch the interrupt controllers *)
Definition keeps_pic (f : registers -> IO W unit) : Prop := forall regs w, pic (snd (f regs w)) = pic w.

(** irq_handler: the registered handler, the APIC, then the controllers *)
Lemma irq_handler_eoi (a : Apic.apic) (h : list (option (registers -> IO W unit))) (regs : registers) (w : W) :
  (forall f, handler_of h (int_no regs) = Some f -> keeps_pic f) ->
  exists w1, pic w1 = pic w /\ irq_handler a h regs w = pic_eoi (int_no regs) w1.
Proof.
  intros Hh. unfold irq_handler, io_bind.
  set (m := match handler_of h (int_no regs) with Some f => f regs | None => io_ret tt end).
  assert (Hm : pic (snd (m w)) = pic w).
  { unfold m. destruct (handler_of h (int_no regs)) as [f|] eqn:E; [|done]. by apply (Hh f). }
  destruct (m w) as [u w1]. cbn [snd] in Hm.
  destruct (Apic.apic_enabled a) eqn:Ea; [|by exists w1].
  unfold Apic.lapic_eoi, Apic.lapic_write. rewrite Ea.
  destruct (mmio_write _ _ w1) as [u2 w2] eqn:E2. exists w2. split; [|done].
  pose proof (pic_mmio_law w1 (Apic.lapic a + 4 * (Apic.LAPIC_EOI / 4)) 0) as Hw2. rewrite E2 in Hw2. cbn [snd] in Hw2. congruence.
Qed.

(** C23: The interrupt controllers and their handler work together.  After
    irq_remap, from whatever state the firmware left, the controllers
    deliver the timer's line as vector 32, the keyboard's as vector 33 and
    nothing else (the slave's lines are unmasked, as the source says, but the
    line it is cascaded to is not).  And for every interrupt they deliver
    later, irq_handler, with or without an APIC and whatever handler is
    registered (if it leaves the controllers alone), acknowledges exactly
    that interrupt: the controllers are then as before it, so that no line
    stays blocked and none is acknowledged twice.  The reschedule interrupt,
    vector 81, comes from another processor: there irq_handler ends whatever
    the two controllers have in service, although neither delivered it. *)
Theorem irq_acknowledged (a : Apic.apic) (h : list (option (registers -> IO W unit))) (w0 : W) :
  (forall i v p, 0 <= i < 16 -> acknowledge (pic (snd (irq_remap w0))) i = Some (v, p) -> i = 0 /\ v = 32 \/ i = 1 /\ v = 33) /\
  (forall i, i = 0 \/ i = 1 -> acknowledge (pic (snd (irq_remap w0))) i <> None) /\
  (forall p i regs w, ready p -> 0 <= i < 16 ->
     acknowledge p i = Some (int_no regs, pic w) ->
     (forall f, handler_of h (int_no regs) = Some f -> keeps_pic f) ->
     pic (snd (irq_handler a h regs w)) = p) /\
  (forall regs w, int_no regs = 81 -> (forall f, handler_of h (int_no regs) = Some f -> keeps_pic f) ->
     pic (snd (irq_handler a h regs w)) = (chip_command (fst (pic w)) 32, chip_command (snd (pic w)) 32)).
Proof.
  split; [|split; [|split]].
  - intros i v p Hi. rewrite remapped.
    assert (Hall : forallb (fun i => match acknowledge (mkChip 0 32 252 0, mkChip 0 40 0 0) i with
      | Some (v, _) => (i =? 0) && (v =? 32) || (i =? 1) && (v =? 33) | None => true end) (seqZ 0 16) = true)
      by (vm_compute; reflexivity).
    rewrite forallb_forall in Hall. specialize (Hall i ltac:(apply list_elem_of_In, elem_of_seqZ; lia)).
    intros E. rewrite E in Hall. zbool; lia.
  - intros i Hi. rewrite remapped. by destruct Hi as [-> | ->].
  - intros p i regs w Hp Hi Ha Hh. destruct (irq_handler_eoi a h regs w Hh) as (w1 & Hw1 & ->).
    apply (pic_eoi_restores p i); [done|done|congruence].
  - intros regs w Hn Hh. destruct (irq_handler_eoi a h regs w Hh) as (w1 & Hw1 & ->). rewrite Hn.
    unfold pic_eoi, io_bind. cbn [Z.leb Z.compare Pos.compare Pos.compare_cont].
    destruct (pic_step 160 32 w1) as (w2 & -> & Hw2). rewrite pic_out_law, Hw2, Hw1.
    unfold pic_out. cbn [Z.eqb Pos.eqb fst snd]. by destruct (pic w) as [m s].
Qed.

End controllers.

(** ** The exception report *)

Definition regs_ok (r : registers) : Prop :=
  Forall (fun v => 0 <= v < 4294967296)
    [gs r; fs r; es r; ds r; edi r; esi r; ebp r; esp r; ebx r; edx r; ecx r; eax r;
     int_no r; err_code r; eip r; cs r; eflags r; useresp r; ss r].

Section report.

Context (C R : Z) (show : Z -> bool) (frame : Z -> Prop) (shows : screen -> term -> Prop).
Context `{!Console C R show frame shows}.

(** [s'] still displays some terminal, and differs from [s] inside the
    display's memory only. *)
Definition displays (s s' : screen) : Prop :=
  forall t, shows s t -> (exists t', shows s' t') /\ mem_same (vram s) (vram s') (fun a => ~ frame a).

Lemma displays_refl (s : screen) : displays s s.
Proof. intros t Ht. split; [by exists t|by intros a _]. Qed.

Lemma displays_trans (s1 s2 s3 : screen) : displays s1 s2 -> displays s2 s3 -> displays s1 s3.
Proof.
  intros H1 H2 t Ht. destruct (H1 t Ht) as [[t2 Ht2] M1]. destruct (H2 t2 Ht2) as [H3 M2].
  split; [done|]. by eapply mem_same_trans.
Qed.

Lemma displays_calls (ks : list call) (s : screen) : Forall (call_ok C R) ks -> displays s (run_calls s ks).
Proof.
  intros Hk t Ht. destruct (run_calls_shows C R show frame shows ks s t Ht Hk) as [Hs Hm]. eauto.
Qed.

Lemma displays_string (l : list Z) (s : screen) :
  Forall (fun c => 0 <= c < 256) l -> displays s (print_string s l).
Proof. intros Hl. apply (displays_calls [PrintString l]). by repeat constructor. Qed.

Lemma nl_range : Forall (fun c => 0 <= c < 256) nl.
Proof. repeat constructor; lia. Qed.

Lemma exception_name_range (n : Z) : Forall (fun c => 0 <= c < 256) (exception_name n).
Proof.
  unfold exception_name. destruct (exception_names !! Z.to_nat n) as [l|] eqn:E; [|constructor].
  assert (Ha : Forall (Forall (fun c => 0 <= c < 256)) exception_names) by (repeat (apply Forall_cons_2; [apply str_range|]); apply Forall_nil_2).
  exact (Forall_lookup_1 _ _ _ _ Ha E).
Qed.

(** The arguments of the report's calls are strings and 32-bit numbers. *)
Ltac calls_ok :=
  repeat first
    [ apply nl_range | apply str_range | apply exception_name_range
    | match goal with |- Forall _ (_ ++ _) => apply Forall_app_2 | |- Forall _ (_ :: _) => apply Forall_cons_2
                    | |- Forall _ [] => apply Forall_nil_2 end
    | progress cbn [call_ok] | exact I | assumption | apply load32_range | apply u32_range
    | match goal with |- context [if ?b then _ else _] => destruct b end ].

Lemma backtrace_displays (n : nat) (b : Z) (s : screen) : displays s (backtrace n b s).
Proof.
  revert b s; induction n as [|n IH]; intros b s; [apply displays_refl|]. cbn [backtrace].
  case_match; [|apply displays_refl]. eapply displays_trans; [|apply IH]. apply displays_calls. calls_ok.
Qed.

Lemma stack_line_displays (e sp i : Z) (s : screen) : displays s (stack_line e sp i s).
Proof.
  unfold stack_line. eapply displays_trans; [|apply displays_calls; calls_ok].
  destruct (_ && _); (eapply displays_trans; [|apply displays_string, str_range]);
    apply displays_calls; calls_ok.
Qed.

Lemma dump_stack_displays (r : registers) (s : screen) : regs_ok r -> displays s (dump_stack r s).
Proof.
  intros Hr. unfold dump_stack. unfold regs_ok in Hr. repeat (apply Forall_cons in Hr as [? Hr]).
  set (e := if Z.land (cs r) 3 =? 0 then esp r else useresp r).
  assert (0 <= e < 4294967296) by (unfold e; case_match; assumption).
  destruct (e =? 0); [apply displays_refl|].
  set (s1 := run_calls s _). apply (displays_trans s s1); [apply displays_calls; calls_ok|].
  apply (for_up_ind (fun _ s' => displays s1 s')); [apply displays_refl|].
  intros k x _ Hx. eapply displays_trans; [exact Hx|]. apply stack_line_displays.
Qed.

(** The report of an exception: whatever the registers hold and whatever is
    on the stack, it ends, and it writes to the display's own memory only,
    in text and in graphics mode. *)
Theorem exception_report_displays (r : registers) (c0 c2 c3 : Z) (s : screen) (t : term) :
  shows s t -> regs_ok r -> Forall (fun v => 0 <= v < 4294967296) [c0; c2; c3] ->
  (exists t', shows (exception_handler r c0 c2 c3 s) t') /\
  mem_same (vram s) (vram (exception_handler r c0 c2 c3 s)) (fun a => ~ frame a).
Proof.
  intros Ht Hr Hc. pose proof Hr as Hr'. unfold regs_ok in Hr'.
  repeat (apply Forall_cons in Hr' as [? Hr']). repeat (apply Forall_cons in Hc as [? Hc]).
  unfold exception_handler. set (s1 := run_calls s _).
  set (s2 := if int_no r =? 14 then _ else _). set (s3 := dump_registers _ _ _ _ _).
  set (s4 := dump_backtrace _ _). set (s5 := dump_stack _ _). set (s6 := print_string s5 _).
  assert (D : displays s s6).
  { unfold s6. eapply displays_trans; [|apply displays_string; calls_ok].
    unfold s5. eapply displays_trans; [|by apply dump_stack_displays].
    unfold s4, dump_backtrace. eapply displays_trans; [|apply backtrace_displays].
    eapply displays_trans; [|apply displays_string; calls_ok].
    unfold s3, dump_registers. eapply displays_trans; [|apply displays_calls; calls_ok].
    apply (displays_trans s s1 s2).
    - apply displays_calls. calls_ok.
    - unfold s2. case_match; [|apply displays_refl]. apply displays_calls. calls_ok. }
  destruct (D t Ht) as [[t' Ht'] Hm]. split; [|exact Hm]. exists t'. by eapply con_log.
Qed.

End report.

(** ** Witnesses *)

(** A machine that is nothing but the two controllers *)
#[local] Instance pics_machine : Pci.Machine pics := {
  Pci.inb _ := io_ret 0; inw _ := io_ret 0; inl _ := io_ret 0;
  Pci.outb port v := fun p => (tt, pic_out p port v); outw _ _ := io_ret tt; outl _ _ := io_ret tt;
  Pci.ram _ := ∅; set_ram _ := io_ret tt }.

#[local] Instance pics_platform : Platform pics := {
  mmio_read _ := io_ret 0; mmio_write _ _ := io_ret tt; rdmsr _ := io_ret (0, 0); wrmsr _ _ _ := io_ret tt;
  cli := io_ret tt; sti := io_ret tt; invlpg _ := io_ret tt; flush_tlb := io_ret tt }.

#[local] Instance pics_pair : PicPair pics.
Proof. refine {| pic p := p |}; reflexivity. Defined.

Definition irq_regs (n : Z) : registers := mkRegs 0 0 0 0 0 0 0 0 0 0 0 0 n 0 0 0 0 0 0.

(** A disk interrupt, line 14, with the slave's line unmasked, while nothing
    is in service *)
Lemma irq_acknowledged_witness :
  let p := (mkChip 0 32 0 0, mkChip 0 40 0 0) in
  acknowledge p 14 = Some (46, (mkChip 0 32 0 4, mkChip 0 40 0 64)) /\
  snd (irq_handler (Apic.mkApic 0 0 true) [] (irq_regs 46) (mkChip 0 32 0 4, mkChip 0 40 0 64)) = p.
Proof.
  split; [reflexivity|].
  destruct (irq_acknowledged (Apic.mkApic 0 0 true) [] (mkChip 0 0 0 0, mkChip 0 0 0 0)) as (_ & _ & E & _).
  apply (E (mkChip 0 32 0 0, mkChip 0 40 0 0) 14).
  - unfold ready. cbn. lia.
  - lia.
  - reflexivity.
  - done.
Defined.

Lemma idt_gates_witness :
  gate_at (idt_table (fun n => 4096 + 16 * u8 n) (fun n => 8192 + 16 * u8 n) 1 2 3 65541
             (replicate 256 (mkIdt 0 0 0 0 0))) 128 = Some (mkGate 65541 8 3 true).
Proof.
  rewrite (idt_gates (fun n => 4096 + 16 * u8 n) (fun n => 8192 + 16 * u8 n) 1 2 3 65541).
  - reflexivity.
  - reflexivity.
  - lia.
  - intros n. pose proof (u8_range n) as Hn. unfold is_byte in Hn. lia.
  - intros n. pose proof (u8_range n) as Hn. unfold is_byte in Hn. lia.
  - repeat constructor; lia.
Defined.
