(* ===== verification/ApStart.v ===== *)
(** * Several processors: kernel/ap_startup.c, TLB shootdown and interrupts between processors

    start_aps and ap_main, composed of the models of the tables of
    processors (Acpi.v), the tasks (Task.v), the segments (Gdt.v) and the
    local APIC (Apic.v).  [Smp] states what the kernel relies on of the
    interrupts between processors, after the processor manual: a processor
    that received INIT waits for a start-up interrupt, which makes it run
    from the page in the interrupt's vector; a fixed interrupt becomes
    pending at its targets. *)
From S2P Require Import Prelude Bytes Memory Lib FrameAlloc Pfa Paging Task Acpi Pci Gdt Apic Idt.
Import Paging Pfa Apic.

Module ApStart.
Open Scope io_scope.

Definition TRAMPOLINE_ADDR : Z := 458752.

Definition TRAMPOLINE_DATA : Z := TRAMPOLINE_ADDR + 512.

Definition CPU_RUNNING : Z := 1.

Section start.

Context {W : Type} `{Platform W} `{Idt.KernelState W}.

(** Where the linker puts the embedded trampoline, [ap_main],
    [task_idle_loop] and the tables *)
Variables (trampoline_start trampoline_size ap_main_addr idle_loop_addr : Z).
Variables (per_cpu_gdt_addr per_cpu_tss_addr cpu_info_addr idt_addr : Z).

Definition apic_id_at (c : Acpi.cpus) (i : Z) : Z :=
  match fst c !! Z.to_nat i with Some v => Acpi.apic_id v | None => 0 end.

(** The loop [for (i = ...; i < cpu_count; i++)], [n] more rounds *)
Fixpoint start_loop (n : nat) (a : apic) (c : Acpi.cpus) (i : Z) : IO W unit :=
  match n with
  | O => io_ret tt
  | S n => lapic_start_ap a (apic_id_at c i) (Z.shiftr TRAMPOLINE_ADDR 12) ;;; start_loop n a c (i + 1)
  end.

Definition start_aps (a : apic) (s : vm pfa) (c : Acpi.cpus) : IO W (vm pfa) :=
  if snd c <=? 1 then io_ret s
  else
    let s := snd (map_page s TRAMPOLINE_ADDR TRAMPOLINE_ADDR PAGE_WRITE) in
    let m := Lib.lib_memcpy (vmem s) TRAMPOLINE_ADDR trampoline_start trampoline_size in
    let m := store32 m TRAMPOLINE_DATA (cr3 s) in
    let m := store32 m (TRAMPOLINE_DATA + 4) ap_main_addr in
    start_loop (Z.to_nat (snd c - 1)) a c 1 ;;;
    io_ret (with_mem s m).

(** What ap_main changes besides the machine *)
Record ap := mkAp { infos : Acpi.cpus; tasks : Task.kernel; tables : Gdt.gdts; segs : Gdt.segs; local : apic }.

(** The search of the slot by APIC number *)
Definition find_cpu (c : Acpi.cpus) (apic_id : Z) : option Z :=
  find_up (Z.to_nat (snd c)) 0 (fun i => apic_id_at c i =? apic_id).

Definition set_info (c : Acpi.cpus) (i : Z) (f : Acpi.cpu_info_t -> Acpi.cpu_info_t) : Acpi.cpus :=
  (alter f (Z.to_nat i) (fst c), snd c).

(** [None] when the processor halts, otherwise the stack pointer it loads
    before the IRET into its idle task.  [acpi] is the result of
    acpi_get_lapic_addr; get_cpu_id reads the slot's own [cpu_id] through %gs. *)
Definition ap_main (p : ap) (acpi apic_id : Z) : IO W (option Z * ap) :=
  Idt.idt_install idt_addr ;;;
  match find_cpu (infos p) apic_id with
  | None => io_ret (None, p)
  | Some cpu_id =>
      let k := tasks p in
      let '(stack, fr) := Pfa.alloc_frames (frames (Task.mm k)) 2 in
      let k := Task.set_mm k (with_frames (Task.mm k) fr) in
      if stack =? 0 then io_ret (None, mkAp (infos p) k (tables p) (segs p) (local p))
      else
        let stack_top := u32 (stack + 8192) in
        let c := set_info (infos p) cpu_id (fun v =>
                   Acpi.mkCpu (Acpi.cpu_id v) (Acpi.apic_id v) (Acpi.state v) stack_top
                     (Acpi.current_task v) (Acpi.resched_pending v)) in
        let '(g, sg) := Gdt.gdt_init_percpu per_cpu_gdt_addr per_cpu_tss_addr cpu_info_addr
                          (tables p) (segs p) cpu_id in
        let g := Gdt.gdt_set_kernel_stack g cpu_id stack_top in
        let k := Task.gdt_set_kernel_stack k cpu_id stack_top in
        let '(idle, k) := Task.start_idle k cpu_id idle_loop_addr in
        let c := set_info c cpu_id (fun v =>
                   Acpi.mkCpu (Acpi.cpu_id v) (Acpi.apic_id v) CPU_RUNNING (Acpi.stack_top v)
                     idle (Acpi.resched_pending v)) in
        let own_id := match fst c !! Z.to_nat cpu_id with Some v => Acpi.cpu_id v | None => 0 end in
        r <- lapic_init (local p) (Task.mm k) acpi own_id ;;
        let '(a, s) := r in
        let k := Task.set_mm k s in
        io_ret (Some (Task.kernel_esp (Task.tsk k idle)), mkAp c k g sg a)
  end.

End start.
(** ** Interrupts between processors *)

Inductive ap_state := Off | WaitSipi | Started (page : Z).

(** A processor as the others see it; [tlb] tells which pages it caches. *)
Record processor := mkProc { ap_of : ap_state; pending : list Z; tlb : Z -> bool }.

Definition set_ap (p : processor) (s : ap_state) : processor := mkProc s (pending p) (tlb p).

(** The interrupt command [v] reaches a target: fixed (mode 0), INIT (mode
    5, ignored when it is the de-assertion) and start-up (mode 6) *)
Definition receive (p : processor) (v : Z) : processor :=
  let mode := v / 256 mod 8 in
  if mode =? 0 then mkProc (ap_of p) (v mod 256 :: pending p) (tlb p)
  else if mode =? 5 then if Z.testbit v 14 then set_ap p WaitSipi else p
  else if mode =? 6 then match ap_of p with WaitSipi => set_ap p (Started (v mod 256)) | _ => p end
  else p.

(** The destination shorthands: none (the number in the high half), and all
    but the sender *)
Definition targets (v high self id : Z) : bool :=
  if v / 262144 mod 4 =? 3 then negb (id =? self)
  else if v / 262144 mod 4 =? 0 then id =? high / 16777216
  else false.

Class Smp (W : Type) `{Platform W} := {
  (** where the local APIC is mapped, and the number of the processor that runs *)
  lapic_at : Z;
  self : W -> Z;
  icr_high : W -> Z;
  proc : W -> Z -> processor;
  high_law w v : exists w', mmio_write (lapic_at + LAPIC_ICR_HIGH) v w = (tt, w') /\
    icr_high w' = v /\ self w' = self w /\ proc w' = proc w;
  low_law w v : exists w', mmio_write (lapic_at + LAPIC_ICR_LOW) v w = (tt, w') /\ self w' = self w /\
    forall id, proc w' id = if targets v (icr_high w) (self w) id then receive (proc w id) v else proc w id;
  eoi_law w : exists w', mmio_write (lapic_at + LAPIC_EOI) 0 w = (tt, w') /\ self w' = self w /\ proc w' = proc w;
  cli_law w : exists w', cli w = (tt, w') /\ self w' = self w /\ proc w' = proc w;
  sti_law w : exists w', sti w = (tt, w') /\ self w' = self w /\ proc w' = proc w;
  invlpg_law w virt : exists w', invlpg virt w = (tt, w') /\ self w' = self w /\
    tlb (proc w' (self w)) (virt / 4096) = false /\ forall id, id <> self w -> proc w' id = proc w id;
  flush_law w : exists w', flush_tlb w = (tt, w') /\ self w' = self w /\
    (forall page, tlb (proc w' (self w)) page = false) /\ forall id, id <> self w -> proc w' id = proc w id
}.

Section smp.

Context {W : Type} `{Smp W}.

Lemma send_run (a : apic) (w : W) (id v : Z) : lapic a = lapic_at -> 0 <= id < 256 -> 0 <= v < 262144 ->
  exists w', lapic_send_ipi a id v w = (tt, w') /\ self w' = self w /\
    forall i, proc w' i = if i =? id then receive (proc w i) v else proc w i.
Proof.
  intros Ha Hid Hv. unfold lapic_send_ipi, lapic_write, io_bind. rewrite Ha.
  change (4 * (LAPIC_ICR_HIGH / 4)) with LAPIC_ICR_HIGH. change (4 * (LAPIC_ICR_LOW / 4)) with LAPIC_ICR_LOW.
  destruct (high_law w (u32 (Z.shiftl id 24))) as (w1 & -> & I1 & S1 & P1).
  destruct (low_law w1 v) as (w2 & -> & S2 & P2). exists w2. split; [done|]. split; [congruence|].
  intros i. rewrite P2, P1, I1. unfold targets.
  replace (v / 262144 mod 4) with 0 by (rewrite (Z.div_small v) by lia; done).
  change (0 =? 3) with false. change (0 =? 0) with true. cbv beta iota.
  replace (u32 (Z.shiftl id 24) / 16777216) with id; [done|].
  rewrite Z.shiftl_mul_pow2 by lia. change (2 ^ 24) with 16777216. cint.
Qed.

Lemma start_one (a : apic) (w : W) (id page : Z) : lapic a = lapic_at -> 0 <= id < 256 -> 0 <= page < 256 ->
  exists w', lapic_start_ap a id page w = (tt, w') /\ self w' = self w /\
    proc w' id = set_ap (proc w id) (Started page) /\ forall i, i <> id -> proc w' i = proc w i.
Proof.
  intros Ha Hid Hp. unfold lapic_start_ap, io_bind.
  assert (Hv : Z.lor 1536 page = 1536 + page).
  { change 1536 with (Z.shiftl 6 8). by rewrite lor_low by (change (2 ^ 8) with 256; lia). }
  destruct (cli_law w) as (w1 & -> & S1 & P1).
  destruct (send_run a w1 id 50432 Ha Hid ltac:(lia)) as (w2 & -> & S2 & P2).
  destruct (send_run a w2 id 34048 Ha Hid ltac:(lia)) as (w3 & -> & S3 & P3).
  destruct (send_run a w3 id (Z.lor 1536 page) Ha Hid ltac:(lia)) as (w4 & -> & S4 & P4).
  destruct (send_run a w4 id (Z.lor 1536 page) Ha Hid ltac:(lia)) as (w5 & -> & S5 & P5).
  destruct (sti_law w5) as (w6 & -> & S6 & P6).
  exists w6. split; [done|]. split; [congruence|]. rewrite P6. split.
  - rewrite P5, Z.eqb_refl, P4, Z.eqb_refl, P3, Z.eqb_refl, P2, Z.eqb_refl, P1, Hv.
    destruct (proc w id) as [st pend tl].
    assert (Hm : (1536 + page) / 256 mod 8 = 6) by div_mod_lia.
    assert (Hpg : (1536 + page) mod 256 = page) by div_mod_lia.
    unfold receive. rewrite Hm, Hpg. reflexivity.
  - intros i Hi. apply Z.eqb_neq in Hi. by rewrite P5, Hi, P4, Hi, P3, Hi, P2, Hi, P1.
Qed.

Lemma start_loop_run (n : nat) (a : apic) (c : Acpi.cpus) (i : Z) (w : W) :
  lapic a = lapic_at -> (forall j, i <= j < i + Z.of_nat n -> 0 <= apic_id_at c j < 256) ->
  exists w', start_loop n a c i w = (tt, w') /\ self w' = self w /\
    (forall j, i <= j < i + Z.of_nat n -> ap_of (proc w' (apic_id_at c j)) = Started 112) /\
    (forall id, (forall j, i <= j < i + Z.of_nat n -> apic_id_at c j <> id) -> proc w' id = proc w id) /\
    (forall id, ap_of (proc w id) = Started 112 -> ap_of (proc w' id) = Started 112).
Proof.
  intros Ha. revert i w; induction n as [|n IH]; intros i w Hid.
  { exists w. split; [done|]. split; [done|]. split; [lia|]. done. }
  cbn [start_loop]. unfold io_bind. change (Z.shiftr TRAMPOLINE_ADDR 12) with 112.
  destruct (start_one a w (apic_id_at c i) 112 Ha (Hid i ltac:(lia)) ltac:(lia)) as (w1 & -> & S1 & P1 & F1).
  destruct (IH (i + 1) w1) as (w2 & E2 & S2 & P2 & F2 & K2); [intros j Hj; apply Hid; lia|].
  exists w2. split; [done|]. split; [congruence|]. split; [|split].
  - intros j Hj. destruct (decide (j = i)) as [->|]; [|apply P2; lia]. apply K2. by rewrite P1.
  - intros id Hne. rewrite F2 by (intros j Hj; apply Hne; lia). apply F1. intros ->. by apply (Hne i); [lia|].
  - intros id Hst. apply K2. destruct (decide (id = apic_id_at c i)) as [->|]; [by rewrite P1|by rewrite F1].
Qed.

Lemma map_page_cr3 (s : vm pfa) (virt phys flags : Z) : cr3 (snd (map_page s virt phys flags)) = cr3 s.
Proof.
  unfold map_page, map_page_to_dir. destruct (present _); cbn [Z.eqb snd cr3 with_mem]; [done|].
  unfold create_table_in_dir. destruct (fa_alloc (frames s)) as [t fr].
  destruct (t =? 0) eqn:E; cbn [with_frames with_mem cr3 Z.eqb snd]; rewrite ?E; reflexivity.
Qed.

(** C26: start_aps starts the other processors.  When the firmware's tables
    list more than one, every processor after the first runs from the page
    at 0x70000 when start_aps returns, whatever state it was in before, and
    no other processor was touched.  The trampoline is complete at that
    page: the embedded code, the page directory and the address of ap_main
    in its data area, with no other memory changed than by mapping the page;
    with one processor nothing happens. *)
Theorem start_aps_starts (a : apic) (s : vm pfa) (c : Acpi.cpus) (start size main : Z) (w : W) :
  lapic a = lapic_at -> 0 <= size <= 512 -> start + size <= TRAMPOLINE_ADDR \/ TRAMPOLINE_ADDR + 4096 <= start ->
  0 <= cr3 s < 4294967296 -> 0 <= main < 4294967296 ->
  (forall j, 1 <= j < snd c -> 0 <= apic_id_at c j < 256) ->
  exists s' w', start_aps start size main a s c w = (s', w') /\
    (forall j, 1 <= j < snd c -> ap_of (proc w' (apic_id_at c j)) = Started (TRAMPOLINE_ADDR / 4096)) /\
    (forall id, (forall j, 1 <= j < snd c -> apic_id_at c j <> id) -> proc w' id = proc w id) /\
    (snd c <= 1 -> s' = s) /\
    (1 < snd c -> let m := vmem (snd (map_page s TRAMPOLINE_ADDR TRAMPOLINE_ADDR PAGE_WRITE)) in
       (forall i, 0 <= i < size -> load8 (vmem s') (TRAMPOLINE_ADDR + i) = load8 m (start + i)) /\
       load32 (vmem s') TRAMPOLINE_DATA = cr3 s /\ load32 (vmem s') (TRAMPOLINE_DATA + 4) = main /\
       mem_same m (vmem s') (fun x => x < TRAMPOLINE_ADDR \/ TRAMPOLINE_ADDR + 520 <= x)).
Proof.
  intros Ha Hsz Hov Hcr Hmain Hid. unfold start_aps. destruct (Z.leb_spec (snd c) 1) as [Hc|Hc].
  { exists s, w. split; [done|]. split; [lia|]. split; [done|]. split; [done|lia]. }
  destruct (start_loop_run (Z.to_nat (snd c - 1)) a c 1 w Ha) as (w1 & E & _ & P1 & F1 & _).
  { intros j Hj. apply Hid. lia. }
  unfold io_bind. rewrite E. do 2 eexists. split; [reflexivity|].
  split; [intros j Hj; apply P1; lia|]. split; [intros id Hne; apply F1; intros j Hj; apply Hne; lia|].
  split; [lia|]. intros _. set (s1 := snd (map_page s _ _ _)). cbn [vmem with_mem].
  assert (Hcr3 : cr3 s1 = cr3 s).
  { apply map_page_cr3. }
  destruct (Lib.lib_memcpy_spec (vmem s1) TRAMPOLINE_ADDR start size ltac:(lia)) as [Hcp Hsame].
  { unfold TRAMPOLINE_ADDR in *. lia. }
  set (m := Lib.lib_memcpy _ _ _ _) in *. rewrite Hcr3. unfold TRAMPOLINE_DATA. split; [|split; [|split]].
  - intros i Hi. rewrite !load8_store32_ne by (unfold TRAMPOLINE_ADDR; lia). by apply Hcp.
  - rewrite load32_store32_ne by (unfold TRAMPOLINE_ADDR; lia). rewrite load32_store32_eq. by apply u32_small.
  - rewrite load32_store32_eq. by apply u32_small.
  - intros x Hx. rewrite !load8_store32_ne by (unfold TRAMPOLINE_ADDR in *; lia). apply Hsame. lia.
Qed.

(** A shootdown on an APIC system drops the page from this processor's TLB
    and leaves the TLB interrupt pending at every other; its handler empties
    the TLB of the processor that runs it and touches no other. *)
Theorem tlb_shootdown_reaches_all (a : apic) (w : W) (virt : Z) :
  lapic a = lapic_at -> apic_enabled a = true ->
  (exists w', tlb_shootdown a virt w = (tt, w') /\ tlb (proc w' (self w)) (virt / 4096) = false /\
     forall id, id <> self w -> proc w' id = receive (proc w id) TLB_IPI_VECTOR) /\
  (exists w', tlb_ipi_handler a w = (tt, w') /\ (forall page, tlb (proc w' (self w)) page = false) /\
     forall id, id <> self w -> proc w' id = proc w id).
Proof.
  intros Ha He. split.
  - unfold tlb_shootdown, lapic_send_ipi_all_exc_self, lapic_write, io_bind. rewrite He, Ha.
    change (4 * (LAPIC_ICR_HIGH / 4)) with LAPIC_ICR_HIGH. change (4 * (LAPIC_ICR_LOW / 4)) with LAPIC_ICR_LOW.
    destruct (invlpg_law w virt) as (w1 & -> & S1 & T1 & F1).
    destruct (high_law w1 0) as (w2 & -> & I2 & S2 & P2).
    destruct (low_law w2 (Z.lor 786432 TLB_IPI_VECTOR)) as (w3 & -> & S3 & P3).
    assert (Hself : self w2 = self w) by congruence.
    exists w3. split; [done|]. split.
    + rewrite P3. change (targets _ _ _ _) with (negb (self w =? self w2)). by rewrite Hself, Z.eqb_refl, P2.
    + intros id Hne. rewrite P3. change (targets _ _ _ _) with (negb (id =? self w2)).
      rewrite Hself, (proj2 (Z.eqb_neq id (self w)) Hne), P2, F1 by done. reflexivity.
  - unfold tlb_ipi_handler, lapic_eoi, lapic_write, io_bind. rewrite He, Ha.
    change (4 * (LAPIC_EOI / 4)) with LAPIC_EOI. destruct (eoi_law w) as (w1 & -> & S1 & P1).
    destruct (flush_law w1) as (w2 & -> & S2 & T2 & F2). rewrite S1, P1 in *. eauto.
Qed.

End smp.
End ApStart.

(** ** A simulated board: an I/O APIC and the processors of eight local APICs *)

Import ApStart.

Record board := mkBoard { b_index : Z; b_reg : Z -> Z; b_high : Z; b_proc : Z -> processor }.

Definition board_write (addr v : Z) (b : board) : unit * board :=
  (tt,
   if addr =? IOAPIC_BASE_PHYS then mkBoard v (b_reg b) (b_high b) (b_proc b)
   else if addr =? IOAPIC_BASE_PHYS + 16 then
     mkBoard (b_index b) (fun r => if r =? b_index b then v else b_reg b r) (b_high b) (b_proc b)
   else if addr =? LAPIC_BASE_PHYS + LAPIC_ICR_HIGH then mkBoard (b_index b) (b_reg b) v (b_proc b)
   else if addr =? LAPIC_BASE_PHYS + LAPIC_ICR_LOW then
     mkBoard (b_index b) (b_reg b) (b_high b)
       (fun id => if targets v (b_high b) 0 id then receive (b_proc b id) v else b_proc b id)
   else b).

Definition board_tlb (f : Z -> bool) (b : board) : unit * board :=
  (tt, mkBoard (b_index b) (b_reg b) (b_high b)
         (fun id => if id =? 0 then mkProc (ap_of (b_proc b 0)) (pending (b_proc b 0)) f else b_proc b id)).

#[local] Instance board_machine : Pci.Machine board := {
  Pci.inb _ := io_ret 0; inw _ := io_ret 0; inl _ := io_ret 0;
  Pci.outb _ _ := io_ret tt; outw _ _ := io_ret tt; outl _ _ := io_ret tt;
  Pci.ram _ := ∅; set_ram _ := io_ret tt }.

#[local] Instance board_platform : Platform board := {
  mmio_read addr := fun b => (if addr =? IOAPIC_BASE_PHYS + 16 then b_reg b (b_index b) else 0, b);
  mmio_write := board_write; rdmsr _ := io_ret (0, 0); wrmsr _ _ _ := io_ret tt;
  cli := io_ret tt; sti := io_ret tt;
  invlpg virt := fun b => board_tlb (fun p => if p =? virt / 4096 then false else tlb (b_proc b 0) p) b;
  flush_tlb := board_tlb (fun _ => false) }.

#[local] Instance board_chip : IoApicChip board.
Proof.
  refine {| index := b_index; reg := b_reg; local_base := LAPIC_BASE_PHYS; local_id _ := 0 |}.
  - done.
  - intros w v. eexists. split; [reflexivity|]. done.
  - intros w. eexists. split; [reflexivity|]. done.
  - intros w v Hi. eexists. split; [reflexivity|]. done.
  - intros w a Ha. exists w. unfold lapic_read. rewrite Ha. done.
  - intros w p v Hp. eexists. split; [reflexivity|]. done.
Defined.

#[local] Instance board_smp : Smp board.
Proof.
  refine {| lapic_at := LAPIC_BASE_PHYS; self _ := 0; icr_high := b_high; proc := b_proc |}.
  - intros w v. eexists. split; [reflexivity|]. done.
  - intros w v. eexists. split; [reflexivity|]. done.
  - intros w. eexists. split; [reflexivity|]. done.
  - intros w. eexists. split; [reflexivity|]. done.
  - intros w. eexists. split; [reflexivity|]. done.
  - intros w virt. eexists. split; [reflexivity|]. split; [done|]. split.
    + cbn. by rewrite Z.eqb_refl.
    + intros id Hid. cbn. by rewrite (proj2 (Z.eqb_neq _ _) Hid).
  - intros w. eexists. split; [reflexivity|]. split; [done|]. split; [done|].
    intros id Hid. cbn. by rewrite (proj2 (Z.eqb_neq _ _) Hid).
Defined.

(** Version 0x11 with 24 entries, all of them unmasked *)
Definition board0 : board :=
  mkBoard 0 (fun r => if r =? 1 then 1507345 else 0) 0 (fun _ => mkProc Off [] (fun _ => true)).

Definition vm0 : vm pfa := mkVm ∅ 4096 4096 true (mkPfa [] 0).

Lemma ioapic_routes_witness :
  exists w, snd (ioapic_init (mkApic LAPIC_BASE_PHYS 0 true) vm0 board0) = w /\
    route_of w 1 = mkRoute 33 false true 0 /\ masked (route_of w 23) = true.
Proof.
  destruct (ioapic_routes (mkApic LAPIC_BASE_PHYS 0 true) vm0 board0) as (a' & s' & w' & E & _ & R1 & M).
  - vm_compute. discriminate.
  - reflexivity.
  - exists w'. split; [by rewrite E|]. split; [exact R1|]. apply M. vm_compute. split; discriminate.
Defined.

(** Two processors with APIC numbers 0 and 4 *)
Definition cpus0 : Acpi.cpus := ([Acpi.mkCpu 0 0 0 0 0 0; Acpi.mkCpu 1 4 0 0 0 0], 2).

Lemma start_aps_starts_witness :
  exists s' w', start_aps 1048576 300 12288 (mkApic LAPIC_BASE_PHYS 0 true) vm0 cpus0 board0 = (s', w') /\
    ap_of (proc w' 4) = Started 112 /\ ap_of (proc w' 0) = Off.
Proof.
  destruct (start_aps_starts (mkApic LAPIC_BASE_PHYS 0 true) vm0 cpus0 1048576 300 12288 board0)
    as (s' & w' & E & P & F & _).
  - reflexivity.
  - lia.
  - right. vm_compute. discriminate.
  - vm_compute. split; [discriminate|reflexivity].
  - lia.
  - cbn [snd cpus0]. intros j Hj. assert (j = 1) as -> by lia. vm_compute. split; [discriminate|reflexivity].
  - exists s', w'. split; [exact E|]. split.
    + apply (P 1). cbn [snd cpus0]. lia.
    + rewrite F; [reflexivity|]. cbn [snd cpus0]. intros j Hj. assert (j = 1) as -> by lia. discriminate.
Defined.
