(* ===== verification/Timer.v ===== *)
(** * kernel/cpu/timer.c: programming the timer, and sleeping

    The interrupt handlers are modelled with the tasks (Task.v).  Here are
    init_timer and sleep_ms.  sleep_ms reads a counter that the interrupt
    handler changes: [ticks n] is the value its [n]-th read sees. *)
From S2P Require Import Prelude Bytes Pfa Paging Pci Apic Serial Screen ScreenProps Idt.

Module Timer.
Open Scope io_scope.

Definition PIT_CONTROL : Z := 67.

Definition PIT_CHANNEL0 : Z := 64.

Definition PIT_FREQ : Z := 1193182.

(** [tick_count] and [tick_ms] *)
Record timer := mkTimer { tick_count : Z; tick_ms : Z }.

Section init.

Context {W : Type} `{Machine W}.

(** [None] for the division by zero.  The table of handlers gets the timer's
    handler and the one of the reschedule interrupt. *)
Definition init_timer (timer_handler resched_ipi_handler : Idt.registers -> IO W unit)
    (h : list (option (Idt.registers -> IO W unit))) (freq : Z) :
    option (IO W (timer * list (option (Idt.registers -> IO W unit)))) :=
  if freq =? 0 then None
  else Some (
    let t := mkTimer 0 (1000 / freq) in
    let divisor := PIT_FREQ / freq in
    outb PIT_CONTROL 54 ;;;
    outb PIT_CHANNEL0 (Z.land divisor 255) ;;;
    outb PIT_CHANNEL0 (Z.land (Z.shiftr divisor 8) 255) ;;;
    let h := Idt.register_interrupt_handler h 32 timer_handler in
    let h := Idt.register_interrupt_handler h 81 resched_ipi_handler in
    io_ret (t, h)).

End init.

Definition get_ticks (t : timer) : Z := tick_count t.

(** [ticks_to_wait]; [None] for the division by zero *)
Definition ticks_to_wait (t : timer) (ms : Z) : option Z :=
  if u32 (4294967295 - u32 (tick_ms t - 1)) <? ms then Some 4294967295
  else if tick_ms t =? 0 then None
  else Some (u32 (u32 (ms + tick_ms t) - 1) / tick_ms t).

(** [while ((tick_count - start) < ticks_to_wait);] from read [n] on: the
    number of the read that ended it *)
Fixpoint wait_loop (fuel : nat) (ticks : nat -> Z) (start wait : Z) (n : nat) : option nat :=
  match fuel with
  | O => None
  | S fuel => if u32 (ticks n - start) <? wait then wait_loop fuel ticks start wait (S n) else Some n
  end.

Definition sleep_ms (fuel : nat) (t : timer) (ticks : nat -> Z) (ms : Z) : option nat :=
  let start := ticks O in
  match ticks_to_wait t ms with
  | None => None
  | Some wait => wait_loop fuel ticks start wait 1
  end.

(** The counter goes on for ever and wraps at 32 bits; between two reads it
    advances by at most [gap] ticks, for which the task may be preempted.
    [elapsed n] is the number of ticks since read 0. *)
Record clock (gap : Z) (ticks : nat -> Z) (elapsed : nat -> Z) : Prop := {
  clock_start : elapsed O = 0;
  clock_step n : elapsed n <= elapsed (S n) <= elapsed n + gap;
  clock_goes_on k : exists n, k <= elapsed n;
  clock_reads n : ticks n = u32 (ticks O + elapsed n)
}.

Section wait.

Context (gap : Z) (ticks : nat -> Z) (elapsed : nat -> Z) (Hc : clock gap ticks elapsed).

Lemma elapsed_pos (n : nat) : 0 <= elapsed n.
Proof. induction n as [|n IH]; [by rewrite (clock_start _ _ _ Hc)|]. pose proof (clock_step _ _ _ Hc n). lia. Qed.

Lemma read_diff (n : nat) : elapsed n < 4294967296 -> u32 (ticks n - ticks O) = elapsed n.
Proof.
  intros Hn. pose proof (elapsed_pos n). rewrite (clock_reads _ _ _ Hc n). unfold u32.
  rewrite Zminus_mod_idemp_l. replace (ticks O + elapsed n - ticks O) with (elapsed n) by lia.
  apply Z.mod_small. lia.
Qed.

(** The loop ends at the first read that sees [wait] ticks. *)
Lemma wait_loop_ends (wait : Z) (k n : nat) :
  0 <= wait -> wait + gap <= 4294967296 -> wait <= elapsed (n + k) ->
  (forall i, (i < n)%nat -> elapsed i < wait \/ i = O) -> elapsed n < wait + gap \/ n = 1%nat /\ elapsed n < 4294967296 ->
  exists m, wait_loop (S k) ticks (ticks O) wait n = Some m /\ (n <= m)%nat /\ wait <= elapsed m /\
    (forall i, (1 <= i < m)%nat -> elapsed i < wait).
Proof.
  intros Hw Hg. revert n; induction k as [|k IH]; intros n Hk Hb Hn.
  all: assert (Hr : u32 (ticks n - ticks O) = elapsed n) by
    (apply read_diff; lia).
  all: cbn [wait_loop]; rewrite Hr; destruct (Z.ltb_spec (elapsed n) wait).
  - rewrite Nat.add_0_r in Hk. lia.
  - exists n. split; [done|]. split; [lia|]. split; [lia|]. intros i Hi. destruct (Hb i); lia.
  - destruct (IH (S n)) as (m & E & Hm & Hw' & Hlt).
    + by replace (S n + k)%nat with (n + S k)%nat by lia.
    + intros i Hi. destruct (decide (i = n)) as [->|]; [by left|apply Hb; lia].
    + left. pose proof (clock_step _ _ _ Hc n). lia.
    + exists m. split; [exact E|]. split; [lia|]. done.
  - exists n. split; [done|]. split; [lia|]. split; [lia|]. intros i Hi. destruct (Hb i); lia.
Qed.

End wait.

Lemma ticks_to_wait_ceil (t : timer) (ms : Z) : 0 < tick_ms t < 4294967296 -> 0 <= ms < 4294967296 ->
  ticks_to_wait t ms = Some (if 4294967296 - tick_ms t <? ms then 4294967295 else (ms + tick_ms t - 1) / tick_ms t).
Proof.
  intros Ht Hm. unfold ticks_to_wait. rewrite (u32_small (tick_ms t - 1)), (u32_small (4294967295 - _)) by lia.
  replace (4294967295 - (tick_ms t - 1)) with (4294967296 - tick_ms t) by lia.
  destruct (Z.ltb_spec (4294967296 - tick_ms t) ms); [done|].
  rewrite (proj2 (Z.eqb_neq _ _)) by lia. do 2 f_equal.
  unfold u32. rewrite Zminus_mod_idemp_l. apply Z.mod_small. lia.
Qed.

(** The ticks a sleep of [ms] milliseconds lasts: rounded up, or the longest
    time the counter can measure *)
Definition sleep_ticks (t : timer) (ms : Z) : Z :=
  if 4294967296 - tick_ms t <? ms then 4294967295 else (ms + tick_ms t - 1) / tick_ms t.

Lemma sleep_ticks_range (t : timer) (ms : Z) : 0 < tick_ms t < 4294967296 -> 0 <= ms < 4294967296 ->
  0 <= sleep_ticks t ms /\
  (ms <= 4294967296 - tick_ms t -> ms <= sleep_ticks t ms * tick_ms t < ms + tick_ms t).
Proof.
  intros Ht Hm. unfold sleep_ticks. destruct (Z.ltb_spec (4294967296 - tick_ms t) ms); [lia|].
  pose proof (Z.mod_pos_bound (ms + tick_ms t - 1) (tick_ms t) ltac:(lia)).
  pose proof (Z.div_mod (ms + tick_ms t - 1) (tick_ms t) ltac:(lia)).
  set (q := (ms + tick_ms t - 1) / tick_ms t) in *. nia.
Qed.

(** C27: sleep_ms ends, and not too early.  With a timer of at most 1000 Hz
    (a tick of at least a millisecond), on a counter that goes on for ever,
    whatever its value when the call is made (it may wrap around during the
    wait), and however long, up to [gap] ticks, the task is preempted between
    two reads, the busy wait ends at exactly the first read that sees the
    number of milliseconds, rounded up to whole ticks; for more than 2^32 -
    tick_ms milliseconds it waits for 2^32 - 1 ticks instead.  The wait and
    the gap together must fit 32 bits: a task that is away for longer may see
    the counter wrap and miss the end. *)
Theorem sleep_waits (gap : Z) (ticks : nat -> Z) (elapsed : nat -> Z) (t : timer) (ms : Z) :
  clock gap ticks elapsed -> 0 < tick_ms t < 4294967296 -> 0 <= ms < 4294967296 ->
  0 < gap < 4294967296 -> sleep_ticks t ms + gap <= 4294967296 ->
  (exists fuel n, sleep_ms fuel t ticks ms = Some n /\ sleep_ticks t ms <= elapsed n /\
    (forall i, (1 <= i < n)%nat -> elapsed i < sleep_ticks t ms)) /\
  (ms <= 4294967296 - tick_ms t -> ms <= sleep_ticks t ms * tick_ms t < ms + tick_ms t).
Proof.
  intros Hc Ht Hm Hg Hw. destruct (sleep_ticks_range t ms Ht Hm) as [H0 Hr]. split; [|exact Hr].
  unfold sleep_ms. rewrite ticks_to_wait_ceil by done. fold (sleep_ticks t ms).
  destruct (clock_goes_on _ _ _ Hc (sleep_ticks t ms)) as [k Hk].
  pose proof (clock_step _ _ _ Hc 0%nat) as H1. rewrite (clock_start _ _ _ Hc) in H1.
  destruct (wait_loop_ends gap ticks elapsed Hc (sleep_ticks t ms) k 1 H0 Hw) as (m & E & _ & Hw' & Hlt).
  - pose proof (clock_step _ _ _ Hc k). replace (1 + k)%nat with (S k) by lia. lia.
  - intros i Hi. right. lia.
  - right. split; [done|lia].
  - exists (S k), m. auto.
Qed.

(** 100 Hz; the counter is about to wrap; the task sees two ticks at every
    third read. *)
Lemma sleep_waits_witness :
  sleep_ms 100 (mkTimer 0 10) (fun n => u32 (4294967295 + 2 * (Z.of_nat n / 3))) 45 = Some 9%nat /\
  exists fuel n, sleep_ms fuel (mkTimer 0 10) (fun n => u32 (4294967295 + 2 * (Z.of_nat n / 3))) 45 = Some n /\
    5 <= 2 * (Z.of_nat n / 3).
Proof.
  split; [vm_compute; reflexivity|].
  destruct (sleep_waits 2 (fun n => u32 (4294967295 + 2 * (Z.of_nat n / 3))) (fun n => 2 * (Z.of_nat n / 3)) (mkTimer 0 10) 45)
    as ((fuel & n & E & Hw & _) & _).
  - split.
    + reflexivity.
    + intros n. pose proof (Z.div_mod (Z.of_nat n) 3 ltac:(lia)). pose proof (Z.mod_pos_bound (Z.of_nat n) 3 ltac:(lia)).
      pose proof (Z.div_mod (Z.of_nat (S n)) 3 ltac:(lia)). pose proof (Z.mod_pos_bound (Z.of_nat (S n)) 3 ltac:(lia)). lia.
    + intros k. exists (Z.to_nat (3 * Z.max 0 k)). rewrite Z2Nat.id by lia. rewrite Z.mul_comm, (Z.mul_comm 3), Z.div_mul by lia. lia.
    + intros n. unfold u32. by rewrite Zplus_mod_idemp_l.
  - cbn. lia.
  - lia.
  - lia.
  - vm_compute. discriminate.
  - exists fuel, n. split; [exact E|exact Hw].
Defined.

(** With a timer faster than 1000 Hz a tick counts as zero milliseconds:
    sleep_ms(0) divides by zero and every other sleep waits for 2^32 - 1
    ticks. *)
Lemma fast_timer_sleeps (freq ms : Z) : 1000 < freq -> 0 <= ms ->
  ticks_to_wait (mkTimer 0 (1000 / freq)) ms = if ms =? 0 then None else Some 4294967295.
Proof.
  intros Hf Hm. rewrite Z.div_small by lia. unfold ticks_to_wait. cbn [tick_ms].
  change (u32 (4294967295 - u32 (0 - 1))) with 0. destruct (Z.ltb_spec 0 ms), (Z.eqb_spec ms 0); try done; lia.
Qed.

End Timer.
