(* ===== verification/Readline.v ===== *)
(** * The command line of kernel/kernel.c: history_add, read_char_any and readline

    The line is edited in the caller's buffer [buf], which the code does not
    keep terminated while it edits; [saved] and the rows of [history] are
    only read and written as strings.  The characters come from
    read_char_any.  The console calls are collected in order. *)
From S2P Require Import Prelude Bytes Memory Serial Graphics Screen ScreenProps Text Keyboard.
Import Serial Keyboard.

Module Readline.

Definition LINE_BUF : Z := 256.

Definition HISTORY_SIZE : Z := 16.

(** [history] and [history_count] *)
Record history_t := mkHist { history : list (list Z); history_count : Z }.

Definition row (h : history_t) (i : Z) : list Z := default [] (history h !! Z.to_nat i).

Definition set_row (h : history_t) (i : Z) (s : list Z) : history_t :=
  mkHist (<[Z.to_nat i := s]> (history h)) (history_count h).

Definition set_count (h : history_t) (n : Z) : history_t := mkHist (history h) n.

Definition history_add (h : history_t) (buf : list Z) : history_t :=
  match buf with
  | [] => h
  | _ =>
      if (0 <? history_count h) && bool_decide (buf = row h (history_count h - 1)) then h
      else if HISTORY_SIZE <=? history_count h then
        let h := for_up (Z.to_nat (HISTORY_SIZE - 1)) 0 1 (fun i h => set_row h i (row h (i + 1))) h in
        let h := set_count h (HISTORY_SIZE - 1) in
        set_row h (history_count h) buf
      else
        let h := if history_count h <? HISTORY_SIZE then set_count h (history_count h + 1) else h in
        let n := history_count h in
        let h := for_up (Z.to_nat (n - 1)) (n - 1) (-1) (fun i h => set_row h i (row h (i - 1))) h in
        set_row h 0 buf
  end.

(** One round of read_char_any: a character from the keyboard's queue, or
    [serial], what the serial port has, or nothing *)
Definition read_char_any (k : kb) (serial : option Z) : option Z * kb :=
  let '(c, k) := get_char k in
  if negb (c =? 0) then (Some c, k)
  else
    match serial with
    | Some c => (Some (if c =? 13 then 10 else c), k)
    | None => (None, k)
    end.

(** ** Editing *)

Record edit := mkEdit { buf : list Z; len : Z; pos : Z; hist_pos : Z; saved : list Z }.

(** [lib_strcpy(buf, s)] into the buffer *)
Definition fill (buf s : list Z) : list Z := s ++ 0 :: drop (S (length s)) buf.

Inductive key_result :=
  | More (e : edit)
  | Line (line : list Z) (h : history_t).

Definition print_row (s : list Z) : list call := map PrintChar s.

(** [set_cursor; spaces over the old line; set_cursor] *)
Definition erase (x y n : Z) : list call :=
  SetCursor x y :: replicate (Z.to_nat n) (PrintChar 32) ++ [SetCursor x y].

(** [buf] filled with the string [s], which is shown *)
Definition show_line (e : edit) (hp : Z) (sv s : list Z) (x y : Z) : list call * key_result :=
  let n := Z.of_nat (length s) in
  (erase x y (len e) ++ print_row s, More (mkEdit (fill (buf e) s) n n hp sv)).

Definition cursor_at (x y p : Z) : call :=
  let vp := x + p in SetCursor (Z.rem vp 80) (y + Z.quot vp 80).

(** The loop's body for character [c]; [x], [y] is where the line starts on
    the screen *)
Definition readline_key (max x y : Z) (h : history_t) (e : edit) (c : Z) : list call * key_result :=
  let e := if len e <? pos e then mkEdit (buf e) (len e) (len e) (hist_pos e) (saved e) else e in
  let b := buf e in
  if (c =? KEY_UP) && (0 <? history_count h) then
    if hist_pos e =? -1 then show_line e 0 (until_nul b) (row h 0) x y
    else if hist_pos e <? history_count h - 1
    then show_line e (hist_pos e + 1) (saved e) (row h (hist_pos e + 1)) x y
    else ([], More e)
  else if c =? KEY_DOWN then
    if hist_pos e =? -1 then ([], More e)
    else
      let hp := hist_pos e - 1 in
      show_line e hp (saved e) (if 0 <=? hp then row h hp else saved e) x y
  else if c =? KEY_LEFT then
    if 0 <? pos e
    then ([PrintString [8]], More (mkEdit b (len e) (pos e - 1) (hist_pos e) (saved e)))
    else ([], More e)
  else if c =? KEY_RIGHT then
    if pos e <? len e
    then ([PrintChar (byte_at b (pos e))], More (mkEdit b (len e) (pos e + 1) (hist_pos e) (saved e)))
    else ([], More e)
  else if c =? 3 then ([PrintString (str "^C" ++ nl)], Line [] h)
  else if c =? 10 then
    let b := set_byte b (len e) 0 in
    ([PrintChar 10], Line (until_nul b) (history_add h (until_nul b)))
  else if c =? 8 then
    if 0 <? pos e then
      let b := for_up (Z.to_nat (len e - pos e)) (pos e - 1) 1 (fun i b => set_byte b i (byte_at b (i + 1))) b in
      let e := mkEdit b (len e - 1) (pos e - 1) (hist_pos e) (saved e) in
      (SetCursor x y :: print_row (take (Z.to_nat (len e)) b) ++ [PrintChar 32; cursor_at x y (pos e)], More e)
    else ([], More e)
  else if len e <? max - 2 then
    let b := for_up (Z.to_nat (len e - pos e)) (len e) (-1) (fun i b => set_byte b i (byte_at b (i - 1))) b in
    let b := set_byte b (pos e) c in
    let e := mkEdit b (len e + 1) (pos e + 1) (hist_pos e) (saved e) in
    (SetCursor x y :: print_row (take (Z.to_nat (len e)) b) ++ [cursor_at x y (pos e)], More e)
  else ([], More e).

(** The loop over the characters that arrive: the calls, and the line with
    the new history once it is complete *)
Fixpoint readline_loop (max x y : Z) (h : history_t) (e : edit) (keys : list Z) :
    list call * option (list Z * history_t) :=
  if max - 1 <=? len e then ([], Some (until_nul (set_byte (buf e) (len e) 0), h))
  else
    match keys with
    | [] => ([], None)
    | c :: keys =>
        match readline_key max x y h e c with
        | (out, Line l h) => (out, Some (l, h))
        | (out, More e) => let '(out', r) := readline_loop max x y h e keys in (out ++ out', r)
        end
    end.

(** [b] is what the caller's buffer holds. *)
Definition readline (b : list Z) (max x y : Z) (h : history_t) (keys : list Z) :
    list call * option (list Z * history_t) :=
  if max <=? 0 then ([], Some ([], h))
  else readline_loop max x y h (mkEdit (set_byte b 0 0) 0 0 (-1) []) keys.

End Readline.
