(* ===== verification/ReadlineProps.v ===== *)
(** * readline refines a line editor

    The editor of the specification is a text with a cursor and, when a line
    of the history is shown, its number.  readline edits in place, in a
    buffer that holds anything beyond the line. *)
From S2P Require Import Prelude Bytes Memory Serial Graphics Screen ScreenProps Text Keyboard Readline.

Import Serial Keyboard Readline.

(** ** The specification *)

Record zip := mkZip { text : list Z; cur : nat; shown : option nat }.

Inductive zresult :=
  | ZMore (z : zip)
  | ZLine (l : list Z)
  | ZOutside.

Definition zrow (h : history_t) (i : nat) : list Z := default [] (history h !! i).

Definition zshow (h : history_t) (i : nat) : zresult :=
  ZMore (mkZip (zrow h i) (length (zrow h i)) (Some i)).

(** The up key (code 1) without a history is an ordinary character, and code
    3, which a terminal sends for control-C, is the left arrow.  Outside the
    specification is going back down from the first line of the history to
    the line that was typed: what it restores depends on what the buffer held
    behind the line. *)
Definition zkey (h : history_t) (z : zip) (c : Z) : zresult :=
  let '(mkZip t k s) := z in
  if (c =? KEY_UP) && (0 <? history_count h) then
    match s with
    | None => zshow h 0
    | Some i => if Z.of_nat i + 1 <? history_count h then zshow h (S i) else ZMore z
    end
  else if c =? KEY_DOWN then
    match s with
    | None => ZMore z
    | Some (S i) => zshow h i
    | Some O => ZOutside
    end
  else if c =? KEY_LEFT then ZMore (mkZip t (Nat.pred k) s)
  else if c =? KEY_RIGHT then ZMore (mkZip t (Nat.min (S k) (length t)) s)
  else if c =? 10 then ZLine t
  else if c =? 8 then ZMore (mkZip (take (Nat.pred k) t ++ drop k t) (Nat.pred k) s)
  else if (length t <? 254)%nat then ZMore (mkZip (take k t ++ c :: drop k t) (S k) s)
  else ZMore z.

Fixpoint zrun (h : history_t) (z : zip) (keys : list Z) : option (list Z) :=
  match keys with
  | [] => None
  | c :: keys =>
      match zkey h z c with
      | ZMore z => zrun h z keys
      | ZLine l => Some l
      | ZOutside => None
      end
  end.

(** ** Shifting in the buffer *)

Lemma byte_at_app (l r : list Z) (a i : Z) : i = Z.of_nat (length l) -> byte_at (l ++ a :: r) i = a.
Proof. intros ->. unfold byte_at. rewrite Nat2Z.id, lookup_app_r, Nat.sub_diag by lia. done. Qed.

Lemma set_byte_app (l r : list Z) (a v i : Z) :
  i = Z.of_nat (length l) -> set_byte (l ++ a :: r) i v = l ++ u8 v :: r.
Proof. intros ->. unfold set_byte. rewrite Nat2Z.id, insert_app_r_alt, Nat.sub_diag by lia. done. Qed.

(** [for (i = len; i > pos; i--) buf[i] = buf[i - 1];] *)
Lemma shift_right (r l rest : list Z) (x i : Z) :
  is_bytes r -> i = Z.of_nat (length l + length r) ->
  exists y, for_up (length r) i (-1) (fun i b => set_byte b i (byte_at b (i - 1))) (l ++ r ++ x :: rest) =
    l ++ y :: r ++ rest.
Proof.
  revert x rest i; induction r as [|a r IH] using rev_ind; intros x rest i Hb Hi.
  { exists x. done. }
  apply Forall_app in Hb as [Hb Ha]. apply Forall_cons in Ha as [Ha _].
  rewrite length_app in *. cbn [length] in *. rewrite Nat.add_1_r in *. cbn [for_up].
  set (L := l ++ (r ++ [a]) ++ x :: rest).
  assert (Hget : byte_at L (i - 1) = a).
  { unfold L. replace (l ++ (r ++ [a]) ++ x :: rest) with ((l ++ r) ++ a :: x :: rest) by (by rewrite <- !app_assoc).
    apply byte_at_app. rewrite length_app. lia. }
  assert (Hset : set_byte L i a = l ++ r ++ a :: a :: rest).
  { unfold L. rewrite (app_assoc l). rewrite set_byte_app by (rewrite !length_app; cbn [length]; lia).
    rewrite u8_small by exact Ha. by rewrite <- !app_assoc. }
  rewrite Hget, Hset.
  destruct (IH a (a :: rest) (i + -1) Hb) as [y Hy]; [lia|]. exists y. rewrite Hy. by rewrite <- !app_assoc.
Qed.

(** [for (i = pos - 1; i < len - 1; i++) buf[i] = buf[i + 1];] *)
Lemma shift_left (r l rest : list Z) (x i : Z) :
  is_bytes r -> i = Z.of_nat (length l) ->
  exists y, for_up (length r) i 1 (fun i b => set_byte b i (byte_at b (i + 1))) (l ++ x :: r ++ rest) =
    l ++ r ++ y :: rest.
Proof.
  revert l x i; induction r as [|a r IH]; intros l x i Hb Hi; [by exists x|].
  apply Forall_cons in Hb as [Ha Hb]. cbn [length for_up app].
  rewrite set_byte_app by done.
  replace (l ++ x :: a :: r ++ rest) with ((l ++ [x]) ++ a :: r ++ rest) by (by rewrite <- app_assoc).
  rewrite byte_at_app by (rewrite length_app; cbn [length]; lia). rewrite u8_small by exact Ha.
  destruct (IH (l ++ [a]) a (i + 1) Hb) as [y Hy]; [rewrite length_app; cbn [length]; lia|].
  exists y. rewrite <- !app_assoc in Hy. exact Hy.
Qed.

(** ** The refinement *)

Definition is_text (l : list Z) : Prop := Forall (fun c => 0 < c < 256) l.

Lemma is_text_bytes (l : list Z) : is_text l -> is_bytes l.
Proof. intros Hl. eapply Forall_impl; [exact Hl|]. unfold is_byte. intros. lia. Qed.

Lemma until_nul_text (l r : list Z) : is_text l -> until_nul (l ++ 0 :: r) = l.
Proof.
  intros Hl. rewrite until_nul_app; [cbn; apply app_nil_r|]. eapply Forall_impl; [exact Hl|]. cbn. intros. lia.
Qed.

Record hist_ok (h : history_t) : Prop := {
  ho_count : 0 <= history_count h <= HISTORY_SIZE;
  ho_rows : length (history h) = Z.to_nat HISTORY_SIZE;
  ho_text : Forall (fun l => is_text l /\ (length l <= 254)%nat) (history h)
}.

Lemma zrow_ok (h : history_t) (i : nat) : hist_ok h -> is_text (zrow h i) /\ (length (zrow h i) <= 254)%nat.
Proof.
  intros [_ _ Ht]. unfold zrow. destruct (history h !! i) as [l|] eqn:E.
  - exact (Forall_lookup_1 _ _ _ _ Ht E).
  - cbn. split; [constructor|lia].
Qed.

(** The buffer holds the text first; the rest of its 256 bytes is arbitrary. *)
Record edits (e : edit) (z : zip) : Prop := {
  ed_buf : exists rest, buf e = text z ++ rest;
  ed_size : length (buf e) = 256%nat;
  ed_text : is_text (text z);
  ed_len : len e = Z.of_nat (length (text z));
  ed_max : (length (text z) <= 254)%nat;
  ed_pos : pos e = Z.of_nat (cur z);
  ed_cur : (cur z <= length (text z))%nat;
  ed_hist : hist_pos e = match shown z with None => -1 | Some i => Z.of_nat i end
}.

Lemma show_line_edits (h : history_t) (e : edit) (sv : list Z) (i : nat) (x y : Z) :
  hist_ok h -> length (buf e) = 256%nat ->
  exists out e', show_line e (Z.of_nat i) sv (zrow h i) x y = (out, More e') /\
    edits e' (mkZip (zrow h i) (length (zrow h i)) (Some i)).
Proof.
  intros Hh Hb. destruct (zrow_ok h i Hh) as [Ht Hl]. unfold show_line. do 2 eexists. split; [reflexivity|].
  split; cbn [buf len pos hist_pos text cur shown]; try done; try lia.
  - by exists (0 :: drop (S (length (zrow h i))) (buf e)).
  - unfold fill. rewrite length_app. cbn [length]. rewrite length_drop. lia.
Qed.

Lemma row_zrow (h : history_t) (i : nat) : row h (Z.of_nat i) = zrow h i.
Proof. unfold row, zrow. by rewrite Nat2Z.id. Qed.

Lemma split_text (t rest : list Z) (k : nat) :
  t ++ rest = take k t ++ drop k t ++ rest.
Proof. by rewrite app_assoc, take_drop. Qed.

Lemma insert_edits (e : edit) (z : zip) (x y c : Z) (h : history_t) :
  edits e z -> 0 < c < 256 -> (length (text z) < 254)%nat ->
  let b := for_up (Z.to_nat (len e - pos e)) (len e) (-1) (fun i b => set_byte b i (byte_at b (i - 1))) (buf e) in
  edits (mkEdit (set_byte b (pos e) c) (len e + 1) (pos e + 1) (hist_pos e) (saved e))
    (mkZip (take (cur z) (text z) ++ c :: drop (cur z) (text z)) (S (cur z)) (shown z)).
Proof.
  intros [[rest Hb] Hs Ht Hl Hm Hp Hc Hh] Hcr Hlt b. destruct z as [t k s]. cbn [text cur shown] in *.
  assert (Hsz := Hs). rewrite Hb, length_app in Hsz. destruct rest as [|r0 rest]; [cbn in Hsz; lia|].
  assert (Hd : is_bytes (drop k t)) by (apply is_text_bytes, Forall_drop, Ht).
  assert (Hld : length (drop k t) = (length t - k)%nat) by apply length_drop.
  assert (Hlt' : length (take k t) = k) by (rewrite length_take; lia).
  subst b. rewrite Hb, Hl, Hp, (split_text t (r0 :: rest) k).
  replace (Z.to_nat (Z.of_nat (length t) - Z.of_nat k)) with (length (drop k t)) by lia.
  destruct (shift_right (drop k t) (take k t) rest r0 (Z.of_nat (length t)) Hd ltac:(lia)) as [w Hw].
  rewrite Hw, set_byte_app, u8_small by lia.
  split; cbn [buf len pos hist_pos text cur shown]; try done.
  - exists rest. by rewrite <- app_assoc.
  - rewrite !length_app in *. cbn [length] in *. rewrite length_app. lia.
  - apply Forall_app; split; [by apply Forall_take|]. constructor; [done|by apply Forall_drop].
  - rewrite length_app. cbn [length]. lia.
  - rewrite length_app. cbn [length]. lia.
  - lia.
  - rewrite length_app. cbn [length]. lia.
Qed.

Lemma delete_edits (e : edit) (z : zip) : edits e z -> (0 < cur z)%nat ->
  let b := for_up (Z.to_nat (len e - pos e)) (pos e - 1) 1 (fun i b => set_byte b i (byte_at b (i + 1))) (buf e) in
  edits (mkEdit b (len e - 1) (pos e - 1) (hist_pos e) (saved e))
    (mkZip (take (Nat.pred (cur z)) (text z) ++ drop (cur z) (text z)) (Nat.pred (cur z)) (shown z)).
Proof.
  intros [[rest Hb] Hs Ht Hl Hm Hp Hc Hh] Hk b. destruct z as [t k s]. cbn [text cur shown] in *.
  destruct k as [|k]; [lia|]. cbn [Nat.pred].
  destruct (lookup_lt_is_Some_2 t k ltac:(lia)) as [a Ha].
  assert (Hsplit : t = take k t ++ a :: drop (S k) t) by (symmetry; by apply take_drop_middle).
  assert (Hd : is_bytes (drop (S k) t)) by (apply is_text_bytes, Forall_drop, Ht).
  assert (Hld : length (drop (S k) t) = (length t - S k)%nat) by apply length_drop.
  assert (Hlt' : length (take k t) = k) by (rewrite length_take; lia).
  assert (Hb' : buf e = take k t ++ a :: drop (S k) t ++ rest).
  { rewrite Hb. rewrite Hsplit at 1. by rewrite <- app_assoc. }
  subst b. rewrite Hb', Hl, Hp.
  replace (Z.to_nat (Z.of_nat (length t) - Z.of_nat (S k))) with (length (drop (S k) t)) by lia.
  destruct (shift_left (drop (S k) t) (take k t) rest a (Z.of_nat (S k) - 1) Hd ltac:(lia)) as [w Hw].
  rewrite Hw. split; cbn [buf len pos hist_pos text cur shown]; try done.
  - exists (w :: rest). by rewrite <- app_assoc.
  - rewrite <- Hs, Hb', !length_app. cbn [length]. rewrite length_app. lia.
  - apply Forall_app; split; [by apply Forall_take|by apply Forall_drop].
  - rewrite length_app. lia.
  - rewrite length_app. lia.
  - lia.
  - rewrite length_app. lia.
Qed.

(** One key *)
Lemma key_refines (x y c : Z) (h : history_t) (e : edit) (z : zip) :
  hist_ok h -> edits e z -> 0 < c < 256 ->
  match zkey h z c with
  | ZMore z' => exists out e', readline_key 256 x y h e c = (out, More e') /\ edits e' z'
  | ZLine l => exists out, readline_key 256 x y h e c = (out, Line l (history_add h l))
  | ZOutside => True
  end.
Proof.
  intros Hh He Hc. pose proof He as [[rest Hb] Hs Ht Hl Hm Hp Hcu Hhp]. destruct z as [t k s].
  cbn [text cur shown] in *. unfold zkey, readline_key.
  rewrite (proj2 (Z.ltb_ge (len e) (pos e))) by lia.
  destruct ((c =? KEY_UP) && (0 <? history_count h)).
  { rewrite Hhp. destruct s as [i|].
    - rewrite (proj2 (Z.eqb_neq _ _)) by lia. destruct (Z.ltb_spec (Z.of_nat i + 1) (history_count h)).
      + rewrite (proj2 (Z.ltb_lt _ _)) by lia. replace (Z.of_nat i + 1) with (Z.of_nat (S i)) by lia.
        rewrite row_zrow. by apply show_line_edits.
      + rewrite (proj2 (Z.ltb_ge _ _)) by lia. eauto.
    - change (row h 0) with (row h (Z.of_nat 0)). cbn [Z.eqb Pos.eqb]. rewrite row_zrow. by apply (show_line_edits h e _ 0). }
  destruct (Z.eqb_spec c KEY_DOWN) as [Hd|Hd].
  { rewrite Hhp. destruct s as [[|i]|]; [done| |cbn; eauto].
    rewrite (proj2 (Z.eqb_neq _ _)) by lia. cbv zeta. rewrite (proj2 (Z.leb_le _ _)) by lia.
    replace (Z.of_nat (S i) - 1) with (Z.of_nat i) by lia. rewrite row_zrow. by apply show_line_edits. }
  destruct (Z.eqb_spec c KEY_LEFT) as [Hlf|Hlf].
  { destruct (Z.ltb_spec 0 (pos e)); do 2 eexists; (split; [reflexivity|]).
    - split; cbn [buf len pos hist_pos text cur shown]; eauto; lia.
    - replace (Nat.pred k) with k by lia. done. }
  destruct (Z.eqb_spec c KEY_RIGHT) as [Hr|Hr].
  { destruct (Z.ltb_spec (pos e) (len e)); do 2 eexists; (split; [reflexivity|]).
    - rewrite Nat.min_l by lia. split; cbn [buf len pos hist_pos text cur shown]; eauto; lia.
    - rewrite Nat.min_r by lia. replace (length t) with k by lia. done. }
  rewrite (proj2 (Z.eqb_neq c 3)) by (unfold KEY_LEFT in Hlf; lia).
  destruct (Z.eqb_spec c 10) as [Hn|Hn].
  { cbv zeta. rewrite Hb, Hl. destruct rest as [|r0 rest]; [rewrite Hb, app_nil_r in Hs; lia|].
    rewrite set_byte_app by done. change (u8 0) with 0. rewrite until_nul_text by done. eauto. }
  destruct (Z.eqb_spec c 8) as [H8|H8].
  { destruct (Z.ltb_spec 0 (pos e)); do 2 eexists; (split; [reflexivity|]).
    - apply (delete_edits e (mkZip t k s) He). cbn [cur]. lia.
    - assert (k = 0)%nat as -> by lia. cbn [Nat.pred take app drop]. done. }
  destruct (Nat.ltb_spec (length t) 254).
  - rewrite (proj2 (Z.ltb_lt _ _)) by lia. do 2 eexists. split; [reflexivity|].
    by apply (insert_edits e (mkZip t k s) x y c h He).
  - rewrite (proj2 (Z.ltb_ge _ _)) by lia. eauto.
Qed.

Lemma loop_refines (x y : Z) (h : history_t) (keys l : list Z) (e : edit) (z : zip) :
  hist_ok h -> edits e z -> Forall (fun c => 0 < c < 256) keys -> zrun h z keys = Some l ->
  snd (readline_loop 256 x y h e keys) = Some (l, history_add h l).
Proof.
  intros Hh. revert e z; induction keys as [|c keys IH]; intros e z He Hk Hz; [done|].
  apply Forall_cons in Hk as [Hc Hk]. cbn [zrun readline_loop] in *.
  rewrite (proj2 (Z.leb_gt _ _)) by (pose proof (ed_len _ _ He); pose proof (ed_max _ _ He); lia).
  pose proof (key_refines x y c h e z Hh He Hc) as Hr.
  destruct (zkey h z c) as [z'|l'|]; [| |done].
  - destruct Hr as (out & e' & -> & He'). specialize (IH e' z' He' Hk Hz).
    destruct (readline_loop 256 x y h e' keys) as [out' r]. exact IH.
  - destruct Hr as (out & ->). by injection Hz as <-.
Qed.


Definition no_history : history_t := mkHist (replicate 16 []) 0.


(** ** What is outside *)

(** The buffer is not terminated when the typed text is saved: with "help me"
    left in it, typing "ab" and pressing up, down and return gives "ablp me". *)
Lemma readline_restores_stale_text :
  snd (readline (fill (replicate 256 0) (str "help me")) 256 0 0 (history_add no_history (str "ps"))
         (str "ab" ++ [1; 2; 10])) =
  Some (str "ablp me", history_add (history_add no_history (str "ps")) (str "ablp me")).
Proof. vm_compute. reflexivity. Qed.

(** The up key with an empty history enters the byte 1. *)
Lemma up_key_inserted :
  option_map fst (snd (readline (replicate 256 0) 256 0 0 no_history [1; 10])) = Some [1].
Proof. vm_compute. reflexivity. Qed.

(** Control-C has the same code as the left arrow and is taken for it. *)
Lemma control_c_moves_left :
  option_map fst (snd (readline (replicate 256 0) 256 0 0 no_history [97; 3; 98; 10])) = Some (str "ba").
Proof. vm_compute. reflexivity. Qed.

(** The seventeenth line is stored in the last row but the count goes back to
    fifteen, so that pressing up shows neither it nor the newest lines first. *)
Lemma history_loses_line :
  let h := fold_left history_add (map (fun n => [65 + Z.of_nat n]) (seq 0 17)) no_history in
  history_count h = 15 /\ row h 15 = [81] /\ row h 0 = [79].
Proof. vm_compute. repeat split. Qed.
