(* ===== verification/Shell.v ===== *)
(** * The shell of kernel/kernel.c: commands, pipes and the prompt

    A command runs on the state [sys] of the components it calls (the file
    system, the tasks and memory, the keyboard, the drives, the network, the
    work queue), composed from their models.  It collects its console calls
    in order; they are carried out on the console ([Screen.screen]) by
    [run_cmd], so that the same command prints to the screen or into the
    pipe.  A command line is a C string, the list of its bytes.  Log output
    is omitted. *)
From S2P Require Import Prelude Bytes Memory FrameAlloc Pfa Paging Heap BlockDev Nvfs Keyboard Sched Task Elf NetBase Tcp NetStack Serial Graphics Screen ScreenProps Acpi Ata Text Readline.
Import Serial Screen Pfa.

Module Shell.

Abbreviation nmachine := BlockDev.Machine.

(** ** State *)

(** [pipe] is [pipe_data] when [has_pipe_data] is set. *)
Record sys (D N : Type) := mkSys {
  files : Nvfs.fs D;
  tasks : Task.kernel;
  kbd : Keyboard.kb;
  drives : Ata.ata;
  net : Net.net N;
  cpus : Acpi.cpus;
  work : Sched.sched;
  pipe : option (list Z) }.

#[global] Arguments mkSys {D N}.
#[global] Arguments files {D N}.
#[global] Arguments tasks {D N}.
#[global] Arguments kbd {D N}.
#[global] Arguments drives {D N}.
#[global] Arguments net {D N}.
#[global] Arguments cpus {D N}.
#[global] Arguments work {D N}.
#[global] Arguments pipe {D N}.

(** Why a command does not return: the machine stops, or the model's fuel
    for a wait runs out. *)
Inductive stop := Crash | Reboot | PowerOff | NoFuel.

(** A command: the console calls it makes, and its result, if it returns *)
Definition Sh (D N A : Type) : Type := sys D N -> list call * ((A + stop) * sys D N).

Definition ret {D N A} (x : A) : Sh D N A := fun s => ([], (inl x, s)).

Definition halt {D N A} (why : stop) : Sh D N A := fun s => ([], (inr why, s)).

Definition bind {D N A B} (m : Sh D N A) (f : A -> Sh D N B) : Sh D N B := fun s =>
  match m s with
  | (out, (inl x, s)) => let '(out', r) := f x s in (out ++ out', r)
  | (out, (inr why, s)) => (out, (inr why, s))
  end.

Definition get {D N A} (f : sys D N -> A) : Sh D N A := fun s => ([], (inl (f s), s)).

Definition modify {D N} (f : sys D N -> sys D N) : Sh D N unit := fun s => ([], (inl tt, f s)).

Definition emit {D N} (cs : list call) : Sh D N unit := fun s => (cs, (inl tt, s)).

Definition of_option {D N A} (o : option A) : Sh D N A :=
  match o with Some x => ret x | None => halt NoFuel end.

Definition print {D N} (l : list Z) : Sh D N unit := emit [PrintString l].

Definition set_files {D N} (s : sys D N) (x : Nvfs.fs D) : sys D N :=
  mkSys x (tasks s) (kbd s) (drives s) (net s) (cpus s) (work s) (pipe s).

Definition set_tasks {D N} (s : sys D N) (x : Task.kernel) : sys D N :=
  mkSys (files s) x (kbd s) (drives s) (net s) (cpus s) (work s) (pipe s).

Definition set_kbd {D N} (s : sys D N) (x : Keyboard.kb) : sys D N :=
  mkSys (files s) (tasks s) x (drives s) (net s) (cpus s) (work s) (pipe s).

Definition set_net {D N} (s : sys D N) (x : Net.net N) : sys D N :=
  mkSys (files s) (tasks s) (kbd s) (drives s) x (cpus s) (work s) (pipe s).

Definition set_work {D N} (s : sys D N) (x : Sched.sched) : sys D N :=
  mkSys (files s) (tasks s) (kbd s) (drives s) (net s) (cpus s) x (pipe s).

Definition set_pipe {D N} (s : sys D N) (x : option (list Z)) : sys D N :=
  mkSys (files s) (tasks s) (kbd s) (drives s) (net s) (cpus s) (work s) x.

(** A call of the file system: [None] is its error return. *)
Definition on_files {D N A} (m : Nvfs.M (D := D) A) : Sh D N (option A) := fun s =>
  let '(r, f) := m (files s) in ([], (inl r, set_files s f)).

Definition on_net {D N A} (m : Net.M N A) : Sh D N A := fun s =>
  match m (net s) with
  | Some (x, n) => ([], (inl x, set_net s n))
  | None => ([], (inr NoFuel, s))
  end.

Declare Scope sh_scope.
Delimit Scope sh_scope with sh.
Notation "x <- m ;; k" := (bind m (fun x => k)) (at level 100, m at next level, right associativity) : sh_scope.
Notation "m ;;; k" := (bind m (fun _ => k)) (at level 100, right associativity) : sh_scope.
Open Scope sh_scope.

(** ** Reading the command line *)

(** [while (p[0] == ' ') p++;] *)
Fixpoint skip_spaces (l : list Z) : list Z :=
  match l with c :: r => if c =? 32 then skip_spaces r else l | [] => [] end.

(** [while (p[0] && p[0] != c) ...]: what is copied, and the rest *)
Fixpoint split_at (c : Z) (l : list Z) : list Z * list Z :=
  match l with
  | [] => ([], [])
  | a :: r => if a =? c then ([], l) else let '(w, r) := split_at c r in (a :: w, r)
  end.

(** A [char] as a number *)
Definition schar (c : Z) : Z := if c <? 128 then c else c - 256.

(** The loops of [hex] and [sleep]: at most [limit] characters *)
Fixpoint parse_num (limit k n : Z) (l : list Z) : option Z :=
  match l with
  | [] => Some n
  | c :: r =>
      if (limit <=? k) || (429496729 <? n) || ((n =? 429496729) && (5 <? u32 (schar c - 48)))
      then None
      else parse_num limit (k + 1) (u32 (n * 10 + (schar c - 48))) r
  end.

(** [while (arg[k] >= '0' && arg[k] <= '9')]: the number and the rest *)
Fixpoint parse_digits (n : Z) (l : list Z) : Z * list Z :=
  match l with
  | c :: r => if (48 <=? c) && (c <=? 57) then parse_digits (u32 (n * 10 + (c - 48))) r else (n, l)
  | [] => (n, [])
  end.

(** Command and argument of a line *)
Definition split_cmd (l : list Z) : list Z * list Z :=
  let '(cmd, r) := split_at 32 (skip_spaces l) in (cmd, skip_spaces r).

Definition is_cmd (cmd name : list Z) : bool := bool_decide (cmd = name).

Definition help_text : list (list Z) :=
  [str "Noverix Shell" ++ nl; str "-------------" ++ nl;
   str "help     Show this help" ++ nl;
   str "clear    Clear screen" ++ nl;
   str "echo     Print text or write file (echo text > file)" ++ nl;
   str "cat      Display file contents (cat reads pipe when no file)" ++ nl;
   str "ls       List files (ls, ls <dir>)" ++ nl;
   str "cd       Change directory" ++ nl;
   str "mkdir    Create directory" ++ nl;
   str "rmdir    Remove empty directory" ++ nl;
   str "rm       Delete file" ++ nl;
   str "hex      Print a number in hex" ++ nl;
   str "ver      Show version" ++ nl;
   str "sleep    Sleep for N milliseconds" ++ nl;
   str "ata      List ATA drives" ++ nl;
   str "crash    Trigger a crash (for testing)" ++ nl;
   str "reboot   Reboot system" ++ nl;
   str "shutdown Power off" ++ nl;
   str "exec     Run ELF executable" ++ nl;
   str "heap     Dump heap allocator state" ++ nl;
   str "mem      Show physical memory info" ++ nl;
   str "pages    Show page directory/table info" ++ nl;
   str "|        Pipe: cmd1 | cmd2 (output of cmd1 goes to cmd2)" ++ nl;
   str "rate     Set keyboard repeat rate: rate <delay:0-3> <rate:0-31>" ++ nl;
   str "smp      Run N parallel tasks across all CPUs" ++ nl;
   str "cpus     Show CPU info" ++ nl;
   str "ps       List running tasks" ++ nl;
   str "kill     Kill a task by PID: kill <pid>" ++ nl;
   str "ping     Ping an IP address: ping <ip>" ++ nl;
   str "tcp      TCP test: tcp <ip> <port> [data]" ++ nl].

Definition nvfs_strerror (err : Z) : list Z :=
  if err =? Nvfs.NVFS_ERR_NOT_FOUND then str "Not found"
  else if err =? Nvfs.NVFS_ERR_NOT_DIR then str "Not a directory"
  else if err =? Nvfs.NVFS_ERR_NOT_FILE then str "Not a file"
  else if err =? Nvfs.NVFS_ERR_DIR_BUSY then str "Directory not empty"
  else if err =? Nvfs.NVFS_ERR_NO_SPACE then str "Disk full"
  else if err =? Nvfs.NVFS_ERR_NO_INODE then str "Out of inodes"
  else if err =? Nvfs.NVFS_ERR_EXISTS then str "Already exists"
  else if err =? Nvfs.NVFS_ERR_IO then str "I/O error"
  else if err =? Nvfs.NVFS_ERR_NO_MOUNT then str "No disk"
  else if err =? Nvfs.NVFS_ERR_PATH then str "Bad path"
  else str "Unknown error".

(** The message of a refused program *)
Definition reject_message (r : Elf.reject) : list Z :=
  match r with
  | Elf.ReadFailed => str "Error: Failed to read file"
  | Elf.TooSmall => str "Error: File too small"
  | Elf.BadMagic => str "Error: Not a valid ELF file"
  | Elf.BadClass => str "Error: 64-bit ELF not supported"
  | Elf.BadMachine => str "Error: Not an x86 executable"
  | Elf.BadEntry => str "Error: Invalid ELF entry point"
  | Elf.TableOverflow => str "Error: Program header table overflow"
  | Elf.TableOutOfFile => str "Error: Program Header Table out of file bounds"
  | Elf.EntrySizeTooSmall => str "Error: Program header entry size too small"
  | Elf.BadLoadAddress => str "Error: Invalid ELF load address"
  | Elf.PastUserRange => str "Error: ELF segment extends past user range"
  | Elf.PastFile => str "Error: ELF segment extends past file"
  | Elf.FileszTooLarge => str "Error: p_filesz > p_memsz"
  end.

(** The message when the program is accepted but memory runs out: what
    elf_exec was doing, followed from the state it started in.  After the
    user pages come the task's record, one frame, and the kernel stack; when
    the stack cannot be had the record's frame is free again. *)
Fixpoint map_failure (n : nat) (s : Paging.vm Pfa.pfa) (pd addr : Z) : option (list Z) :=
  match n with
  | O => None
  | S n =>
      let '(phys, fr) := Pfa.alloc_frame (Paging.frames s) in
      let s := Paging.with_frames s fr in
      if phys =? 0 then Some (str "Error: Out of memory for user pages")
      else
        let '(r, s) := Paging.map_page_to_dir s pd addr phys (Z.lor Paging.PAGE_WRITE Paging.PAGE_USER) in
        if negb (r =? 0) then Some (str "Error: Failed to map user page")
        else map_failure n s pd (addr + 4096)
  end.

Definition exec_failure (k k' : Task.kernel) : list Z :=
  let '(pd, s) := Paging.page_dir_create (Task.mm k) in
  if pd =? 0 then str "Error: Failed to allocate page directory"
  else
    let s := Paging.with_mem s (Paging.set_entry (Paging.vmem s) pd Elf.USER_PDE_IDX 0) in
    match map_failure (Z.to_nat Elf.USER_PAGES) s pd Elf.USER_ELF_BASE with
    | Some msg => msg
    | None => if Pfa.get_free_frame_count (Paging.frames (Task.mm k')) =? 0
              then str "Error: Failed to allocate task" else str "Error: Failed to allocate kernel stack"
    end.

(** ** Commands *)

Section commands.

Context {D : Type} `{nmachine D} {N : Type} `{Net.Nic N}.

(** Uninitialised values of the stack, the machine's status bytes of the
    keyboard controller, the processor the shell runs on, and fuel for the
    waits of the network, the file system's path and the heap *)
Variables (junk_extents : list Nvfs.nvfs_extent) (junk_inode : Z -> Nvfs.nvfs_inode) (stack : Z -> Z).
Variables (kb_status : list Z) (fuel : nat).

Abbreviation command := (Sh D N unit).

(** [print_string(nvfs_strerror(nvfs_errno)); print_string("\n")] *)
Definition print_errno : command :=
  e <- get (fun s => Nvfs.nvfs_errno (files s)) ;; emit [PrintString (nvfs_strerror e); PrintString nl].

(** [OK] or the file system's message *)
Definition report {A : Type} (r : option A) : command :=
  match r with Some _ => print (str "OK" ++ nl) | None => print_errno end.

(** The bytes [content] points to: the argument with its redirection cut off,
    then whatever the stack holds *)
Definition content_bytes (content rest : list Z) (k : Z) : Z :=
  let all := content ++ 0 :: rest ++ [0] in
  if k <? Z.of_nat (length all) then byte_at all k else stack k.

Definition cmd_echo (arg : list Z) : command :=
  let '(content, r) := split_at 62 arg in
  if 255 <=? Z.of_nat (length content) then print (str "Path too long" ++ nl)
  else
    match r with
    | _ :: rest =>
        let is_append := match rest with c :: _ => c =? 62 | [] => false end in
        let fname := skip_spaces (if is_append then drop 1 rest else rest) in
        let rest := if is_append then 0 :: drop 1 rest else rest in
        let size := Z.of_nat (length content) in
        match fname with
        | [] => ret tt
        | _ =>
            r <- (if is_append then on_files (Nvfs.nvfs_append fname (content_bytes content rest) size)
                  else on_files (Nvfs.nvfs_write junk_extents fname (content_bytes content rest) size)) ;;
            report r
        end
    | [] =>
        match arg with
        | _ :: _ => emit [PrintString arg; PrintString nl]
        | [] =>
            p <- get pipe ;;
            match p with
            | Some text => print text
            | None => print nl
            end
        end
    end.

Definition cmd_hex (arg : list Z) : command :=
  match parse_num 8 0 0 arg with
  | None => print (str "Invalid number" ++ nl)
  | Some n => emit [PrintHex n; PrintString nl]
  end.

(** sleep_ms is the wait of Timer.v *)
Definition cmd_sleep (arg : list Z) : command :=
  match parse_num 7 0 0 arg with
  | None => print (str "Invalid number" ++ nl)
  | Some n =>
      if (0 <? n) && (n <=? 10000)
      then emit [PrintString (str "Sleeping "); PrintInt n; PrintString (str " ms..." ++ nl);
                 PrintString (str "Done." ++ nl)]
      else print (str "Usage: sleep <ms> (1-10000)" ++ nl)
  end.

Definition ata_line (a : Ata.ata) (ch dr : Z) : list call :=
  if Ata.ata_drive_exists a ch dr
  then [PrintString (str "ATA "); PrintHex ch; PrintString (str ":");
        PrintString (if dr =? 0 then str "0 " else str "1 "); PrintString (Ata.ata_get_model a ch dr); PrintString nl]
  else [].

Definition cmd_ata : command :=
  a <- get drives ;;
  match concat [ata_line a 0 0; ata_line a 0 1; ata_line a 1 0; ata_line a 1 1] with
  | [] => print (str "No drives found." ++ nl)
  | out => emit out
  end.

Definition cmd_cat (arg : list Z) : command :=
  match arg with
  | _ :: _ =>
      r <- on_files (Nvfs.nvfs_read arg 511) ;;
      match r with
      | Some [] => print (str "(empty)" ++ nl)
      | Some bytes => emit [PrintString (until_nul bytes); PrintChar 10]
      | None => print_errno
      end
  | [] =>
      p <- get pipe ;;
      match p with
      | Some text => print text
      | None => print (str "Usage: cat <file>" ++ nl)
      end
  end.

(** ** nvfs_list with its output *)

Definition ls_entry (tmp : list Z) (e line : Z) : command :=
  r <- on_files (Nvfs.inode_read (Nvfs.dirent_inode tmp e)) ;;
  let ci := default (junk_inode line) r in
  let isdir := Nvfs.i_type ci =? Nvfs.NVFS_TYPE_DIR in
  let mark := match r with Some _ => isdir | None => false end in
  emit [PrintString (str "  "); PrintString (if mark then str "[DIR] " else str "      ");
        PrintString (until_nul (get_bytes tmp (e * Nvfs.NVFS_DIRENT_SIZE) 28));
        PrintString (str "  "); PrintInt (Nvfs.i_size ci);
        PrintString (if isdir then str " <DIR>" ++ nl else str " bytes" ++ nl)].

Fixpoint ls_entries (n : nat) (tmp : list Z) (e line : Z) : Sh D N Z :=
  match n with
  | O => ret line
  | S n =>
      if Nvfs.dirent_inode tmp e =? 0 then ls_entries n tmp (e + 1) line
      else ls_entry tmp e line ;;; ls_entries n tmp (e + 1) (line + 1)
  end.

Fixpoint ls_blocks (blocks : list Z) (line : Z) : command :=
  match blocks with
  | [] => ret tt
  | b :: r =>
      tmp <- on_files (Nvfs.read_block b) ;;
      match tmp with
      | None => ret tt
      | Some tmp => line <- ls_entries (Z.to_nat Nvfs.dirents) tmp 0 line ;; ls_blocks r line
      end
  end.

Definition ls_dir (inum : Z) : command :=
  ino <- on_files (Nvfs.inode_read inum) ;;
  match ino with
  | None => ret tt
  | Some ino =>
      cache <- on_files (Nvfs.extent_load_all ino) ;;
      match cache with
      | None => ret tt
      | Some cache => ls_blocks (Nvfs.ext_blocks cache) 0
      end
  end.

Definition cmd_ls (arg : list Z) : command :=
  m <- on_files Nvfs.check_mounted ;;
  match m with
  | None => ret tt
  | Some _ =>
      match arg with
      | [] => cwd <- get (fun s => Nvfs.nvfs_cwd (files s)) ;; ls_dir cwd
      | _ =>
          r <- on_files (Nvfs.resolve_path arg) ;;
          match r with
          | None => print (str "Path not found" ++ nl)
          | Some (parent, []) => ls_dir parent
          | Some (parent, name) =>
              i <- on_files (Nvfs.dir_find parent name) ;;
              match i with
              | None => print (str "Not found" ++ nl)
              | Some inum =>
                  ino <- on_files (Nvfs.inode_read inum) ;;
                  match ino with
                  | None => ret tt
                  | Some ino =>
                      if Nvfs.i_type ino =? Nvfs.NVFS_TYPE_DIR then ls_dir inum
                      else print (str "Not a directory" ++ nl)
                  end
              end
          end
      end
  end.

Definition cmd_cd (arg : list Z) : command :=
  r <- on_files (Nvfs.nvfs_chdir arg) ;;
  match r with Some _ => ret tt | None => print_errno end.

(** [mkdir], [rmdir] and [rm] *)
Definition cmd_path {A : Type} (op : Nvfs.M (D := D) A) (usage arg : list Z) : command :=
  match arg with
  | [] => print usage
  | _ => r <- on_files op ;; report r
  end.

(** elf_exec with the file it reads and its messages *)
Definition exec_file (arg : list Z) : Sh D N Z :=
  r <- on_files (Nvfs.nvfs_read arg 131072) ;;
  k <- get tasks ;;
  let file := default [] r in
  let size := match r with Some f => Z.of_nat (length f) | None => -1 end in
  match Elf.elf_check file size with
  | Some why => print (reject_message why ++ nl) ;;; ret (-1)
  | None =>
      x <- of_option (Elf.elf_exec k file size) ;;
      let '(code, k') := x in
      modify (fun s => set_tasks s k') ;;;
      (if code =? 0
       then emit [PrintString (str "User task started. PID: "); PrintInt (Task.next_pid k); PrintString nl]
       else print (exec_failure k k' ++ nl)) ;;;
      ret code
  end.

Definition cmd_exec (arg : list Z) : command :=
  match arg with
  | [] => print (str "Usage: exec <file>" ++ nl)
  | _ => r <- exec_file arg ;; if r =? 0 then ret tt else print (str "Execution failed" ++ nl)
  end.

Definition size_calls (kb : Z) : list call :=
  if 1024 <=? kb
  then [PrintInt (kb / 1024); PrintString (str " MB ("); PrintInt kb; PrintString (str " KB)" ++ nl)]
  else [PrintInt kb; PrintString (str " KB" ++ nl)].

Definition cmd_mem : command :=
  k <- get tasks ;;
  let total := MAX_MEMORY in
  let free_frames := get_free_frame_count (Paging.frames (Task.mm k)) in
  let used := u32 (total / FRAME_SIZE - free_frames) in
  let pct x := u32 (x * 100) / (total / FRAME_SIZE) in
  emit ([PrintString (str "Total memory: ")] ++ size_calls (total / 1024) ++
        [PrintString (str "Frame size:   "); PrintInt FRAME_SIZE; PrintString (str " bytes" ++ nl);
         PrintString (str "Total frames: "); PrintInt (total / FRAME_SIZE); PrintString nl;
         PrintString (str "Used frames:  "); PrintInt used; PrintString (str " (");
         PrintInt (pct used); PrintString (str "%"); PrintString (str ")" ++ nl);
         PrintString (str "Free frames:  "); PrintInt free_frames; PrintString (str " (");
         PrintInt (pct free_frames); PrintString (str "%"); PrintString (str ")" ++ nl);
         PrintString (str "Free memory:  ")] ++ size_calls (u32 (free_frames * FRAME_SIZE) / 1024)).

Definition delay_text (delay : Z) : list Z :=
  if delay =? 0 then str "250ms" else if delay =? 1 then str "500ms"
  else if delay =? 2 then str "750ms" else str "1000ms".

Definition speed_text (rate : Z) : list Z :=
  if rate <=? 1 then str ", fastest" else if rate <=? 10 then str ", fast"
  else if rate <=? 20 then str ", medium" else str ", slow".

Definition cmd_rate (arg : list Z) : command :=
  k <- get kbd ;;
  let p := Keyboard.keyboard_get_typematic k in
  let delay := Z.land (Z.shiftr p 5) 3 in
  let rate := Z.land p 31 in
  match arg with
  | [] =>
      emit [PrintString (str "delay="); PrintInt delay; PrintString (str " ("); PrintString (delay_text delay);
            PrintString (str "), rate="); PrintInt rate; PrintString (str " ("); PrintInt (250 / (8 + rate));
            PrintString (str " Hz"); PrintString (speed_text rate); PrintString (str ")" ++ nl)]
  | _ =>
      let usage := print (str "Usage: rate <delay:0-3> <rate:0-31>" ++ nl) in
      let '(d, r) := parse_digits 0 arg in
      if (length r =? length arg)%nat then usage
      else
        match r with
        | c :: _ =>
            if c =? 32 then
              let '(n, _) := parse_digits 0 (skip_spaces r) in
              if (3 <? d) || (31 <? n) then print (str "delay 0-3, rate 0-31 (0=fastest)" ++ nl)
              else
                x <- of_option (Keyboard.keyboard_set_typematic kb_status (u8 (Z.lor (Z.shiftl d 5) n)) k) ;;
                modify (fun s => set_kbd s (snd x)) ;;; print (str "OK" ++ nl)
            else usage
        | [] => usage
        end
  end.

(** ** The work queue's test *)

(** [sum_worker] with [start] 1; [int] arithmetic *)
Definition sum_worker (count : Z) : Z := for_up (Z.to_nat count) 0 1 (fun i s => i32 (s + (1 + i))) 0.

(** Every processor takes one of its entries, in turn, until none is left:
    [results] are the sums and processors of the four workers. *)
Fixpoint smp_loop (fuel : nat) (ncpu : Z) (ws : list (Z * Z) * Sched.sched) : option (list (Z * Z) * Sched.sched) :=
  if Sched.any_pending (snd ws) then
    match fuel with
    | O => None
    | S fuel =>
        smp_loop fuel ncpu
          (fold_left (fun ws c =>
             snd (Sched.scheduler_step
                    (fun _ a '(res, q) => (<[Z.to_nat a := (sum_worker 100000, c)]> res, q)) c ws))
             (seqZ 0 ncpu) ws)
    end
  else Some ws.

Definition cmd_smp (worker : Z) : command :=
  emit [PrintString (str "Submitting "); PrintInt 4; PrintString (str " tasks (sum 1.."); PrintInt 100000;
        PrintString (str " each)..." ++ nl)] ;;;
  q <- get work ;;
  c <- get cpus ;;
  let q := fold_left (fun q i => snd (Sched.scheduler_submit (snd c) worker i q)) (seqZ 0 4) q in
  x <- of_option (smp_loop fuel (Z.max 1 (snd c)) (replicate 4 (0, -1), q)) ;;
  let '(res, q) := x in
  modify (fun s => set_work s q) ;;;
  emit (PrintString (str "Results:" ++ nl) ::
        concat (imap (fun i '(sum, cpu) =>
          [PrintString (str "  task "); PrintInt (Z.of_nat i); PrintString (str ": sum="); PrintInt (u32 sum);
           PrintString (str " (cpu "); PrintInt (u32 cpu); PrintString (str ")" ++ nl)]) res)).

Definition cpu_line (i : Z) (v : Acpi.cpu_info_t) : list call :=
  [PrintString (str "  CPU "); PrintInt i; PrintString (str " APIC "); PrintInt (Acpi.apic_id v);
   PrintString (str " state="); PrintInt (Acpi.state v); PrintString nl].

Definition cmd_cpus : command :=
  c <- get cpus ;;
  emit ([PrintString (str "CPUs: "); PrintInt (snd c); PrintString nl] ++
        concat (imap (fun i v => cpu_line (Z.of_nat i) v) (take (Z.to_nat (snd c)) (fst c)))).

(** ** Tasks *)

Definition state_text (st : Z) : list Z :=
  if st =? Task.TASK_FREE then str "FREE" else if st =? Task.TASK_READY then str "READY"
  else if st =? Task.TASK_RUNNING then str "RUN" else if st =? Task.TASK_BLOCKED then str "BLOCK"
  else if st =? 4 then str "ZOMBIE" else str "?".

Definition ps_callback (t : Task.task) : list call :=
  [PrintString (str "  PID="); PrintInt (Task.pid t); PrintString (str " state=");
   PrintString (state_text (Task.state t)); PrintString (str " cpu=");
   (if Task.cpu_assigned t <? 0 then PrintString (str "--") else PrintInt (Task.cpu_assigned t));
   PrintString (str " esp="); PrintHex (Task.kernel_esp t); PrintString nl].

(** task_foreach with this callback *)
Fixpoint ps_walk (n : nat) (k : Task.kernel) (start t : Z) : option (list call) :=
  match n with
  | O => None
  | S n =>
      let x := Task.tsk k t in
      if Task.next x =? start then Some (ps_callback x)
      else option_map (app (ps_callback x)) (ps_walk n k start (Task.next x))
  end.

Definition cmd_ps : command :=
  k <- get tasks ;;
  if Task.ready_head k =? 0 then ret tt
  else out <- of_option (ps_walk (Task.ring_fuel k) k (Task.ready_head k) (Task.ready_head k)) ;; emit out.

Definition cmd_kill (arg : list Z) : command :=
  match arg with
  | [] => print (str "Usage: kill <pid>" ++ nl)
  | _ =>
      k <- get tasks ;;
      x <- of_option (Task.task_kill k (fst (parse_digits 0 arg))) ;;
      let '(r, k) := x in
      modify (fun s => set_tasks s k) ;;;
      print (if r =? 0 then str "Killed." ++ nl
             else if r =? -2 then str "Cannot kill running task." ++ nl else str "No such task." ++ nl)
  end.

(** ** Network *)

Definition cmd_ping (arg : list Z) : command :=
  match arg with
  | [] => print (str "Usage: ping <ip>" ++ nl)
  | _ =>
      emit [PrintString (str "Pinging "); PrintString arg; PrintString (str "..." ++ nl)] ;;;
      x <- on_net (NetStack.net_ping fuel (Net.net_ip_aton arg) 2000) ;;
      let '(r, rtt) := x in
      if r =? 0 then emit [PrintString (str "Reply: time="); PrintInt rtt; PrintString (str "ms" ++ nl)]
      else print (str "Request timed out." ++ nl)
  end.

Definition tcp_answer (sock : Z) : command :=
  print (str "Waiting for response..." ++ nl) ;;;
  r <- on_net (NetStack.tcp_recv fuel sock 1460 3000) ;;
  match r with
  | Some (c :: bytes) =>
      let all := c :: bytes in
      emit ([PrintString (str "Received "); PrintInt (Z.of_nat (length all)); PrintString (str " bytes: ");
             PrintString (until_nul all); PrintString nl] ++
            flat_map (fun b => [PrintHex b; PrintString (str " ")]) (take 64 all) ++ [PrintString nl])
  | _ => print (str "No response." ++ nl)
  end ;;;
  on_net (NetStack.tcp_close fuel sock) ;;;
  print (str "Connection closed." ++ nl).

(** The port: [port * 10 + (c - '0')] in [int], cut to 16 bits *)
Definition port_of (l : list Z) : Z := u16 (fold_left (fun p c => i32 (p * 10 + (schar c - 48))) l 0).

Definition cmd_tcp (arg : list Z) : command :=
  let '(ip_str, r) := split_at 32 (skip_spaces arg) in
  let '(port_str, r) := split_at 32 (skip_spaces r) in
  let msg := take 127 (skip_spaces r) in
  match ip_str, port_str with
  | _ :: _, _ :: _ =>
      emit [PrintString (str "Connecting to "); PrintString ip_str; PrintString (str ":"); PrintString port_str;
            PrintString (str "..." ++ nl)] ;;;
      sock <- on_net (NetStack.tcp_connect fuel (Net.net_ip_aton ip_str) (port_of port_str) 5000) ;;
      if sock <? 0 then print (str "Connection failed." ++ nl)
      else
        emit [PrintString (str "Connected (sock="); PrintInt sock; PrintString (str ")" ++ nl)] ;;;
        match msg with
        | [] => ret tt
        | _ =>
            emit [PrintString (str "Sending: "); PrintString msg; PrintString nl] ;;;
            r <- on_net (NetStack.tcp_send fuel sock msg 3000) ;;
            print (if r <? 0 then str "Send timeout." ++ nl else str "Sent." ++ nl)
        end ;;;
        tcp_answer sock
  | _, _ => print (str "Usage: tcp <ip> <port> [data]" ++ nl)
  end.

(** ** The dispatcher *)

(** [heap] and [pages] write to the serial log only. *)
Definition execute_cmd (cmd arg : list Z) : command :=
  if is_cmd cmd (str "help") || is_cmd cmd (str "?") then emit (map PrintString help_text)
  else if is_cmd cmd (str "echo") then cmd_echo arg
  else if is_cmd cmd (str "clear") then emit [ClearScreen]
  else if is_cmd cmd (str "hex") then cmd_hex arg
  else if is_cmd cmd (str "ver") then print (str "Noverix v0.1" ++ nl)
  else if is_cmd cmd (str "sleep") then cmd_sleep arg
  else if is_cmd cmd (str "ata") then cmd_ata
  else if is_cmd cmd (str "cat") then cmd_cat arg
  else if is_cmd cmd (str "ls") then cmd_ls arg
  else if is_cmd cmd (str "cd") then cmd_cd arg
  else if is_cmd cmd (str "mkdir") then cmd_path (Nvfs.nvfs_mkdir junk_extents arg) (str "Usage: mkdir <path>" ++ nl) arg
  else if is_cmd cmd (str "rmdir") then cmd_path (Nvfs.nvfs_rmdir arg) (str "Usage: rmdir <path>" ++ nl) arg
  else if is_cmd cmd (str "rm") then cmd_path (Nvfs.nvfs_delete arg) (str "Usage: rm <file>" ++ nl) arg
  else if is_cmd cmd (str "crash") then print (str "Triggering exception..." ++ nl) ;;; halt Crash
  else if is_cmd cmd (str "reboot") then print (str "Rebooting..." ++ nl) ;;; halt Reboot
  else if is_cmd cmd (str "shutdown") || is_cmd cmd (str "poweroff")
       then print (str "Shutting down..." ++ nl) ;;; halt PowerOff
  else if is_cmd cmd (str "exec") then cmd_exec arg
  else if is_cmd cmd (str "heap") then ret tt
  else if is_cmd cmd (str "mem") then cmd_mem
  else if is_cmd cmd (str "pages") then ret tt
  else if is_cmd cmd (str "rate") then cmd_rate arg
  else if is_cmd cmd (str "smp") then cmd_smp 1
  else if is_cmd cmd (str "cpus") then cmd_cpus
  else if is_cmd cmd (str "ps") then cmd_ps
  else if is_cmd cmd (str "kill") then cmd_kill arg
  else if is_cmd cmd (str "ping") then cmd_ping arg
  else if is_cmd cmd (str "tcp") then cmd_tcp arg
  else match cmd with
       | [] => ret tt
       | _ => emit [PrintString (str "Unknown command: "); PrintString cmd; PrintString nl]
       end.

(** ** Lines *)

(** The console and the rest of the system; [None] when the machine stopped *)
Definition run_cmd (c : command) (st : screen * sys D N) : option stop * (screen * sys D N) :=
  let '(sc, s) := st in
  let '(out, (r, s)) := c s in
  (match r with inl _ => None | inr why => Some why end, (run_calls sc out, s)).

(** [for (p = 0; captured[p] && p < 4095; p++) pipe_data[p] = captured[p]] *)
Definition pipe_of (captured : list Z) : list Z := take 4095 captured.

Definition run_pipe (cmd1 arg1 cmd2 arg2 : list Z) (st : screen * sys D N) :
    option stop * (screen * sys D N) :=
  let '(sc, s) := st in
  let sc := set_capture sc true in
  let '(r, (sc, s)) := run_cmd (execute_cmd cmd1 arg1) (sc, s) in
  match r with
  | Some why => (Some why, (sc, s))
  | None =>
      let sc := set_capture sc false in
      let '(captured, sc) := get_capture sc in
      let '(r, (sc, s)) := run_cmd (execute_cmd cmd2 arg2) (sc, set_pipe s (Some (pipe_of captured))) in
      match r with
      | Some why => (Some why, (sc, s))
      | None => (None, (sc, set_pipe s None))
      end
  end.

(** Spaces at the end cut off *)
Fixpoint trim_end (l : list Z) : list Z :=
  match l with
  | [] => []
  | c :: r => match trim_end r with [] => if c =? 32 then [] else [c] | t => c :: t end
  end.

Definition handle_cmd (line : list Z) (st : screen * sys D N) : option stop * (screen * sys D N) :=
  let '(lhs, r) := split_at 124 line in
  match r with
  | _ :: rhs =>
      let lhs := trim_end (take 255 lhs) in
      let rhs := skip_spaces (take 255 rhs) in
      let '(cmd1, arg1) := split_cmd lhs in
      let '(cmd2, arg2) := split_cmd rhs in
      match cmd1, cmd2 with
      | [], _ => run_cmd (print (str "Syntax error: no command before pipe" ++ nl)) st
      | _, [] => run_cmd (print (str "Syntax error: no command after pipe" ++ nl)) st
      | _, _ => run_pipe cmd1 arg1 cmd2 arg2 st
      end
  | [] => let '(cmd, arg) := split_cmd line in run_cmd (execute_cmd cmd arg) st
  end.

(** ** The shell *)

(** The prompt: the path of the current directory and "$ " *)
Definition prompt : Sh D N (list Z) :=
  cwd <- get (fun s => Nvfs.nvfs_cwd (files s)) ;;
  r <- on_files (Nvfs.nvfs_path_string fuel cwd 256) ;;
  match r with
  | Some (Some path) => ret (path ++ str "$ ")
  | Some None => halt NoFuel
  | None => ret (str "$ ")
  end.

Definition banner : Sh D N unit :=
  emit [ClearScreen; PrintString (str "Noverix v0.1" ++ nl); PrintString (str "============" ++ nl)] ;;;
  m <- get (fun s => Nvfs.mounted (files s)) ;;
  (if m : bool then ret tt else print (str "No filesystem disk - file operations disabled" ++ nl)) ;;;
  print (str "Type 'help' for commands." ++ nl ++ nl).

(** One round of the shell's loop on the line the user types: the prompt, the
    line, the command.  [None] while the line is not complete. *)
Definition shell_round (b : list Z) (h : Readline.history_t) (keys : list Z) (st : screen * sys D N) :
    option (option stop * (screen * sys D N) * Readline.history_t) :=
  let '(r, (sc, s)) := run_cmd (p <- prompt ;; print p) st in
  match r with
  | Some why => Some (Some why, (sc, s), h)
  | None =>
      match Readline.readline b Readline.LINE_BUF (get_cursor_x sc) (get_cursor_y sc) h keys with
      | (_, None) => None
      | (out, Some (line, h)) => Some (handle_cmd line (run_calls sc out, s), h)
      end
  end.

End commands.
End Shell.
