(* ===== verification/ShellProps.v ===== *)
(** * Properties of the shell

    Pipes on any display that implements [Console], and the shell on top of
    the file system: what [echo] writes, [cat] prints. *)
From S2P Require Import Prelude Bytes Memory FrameAlloc Pfa Paging Heap BlockDev Nvfs NvfsLayout NvfsDisk NvfsBlocks NvfsFiles NvfsRead NvfsPath NvfsProps NvfsDemo Keyboard Sched Task Elf NetBase Tcp NetStack Serial Graphics Screen ScreenProps Acpi Ata Text Readline Shell.

Import Serial Screen Shell.

(** ** Commands that only print *)

Section quiet.

Context {D : Type} `{nmachine D} {N : Type} `{Net.Nic N}.

(** Whatever the state, the console calls of [m] print. *)
Definition quiet {A : Type} (m : Sh D N A) : Prop := forall s, Forall prints (fst (m s)).

Lemma quiet_ret {A : Type} (x : A) : quiet (ret x).
Proof. intros s. constructor. Qed.

Lemma quiet_halt {A : Type} (w : stop) : quiet (halt (A := A) w).
Proof. intros s. constructor. Qed.

Lemma quiet_get {A : Type} (f : sys D N -> A) : quiet (get f).
Proof. intros s. constructor. Qed.

Lemma quiet_modify (f : sys D N -> sys D N) : quiet (modify f).
Proof. intros s. constructor. Qed.

Lemma quiet_emit (cs : list call) : Forall prints cs -> quiet (emit (D := D) (N := N) cs).
Proof. intros Hc s. exact Hc. Qed.

Lemma quiet_print (l : list Z) : quiet (print (D := D) (N := N) l).
Proof. apply quiet_emit. repeat constructor. Qed.

Lemma quiet_option {A : Type} (o : option A) : quiet (of_option o).
Proof. destruct o; [apply quiet_ret|apply quiet_halt]. Qed.

Lemma quiet_files {A : Type} (m : Nvfs.M (D := D) A) : quiet (on_files m).
Proof. intros s. unfold on_files. destruct (m (files s)). constructor. Qed.

Lemma quiet_net {A : Type} (m : Net.M N A) : quiet (on_net m).
Proof. intros s. unfold on_net. destruct (m (net s)) as [[x n]|]; constructor. Qed.

Lemma quiet_bind {A B : Type} (m : Sh D N A) (f : A -> Sh D N B) :
  quiet m -> (forall x, quiet (f x)) -> quiet (bind m f).
Proof.
  intros Hm Hf s. unfold bind. specialize (Hm s). destruct (m s) as [out [[x|w] s']]; cbn [fst] in Hm.
  - specialize (Hf x s'). destruct (f x s') as [out' r]. by apply Forall_app.
  - exact Hm.
Qed.

End quiet.

Create HintDb quiet.
#[export] Hint Resolve quiet_ret quiet_halt quiet_get quiet_modify quiet_print quiet_option quiet_files quiet_net : quiet.

(** Goes through a command; the calls of an [emit] are written out. *)
Ltac quiet_step :=
  match goal with
  | |- quiet (bind _ _) => apply quiet_bind; [|intros ?]
  | |- quiet (emit _) => apply quiet_emit
  | |- Forall _ [] => apply Forall_nil_2
  | |- Forall _ (_ :: _) => apply Forall_cons_2; [exact I|]
  | |- Forall _ (_ ++ _) => apply Forall_app_2
  | |- quiet (match ?x with _ => _ end) => destruct x
  | |- quiet (let '(_, _) := ?x in _) => destruct x
  | _ => solve [eauto with quiet]
  end.

Ltac quiet_auto := repeat (cbv beta zeta; quiet_step).

Section commands.

Context {D : Type} `{nmachine D} {N : Type} `{Net.Nic N}.
Variables (junk_extents : list Nvfs.nvfs_extent) (junk_inode : Z -> Nvfs.nvfs_inode) (stack : Z -> Z).
Variables (kb_status : list Z) (fuel : nat).

Lemma quiet_errno : quiet (print_errno (D := D) (N := N)).
Proof. unfold print_errno. quiet_auto. Qed.

Lemma quiet_report {A : Type} (r : option A) : quiet (report (D := D) (N := N) r).
Proof. unfold report. destruct r; [apply quiet_print|apply quiet_errno]. Qed.

#[local] Hint Resolve quiet_errno quiet_report : quiet.

Lemma quiet_echo (arg : list Z) : quiet (cmd_echo (N := N) junk_extents stack arg).
Proof. unfold cmd_echo. destruct (split_at 62 arg) as [c r]. quiet_auto. Qed.

Lemma quiet_ls (arg : list Z) : quiet (cmd_ls (N := N) junk_inode arg).
Proof.
  assert (He : forall n tmp e line, quiet (ls_entries (N := N) junk_inode n tmp e line)).
  { induction n as [|n IH]; intros tmp e line; cbn [ls_entries]; [apply quiet_ret|].
    destruct (_ =? 0); [apply IH|]. apply quiet_bind; [|intros _; apply IH].
    unfold ls_entry. quiet_auto. }
  assert (Hb : forall bs line, quiet (ls_blocks (N := N) junk_inode bs line)).
  { induction bs as [|b bs IH]; intros line; cbn [ls_blocks]; [apply quiet_ret|].
    apply quiet_bind; [apply quiet_files|]. intros [tmp|]; [|apply quiet_ret].
    apply quiet_bind; [apply He|intros; apply IH]. }
  assert (Hd : forall i, quiet (ls_dir (N := N) junk_inode i)).
  { intros i. unfold ls_dir. quiet_auto. }
  unfold cmd_ls. quiet_auto.
Qed.

Lemma quiet_exec (arg : list Z) : quiet (cmd_exec (N := N) arg).
Proof.
  unfold cmd_exec, exec_file. quiet_auto.
Qed.

Lemma prints_concat (l : list (list call)) : Forall (Forall prints) l -> Forall prints (concat l).
Proof. induction 1; [constructor|]. cbn. by apply Forall_app. Qed.

Lemma quiet_ata : quiet (cmd_ata (D := D) (N := N)).
Proof.
  unfold cmd_ata. apply quiet_bind; [apply quiet_get|]. intros a.
  assert (Ha : Forall prints (concat [ata_line a 0 0; ata_line a 0 1; ata_line a 1 0; ata_line a 1 1])).
  { apply prints_concat. repeat constructor; unfold ata_line; case_match; repeat constructor. }
  destruct (concat _); [apply quiet_print|by apply quiet_emit].
Qed.

Lemma quiet_mem : quiet (cmd_mem (D := D) (N := N)).
Proof.
  unfold cmd_mem. apply quiet_bind; [apply quiet_get|]. intros k. apply quiet_emit.
  assert (Hs : forall kb, Forall prints (size_calls kb)) by (intros kb; unfold size_calls; case_match; repeat constructor).
  repeat (apply Forall_app; split); try apply Hs; repeat constructor.
Qed.

Lemma quiet_smp (w : Z) : quiet (cmd_smp (D := D) (N := N) fuel w).
Proof.
  unfold cmd_smp. quiet_auto. apply prints_concat.
  apply Forall_forall. intros cs Hcs. apply elem_of_lookup_imap in Hcs as (i & [sm cp] & -> & _). repeat constructor.
Qed.

Lemma quiet_cpus : quiet (cmd_cpus (D := D) (N := N)).
Proof.
  unfold cmd_cpus. apply quiet_bind; [apply quiet_get|]. intros c. apply quiet_emit.
  apply Forall_app; split; [repeat constructor|]. apply prints_concat.
  apply Forall_forall. intros l Hl. apply elem_of_lookup_imap in Hl as (i & v & -> & _). repeat constructor.
Qed.

Lemma quiet_ps : quiet (cmd_ps (D := D) (N := N)).
Proof.
  assert (Hw : forall n k a t out, ps_walk n k a t = Some out -> Forall prints out).
  { induction n as [|n IH]; intros k a t out E; [done|]. cbn [ps_walk] in E.
    assert (Hc : Forall prints (ps_callback (Task.tsk k t))).
    { unfold ps_callback. repeat first [apply Forall_nil_2 | apply Forall_cons_2]; try exact I. by destruct (_ <? 0). }
    destruct (_ =? a); [by injection E as <-|].
    destruct (ps_walk n k a _) as [o|] eqn:Eo; [|done]. injection E as <-.
    change (Forall prints (ps_callback (Task.tsk k t) ++ o)). apply Forall_app; split; [done|by eapply IH]. }
  intros s. unfold cmd_ps, bind, get. destruct (_ =? 0); [constructor|].
  destruct (ps_walk _ _ _ _) as [out|] eqn:E; [|constructor].
  cbn [of_option ret emit fst app]. by eapply Hw.
Qed.

Lemma quiet_rate (arg : list Z) : quiet (cmd_rate (D := D) (N := N) kb_status arg).
Proof.
  unfold cmd_rate. apply quiet_bind; [apply quiet_get|]. intros k. destruct (parse_digits 0 arg) as [d r].
  quiet_auto.
Qed.

Lemma quiet_tcp (arg : list Z) : quiet (cmd_tcp (D := D) (N := N) fuel arg).
Proof.
  assert (Ha : forall sock, quiet (tcp_answer (D := D) (N := N) fuel sock)).
  { intros sock. unfold tcp_answer. quiet_auto.
    apply Forall_flat_map, Forall_forall. intros b _. repeat constructor. }
  unfold cmd_tcp. destruct (split_at 32 (skip_spaces arg)) as [ip r].
  destruct (split_at 32 (skip_spaces r)) as [port r']. quiet_auto.
Qed.

(** Every command but [clear] only prints. *)
Lemma execute_cmd_quiet (cmd arg : list Z) :
  cmd <> str "clear" -> quiet (execute_cmd (N := N) junk_extents junk_inode stack kb_status fuel cmd arg).
Proof.
  intros Hc. unfold execute_cmd.
  repeat match goal with
  | |- quiet (if ?b then _ else _) => destruct b eqn:?
  end;
  try solve [apply quiet_echo | apply quiet_ls | apply quiet_exec | apply quiet_ata | apply quiet_mem | apply quiet_smp
    | apply quiet_cpus | apply quiet_ps | apply quiet_rate | apply quiet_tcp | apply quiet_print | apply quiet_ret
    | unfold cmd_hex, cmd_sleep, cmd_cat, cmd_cd, cmd_path, cmd_kill, cmd_ping; quiet_auto].
  - apply quiet_emit, Forall_map, Forall_forall. intros; exact I.
  - exfalso. apply Hc. unfold is_cmd in *.
    match goal with E : bool_decide (cmd = str "clear") = true |- _ => by apply bool_decide_eq_true in E end.
Qed.

End commands.

(** ** Pipes *)

(** While output is captured, printing changes the capture buffer and the
    log only. *)
Lemma capture_shape (ks : list call) (s : screen) :
  Forall prints ks -> capture_mode s = true ->
  exists b p o, run_calls s ks = with_log (with_capture s true b p) o.
Proof.
  assert (Hchars : forall l s, capture_mode s = true ->
    exists b p, print_chars s l = with_capture s true b p).
  { induction l as [|c l IH]; intros s1 Hs1.
    - exists (capture_buf s1), (capture_pos s1). destruct s1. cbn in *. by rewrite Hs1.
    - cbn [print_chars fold_left]. fold (print_chars (print_char_impl s1 c) l).
      assert (Hc : exists b p, print_char_impl s1 c = with_capture s1 true b p).
      { unfold print_char_impl, capture_char. rewrite Hs1.
        repeat case_match; eauto; exists (capture_buf s1), (capture_pos s1); destruct s1; cbn in *; by rewrite Hs1. }
      destruct Hc as (b & p & ->). destruct (IH (with_capture s1 true b p)) as (b' & p' & ->); [done|].
      by exists b', p'. }
  intros Hk. revert s; induction Hk as [|k ks Hp _ IH]; intros s Hs.
  { exists (capture_buf s), (capture_pos s), (log s). destruct s. cbn in *. by rewrite Hs. }
  assert (H1 : exists b p o, run_call s k = with_log (with_capture s true b p) o).
  { destruct k as [c|l|n|n| |]; try contradiction; cbn [run_call].
    - destruct (Hchars [c] s Hs) as (b & p & E). exists b, p, (log s).
      change (print_char s c) with (print_chars s [c]). rewrite E. by destruct s.
    - unfold print_string. rewrite Hs. destruct (Hchars l s Hs) as (b & p & ->). exists b, p, (log s). by destruct s.
    - unfold print_hex. destruct (Hchars (until_nul (hex_buf n)) (with_log s (serial_write_hex (log s) n)) Hs) as (b & p & ->).
      exists b, p, (serial_write_hex (log s) n). by destruct s.
    - unfold print_int. destruct (n =? 0).
      + destruct (Hchars [48] (with_log s (serial_write_int (log s) 0)) Hs) as (b & p & E).
        exists b, p, (serial_write_int (log s) 0). change (print_char_impl ?x 48) with (print_chars x [48]).
        rewrite E. by destruct s.
      + destruct (Hchars (int_string n) (with_log s (serial_write_int (log s) n)) Hs) as (b & p & ->).
        exists b, p, (serial_write_int (log s) n). by destruct s. }
  destruct H1 as (b & p & o & E1). unfold run_calls. cbn [fold_left]. fold (run_calls (run_call s k) ks).
  rewrite E1. destruct (IH (with_log (with_capture s true b p) o)) as (b' & p' & o' & ->); [done|].
  by exists b', p', o'.
Qed.

(** Capturing switched off, and the text read back *)
Lemma capture_off (s0 s : screen) (out : list Z) :
  capturing s0 s out -> fst (get_capture (set_capture s false)) = captured out.
Proof.
  intros [_ Hlen Hpos Htake _]. pose proof (length_captured out) as Hle.
  unfold set_capture, get_capture. cbn [with_capture capture_pos capture_buf fst].
  assert (Hc : clamp_pos (capture_pos s) = capture_pos s).
  { unfold clamp_pos. rewrite Hpos, (proj2 (Z.leb_gt _ _)) by (unfold CAPTURE_SIZE; lia). done. }
  rewrite !Hc, Hpos. unfold set_byte. rewrite Nat2Z.id, list_insert_insert_eq.
  rewrite insert_take_drop by (rewrite Hlen; unfold CAPTURE_SIZE; lia).
  rewrite Htake, until_nul_app by apply captured_nonzero. cbn [until_nul]. apply app_nil_r.
Qed.

Lemma split_at_app (c : Z) (l r : list Z) : ~ In c l -> split_at c (l ++ c :: r) = (l, c :: r).
Proof.
  induction l as [|a l IH]; intros Hn; cbn [split_at app].
  - by rewrite Z.eqb_refl.
  - rewrite (proj2 (Z.eqb_neq a c)) by (intros ->; apply Hn; by left). rewrite IH; [done|].
    intros Hi. apply Hn. by right.
Qed.

Lemma split_at_none (c : Z) (l : list Z) : ~ In c l -> split_at c l = (l, []).
Proof.
  induction l as [|a l IH]; intros Hn; cbn [split_at]; [done|].
  rewrite (proj2 (Z.eqb_neq a c)) by (intros ->; apply Hn; by left). rewrite IH; [done|].
  intros Hi. apply Hn. by right.
Qed.

Section pipes.

Context {D : Type} `{nmachine D} {N : Type} `{Net.Nic N}.
Variables (junk_extents : list Nvfs.nvfs_extent) (junk_inode : Z -> Nvfs.nvfs_inode) (stack : Z -> Z).
Variables (kb_status : list Z) (fuel : nat).
Context (C R : Z) (show : Z -> bool) (frame : Z -> Prop) (shows : screen -> term -> Prop).
Context `{!Console C R show frame shows}.

#[local] Abbreviation execute := (execute_cmd (N := N) junk_extents junk_inode stack kb_status fuel).
#[local] Abbreviation handle := (handle_cmd (N := N) junk_extents junk_inode stack kb_status fuel).

(** The console while the first command runs *)
Lemma pipe_capture (sc : screen) (t : term) (out : list call) :
  shows sc t -> length (capture_buf sc) = Z.to_nat CAPTURE_SIZE -> Forall prints out ->
  exists sc', get_capture (set_capture (run_calls (set_capture sc true) out) false) =
      (captured (concat (map output out)), sc') /\ shows sc' t /\ vram sc' = vram sc.
Proof.
  intros Hs Hl Hp.
  assert (H0 : capturing sc (set_capture sc true) []) by (split; cbn; try done; by rewrite length_set_byte).
  pose proof (capture_calls_step out sc _ [] Hp H0) as Hc. rewrite app_nil_l in Hc.
  pose proof (capture_off sc _ _ Hc) as Hcap.
  destruct (capture_shape out (set_capture sc true) Hp eq_refl) as (b & p & o & E). rewrite E in *.
  destruct (get_capture _) as [txt sc'] eqn:Eg. cbn [fst] in Hcap. subst txt.
  exists sc'. split; [done|]. injection Eg as _ <-. split; [|done].
  apply (con_capture (with_log (with_capture sc false b p) o)), con_log, con_capture, Hs.
Qed.

(** [cat] and [echo] without an argument print the pipe. *)
Lemma prints_pipe (cmd : list Z) (s : sys D N) (txt : list Z) :
  cmd = str "cat" \/ cmd = str "echo" -> pipe s = Some txt ->
  execute cmd [] s = ([PrintString txt], (inl tt, s)).
Proof.
  intros [-> | ->] Hp.
  - change (cmd_cat (D := D) (N := N) [] s = ([PrintString txt], (inl tt, s))).
    unfold cmd_cat, bind, get. by rewrite Hp.
  - change (cmd_echo (N := N) junk_extents stack [] s = ([PrintString txt], (inl tt, s))).
    unfold cmd_echo, bind, get. cbn [split_at length]. change (255 <=? Z.of_nat 0) with false. cbv beta iota. by rewrite Hp.
Qed.

(** C16: A pipe shows what the first command printed.  For a line "c1 | cat"
    or "c1 | echo" where c1 is any command but "clear" that returns, on any
    console (text or graphics) that shows terminal [t]: while the first
    command runs nothing appears on the screen; afterwards the screen shows
    [t] with the first command's output printed on it, line breaks and
    printable characters in order and cut at 4095 characters; the system is
    in the state in which the first command left it, the pipe is empty and
    capturing is off again, and nothing outside the display's memory
    changed. *)
Theorem pipe_shows_output (lhs rhs cmd1 arg1 cmd2 : list Z) (sc : screen) (t : term) (s s1 : sys D N) (out : list call) :
  shows sc t -> length (capture_buf sc) = Z.to_nat CAPTURE_SIZE ->
  ~ In 124 lhs -> (length lhs <= 255)%nat -> (length rhs <= 255)%nat ->
  split_cmd (trim_end lhs) = (cmd1, arg1) -> cmd1 <> [] -> cmd1 <> str "clear" ->
  split_cmd (skip_spaces rhs) = (cmd2, []) -> cmd2 = str "cat" \/ cmd2 = str "echo" ->
  execute cmd1 arg1 s = (out, (inl tt, s1)) ->
  exists sc', handle (lhs ++ 124 :: rhs) (sc, s) = (None, (sc', set_pipe s1 None)) /\
    shows sc' (fold_left (term_char C R show) (captured (concat (map output out))) t) /\
    mem_same (vram sc) (vram sc') (fun a => ~ frame a).
Proof.
  intros Hs Hl Hn Hll Hlr Hs1 Hne Hcl Hs2 Hc2 He. unfold handle_cmd. rewrite split_at_app by done.
  rewrite (take_ge lhs), (take_ge rhs) by lia. rewrite Hs1, Hs2.
  destruct cmd1 as [|a1 c1]; [done|]. destruct cmd2 as [|a2 c2]; [by destruct Hc2|].
  pose proof (execute_cmd_quiet junk_extents junk_inode stack kb_status fuel (a1 :: c1) arg1 Hcl s) as Hq.
  unfold run_pipe, run_cmd. rewrite He in *. cbn [fst] in Hq.
  destruct (pipe_capture sc t out Hs Hl Hq) as (sc2 & -> & Hs2' & Hv2).
  set (txt := captured (concat (map output out))).
  assert (Hp : pipe_of txt = txt).
  { unfold pipe_of. apply take_ge. unfold txt. apply length_captured. }
  rewrite Hp, (prints_pipe (a2 :: c2) (set_pipe s1 (Some txt)) txt Hc2 eq_refl).
  exists (run_calls sc2 [PrintString txt]). split; [by destruct s1|].
  destruct (run_calls_shows C R show frame shows [PrintString txt] sc2 t Hs2') as [Hsh Hm].
  { constructor; [|constructor]. cbn [call_ok]. unfold txt, captured. apply Forall_take, List.Forall_forall.
    intros c Hc. apply filter_In in Hc as [_ Hk]. apply kept_byte in Hk. lia. }
  rewrite <- Hv2. split; [exact Hsh|exact Hm].
Qed.

End pipes.

(** ** Files *)

Section files.

Context {D : Type} `{ML : MachineLaws D} {HD : HealthyDrive D} {N : Type} `{Net.Nic N}.
Variables (junk_extents : list Nvfs.nvfs_extent) (junk_inode : Z -> Nvfs.nvfs_inode) (stack : Z -> Z).
Variables (kb_status : list Z) (fuel : nat).

#[local] Abbreviation handle := (handle_cmd (N := N) junk_extents junk_inode stack kb_status fuel).

Lemma data_bytes_content (text rest : list Z) : is_bytes text ->
  data_bytes (content_bytes stack text rest) (Z.of_nat (length text)) = text.
Proof.
  intros Hb. unfold data_bytes. apply bytes_ext; [rewrite length_map, length_seqZ; lia|].
  rewrite length_map, length_seqZ. intros i Hi. unfold byte_at at 1. rewrite list_lookup_fmap, lookup_seqZ_lt by lia.
  cbn [fmap option_fmap option_map default]. rewrite Z2Nat.id, Z.add_0_l by lia. unfold content_bytes.
  rewrite (proj2 (Z.ltb_lt _ _)) by (rewrite length_app; cbn [length]; lia).
  assert (E : byte_at (text ++ 0 :: rest ++ [0]) i = byte_at text i).
  { unfold byte_at. by rewrite lookup_app_l by lia. }
  rewrite E. apply u8_small, is_bytes_byte_at, Hb.
Qed.

Lemma skip_spaces_word (c : Z) (l : list Z) : c <> 32 -> skip_spaces (c :: l) = c :: l.
Proof. intros Hc. cbn [skip_spaces]. by rewrite (proj2 (Z.eqb_neq c 32)) by done. Qed.

(** A word, a space, and an argument that starts with something else *)
Lemma split_cmd_arg (w a : list Z) (c : Z) :
  w <> [] -> ~ In 32 w -> c <> 32 -> split_cmd (w ++ 32 :: c :: a) = (w, c :: a).
Proof.
  intros Hw Hn Hc. unfold split_cmd. destruct w as [|x w]; [done|].
  rewrite <- app_comm_cons, skip_spaces_word, app_comm_cons by (intros ->; apply Hn; by left).
  rewrite split_at_app by done. cbn [skip_spaces]. by rewrite (proj2 (Z.eqb_neq c 32)) by done.
Qed.

(** A line without a pipe *)
Lemma handle_plain (w a : list Z) (c : Z) (st : screen * sys D N) :
  w <> [] -> forallb (fun x => negb (x =? 32) && negb (x =? 124)) w = true -> c <> 32 -> Forall (fun x => x <> 124) (c :: a) ->
  handle (w ++ 32 :: c :: a) st =
  run_cmd (execute_cmd (N := N) junk_extents junk_inode stack kb_status fuel w (c :: a)) st.
Proof.
  intros Hw Hf Hc Ha. rewrite forallb_forall in Hf. unfold handle_cmd. rewrite split_at_none.
  - rewrite split_cmd_arg; try done. intros Hi. by apply Hf in Hi.
  - intros Hi. apply in_app_or in Hi as [Hi|[Hi|Hi]]; [| |].
    + by apply Hf in Hi.
    + lia.
    + by eapply List.Forall_forall in Ha; [|exact Hi].
Qed.

(** [echo text > name] writes the text to the file. *)
Lemma echo_writes (text name : list Z) (n0 : Z) (s : sys D N) :
  ~ In 62 text -> Z.of_nat (length text) <= 254 -> n0 <> 32 ->
  let w := Nvfs.nvfs_write junk_extents (n0 :: name) (content_bytes stack text (32 :: n0 :: name))
             (Z.of_nat (length text)) (files s) in
  execute_cmd (N := N) junk_extents junk_inode stack kb_status fuel (str "echo") (text ++ 62 :: 32 :: n0 :: name) s =
  report (fst w) (set_files s (snd w)).
Proof.
  intros He Hl Hn w.
  change (cmd_echo (N := N) junk_extents stack (text ++ 62 :: 32 :: n0 :: name) s = report (fst w) (set_files s (snd w))).
  unfold cmd_echo. rewrite split_at_app by done. rewrite (proj2 (Z.leb_gt 255 _)) by lia.
  change (32 =? 62) with false. cbv beta iota zeta.
  cbn [skip_spaces]. change (32 =? 32) with true. cbv beta iota. rewrite (proj2 (Z.eqb_neq n0 32)) by done.
  unfold bind at 1, on_files. fold w. destruct w as [r f']. cbn [fst snd].
  by destruct (report r (set_files s f')) as [? [[]]].
Qed.

(** [cat] of a file of text *)
Lemma cat_prints (name text : list Z) (c0 n0 : Z) (s : sys D N) :
  Forall (fun c => c <> 0) (c0 :: text) -> fst (Nvfs.nvfs_read (n0 :: name) 511 (files s)) = Some (c0 :: text) ->
  exists s2, execute_cmd (N := N) junk_extents junk_inode stack kb_status fuel (str "cat") (n0 :: name) s =
    ([PrintString (c0 :: text); PrintChar 10], (inl tt, s2)).
Proof.
  intros Hz Hr. change (execute_cmd (N := N) junk_extents junk_inode stack kb_status fuel (str "cat") (n0 :: name))
    with (cmd_cat (D := D) (N := N) (n0 :: name)).
  unfold cmd_cat, bind, on_files. destruct (Nvfs.nvfs_read (n0 :: name) 511 (files s)) as [rd f2]. cbn [fst] in Hr. subst rd.
  eexists. replace (until_nul (c0 :: text)) with (c0 :: text); [reflexivity|].
  rewrite <- (app_nil_r (c0 :: text)) at 2. rewrite until_nul_app; [by rewrite app_nil_r|done].
Qed.

(** C15: The shell on the file system: what "echo text > name" writes, "cat
    name" prints.  For a path [name] that names an existing file on a mounted
    file system in order, on a drive that does not fail, and a text of at
    most 254 characters without the shell's > and |, the first line prints OK
    and then the second line prints exactly the text and a line break, or the
    first prints the file system's error and the file reads as before. *)
Theorem echo_then_cat (text name : list Z) (c0 n0 inum : Z) (sc : screen) (s : sys D N) :
  let line1 := str "echo " ++ (c0 :: text) ++ str "> " ++ (n0 :: name) in
  let line2 := str "cat " ++ (n0 :: name) in
  let size := Z.of_nat (length (c0 :: text)) in
  Forall (fun c => 0 < c < 256 /\ c <> 62 /\ c <> 124) (c0 :: text) -> c0 <> 32 -> size <= 254 ->
  Forall (fun c => c <> 124) (n0 :: name) -> n0 <> 32 ->
  updatable (files s) (n0 :: name) inum ->
  exists sc1 s1, handle line1 (sc, s) = (None, (sc1, s1)) /\
    (sc1 = run_calls sc [PrintString (str "OK" ++ nl)] /\
     (exists s2, handle line2 (sc1, s1) = (None, (run_calls sc1 [PrintString (c0 :: text); PrintChar 10], s2))) \/
     (exists msg, sc1 = run_calls sc [PrintString msg; PrintString nl]) /\
     forall max, fst (Nvfs.nvfs_read (n0 :: name) max (files s1)) = fst (Nvfs.nvfs_read (n0 :: name) max (files s))).
Proof.
  intros line1 line2 size Ht Hc0 Hsz Hname Hn0 Hup.
  assert (Hfit : fits (files s) (Nvfs.sectors_for size)).
  { left. apply run_fits_one. assert (0 <= size) by (unfold size; lia). rewrite sectors_for_eq by lia. div_mod_lia. }
  assert (Htb : is_bytes (c0 :: text)) by (eapply Forall_impl; [exact Ht|]; unfold is_byte; intros; cbn in *; lia).
  assert (He : ~ In 62 (c0 :: text)) by (intros Hi; eapply List.Forall_forall in Ht; [|exact Hi]; cbn in Ht; lia).
  assert (E1 : handle line1 (sc, s) =
    run_cmd (execute_cmd (N := N) junk_extents junk_inode stack kb_status fuel (str "echo")
               (c0 :: text ++ 62 :: 32 :: n0 :: name)) (sc, s)).
  { apply (handle_plain (str "echo")); [done|reflexivity|done|].
    apply (Forall_app_2 _ (c0 :: text)); [eapply Forall_impl; [exact Ht|]; cbn; lia|].
    constructor; [lia|]. constructor; [lia|exact Hname]. }
  rewrite E1. clear E1. rewrite (app_comm_cons text).
  unfold run_cmd. rewrite (echo_writes (c0 :: text) name n0 s He Hsz Hn0). fold size.
  set (data := content_bytes stack (c0 :: text) (32 :: n0 :: name)).
  destruct (Nvfs.nvfs_write junk_extents (n0 :: name) data size (files s)) as [r f'] eqn:Ew. cbn [fst snd].
  pose proof Hup as (Hh & (Hm & _) & Hl & Hi & _).
  destruct (write_existing junk_extents (n0 :: name) data size inum (files s) Hh Hm Hl Hi) as (f1 & Hh1 & He1 & Hv1 & Ew').
  rewrite Ew' in Ew.
  destruct (update_then_read (n0 :: name) data size inum (files s) f1 r f' Hup ltac:(unfold size; lia) Hfit Hh1 He1 Hv1 Ew)
    as [[-> Hok]|[-> Hold]].
  - cbn [report print emit]. do 2 eexists. split; [reflexivity|]. left. split; [done|].
    destruct (cat_prints name text c0 n0 (set_files s f')) as [s2 E2].
    + eapply Forall_impl; [exact Ht|]. cbn. lia.
    + cbn [files set_files]. rewrite Hok. unfold data, size.
      by rewrite data_bytes_content, take_ge by (done || (unfold size in Hsz; lia)).
    + exists s2. etransitivity; [by apply (handle_plain (str "cat") name n0)|].
      unfold run_cmd. by rewrite E2.
  - cbn [report]. unfold print_errno, bind, get, emit. do 2 eexists. split; [reflexivity|]. right.
    split; [by eexists|]. intros max. cbn [files set_files]. apply Hold.
Qed.

End files.

(** ** Witnesses *)

(** A system with the demonstration disk, no network and one processor *)
#[local] Instance silent_nic : Net.Nic unit := {
  Net.rtl8139_send _ w := (0, w); Net.rtl8139_recv w := (None, w); Net.get_ticks w := (0, w) }.

Definition demo_sys : sys ramdisk unit :=
  mkSys (demo_fs None) (Task.mkKernel ∅ 0 1 [] 0 (Paging.mkVm ∅ 0 0 false (Pfa.mkPfa [] 0)))
    (Keyboard.mkKb 0 false false false (replicate 256 0) 0 0 43) (Ata.mkAta [true; false; false; false] [str "DISK"; []; []; []])
    (Net.mkNet [] 0 [] false false 0 0 [] 0 tt) ([], 1) Sched.scheduler_init None.

(** "ver | cat" on a cleared text screen prints the version once. *)
Lemma pipe_shows_output_witness :
  exists sc', handle_cmd [] (fun _ => NvfsDemo.dir_inode) (fun _ => 0) [] 10 (str "ver | cat")
      (clear_screen boot_screen, demo_sys) = (None, (sc', demo_sys)) /\
    vget (vram sc') 1 = 3840 + 111.
Proof.
  destruct (pipe_shows_output (D := ramdisk) (N := unit) [] (fun _ => NvfsDemo.dir_inode) (fun _ => 0) [] 10
      MAX_COLS MAX_ROWS (fun _ => true) in_text text_shows
      (str "ver ") (str " cat") (str "ver") [] (str "cat") (clear_screen boot_screen) (mkTerm blank_grid 0 0)
      demo_sys demo_sys [PrintString (str "Noverix v0.1" ++ nl)]) as (sc' & E & Hs & _).
  - exact (proj1 (text_cleared boot_screen eq_refl eq_refl)).
  - reflexivity.
  - cbn. lia.
  - cbn. lia.
  - cbn. lia.
  - reflexivity.
  - discriminate.
  - discriminate.
  - reflexivity.
  - by left.
  - reflexivity.
  - exists sc'. split; [exact E|].
    exact (tx_cells _ _ Hs 0 1 ltac:(unfold MAX_ROWS; lia) ltac:(unfold MAX_COLS; lia)).
Defined.

(** "echo hi > a", then "cat a" *)
Lemma echo_then_cat_witness :
  exists sc1 s1, handle_cmd [] (fun _ => NvfsDemo.dir_inode) (fun _ => 0) [] 10 (str "echo hi> a")
      (boot_screen, demo_sys) = (None, (sc1, s1)) /\
    (sc1 = run_calls boot_screen [PrintString (str "OK" ++ nl)] /\
     (exists s2, handle_cmd [] (fun _ => NvfsDemo.dir_inode) (fun _ => 0) [] 10 (str "cat a") (sc1, s1) =
        (None, (run_calls sc1 [PrintString (str "hi"); PrintChar 10], s2))) \/
     (exists msg, sc1 = run_calls boot_screen [PrintString msg; PrintString nl]) /\
     forall max, fst (Nvfs.nvfs_read (str "a") max (files s1)) = fst (Nvfs.nvfs_read (str "a") max (demo_fs None))).
Proof.
  apply (echo_then_cat (D := ramdisk) (N := unit) [] (fun _ => NvfsDemo.dir_inode) (fun _ => 0) [] 10
    [105] [] 104 97 1 boot_screen demo_sys).
  - repeat constructor; lia.
  - lia.
  - vm_compute. discriminate.
  - repeat constructor; lia.
  - lia.
  - exact demo_updatable.
Defined.

(** The number of free frames is subtracted from the frames of 1 GB, whatever
    the machine has: with eight frames, all of them free, [mem] reports
    262136 used. *)
Lemma mem_counts_missing_memory :
  let s := set_tasks demo_sys (Task.mkKernel ∅ 0 1 [] 0 (Paging.mkVm ∅ 0 0 false (Pfa.mkPfa [0] 8))) in
  In (PrintInt 262136) (fst (cmd_mem s)).
Proof. vm_compute. intuition. Qed.
