(* ===== verification/Syscall.v ===== *)
(** * The system calls of kernel/elf.c

    [syscall_handler] dispatches on EAX of the saved registers and returns
    the stack pointer from which the entry stub restores the registers: the
    caller's frame, or another task's.  What it calls is the class
    [SysOps]; user pointers are passed through as numbers, as the code
    does.  The instance [kernel_ops] supplies the calls that take no user
    pointer from the models of the console, the keyboard, the tasks and the
    file system. *)
From S2P Require Import Prelude Bytes Memory Pfa Paging BlockDev Nvfs Keyboard Task Pci Apic Serial Graphics Screen ScreenProps Idt.

Module Syscall.
Import Idt.

Definition SYS_EXIT : Z := 0.
Definition SYS_CLEAR_SCREEN : Z := 1.
Definition SYS_PRINT_CHAR : Z := 2.
Definition SYS_PRINT_STRING : Z := 3.
Definition SYS_PRINT_HEX : Z := 4.
Definition SYS_PRINT_INT : Z := 5.
Definition SYS_SET_CURSOR : Z := 6.
Definition SYS_GET_CHAR : Z := 7.
Definition SYS_READ_CHAR : Z := 8.
Definition SYS_IS_GRAPHICS : Z := 9.
Definition SYS_DRAW_PIXEL : Z := 10.
Definition SYS_FILL_RECT : Z := 11.
Definition SYS_FB_COLS : Z := 12.
Definition SYS_FB_ROWS : Z := 13.
Definition SYS_SLEEP_MS : Z := 14.
Definition SYS_GET_TICKS : Z := 15.
Definition SYS_MALLOC : Z := 16.
Definition SYS_FREE : Z := 17.
Definition SYS_NVFS_READ : Z := 18.
Definition SYS_NVFS_WRITE : Z := 19.
Definition SYS_NVFS_APPEND : Z := 20.
Definition SYS_NVFS_DELETE : Z := 21.
Definition SYS_NVFS_MKDIR : Z := 22.
Definition SYS_NVFS_RMDIR : Z := 23.
Definition SYS_NVFS_CHDIR : Z := 24.
Definition SYS_NVFS_GET_CWD : Z := 25.
Definition SYS_NVFS_LIST : Z := 26.
Definition SYS_NVFS_STRERROR : Z := 27.
Definition SYS_NVFS_IS_MOUNTED : Z := 28.
Definition SYS_YIELD : Z := 29.

(** The calls of other components; [int] arguments are signed, results are
    the C values. *)
Class SysOps (K : Type) := {
  clear_screen : K -> K;
  print_char : Z -> K -> K;
  print_string : Z -> K -> K;
  print_hex : Z -> K -> K;
  print_int : Z -> K -> K;
  set_cursor : Z -> Z -> K -> K;
  get_char : K -> Z * K;
  read_char : K -> Z * K;
  is_graphics_active : K -> bool;
  draw_pixel : Z -> Z -> Z -> K -> K;
  fill_rect : Z -> Z -> Z -> Z -> Z -> K -> K;
  fb_cols : K -> Z;
  fb_rows : K -> Z;
  get_ticks : K -> Z;
  malloc_user : Z -> K -> Z * K;
  free_user : Z -> K -> K;
  nvfs_read : Z -> Z -> Z -> K -> Z * K;
  nvfs_write : Z -> Z -> Z -> K -> Z * K;
  nvfs_append : Z -> Z -> Z -> K -> Z * K;
  nvfs_delete : Z -> K -> Z * K;
  nvfs_mkdir : Z -> K -> Z * K;
  nvfs_rmdir : Z -> K -> Z * K;
  nvfs_chdir : Z -> Z -> K -> Z * K;
  nvfs_get_cwd : K -> Z;
  nvfs_list : Z -> K -> Z * K;
  (** the address of the message *)
  nvfs_strerror : Z -> Z;
  nvfs_is_mounted : K -> bool;
  (** the stack pointer of the next task; 0 for none *)
  exit_task : K -> Z * K;
  task_block_and_switch : Z -> Z -> K -> Z * K;
  task_yield : Z -> K -> Z * K
}.

Definition set_eax (r : registers) (v : Z) : registers :=
  mkRegs (gs r) (fs r) (es r) (ds r) (edi r) (esi r) (ebp r) (esp r) (ebx r) (edx r) (ecx r) (u32 v)
    (int_no r) (err_code r) (eip r) (cs r) (eflags r) (useresp r) (ss r).

Section syscalls.

Context {K : Type} `{SysOps K}.

(** The frame at [frame] holds [r]: the stack pointer to continue with, the
    frame's new contents, and the rest of the kernel. *)
Definition done (frame : Z) (r : registers) (v : Z) (k : K) : Z * registers * K := (frame, set_eax r v, k).

(** A case that stores its result in EAX *)
Definition result (frame : Z) (r : registers) (x : Z * K) : Z * registers * K := done frame r (fst x) (snd x).

Definition syscall_handler (frame : Z) (r : registers) (k : K) : Z * registers * K :=
  let num := eax r in
  if num =? SYS_EXIT then let '(esp, k) := exit_task k in (esp, r, k)
  else if num =? SYS_CLEAR_SCREEN then done frame r 0 (clear_screen k)
  else if num =? SYS_PRINT_CHAR then done frame r 0 (print_char (u8 (ebx r)) k)
  else if num =? SYS_PRINT_STRING then done frame r 0 (print_string (ebx r) k)
  else if num =? SYS_PRINT_HEX then done frame r 0 (print_hex (ebx r) k)
  else if num =? SYS_PRINT_INT then done frame r 0 (print_int (ebx r) k)
  else if num =? SYS_SET_CURSOR then done frame r 0 (set_cursor (i32 (ebx r)) (i32 (ecx r)) k)
  else if num =? SYS_GET_CHAR then let '(c, k) := get_char k in done frame r (u8 c) k
  else if num =? SYS_READ_CHAR then let '(c, k) := read_char k in done frame r (u8 c) k
  else if num =? SYS_IS_GRAPHICS then done frame r (c_bool (is_graphics_active k)) k
  else if num =? SYS_DRAW_PIXEL then done frame r 0 (draw_pixel (i32 (ebx r)) (i32 (ecx r)) (edx r) k)
  else if num =? SYS_FILL_RECT then
    done frame r 0 (fill_rect (i32 (ebx r)) (i32 (ecx r)) (i32 (edx r)) (i32 (esi r)) (edi r) k)
  else if num =? SYS_FB_COLS then done frame r (fb_cols k) k
  else if num =? SYS_FB_ROWS then done frame r (fb_rows k) k
  else if num =? SYS_SLEEP_MS then
    let wake_ticks := u32 (get_ticks k + u32 (ebx r + 9) / 10) in
    let '(esp, k) := task_block_and_switch frame wake_ticks k in (esp, r, k)
  else if num =? SYS_YIELD then
    let '(esp, k) := task_yield frame k in
    if esp =? 0 then done frame r 0 k else (esp, r, k)
  else if num =? SYS_GET_TICKS then done frame r (get_ticks k) k
  else if num =? SYS_MALLOC then result frame r (malloc_user (ebx r) k)
  else if num =? SYS_FREE then done frame r 0 (free_user (ebx r) k)
  else if num =? SYS_NVFS_READ then result frame r (nvfs_read (ebx r) (ecx r) (edx r) k)
  else if num =? SYS_NVFS_WRITE then result frame r (nvfs_write (ebx r) (ecx r) (edx r) k)
  else if num =? SYS_NVFS_APPEND then result frame r (nvfs_append (ebx r) (ecx r) (edx r) k)
  else if num =? SYS_NVFS_DELETE then result frame r (nvfs_delete (ebx r) k)
  else if num =? SYS_NVFS_MKDIR then result frame r (nvfs_mkdir (ebx r) k)
  else if num =? SYS_NVFS_RMDIR then result frame r (nvfs_rmdir (ebx r) k)
  else if num =? SYS_NVFS_CHDIR then result frame r (nvfs_chdir (ebx r) (ecx r) k)
  else if num =? SYS_NVFS_GET_CWD then done frame r (nvfs_get_cwd k) k
  else if num =? SYS_NVFS_LIST then result frame r (nvfs_list (ebx r) k)
  else if num =? SYS_NVFS_STRERROR then done frame r (nvfs_strerror (i32 (ebx r))) k
  else if num =? SYS_NVFS_IS_MOUNTED then done frame r (c_bool (nvfs_is_mounted k)) k
  else done frame r (-1) k.

(** ** The registers a program gets back *)

(** The calls after which another task may run *)
Definition switches (num : Z) : bool := (num =? SYS_EXIT) || (num =? SYS_SLEEP_MS) || (num =? SYS_YIELD).

(** Every register but EAX *)
Definition same_but_eax (r r' : registers) : Prop := exists v, 0 <= v < 4294967296 /\ r' = set_eax r v.

Lemma done_frame (frame : Z) (r : registers) (v : Z) (k : K) :
  let '(esp, r', _) := done frame r v k in esp = frame /\ same_but_eax r r'.
Proof. split; [done|]. exists (u32 v). split; [apply u32_range|]. cbn. unfold set_eax. by rewrite (u32_small (u32 v)) by apply u32_range. Qed.

Lemma handler_done (frame : Z) (r : registers) (k : K) :
  switches (eax r) = false ->
  exists v k', syscall_handler frame r k = done frame r v k' /\
    (eax r < 0 \/ 29 < eax r -> v = -1 /\ k' = k).
Proof.
  unfold switches, SYS_EXIT, SYS_SLEEP_MS, SYS_YIELD. intros Hs.
  assert (Hn : forall n, 0 <= n <= 29 -> eax r = n ->
    (exists v k', syscall_handler frame r k = done frame r v k') ->
    exists v k', syscall_handler frame r k = done frame r v k' /\ (eax r < 0 \/ 29 < eax r -> v = -1 /\ k' = k)).
  { intros n Hr E (v & k' & ->). exists v, k'. split; [done|lia]. }
  assert (Hk : 0 <= eax r <= 29 \/ (eax r < 0 \/ 29 < eax r)) by lia. destruct Hk as [Hk|Hk].
  - apply (Hn (eax r)); [done|done|]. unfold syscall_handler, result. clear Hn.
    repeat match goal with
    | |- context [if eax r =? ?n then _ else _] =>
        destruct (Z.eqb_spec (eax r) n) as [E|?]; [first [by eauto | by (destruct (get_char k); eauto)
          | by (destruct (read_char k); eauto) | rewrite E in Hs; discriminate Hs]|]
    end.
    eauto.
  - exists (-1), k. split; [|done]. unfold syscall_handler.
    repeat match goal with
    | |- context [if eax r =? ?n then _ else _] =>
        rewrite (proj2 (Z.eqb_neq (eax r) n)) by (let x := eval cbv in n in change n with x; lia)
    end.
    reflexivity.
Qed.

(** What a program sees of a system call.  A call that is not exit, sleep
    or yield returns to the caller's own frame with every register but EAX
    as the program left it; an unknown number returns -1 and changes nothing
    in the kernel.  A yield with no other task to run returns 0 in the same
    way.  In the calls that switch tasks the caller's saved registers are
    not touched, so that the program continues later with all of them. *)
Theorem syscall_preserves_registers (frame : Z) (r : registers) (k : K) :
  let '(esp, r', k') := syscall_handler frame r k in
  (switches (eax r) = false -> esp = frame /\ same_but_eax r r') /\
  (eax r < 0 \/ 29 < eax r -> r' = set_eax r (-1) /\ k' = k) /\
  (eax r = SYS_YIELD -> fst (task_yield frame k) = 0 -> esp = frame /\ r' = set_eax r 0) /\
  (switches (eax r) = true -> r' = r \/ esp = frame /\ r' = set_eax r 0).
Proof.
  destruct (switches (eax r)) eqn:Hs.
  - unfold switches in Hs. unfold syscall_handler.
    destruct (Z.eqb_spec (eax r) SYS_EXIT) as [->|].
    { destruct (exit_task k). split; [done|]. split; [unfold SYS_EXIT; lia|]. split; [done|]. auto. }
    destruct (Z.eqb_spec (eax r) SYS_SLEEP_MS) as [->|].
    { cbn [Z.eqb Pos.eqb SYS_SLEEP_MS]. destruct (task_block_and_switch _ _ k).
      split; [done|]. split; [unfold SYS_SLEEP_MS; lia|]. split; [done|]. auto. }
    destruct (Z.eqb_spec (eax r) SYS_YIELD) as [->|]; [|done].
    cbn [Z.eqb Pos.eqb SYS_YIELD]. destruct (task_yield frame k) as [e k1]. cbn [fst].
    destruct (Z.eqb_spec e 0); (split; [done|]); (split; [unfold SYS_YIELD; lia|]); (split; [done|]); auto.
  - destruct (handler_done frame r k Hs) as (v & k' & -> & Hu).
    destruct (done_frame frame r v k') as [He Hr]. cbn. split; [done|]. split.
    + intros Hn. by destruct (Hu Hn) as [-> ->].
    + split; [|done]. intros E. rewrite E in Hs. discriminate Hs.
Qed.

End syscalls.

(** ** The kernel's components *)

Record ksys (D : Type) := mkKsys {
  tasks : Task.kernel; con : Screen.screen; kbd : Keyboard.kb; files : Nvfs.fs D; cpu : Z }.

#[global] Arguments mkKsys {D}.
#[global] Arguments tasks {D}.
#[global] Arguments con {D}.
#[global] Arguments kbd {D}.
#[global] Arguments files {D}.
#[global] Arguments cpu {D}.

Section components.

Context {D : Type}.

Definition on_con (f : Screen.screen -> Screen.screen) (k : ksys D) : ksys D :=
  mkKsys (tasks k) (f (con k)) (kbd k) (files k) (cpu k).

Definition on_fb (f : Graphics.gfx -> memory -> memory) : ksys D -> ksys D :=
  on_con (fun s => Screen.with_view s (Screen.cursor_x s) (Screen.cursor_y s) (f (Screen.fb s) (Screen.vram s))).

(** A call of the scheduler; its loops over the ring end (TaskProps.v). *)
Definition on_tasks (f : Task.kernel -> Z -> option (Z * Task.kernel)) (k : ksys D) : Z * ksys D :=
  match f (tasks k) (cpu k) with
  | Some (esp, t) => (esp, mkKsys t (con k) (kbd k) (files k) (cpu k))
  | None => (0, k)
  end.

(** The calls with user pointers, the wait for a key, and the addresses of
    the messages *)
Variables (p_string : Z -> ksys D -> ksys D) (p_read_char : ksys D -> Z * ksys D).
Variables (p_malloc : Z -> ksys D -> Z * ksys D) (p_free : Z -> ksys D -> ksys D).
Variables (p_read p_write p_append : Z -> Z -> Z -> ksys D -> Z * ksys D).
Variables (p_delete p_mkdir p_rmdir p_list : Z -> ksys D -> Z * ksys D).
Variables (p_chdir : Z -> Z -> ksys D -> Z * ksys D) (p_strerror : Z -> Z).

#[local] Instance kernel_ops : SysOps (ksys D) := {
  clear_screen := on_con Screen.clear_screen;
  print_char c := on_con (fun s => Screen.print_char s c);
  print_string := p_string;
  print_hex n := on_con (fun s => Screen.print_hex s n);
  print_int n := on_con (fun s => Screen.print_int s n);
  set_cursor x y := on_con (fun s => Screen.set_cursor s x y);
  get_char k := let '(c, b) := Keyboard.get_char (kbd k) in (c, mkKsys (tasks k) (con k) b (files k) (cpu k));
  read_char := p_read_char;
  is_graphics_active k := Graphics.fb_active (Screen.fb (con k));
  draw_pixel x y c := on_fb (fun g m => Graphics.draw_pixel g m x y c);
  fill_rect x y w h c := on_fb (fun g m => Graphics.fill_rect g m x y w h c);
  fb_cols k := Graphics.fb_width (Screen.fb (con k));
  fb_rows k := Graphics.fb_height (Screen.fb (con k));
  get_ticks k := Task.tick_count (tasks k);
  malloc_user := p_malloc;
  free_user := p_free;
  nvfs_read := p_read;
  nvfs_write := p_write;
  nvfs_append := p_append;
  nvfs_delete := p_delete;
  nvfs_mkdir := p_mkdir;
  nvfs_rmdir := p_rmdir;
  nvfs_chdir := p_chdir;
  nvfs_get_cwd k := Nvfs.nvfs_cwd (files k);
  nvfs_list := p_list;
  nvfs_strerror := p_strerror;
  nvfs_is_mounted k := Nvfs.mounted (files k);
  exit_task := on_tasks Task.sys_exit;
  task_block_and_switch frame wake := on_tasks (fun t c => Task.task_block_and_switch t c frame wake);
  task_yield frame := on_tasks (fun t c => Task.task_yield t c frame) }.

End components.
End Syscall.
