(* ===== verification/User.v ===== *)
(** * User programs: tests/noverix.h and tests/triangle.c

    [UserLib] is the library a program is compiled with: each routine puts
    its number and its arguments into registers and executes [int 0x80].
    It is modelled on top of [Syscall.syscall_handler], so that the theorem
    about it is the agreement of the two sides of the call.  [Triangle] is
    the program of the repository, as the sequence of library calls it
    makes for the values the clock returns. *)
From S2P Require Import Prelude Bytes Memory Text Graphics Idt Syscall.

Module UserLib.
Import Idt Syscall.

(** Conversion to [char] *)
Definition i8 (x : Z) : Z := let y := u8 x in if y <? 128 then y else y - 256.

Section library.

Context {K : Type} `{SysOps K}.

(** The address of the frame the entry stub pushes, and the program's
    registers before the call *)
Variables (frame : Z) (r0 : registers).

(** [asm volatile ("int $0x80" : : "a"(a), "b"(b), "c"(c), "d"(d), "S"(si), "D"(di))];
    [None] for a register the statement does not mention *)
Definition args (a : Z) (b c d si di : option Z) : registers :=
  mkRegs (gs r0) (fs r0) (es r0) (ds r0) (default (edi r0) di) (default (esi r0) si) (ebp r0) (esp r0)
    (default (ebx r0) b) (default (edx r0) d) (default (ecx r0) c) a 128 (err_code r0) (eip r0) (cs r0)
    (eflags r0) (useresp r0) (ss r0).

(** The value of EAX after the call when it returns to the program;
    [None] when another task runs first. *)
Definition int80 (r : registers) (k : K) : option (Z * K) :=
  let '(esp, r', k) := syscall_handler frame r k in if esp =? frame then Some (eax r', k) else None.

(** The three kinds of result: none, [int], [char], and an unsigned value
    or a pointer *)
Definition void (x : option (Z * K)) : option K := snd <$> x.
Definition as_int (x : option (Z * K)) : option (Z * K) := prod_map i32 id <$> x.
Definition as_char (x : option (Z * K)) : option (Z * K) := prod_map i8 id <$> x.

Definition sys_exit : registers := args SYS_EXIT None None None None None.

Definition clear_screen (k : K) := void (int80 (args SYS_CLEAR_SCREEN None None None None None) k).

Definition print_char (c : Z) (k : K) := void (int80 (args SYS_PRINT_CHAR (Some (u8 c)) None None None None) k).

Definition print_string (str : Z) (k : K) := void (int80 (args SYS_PRINT_STRING (Some str) None None None None) k).

Definition print_hex (num : Z) (k : K) := void (int80 (args SYS_PRINT_HEX (Some num) None None None None) k).

Definition print_int (num : Z) (k : K) := void (int80 (args SYS_PRINT_INT (Some num) None None None None) k).

Definition set_cursor (x y : Z) (k : K) :=
  void (int80 (args SYS_SET_CURSOR (Some (u32 x)) (Some (u32 y)) None None None) k).

Definition get_char (k : K) := as_char (int80 (args SYS_GET_CHAR None None None None None) k).

Definition read_char (k : K) := as_char (int80 (args SYS_READ_CHAR None None None None None) k).

Definition is_graphics_active (k : K) := as_int (int80 (args SYS_IS_GRAPHICS None None None None None) k).

Definition draw_pixel (x y color : Z) (k : K) :=
  void (int80 (args SYS_DRAW_PIXEL (Some (u32 x)) (Some (u32 y)) (Some color) None None) k).

Definition fill_rect (x y w h color : Z) (k : K) :=
  void (int80 (args SYS_FILL_RECT (Some (u32 x)) (Some (u32 y)) (Some (u32 w)) (Some (u32 h)) (Some color)) k).

Definition fb_cols (k : K) := as_int (int80 (args SYS_FB_COLS None None None None None) k).

Definition fb_rows (k : K) := as_int (int80 (args SYS_FB_ROWS None None None None None) k).

Definition sleep_ms (ms : Z) : registers := args SYS_SLEEP_MS (Some ms) None None None None.

Definition sys_yield : registers := args SYS_YIELD None None None None None.

Definition get_ticks (k : K) := int80 (args SYS_GET_TICKS None None None None None) k.

Definition malloc (size : Z) (k : K) := int80 (args SYS_MALLOC (Some size) None None None None) k.

Definition free (ptr : Z) (k : K) := void (int80 (args SYS_FREE (Some ptr) None None None None) k).

Definition nvfs_read (path out max : Z) (k : K) :=
  as_int (int80 (args SYS_NVFS_READ (Some path) (Some out) (Some max) None None) k).

Definition nvfs_write (path data size : Z) (k : K) :=
  as_int (int80 (args SYS_NVFS_WRITE (Some path) (Some data) (Some size) None None) k).

Definition nvfs_append (path data size : Z) (k : K) :=
  as_int (int80 (args SYS_NVFS_APPEND (Some path) (Some data) (Some size) None None) k).

Definition nvfs_delete (path : Z) (k : K) := as_int (int80 (args SYS_NVFS_DELETE (Some path) None None None None) k).

Definition nvfs_mkdir (path : Z) (k : K) := as_int (int80 (args SYS_NVFS_MKDIR (Some path) None None None None) k).

Definition nvfs_rmdir (path : Z) (k : K) := as_int (int80 (args SYS_NVFS_RMDIR (Some path) None None None None) k).

Definition nvfs_chdir (path out_inode : Z) (k : K) :=
  as_int (int80 (args SYS_NVFS_CHDIR (Some path) (Some out_inode) None None None) k).

Definition nvfs_get_cwd (k : K) := int80 (args SYS_NVFS_GET_CWD None None None None None) k.

Definition nvfs_list (path : Z) (k : K) := as_int (int80 (args SYS_NVFS_LIST (Some path) None None None None) k).

Definition nvfs_strerror (err : Z) (k : K) := int80 (args SYS_NVFS_STRERROR (Some (u32 err)) None None None None) k.

Definition nvfs_is_mounted (k : K) := as_int (int80 (args SYS_NVFS_IS_MOUNTED None None None None None) k).

(** ** Agreement with the kernel *)

Lemma int80_done (r : registers) (v : Z) (k k' : K) :
  syscall_handler frame r k = done frame r v k' -> int80 r k = Some (u32 v, k').
Proof. intros E. unfold int80. rewrite E. cbn. by rewrite Z.eqb_refl. Qed.

Lemma i32_u32 (x : Z) : i32 (u32 x) = i32 x.
Proof. unfold i32. cbv zeta. by rewrite (u32_small (u32 x)) by apply u32_range. Qed.

Lemma i32_int (x : Z) : -2147483648 <= x < 2147483648 -> i32 x = x.
Proof. intros. unfold i32, u32. cbv zeta. zcase; Z.div_mod_to_equations; lia. Qed.

Lemma i8_u32 (x : Z) : i8 (u32 (u8 x)) = i8 x.
Proof.
  unfold i8. cbv zeta. rewrite (u32_small (u8 x)) by (pose proof (u8_range x); lia).
  by rewrite (u8_small (u8 x)) by apply u8_range.
Qed.

(** An [int] argument *)
Definition int (x : Z) : Prop := -2147483648 <= x < 2147483648.

(** A wrapper on a call that stores its result in EAX *)
Ltac agrees := erewrite int80_done by reflexivity; cbn -[u32 i32 u8 i8]; rewrite ?i32_u32, ?i8_u32.

Lemma get_char_done (v : Z) (k' k : K) : Syscall.get_char k = (v, k') -> get_char k = Some (i8 v, k').
Proof.
  intros E. unfold get_char, as_char. erewrite int80_done by (cbn; rewrite E; reflexivity). cbn -[u32 u8 i8].
  by rewrite i8_u32.
Qed.

Lemma read_char_done (v : Z) (k' k : K) : Syscall.read_char k = (v, k') -> read_char k = Some (i8 v, k').
Proof.
  intros E. unfold read_char, as_char. erewrite int80_done by (cbn; rewrite E; reflexivity). cbn -[u32 u8 i8].
  by rewrite i8_u32.
Qed.

(** C18: The library and the kernel agree on every call: a routine of
    noverix.h returns to the program, for every kernel and whatever the
    other registers hold, having run the kernel's operation of that name
    once, with the same arguments ([int] arguments keep their sign), and
    with its result as the C type of the routine.  Exit, sleep and yield
    hand the processor to the task the scheduler chose, with the program's
    registers saved as they were; a sleep of [n] milliseconds waits for
    [n / 10] ticks, rounded up. *)
Theorem user_calls_reach_kernel (k : K) (x y w h p q n c : Z) :
  int x -> int y -> int w -> int h ->
  (clear_screen k = Some (Syscall.clear_screen k) /\
   print_char c k = Some (Syscall.print_char (u8 c) k) /\
   print_string p k = Some (Syscall.print_string p k) /\
   print_hex n k = Some (Syscall.print_hex n k) /\
   print_int n k = Some (Syscall.print_int n k) /\
   set_cursor x y k = Some (Syscall.set_cursor x y k) /\
   draw_pixel x y c k = Some (Syscall.draw_pixel x y c k) /\
   fill_rect x y w h c k = Some (Syscall.fill_rect x y w h c k) /\
   free p k = Some (Syscall.free_user p k)) /\
  (get_char k = Some (prod_map i8 id (Syscall.get_char k)) /\
   read_char k = Some (prod_map i8 id (Syscall.read_char k)) /\
   is_graphics_active k = Some (c_bool (Syscall.is_graphics_active k), k) /\
   fb_cols k = Some (i32 (Syscall.fb_cols k), k) /\
   fb_rows k = Some (i32 (Syscall.fb_rows k), k) /\
   get_ticks k = Some (u32 (Syscall.get_ticks k), k) /\
   malloc n k = Some (prod_map u32 id (Syscall.malloc_user n k))) /\
  (nvfs_read p q n k = Some (prod_map i32 id (Syscall.nvfs_read p q n k)) /\
   nvfs_write p q n k = Some (prod_map i32 id (Syscall.nvfs_write p q n k)) /\
   nvfs_append p q n k = Some (prod_map i32 id (Syscall.nvfs_append p q n k)) /\
   nvfs_delete p k = Some (prod_map i32 id (Syscall.nvfs_delete p k)) /\
   nvfs_mkdir p k = Some (prod_map i32 id (Syscall.nvfs_mkdir p k)) /\
   nvfs_rmdir p k = Some (prod_map i32 id (Syscall.nvfs_rmdir p k)) /\
   nvfs_chdir p q k = Some (prod_map i32 id (Syscall.nvfs_chdir p q k)) /\
   nvfs_get_cwd k = Some (u32 (Syscall.nvfs_get_cwd k), k) /\
   nvfs_list p k = Some (prod_map i32 id (Syscall.nvfs_list p k)) /\
   nvfs_strerror x k = Some (u32 (Syscall.nvfs_strerror x), k) /\
   nvfs_is_mounted k = Some (c_bool (Syscall.nvfs_is_mounted k), k)) /\
  (syscall_handler frame sys_exit k =
     (fst (exit_task k), sys_exit, snd (exit_task k)) /\
   (let wake := u32 (Syscall.get_ticks k + u32 (n + 9) / 10) in
    syscall_handler frame (sleep_ms n) k =
     (fst (task_block_and_switch frame wake k), sleep_ms n, snd (task_block_and_switch frame wake k))) /\
   (fst (task_yield frame k) <> 0 ->
    syscall_handler frame sys_yield k = (fst (task_yield frame k), sys_yield, snd (task_yield frame k)))).
Proof.
  intros Hx Hy Hw Hh. split_and!;
    unfold clear_screen, print_char, print_string, print_hex, print_int, set_cursor, draw_pixel, fill_rect, free,
      is_graphics_active, fb_cols, fb_rows, get_ticks, malloc, nvfs_read, nvfs_write, nvfs_append, nvfs_delete,
      nvfs_mkdir, nvfs_rmdir, nvfs_chdir, nvfs_get_cwd, nvfs_list, nvfs_strerror, nvfs_is_mounted,
      void, as_int.
  all: try (agrees; rewrite ?i32_int by done; done).
  - agrees. by rewrite (u8_small (u8 c)) by apply u8_range.
  - destruct (Syscall.get_char k) as [v k'] eqn:E. by rewrite (get_char_done v k' k E).
  - destruct (Syscall.read_char k) as [v k'] eqn:E. by rewrite (read_char_done v k' k E).
  - agrees. by destruct (Syscall.is_graphics_active k).
  - agrees. by destruct (Syscall.nvfs_is_mounted k).
  - cbn. by destruct (exit_task k).
  - cbn. by destruct (task_block_and_switch _ _ k).
  - cbn. destruct (task_yield frame k) as [e k']. cbn. intros He. by rewrite (proj2 (Z.eqb_neq e 0)).
Qed.

End library.

(** A kernel that records the calls it gets, the newest first, and answers
    a read with 5 and a yield with the frame 4096 *)
Definition log : Type := list (Z * list Z).

#[local] Instance log_ops : SysOps log := {
  clear_screen k := (1, []) :: k;
  print_char c k := (2, [c]) :: k;
  print_string p k := (3, [p]) :: k;
  print_hex n k := (4, [n]) :: k;
  print_int n k := (5, [n]) :: k;
  set_cursor x y k := (6, [x; y]) :: k;
  get_char k := (200, (7, []) :: k);
  read_char k := (200, (8, []) :: k);
  is_graphics_active k := true;
  draw_pixel x y c k := (10, [x; y; c]) :: k;
  fill_rect x y w h c k := (11, [x; y; w; h; c]) :: k;
  fb_cols k := 640;
  fb_rows k := 480;
  get_ticks k := 7;
  malloc_user n k := (0, (16, [n]) :: k);
  free_user p k := (17, [p]) :: k;
  nvfs_read p q n k := (5, (18, [p; q; n]) :: k);
  nvfs_write p q n k := (-1, (19, [p; q; n]) :: k);
  nvfs_append p q n k := (-1, (20, [p; q; n]) :: k);
  nvfs_delete p k := (-1, (21, [p]) :: k);
  nvfs_mkdir p k := (-1, (22, [p]) :: k);
  nvfs_rmdir p k := (-1, (23, [p]) :: k);
  nvfs_chdir p q k := (-1, (24, [p; q]) :: k);
  nvfs_get_cwd k := 1;
  nvfs_list p k := (-1, (26, [p]) :: k);
  nvfs_strerror e := 4660;
  nvfs_is_mounted k := true;
  exit_task k := (4096, (0, []) :: k);
  task_block_and_switch f w k := (4096, (14, [f; w]) :: k);
  task_yield f k := (4096, (29, [f]) :: k) }.

Definition zero_regs : registers := mkRegs 0 0 0 0 0 0 0 0 0 0 0 0 0 0 0 0 0 0 0.

Lemma user_calls_reach_kernel_witness :
  fill_rect 8192 zero_regs (-3) 7 (-1) 2147483647 255 ([] : log) = Some [(11, [-3; 7; -1; 2147483647; 255])] /\
  nvfs_write 8192 zero_regs 100 200 300 ([] : log) = Some (-1, [(19, [100; 200; 300])]) /\
  get_char 8192 zero_regs ([] : log) = Some (-56, [(7, [])]) /\
  syscall_handler 8192 (sys_yield zero_regs) ([] : log) = (4096, sys_yield zero_regs, [(29, [8192])]).
Proof.
  destruct (user_calls_reach_kernel 8192 zero_regs ([] : log) (-3) 7 (-1) 2147483647 100 200 300 255)
    as (V & C & F & S); [unfold int; lia..|].
  split; [exact (proj1 (proj2 (proj2 (proj2 (proj2 (proj2 (proj2 (proj2 V)))))))) |].
  split; [exact (proj1 (proj2 F))|]. split; [exact (proj1 C)|].
  apply (proj2 (proj2 S)). discriminate.
Defined.

End UserLib.

(** ** tests/triangle.c *)

Module Triangle.
Import Graphics.

(** A call of the library, in the order the program makes them; get_ticks
    and the queries for the screen are inputs of the model. *)
Inductive ucall :=
| PrintString (s : list Z) | ClearScreen | DrawPixel (x y color : Z) | SleepMs (ms : Z) | ReadChar | SysExit.

Definition color : Z := 16711680.

Definition delay : Z := 10.

(** One point of the game: half way to the corner that [r] names; [int]
    arithmetic, division rounds toward zero *)
Definition move (w h r : Z) (p : Z * Z) : Z * Z :=
  let '(x, y) := p in
  let '(x1, y1) := (0, i32 (h - 1)) in
  let '(x2, y2) := (Z.quot w 2, 0) in
  let '(x3, y3) := (i32 (w - 1), i32 (h - 1)) in
  if r =? 0 then (Z.quot (i32 (x + x1)) 2, Z.quot (i32 (y + y1)) 2)
  else if r =? 1 then (Z.quot (i32 (x + x2)) 2, Z.quot (i32 (y + y2)) 2)
  else (Z.quot (i32 (x + x3)) 2, Z.quot (i32 (y + y3)) 2).

(** The loop; [ticks] are the values get_ticks returns in turn. *)
Fixpoint points (w h : Z) (ticks : list Z) (p : Z * Z) : list (Z * Z) :=
  match ticks with
  | [] => []
  | t :: ticks => let p := move w h (t mod 3) p in p :: points w h ticks p
  end.

Definition draw_calls (ps : list (Z * Z)) : list ucall :=
  flat_map (fun '(x, y) => [DrawPixel x y color; SleepMs delay]) ps.

(** The program for a clock that returns [clock i] in round [i] *)
Definition main (graphics : bool) (w h : Z) (clock : nat -> Z) : list ucall :=
  if negb graphics then [PrintString (str "App requires graphics mode" ++ nl); SysExit]
  else
    ClearScreen :: draw_calls (points w h (map clock (seq 0 (Z.to_nat 50000))) (0, 0)) ++
    [PrintString (str "Sierpinski triangle done. Press any key..." ++ nl); ReadChar; SysExit].

(** What the calls do to the frame buffer, text apart *)
Definition paint (g : gfx) (m : memory) (c : ucall) : memory :=
  match c with
  | DrawPixel x y c => draw_pixel g m x y c
  | _ => m
  end.

(** Half way between two columns or rows of the screen *)
Lemma halfway (a b n : Z) : 0 <= a < n -> 0 <= b < n -> n < 65536 -> 0 <= Z.quot (i32 (a + b)) 2 < n.
Proof. intros. rewrite i32_small, Z.quot_div_nonneg by lia. div_mod_lia. Qed.

Section screen.

Context (g : gfx) (Hg : fb_ok g).

Let w := fb_width g.
Let h := fb_height g.

Definition visible (p : Z * Z) : Prop := on_screen g (fst p) (snd p).

Lemma move_visible (r : Z) (p : Z * Z) : visible p -> visible (move w h r p).
Proof.
  destruct p as [x y]. intros [Hx Hy]. cbn [fst snd] in *. pose proof (ok_width g Hg). pose proof (ok_height g Hg).
  assert (Hw : 0 <= Z.quot w 2 < w) by (subst w; rewrite Z.quot_div_nonneg by lia; div_mod_lia).
  assert (E1 : i32 (w - 1) = w - 1) by (subst w; apply i32_small; lia).
  assert (E2 : i32 (h - 1) = h - 1) by (subst h; apply i32_small; lia).
  unfold move. rewrite E1, E2. destruct (r =? 0), (r =? 1); split; apply halfway; subst w h; lia.
Qed.

Lemma points_visible (ticks : list Z) (p : Z * Z) : visible p -> Forall visible (points w h ticks p).
Proof.
  revert p. induction ticks as [|t ticks IH]; intros p Hp; cbn [points]; [constructor|].
  constructor; [by apply move_visible|]. apply IH. by apply move_visible.
Qed.

Lemma length_points (ticks : list Z) (p : Z * Z) : length (points w h ticks p) = length ticks.
Proof. revert p. induction ticks as [|t ticks IH]; intros p; cbn; [done|]. by rewrite IH. Qed.

Lemma draw_pixel_on (m : memory) (x y c : Z) : on_screen g x y ->
  draw_pixel g m x y c = pixel_write g m (pixel_addr g x y) c.
Proof. intros [Hx Hy]. unfold draw_pixel. repeat zcase; try lia. done. Qed.

Lemma draws_painted (ps : list (Z * Z)) (m : memory) : Forall visible ps ->
  painted g m (fold_left (paint g) (draw_calls ps) m)
    (fun x y => if bool_decide ((x, y) ∈ ps) then Some color else None).
Proof.
  revert m. induction ps as [|[x y] ps IH]; intros m Hv; [apply painted_refl|].
  apply Forall_cons in Hv as [Hp Hv]. cbn [draw_calls flat_map app fold_left paint]. fold (draw_calls ps).
  rewrite draw_pixel_on by exact Hp.
  eapply painted_ext; [eapply (painted_trans g); [exact (put_pixel g Hg m x y color Hp)|apply IH, Hv]|].
  intros x' y' _. cbv beta. destruct (bool_decide_reflect ((x', y') ∈ ps)) as [Hi|Hi].
  - by rewrite bool_decide_eq_true_2 by (right; exact Hi).
  - destruct ((x' =? x) && (y' =? y)) eqn:E; zbool.
    + subst. by rewrite bool_decide_eq_true_2 by left.
    + rewrite bool_decide_eq_false_2; [done|]. intros [E'|?]%elem_of_cons; [|done]. injection E' as -> ->.
      rewrite !Z.eqb_refl in E. discriminate E.
Qed.

(** On a screen of any size and whatever the clock returns, the triangle
    program clears the screen, draws 50000 points with a pause after each,
    every one of them on the screen, then waits for a key and exits; its
    drawing turns exactly the visited pixels red and changes nothing outside
    the frame buffer. *)
Theorem triangle_draws_on_screen (clock : nat -> Z) (m : memory) :
  exists ps done,
    main true w h clock = ClearScreen :: draw_calls ps ++ [done; ReadChar; SysExit] /\
    length ps = Z.to_nat 50000 /\ Forall visible ps /\
    painted g m (fold_left (paint g) (draw_calls ps) m)
      (fun x y => if bool_decide ((x, y) ∈ ps) then Some color else None).
Proof.
  exists (points w h (map clock (seq 0 (Z.to_nat 50000))) (0, 0)).
  eexists. split; [reflexivity|]. split; [by rewrite length_points, length_map, length_seq|].
  assert (Hv : Forall visible (points w h (map clock (seq 0 (Z.to_nat 50000))) (0, 0))).
  { apply points_visible. pose proof (ok_width g Hg). pose proof (ok_height g Hg). split; cbn; lia. }
  split; [exact Hv|]. by apply draws_painted.
Qed.

End screen.

(** A screen of 640 by 480 pixels of 32 bits *)
Definition vga : gfx := mkGfx 3758096384 true 640 480 2560 32 4.

Lemma vga_ok : fb_ok vga.
Proof. split; cbn; lia. Qed.

Lemma triangle_draws_on_screen_witness :
  exists ps done,
    main true 640 480 Z.of_nat = ClearScreen :: draw_calls ps ++ [done; ReadChar; SysExit] /\
    length ps = Z.to_nat 50000 /\ Forall (visible vga) ps.
Proof.
  destruct (triangle_draws_on_screen vga vga_ok Z.of_nat ∅) as (ps & done & E & L & V & _).
  exists ps, done. split; [exact E|]. split; [exact L|exact V].
Defined.

End Triangle.
