(* ===== verification/Boot.v ===== *)
(** * The start of the kernel: kernel_main of kernel/kernel.c

    The self tests kernel_main runs on the heap and on paging, and the
    mapping of the frame buffer.  The tests report to the serial log; a
    test's report is modelled as a truth value.  The theorems are about the
    composition of the components: the tests pass on every machine that has
    the memory they need, and what they leave behind. *)
From S2P Require Import Prelude Bytes Memory Lib Sync FrameAlloc Pfa Paging PagingProps Mmu Heap HeapProps Graphics Screen.

Module Boot.
Import Heap.

(** ** The tests of the heap *)

(** A call of the heap and what the caller does with its result; [Halt] and
    [NoFuel] are those of the heap. *)
Definition obind {A B} (o : outcome A) (f : A -> outcome B) : outcome B :=
  match o with Ret a => f a | Halt => Halt | NoFuel => NoFuel end.

#[local] Notation "'let!' p := x 'in' y" := (obind x (fun p => y)) (at level 10, p strict pattern, x at level 100, y at level 200).

(** [p[0] = c0; p[1] = c1; ...] *)
Fixpoint store_bytes (m : memory) (p : Z) (l : list Z) : memory :=
  match l with
  | [] => m
  | c :: l => store_bytes (store8 m p c) (p + 1) l
  end.

(** malloc, free and reuse: [None] when an allocation failed, else whether
    the last one succeeded *)
Definition heap_test (m : memory) : outcome (option bool * memory) :=
  let! (a, m) := malloc_impl heap_fuel m 32 in
  let! (b, m) := malloc_impl heap_fuel m 64 in
  let! (c, m) := malloc_impl heap_fuel m 128 in
  if negb (a =? 0) && negb (b =? 0) && negb (c =? 0) then
    let m := store_bytes m a [72; 101; 0] in
    let m := store_bytes m b [87; 111; 0] in
    let m := free_impl m a in
    let m := free_impl m b in
    let! (d, m) := malloc_impl heap_fuel m 96 in
    let m := if negb (d =? 0) then store_bytes m d [88] else m in
    Ret (Some (negb (d =? 0)), free_impl (free_impl m c) d)
  else Ret (None, m).

(** [for (i = 0; i < 64; i++) if (z[i]) { ok = 0; break; }] *)
Definition calloc_test (m : memory) : outcome (option bool * memory) :=
  let! (z, m) := calloc_impl heap_fuel m 1 64 in
  if negb (z =? 0) then Ret (Some (all_up 64 0 (fun i => load8 m (z + i) =? 0)), free_impl m z)
  else Ret (None, m).

(** The fifteen letters from A on and the final zero *)
Definition letters : list Z := seqZ 65 15 ++ [0].

Definition realloc_test (m : memory) : outcome (option bool * memory) :=
  let! (r, m) := malloc_impl heap_fuel m 16 in
  if negb (r =? 0) then
    let m := store_bytes m r letters in
    let! (rr, m) := realloc_impl heap_fuel m r 64 in
    if negb (rr =? 0)
    then Ret (Some (all_up 15 0 (fun i => load8 m (rr + i) =? 65 + i)), free_impl m rr)
    else Ret (None, m)
  else Ret (None, m).

(** heap_init and the tests in order: their reports, and the totals
    heap_walk prints at the end *)
Definition heap_tests (m : memory) : outcome (list (option bool) * (Z * Z * Z) * memory) :=
  let! (t1, m) := heap_test (heap_init m) in
  let! (t2, m) := calloc_test m in
  let! (t3, m) := realloc_test m in
  let! totals := heap_walk_impl heap_fuel m in
  Ret ([t1; t2; t3], totals, m).

(** ** The heap tests pass *)

Lemma store_bytes_same (m : memory) (p : Z) (l : list Z) :
  mem_same m (store_bytes m p l) (fun x => x < p \/ p + Z.of_nat (length l) <= x).
Proof.
  revert m p. induction l as [|c l IH]; intros m p; [by intros x _|]. cbn [store_bytes length].
  intros x Hx. rewrite IH by lia. apply load8_store8_ne. lia.
Qed.

Lemma store_bytes_at (m : memory) (p : Z) (l : list Z) (i : nat) (c : Z) :
  l !! i = Some c -> load8 (store_bytes m p l) (p + Z.of_nat i) = u8 c.
Proof.
  revert m p i. induction l as [|d l IH]; intros m p i; [done|]. destruct i as [|i]; cbn [store_bytes lookup list_lookup].
  - intros [= ->]. rewrite (store_bytes_same _ (p + 1) l) by lia. rewrite Z.add_0_r. apply load8_store8_eq.
  - intros Hi. rewrite <- (IH (store8 m p d) (p + 1) i Hi). f_equal. lia.
Qed.

(** A write of at most [k] bytes at the start of a region *)
Lemma store_bytes_repr (m : memory) (bs : list block) (p k : Z) (l : list Z) :
  heap_repr m bs -> (p, k) ∈ regions bs -> Z.of_nat (length l) <= k -> heap_repr (store_bytes m p l) bs.
Proof.
  intros Hr Hp Hl. apply (payload_write m _ bs p k Hr Hp).
  eapply mem_same_weaken; [apply store_bytes_same|]. cbn. lia.
Qed.

(** The calls on a heap that is a known list of blocks *)
Lemma malloc_at (m : memory) (size o : Z) (bs bs' : list block) :
  heap_repr m bs -> 0 < size <= HEAP_SIZE -> first_fit (need_of size) bs = Some (o, bs') ->
  exists m', malloc_impl heap_fuel m size = Ret (HEAP_START + o + 4, m') /\ heap_repr m' bs'.
Proof. intros Hr Hs. by apply malloc_first_fit; [|lia|apply (heap_fuel_ok m)]. Qed.

Lemma free_at (m : memory) (p : Z) (pre post bs bs' : list block) (sz : Z) :
  heap_repr m bs -> bs = pre ++ (sz, true) :: post -> p = HEAP_START + total pre + 4 ->
  free_blocks pre sz post = bs' -> heap_repr (free_impl m p) bs'.
Proof. intros Hr -> -> <-. exact (proj1 (free_impl_spec m pre post sz Hr)). Qed.

Lemma heap_test_passes (m : memory) : heap_repr m [(HEAP_SIZE, false)] ->
  exists m', heap_test m = Ret (Some true, m') /\ heap_repr m' [(HEAP_SIZE, false)].
Proof.
  intros H0. unfold heap_test.
  destruct (malloc_at m 32 0 _ [(40, true); (HEAP_SIZE - 40, false)] H0) as (m1 & -> & H1); [done..|].
  cbn [obind]. cbv beta iota.
  destruct (malloc_at m1 64 40 _ [(40, true); (72, true); (HEAP_SIZE - 112, false)] H1) as (m2 & -> & H2); [done..|].
  cbn [obind]. cbv beta iota.
  destruct (malloc_at m2 128 112 _ [(40, true); (72, true); (136, true); (HEAP_SIZE - 248, false)] H2)
    as (m3 & -> & H3); [done..|].
  cbn [obind]. cbv beta iota. change (negb _ && _ && _) with true. cbv iota zeta.
  apply (store_bytes_repr _ _ (HEAP_START + 0 + 4) 32 [72; 101; 0]) in H3; [|left|done].
  apply (store_bytes_repr _ _ (HEAP_START + 40 + 4) 64 [87; 111; 0]) in H3; [|right; left|done].
  apply (free_at _ (HEAP_START + 0 + 4) [] [(72, true); (136, true); (HEAP_SIZE - 248, false)] _
    [(40, false); (72, true); (136, true); (HEAP_SIZE - 248, false)] 40) in H3; [|done..].
  apply (free_at _ (HEAP_START + 40 + 4) [(40, false)] [(136, true); (HEAP_SIZE - 248, false)] _
    [(112, false); (136, true); (HEAP_SIZE - 248, false)] 72) in H3; [|done..].
  destruct (malloc_at _ 96 0 _ [(112, true); (136, true); (HEAP_SIZE - 248, false)] H3) as (m4 & -> & H4); [done..|].
  cbn [obind]. cbv beta iota. change (negb (HEAP_START + 0 + 4 =? 0)) with true. cbv iota.
  apply (store_bytes_repr _ _ (HEAP_START + 0 + 4) 104 [88]) in H4; [|left|done].
  eexists. split; [reflexivity|].
  apply (free_at _ (HEAP_START + 112 + 4) [(112, true)] [(HEAP_SIZE - 248, false)] _
    [(112, true); (HEAP_SIZE - 112, false)] 136) in H4; [|done..].
  by apply (free_at _ (HEAP_START + 0 + 4) [] [(HEAP_SIZE - 112, false)] _ [(HEAP_SIZE, false)] 112) in H4.
Qed.

Lemma calloc_test_passes (m : memory) : heap_repr m [(HEAP_SIZE, false)] ->
  exists m', calloc_test m = Ret (Some true, m') /\ heap_repr m' [(HEAP_SIZE, false)].
Proof.
  intros H0. unfold calloc_test, calloc_impl. change (u32 (1 * 64)) with 64.
  change ((1 =? 0) || (64 =? 0)) with false. change (4294967295 / 64 <? 1) with false. cbv iota.
  destruct (malloc_at m 64 0 _ [(72, true); (HEAP_SIZE - 72, false)] H0) as (m1 & -> & H1); [done..|].
  change (HEAP_START + 0 + 4 =? 0) with false. cbn [obind negb]. cbv beta iota.
  change (HEAP_START + 0 + 4 =? 0) with false. cbn [negb].
  destruct (Lib.lib_memset_spec m1 (HEAP_START + 0 + 4) 0 64) as [Hz Hs]; [done..|].
  eexists. split.
  - do 2 f_equal. f_equal. apply all_up_true. intros i Hi. by rewrite Hz by lia.
  - apply (free_at _ _ [] [(HEAP_SIZE - 72, false)] [(72, true); (HEAP_SIZE - 72, false)] _ 72); [|done..].
    apply (payload_write m1 _ _ (HEAP_START + 0 + 4) 64 H1); [left|exact Hs].
Qed.

Lemma realloc_test_passes (m : memory) : heap_repr m [(HEAP_SIZE, false)] ->
  exists m', realloc_test m = Ret (Some true, m') /\ heap_repr m' [(HEAP_SIZE, false)].
Proof.
  intros H0. unfold realloc_test.
  destruct (malloc_at m 16 0 _ [(24, true); (HEAP_SIZE - 24, false)] H0) as (m1 & -> & H1); [done..|].
  cbn [obind]. cbv beta iota. change (negb (HEAP_START + 0 + 4 =? 0)) with true. cbv iota zeta.
  set (p := HEAP_START + 0 + 4) in *. set (m2 := store_bytes m1 p letters).
  assert (Hd : forall i, 0 <= i < 15 -> load8 m2 (p + i) = 65 + i).
  { intros i Hi. unfold m2. replace (p + i) with (p + Z.of_nat (Z.to_nat i)) by lia.
    rewrite (store_bytes_at _ _ _ _ (65 + i)); [apply u8_small; lia|].
    unfold letters. rewrite lookup_app_l by (rewrite length_seqZ; lia). rewrite lookup_seqZ. lia. }
  apply (store_bytes_repr _ _ p 16 letters) in H1; [|left|done]. fold m2 in H1.
  destruct (realloc_client heap_fuel m2 _ p 16 64 H1) as (q & m3 & rest & E & _ & Hc);
    [left|lia|exact (heap_fuel_ok _ _ H1)|].
  pose proof (realloc_unfold heap_fuel m2 [] _ 16 64 H1 ltac:(lia)) as E2. cbv zeta in E2.
  change (HEAP_START + total [] + 4) with p in E2.
  change (block_need (align_up 64) <=? 16 + 8) with false in E2. cbv iota in E2.
  change (align_up 64) with 64 in E2.
  destruct (malloc_at m2 64 24 _ [(24, true); (72, true); (HEAP_SIZE - 96, false)] H1) as (m4 & E3 & H4); [done..|].
  rewrite E3 in E2. change (HEAP_START + 24 + 4 =? 0) with false in E2. cbv iota in E2.
  rewrite E2 in E. injection E as <- <-. rewrite E2. cbn [obind]. cbv beta iota.
  change (negb (HEAP_START + 24 + 4 =? 0)) with true. cbv iota.
  destruct Hc as [(Hq & _)|(bs' & k & _ & _ & _ & _ & _ & Hdat)]; [discriminate Hq|].
  eexists. split.
  - do 2 f_equal. f_equal. apply all_up_true. intros i Hi. rewrite Hdat, Hd by lia. apply Z.eqb_refl.
  - apply (payload_write m4 (Lib.lib_memcpy m4 (HEAP_START + 24 + 4) p 16) _ (HEAP_START + 24 + 4) 64) in H4;
      [|right; left|].
    + apply (free_at _ p [] [(72, true); (HEAP_SIZE - 96, false)] _
        [(24, false); (72, true); (HEAP_SIZE - 96, false)] 24) in H4; [|done..].
      by apply (free_at _ (HEAP_START + 24 + 4) [(24, false)] [(HEAP_SIZE - 96, false)] _ [(HEAP_SIZE, false)] 72) in H4.
    + destruct (Lib.lib_memcpy_spec m4 (HEAP_START + 24 + 4) p 16) as [_ Hs]; [done|right; unfold p; lia|].
      eapply mem_same_weaken; [exact Hs|]. cbn beta. lia.
Qed.

(** The heap tests of kernel_main pass whatever memory holds: after
    [heap_init] every allocation succeeds, the request for 96 bytes is
    served (from the two blocks freed before it), cleared memory reads as
    zero, [realloc] keeps the contents, and at the end the heap is one free
    block again, as [heap_walk] then reports. *)
Theorem boot_heap_tests_pass (m : memory) :
  exists m', heap_tests m = Ret ([Some true; Some true; Some true], (1, HEAP_SIZE, 0), m') /\
    heap_repr m' [(HEAP_SIZE, false)].
Proof.
  unfold heap_tests. destruct (heap_test_passes _ (heap_init_repr m)) as (m1 & -> & H1). cbn [obind]. cbv beta iota.
  destruct (calloc_test_passes m1 H1) as (m2 & -> & H2). cbn [obind]. cbv beta iota.
  destruct (realloc_test_passes m2 H2) as (m3 & -> & H3). cbn [obind]. cbv beta iota.
  destruct (heap_walk_totals heap_fuel m3 _ H3 (heap_fuel_ok _ _ H3)) as [-> _]. cbn [obind].
  exists m3. split; [done|exact H3].
Qed.

(** ** The tests of paging and the frame buffer *)

Section paging.

Import Paging.
Context {A : Type} `{FAL : FrameAllocatorLaws A}.

(** An access through the page tables; [None] is a page fault. *)
Definition translate (s : vm A) (v : Z) : option Z := option_map (fun f => f + v mod 4096) (get_page_mapping s v).

Definition vload32 (s : vm A) (v : Z) : option Z := load32 (vmem s) <$> translate s v.

Definition vstore32 (s : vm A) (v x : Z) : option (vm A) :=
  (fun a => with_mem s (store32 (vmem s) a x)) <$> translate s v.

Definition test_virt : Z := 15728640.

(** Reading and writing through both addresses of the frame, then free_frame *)
Definition page_access (s : vm A) (phys : Z) : option (option bool * vm A) :=
  _ ← vload32 s test_virt;
  _ ← vload32 s (test_virt + 4);
  s ← vstore32 s test_virt 305419896;
  a ← vload32 s phys;
  b ← vload32 s (phys + 4);
  Some (Some ((a =? 305419896) && (b =? 3405691582)), with_frames s (fa_free (frames s) phys)).

(** The first test: [None] is a page fault, otherwise the report ([None]
    when no frame was free) and the machine afterwards *)
Definition page_test (s : vm A) : option (option bool * vm A) :=
  let '(phys, fr) := fa_alloc (frames s) in
  let s := with_frames s fr in
  if phys =? 0 then Some (None, s)
  else
    s ← vstore32 s phys 3735928559;
    s ← vstore32 s (phys + 4) 3405691582;
    let '(r, s) := map_page s test_virt phys PAGE_WRITE in
    page_access s phys.

(** The second test, after the heap's *)
Definition mapping_test (s : vm A) : option bool * vm A :=
  let '(phys, fr) := fa_alloc (frames s) in
  let s := with_frames s fr in
  if phys =? 0 then (None, s)
  else
    let s := snd (map_page s test_virt phys PAGE_WRITE) in
    (Some (match get_page_mapping s test_virt with Some p => p =? frame_of phys | None => false end),
     with_frames s (fa_free (frames s) phys)).

(** The loop that maps the frame buffer *)
Definition map_framebuffer (pages : nat) (lfb : Z) (s : vm A) : vm A :=
  for_up pages 0 1
    (fun i s => snd (map_page s (u32 (lfb + i * 4096)) (u32 (lfb + i * 4096)) (Z.lor PAGE_WRITE PAGE_USER))) s.

(** The block at 0x1000 that the boot loader fills in *)
Definition vbe_init (s : vm A) (sc : Screen.screen) : vm A * Screen.screen :=
  let lfb := load32 (vmem s) 4096 in
  let vbe_w := load16 (vmem s) 4100 in
  let vbe_h := load16 (vmem s) 4102 in
  let vbe_p := load16 (vmem s) 4104 in
  let vbe_bpp := load8 (vmem s) 4106 in
  if negb (lfb =? 0) && negb (vbe_w =? 0) && negb (vbe_h =? 0) then
    let fb_size := u32 (vbe_h * vbe_p) in
    let pages := u32 (fb_size + 4095) / 4096 in
    let s := map_framebuffer (Z.to_nat pages) lfb s in
    let g := Graphics.init_graphics lfb vbe_w vbe_h vbe_p vbe_bpp in
    (s, Screen.clear_screen
          (Screen.mkScreen (Screen.cursor_x sc) (Screen.cursor_y sc) (Screen.capture_mode sc) (Screen.capture_buf sc)
             (Screen.capture_pos sc) (Screen.hw_cursor sc) (Screen.vram sc) g (Screen.log sc)))
  else (s, sc).

(** *** The frame buffer is mapped *)

(** One call of [map_page]: what it does to the page tables and how many
    frames it takes *)
Lemma map_page_step (s : vm A) (v phys flags : Z) :
  dir_wf (vmem s) (frames s) (kernel_page_dir s) -> 0 <= v < 4294967296 -> 0 <= phys < 4294967296 ->
  present (entry (vmem s) (kernel_page_dir s) (PDE_IDX v)) = true \/ 0 < fa_free_count (frames s) ->
  let s' := snd (map_page s v phys flags) in
  fst (map_page s v phys flags) = 0 /\ kernel_page_dir s' = kernel_page_dir s /\
  dir_wf (vmem s') (frames s') (kernel_page_dir s) /\
  (forall w, 0 <= w < 4294967296 -> walk (vmem s') (kernel_page_dir s) w =
     if w / 4096 =? v / 4096 then Some (mapped_pte phys flags) else walk (vmem s) (kernel_page_dir s) w) /\
  fa_free_count (frames s) =
    fa_free_count (frames s') +
    (if present (entry (vmem s) (kernel_page_dir s) (PDE_IDX v)) then 0 else 1).
Proof.
  intros Hwf Hv Hp Hc. destruct (map_page s v phys flags) as [r s'] eqn:E. cbn [fst snd].
  destruct (map_page_to_dir_spec s s' _ v phys flags r Hwf Hv Hp E) as (Hk & Hcase). unfold map_page, map_page_to_dir in E.
  destruct (present (entry (vmem s) (kernel_page_dir s) (PDE_IDX v))) eqn:Ep.
  - cbn [Z.eqb] in E. injection E as <- <-. destruct Hcase as [(_ & Hwf' & Hw)|(H & _)]; [|discriminate H].
    split; [done|]. split; [done|]. split; [exact Hwf'|]. split; [exact Hw|]. cbn [with_mem frames]. lia.
  - destruct Hc as [Hc|Hc]; [discriminate Hc|].
    pose proof (create_table_spec s (kernel_page_dir s) v flags Hwf Ep) as Hct.
    destruct (create_table_in_dir s (kernel_page_dir s) v flags) as [t s1].
    destruct Hct as (_ & _ & _ & [(-> & -> & Hall)|(Ht & Ea & _)]).
    + exfalso. pose proof (fa_alloc_succeeds (frames s) (proj1 Hwf) Hc) as Hs.
      destruct (fa_alloc (frames s)) as [a fr] eqn:Ea.
      destruct (fa_alloc_some (frames s) fr a (proj1 Hwf) Ea Hs) as (f & _ & Hf & Hu & _).
      rewrite Hall in Hu by lia. discriminate Hu.
    + rewrite (proj2 (Z.eqb_neq t 0) Ht) in E. cbn [Z.eqb] in E. injection E as <- <-.
      destruct Hcase as [(_ & Hwf' & Hw)|(H & _)]; [|discriminate H].
      split; [done|]. split; [done|]. split; [exact Hwf'|]. split; [exact Hw|]. cbn [with_mem frames].
      exact (fa_alloc_count (frames s) (frames s1) t (proj1 Hwf) Ea Ht).
Qed.

(** The 4 MB regions, one page table each, from that of [lfb] to that of
    page [k] *)
Definition regions_to (lfb k : Z) : Z := (lfb + k * 4096) / 4194304 - lfb / 4194304 + 1.

(** After the first [k] pages *)
Definition fb_inv (s : vm A) (lfb k : Z) (q : vm A) : Prop :=
  kernel_page_dir q = kernel_page_dir s /\ dir_wf (vmem q) (frames q) (kernel_page_dir s) /\
  (forall w, 0 <= w < 4294967296 -> walk (vmem q) (kernel_page_dir s) w =
     if (lfb / 4096 <=? w / 4096) && (w / 4096 <? lfb / 4096 + k) then Some (mapped_pte w 6)
     else walk (vmem s) (kernel_page_dir s) w) /\
  fa_free_count (frames s) <= fa_free_count (frames q) + (if k =? 0 then 0 else regions_to lfb (k - 1)) /\
  keeps_pdes (vmem s) (vmem q) (kernel_page_dir s) /\ adds_user_pdes (vmem s) (vmem q) (kernel_page_dir s).

Lemma mapped_pte_page (v w flags : Z) : v / 4096 = w / 4096 -> mapped_pte v flags = mapped_pte w flags.
Proof. intros E. unfold mapped_pte. by rewrite E. Qed.

Lemma fb_step (s q : vm A) (lfb k : Z) :
  0 <= lfb -> 0 <= k -> lfb + (k + 1) * 4096 <= 4294967296 ->
  regions_to lfb k <= fa_free_count (frames s) -> fb_inv s lfb k q ->
  fb_inv s lfb (k + 1) (snd (map_page q (u32 (lfb + k * 4096)) (u32 (lfb + k * 4096)) (Z.lor PAGE_WRITE PAGE_USER))).
Proof.
  intros Hl Hk Hend Hr (Ek & Hwf & Hw & Hc & Hkp & Hnew). set (v := u32 (lfb + k * 4096)).
  assert (Ev : v = lfb + k * 4096) by (unfold v; apply u32_small; lia).
  assert (Hv : 0 <= v < 4294967296) by lia.
  assert (Hp : present (entry (vmem q) (kernel_page_dir q) (PDE_IDX v)) = true \/
    (k = 0 \/ regions_to lfb (k - 1) < regions_to lfb k)).
  { destruct (Z.eq_dec k 0); [auto|].
    destruct (Z.eq_dec ((v - 4096) / 4194304) (v / 4194304)) as [Er|Er].
    - left. rewrite (PDE_IDX_eq v), <- Er, <- (PDE_IDX_eq (v - 4096)), Ek by lia.
      apply (walk_present _ _ _ (mapped_pte (v - 4096) 6)). rewrite Hw by lia.
      rewrite (proj2 (Z.leb_le _ _)), (proj2 (Z.ltb_lt _ _)) by div_mod_lia. done.
    - right. right. unfold regions_to in *. rewrite Ev in Er. clear -Er Hl n. div_mod_lia. }
  rewrite <- Ek in Hwf.
  destruct (map_page_step q v v (Z.lor PAGE_WRITE PAGE_USER) Hwf Hv Hv) as (Er & Ek' & Hwf' & Hw' & Hc').
  { destruct Hp as [Hp|Hp]; [by left|]. right. destruct (Z.eqb_spec k 0); [unfold regions_to in *; div_mod_lia|lia]. }
  destruct (map_page_pdes q v v (Z.lor PAGE_WRITE PAGE_USER) Hwf) as [Hkp' Hnew'].
  rewrite Ek in *. split; [done|]. split; [exact Hwf'|]. split; [|split; [|split]].
  - intros w Hwr. rewrite Hw', Hw by exact Hwr.
    destruct (Z.eqb_spec (w / 4096) (v / 4096)) as [E|E].
    + rewrite (proj2 (Z.leb_le _ _)), (proj2 (Z.ltb_lt _ _)) by div_mod_lia. cbn [andb]. f_equal. by apply mapped_pte_page.
    + assert ((w / 4096 <? lfb / 4096 + (k + 1)) = (w / 4096 <? lfb / 4096 + k)) as ->; [|done].
      destruct (Z.ltb_spec (w / 4096) (lfb / 4096 + k)), (Z.ltb_spec (w / 4096) (lfb / 4096 + (k + 1))); try done; div_mod_lia.
  - rewrite (proj2 (Z.eqb_neq (k + 1) 0)) by lia. replace (k + 1 - 1) with k by lia.
    assert (Hmon : k <> 0 -> regions_to lfb (k - 1) <= regions_to lfb k) by (unfold regions_to; div_mod_lia).
    assert (Hpos : 1 <= regions_to lfb k) by (unfold regions_to; div_mod_lia).
    destruct (present _); destruct (Z.eqb_spec k 0); lia.
  - apply (keeps_pdes_trans _ (vmem q)); [exact Hkp|]. intros i Hi Hpi. apply Hkp'; auto.
  - intros i Hi Habs Hpi. destruct (present (entry (vmem q) (kernel_page_dir s) i)) eqn:Eq.
    + rewrite Hkp' by auto. by apply Hnew.
    + destruct (Z.eq_dec i (PDE_IDX v)) as [->|Hne]; [by apply Hnew'|]. rewrite Hkp' in Hpi by auto. congruence.
Qed.

Lemma map_framebuffer_inv (s : vm A) (lfb : Z) (n : nat) :
  dir_wf (vmem s) (frames s) (kernel_page_dir s) -> 0 <= lfb -> lfb + Z.of_nat n * 4096 <= 4294967296 ->
  regions_to lfb (Z.of_nat n - 1) <= fa_free_count (frames s) ->
  fb_inv s lfb (Z.of_nat n) (map_framebuffer n lfb s).
Proof.
  intros Hwf Hl Hend Hr. unfold map_framebuffer.
  replace (Z.of_nat n) with (0 + Z.of_nat n * 1) at 1 by lia. apply for_up_ind.
  - split; [done|]. split; [exact Hwf|]. split; [|split; [cbn; lia|split; [apply keeps_pdes_refl|intros i _ ? ?; congruence]]].
    intros w Hw. destruct (Z.leb_spec (lfb / 4096) (w / 4096)), (Z.ltb_spec (w / 4096) (lfb / 4096 + 0)); try lia; done.
  - intros k q Hk Hq. rewrite !Z.mul_1_r in *. rewrite !Z.add_0_l in *.
    apply fb_step; [lia|lia|lia| |exact Hq]. unfold regions_to in *. div_mod_lia.
Qed.

(** C19: The frame buffer the boot loader announces is usable when graphics
    mode starts: for a page-aligned frame buffer inside the address space, as
    many free frames as it spans 4 MB regions, and no directory entry for
    these regions yet that lacks the write or the user bit, the memory
    management unit leads every byte of it to itself, writable and open to
    user programs; the translation and the rights of every page outside it
    stay the same, the page tables stay well formed, and the console draws to
    it.  The last condition is needed: [framebuffer_closed]. *)
Theorem framebuffer_mapped (s : vm A) (sc : Screen.screen) :
  let lfb := load32 (vmem s) 4096 in
  let size := load16 (vmem s) 4102 * load16 (vmem s) 4104 in
  dir_wf (vmem s) (frames s) (kernel_page_dir s) ->
  lfb <> 0 -> lfb mod 4096 = 0 -> load16 (vmem s) 4100 <> 0 -> 0 < size -> lfb + size <= 4294967296 ->
  (lfb + size - 1) / 4194304 - lfb / 4194304 + 1 <= fa_free_count (frames s) ->
  (forall a, lfb <= a < lfb + size -> present (entry (vmem s) (kernel_page_dir s) (PDE_IDX a)) = true ->
     Z.land (entry (vmem s) (kernel_page_dir s) (PDE_IDX a)) 7 = 7) ->
  let '(s', sc') := vbe_init s sc in
  (forall a, lfb <= a < lfb + size ->
     translate s' a = Some a /\ mmu (vmem s') (kernel_page_dir s') a = Some (4096 * (a / 4096), true, true)) /\
  (forall v, 0 <= v < 4294967296 -> v / 4096 < lfb / 4096 \/ (lfb + size + 4095) / 4096 <= v / 4096 ->
     mmu (vmem s') (kernel_page_dir s') v = mmu (vmem s) (kernel_page_dir s) v) /\
  dir_wf (vmem s') (frames s') (kernel_page_dir s') /\
  Graphics.lfb_ptr (Screen.fb sc') = lfb /\ Graphics.fb_active (Screen.fb sc') = true.
Proof.
  intros lfb size Hwf Hl Hal Hw0 Hsz Hend Hfr Hpde. unfold vbe_init.
  pose proof (load32_range (vmem s) 4096) as Hlr. fold lfb in Hlr |- *.
  assert (H16 : forall a, 0 <= load16 (vmem s) a < 65536)
    by (intros a; unfold load16; pose proof (load8_range (vmem s) a); pose proof (load8_range (vmem s) (a + 1)); lia).
  assert (Hh : load16 (vmem s) 4102 <> 0) by (intros E; subst size; rewrite E in Hsz; lia).
  rewrite (proj2 (Z.eqb_neq lfb 0)), (proj2 (Z.eqb_neq _ 0) Hw0), (proj2 (Z.eqb_neq _ 0) Hh) by exact Hl. cbn [negb andb].
  fold size. assert (Hmax : size <= 65535 * 65535) by (pose proof (H16 4102); pose proof (H16 4104); subst size; nia).
  rewrite (u32_small size), (u32_small (size + 4095)) by lia. set (pages := (size + 4095) / 4096).
  assert (Hp : 0 < pages) by (subst pages; div_mod_lia).
  destruct (map_framebuffer_inv s lfb (Z.to_nat pages)) as (Ek & Hwf' & Hw & _ & Hkp & Hnew).
  { exact Hwf. }
  { lia. }
  { subst pages. div_mod_lia. }
  { unfold regions_to. rewrite Z2Nat.id by lia. subst pages. div_mod_lia. }
  rewrite Z2Nat.id in Hw by lia. set (s' := map_framebuffer _ lfb s) in *. rewrite Ek.
  assert (H7 : forall a, mapped_pte a 6 = 4096 * (a / 4096) + 7) by done.
  split; [|split; [|split; [exact Hwf'|done]]].
  - intros a Ha. assert (Wa : walk (vmem s') (kernel_page_dir s) a = Some (4096 * (a / 4096) + 7)).
    { rewrite Hw by lia. rewrite (proj2 (Z.leb_le _ _)), (proj2 (Z.ltb_lt _ _)) by (subst pages; div_mod_lia). done. }
    split.
    + unfold translate. rewrite get_page_mapping_walk, Ek, Wa. cbn [option_map]. f_equal. rewrite frame_of_eq; div_mod_lia.
    + pose proof (PDE_IDX_range a) as Hi. rewrite (mmu_granted _ _ _ _ Wa); [f_equal; do 2 f_equal; rewrite frame_of_eq; div_mod_lia| | |].
      * rewrite <- (lor_aligned _ 7) by (lia || (rewrite Z.mul_comm; apply Z.mod_mul; lia)). apply lor_flag. by left.
      * rewrite <- (lor_aligned _ 7) by (lia || (rewrite Z.mul_comm; apply Z.mod_mul; lia)). apply lor_flag. by right.
      * destruct (present (entry (vmem s) (kernel_page_dir s) (PDE_IDX a))) eqn:Ep.
        -- rewrite Hkp by done. by apply Hpde.
        -- apply Hnew; [done|done|]. by apply (walk_present _ _ _ _ Wa).
  - intros v Hv Hout. unfold mmu. f_equal. apply translation_same; [exact Hkp|]. rewrite Hw by exact Hv.
    destruct (Z.leb_spec (lfb / 4096) (v / 4096)), (Z.ltb_spec (v / 4096) (lfb / 4096 + pages)); try done.
    subst pages. div_mod_lia.
Qed.

(** *** The test of paging passes *)

(** A frame that holds neither the directory nor a page table *)
Definition data_frame (m : memory) (dir t : Z) : Prop :=
  t mod 4096 = 0 /\ dir <> t /\
  forall i, 0 <= i < 1024 -> present (entry m dir i) = true -> frame_of (entry m dir i) <> t.

(** Writing to it does not change the translation. *)
Lemma data_write (m m' : memory) (fr : A) (dir t : Z) :
  dir_wf m fr dir -> data_frame m dir t -> same_but m m' t ->
  dir_wf m' fr dir /\ data_frame m' dir t /\ forall v, walk m' dir v = walk m dir v.
Proof.
  intros (Hok & Hd & Ht & Hi) (Hal & Hne & Hnt) Hs.
  assert (He : forall j, 0 <= j < 1024 -> entry m' dir j = entry m dir j) by (intros j Hj; apply Hs; [apply Hd|done|done]).
  split; [|split].
  - split; [done|]. split; [done|]. split.
    + intros j Hj. rewrite He by done. by apply Ht.
    + intros j k Hj Hk. rewrite !He by done. by apply Hi.
  - split; [done|]. split; [done|]. intros i Hir. rewrite He by done. by apply Hnt.
  - intros v. unfold walk. pose proof (PDE_IDX_range v) as Hr. rewrite He by done.
    destruct (present (entry m dir (PDE_IDX v))) eqn:Ep; [|done].
    rewrite (Hs (frame_of (entry m dir (PDE_IDX v)))); [done|apply frame_of_aligned|by apply Hnt|apply PTE_IDX_range].
Qed.

Lemma set_pte_data (m : memory) (dir t v x : Z) :
  dir mod 4096 = 0 -> data_frame m dir t -> present (entry m dir (PDE_IDX v)) = true ->
  frame_of (entry m dir (PDE_IDX v)) <> dir ->
  let m' := set_entry m (frame_of (entry m dir (PDE_IDX v))) (PTE_IDX v) x in
  data_frame m' dir t /\ forall j, 0 <= j < 1024 -> entry m' t j = entry m t j.
Proof.
  intros Hda (Hal & Hne & Hm) Hp Hd m'. pose proof (PDE_IDX_range v). pose proof (PTE_IDX_range v).
  assert (Hb := frame_of_aligned m dir (PDE_IDX v)). unfold m'. split.
  - split; [done|]. split; [done|]. intros i Hir. rewrite entry_set by done.
    rewrite (proj2 (Z.eqb_neq dir _)) by congruence. by apply Hm.
  - intros j Hjr. rewrite entry_set by done. rewrite (proj2 (Z.eqb_neq t _)); [done|]. by apply not_eq_sym, Hm.
Qed.

(** [map_page] leaves it alone: a table it adds is a frame that was free. *)
Lemma map_page_data (s : vm A) (t v phys flags : Z) :
  dir_wf (vmem s) (frames s) (kernel_page_dir s) -> data_frame (vmem s) (kernel_page_dir s) t -> table_ok (frames s) t ->
  let s' := snd (map_page s v phys flags) in
  data_frame (vmem s') (kernel_page_dir s) t /\ table_ok (frames s') t /\
  (forall j, 0 <= j < 1024 -> entry (vmem s') t j = entry (vmem s) t j).
Proof.
  intros Hwf (Hal & Hne & Hnt) Hu. set (dir := kernel_page_dir s) in *. pose proof (dir_aligned _ _ _ Hwf) as Hda.
  pose proof (PDE_IDX_range v) as Hi. pose proof (PTE_IDX_range v) as Hj.
  unfold map_page, map_page_to_dir. fold dir.
  set (pte := Z.lor (Z.lor (Z.land phys 4294963200) PAGE_PRESENT) _).
  destruct (present (entry (vmem s) dir (PDE_IDX v))) eqn:Ep.
  - cbn [Z.eqb snd with_mem vmem frames]. destruct (set_pte_data (vmem s) dir t v pte Hda (conj Hal (conj Hne Hnt)) Ep) as [H1 H2].
    { by apply Hwf. }
    split; [exact H1|]. split; [exact Hu|exact H2].
  - pose proof (create_table_spec s dir v flags Hwf Ep) as Hct. unfold create_table_in_dir in *.
    destruct (fa_alloc (frames s)) as [b fr] eqn:Ea. destruct (Z.eqb_spec b 0) as [->|Hb].
    { cbn [snd Z.eqb with_frames vmem frames] in *. destruct (fa_alloc_none _ _ (proj1 Hwf) Ea) as [-> _].
      by split; [split; [done|split; [done|exact Hnt]]|split]. }
    destruct Hct as (_ & _ & _ & [(H & _)|(_ & _ & Hwf1 & Hp1 & Hf1 & _)]); [contradiction|].
    destruct (table_ok_alloc _ _ _ t (proj1 Hwf) Ea Hb Hu) as [Hu' Htb].
    rewrite (proj2 (Z.eqb_neq b 0) Hb). cbn [Z.eqb snd with_mem with_frames vmem frames] in *.
    set (m1 := set_entry _ dir _ _) in *.
    assert (Hb4 : b mod 4096 = 0) by apply (table_ok_new _ _ _ (proj1 Hwf) Ea Hb).
    assert (He : forall d j, d mod 4096 = 0 -> d <> b -> 0 <= j < 1024 -> d <> dir \/ j <> PDE_IDX v ->
      entry m1 d j = entry (vmem s) d j).
    { intros d j Hd4 Hdb Hjr Hor. unfold m1. rewrite entry_set, entry_fill by done.
      rewrite (proj2 (Z.eqb_neq d b) Hdb).
      destruct (Z.eqb_spec d dir), (Z.eqb_spec j (PDE_IDX v)); [exfalso; lia|reflexivity..]. }
    clearbody m1.
    assert (Hdb : dir <> b) by (by apply (table_ok_alloc _ _ _ dir (proj1 Hwf) Ea Hb), Hwf).
    destruct (set_pte_data m1 dir t v pte) as [H1 H2].
    { exact Hda. }
    { split; [done|]. split; [done|]. intros i Hir Hpi. destruct (Z.eq_dec i (PDE_IDX v)) as [->|Hn].
      - rewrite Hf1. congruence.
      - rewrite He in Hpi |- * by auto. by apply Hnt. }
    { exact Hp1. }
    { rewrite Hf1. congruence. }
    split; [exact H1|]. split; [exact Hu'|]. intros j Hjr. rewrite H2, He by auto. done.
Qed.

(** A word of a mapped page *)
Lemma translate_page (s : vm A) (v p i : Z) :
  v mod 4096 = 0 -> 0 <= v < 4294967296 -> 0 <= i < 1024 -> get_page_mapping s v = Some p ->
  translate s (v + 4 * i) = Some (p + 4 * i).
Proof.
  intros Hal Hv Hi E. unfold translate.
  destruct (proj2 (idx_same_page (v + 4 * i) v ltac:(div_mod_lia) Hv) ltac:(div_mod_lia)) as [E1 E2].
  unfold get_page_mapping in *. rewrite E1, E2, E. cbn [option_map]. f_equal. div_mod_lia.
Qed.

Lemma vstore32_page (s : vm A) (v p i x : Z) :
  v mod 4096 = 0 -> 0 <= v < 4294967296 -> 0 <= i < 1024 -> get_page_mapping s v = Some p ->
  vstore32 s (v + 4 * i) x = Some (with_mem s (set_entry (vmem s) p i x)).
Proof. intros. unfold vstore32. by rewrite (translate_page s v p i). Qed.

Lemma vload32_page (s : vm A) (v p i : Z) :
  v mod 4096 = 0 -> 0 <= v < 4294967296 -> 0 <= i < 1024 -> get_page_mapping s v = Some p ->
  vload32 s (v + 4 * i) = Some (entry (vmem s) p i).
Proof. intros. unfold vload32. by rewrite (translate_page s v p i). Qed.

Lemma vstore32_start (s : vm A) (v p x : Z) :
  v mod 4096 = 0 -> 0 <= v < 4294967296 -> get_page_mapping s v = Some p ->
  vstore32 s v x = Some (with_mem s (set_entry (vmem s) p 0 x)).
Proof. intros. rewrite <- (vstore32_page s v p 0) by (done || lia). f_equal. lia. Qed.

Lemma vload32_start (s : vm A) (v p : Z) :
  v mod 4096 = 0 -> 0 <= v < 4294967296 -> get_page_mapping s v = Some p ->
  vload32 s v = Some (entry (vmem s) p 0).
Proof. intros. rewrite <- (vload32_page s v p 0) by (done || lia). f_equal. lia. Qed.

(** Giving back a data frame *)
Lemma free_data (m : memory) (fr : A) (dir t : Z) :
  dir_wf m fr dir -> data_frame m dir t -> table_ok fr t -> 
  dir_wf m (fa_free fr t) dir /\ fa_used (fa_free fr t) (t / 4096) = false.
Proof.
  intros (Hok & Hd & Ht & Hi) (Hal & Hne & Hnt) Hu. pose proof (table_ok_u32 fr t Hok Hu) as Hr.
  assert (H1 : FRAME_SIZE <= t < 4294967296) by (unfold FRAME_SIZE; destruct Hu as (_ & ? & _); div_mod_lia).
  destruct (fa_free_spec fr t Hok H1) as (Hok' & Htot & Hus). change FRAME_SIZE with 4096 in Hus.
  assert (Hk : forall b, table_ok fr b -> b <> t -> table_ok (fa_free fr t) b).
  { intros b (Hb & Hbr & Hbu) Hbt. split; [done|]. rewrite Htot. split; [done|]. rewrite Hus, Hbu by lia.
    rewrite (proj2 (Z.eqb_neq _ _)); [done|]. div_mod_lia. }
  split.
  - split; [done|]. split; [by apply Hk|]. split; [|done]. intros i Hir Hp. destruct (Ht i Hir Hp) as [Hti ?].
    split; [|done]. apply Hk; [done|by apply Hnt].
  - rewrite Hus by (destruct Hu as (_ & ? & _); lia). by rewrite Z.eqb_refl.
Qed.

(** The entries the kernel's directory leads to *)
Definition kwalk (s : vm A) (v : Z) : option (Z * Z) := translation (vmem s) (kernel_page_dir s) v.

Lemma mapping_kwalk (s : vm A) (v : Z) : get_page_mapping s v = option_map (fun x => frame_of x.2) (kwalk s v).
Proof. rewrite get_page_mapping_walk, walk_translation. unfold kwalk. by destruct (translation _ _ _). Qed.

Lemma kwalk_mapping (s s' : vm A) (v : Z) : kwalk s' v = kwalk s v -> get_page_mapping s' v = get_page_mapping s v.
Proof. intros E. by rewrite !mapping_kwalk, E. Qed.

(** The machine after a write to a data frame *)
Lemma write_keeps (s : vm A) (t i x : Z) :
  dir_wf (vmem s) (frames s) (kernel_page_dir s) -> data_frame (vmem s) (kernel_page_dir s) t -> 0 <= i < 1024 ->
  let s' := with_mem s (set_entry (vmem s) t i x) in
  dir_wf (vmem s') (frames s') (kernel_page_dir s') /\ data_frame (vmem s') (kernel_page_dir s') t /\
  forall v, kwalk s' v = kwalk s v.
Proof.
  intros Hwf Hd Hi s'.
  destruct (data_write _ _ _ _ t Hwf Hd (same_but_set (vmem s) t i x (proj1 Hd) Hi)) as (H1 & H2 & H3).
  split; [exact H1|]. split; [exact H2|]. intros v. apply translation_same; [|apply H3].
  intros j Hj _. destruct Hd as (Ht & Hne & _).
  apply set_entry_pdes; [apply (dir_aligned _ _ _ Hwf)|exact Ht|congruence|exact Hi|exact Hj].
Qed.

(** The machine after the first two writes and [map_page], which is where
    both names of the frame lead to it *)
Lemma page_test_setup (s s0 : vm A) (phys : Z) (fr : A) :
  dir_wf (vmem s) (frames s) (kernel_page_dir s) -> fa_alloc (frames s) = (phys, fr) -> phys <> 0 ->
  1 <= fa_free_count fr -> get_page_mapping s phys = Some phys ->
  s0 = with_mem (with_frames s fr) (set_entry (set_entry (vmem s) phys 0 3735928559) phys 1 3405691582) ->
  let '(r, s') := map_page s0 test_virt phys PAGE_WRITE in
  kernel_page_dir s' = kernel_page_dir s /\
  dir_wf (vmem s') (frames s') (kernel_page_dir s) /\ data_frame (vmem s') (kernel_page_dir s) phys /\
  table_ok (frames s') phys /\ entry (vmem s') phys 1 = 3405691582 /\
  (forall w, 0 <= w < 4294967296 ->
     if w / 4096 =? test_virt / 4096 then option_map snd (kwalk s' w) = Some (mapped_pte phys PAGE_WRITE)
     else kwalk s' w = kwalk s w).
Proof.
  intros Hwf Ea Hp0 Hc Hid ->.
  destruct (dir_wf_alloc (vmem s) (frames s) fr (kernel_page_dir s) phys Hwf Ea Hp0) as (Hwf1 & Hne & Hnt).
  destruct (table_ok_new _ _ _ (proj1 Hwf) Ea Hp0) as (_ & Hu & Hpr). pose proof (proj1 Hu) as Hal.
  set (s1 := with_frames s fr).
  destruct (write_keeps s1 phys 0 3735928559 Hwf1 (conj Hal (conj Hne Hnt)) ltac:(lia)) as (Hwf2 & Hd2 & Hm2).
  set (s2 := with_mem s1 _) in *.
  destruct (write_keeps s2 phys 1 3405691582 Hwf2 Hd2 ltac:(lia)) as (Hwf3 & Hd3 & Hm3).
  set (s3 := with_mem s2 _) in *. change (with_mem _ _) with s3.
  destruct (map_page_step s3 test_virt phys PAGE_WRITE Hwf3) as (_ & Hk & Hwf4 & Hw4 & _);
    [unfold test_virt; lia|lia|right; cbn; lia|].
  destruct (map_page_data s3 phys test_virt phys PAGE_WRITE Hwf3 Hd3 Hu) as (Hd4 & Hu4 & He4).
  destruct (map_page_pdes s3 test_virt phys PAGE_WRITE Hwf3) as [Hkp _].
  destruct (map_page s3 test_virt phys PAGE_WRITE) as [r s4]. cbn [fst snd] in *.
  split; [exact Hk|]. split; [exact Hwf4|]. split; [exact Hd4|]. split; [exact Hu4|]. split.
  - rewrite He4 by lia. unfold s3. cbn [with_mem vmem]. rewrite entry_set by (done || lia). by rewrite !Z.eqb_refl.
  - intros w Hw. specialize (Hw4 w Hw). destruct (w / 4096 =? test_virt / 4096); unfold kwalk at 1; rewrite Hk.
    + by rewrite <- walk_translation.
    + change (kwalk s w) with (kwalk s1 w). rewrite <- Hm2, <- Hm3. apply translation_same; [|exact Hw4].
      intros i Hi Hp. apply Hkp; auto.
Qed.

(** Both addresses lead to the frame, so the accesses agree. *)
Lemma page_access_passes (s4 : vm A) (phys : Z) :
  dir_wf (vmem s4) (frames s4) (kernel_page_dir s4) -> data_frame (vmem s4) (kernel_page_dir s4) phys ->
  table_ok (frames s4) phys -> 0 <= phys < 4294967296 ->
  get_page_mapping s4 test_virt = Some phys -> get_page_mapping s4 phys = Some phys ->
  entry (vmem s4) phys 1 = 3405691582 ->
  exists s', page_access s4 phys = Some (Some true, s') /\ dir_wf (vmem s') (frames s') (kernel_page_dir s') /\
    fa_used (frames s') (phys / 4096) = false /\ forall w, kwalk s' w = kwalk s4 w.
Proof.
  intros Hwf4 Hd4 Hu4 Hpr Ht4 Hp4 He4. pose proof (proj1 Hu4) as Hal. unfold page_access.
  assert (Htv : test_virt mod 4096 = 0 /\ 0 <= test_virt < 4294967296) by done.
  rewrite (vload32_start s4 test_virt phys) by (done || lia). cbn [mbind option_bind].
  change (test_virt + 4) with (test_virt + 4 * 1).
  rewrite (vload32_page s4 test_virt phys 1) by (done || lia). cbn [mbind option_bind].
  rewrite (vstore32_start s4 test_virt phys) by (done || lia). cbn [mbind option_bind].
  destruct (write_keeps s4 phys 0 305419896 Hwf4 Hd4 ltac:(lia)) as (Hwf5 & Hd5 & Hm5).
  set (s5 := with_mem s4 _) in *.
  rewrite (vload32_start s5 phys phys) by (done || lia || (rewrite (kwalk_mapping _ _ _ (Hm5 phys)); exact Hp4)). cbn [mbind option_bind].
  change (phys + 4) with (phys + 4 * 1). rewrite (vload32_page s5 phys phys 1) by (done || lia || (rewrite (kwalk_mapping _ _ _ (Hm5 phys)); exact Hp4)). cbn [mbind option_bind].
  assert (E0 : entry (vmem s5) phys 0 = 305419896) by (unfold s5; cbn; rewrite entry_set by (done || lia); by rewrite Z.eqb_refl).
  assert (E1 : entry (vmem s5) phys 1 = 3405691582)
    by (unfold s5; cbn; rewrite entry_set by (done || lia); rewrite andb_false_r; exact He4).
  rewrite E0, E1. destruct (free_data _ _ _ phys Hwf5 Hd5 Hu4) as [Hwf6 Hfree].
  exists (with_frames s5 (fa_free (frames s5) phys)). split; [done|]. split; [exact Hwf6|]. split; [exact Hfree|exact Hm5].
Qed.

(** The paging test of kernel_main passes on every machine whose memory
    is mapped to itself and that has two free frames: a word written through
    the new address is read back through the old one, no access faults, and
    every page but the test's keeps its entry.  But the test's page stays
    mapped to its frame, which it has given back. *)
Theorem page_test_passes (s : vm A) :
  dir_wf (vmem s) (frames s) (kernel_page_dir s) -> 2 <= fa_free_count (frames s) ->
  (forall f, 0 < f < fa_total (frames s) -> get_page_mapping s (4096 * f) = Some (4096 * f)) ->
  exists f s', page_test s = Some (Some true, s') /\ dir_wf (vmem s') (frames s') (kernel_page_dir s') /\
    get_page_mapping s' test_virt = Some (4096 * f) /\ fa_used (frames s') f = false /\
    forall w, 0 <= w < 4294967296 -> w / 4096 <> test_virt / 4096 -> kwalk s' w = kwalk s w.
Proof.
  intros Hwf Hc Hid. unfold page_test. pose proof (fa_alloc_succeeds _ (proj1 Hwf) ltac:(lia)) as Hp0.
  destruct (fa_alloc (frames s)) as [phys fr] eqn:Ea. cbn [fst] in Hp0. rewrite (proj2 (Z.eqb_neq phys 0) Hp0).
  pose proof (fa_alloc_count _ _ _ (proj1 Hwf) Ea Hp0) as Hcount.
  destruct (fa_alloc_some _ _ _ (proj1 Hwf) Ea Hp0) as (f & Ef & Hf & _). unfold FRAME_SIZE in Ef.
  assert (Hidp : get_page_mapping s phys = Some phys) by (rewrite Ef, Z.mul_comm; by apply Hid).
  destruct (table_ok_new _ _ _ (proj1 Hwf) Ea Hp0) as (_ & Hu & Hpr). pose proof (proj1 Hu) as Hal.
  destruct (dir_wf_alloc (vmem s) (frames s) fr (kernel_page_dir s) phys Hwf Ea Hp0) as (Hwf1 & Hne & Hnt).
  set (s1 := with_frames s fr).
  destruct (write_keeps s1 phys 0 3735928559 Hwf1 (conj Hal (conj Hne Hnt)) ltac:(lia)) as (_ & _ & Hm2).
  rewrite (vstore32_start s1 phys phys) by (done || lia). cbn [mbind option_bind].
  change (phys + 4) with (phys + 4 * 1).
  rewrite (vstore32_page _ phys phys 1) by (done || lia || (rewrite (kwalk_mapping _ _ _ (Hm2 phys)); exact Hidp)). cbn [mbind option_bind].
  pose proof (page_test_setup s _ phys fr Hwf Ea Hp0 ltac:(lia) Hidp eq_refl) as Hs.
  change (with_mem (with_mem s1 _) _)
    with (with_mem (with_frames s fr) (set_entry (set_entry (vmem s) phys 0 3735928559) phys 1 3405691582)).
  destruct (map_page _ test_virt phys PAGE_WRITE) as [r s4]. destruct Hs as (Hk & Hwf4 & Hd4 & Hu4 & He4 & Hm4).
  assert (Hmp : option_map frame_of (Some (mapped_pte phys PAGE_WRITE)) = Some phys).
  { cbn [option_map]. f_equal. rewrite (proj2 (proj2 (proj2 (pte_value phys PAGE_WRITE ltac:(lia))))). div_mod_lia. }
  assert (Ht4 : get_page_mapping s4 test_virt = Some phys).
  { specialize (Hm4 test_virt ltac:(unfold test_virt; lia)). rewrite Z.eqb_refl in Hm4. rewrite mapping_kwalk, <- Hmp, <- Hm4.
    by destruct (kwalk s4 test_virt). }
  assert (Hp4 : get_page_mapping s4 phys = Some phys).
  { specialize (Hm4 phys ltac:(lia)). rewrite mapping_kwalk. destruct (_ =? _).
    - rewrite <- Hmp, <- Hm4. by destruct (kwalk s4 phys).
    - by rewrite Hm4, <- mapping_kwalk. }
  rewrite <- Hk in Hwf4, Hd4. destruct (page_access_passes s4 phys Hwf4 Hd4 Hu4 ltac:(lia) Ht4 Hp4 He4)
    as (s' & -> & Hwf6 & Hfree & Hm6).
  assert (Edf : phys / 4096 = f) by (rewrite Ef; apply Z.div_mul; lia). rewrite Edf in Hfree.
  exists f, s'. split; [done|]. split; [exact Hwf6|].
  rewrite (kwalk_mapping _ _ _ (Hm6 test_virt)), Ht4. split; [f_equal; lia|]. split; [exact Hfree|].
  intros w Hw Hne'. specialize (Hm4 w Hw). rewrite (proj2 (Z.eqb_neq _ _) Hne') in Hm4. by rewrite Hm6.
Qed.

End paging.

(** ** The tests of the frame allocator and of the atomic operations *)

(** Three consecutive frames: [None] when there are none *)
Definition frames_test (p : Pfa.pfa) (m : memory) : option memory * Pfa.pfa :=
  let '(cf, p) := Pfa.alloc_frames p 3 in
  if cf =? 0 then (None, p)
  else
    let m := store32 (store32 (store32 m cf 170) (cf + 4 * 512) 187) (cf + 4 * 1024) 204 in
    (Some m, Pfa.free_frames p cf 3).

(** The test gives back what it took and writes only to free frames. *)
Lemma frames_test_restores (p : Pfa.pfa) (m : memory) : Pfa.pfa_inv p ->
  let '(r, p') := frames_test p m in
  Pfa.pfa_inv p' /\ Pfa.total_frames p' = Pfa.total_frames p /\
  (forall g, 0 <= g < Pfa.total_frames p -> Pfa.used p' g = Pfa.used p g) /\
  match r with
  | Some m' => forall a, 0 <= a -> Pfa.used p (a / 4096) = true -> load8 m' a = load8 m a
  | None => p' = p
  end.
Proof.
  intros Hi. unfold frames_test. destruct (Pfa.alloc_frames p 3) as [cf p1] eqn:E.
  destruct (Z.eqb_spec cf 0) as [->|Hcf].
  { destruct (Pfa.alloc_frames_none p p1 3 Hi ltac:(lia) E) as [-> _]. done. }
  destruct (Pfa.alloc_frames_some p p1 3 cf Hi ltac:(lia) E Hcf) as (st & -> & Hst & Hend & _ & Hfree & Hi1 & Ht1 & Hu1).
  pose proof (@fa_total_range _ _ Pfa.pfa_frame_allocator_laws p Hi) as HT. change (fa_total p) with (Pfa.total_frames p) in HT.
  destruct (Pfa.free_frames_spec p1 (st * FRAME_SIZE) 3 Hi1) as (Hi2 & Ht2 & Hu2);
    [unfold FRAME_SIZE; lia|lia|unfold Pfa.FRAME, FRAME_SIZE; div_mod_lia|].
  assert (EF : Pfa.FRAME (st * FRAME_SIZE) = st) by (unfold Pfa.FRAME, FRAME_SIZE; div_mod_lia). rewrite EF in Hu2.
  split; [exact Hi2|]. split; [congruence|]. split.
  - intros g Hg. rewrite Hu2, Hu1 by lia. pose proof (Hfree g) as Hg'.
    destruct (Z.leb_spec st g), (Z.ltb_spec g (st + 3)); cbn [andb negb orb]; try done. by rewrite Hg' by lia.
  - intros a Ha Hua. assert (Hout : a / 4096 < st \/ st + 3 <= a / 4096).
    { destruct (Z.lt_ge_cases (a / 4096) st); [by left|]. right. apply Z.nlt_ge. intros Hlt.
      rewrite Hfree in Hua by lia. discriminate Hua. }
    unfold FRAME_SIZE. rewrite !load8_store32_ne by div_mod_lia. done.
Qed.

(** The reports of the tests of sync.h, in order *)
Definition sync_test : list bool :=
  let counter := Sync.atomic_dec (Sync.atomic_inc (Sync.atomic_inc (Sync.atomic_inc 0))) in
  let ok1 := counter =? 2 in
  let '(v, counter) := Sync.atomic_cmpxchg counter 2 99 in
  let ok2 := v =? 2 in
  let '(v, counter) := Sync.atomic_cmpxchg counter 2 88 in
  let '(ok3, ok4) := (v =? 99, counter =? 99) in
  let '(x, counter) := Sync.atomic_xchg counter 42 in
  [ok1; ok2; ok3; ok4; x =? 99; counter =? 42].

Example sync_test_passes : sync_test = [true; true; true; true; true; true].
Proof. reflexivity. Qed.

(** ** A machine with 16 frames, the first three the kernel's, and a frame
    buffer of 640 by 480 pixels *)

#[local] Existing Instances Pfa.pfa_frame_allocator Pfa.pfa_frame_allocator_laws.

Definition vbe_block : memory :=
  store32 (store32 (store32 ∅ 4096 3758096384) 4100 (640 + 65536 * 480)) 4104 (2560 + 65536 * 32).

Definition reset_vm : Paging.vm Pfa.pfa := Paging.mkVm vbe_block 0 0 false (Pfa.pfa_init Pfa.bss_pfa 12288 65536).

Definition booted_vm : Paging.vm Pfa.pfa := default reset_vm (Paging.init_paging 1 reset_vm 65536).

Lemma booted_vm_ok :
  Paging.dir_wf (Paging.vmem booted_vm) (Paging.frames booted_vm) (Paging.kernel_page_dir booted_vm) /\
  forall f, 0 < f < 16 -> Paging.get_page_mapping booted_vm (4096 * f) = Some (4096 * f).
Proof.
  destruct (Paging.init_paging_spec 0 1 reset_vm 65536) as (s' & E & _ & _ & Hwf & Hid & _);
    [apply Pfa.bss_pfa_init; lia|lia|lia|lia|lia|vm_compute; discriminate|].
  unfold booted_vm. rewrite E. split; [exact Hwf|]. intros f Hf. cbn [default from_option id].
  rewrite Paging.get_page_mapping_walk, (proj2 Hid), (proj2 (Z.ltb_lt _ _)) by lia. cbn [option_map].
  unfold Paging.id_pte. f_equal. rewrite Paging.frame_of_eq; div_mod_lia.
Qed.

Definition text_screen : Screen.screen :=
  Screen.mkScreen 0 0 false [] 0 0 ∅ (Graphics.mkGfx 0 false 0 0 0 0 0) [].

Lemma booted_no_pde (a : Z) : 3758096384 <= a < 3758096384 + 480 * 2560 ->
  Paging.present (Paging.entry (Paging.vmem booted_vm) (Paging.kernel_page_dir booted_vm) (Paging.PDE_IDX a)) = false.
Proof.
  intros Ha. rewrite Paging.PDE_IDX_eq by lia. replace (a / 4194304) with 896 by div_mod_lia. vm_compute. reflexivity.
Qed.

Lemma framebuffer_mapped_witness :
  let s' := fst (vbe_init booted_vm text_screen) in
  let mmu' := mmu (Paging.vmem s') (Paging.kernel_page_dir s') in
  mmu' 3758096384 = Some (3758096384, true, true) /\ translate s' 3759325183 = Some 3759325183 /\
  mmu' 3759325184 = mmu (Paging.vmem booted_vm) (Paging.kernel_page_dir booted_vm) 3759325184.
Proof.
  assert (El : load32 (Paging.vmem booted_vm) 4096 = 3758096384) by (vm_compute; reflexivity).
  assert (Ew : load16 (Paging.vmem booted_vm) 4100 = 640) by (vm_compute; reflexivity).
  assert (Eh : load16 (Paging.vmem booted_vm) 4102 = 480) by (vm_compute; reflexivity).
  assert (Ep : load16 (Paging.vmem booted_vm) 4104 = 2560) by (vm_compute; reflexivity).
  assert (Ef : fa_free_count (Paging.frames booted_vm) = 11) by (vm_compute; reflexivity).
  pose proof (framebuffer_mapped booted_vm text_screen) as H. cbv zeta in H. rewrite El, Ew, Eh, Ep, Ef in H.
  specialize (H (proj1 booted_vm_ok) ltac:(lia) eq_refl ltac:(lia) ltac:(lia) ltac:(lia) ltac:(done)).
  specialize (H ltac:(intros a Ha Hp; rewrite (booted_no_pde a Ha) in Hp; discriminate Hp)).
  destruct (vbe_init booted_vm text_screen) as [s' sc']. destruct H as (H1 & H2 & _). cbn [fst].
  split; [apply (H1 3758096384); lia|]. split; [apply H1; lia|]. apply H2; [lia|]. right. done.
Defined.

(** What the condition on the directory entries leaves out: the ACPI and APIC
    code maps device pages for the kernel only, and [map_page] does not
    change the flags of a directory entry that is there.  A frame buffer in
    such a region is closed to programs although its page-table entries have
    the user bit. *)
Theorem framebuffer_closed :
  let s := snd (Paging.map_page booted_vm 3760193536 3760193536 Paging.PAGE_WRITE) in
  let s' := map_framebuffer 2 3758096384 s in
  Paging.walk (Paging.vmem s') (Paging.kernel_page_dir s') 3758096384 = Some (3758096384 + 7) /\
  mmu (Paging.vmem s') (Paging.kernel_page_dir s') 3758096384 = Some (3758096384, true, false).
Proof. vm_compute. split; reflexivity. Qed.

Lemma page_test_passes_witness :
  exists f s', page_test booted_vm = Some (Some true, s') /\
    Paging.get_page_mapping s' test_virt = Some (4096 * f) /\ fa_used (Paging.frames s') f = false.
Proof.
  destruct (page_test_passes booted_vm) as (f & s' & E & _ & Hm & Hu & _).
  - apply booted_vm_ok.
  - vm_compute. discriminate.
  - intros f Hf. apply booted_vm_ok. exact Hf.
  - exists f, s'. split; [exact E|]. split; [exact Hm|exact Hu].
Defined.

End Boot.
