(* ===== verification/BootMem.v ===== *)
(** * Memory comes up: kernel_main of kernel/kernel.c

    What kernel_main does to memory from its first line to the end of the
    paging test: the boot loader's memory size at 0x100C, the frame
    allocator, the page tables, user access and the test, one after the
    other as in the code.  The calls in between set up segments, interrupts,
    the screen, the keyboard and the timer; they take no frames and do not
    touch the page tables. *)
From S2P Require Import Prelude Bytes Memory FrameAlloc Pfa Paging PagingProps Mmu Boot.

Module BootMem.
Import Paging Boot.

#[local] Existing Instances Pfa.pfa_frame_allocator Pfa.pfa_frame_allocator_laws.

(** [None]: a page fault, or the fuel for the loop of init_paging ran out *)
Definition boot_memory (fuel : nat) (bss_end : Z) (s : vm Pfa.pfa) : option (option bool * vm Pfa.pfa) :=
  let detected_ram := load32 (vmem s) 4108 in
  let s := with_frames s (Pfa.pfa_init (frames s) bss_end detected_ram) in
  s ← init_paging fuel s detected_ram;
  page_test (paging_enable_user_access s).

(** The regions of 4 MB that init_paging maps *)
Definition boot_regions (ram : Z) : Z := Z.max 1 ((ram + 4194303) / 4194304).

(** The kernel's image, the boot stack's frame and the BIOS area are below 1 MB:
    every frame above is free. *)
Lemma free_frames_after_init (bss_end ram : Z) :
  0 < bss_end <= 1048576 -> 0 <= ram < 4294967296 ->
  let p := Pfa.pfa_init Pfa.bss_pfa bss_end ram in
  fa_total p = Z.min ram Pfa.MAX_MEMORY / 4096 /\ fa_total p - 256 <= fa_free_count p.
Proof.
  intros Hb Hr p. destruct (Pfa.pfa_init_spec Pfa.bss_pfa bss_end ram) as (Hi & Ht & Hu);
    [done|apply Pfa.bss_pfa_bytes|intros; apply Pfa.bss_pfa_unused|lia|done|]. fold p in Hi, Ht, Hu.
  split; [exact Ht|]. unfold fa_free_count. change (fa_total p) with (Pfa.total_frames p).
  destruct (Z.le_gt_cases (Pfa.total_frames p) 256) as [Hle|Hgt].
  { pose proof (count_up_range (Z.to_nat (Pfa.total_frames p)) 0 (fun f => negb (fa_used p f))). lia. }
  replace (Z.to_nat (Pfa.total_frames p)) with (256 + Z.to_nat (Pfa.total_frames p - 256))%nat by lia.
  rewrite count_up_app, (count_up_true _ (0 + Z.of_nat 256)).
  - pose proof (count_up_range 256 0 (fun f => negb (fa_used p f))). lia.
  - intros f Hf. apply negb_true_iff. change (Pfa.used p f = false). rewrite Hu by lia. unfold Pfa.reserved.
    unfold FRAME_SIZE. by repeat (zcase; try div_mod_lia).
Qed.

(** Neither mapping nor the test touches the control registers or moves the
    directory. *)
Definition same_regs (s s' : vm Pfa.pfa) : Prop :=
  cr3 s' = cr3 s /\ paging_on s' = paging_on s /\ kernel_page_dir s' = kernel_page_dir s.

Lemma map_page_regs (s : vm Pfa.pfa) (v phys flags : Z) :
  let s' := snd (map_page s v phys flags) in same_regs s s'.
Proof.
  cbv zeta. unfold map_page, map_page_to_dir, create_table_in_dir.
  unfold same_regs. destruct (present _); [done|]. destruct (fa_alloc _) as [t fr]. destruct (t =? 0) eqn:E0; [done|]. by rewrite E0.
Qed.

Lemma page_test_regs (s s' : vm Pfa.pfa) (r : option bool) :
  page_test s = Some (r, s') -> same_regs s s'.
Proof.
  unfold same_regs, page_test, page_access, vstore32, vload32. destruct (fa_alloc _) as [phys fr].
  destruct (phys =? 0); [by intros [= _ <-]|]. destruct (translate _ phys); [|discriminate]. cbn [fmap option_fmap option_map mbind option_bind].
  destruct (translate _ (phys + 4)); [|discriminate]. cbn [fmap option_fmap option_map mbind option_bind].
  match goal with |- context [map_page ?q ?v ?f ?g] => pose proof (map_page_regs q v f g) as Hr; destruct (map_page q v f g) as [x s1] end.
  cbv zeta in Hr. unfold same_regs in *. cbn [snd cr3 paging_on kernel_page_dir with_mem with_frames] in *.
  repeat (match goal with |- (_ <$> ?t) ≫= _ = _ -> _ => destruct t end; [|discriminate];
    cbn [fmap option_fmap option_map mbind option_bind]).
  intros [= _ <-]. exact Hr.
Qed.

(** The tables of the boot and the frames of the test fit. *)
Lemma boot_frames_suffice (ram : Z) : 2097152 <= ram <= 4290772992 ->
  let n := boot_regions ram - 1 in
  0 <= n <= 1022 /\ n + 4 <= Z.min ram Pfa.MAX_MEMORY / 4096 - 256.
Proof. intros Hr n. subst n. unfold boot_regions, Pfa.MAX_MEMORY. div_mod_lia. Qed.

(** After init_paging and paging_enable_user_access: what the test needs *)
Lemma boot_paging (fuel : nat) (ram : Z) (s : vm Pfa.pfa) :
  fa_ok (frames s) -> boot_regions ram + 3 <= fa_free_count (frames s) ->
  2097152 <= ram <= 4290772992 -> boot_regions ram <= Z.of_nat fuel ->
  exists s1, init_paging fuel s ram = Some s1 /\ paging_on s1 = true /\ cr3 s1 = kernel_page_dir s1 /\
    let s2 := paging_enable_user_access s1 in
    dir_wf (vmem s2) (frames s2) (kernel_page_dir s2) /\ 2 <= fa_free_count (frames s2) /\
    fa_total (frames s2) = fa_total (frames s) /\
    forall w, 0 <= w < 4294967296 ->
      kwalk s2 w = if w <? boot_regions ram * 4194304 then Some (7, 4096 * (w / 4096) + 7) else None.
Proof.
  intros Hok Hc Hr Hfuel. destruct (boot_frames_suffice ram Hr) as [Hn _].
  assert (Hreg : ram <= boot_regions ram * 4194304 /\ (0 < boot_regions ram - 1 -> (boot_regions ram - 1) * 4194304 < ram))
    by (unfold boot_regions; div_mod_lia).
  set (n := boot_regions ram) in *. clearbody n.
  destruct (init_paging_spec (Z.to_nat (n - 1)) fuel s ram) as (s1 & E & Hon & Hcr & Hwf & [_ Hid] & (Htot & _ & Hcnt) & Hpd);
    [exact Hok|lia|lia|lia|lia|lia|]. rewrite Z2Nat.id in Hid, Hcnt, Hpd by lia.
  exists s1. split; [exact E|]. split; [exact Hon|]. split; [exact Hcr|]. cbv zeta.
  split; [exact (add_user_flag_wf s1 _ Hwf)|]. change (frames (paging_enable_user_access s1)) with (frames s1).
  split; [lia|]. split; [exact Htot|].
  intros w Hw. unfold kwalk. change (kernel_page_dir (paging_enable_user_access s1)) with (kernel_page_dir s1).
  unfold paging_enable_user_access. rewrite translation_walk, (add_user_flag_spec s1 _ w Hwf), Hid by exact Hw.
  replace (1 + (n - 1)) with n in * by lia. destruct (Z.ltb_spec w (n * 4194304)) as [Hlt|]; [|done].
  cbn [option_map]. unfold id_pte. f_equal. f_equal.
  { pose proof (PDE_IDX_range w). destruct (add_user_flag_inv s1 _ Hwf) as [Hd _]. rewrite Hd, (proj2 (Z.ltb_lt _ 1024)) by lia.
    assert (H3 : Z.land (entry (vmem s1) (kernel_page_dir s1) (PDE_IDX w)) 7 = 3)
      by (apply Hpd; rewrite PDE_IDX_eq by lia; div_mod_lia).
    unfold user_upd. rewrite (present_land7 _ 3 H3) by done. rewrite Z.land_lor_distr_l, H3. reflexivity. }
  assert (Hal : (4096 * (w / 4096)) mod 4096 = 0) by (rewrite Z.mul_comm; apply Z.mod_mul; lia).
  rewrite <- (lor_aligned _ 3), <- (lor_aligned _ 7), <- Z.lor_assoc by (exact Hal || lia). reflexivity.
Qed.

(** The boot from a frame allocator that manages the memory and has the
    frames the tables and the test need *)
Lemma boot_from (fuel : nat) (ram : Z) (s : vm Pfa.pfa) :
  fa_ok (frames s) -> fa_total (frames s) = Z.min ram Pfa.MAX_MEMORY / 4096 ->
  boot_regions ram + 3 <= fa_free_count (frames s) ->
  2097152 <= ram <= 4290772992 -> boot_regions ram <= Z.of_nat fuel ->
  exists f s', (s ← init_paging fuel s ram; page_test (paging_enable_user_access s)) = Some (Some true, s') /\
    paging_on s' = true /\ cr3 s' = kernel_page_dir s' /\
    dir_wf (vmem s') (frames s') (kernel_page_dir s') /\
    (forall w, 0 <= w < 4294967296 -> w / 4096 <> test_virt / 4096 ->
       mmu (vmem s') (kernel_page_dir s') w =
         if w <? boot_regions ram * 4194304 then Some (4096 * (w / 4096), true, true) else None) /\
    get_page_mapping s' test_virt = Some (4096 * f) /\ fa_used (frames s') f = false.
Proof.
  intros Hok Ht Hfree Hr Hfuel.
  destruct (boot_paging fuel ram s Hok Hfree Hr Hfuel) as (s1 & -> & Hon & Hcr & Hwf & Hc & Htot & Hid).
  cbn [mbind option_bind]. set (s2 := paging_enable_user_access s1) in *.
  destruct (page_test_passes s2 Hwf Hc) as (f & s' & Et & Hwf' & Hm & Hu & Hk).
  { intros f Hf. rewrite Htot, Ht in Hf. rewrite mapping_kwalk, Hid.
    - rewrite (proj2 (Z.ltb_lt _ _)) by (unfold boot_regions, Pfa.MAX_MEMORY in *; div_mod_lia). cbn [option_map snd]. f_equal.
      rewrite frame_of_eq; unfold Pfa.MAX_MEMORY in *; div_mod_lia.
    - unfold Pfa.MAX_MEMORY in *. div_mod_lia. }
  destruct (page_test_regs _ _ _ Et) as (Ec & Eo & Ek). exists f, s'. split; [exact Et|].
  split; [rewrite Eo; exact Hon|].
  split; [|split; [exact Hwf'|split; [|split; [exact Hm|exact Hu]]]].
  - rewrite Ec, Ek. exact Hcr.
  - intros w Hw Hne. unfold mmu. change (translation (vmem s') (kernel_page_dir s') w) with (kwalk s' w).
    rewrite Hk, Hid by done. destruct (w <? _); [|done]. cbn [option_map].
    assert (Hal : (4096 * (w / 4096)) mod 4096 = 0) by (rewrite Z.mul_comm; apply Z.mod_mul; lia).
    rewrite <- (lor_aligned _ 7 Hal), !lor_flag by (lia || auto). rewrite (lor_aligned _ 7 Hal) by lia.
    rewrite frame_of_eq by div_mod_lia. do 3 f_equal. div_mod_lia.
Qed.

(** C14: Memory comes up.  On every machine with 2 MB to 4092 MB of memory and
    the kernel's image below 1 MB, kernel_main reaches the end of its paging
    test without a page fault and the test passes: paging is on, the page
    tables are well formed, every page of the memory is mapped to itself,
    writable and open to user programs by the flags of the directory entry
    and of the page-table entry, and no page above the last 4 MB region is
    mapped, except that the test's own page stays mapped to a frame that is
    free again. *)
Theorem memory_comes_up (fuel : nat) (bss_end : Z) (s : vm Pfa.pfa) :
  let ram := load32 (vmem s) 4108 in
  frames s = Pfa.bss_pfa -> 0 < bss_end <= 1048576 -> 2097152 <= ram <= 4290772992 -> boot_regions ram <= Z.of_nat fuel ->
  exists f s', boot_memory fuel bss_end s = Some (Some true, s') /\
    paging_on s' = true /\ cr3 s' = kernel_page_dir s' /\
    dir_wf (vmem s') (frames s') (kernel_page_dir s') /\
    (forall w, 0 <= w < 4294967296 -> w / 4096 <> test_virt / 4096 ->
       mmu (vmem s') (kernel_page_dir s') w =
         if w <? boot_regions ram * 4194304 then Some (4096 * (w / 4096), true, true) else None) /\
    get_page_mapping s' test_virt = Some (4096 * f) /\ fa_used (frames s') f = false.
Proof.
  intros ram Hfr Hb Hr Hfuel. apply boot_from; [| | |exact Hr|exact Hfuel]; cbn [frames with_frames]; rewrite Hfr.
  - exact (Pfa.bss_pfa_init bss_end ram ltac:(lia) ltac:(lia)).
  - exact (proj1 (free_frames_after_init bss_end ram Hb ltac:(lia))).
  - pose proof (free_frames_after_init bss_end ram Hb ltac:(lia)) as [Ht Hc]. cbv zeta in Ht, Hc.
    pose proof (boot_frames_suffice ram Hr) as [_ Hfit]. cbv zeta in Hfit. eapply Z.le_trans; [|exact Hc]. rewrite Ht. lia.
Qed.

(** A machine with 3 MB and the kernel's image up to 0x90000 *)
Definition small_machine : vm Pfa.pfa := mkVm (store32 ∅ 4108 3145728) 0 0 false Pfa.bss_pfa.

Lemma memory_comes_up_witness :
  exists f s', boot_memory 1 589824 small_machine = Some (Some true, s') /\
    get_page_mapping s' test_virt = Some (4096 * f) /\ mmu (vmem s') (kernel_page_dir s') 2097152 = Some (2097152, true, true).
Proof.
  assert (El : load32 (vmem small_machine) 4108 = 3145728) by (vm_compute; reflexivity).
  destruct (memory_comes_up 1 589824 small_machine) as (f & s' & E & _ & _ & _ & Hid & Hm & _);
    [reflexivity|lia|rewrite El; lia|rewrite El; vm_compute; discriminate|].
  exists f, s'. split; [exact E|]. split; [exact Hm|]. rewrite El in Hid. rewrite Hid; [reflexivity|lia|vm_compute; discriminate].
Defined.

End BootMem.
